(* ===== verification/_CoqProject ===== *)
-Q . S2P
Prelude.v
Py.v
PyTime.v
Coerce.v
TimeWindow.v
RunMode.v
RunClaim.v
StateTransition.v
CleanupRetention.v
RetentionFold.v
BackupRetention.v
Store.v
RunRequests.v
StoreOutage.v
AppCommands.v
Daemon.v
DaemonLife.v
TrieRegex.v
RestoreChain.v
RestoreFind.v
Integrity.v
CopyGate.v
CopyGateProofs.v
ChainBreak.v
TelegramText.v
TelegramQueue.v
TelegramRows.v
TelegramThreads.v
TelegramLimits.v
DeleteFiles.v
BackupListing.v
Prune.v
PruneProofs.v
WorkflowSteps.v
StepWalk.v
Conversation.v
ConversationProofs.v
BackupSchedule.v
BackupScheduleProofs.v
BackupRuns.v
SqlText.v
SqlTextProofs.v
SqlScript.v
SqlScriptProofs.v
SqlTask.v
SqlTaskProofs.v
SqlRuns.v
SqlRunsProofs.v
SqlTable.v
SqlTableProofs.v
BackupCatalog.v
BackupCatalogProofs.v
OffloadConfig.v
OffloadConfigProofs.v
Offload.v
OffloadExpiryProofs.v
OffloadPass.v
OffloadPassProofs.v
WebAuth.v
WebAuthProofs.v
WebStore.v
WebStoreProofs.v
LoginLimitsProofs.v
