(* ===== verification/Prelude.v ===== *)
(** * DBA Brain: a verification library

    DBA Brain is a database operations tool in Python ([src/dbabrain]).  A daemon on each node
    starts app commands by a schedule, records each run in a store the nodes share, and cleans
    up after itself; the commands take backups, prune them, compare states and send alerts.
    This library models the rules that decide what is started, what is closed, what is deleted
    and what is said, and the store and daemon that act on them.

    ** Parts, and how they meet

    - [Prelude] (this file): results for code that raises, folds over fallible steps, facts on
      lists.  [Py]: the Python values, texts, integers and doubles the code relies on.
      [PyTime]: instants in microseconds, the calendar, ISO texts.  [Coerce] is
      [lib/coerce.py].
    - [TimeWindow] ([lib/time_window.py]): the window of a unit of work and the due rule.
      [RunMode] ([lib/run_mode.py]): how many runs at once.  [RunClaim] ([lib/run_claim.py]):
      who owns a running row and when it may be closed.  [StoreOutage]
      ([lib/store_outage.py]): which errors are waited out, and for how long.
    - [Store] ([db/store_job_runs.py], [db/store_base.py], the tables of
      [db/store_schema.py]): the run rows with the claim index and the checks, and their
      archive.  [RunRequests] ([db/run_requests.py]): the requests of the console, a state
      machine over rows, the step relation [store_step] of every client of the store, and two
      daemons racing for one request ([race_step]).
    - [AppCommands] ([jobs/daemon.py], [lib/node_role.py]): the command record and its
      loader.  [Daemon] ([jobs/daemon.py]): collecting, starting and scanning, over a world of
      store, slot table and live children.  [DaemonLife] ([jobs/daemon.py]): recovery at
      start-up, the retry loop of [main], shutdown.  The daemon calls the due rule on the
      latest row, [may_start] on its slots, the claim of a request, and the claim index through
      the insert of a run; recovery asks [RunClaim].
    - [BackupRetention] ([lib/backupfiles_retention.py]): which files of a listing are
      obsolete.  [CleanupRetention] and [RetentionFold] ([lib/cleanup_retention.py]): the
      windows a configuration states, and folding those of jobs onto their entry.
    - [StateTransition] ([lib/state_transition.py]): what changed between two runs, and
      whether to say so.
    - [RestoreChain] ([lib/sqlserver_backup_chain.py], the selection of
      [backup_restore/copy_backup.py]) and [RestoreFind] ([backup_restore/restore_find.py],
      the guard of [restore_database.py]): the files a restore point is reached by, and the
      search of a listing for them.  [Integrity] ([lib/integrity.py]): the settings that say
      when a backup is checked.  [ChainBreak] (that file): what a gap in the log sequence is
      called.
    - [CopyGate] and [CopyGateProofs] ([backup_restore/copy_gate.py]): copying a file to a
      place that may fail between any two steps, retried, and what is there after.
    - [SqlTable] and [SqlTableProofs] ([_insert], [_update] and the triggers of
      [db/backup_catalog.py]): tables with columns, checks, unique indexes, parents and first
      values that stay.  [BackupCatalog] and [BackupCatalogProofs] (that file, the words of
      [lib/integrity.py]): the six tables of backups, checks and restores, the methods of the
      store over them, and the chain of hashes over the rows of an entry.
    - [OffloadConfig] and [OffloadConfigProofs] ([lib/offload.py]): what an entry states of its
      copies on a repository.  [Offload] and [OffloadExpiryProofs]
      ([backup_restore/offload.py]): where a copy goes and which copies have outlived their
      retention.  [OffloadPass] and [OffloadPassProofs] (that file): a pass of an entry, over
      a catalog and two machines: files copied through [CopyGate] and proven, sources released
      and copies expired through [DeleteFiles].
    - [DeleteFiles] ([common/deletefiles.py], [common/hostcmd.py]): deleting named files on a
      host, with its refusals.  [BackupListing] ([common/backupfiles/]): the backups a
      directory holds.  [Prune] and [PruneProofs] ([backup_restore/prune.py], the targets of
      [backup_restore/backup.py]): list, plan by [BackupRetention], delete by [DeleteFiles],
      record, for each job of an inventory.
    - [BackupSchedule] and [BackupScheduleProofs] ([backup_restore/schedule.py], the pass and
      the stop of [backup_restore/backup.py]): which backup is due, its run row, the reaper,
      and a pass while others use the store.  [BackupRuns]: the processes that run one job,
      over [Store], with reapers by [RunClaim] and stops between any two calls.
    - [SqlText] and [SqlScript] ([lib/sql_text.py]), with [SqlTextProofs] and
      [SqlScriptProofs]: the text of a SQL script cut into literals, comments and code, the
      placeholders in it, its values bound, its statements, and the settings it states on a
      line of their own.  [SqlTask] and [SqlTaskProofs] ([sql_tasks/runner_parameters.py],
      [sql_tasks/runner_plan.py], the request of [sql_tasks/runner_execute.py], the statements
      of [common/sql_run.py]): what a task with its parameters sends to a database.  [SqlRuns]
      and [SqlRunsProofs] ([db/store_sql_runs.py], [sql_tasks/runner.py]): which task is due,
      its run row, the scan, the sweep of dead runs, the run an operator forces, and a row
      closed by hand.
    - [TrieRegex] ([lib/trie_regex.py]): one regular expression for a set of names.
    - [TelegramText] ([lib/telegram_text.py]): cutting a message into parts.  [TelegramQueue]
      and [TelegramRows] ([telegram/send_queue.py], the send rows of [db/store_telegram.py],
      [send_message] of [telegram/api.py]): the queue of outgoing messages, a table of rows
      several threads claim; [TelegramThreads] runs its threads in any order,
      [TelegramLimits] follows a message through the rate limits of the service.
    - [WorkflowSteps] ([lib/workflow_steps.py]): the steps of a command that asks its
      operator.  [StepWalk] ([telegram/command_conversation.py]): which question comes next.
      [Conversation] and [ConversationProofs] (that file, [telegram/command_processor.py], the
      states and trail of [db/store_telegram.py]): a reply is read, the answer or Back, Skip,
      Cancel is applied, and the next question asked or the command run.
    - [WebAuth] and [WebAuthProofs] ([lib/web_auth.py]): names, passwords and their stored
      hashes, tokens.  [WebStore], [WebStoreProofs] and [LoginLimitsProofs]
      ([db/web_auth_store.py]): accounts, sessions and login attempts, by blocks of a
      connection, and what limits the guesses of a password.

    ** What is shown

    - Scheduling: [explain_due] starts a unit exactly when one of four rules says so, the next
      time it prints is right, a repeating unit keeps 95 % of its interval; a window is open
      exactly when its bounds allow the clock, wrapping ones being cyclic ranges; what the
      parser returns is well formed, and written back and parsed it is the same.
    - The daemon: a scan keeps the number of live children of a command within its run mode
      however it ends, aside from children that outlived their stop, and starts nothing but what
      is scheduled or asked for on this node; recovery closes exactly the rows of this node
      whose run is over; shutdown leaves no open row behind, and no child but those its stop
      did not end.
    - The store: whatever its clients do, ids stay unique, no key is claimed twice, no foreign
      key dangles; one daemon's claim hands a request out once; the sweeps close what ended;
      the archive ends, and moves rows without losing any, whole but for the claim key.
    - Deletion: the plan of a prune is a partition of the listing, keeps the newest chain of
      every database, and in recovery-window mode keeps what every point of the window is
      restored from.  Folding retentions keeps the window of each job.  What a prune removes is
      of a directory of its entry, called obsolete by its plan, asked for and not locked; a
      deletion stays inside its fence, and the shell reads a quoted path as it is.
    - Backups: a pass answers each due job once and leaves no row of it open; two runs of one
      job on one host need a row that was taken from a run that goes on, by a stop, by another
      host or by the archive; a run is called done
      only when it was verified and recorded.
    - SQL tasks: a typed value never becomes part of a statement, and a value that is pasted
      into one ends no text of it; binding in one pass over the script is finding the names and
      then writing the marks; a name that is not among those declared is refused,
      except on SQL Server; a script is its statements, up to comments and semicolons; a setting is read from, and written to,
      exactly one line.  A scan answers each due task; a row is closed by another process only
      after its owner was asked to stop, found dead or found not to be the one that claimed, and
      is reported once.
    - Outages and alerts: reading an SQLSTATE ends on cyclic exception chains, an outage is
      waited out for exactly its budget, a state diff puts each key in its list, and a run that
      saw nothing new only sends reminders.
    - Restores: a chain that is found starts with a full backup, follows the log sequence and
      reaches the point asked for.  A copy that is called good is byte for byte the source and
      under the final name, whatever failed on the way.  The regular expression of a set of
      names matches those names and no other.
    - The catalog: whatever its methods do, every constraint holds, no row disappears, and a
      first checksum or size is never changed; a chain of rows nobody edited holds, and its
      newest hash binds every record before it, up to a collision among the texts hashed for it.
    - The repository copy: a copy is called verified only when every file its source listed is
      there byte for byte; a source is deleted only after its copy was hashed again and found
      to be what the backup recorded, and never of the newest chain; the repository loses only
      copies past their retention that nothing kept depends on, inside the entry's own folder.
      What an entry states is read to a well-formed record, which reads back the same.
    - Messages: the parts of a text carry every line of it in order; of one chat nothing
      overtakes a row that stays in the queue, no chat waits behind another, and a rate limit
      costs a message no part of it.
    - Conversations: a user is asked one question at a time, whatever messages arrive; a reply
      ends the run or asks exactly one question, with the answers given so far; Back returns to
      the question before it; a
      conversation that is answered ends, and asks in the order of the steps; the answers kept
      are those the answers themselves reach.
    - Accounts: sessions that were ended never answer again, and a token answers its account
      exactly while both last; wrong passwords tried against one account are bounded in any
      stretch of the lockout time, and one address alone locks nobody; a login is answered for
      the first reason there is, with one check and one row; a stored hash checks against its
      own password and says what it is made of.
    - Where the code does not do what it says, a theorem exhibits it: a retry interval longer
      than the repeat interval ([retry_never_delays_repeat]), retentions of two jobs of one
      name ([fold_merges_jobs_of_one_name]), two daemons and one request
      ([two_daemons_get_one_request]), a store lost between spawn and claim
      ([a_lost_insert_starts_a_sync_command_twice]), a refused request that stays claimed
      ([refused_request_stays_claimed]), an archived run-once command
      ([archived_run_once_runs_again]), a clock set back
      ([clock_set_back_ends_the_daemon]), a backup file with two sets
      ([an_appended_backup_loses_its_newest_full]), a Windows entry
      ([windows_entries_are_never_pruned]), a step list out of order
      ([unordered_list_keeps_an_answer]), a stop that did not stop
      ([a_stop_that_failed_frees_the_claim]), another host's overdue run
      ([a_foreign_run_is_due_before_it_is_reaped]), a job without a timeout
      ([no_timeout_is_never_reaped], [held_claim_refuses]), an undeclared parameter of a SQL
      Server task ([an_undeclared_name_is_refused_but_on_sql_server]), a forced run with a busy
      target ([a_forced_run_drops_the_targets_behind_a_running_one]), a message that could not
      be queued ([a_done_run_is_recorded_as_failed]), a run whose bookkeeping fails
      ([a_run_that_ends_may_keep_its_claim]), a size filled in later
      ([a_size_filled_in_reads_as_an_edit]), rows cut off the end of a chain
      ([a_chain_cut_short_still_holds]), a LOG that expires before the LOGs after it
      ([a_log_expires_before_the_logs_after_it]), a name used twice
      ([an_expired_row_takes_the_copy_of_a_newer_one]), a base directory without its
      manifest ([a_base_without_its_manifest_is_verified]), a child that does not die
      ([a_child_that_outlives_its_stop_is_joined]), an archive under a run
      ([an_archived_run_frees_its_claim]), a login beside a password change
      ([a_login_outlives_a_password_change]), a disabled account
      ([a_disabled_account_reads_as_unknown]), a raised cost
      ([a_raised_cost_locks_the_first_account_out]), a cost no C integer holds
      ([a_huge_cost_raises]) and logins at once ([logins_at_once_lock_an_account]).

    ** How it is modelled

    A dict is an association list in insertion order; an exception a constructor of the
    component's error type; a refusal that only carries a sentence keeps what it is about.
    Daemon operations are functions of the world into a value or an exception, and the world
    keeps what was done before the exception ([Daemon.D]); what an action keeps however it
    ends is [Daemon.keeps], with the hint database [keeps]; the class [store_blind] is what the
    daemon asks of the store.  A connection block of the store is one atomic
    step.  [archive_loop] takes fuel: one turn more than there are rows, enough because a turn
    that goes on removes a row; [walk] takes two more than there are exceptions, because an
    address is visited once.  The digits of a double ([shortest_digits]) are searched from one
    to seventeen with fuel eighteen, the month of a day among twelve.  Instants, integers and
    pids are unbounded, as in Python; doubles are binary64 ([SpecFloat]); the grace of the due
    rule is an integer of microseconds, checked against the binary64 arithmetic of the code by
    [due_grace_binary64].  White space, case and digits are those of ASCII.

    The tables of a conversation change by [conv_step], one constructor for each store call,
    and every operation of the bot is a sequence of them ([conv_steps]), so the invariant of
    the tables holds between any two calls.  [asked] and [converse] take one turn more than
    there are steps, enough because each question is later in the list than the one before.

    A backup pass is a state monad over the store and a count of its calls
    ([BackupSchedule.M]); before a call the store may change ([others]) in any way that keeps
    its invariant and opens no closed row ([stays_closed]).  [BackupRuns.run_step] has one
    constructor for each store call of a run, a reaper, a stop and the archive; its other
    clients leave the row of a run that goes on as it is.

    A SQL script is a list of ASCII characters, cut by scanners whose fuel is its length:
    every turn takes a character at least, so the pieces are the text again
    ([pieces_are_the_text]).  Values stay values: a statement and its values are two results,
    and two requests that differ in values only send the same texts.  What a driver does with
    the pair is not modelled.  The scan of SQL tasks is a monad over the table of runs, the
    queue of messages and a count of store calls; the work of a task, the clock, the stop of a
    process, what others do to the table and whether a call gets through are arguments.

    A row of the catalog is the dict a query returns, a method one transaction: its new state,
    or an error after which nothing changed.  [sha256], the clock's texts and what a driver
    answers are arguments; texts compare by bytes, and the text that is hashed is ASCII.  A
    pass of the repository copy is a monad over the catalog and the machines
    ([OffloadPass.P]), which keeps what was done before an error; the rows the copy gate
    writes of its own are the list [CopyGate] keeps.

    A connection block on the tables of accounts is one step, and before it the tables may
    change ([WebStore.others]); times are whole seconds, as they are stored.  PBKDF2, SHA-256,
    random draws and the clock are arguments ([WebStore.Env]).

    What a host answers to a command, what a directory lists and what Telegram replies are
    classes or variables ([DeleteFiles.Machine], [Prune.Lister]).  What the machine answers is
    an argument ([Daemon.Env]): clock, exit codes, pids, liveness, whether a stop ends a child
    ([ev_stops]; a child it does not end moves to [w_outlived]), whether a store call gets
    through.  Two facts are assumed where a theorem says so: pids of
    live children are not handed out again ([pids_fresh]), and the store answers a given call
    ([inserts_answered], [updates_answered]).

    ** What is not modelled

    The SQL of the stores as text, the migration of tables and the reading of JSON; the reads
    of the catalog that only print; log lines and
    messages to chats; the environment and command line of a child; the loaders of SQL tasks,
    what they do with the rows a database returns, and their Python sources; the other stores,
    the backup and restore drivers, metrics, reports, the pages and routes of the console and the
    Telegram app, which are I/O around rules like these. *)

From Stdlib Require Export Ascii ZArith Lia.
From Stdlib Require String.
From stdpp Require Export base tactics list strings gmap sorting pretty option.

(** ** Scope of the development's notations *)
Declare Scope dba_scope.
Delimit Scope dba_scope with dba.
Open Scope dba_scope.
#[global] Open Scope Z_scope.
#[global] Open Scope stdpp_scope.

(** ** Results: a value, or the error a [raise] statement names *)
Inductive result (E A : Type) : Type :=
| Ok (a : A)
| Err (e : E).
Arguments Ok {E A} a.
Arguments Err {E A} e.

#[export] Instance result_ret {E} : MRet (result E) := fun _ a => Ok a.
#[export] Instance result_bind {E} : MBind (result E) := fun _ _ f m =>
  match m with Ok a => f a | Err e => Err e end.
#[export] Instance result_fmap {E} : FMap (result E) := fun _ _ f m =>
  match m with Ok a => Ok (f a) | Err e => Err e end.

(** [raise_when b e] is the statement [if b: raise e]. *)
Definition raise_when {E} (b : bool) (e : E) : result E unit :=
  if b then Err e else Ok tt.

(** [m.map_err] is [try: ... except: raise other from exc]. *)
Definition result_catch {E F A} (m : result E A) (h : E -> result F A) : result F A :=
  match m with Ok a => Ok a | Err e => h e end.

Definition result_is_ok {E A} (m : result E A) : bool :=
  match m with Ok _ => true | Err _ => false end.

(** A loop that folds a fallible step over a list, stopping at the first error. *)
Fixpoint foldM {E A S} (f : S -> A -> result E S) (s : S) (l : list A) : result E S :=
  match l with
  | [] => Ok s
  | x :: l => match f s x with Ok s' => foldM f s' l | Err e => Err e end
  end.

Lemma result_bind_ok {E A B} (m : result E A) (f : A -> result E B) b :
  (m ≫= f) = Ok b <-> exists a, m = Ok a /\ f a = Ok b.
Proof.
  destruct m as [a|e]; cbn; split.
  - eauto.
  - intros (a' & [= ->] & H). done.
  - discriminate.
  - intros (a' & [=] & _).
Qed.

Lemma raise_when_ok {E} b (e : E) u : raise_when b e = Ok u <-> b = false.
Proof. destruct b, u; cbn; naive_solver. Qed.

Lemma foldM_inv {E A S} (P : S -> Prop) (f : S -> A -> result E S) :
  (forall s x s', P s -> f s x = Ok s' -> P s') ->
  forall l s s', P s -> foldM f s l = Ok s' -> P s'.
Proof.
  intros Hstep l. induction l as [|x l IH]; intros s s' HP H; cbn in H.
  - by injection H as <-.
  - destruct (f s x) eqn:E1; [|discriminate]. eauto.
Qed.

(** A loop of checks passes when each of them does. *)
Lemma foldM_checks {E A} (g : A -> result E unit) l u :
  foldM (fun _ x => g x) tt l = Ok u <-> Forall (fun x => g x = Ok tt) l.
Proof.
  destruct u. induction l as [|x l IH]; cbn; [by split|].
  rewrite list.Forall_cons. destruct (g x) as [[]|e] eqn:Hx; naive_solver.
Qed.
Lemma result_seq_ok {E A} (m : result E unit) (k : result E A) b :
  (m ≫= fun _ => k) = Ok b <-> m = Ok tt /\ k = Ok b.
Proof. destruct m as [[]|e]; cbn; naive_solver. Qed.
Lemma bind_ok {E A B} (a : A) (f : A -> result E B) : (Ok a ≫= f) = f a.
Proof. done. Qed.
Lemma bind_err {E A B} (e : E) (f : A -> result E B) : (Err e ≫= f) = Err e.
Proof. done. Qed.

(** ** Lists filtered by a boolean *)
Lemma elem_of_filter_bool {A} (q : A -> bool) l x : x ∈ List.filter q l <-> x ∈ l /\ q x = true.
Proof. rewrite !list_elem_of_In. apply filter_In. Qed.
Lemma filter_partition {A} (p : A -> bool) l :
  List.filter (fun x => negb (p x)) l ++ List.filter p l ≡ₚ l.
Proof.
  induction l as [|x l IH]; cbn; [done|]. destruct (p x); cbn.
  - rewrite <-Permutation_middle. by rewrite IH.
  - by rewrite IH.
Qed.
Lemma filter_all_length {A} (p : A -> bool) l :
  length (List.filter p l) = length l -> List.filter p l = l.
Proof.
  induction l as [|x l IH]; cbn; [done|]. destruct (p x); cbn.
  - intros [= H]. f_equal. by apply IH.
  - intros H. pose proof (filter_length_le p l). lia.
Qed.
Lemma map_filter_sublist {A B} (f : A -> B) (p : A -> bool) l :
  sublist (map f (List.filter p l)) (map f l).
Proof. induction l as [|x l IH]; cbn; [constructor|]. destruct (p x); cbn; by constructor. Qed.
Lemma NoDup_map_inj {A B} (f : A -> B) l x y :
  NoDup (map f l) -> x ∈ l -> y ∈ l -> f x = f y -> x = y.
Proof.
  induction l as [|z l IH]; cbn; [by intros _ ?%not_elem_of_nil|].
  intros [Hn Hnd]%list.NoDup_cons [->|Hx]%list.elem_of_cons [->|Hy]%list.elem_of_cons Hf; [done| | |by apply IH].
  - destruct Hn. rewrite Hf. apply list_elem_of_fmap. by exists y.
  - destruct Hn. rewrite <-Hf. apply list_elem_of_fmap. by exists x.
Qed.

(** ** Sorting under a map *)
Section merge_sort_map.
Context {A B : Type} (f : A -> B) (R1 : relation A) (R2 : relation B).
Context `{!RelDecision R1, !RelDecision R2}.
Hypothesis Hf : forall x y, R2 (f x) (f y) <-> R1 x y.

Lemma list_merge_map l1 l2 :
  list_merge R2 (map f l1) (map f l2) = map f (list_merge R1 l1 l2).
Proof using Hf.
  revert l2. induction l1 as [|x1 l1 IH1]; intros l2; [by destruct l2|].
  induction l2 as [|x2 l2 IH2]; [done|]. cbn [map]. rewrite !list_merge_cons.
  destruct (decide (R2 (f x1) (f x2))) as [H|H], (decide (R1 x1 x2)) as [H'|H'].
  - cbn [map]. f_equal. apply (IH1 (x2 :: l2)).
  - by apply Hf in H.
  - by apply Hf in H'.
  - cbn [map]. f_equal. apply IH2.
Qed.

Lemma merge_list_to_stack_map st l :
  merge_list_to_stack R2 (map (option_map (map f)) st) (map f l) =
  map (option_map (map f)) (merge_list_to_stack R1 st l).
Proof using Hf.
  revert l. induction st as [|[l'|] st IH]; intros l; [done| |done]. cbn.
  f_equal. by rewrite list_merge_map, IH.
Qed.

Lemma merge_stack_map st :
  merge_stack R2 (map (option_map (map f)) st) = map f (merge_stack R1 st).
Proof using Hf.
  induction st as [|[l'|] st IH]; [done| |done]. cbn. by rewrite IH, list_merge_map.
Qed.

(** Sorting commutes with a map that keeps the order. *)
Lemma merge_sort_map l : merge_sort R2 (map f l) = map f (merge_sort R1 l).
Proof using Hf.
  unfold merge_sort. change (@nil (option (list B))) with (map (option_map (map f)) (@nil (option (list A)))).
  generalize (@nil (option (list A))). induction l as [|x l IH]; intros st; cbn [merge_sort_aux map].
  - apply merge_stack_map.
  - change [f x] with (map f [x]). by rewrite merge_list_to_stack_map, IH.
Qed.
End merge_sort_map.

(** ** Python's [sorted]: a stable sort by a total preorder *)
Section stable_sort.
Context {A : Type} (leb : A -> A -> bool).

Fixpoint insert_sorted (x : A) (l : list A) : list A :=
  match l with
  | [] => [x]
  | y :: l' => if leb x y then x :: l else y :: insert_sorted x l'
  end.
Definition sort_by (l : list A) : list A := foldr insert_sorted [] l.
(** [sorted(..., reverse=True)] keeps equal elements in their order too. *)
Definition sort_desc (l : list A) : list A := reverse (sort_by (reverse l)).

Lemma insert_sorted_perm x l : insert_sorted x l ≡ₚ x :: l.
Proof.
  induction l as [|y l IH]; cbn; [done|]. destruct (leb x y); [done|]. rewrite IH. constructor.
Qed.
Lemma sort_by_perm l : sort_by l ≡ₚ l.
Proof.
  induction l as [|x l IH]; [done|]. change (insert_sorted x (sort_by l) ≡ₚ x :: l).
  by rewrite insert_sorted_perm, IH.
Qed.
Lemma elem_of_sort_by x l : x ∈ sort_by l <-> x ∈ l.
Proof. by rewrite sort_by_perm. Qed.

(** A sorted list is left as it is: the sort only needs its neighbours in order. *)
Lemma sort_by_id l : StronglySorted (fun x y => leb x y = true) l -> sort_by l = l.
Proof.
  induction 1 as [|x l Hl IH Hx]; [done|]. change (insert_sorted x (sort_by l) = x :: l). rewrite IH.
  destruct l as [|y l]; cbn; [done|]. apply list.Forall_cons in Hx as [-> _]. done.
Qed.

Hypothesis leb_total : forall x y, leb x y = true \/ leb y x = true.
Hypothesis leb_trans : forall x y z, leb x y = true -> leb y z = true -> leb x z = true.

Lemma insert_sorted_sorted x l : StronglySorted (fun x y => leb x y = true) l ->
  StronglySorted (fun x y => leb x y = true) (insert_sorted x l).
Proof using leb_total leb_trans.
  induction 1 as [|y l Hl IH Hy]; cbn; [repeat constructor|]. destruct (leb x y) eqn:E.
  - constructor; [by constructor|]. constructor; [done|].
    eapply list.Forall_impl; [exact Hy|]. intros z. by apply leb_trans.
  - constructor; [done|]. rewrite insert_sorted_perm. constructor; [|done].
    destruct (leb_total x y); congruence.
Qed.
Lemma sort_by_sorted l : StronglySorted (fun x y => leb x y = true) (sort_by l).
Proof using leb_total leb_trans.
  induction l as [|x l IH]; [constructor|]. by apply insert_sorted_sorted.
Qed.

Lemma filter_insert_sorted (p : A -> bool) x l : StronglySorted (fun x y => leb x y = true) l ->
  List.filter p (insert_sorted x l) =
  if p x then insert_sorted x (List.filter p l) else List.filter p l.
Proof using leb_trans.
  induction 1 as [|y l Hl IH Hy]; cbn; [by destruct (p x)|].
  destruct (leb x y) eqn:E; cbn.
  - destruct (p x), (p y); cbn; [by rewrite E| |done|done].
    destruct (List.filter p l) as [|z l'] eqn:El; [done|]. cbn.
    assert (z ∈ l) as Hz by (apply (elem_of_filter_bool p); rewrite El; left).
    rewrite list.Forall_forall in Hy. by rewrite (leb_trans x y z) by auto.
  - rewrite IH. destruct (p x), (p y); cbn; by rewrite ?E.
Qed.
(** Being stable, sorting commutes with filtering. *)
Lemma filter_sort_by (p : A -> bool) l : List.filter p (sort_by l) = sort_by (List.filter p l).
Proof using leb_total leb_trans.
  induction l as [|x l IH]; [done|]. change (sort_by (x :: l)) with (insert_sorted x (sort_by l)).
  rewrite filter_insert_sorted by apply sort_by_sorted. rewrite IH. cbn. by destruct (p x).
Qed.
End stable_sort.

(** ** Filters that keep all, or nothing *)
Lemma filter_true {A} (p : A -> bool) l : (forall x, x ∈ l -> p x = true) -> List.filter p l = l.
Proof.
  induction l as [|x l IH]; cbn; intros H; [done|]. rewrite (H x) by left. f_equal. apply IH.
  intros y Hy. apply H. by right.
Qed.
Lemma filter_false {A} (p : A -> bool) l : (forall x, x ∈ l -> p x = false) -> List.filter p l = [].
Proof.
  induction l as [|x l IH]; cbn; intros H; [done|]. rewrite (H x) by left. apply IH.
  intros y Hy. apply H. by right.
Qed.

(** Sorting under a map, where the two orders agree on the elements there are. *)
Lemma sort_by_map {A B} (f : A -> B) (leb1 : A -> A -> bool) (leb2 : B -> B -> bool) l :
  ForallOrdPairs (fun x y => leb2 (f x) (f y) = leb1 x y) l ->
  sort_by leb2 (map f l) = map f (sort_by leb1 l).
Proof.
  induction 1 as [|x l Hx Hl IH]; [done|].
  change (insert_sorted leb2 (f x) (sort_by leb2 (map f l)) = map f (insert_sorted leb1 x (sort_by leb1 l))).
  rewrite IH. rewrite <- (sort_by_perm leb1 l) in Hx. clear IH Hl.
  induction Hx as [|y s Hy Hs IH]; [done|]. cbn. rewrite Hy. destruct (leb1 x y); [done|]. cbn. by rewrite IH.
Qed.
