(* ===== verification/Py.v ===== *)
(** * The Python values, strings and conversions the components use.

    A JSON document or a store row reaches the code as Python objects; [pyval] is that
    universe, and the definitions below are the built-ins the source calls on it: truth
    value, [==], [str], [repr], [int], [str.strip], [str.lower], [str.replace], ...
    Strings are the UTF-8 bytes of the text; case mapping and whitespace are those of
    ASCII (a letter outside ASCII is kept as it is). *)

From S2P Require Import Prelude.
From Stdlib Require Import SpecFloat.

(** ** Characters and strings *)
Definition code (a : ascii) : Z := Z.of_N (N_of_ascii a).
Definition chr (z : Z) : ascii := ascii_of_N (Z.to_N z).
Definition between (lo x hi : Z) : bool := (lo <=? x) && (x <=? hi).

(** [str.isspace] on ASCII, and the smaller set [int()] skips. *)
Definition is_space (a : ascii) : bool :=
  between 9 (code a) 13 || between 28 (code a) 32.
Definition is_c_space (a : ascii) : bool := between 9 (code a) 13 || (code a =? 32).
Definition is_digit (a : ascii) : bool := between 48 (code a) 57.
Definition is_upper (a : ascii) : bool := between 65 (code a) 90.
Definition is_lower (a : ascii) : bool := between 97 (code a) 122.
Definition is_alpha (a : ascii) : bool := is_upper a || is_lower a.
Definition is_alnum (a : ascii) : bool := is_alpha a || is_digit a.
Definition to_lower (a : ascii) : ascii := if is_upper a then chr (code a + 32) else a.
Definition to_upper (a : ascii) : ascii := if is_lower a then chr (code a - 32) else a.

Fixpoint chars (s : string) : list ascii :=
  match s with EmptyString => [] | String a s => a :: chars s end.
Fixpoint text (l : list ascii) : string :=
  match l with [] => EmptyString | a :: l => String a (text l) end.

Fixpoint drop_while {A} (p : A -> bool) (l : list A) : list A :=
  match l with [] => [] | a :: l' => if p a then drop_while p l' else l end.
Fixpoint take_while {A} (p : A -> bool) (l : list A) : list A :=
  match l with [] => [] | a :: l' => if p a then a :: take_while p l' else [] end.
Definition trim (p : ascii -> bool) (l : list ascii) : list ascii :=
  reverse (drop_while p (reverse (drop_while p l))).

Definition strip (s : string) : string := text (trim is_space (chars s)).
Definition strip_chars (cs s : string) : string :=
  text (trim (fun a => bool_decide (a ∈ chars cs)) (chars s)).
Definition rstrip_chars (cs s : string) : string :=
  text (reverse (drop_while (fun a => bool_decide (a ∈ chars cs)) (reverse (chars s)))).
Definition lower (s : string) : string := text (map to_lower (chars s)).
Definition upper (s : string) : string := text (map to_upper (chars s)).

Fixpoint is_prefix (p l : list ascii) : bool :=
  match p, l with
  | [], _ => true
  | a :: p, b :: l => bool_decide (a = b) && is_prefix p l
  | _, [] => false
  end.
Definition startswith (s p : string) : bool := is_prefix (chars p) (chars s).
Definition endswith (s p : string) : bool := is_prefix (reverse (chars p)) (reverse (chars s)).
Fixpoint is_infix (p l : list ascii) : bool :=
  is_prefix p l || match l with [] => false | _ :: l => is_infix p l end.
(** [p in s] *)
Definition contains (p s : string) : bool := is_infix (chars p) (chars s).

(** [s.split(c)] on a one-character separator. *)
Fixpoint split_chars (c : ascii) (l : list ascii) : list (list ascii) :=
  match l with
  | [] => [[]]
  | a :: l =>
      if bool_decide (a = c) then [] :: split_chars c l
      else match split_chars c l with
           | w :: ws => (a :: w) :: ws
           | [] => [[a]]
           end
  end.
Definition split (c : ascii) (s : string) : list string := map text (split_chars c (chars s)).
Fixpoint join (sep : string) (l : list string) : string :=
  match l with
  | [] => ""
  | [s] => s
  | s :: l => s +:+ sep +:+ join sep l
  end.
(** [s.replace(c, by)] for a one-character [c]. *)
Definition replace_char (c : ascii) (by_ s : string) : string := join by_ (split c s).

(** [s[:n]] and [s[-n:]]. *)
Definition str_take (n : nat) (s : string) : string := text (take n (chars s)).
Definition str_last (n : nat) (s : string) : string :=
  let l := chars s in text (drop (length l - n) l).
Definition str_len (s : string) : nat := length (chars s).

Lemma chars_text l : chars (text l) = l.
Proof. induction l; cbn; congruence. Qed.
Lemma text_chars s : text (chars s) = s.
Proof. induction s; cbn; congruence. Qed.

Lemma chars_app s t : chars (s +:+ t) = chars s ++ chars t.
Proof. induction s as [|a s IH]; [done|]. change (a :: chars (s +:+ t) = a :: (chars s ++ chars t)). by rewrite IH. Qed.

Lemma drop_while_id {A} (p : A -> bool) l :
  Forall (fun a => p a = false) l -> drop_while p l = l.
Proof. intros H. destruct H as [|a l Ha _]; cbn; [done|]. by rewrite Ha. Qed.
Lemma trim_id p l : Forall (fun a => p a = false) l -> trim p l = l.
Proof.
  intros H. unfold trim. rewrite (drop_while_id p l H).
  rewrite drop_while_id; [by rewrite reverse_involutive|]. by apply Forall_reverse.
Qed.

(** [str.strip] removes nothing from its own result. *)
Lemma drop_while_suffix {A} (p : A -> bool) l : exists l', l = l' ++ drop_while p l.
Proof.
  induction l as [|a l [l' IH]]; cbn; [by exists []|].
  destruct (p a); [exists (a :: l')|by exists []]. cbn. by f_equal.
Qed.
Lemma drop_while_head {A} (p : A -> bool) l a l' : drop_while p l = a :: l' -> p a = false.
Proof.
  induction l as [|b l IH]; cbn; [done|]. destruct (p b) eqn:E; [done|]. by intros [= -> ->].
Qed.
Lemma drop_while_head_id {A} (p : A -> bool) a l : p a = false -> drop_while p (a :: l) = a :: l.
Proof. cbn. by intros ->. Qed.
Lemma trim_idemp p l : trim p (trim p l) = trim p l.
Proof.
  unfold trim. set (m := drop_while p l). set (n := drop_while p (reverse m)).
  assert (Hn : drop_while p (reverse n) = reverse n).
  { destruct (reverse n) as [|a r] eqn:E; [done|]. apply drop_while_head_id.
    destruct (drop_while_suffix p (reverse m)) as [k Hk]. fold n in Hk.
    apply (f_equal reverse) in Hk. rewrite reverse_involutive, reverse_app, E in Hk.
    by apply (drop_while_head p l a (r ++ reverse k)). }
  rewrite Hn, reverse_involutive. f_equal.
  destruct n as [|a r] eqn:E; [done|]. apply drop_while_head_id.
  by apply (drop_while_head p (reverse m) a r).
Qed.
Lemma strip_idemp s : strip (strip s) = strip s.
Proof. unfold strip. by rewrite chars_text, trim_idemp. Qed.

(** ** Decimal text of an integer *)
Fixpoint digits_value (acc : Z) (l : list ascii) : option Z :=
  match l with
  | [] => Some acc
  | a :: l => if is_digit a then digits_value (acc * 10 + (code a - 48)) l else None
  end.
(** One or more ASCII digits. *)
Definition parse_digits (l : list ascii) : option Z :=
  match l with [] => None | _ => digits_value 0 l end.

(** An underscore is allowed between two digits of the text [int()] reads. *)
Fixpoint drop_underscores (prev : bool) (l : list ascii) : option (list ascii) :=
  match l with
  | [] => if prev then Some [] else None
  | a :: l =>
      if bool_decide (a = "_"%char) then if prev then drop_underscores false l else None
      else if is_digit a then cons a <$> drop_underscores true l else None
  end.
(** CPython refuses a literal of more than 4300 digits ([sys.int_info]). *)
Definition int_digit_limit : nat := 4300.
Definition signed_digits (sign : Z) (l : list ascii) : option Z :=
  ds ← drop_underscores false l;
  if (int_digit_limit <? length ds)%nat then None else Z.mul sign <$> parse_digits ds.
Definition int_of_chars (l : list ascii) : option Z :=
  match trim is_c_space l with
  | [] => None
  | a :: l =>
      if bool_decide (a = "+"%char) then signed_digits 1 l
      else if bool_decide (a = "-"%char) then signed_digits (-1) l
      else signed_digits 1 (a :: l)
  end.
Lemma int_digit_limit_pos : (0 < int_digit_limit)%nat.
Proof. unfold int_digit_limit. lia. Qed.
Opaque int_digit_limit.
Definition int_of_str (s : string) : option Z := int_of_chars (chars s).

(** [str(n)] *)
Definition str_of_int (n : Z) : string := pretty n.

(** ** Values *)
#[warnings="-register-all"]
Inductive pyval : Type :=
| PNone
| PBool (b : bool)
| PInt (n : Z)
| PFloat (f : spec_float)
| PStr (s : string)
| PList (l : list pyval)
| PDict (d : list (string * pyval)).   (* insertion order, keys unique *)

(** A [dict], as its items in insertion order. *)
Definition pydict : Type := list (string * pyval).

Definition is_none (v : pyval) : bool := match v with PNone => true | _ => false end.
Definition is_dict (v : pyval) : bool := match v with PDict _ => true | _ => false end.
Definition is_bool (v : pyval) : bool := match v with PBool _ => true | _ => false end.

(** [bool(v)] *)
Definition truthy (v : pyval) : bool :=
  match v with
  | PNone => false
  | PBool b => b
  | PInt n => negb (n =? 0)
  | PFloat (S754_zero _) => false
  | PFloat _ => true
  | PStr s => negb (String.eqb s "")
  | PList l => match l with [] => false | _ => true end
  | PDict d => match d with [] => false | _ => true end
  end.
(** [v or w] *)
Definition py_or (v w : pyval) : pyval := if truthy v then v else w.
(** [v in (None, "")] *)
Definition blank (v : pyval) : bool :=
  match v with PNone => true | PStr s => String.eqb s "" | _ => false end.

(** [d.get(k)] (as an option: [k in d]) on the association list of a dict. *)
Fixpoint assoc {A} (k : string) (d : list (string * A)) : option A :=
  match d with
  | [] => None
  | (k', v) :: d => if String.eqb k k' then Some v else assoc k d
  end.
Definition get (d : pydict) (k : string) : pyval := default PNone (assoc k d).
Definition has_key (d : pydict) (k : string) : bool :=
  match assoc k d with Some _ => true | None => false end.
(** [d[k] = v]: in place when the key is there, at the end when it is not. *)
Fixpoint assoc_set {A} (k : string) (v : A) (d : list (string * A)) : list (string * A) :=
  match d with
  | [] => [(k, v)]
  | (k', w) :: d => if String.eqb k k' then (k', v) :: d else (k', w) :: assoc_set k v d
  end.

Lemma assoc_set_eq {A} k (v : A) d : assoc k (assoc_set k v d) = Some v.
Proof.
  induction d as [|[k' w] d IH]; cbn; [by rewrite String.eqb_refl|].
  destruct (String.eqb k k') eqn:E; cbn; rewrite E; done.
Qed.
Lemma assoc_set_ne {A} k k' (v : A) d : k <> k' -> assoc k (assoc_set k' v d) = assoc k d.
Proof.
  intros Hne. induction d as [|[k'' w] d IH]; cbn.
  - destruct (String.eqb_spec k k'); naive_solver.
  - destruct (String.eqb_spec k' k''); cbn; destruct (String.eqb_spec k k''); naive_solver.
Qed.

(** A text whose lower case has no white space has none to strip. *)
Lemma lower_space a : is_space a = true -> to_lower a = a.
Proof. destruct a as [[] [] [] [] [] [] [] []]; by vm_compute. Qed.
Lemma lower_again s : lower (lower s) = lower s.
Proof.
  unfold lower. rewrite chars_text. f_equal. rewrite map_map. apply map_ext. intros a.
  destruct a as [[] [] [] [] [] [] [] []]; reflexivity.
Qed.
Lemma strip_of_lower s : Forall (fun a => is_space a = false) (chars (lower s)) -> strip s = s.
Proof.
  intros H. unfold strip. rewrite trim_id; [apply text_chars|].
  unfold lower in H. rewrite chars_text in H. apply list.Forall_forall. intros a Ha.
  destruct (is_space a) eqn:Hs; [|done]. rewrite list.Forall_forall in H.
  assert (Hl : is_space (to_lower a) = false) by (apply H, list_elem_of_fmap; by exists a).
  rewrite lower_space in Hl by done. congruence.
Qed.
Lemma assoc_set_fresh {A} k (v : A) d : k ∉ map fst d -> assoc_set k v d = d ++ [(k, v)].
Proof.
  induction d as [|[k' w] d IH]; cbn; intros H; [done|].
  destruct (String.eqb_spec k k') as [->|]; [exfalso; apply H; by left|].
  f_equal. apply IH. intros ?. apply H. by right.
Qed.
Lemma assoc_set_keys {A} k (v : A) d : map fst (assoc_set k v d) =
  if existsb (String.eqb k) (map fst d) then map fst d else map fst d ++ [k].
Proof.
  induction d as [|[k' w] d IH]; cbn; [done|]. destruct (String.eqb k k') eqn:E; cbn.
  - apply String.eqb_eq in E. by subst.
  - rewrite IH. by destruct (existsb _ _).
Qed.
(** An assignment adds the key at the end, or replaces the value of its one place. *)
Lemma elem_assoc_set_keys {V} k (v : V) d name : name ∈ map fst (assoc_set k v d) <-> name = k \/ name ∈ map fst d.
Proof.
  induction d as [|[k' w] d IH]; cbn [assoc_set map fst]; [set_solver|].
  destruct (String.eqb_spec k k') as [->|]; cbn [map fst]; set_solver.
Qed.
Lemma assoc_set_cases {A} k (v : A) d :
  ((k ∉ map fst d) /\ assoc_set k v d = d ++ [(k, v)])
  \/ exists d1 w d2, d = d1 ++ (k, w) :: d2 /\ (k ∉ map fst d1) /\ assoc_set k v d = d1 ++ (k, v) :: d2.
Proof.
  induction d as [|[k' w] d IH]; cbn; [left; by split; [apply not_elem_of_nil|]|].
  destruct (String.eqb_spec k k') as [<-|Hne]; [right; exists [], w, d; by split_and!; [|apply not_elem_of_nil|]|].
  destruct IH as [[Hin ->]|(d1 & w' & d2 & -> & Hin & ->)]; [left|right; exists ((k', w) :: d1), w', d2];
    cbn; rewrite not_elem_of_cons; done.
Qed.
Lemma assoc_set_NoDup {A} k (v : A) d : NoDup (map fst d) -> NoDup (map fst (assoc_set k v d)).
Proof.
  intros H. rewrite assoc_set_keys. destruct (existsb _ _) eqn:E; [done|].
  apply list.NoDup_app. split_and!; [done| |apply NoDup_singleton].
  intros x Hx ->%list_elem_of_singleton. apply not_true_iff_false in E. apply E, existsb_exists.
  exists k. split; [by apply list_elem_of_In|apply String.eqb_refl].
Qed.
Lemma assoc_elem {A} (l : list (string * A)) k v : NoDup (map fst l) ->
  assoc k l = Some v <-> (k, v) ∈ l.
Proof.
  induction l as [|[k' v'] l IH]; cbn; intros Hnd.
  - split; [done|]. intros H. by apply not_elem_of_nil in H.
  - apply list.NoDup_cons in Hnd as [Hk Hnd]. rewrite list.elem_of_cons.
    destruct (String.eqb_spec k k') as [->|Hne].
    + split; [intros [= ->]; by left|]. intros [[= ->]|H]; [done|].
      destruct Hk. apply list_elem_of_fmap. by exists (k', v).
    + rewrite IH by done. split; [by right|]. intros [[= -> ->]|H]; done.
Qed.
Lemma assoc_set_Forall {A} (P : string * A -> Prop) k v d : Forall P d -> P (k, v) -> Forall P (assoc_set k v d).
Proof.
  intros H Hk. induction H as [|[k' w] d Hp Hd IH]; cbn; [by constructor|].
  destruct (String.eqb_spec k k') as [->|]; by constructor.
Qed.

(** ** The exceptions of the conversions *)
Inductive pyexn : Type := TypeError | ValueError | OverflowError | AttributeError.
#[export] Instance pyexn_eq_dec : EqDecision pyexn.
Proof. solve_decision. Defined.

(** [int(f)] truncates; infinities overflow and a NaN is a [ValueError]. *)
Definition int_of_float (f : spec_float) : result pyexn Z :=
  match f with
  | S754_zero _ => Ok 0
  | S754_infinity _ => Err OverflowError
  | S754_nan => Err ValueError
  | S754_finite s m e =>
      let a := if 0 <=? e then Z.shiftl (Zpos m) e else Z.shiftr (Zpos m) (- e) in
      Ok (if s then - a else a)
  end.

(** [int(v)] *)
Definition py_int (v : pyval) : result pyexn Z :=
  match v with
  | PNone | PList _ | PDict _ => Err TypeError
  | PBool b => Ok (if b then 1 else 0)
  | PInt n => Ok n
  | PFloat f => int_of_float f
  | PStr s => match int_of_str s with Some n => Ok n | None => Err ValueError end
  end.

(** ** [repr] and [str] *)

(** A positive rational [n / d] is compared and rounded by cross multiplication. *)
Definition pow10 (p : Z) : Z * Z := if 0 <=? p then (10 ^ p, 1) else (1, 10 ^ (- p)).

(** The closest [k]-digit decimals around [m * 2^e] that read back as the same double:
    [lo] and [hi] are the half-way points to the neighbouring doubles, included when the
    mantissa is even.  Everything is scaled by [4 * 2^-e] or [4]. *)
Definition shortest_at (m e k : Z) : option (Z * Z) :=
  let '(xn, xd) := if 0 <=? e then (4 * m * 2 ^ e, 4) else (4 * m, 4 * 2 ^ (- e)) in
  let unit_ := if 0 <=? e then 2 ^ e else 1 in
  let lo := xn - (if (m =? 2 ^ 52) && (-1074 <? e) then unit_ else 2 * unit_) in
  let hi := xn + 2 * unit_ in
  let est := (* floor(log10 x), from the digit count of the integer parts *)
    let fix up (fuel : nat) (p : Z) := match fuel with
      | O => p
      | S fuel => let '(a, b) := pow10 p in if a * xd <=? xn * b then up fuel (p + 1) else p end in
    let fix down (fuel : nat) (p : Z) := match fuel with
      | O => p
      | S fuel => let '(a, b) := pow10 (p - 1) in if xn * b <? a * xd then down fuel (p - 1) else p end in
    if xd <=? xn then up 320%nat 0 else down 330%nat 0 in
  let p := est - k in
  let '(a, b) := pow10 p in
  let d := (xn * b) / (xd * a) in
  let inside c := let v := c * a * xd in
    if Z.even m then (lo * b <=? v) && (v <=? hi * b) else (lo * b <? v) && (v <? hi * b) in
  let gap c := Z.abs (c * a * xd - xn * b) in
  let better := if gap (d + 1) <? gap d then d + 1
                else if gap (d + 1) =? gap d then (if Z.even d then d else d + 1) else d in
  let other := if better =? d then d + 1 else d in
  if inside better then Some (better, p) else if inside other then Some (other, p) else None.
Fixpoint shortest_digits (fuel : nat) (m e k : Z) : Z * Z :=
  match fuel with
  | O => (m, e)
  | S fuel => match shortest_at m e k with
              | Some r => r | None => shortest_digits fuel m e (k + 1) end
  end.
Fixpoint zeros (n : nat) : string :=
  match n with O => "" | S n => "0" +:+ zeros n end.
Definition strip_zeros (s : string) : string :=
  let t := rstrip_chars "0" s in if String.eqb t "" then "0" else t.
(** [repr(f)]: shortest digits; exponent form outside [1e-4 <= x < 1e16]. *)
Definition repr_float (f : spec_float) : string :=
  match f with
  | S754_zero s => if s then "-0.0" else "0.0"
  | S754_infinity s => if s then "-inf" else "inf"
  | S754_nan => "nan"
  | S754_finite s m e =>
      let '(d, p) := shortest_digits 18 (Zpos m) e 1 in
      let all := str_of_int d in
      let point := Z.of_nat (str_len all) + p in
      let ds := strip_zeros all in
      let k := Z.of_nat (str_len ds) in
      let body :=
        if (-4 <? point) && (point <=? 16) then
          if point <=? 0 then "0." +:+ zeros (Z.to_nat (- point)) +:+ ds
          else if k <=? point then ds +:+ zeros (Z.to_nat (point - k)) +:+ ".0"
          else str_take (Z.to_nat point) ds +:+ "." +:+ str_last (Z.to_nat (k - point)) ds
        else
          let x := point - 1 in
          str_take 1 ds +:+ (if 1 <? k then "." +:+ str_last (Z.to_nat (k - 1)) ds else "")
          +:+ "e" +:+ (if x <? 0 then "-" else "+")
          +:+ (if Z.abs x <? 10 then "0" else "") +:+ str_of_int (Z.abs x) in
      (if s then "-" else "") +:+ body
  end.

Definition hex_digit (n : Z) : ascii := if n <? 10 then chr (48 + n) else chr (87 + n).
(** [repr(s)]: single quotes unless the text holds one and no double quote. *)
Definition repr_str (s : string) : string :=
  let l := chars s in
  let q := if bool_decide ("'"%char ∈ l) && negb (bool_decide (chr 34 ∈ l))
           then chr 34 else "'"%char in
  let esc a :=
    if bool_decide (a = q) || bool_decide (a = "\"%char) then ["\"%char; a]
    else if code a =? 10 then ["\"; "n"]%char else if code a =? 13 then ["\"; "r"]%char
    else if code a =? 9 then ["\"; "t"]%char
    else if (code a <? 32) || (code a =? 127) then
      ["\"%char; "x"%char; hex_digit (code a / 16); hex_digit (code a mod 16)]
    else [a] in
  text (q :: concat (map esc l) ++ [q]).

Fixpoint repr (v : pyval) : string :=
  match v with
  | PNone => "None"
  | PBool b => if b then "True" else "False"
  | PInt n => str_of_int n
  | PFloat f => repr_float f
  | PStr s => repr_str s
  | PList l => "[" +:+ join ", " (map repr l) +:+ "]"
  | PDict d => "{" +:+ join ", " (map (fun '(k, v) => repr_str k +:+ ": " +:+ repr v) d) +:+ "}"
  end.
(** [str(v)] *)
Definition str (v : pyval) : string := match v with PStr s => s | _ => repr v end.

(** The double nearest to [m * 2^e]. *)
Definition double (m : Z) (e : Z) : spec_float := binary_normalize 53 1024 m e false.
(** [f * 10^k], rounded to the nearest integer, ties to even (0 for inf and nan). *)
Definition round_dec (k : Z) (f : spec_float) : Z :=
  match f with
  | S754_finite s m e =>
      let num := Zpos m * 10 ^ k * 2 ^ (Z.max e 0) in
      let den := 2 ^ (Z.max (- e) 0) in
      let q := num / den in
      let r := num mod den in
      let n := if (den <? 2 * r) || ((2 * r =? den) && Z.odd q) then q + 1 else q in
      if s then - n else n
  | _ => 0
  end.
(** [f"{f:.1f}"] of a finite double *)
Definition fixed1 (f : spec_float) : string :=
  let r := Z.abs (round_dec 1 f) in
  (match f with S754_finite true _ _ | S754_zero true => "-" | _ => "" end)
  +:+ str_of_int (r / 10) +:+ "." +:+ str_of_int (r mod 10).
(** [float(a) / float(b)] *)
Definition div_double (a b : Z) : spec_float := SFdiv 53 1024 (double a 0) (double b 0).

Example repr_float_samples :
  map repr_float [double 1 0; double 1 (-1); SFdiv 53 1024 (double 1 0) (double 10 0);
                  double (10 ^ 16) 0; double 5 (-1074); SFdiv 53 1024 (double 1 0) (double 3 0);
                  double (2 ^ 53) 0; double 123456 (-3); SFdiv 53 1024 (double 1 0) (double 100000 0)]
  = ["1.0"; "0.5"; "0.1"; "1e+16"; "2.5e-323"; "0.3333333333333333"; "9007199254740992.0";
     "15432.0"; "1e-05"].
Proof. vm_compute. reflexivity. Qed.

(** ** Reading an integer's own text *)
Lemma digits_value_app acc l l' :
  digits_value acc (l ++ l') = digits_value acc l ≫= fun v => digits_value v l'.
Proof.
  revert acc. induction l as [|a l IH]; intros acc; cbn; [done|].
  destruct (is_digit a); [apply IH|done].
Qed.

Lemma pretty_N_go_digits x s :
  exists ds, chars (pretty_N_go x s) = ds ++ chars s
    /\ Forall (fun a => is_digit a = true) ds
    /\ (forall acc, digits_value acc ds = Some (acc * 10 ^ Z.of_nat (length ds) + Z.of_N x))
    /\ (0 < Z.of_N x -> ds <> [] /\ 10 ^ (Z.of_nat (length ds) - 1) <= Z.of_N x).
Proof.
  revert s. induction (N.lt_wf_0 x) as [x _ IH]; intros s.
  destruct (decide (x = 0)%N) as [->|Hx].
  { exists []. rewrite pretty_N_go_0. cbn. repeat split; [constructor| |lia..].
    intros acc. f_equal. lia. }
  rewrite pretty_N_go_step by lia.
  assert (Hlt : (x `div` 10 < x)%N) by (apply N.div_lt; lia).
  destruct (IH _ Hlt (String (pretty_N_char (x `mod` 10)) s)) as (ds & Hds & Hd & Hv & Hp).
  set (a := pretty_N_char (x `mod` 10)) in *.
  assert (Ha : is_digit a = true /\ code a - 48 = Z.of_N (x `mod` 10)).
  { assert (Hm : (x `mod` 10 < 10)%N) by (apply N.mod_lt; lia). subst a. clear -Hm.
    generalize dependent (x `mod` 10)%N. intros m Hm.
    assert (m = 0 \/ m = 1 \/ m = 2 \/ m = 3 \/ m = 4 \/ m = 5 \/ m = 6 \/ m = 7
            \/ m = 8 \/ m = 9)%N by lia.
    destruct_or!; subst; done. }
  destruct Ha as [Ha Hc].
  pose proof (N.div_mod x 10 ltac:(lia)) as Hdm. clear IH. clearbody a.
  set (q := (x `div` 10)%N) in *. set (m := (x `mod` 10)%N) in *. clearbody q m.
  exists (ds ++ [a]). rewrite Hds, <-app_assoc, length_app. cbn. split; [done|].
  split; [by apply Forall_app; auto|].
  rewrite Nat2Z.inj_add. split.
  - intros acc. rewrite digits_value_app, Hv. cbn. rewrite Ha, Hc. f_equal.
    rewrite Z.pow_add_r by lia. change (10 ^ Z.of_nat 1) with 10. lia.
  - intros _. split; [by destruct ds|].
    destruct (decide (q = 0)%N) as [E0|E0].
    + destruct ds as [|d ds]; cbn; [lia|].
      exfalso. rewrite E0, pretty_N_go_0 in Hds. apply (f_equal length) in Hds.
      rewrite length_app in Hds. cbn [length] in Hds. lia.
    + destruct Hp as [Hne Hp]; [lia|].
      replace (Z.of_nat (length ds) + Z.of_nat 1 - 1) with (Z.of_nat (length ds) - 1 + 1) by lia.
      rewrite Z.pow_add_r by (destruct ds; cbn in *; [done|lia]). lia.
Qed.

(** The digits [str(n)] prints for [n >= 0]. *)
Lemma str_of_nonneg_digits n : 0 <= n ->
  exists ds, chars (str_of_int n) = ds /\ ds <> []
    /\ Forall (fun a => is_digit a = true) ds
    /\ digits_value 0 ds = Some n
    /\ (forall k : nat, (0 < k)%nat -> n < 10 ^ Z.of_nat k -> (length ds <= k)%nat).
Proof.
  intros Hn. destruct n as [|p|]; [..|lia].
  { exists ["0"%char]. repeat split; [done|by repeat constructor|cbn; lia]. }
  destruct (pretty_N_go_digits (Npos p) "") as (ds & Hds & Hd & Hv & Hp).
  rewrite app_nil_r in Hds. destruct Hp as [Hne Hp]; [lia|]. cbn [Z.of_N] in *.
  exists ds. split; [by rewrite <-Hds|]. split; [done|]. split; [done|].
  split; [by rewrite Hv|]. intros k Hk Hlt.
  destruct (decide (length ds <= k)%nat) as [|Hgt]; [done|]. exfalso.
  assert (10 ^ Z.of_nat k <= 10 ^ (Z.of_nat (length ds) - 1)) by (apply Z.pow_le_mono_r; lia). lia.
Qed.

Lemma is_digit_code a : is_digit a = true -> 48 <= code a <= 57.
Proof. unfold is_digit, between. rewrite andb_true_iff, !Z.leb_le. done. Qed.
Lemma is_digit_not_c_space a : is_digit a = true -> is_c_space a = false.
Proof.
  intros H%is_digit_code. unfold is_c_space, between.
  apply orb_false_iff. split; [apply andb_false_iff; right; apply Z.leb_gt|apply Z.eqb_neq]; lia.
Qed.
Lemma drop_underscores_digits l b :
  Forall (fun a => is_digit a = true) l -> l <> [] \/ b = true -> drop_underscores b l = Some l.
Proof.
  intros H. revert b. induction H as [|a l Ha Hl IH]; intros b Hb; cbn.
  { destruct b; [done|]. by destruct Hb. }
  rewrite bool_decide_false by (intros ->; discriminate Ha).
  rewrite Ha, IH by auto. done.
Qed.

(** [int(str(n)) == n] below the interpreter's digit limit. *)
Lemma int_of_str_of_int n : Z.abs n < 10 ^ Z.of_nat int_digit_limit ->
  int_of_str (str_of_int n) = Some n.
Proof.
  intros Hb. unfold int_of_str.
  destruct (str_of_nonneg_digits (Z.abs n) ltac:(lia)) as (ds & Hc & Hne & Hd & Hv & Hlen).
  specialize (Hlen _ int_digit_limit_pos Hb).
  assert (Hsp : Forall (fun a => is_c_space a = false) ds)
    by (eapply Forall_impl, Hd; intros; by apply is_digit_not_c_space).
  assert (Hgo : forall sign, signed_digits sign ds = Some (sign * Z.abs n)).
  { intros sign. unfold signed_digits. rewrite drop_underscores_digits by auto.
    cbn -[Nat.ltb]. destruct (Nat.ltb_spec int_digit_limit (length ds)); [lia|].
    destruct ds; [done|]. cbn -[digits_value]. by rewrite Hv. }
  destruct n as [|p|p].
  - done.
  - unfold int_of_chars. rewrite Z.abs_eq in * by lia. rewrite Hc, trim_id by done.
    destruct Hd as [|d ds Hd Hds]; [done|].
    assert (d <> "+"%char /\ d <> "-"%char) as [? ?] by (split; intros ->; discriminate Hd).
    rewrite !bool_decide_false by done. by rewrite Hgo, Z.mul_1_l.
  - change (str_of_int (Zneg p)) with ("-" +:+ str_of_int (Zpos p)). rewrite chars_app.
    change (Z.abs (Zneg p)) with (Zpos p) in *. unfold int_of_chars. rewrite Hc. cbn [chars app].
    rewrite trim_id by (constructor; done).
    rewrite bool_decide_false, bool_decide_true by done. by rewrite Hgo.
Qed.

(** ** Text order ([<=] on [str] compares code points; so does the order of the bytes) *)
Lemma leb_refl s : String.leb s s = true.
Proof. destruct (String.leb_total s s); done. Qed.
Lemma leb_trans a b c : String.leb a b = true -> String.leb b c = true -> String.leb a c = true.
Proof.
  intros H1%Is_true_true H2%Is_true_true. apply Is_true_true.
  exact (transitivity (R := String.le) H1 H2).
Qed.
Lemma leb_false a b : String.leb a b = false -> String.leb b a = true.
Proof. intros H. destruct (String.leb_total a b); congruence. Qed.
(** [a < b] and [max(a, b)] on text *)
Definition str_lt (a b : string) : bool := negb (String.leb b a).
Definition str_max (a b : string) : string := if str_lt a b then b else a.
Lemma str_lt_leb a b : str_lt a b = true -> String.leb a b = true.
Proof. unfold str_lt. intros H%negb_true_iff. by apply leb_false. Qed.
Lemma str_lt_not_leb a b : str_lt a b = true <-> String.leb b a = false.
Proof. unfold str_lt. apply negb_true_iff. Qed.
Lemma str_max_ge_l a b : String.leb a (str_max a b) = true.
Proof. unfold str_max. destruct (str_lt a b) eqn:E; [by apply str_lt_leb|apply leb_refl]. Qed.
Lemma str_max_ge_r a b : String.leb b (str_max a b) = true.
Proof.
  unfold str_max, str_lt. destruct (String.leb b a) eqn:E; cbn; [done|apply leb_refl].
Qed.
Lemma str_max_cases a b : str_max a b = a \/ str_max a b = b.
Proof. unfold str_max. destruct (str_lt a b); auto. Qed.
