(* ===== verification/PyTime.v ===== *)
(** * Dates and instants: the part of [datetime] the components use.

    An aware [datetime] takes part in arithmetic and comparisons as the instant it
    denotes, so it is a number of microseconds ([Z], from 0000-12-31T00:00Z); a wall clock
    reading is the record [wall].  [datetime.fromisoformat] is read on the calendar forms
    [YYYY-MM-DD] and [YYYYMMDD] with an optional time [HH[:MM[:SS[.f+]]]] (or without the
    colons) and an optional offset; ISO week dates are not.  Results outside years 1-9999,
    where CPython raises [OverflowError], are not cut off. *)

From S2P Require Import Prelude Py.

(** ** Instants *)
Definition usec : Z := 1000000.
Definition seconds (s : Z) : Z := s * usec.
(** [int(delta.total_seconds())] *)
Definition whole_seconds (delta : Z) : Z := Z.quot delta usec.

(** ** The proleptic Gregorian calendar *)
Definition is_leap (y : Z) : bool :=
  (y mod 4 =? 0) && (negb (y mod 100 =? 0) || (y mod 400 =? 0)).
Definition days_in_month (y m : Z) : Z :=
  if m =? 2 then if is_leap y then 29 else 28
  else if (m =? 4) || (m =? 6) || (m =? 9) || (m =? 11) then 30 else 31.
Definition days_before_year (y : Z) : Z :=
  let y := y - 1 in y * 365 + y / 4 - y / 100 + y / 400.
Fixpoint days_before_month_nat (y : Z) (k : nat) : Z :=
  match k with O => 0 | S k => days_before_month_nat y k + days_in_month y (Z.of_nat (S k)) end.
Definition days_before_month (y m : Z) : Z := days_before_month_nat y (Z.to_nat (m - 1)).
(** [date(y, m, d).toordinal()] *)
Definition ymd2ord (y m d : Z) : Z := days_before_year y + days_before_month y m + d.
Definition valid_date (y m d : Z) : bool :=
  between 1 y 9999 && between 1 m 12 && between 1 d (days_in_month y m).
(** [date.isoweekday()]: Monday 1 .. Sunday 7. *)
Definition isoweekday_of (ord : Z) : Z := let r := ord mod 7 in if r =? 0 then 7 else r.

(** A wall clock reading: what the code takes off a [datetime] in the display timezone. *)
Record wall := { wall_year : Z; wall_month : Z; wall_day : Z; wall_hour : Z; wall_minute : Z }.
Definition wall_ok (w : wall) : bool :=
  valid_date (wall_year w) (wall_month w) (wall_day w)
  && between 0 (wall_hour w) 23 && between 0 (wall_minute w) 59.
Definition isoweekday (w : wall) : Z :=
  isoweekday_of (ymd2ord (wall_year w) (wall_month w) (wall_day w)).

Lemma isoweekday_range w : 1 <= isoweekday w <= 7.
Proof.
  unfold isoweekday, isoweekday_of. set (o := ymd2ord _ _ _). clearbody o.
  pose proof (Z.mod_pos_bound o 7). cbn zeta. destruct (Z.eqb_spec (o mod 7) 0); lia.
Qed.

(** ** [datetime.fromisoformat] *)
Fixpoint take_digits (n : nat) (acc : Z) (l : list ascii) : option (Z * list ascii) :=
  match n, l with
  | O, _ => Some (acc, l)
  | S n, a :: l => if is_digit a then take_digits n (acc * 10 + (code a - 48)) l else None
  | S _, [] => None
  end.
Definition eat (c : ascii) (l : list ascii) : option (list ascii) :=
  match l with a :: l => if bool_decide (a = c) then Some l else None | [] => None end.

(** The first six digits of a fraction, as microseconds; the digits after them are
    checked and dropped. *)
Definition parse_fraction (l : list ascii) : option Z :=
  if negb (forallb is_digit l) || (length l =? 0)%nat then None
  else
    let ds := take 6 l in
    (fun v => v * 10 ^ (6 - Z.of_nat (length ds))) <$> parse_digits ds.

(** [HH[:MM[:SS[.f+]]]], separators all present or all absent: microseconds of the day,
    with the fields unchecked. *)
Definition parse_clock (l : list ascii) : option (Z * Z * Z * Z) :=
  '(h, l) ← take_digits 2 0 l;
  match l with
  | [] => Some (h, 0, 0, 0)
  | c :: _ =>
      let colon := bool_decide (c = ":"%char) in
      let sep l := if colon then eat ":" l else Some l in
      l ← sep l; '(m, l) ← take_digits 2 0 l;
      match l with
      | [] => Some (h, m, 0, 0)
      | _ =>
          l ← sep l; '(s, l) ← take_digits 2 0 l;
          match l with
          | [] => Some (h, m, s, 0)
          | p :: l =>
              if bool_decide (p = "."%char) || bool_decide (p = ","%char)
              then (fun f => (h, m, s, f)) <$> parse_fraction l else None
          end
      end
  end.
Definition clock_usec (t : Z * Z * Z * Z) : Z :=
  let '(h, m, s, f) := t in ((h * 60 + m) * 60 + s) * usec + f.

Definition is_zone_char (a : ascii) : bool :=
  bool_decide (a = "Z"%char) || bool_decide (a = "+"%char) || bool_decide (a = "-"%char).
(** The text after the date separator: time of day and offset (0 for a naive time, which
    [as_utc_datetime] reads as UTC), both in microseconds. *)
Definition parse_time_text (l : list ascii) : option (Z * Z) :=
  let timestr := take_while (fun a => negb (is_zone_char a)) l in
  let zone := drop_while (fun a => negb (is_zone_char a)) l in
  t ← parse_clock timestr;
  let '(h, m, s, _) := t in
  if negb (between 0 h 23 && between 0 m 59 && between 0 s 59) then None
  else match zone with
  | [] => Some (clock_usec t, 0)
  | z :: rest =>
      if bool_decide (z = "Z"%char) then
        match rest with [] => Some (clock_usec t, 0) | _ => None end
      else
        o ← parse_clock rest;
        let off := clock_usec o in
        if off <? 86400 * usec
        then Some (clock_usec t, if bool_decide (z = "-"%char) then - off else off) else None
  end.

Definition parse_date_text (l : list ascii) : option (Z * list ascii) :=
  '(y, l) ← take_digits 4 0 l;
  let dashed := match l with a :: _ => bool_decide (a = "-"%char) | [] => false end in
  let sep l := if dashed then eat "-" l else Some l in
  l ← sep l; '(m, l) ← take_digits 2 0 l;
  l ← sep l; '(d, l) ← take_digits 2 0 l;
  if valid_date y m d then Some (ymd2ord y m d, l) else None.

(** The instant of an ISO text, a missing offset read as UTC. *)
Definition instant_of_iso (s : string) : option Z :=
  '(o, l) ← parse_date_text (chars s);
  let day := o * 86400 * usec in
  match l with
  | [] => Some day
  | _ :: l => '(t, off) ← parse_time_text l; Some (day + t - off)
  end.

Example ymd2ord_sample : ymd2ord 2026 9 21 = 739880.
Proof. reflexivity. Qed.

(** ** [strftime] and [strptime] with ["%Y-%m-%d %H:%M:%S"] *)
Fixpoint find_month (y : Z) (n : Z) (fuel : nat) (m : Z) : Z * Z :=
  match fuel with
  | O => (m, n)
  | S fuel => if n <=? days_in_month y m then (m, n)
              else find_month y (n - days_in_month y m) fuel (m + 1)
  end.
(** [date.fromordinal]: the 400-year, century, 4-year and year blocks of the calendar. *)
Definition ord2ymd (ord : Z) : Z * Z * Z :=
  let n := ord - 1 in
  let n400 := n / 146097 in let n := n mod 146097 in
  let n100 := n / 36524 in let n := n mod 36524 in
  let n4 := n / 1461 in let n := n mod 1461 in
  let n1 := n / 365 in let n := n mod 365 in
  let y := n400 * 400 + n100 * 100 + n4 * 4 + n1 + 1 in
  if (n1 =? 4) || (n100 =? 4) then (y - 1, 12, 31)
  else let '(m, d) := find_month y (n + 1) 12 1 in (y, m, d).
Definition two (n : Z) : string := if n <? 10 then "0" +:+ str_of_int n else str_of_int n.
Definition stamp (t : Z) : string :=
  let s := t / usec in
  let '(y, m, d) := ord2ymd (s / 86400) in
  let r := s mod 86400 in
  str_of_int y +:+ "-" +:+ two m +:+ "-" +:+ two d +:+ " "
  +:+ two (r / 3600) +:+ ":" +:+ two (r / 60 mod 60) +:+ ":" +:+ two (r mod 60).

(** One or two digits, as many as there are. *)
Definition one_or_two (l : list ascii) : option (Z * list ascii) :=
  match l with
  | a :: b :: l' => if is_digit a then if is_digit b then take_digits 2 0 l else take_digits 1 0 l
                    else None
  | _ => take_digits 1 0 l
  end.
(** A date, a separator and a time of day; nothing after them. *)
Definition date_and_time (sep : list ascii -> option (list ascii)) (s : string) : option Z :=
  '(y, l) ← take_digits 4 0 (chars s);
  l ← eat "-" l; '(m, l) ← one_or_two l;
  l ← eat "-" l; '(d, l) ← one_or_two l;
  l ← sep l;
  '(h, l) ← one_or_two l;
  l ← eat ":" l; '(mi, l) ← one_or_two l;
  l ← eat ":" l; '(sec, l) ← one_or_two l;
  match l with
  | [] => if valid_date y m d && between 0 h 23 && between 0 mi 59 && between 0 sec 59
          then Some (seconds (ymd2ord y m d * 86400 + (h * 60 + mi) * 60 + sec)) else None
  | _ => None
  end.
Definition spaces (l : list ascii) : option (list ascii) :=
  match l with a :: l => if is_space a then Some (drop_while is_space l) else None | [] => None end.
Definition strptime : string -> option Z := date_and_time spaces.
(** [strptime] with ["%Y-%m-%dT%H:%M:%S"]: letters of the format match either case. *)
Definition strptime_t : string -> option Z :=
  date_and_time (fun l => match l with
    | a :: l => if bool_decide (to_upper a = "T"%char) then Some l else None | [] => None end).
Example stamp_samples :
  map (fun s => stamp <$> strptime s)
    ["2026-09-21 02:30:07"; "2024-02-29 23:59:59"; "2000-12-31 00:00:00"; "2026-1-5 3:4:5";
     "2026-02-29 00:00:00"; "2026-09-21T02:30:07"]
  = [Some "2026-09-21 02:30:07"; Some "2024-02-29 23:59:59"; Some "2000-12-31 00:00:00";
     Some "2026-01-05 03:04:05"; None; None].
Proof. vm_compute. reflexivity. Qed.

(** The store's timestamp text, ["%Y-%m-%dT%H:%M:%SZ"] of an instant in UTC. *)
Definition iso_text (t : Z) : string := replace_char " " "T" (stamp t) +:+ "Z".
