(* ===== verification/Coerce.v ===== *)
(** * [lib/coerce.py]: reading a value that may not be the type it means. *)

From S2P Require Import Prelude Py PyTime.

Definition TRUE_WORDS : list string := ["1"; "true"; "yes"; "y"; "on"].

Definition as_bool (v : pyval) (dflt : bool) : bool :=
  if blank v then dflt
  else match v with
       | PBool b => b
       | _ => bool_decide (lower (strip (str v)) ∈ TRUE_WORDS)
       end.

(** [except (TypeError, ValueError)]: the [OverflowError] of [int(inf)] gets out. *)
Definition as_int (v : pyval) (dflt : Z) : result pyexn Z :=
  if blank v then Ok dflt
  else match py_int v with
       | Err OverflowError => Err OverflowError
       | Err _ => Ok dflt
       | Ok n => Ok n
       end.

Definition as_optional_int (v : pyval) : result pyexn (option Z) :=
  if blank v then Ok None
  else match py_int v with
       | Err OverflowError => Err OverflowError
       | Err _ => Ok None
       | Ok n => Ok (Some n)
       end.

(** [bytes] do not occur among JSON and store values. *)
Definition as_text (v : pyval) : string := if blank v then "" else str v.

(** [None] when the text is not a timestamp; a time without an offset is read as UTC. *)
Definition as_utc_datetime (v : pyval) : option Z :=
  let t := strip (str (py_or v (PStr ""))) in
  if String.eqb t "" then None else instant_of_iso (replace_char "Z" "+00:00" t).

Example as_utc_datetime_samples :
  map as_utc_datetime
    [PStr "2026-09-21 02:30:00"; PStr "2026-09-21T02:30:00Z"; PStr "2026-09-21T09:30:00.5+07:00";
     PStr ""; PNone; PStr "not a date"; PStr "2026-02-29"; PInt 20260921; PStr "2026-09-21T"]
  = [Some (seconds ((ymd2ord 2026 9 21 * 24 + 2) * 3600 + 1800));
     Some (seconds ((ymd2ord 2026 9 21 * 24 + 2) * 3600 + 1800));
     Some (seconds ((ymd2ord 2026 9 21 * 24 + 2) * 3600 + 1800) + 500000);
     None; None; None; None; Some (seconds (ymd2ord 2026 9 21 * 86400)); None].
Proof. vm_compute. reflexivity. Qed.
