(* ===== verification/TimeWindow.v ===== *)
(** * [lib/time_window.py]: when a unit of work may run, and whether it is due.

    The window object, its parser with the legacy spellings and the refusals, the
    wall-clock check, and the scheduling rule shared by the daemon and the applications.
    Instants are microseconds; the wall clock is an argument, as in the code. *)

From S2P Require Import Prelude Py PyTime Coerce.
From Stdlib Require Import SpecFloat.

(** ** The window *)
Definition RUN_ONCE : Z := 0.
Definition MANUAL_ONLY : Z := -1.
Definition ERROR_STATUSES : list string := ["error"; "timeout"; "fail"; "failed"; "failure"].

(** The thirteen integer fields, [INT_FIELDS]. *)
Inductive int_field : Type :=
| from_year | to_year | from_month | to_month | from_day | to_day | from_hour | to_hour
| from_minute | to_minute | repeat_interval | retry_interval | timeout.
#[export] Instance int_field_eq_dec : EqDecision int_field.
Proof. solve_decision. Defined.

Definition INT_FIELDS : list int_field :=
  [from_year; to_year; from_month; to_month; from_day; to_day; from_hour; to_hour;
   from_minute; to_minute; repeat_interval; retry_interval; timeout].
Definition field_name (f : int_field) : string :=
  match f with
  | from_year => "from_year" | to_year => "to_year"
  | from_month => "from_month" | to_month => "to_month"
  | from_day => "from_day" | to_day => "to_day"
  | from_hour => "from_hour" | to_hour => "to_hour"
  | from_minute => "from_minute" | to_minute => "to_minute"
  | repeat_interval => "repeat_interval" | retry_interval => "retry_interval"
  | timeout => "timeout"
  end.
Definition WEEKDAYS_FIELD : string := "weekdays".

Record TimeWindow := {
  tw_from_year : option Z; tw_to_year : option Z;
  tw_from_month : option Z; tw_to_month : option Z;
  tw_from_day : option Z; tw_to_day : option Z;
  tw_from_hour : option Z; tw_to_hour : option Z;
  tw_from_minute : option Z; tw_to_minute : option Z;
  tw_repeat_interval : option Z; tw_retry_interval : option Z; tw_timeout : option Z;
  tw_weekdays : option (list Z) }.

(** [TimeWindow()] *)
Definition empty_window : TimeWindow :=
  Build_TimeWindow None None None None None None None None None None None None None None.

(** [getattr(window, name)] *)
Definition tw_get (f : int_field) (w : TimeWindow) : option Z :=
  match f with
  | from_year => tw_from_year w | to_year => tw_to_year w
  | from_month => tw_from_month w | to_month => tw_to_month w
  | from_day => tw_from_day w | to_day => tw_to_day w
  | from_hour => tw_from_hour w | to_hour => tw_to_hour w
  | from_minute => tw_from_minute w | to_minute => tw_to_minute w
  | repeat_interval => tw_repeat_interval w | retry_interval => tw_retry_interval w
  | timeout => tw_timeout w
  end.
(** [values[name] = v] on the dict the parser fills, whose keys are the fourteen names. *)
Definition tw_set (f : int_field) (v : option Z) (w : TimeWindow) : TimeWindow :=
  let g f' := if decide (f' = f) then v else tw_get f' w in
  Build_TimeWindow (g from_year) (g to_year) (g from_month) (g to_month) (g from_day)
    (g to_day) (g from_hour) (g to_hour) (g from_minute) (g to_minute) (g repeat_interval)
    (g retry_interval) (g timeout) (tw_weekdays w).
Definition tw_set_weekdays (v : option (list Z)) (w : TimeWindow) : TimeWindow :=
  let g f := tw_get f w in
  Build_TimeWindow (g from_year) (g to_year) (g from_month) (g to_month) (g from_day)
    (g to_day) (g from_hour) (g to_hour) (g from_minute) (g to_minute) (g repeat_interval)
    (g retry_interval) (g timeout) v.

(** [TimeWindow.to_dict] *)
Definition py_opt_int (v : option Z) : pyval := match v with None => PNone | Some n => PInt n end.
Definition to_dict (w : TimeWindow) : list (string * pyval) :=
  map (fun f => (field_name f, py_opt_int (tw_get f w))) INT_FIELDS
  ++ [(WEEKDAYS_FIELD,
       match tw_weekdays w with None => PNone | Some ds => PList (map PInt ds) end)].

(** [WEEKDAY_NAMES] *)
Definition WEEKDAY_NAMES : list (Z * string) :=
  [(1, "Monday"); (2, "Tuesday"); (3, "Wednesday"); (4, "Thursday"); (5, "Friday");
   (6, "Saturday"); (7, "Sunday")].
Definition weekday_name (d : Z) : option string :=
  snd <$> List.find (fun p => fst p =? d) WEEKDAY_NAMES.
Definition is_weekday (d : Z) : bool := bool_decide (is_Some (weekday_name d)).

Definition weekdays_text (weekdays : option (list Z)) : string :=
  let days := merge_sort Z.le (List.filter is_weekday (default [] weekdays)) in
  let names := map (fun d => str_take 3 (default "" (weekday_name d))) days in
  let t := join "," names in
  if String.eqb t "" then "no day" else t.

(** ** The parser's refusals, one constructor per [raise] *)
Inductive tw_error : Type :=
| NotAnObject (context : string)
| NotAnInteger (name : string)
| IntOverflow                           (* the OverflowError of int(Infinity), not caught *)
| WeekdaysNotArray (name : string) (v : pyval)
| WeekdayNotNumber (name : string) (item : pyval)
| NotAWeekday (name : string) (item : Z)
| WeekdayTwice (name : string) (item : Z)
| Negative (context : string) (f : int_field) (v : Z)
| BadRepeat (context : string) (v : Z).

Definition _optional_int (v : pyval) (name : string) : result tw_error (option Z) :=
  if blank v then Ok None
  else match py_int v with
       | Ok n => Ok (Some n)
       | Err OverflowError => Err IntOverflow
       | Err _ => Err (NotAnInteger name)
       end.

(** The number one element of the array stands for. *)
Definition weekday_item (name : string) (item : pyval) : result tw_error Z :=
  match item with
  | PInt n => Ok n
  | _ => match int_of_str (strip (str item)) with
         | Some n => Ok n
         | None => Err (WeekdayNotNumber name item)
         end
  end.
Definition weekday_step (name : string) (parsed : list Z) (item : pyval)
    : result tw_error (list Z) :=
  n ← weekday_item name item;
  if negb (is_weekday n) then Err (NotAWeekday name n)
  else if bool_decide (n ∈ parsed) then Err (WeekdayTwice name n)
  else Ok (parsed ++ [n]).
Definition parse_weekdays (v : pyval) (name : string) : result tw_error (option (list Z)) :=
  if blank v then Ok None
  else match v with
       | PList l => Some <$> foldM (weekday_step name) [] l
       | _ => Err (WeekdaysNotArray name v)
       end.

Definition _validate_non_negative_scalar (context : string) (w : TimeWindow) (f : int_field)
    : result tw_error unit :=
  match tw_get f w with
  | Some v => raise_when (v <? 0) (Negative context f v)
  | None => Ok tt
  end.
(** [from_x] then [to_x] *)
Definition _validate_non_negative (context : string) (w : TimeWindow) (p : int_field * int_field)
    : result tw_error unit :=
  _validate_non_negative_scalar context w p.1 ≫= fun _ =>
  _validate_non_negative_scalar context w p.2.
Definition _validate_repeat_interval (context : string) (w : TimeWindow) : result tw_error unit :=
  match tw_get repeat_interval w with
  | Some v => raise_when ((v <? 0) && negb (v =? MANUAL_ONLY)) (BadRepeat context v)
  | None => Ok tt
  end.

Definition LEGACY_TIME_WINDOW_FIELDS : list (string * int_field) :=
  [("day_from", from_day); ("day_to", to_day); ("hour_from", from_hour); ("hour_to", to_hour)].
Definition LEGACY_TOP_LEVEL_FIELDS : list (string * int_field) :=
  [("interval_second", repeat_interval); ("interval_seconds", repeat_interval);
   ("repeat_interval_seconds", repeat_interval); ("timeout_seconds", timeout);
   ("default_timeout", timeout); ("check_error_interval_seconds", timeout);
   ("allowed_from_day", from_day); ("allowed_to_day", to_day);
   ("allowed_from_hour", from_hour); ("allowed_to_hour", to_hour)].

(** ** [parse_time_window_config] *)
(** One field read from [d] under [key], when the key is there. *)
Definition read_field (name : string) (d : pydict) (w : TimeWindow) (p : string * int_field)
    : result tw_error TimeWindow :=
  match assoc p.1 d with
  | Some v => (fun n => tw_set p.2 n w) <$> _optional_int v (name +:+ p.1)
  | None => Ok w
  end.
Definition own_names : list (string * int_field) := map (fun f => (field_name f, f)) INT_FIELDS.
Definition read_weekdays (d : pydict) (name : string) (w : TimeWindow)
    : result tw_error TimeWindow :=
  match assoc WEEKDAYS_FIELD d with
  | Some v => (fun ds => tw_set_weekdays ds w) <$> parse_weekdays v name
  | None => Ok w
  end.

(** The values before the record is read: the caller's defaults. *)
Definition read_default (context : string) (defaults : pydict) (w : TimeWindow) (f : int_field)
    : result tw_error TimeWindow :=
  match assoc (field_name f) defaults with
  | Some v => (fun n => tw_set f n w)
      <$> _optional_int v (context +:+ ".time_window." +:+ field_name f +:+ ".default")
  | None => Ok w
  end.
Definition default_values (context : string) (defaults : pydict) : result tw_error TimeWindow :=
  w ← foldM (read_default context defaults) empty_window INT_FIELDS;
  read_weekdays defaults (context +:+ ".time_window.weekdays.default") w.

Definition legacy_warnings (context prefix : string) (d : pydict) (l : list (string * int_field))
    : list string :=
  map (fun p => context +:+ ": deprecated field " +:+ prefix +:+ p.1
                +:+ " used; use time_window." +:+ field_name p.2 +:+ ".")
      (List.filter (fun p => has_key d p.1) l).

Definition bound_pairs : list (int_field * int_field) :=
  [(from_year, to_year); (from_month, to_month); (from_day, to_day); (from_hour, to_hour);
   (from_minute, to_minute)].
Definition validate_all (context : string) (w : TimeWindow) : result tw_error unit :=
  foldM (fun _ p => _validate_non_negative context w p) tt bound_pairs ≫= fun _ =>
  _validate_repeat_interval context w ≫= fun _ =>
  _validate_non_negative_scalar context w retry_interval ≫= fun _ =>
  _validate_non_negative_scalar context w timeout.

Record ParsedTimeWindow := { ptw_window : TimeWindow; ptw_warnings : list string }.

(** [item.get("time_window") or {}], which must be an object. *)
Definition raw_window (context : string) (item : pydict) : result tw_error pydict :=
  match py_or (get item "time_window") (PDict []) with
  | PDict d => Ok d
  | _ => Err (NotAnObject context)
  end.

Definition parse_time_window_config (context : string) (defaults : pydict) (item : pydict)
    : result tw_error ParsedTimeWindow :=
  raw ← raw_window context item;
  w ← default_values context defaults;
  w ← foldM (read_field (context +:+ ".") item) w LEGACY_TOP_LEVEL_FIELDS;
  w ← foldM (read_field (context +:+ ".time_window.") raw) w LEGACY_TIME_WINDOW_FIELDS;
  w ← foldM (read_field (context +:+ ".time_window.") raw) w own_names;
  w ← read_weekdays raw (context +:+ ".time_window.weekdays") w;
  _ ← validate_all context w;
  Ok {| ptw_window := w;
        ptw_warnings := legacy_warnings context "" item LEGACY_TOP_LEVEL_FIELDS
                        ++ legacy_warnings context "time_window." raw LEGACY_TIME_WINDOW_FIELDS |}.

(** [window_of]: [except RuntimeError] holds every refusal but the overflow of [int]. *)
Definition window_of (context : string) (record : pyval) : result tw_error (option TimeWindow) :=
  match record with
  | PDict item => match parse_time_window_config context [] item with
                  | Ok p => Ok (Some (ptw_window p))
                  | Err IntOverflow => Err IntOverflow
                  | Err _ => Ok None
                  end
  | _ => Ok None
  end.

(** ** Is the window open: [time_window_closed_reason] *)
Definition check_dimension (name : string) (value : Z) (from to_ : option Z) : option string :=
  let outside := "outside allowed " +:+ name +:+ " window: " +:+ str_of_int value in
  match from, to_ with
  | Some a, Some b =>
      if b <? a then if (a <=? value) || (value <=? b) then None else Some outside
      else if value <? a then Some outside
      else if b <? value then Some outside else None
  | Some a, None => if value <? a then Some outside else None
  | None, Some b => if b <? value then Some outside else None
  | None, None => None
  end.
(** [checks]: the dimensions in the order they are tried. *)
Definition dimensions : list (string * (wall -> Z) * (int_field * int_field)) :=
  [("year", wall_year, (from_year, to_year)); ("month", wall_month, (from_month, to_month));
   ("day", wall_day, (from_day, to_day)); ("hour", wall_hour, (from_hour, to_hour));
   ("minute", wall_minute, (from_minute, to_minute))].
Fixpoint first_closed (w : TimeWindow) (current : wall)
    (ds : list (string * (wall -> Z) * (int_field * int_field))) : string :=
  match ds with
  | [] => ""
  | (name, value, (from, to_)) :: ds =>
      match check_dimension name (value current) (tw_get from w) (tw_get to_ w) with
      | Some reason => reason
      | None => first_closed w current ds
      end
  end.
Definition weekday_closed (w : TimeWindow) (current : wall) : option string :=
  match tw_weekdays w with
  | None => None
  | Some [] => Some "no weekday is allowed"
  | Some days =>
      if bool_decide (isoweekday current ∈ days) then None
      else Some ("outside allowed weekday window: " +:+ str_of_int (isoweekday current))
  end.
Definition time_window_closed_reason (w : option TimeWindow) (current : wall) : string :=
  match w with
  | None => ""
  | Some w => match weekday_closed w current with
              | Some reason => reason
              | None => first_closed w current dimensions
              end
  end.
Definition is_time_window_open (w : option TimeWindow) (current : wall) : bool :=
  String.eqb (time_window_closed_reason w current) "".

(** ** Is the work due *)

(** The slack on an interval, in microseconds: 5% of it, at most 30 s.  The code takes it
    in binary64 and [timedelta] rounds to the microsecond; for whole seconds the two agree. *)
Definition DUE_GRACE_MAX_SECONDS : Z := 30.
Definition _due_grace (interval : Z) : Z :=
  if interval <=? 0 then 0
  else Z.min (Z.min (interval * 50000) (seconds DUE_GRACE_MAX_SECONDS)) (seconds interval).

Definition repeat_due (last_run : option Z) (interval : option Z) (now : Z) (dflt : option Z)
    : bool :=
  if bool_decide (interval = Some MANUAL_ONLY) then false
  else match last_run with
  | None => true
  | Some last_run =>
      if bool_decide (interval = Some RUN_ONCE) then false
      else match (match interval with Some i => Some i | None => dflt end) with
           | None => false
           | Some i => last_run + (seconds i - _due_grace i) <=? now
           end
  end.

Record DueVerdict := {
  dv_due : bool; dv_reason : string; dv_last_run : option Z; dv_next_due_at : option Z }.

Definition _elapsed_verdict (last_run elapsed allowed now : Z) (label : string) : DueVerdict :=
  let next := last_run + seconds allowed in
  if next <=? now then Build_DueVerdict true "" (Some last_run) None
  else Build_DueVerdict false
         (label +:+ ": " +:+ str_of_int elapsed +:+ "s/" +:+ str_of_int allowed +:+ "s")
         (Some last_run) (Some next).

(** The arguments of [explain_due] that do not change between two looks at one row. *)
Record DueRule := {
  dr_last_run : option Z; dr_last_status : string; dr_repeat : option Z; dr_retry : option Z;
  dr_timeout : option Z; dr_timeout_disabled : bool; dr_default_repeat : option Z;
  dr_running_blocks : bool }.

Definition due_retry (r : DueRule) : Z := default 60 (dr_retry r).
Definition due_stale_grace (r : DueRule) : Z :=
  if dr_timeout_disabled r then due_retry r else default 300 (dr_timeout r).
Definition due_status (r : DueRule) : string := lower (strip (dr_last_status r)).

Definition explain_due (r : DueRule) (now : Z) : DueVerdict :=
  if bool_decide (dr_repeat r = Some MANUAL_ONLY) then
    Build_DueVerdict false "manual only: never scheduled" (dr_last_run r) None
  else match dr_last_run r with
  | None => Build_DueVerdict true "" None None
  | Some last_run =>
      let failed := bool_decide (due_status r ∈ ERROR_STATUSES) in
      let running := bool_decide (due_status r = "running") in
      let elapsed := whole_seconds (now - last_run) in
      let retry_verdict :=
        _elapsed_verdict last_run elapsed (due_retry r) now "retry not elapsed" in
      let running_verdict :=
        _elapsed_verdict last_run elapsed (due_stale_grace r) now "running within timeout" in
      if bool_decide (dr_repeat r = Some RUN_ONCE) then
        if failed then retry_verdict
        else if running then running_verdict
        else Build_DueVerdict false "run-once: already ran" (Some last_run) None
      else if running && dr_running_blocks r then running_verdict
      else if repeat_due (Some last_run) (dr_repeat r) now (dr_default_repeat r) then
        Build_DueVerdict true "" (Some last_run) None
      else if failed then retry_verdict
      else match (match dr_repeat r with Some i => Some i | None => dr_default_repeat r end) with
           | None => Build_DueVerdict false "no repeat_interval and no default: never due again"
                       (Some last_run) None
           | Some i =>
               Build_DueVerdict false
                 ("interval not elapsed: " +:+ str_of_int elapsed +:+ "s/" +:+ str_of_int i +:+ "s")
                 (Some last_run) (Some (last_run + (seconds i - _due_grace i)))
           end
  end.

(** [job_due] leaves [running_blocks] at its default. *)
Definition job_due (r : DueRule) (now : Z) : bool :=
  dv_due (explain_due {| dr_last_run := dr_last_run r; dr_last_status := dr_last_status r;
    dr_repeat := dr_repeat r; dr_retry := dr_retry r; dr_timeout := dr_timeout r;
    dr_timeout_disabled := dr_timeout_disabled r; dr_default_repeat := dr_default_repeat r;
    dr_running_blocks := true |} now).

(** ** Reading the rule off one store row *)
Definition RUN_ANCHOR_COLUMNS : list string := ["started_at"; "created_at"; "finished_at"].
(** A column that is missing ([KeyError]) is passed over like one that does not parse. *)
Fixpoint first_instant (row : pydict) (columns : list string) : option Z :=
  match columns with
  | [] => None
  | c :: columns => match assoc c row ≫= as_utc_datetime with
                    | Some t => Some t
                    | None => first_instant row columns
                    end
  end.
Definition run_anchor (row : option pydict) : option Z :=
  match row with None => None | Some row => first_instant row RUN_ANCHOR_COLUMNS end.
Definition _row_status (row : option pydict) : string :=
  match row with
  | None => ""
  | Some row => match assoc "status" row with
                | Some v => lower (strip (str (py_or v (PStr ""))))
                | None => ""
                end
  end.

Record DueDefaults := {
  dd_retry : option Z; dd_timeout : option Z; dd_repeat : option Z; dd_running_blocks : bool }.
Definition or_else (v d : option Z) : option Z := match v with Some _ => v | None => d end.
Definition due_rule (w : option TimeWindow) (row : option pydict) (d : DueDefaults) : DueRule :=
  let window := default empty_window w in
  {| dr_last_run := run_anchor row; dr_last_status := _row_status row;
     dr_repeat := tw_repeat_interval window;
     dr_retry := or_else (tw_retry_interval window) (dd_retry d);
     dr_timeout := or_else (tw_timeout window) (dd_timeout d);
     dr_timeout_disabled := bool_decide (tw_timeout window = Some 0);
     dr_default_repeat := dd_repeat d; dr_running_blocks := dd_running_blocks d |}.
Definition due_from_row (w : option TimeWindow) (row : option pydict) (now : Z)
    (local_now : option wall) (d : DueDefaults) : DueVerdict :=
  let closed := match local_now with Some c => time_window_closed_reason w c | None => "" end in
  if String.eqb closed "" then explain_due (due_rule w row d) now
  else Build_DueVerdict false closed (run_anchor row) None.

(** ** The binary64 arithmetic of the grace agrees with the integers

    [interval - min(interval * 0.05, 30, float(interval))] in doubles, as [timedelta]
    rounds it to microseconds. *)
Definition sf_mul := SFmul 53 1024.
Definition sf_sub := SFsub 53 1024.
Definition sf_trunc (f : spec_float) : Z := match int_of_float f with Ok n => n | Err _ => 0 end.
Definition sf_min (a b : spec_float) : spec_float := if SFltb b a then b else a.
Definition double_grace_delay (interval : Z) : Z :=
  let i := double interval 0 in
  let fraction := SFdiv 53 1024 (double 1 0) (double 20 0) in
  let grace := sf_min (sf_min (sf_mul i fraction) (double DUE_GRACE_MAX_SECONDS 0)) i in
  let delay := sf_sub i grace in
  let whole := sf_trunc delay in
  whole * usec + round_dec 0 (sf_mul (sf_sub delay (double whole 0)) (double usec 0)).
Example due_grace_binary64 :
  forallb (fun k => let i := Z.of_nat k in double_grace_delay i =? seconds i - _due_grace i)
    (seq 1 1200) = true.
Proof. vm_compute. reflexivity. Qed.

(** ** Lemmas *)
Lemma tw_get_set_eq f v w : tw_get f (tw_set f v w) = v.
Proof. by destruct f. Qed.
Lemma tw_get_set_ne f f' v w : f <> f' -> tw_get f (tw_set f' v w) = tw_get f w.
Proof. intros. unfold tw_set. by destruct f; cbn; rewrite decide_False. Qed.
Lemma tw_weekdays_set f v w : tw_weekdays (tw_set f v w) = tw_weekdays w.
Proof. done. Qed.
Lemma tw_get_set_weekdays f v w : tw_get f (tw_set_weekdays v w) = tw_get f w.
Proof. by destruct f. Qed.
Lemma optional_int_py n name : _optional_int (py_opt_int n) name = Ok n.
Proof. by destruct n. Qed.

(** What the parser promises of the object it returns. *)
Definition days_wf (l : list Z) : Prop := NoDup l /\ Forall (fun d => 1 <= d <= 7) l.
Definition weekdays_wf (ds : option (list Z)) : Prop := forall l, ds = Some l -> days_wf l.
Definition window_wf (w : TimeWindow) : Prop :=
  (forall f v, tw_get f w = Some v -> if decide (f = repeat_interval) then -1 <= v else 0 <= v)
  /\ weekdays_wf (tw_weekdays w).

Lemma is_weekday_iff d : is_weekday d = true <-> 1 <= d <= 7.
Proof.
  unfold is_weekday. rewrite bool_decide_eq_true. split.
  - intros [x Hx]. unfold weekday_name in Hx. apply fmap_Some in Hx as ([d' x'] & Hx & _).
    apply find_some in Hx as [Hin Heq%Z.eqb_eq]. cbn in *. naive_solver lia.
  - intros H. assert (d = 1 \/ d = 2 \/ d = 3 \/ d = 4 \/ d = 5 \/ d = 6 \/ d = 7) by lia.
    destruct_or!; subst; cbn; eauto.
Qed.

Lemma days_wf_nil : days_wf [].
Proof. split; constructor. Qed.
Lemma weekday_step_wf name l item l' :
  days_wf l -> weekday_step name l item = Ok l' -> days_wf l'.
Proof.
  intros [Hnd Hr] H. unfold weekday_step in H.
  apply result_bind_ok in H as (n & _ & H).
  destruct (is_weekday n) eqn:Hn; cbn in H; [|done]. apply is_weekday_iff in Hn.
  case_bool_decide as Hin; [done|]. injection H as <-. split.
  - apply list.NoDup_app. split_and!; [done| |apply NoDup_singleton].
    intros x Hx Hx'. apply list_elem_of_singleton in Hx' as ->. done.
  - apply list.Forall_app. auto.
Qed.
Lemma parse_weekdays_wf v name ds : parse_weekdays v name = Ok ds -> weekdays_wf ds.
Proof.
  unfold parse_weekdays. destruct (blank v); [by intros [= <-]|].
  destruct v as [| | | | |items|]; try done. intros H l Hl. subst ds.
  destruct (foldM _ _ _) as [l'|] eqn:E; cbn in H; [|done]. injection H as ->.
  by apply (foldM_inv days_wf _ (weekday_step_wf name) _ _ _ days_wf_nil E).
Qed.

(** The weekday set stays well-formed through every reading step. *)
Lemma read_field_weekdays name d w p w' : read_field name d w p = Ok w' ->
  tw_weekdays w' = tw_weekdays w.
Proof.
  unfold read_field. destruct (assoc _ d); [|by intros [= <-]].
  destruct (_optional_int _ _); cbn; [|done]. by intros [= <-].
Qed.
Lemma read_fields_weekdays name d l w w' :
  foldM (read_field name d) w l = Ok w' -> tw_weekdays w' = tw_weekdays w.
Proof.
  intros H. eapply (foldM_inv (fun x => tw_weekdays x = tw_weekdays w)) in H; [done| |done].
  intros s x s' <- Hs. by eapply read_field_weekdays.
Qed.
Lemma read_weekdays_wf d name w w' : read_weekdays d name w = Ok w' ->
  weekdays_wf (tw_weekdays w) -> weekdays_wf (tw_weekdays w').
Proof.
  unfold read_weekdays. destruct (assoc _ d); [|by intros [= <-]].
  destruct (parse_weekdays _ _) eqn:E; cbn; [|done]. intros [= <-] _.
  by eapply parse_weekdays_wf.
Qed.
Lemma default_values_wf context defaults w : default_values context defaults = Ok w ->
  weekdays_wf (tw_weekdays w).
Proof.
  unfold default_values. intros (w0 & H0 & H)%result_bind_ok.
  eapply read_weekdays_wf; [exact H|].
  eapply (foldM_inv (fun x => tw_weekdays x = None)) in H0; [by rewrite H0| |done].
  intros s f s' Hs. unfold read_default. destruct (assoc _ _); [|by intros [= <-]].
  destruct (_optional_int _ _); cbn; [|done]. by intros [= <-].
Qed.

(** A check on an optional value says the same of the value, when there is one. *)
Lemma opt_check_ok {E} (o : option Z) (bad : Z -> bool) (e : Z -> E) (P : Z -> Prop) u :
  (forall v, bad v = false <-> P v) ->
  match o with Some v => raise_when (bad v) (e v) | None => Ok tt end = Ok u
  <-> forall v, o = Some v -> P v.
Proof.
  intros HP. destruct o as [v|], u; [rewrite raise_when_ok, HP|]; naive_solver.
Qed.
Lemma non_negative_scalar_ok context w f u :
  _validate_non_negative_scalar context w f = Ok u <-> forall v, tw_get f w = Some v -> 0 <= v.
Proof. apply (opt_check_ok _ (fun v => v <? 0)). intros v. apply Z.ltb_ge. Qed.
Lemma validate_repeat_ok context w u :
  _validate_repeat_interval context w = Ok u
  <-> forall v, tw_get repeat_interval w = Some v -> -1 <= v.
Proof.
  apply (opt_check_ok _ (fun v => (v <? 0) && negb (v =? MANUAL_ONLY))). intros v.
  unfold MANUAL_ONLY. destruct (Z.ltb_spec v 0), (Z.eqb_spec v (-1)); cbn; split; (done || lia).
Qed.
Lemma validate_all_ok context w u :
  validate_all context w = Ok u
  <-> forall f v, tw_get f w = Some v -> if decide (f = repeat_interval) then -1 <= v else 0 <= v.
Proof.
  unfold validate_all. rewrite !result_seq_ok, foldM_checks, validate_repeat_ok,
    !non_negative_scalar_ok.
  unfold bound_pairs, _validate_non_negative. rewrite !list.Forall_cons, list.Forall_nil.
  rewrite !result_seq_ok, !non_negative_scalar_ok. cbn [fst snd]. split.
  - intros H f v Hv. destruct f; cbn -[tw_get]; naive_solver.
  - intros H. split_and!; try done;
      match goal with |- forall v, tw_get ?f _ = _ -> _ => exact (H f) end.
Qed.

Lemma parse_window_wf context defaults item p :
  parse_time_window_config context defaults item = Ok p -> window_wf (ptw_window p).
Proof.
  unfold parse_time_window_config.
  intros (raw & _ & (w0 & H0 & (w1 & H1 & (w2 & H2 & (w3 & H3 & (w4 & H4 & H)
    %result_bind_ok)%result_bind_ok)%result_bind_ok)%result_bind_ok)%result_bind_ok)%result_bind_ok.
  apply result_bind_ok in H as (u & Hv & [= <-]). cbn [ptw_window]. split.
  - exact (proj1 (validate_all_ok _ _ _) Hv).
  - eapply read_weekdays_wf; [exact H4|].
    rewrite (read_fields_weekdays _ _ _ _ _ H3), (read_fields_weekdays _ _ _ _ _ H2),
      (read_fields_weekdays _ _ _ _ _ H1). by eapply default_values_wf.
Qed.
(** Whatever the record, legacy names and defaults, a window the parser returns is well-
    formed: no negative bound, retry or timeout, a repeat interval of at least -1, and weekdays
    that are distinct and between 1 and 7. *)
Lemma parse_time_window_wf context defaults item p :
  parse_time_window_config context defaults item = Ok p -> window_wf (ptw_window p).
Proof. apply parse_window_wf. Qed.

(** Reading back what [to_dict] wrote. *)
Lemma weekday_steps name l acc :
  days_wf (acc ++ l) -> foldM (weekday_step name) acc (map PInt l) = Ok (acc ++ l).
Proof.
  revert acc. induction l as [|d l IH]; intros acc [Hnd Hr]; cbn; [by rewrite app_nil_r|].
  unfold weekday_step. cbn. apply list.Forall_app in Hr as [Hr Hd].
  apply list.Forall_cons in Hd as [Hd Hl]. apply list.NoDup_app in Hnd as (Hn1 & Hdis & Hn2).
  rewrite (proj2 (is_weekday_iff d) Hd). cbn.
  rewrite bool_decide_false by (intros Hin; apply (Hdis d Hin); by left).
  change (d :: l) with ([d] ++ l). rewrite app_assoc. apply IH.
  rewrite <-app_assoc. split; [|by rewrite !list.Forall_app, list.Forall_singleton].
  by apply list.NoDup_app.
Qed.
Lemma parse_weekdays_own (l : list Z) name :
  days_wf l -> parse_weekdays (PList (map PInt l)) name = Ok (Some l).
Proof. intros H. unfold parse_weekdays. cbn. by rewrite (weekday_steps name l []). Qed.

Lemma read_own_fields context w v :
  foldM (read_field context (to_dict w)) v own_names = Ok (tw_set_weekdays (tw_weekdays v) w).
Proof.
  unfold own_names, INT_FIELDS, read_field. cbn -[_optional_int tw_set].
  repeat (rewrite optional_int_py; cbn -[_optional_int tw_set]). by destruct v.
Qed.

Lemma read_fields_absent name d l w :
  Forall (fun p => assoc p.1 d = None) l -> foldM (read_field name d) w l = Ok w.
Proof.
  intros H. induction H as [|p l Hp _ IH]; cbn; [done|]. unfold read_field at 1. by rewrite Hp.
Qed.
Lemma legacy_warnings_absent context prefix d l :
  Forall (fun p => assoc p.1 d = None) l -> legacy_warnings context prefix d l = [].
Proof.
  intros H. unfold legacy_warnings. induction H as [|p l Hp _ IH]; cbn; [done|].
  unfold has_key at 1. by rewrite Hp.
Qed.
Lemma to_dict_weekdays w : assoc WEEKDAYS_FIELD (to_dict w)
  = Some (match tw_weekdays w with None => PNone | Some ds => PList (map PInt ds) end).
Proof. done. Qed.

(** Parsing what to_dict wrote gives back the same window, without warnings, whatever
    defaults the caller applies (so a null stays "no restriction"). *)
Lemma to_dict_parse_roundtrip context defaults w v :
  window_wf w -> default_values context defaults = Ok v ->
  parse_time_window_config context defaults [("time_window", PDict (to_dict w))]
  = Ok {| ptw_window := w; ptw_warnings := [] |}.
Proof.
  intros [Hf Hd] Hv. set (item := [("time_window", PDict (to_dict w))]).
  assert (Htop : Forall (fun p => assoc p.1 item = None) LEGACY_TOP_LEVEL_FIELDS)
    by (repeat constructor).
  assert (Htw : Forall (fun p => assoc p.1 (to_dict w) = None) LEGACY_TIME_WINDOW_FIELDS)
    by (repeat constructor).
  unfold parse_time_window_config.
  change (raw_window context item) with (@Ok tw_error _ (to_dict w)).
  rewrite bind_ok, Hv, bind_ok, (read_fields_absent _ item _ v Htop), bind_ok,
    (read_fields_absent _ (to_dict w) _ v Htw), bind_ok, read_own_fields, bind_ok.
  rewrite (legacy_warnings_absent context "" item _ Htop),
    (legacy_warnings_absent context "time_window." (to_dict w) _ Htw).
  unfold read_weekdays. rewrite to_dict_weekdays.
  assert (Hw : parse_weekdays (match tw_weekdays w with None => PNone
               | Some ds => PList (map PInt ds) end) (context +:+ ".time_window.weekdays")
               = Ok (tw_weekdays w)).
  { destruct (tw_weekdays w) as [l|] eqn:E; [|done]. by apply parse_weekdays_own, Hd. }
  rewrite Hw. cbn [fmap result_fmap].
  replace (tw_set_weekdays (tw_weekdays w) (tw_set_weekdays (tw_weekdays v) w)) with w by by destruct w.
  by rewrite bind_ok, (proj2 (validate_all_ok context _ tt) Hf).
Qed.

(** ** The window: specification of [time_window_closed_reason] *)

(** One dimension, stated without the code's case order: a pair that is the wrong way
    round leaves out the gap between its ends, any other bound is a plain inequality. *)
Definition wraps (from to_ : option Z) : Prop :=
  exists a b, from = Some a /\ to_ = Some b /\ b < a.
Definition dimension_allows (from to_ : option Z) (v : Z) : Prop :=
  (wraps from to_ -> forall a b, from = Some a -> to_ = Some b -> ~ (b < v < a))
  /\ (~ wraps from to_ -> (forall a, from = Some a -> a <= v) /\ (forall b, to_ = Some b -> v <= b)).
Definition weekday_allows (days : option (list Z)) (d : Z) : Prop :=
  forall l, days = Some l -> d ∈ l.

Lemma str_of_int_app_ne s t : s <> "" -> s +:+ t <> "".
Proof. by destruct s. Qed.
Lemma check_dimension_none name v from to_ :
  check_dimension name v from to_ = None <-> dimension_allows from to_ v.
Proof.
  unfold check_dimension, dimension_allows, wraps.
  destruct from as [a|], to_ as [b|]; cbn.
  - destruct (Z.ltb_spec b a) as [Hw|Hw].
    + destruct (Z.leb_spec a v), (Z.leb_spec v b); cbn; split; try done; intros.
      1-3: split; [naive_solver lia|intros []; eauto].
      destruct H1 as [H1 _]. exfalso. apply (H1 ltac:(eauto) a b); eauto.
    + destruct (Z.ltb_spec v a), (Z.ltb_spec b v); split; try done.
      1-3: intros [_ H']; destruct H' as [Ha Hb]; [naive_solver lia|];
           first [specialize (Ha a eq_refl); lia | specialize (Hb b eq_refl); lia].
      intros _. split; naive_solver lia.
  - destruct (Z.ltb_spec v a); split; try done.
    + intros [_ H']. destruct H' as [Ha _]; [naive_solver|]. specialize (Ha a eq_refl). lia.
    + intros _. split; naive_solver lia.
  - destruct (Z.ltb_spec b v); split; try done.
    + intros [_ H']. destruct H' as [_ Hb]; [naive_solver|]. specialize (Hb b eq_refl). lia.
    + intros _. split; naive_solver lia.
  - split; [|done]. intros _. split; naive_solver.
Qed.
Lemma check_dimension_some name v from to_ r :
  check_dimension name v from to_ = Some r -> r = "outside allowed " +:+ name +:+ " window: " +:+ str_of_int v.
Proof.
  unfold check_dimension. intros H. repeat case_match; simplify_eq; done.
Qed.

Lemma first_closed_open w c ds :
  first_closed w c ds = "" <->
  Forall (fun d => dimension_allows (tw_get d.2.1 w) (tw_get d.2.2 w) (d.1.2 c)) ds.
Proof.
  induction ds as [|[[name value] [from to_]] ds IH]; cbn; [by split|].
  rewrite list.Forall_cons. cbn. rewrite <-check_dimension_none with (name := name).
  destruct (check_dimension _ _ _ _) as [r|] eqn:E; [|naive_solver].
  apply check_dimension_some in E as ->. split; [done|naive_solver].
Qed.
Lemma weekday_closed_none w c :
  weekday_closed w c = None <-> weekday_allows (tw_weekdays w) (isoweekday c).
Proof.
  unfold weekday_closed, weekday_allows. destruct (tw_weekdays w) as [[|d l]|].
  - split; [done|]. intros H. specialize (H [] eq_refl). by apply not_elem_of_nil in H.
  - case_bool_decide; naive_solver.
  - naive_solver.
Qed.
Lemma weekday_closed_some w c r : weekday_closed w c = Some r -> r <> "".
Proof.
  unfold weekday_closed. intros H. by repeat case_match; simplify_eq.
Qed.

(** A window is open exactly when the weekday set (if any) holds the day and each of the
    five dimensions allows the value: a pair the wrong way round excludes only the gap, every
    other bound is a plain inequality. *)
Lemma window_open_iff w c :
  is_time_window_open (Some w) c = true <->
  weekday_allows (tw_weekdays w) (isoweekday c)
  /\ Forall (fun d => dimension_allows (tw_get d.2.1 w) (tw_get d.2.2 w) (d.1.2 c)) dimensions.
Proof.
  unfold is_time_window_open. rewrite String.eqb_eq. cbn [time_window_closed_reason].
  rewrite <-weekday_closed_none, <-first_closed_open.
  destruct (weekday_closed w c) as [r|] eqn:E; [|naive_solver].
  apply weekday_closed_some in E. naive_solver.
Qed.

(** For bounds inside the range of their dimension, the two cases of the comparison (plain
    and wrapping) are one cyclic range: v is allowed iff (v - from) mod n <= (to - from) mod n. *)
Lemma bounds_are_cyclic n name a b v :
  0 <= a < n -> 0 <= b < n -> 0 <= v < n ->
  check_dimension name v (Some a) (Some b) = None <-> (v - a) mod n <= (b - a) mod n.
Proof.
  intros Ha Hb Hv.
  assert (Hmod : forall x, 0 <= x < n -> (x - a) mod n = if x <? a then x - a + n else x - a).
  { intros x Hx. destruct (Z.ltb_spec x a).
    - replace (x - a) with (x - a + n + (-1) * n) at 1 by lia.
      rewrite Z_mod_plus_full. apply Z.mod_small. lia.
    - apply Z.mod_small. lia. }
  rewrite !Hmod by done. unfold check_dimension.
  destruct (Z.ltb_spec b a), (Z.ltb_spec v a), (Z.leb_spec a v), (Z.leb_spec v b),
    (Z.ltb_spec b v); cbn; split; (done || lia).
Qed.

(** ** The rule: when a unit of work may start *)

Definition due_interval (r : DueRule) : option Z := or_else (dr_repeat r) (dr_default_repeat r).
(** Four reasons to start, and only these. *)
Inductive may_start (r : DueRule) (now : Z) : Prop :=
| start_first : dr_repeat r <> Some MANUAL_ONLY -> dr_last_run r = None -> may_start r now
| start_interval t i :
    dr_last_run r = Some t -> dr_repeat r <> Some MANUAL_ONLY -> dr_repeat r <> Some RUN_ONCE ->
    ~ (due_status r = "running" /\ dr_running_blocks r = true) ->
    due_interval r = Some i -> t + seconds i - _due_grace i <= now -> may_start r now
| start_retry t :
    dr_last_run r = Some t -> dr_repeat r <> Some MANUAL_ONLY ->
    due_status r ∈ ERROR_STATUSES -> t + seconds (due_retry r) <= now -> may_start r now
| start_stale t :
    dr_last_run r = Some t -> dr_repeat r <> Some MANUAL_ONLY -> due_status r = "running" ->
    dr_repeat r = Some RUN_ONCE \/ dr_running_blocks r = true ->
    t + seconds (due_stale_grace r) <= now -> may_start r now.

Lemma elapsed_due t e n now label :
  dv_due (_elapsed_verdict t e n now label) = true <-> t + seconds n <= now.
Proof.
  unfold _elapsed_verdict. destruct (Z.leb_spec (t + seconds n) now); cbn; split; (done || lia).
Qed.
Lemma elapsed_next t e n now label x :
  dv_next_due_at (_elapsed_verdict t e n now label) = Some x <->
  x = t + seconds n /\ now < t + seconds n.
Proof.
  unfold _elapsed_verdict.
  destruct (Z.leb_spec (t + seconds n) now); cbn; split; intros; naive_solver lia.
Qed.
Lemma repeat_due_some t i now d :
  i <> Some MANUAL_ONLY -> i <> Some RUN_ONCE ->
  repeat_due (Some t) i now d = true <->
  (exists n, or_else i d = Some n /\ t + seconds n - _due_grace n <= now).
Proof.
  intros Hm Ho. unfold repeat_due. rewrite !bool_decide_false by done.
  unfold or_else. destruct i as [n|]; [|destruct d as [n|]]; [..|naive_solver];
    rewrite Z.leb_le; split; intros; naive_solver lia.
Qed.
Lemma error_not_running : "running" ∉ ERROR_STATUSES.
Proof. by apply (bool_decide_unpack _). Qed.

Lemma failed_not_running r : due_status r ∈ ERROR_STATUSES -> due_status r <> "running".
Proof. intros H E. rewrite E in H. by apply error_not_running. Qed.

(** Refute or use one way of starting: the row is the same, so are status and interval. *)
Ltac start_cases :=
  let H := fresh in intros H; destruct H as [H|H|H|H]; simplify_eq; try done;
  repeat match goal with
  | F : due_status ?r ∈ ERROR_STATUSES |- _ =>
      lazymatch goal with
      | N : due_status r <> "running" |- _ => fail
      | _ => pose proof (failed_not_running r F)
      end
  end; try done; try (destruct_or?; congruence); try (exfalso; by eauto).

Lemma explain_due_rule r now : dv_due (explain_due r now) = true <-> may_start r now.
Proof.
  unfold explain_due. case_bool_decide as Hm.
  { cbn. split; [done|]. start_cases. }
  destruct (dr_last_run r) as [t|] eqn:Ht.
  2: { split; [|done]. intros _. by apply start_first. }
  case_bool_decide as Ho.
  { case_bool_decide as Hf; [|case_bool_decide as Hr].
    - rewrite elapsed_due. split; [by intros; eapply start_retry; eauto|]. start_cases.
    - rewrite elapsed_due. split; [by intros; eapply start_stale; eauto|]. start_cases.
    - cbn. split; [done|]. start_cases. }
  destruct (bool_decide (due_status r = "running") && dr_running_blocks r) eqn:Hrun.
  { apply andb_true_iff in Hrun as [Hr%bool_decide_eq_true Hb].
    rewrite elapsed_due. split; [by intros; eapply start_stale; eauto|]. start_cases. }
  rewrite andb_false_iff, bool_decide_eq_false in Hrun.
  destruct (repeat_due _ _ _ _) eqn:Hrep.
  { apply repeat_due_some in Hrep as (n & Hn & Hle); [|done..]. split; [|done]. intros _.
    eapply start_interval; eauto. destruct Hrun as [|Hrun]; [naive_solver|]. rewrite Hrun. naive_solver. }
  assert (Hno : forall i, due_interval r = Some i -> t + seconds i - _due_grace i <= now -> False).
  { intros i Hi Hle. apply not_true_iff_false in Hrep. apply Hrep, repeat_due_some; eauto. }
  case_bool_decide as Hf.
  - rewrite elapsed_due. split; [by intros; eapply start_retry; eauto|]. start_cases.
  - assert (~ may_start r now) by start_cases. split; [|done]. by repeat case_match.
Qed.
(** explain_due starts a unit of work exactly when one of four rules allows it: never run,
    interval (less the grace) elapsed, retry after a failed run, recovery of a stale running
    row; a manual unit never starts and a successful run-once never repeats. *)
Lemma explain_due_iff r now : dv_due (explain_due r now) = true <-> may_start r now.
Proof. apply explain_due_rule. Qed.


Lemma may_start_mono r now now' : now <= now' -> may_start r now -> may_start r now'.
Proof.
  intros Hle [].
  - by apply start_first.
  - eapply start_interval; eauto; lia.
  - eapply start_retry; eauto; lia.
  - eapply start_stale; eauto; lia.
Qed.

(** The three branches that answer with an instant. *)
Lemma next_due_cases r now x :
  dv_next_due_at (explain_due r now) = Some x ->
  exists t, dr_last_run r = Some t /\ dr_repeat r <> Some MANUAL_ONLY /\ now < x /\
    ((due_status r ∈ ERROR_STATUSES /\ x = t + seconds (due_retry r))
     \/ (due_status r = "running" /\ (dr_repeat r = Some RUN_ONCE \/ dr_running_blocks r = true)
         /\ x = t + seconds (due_stale_grace r))
     \/ ((due_status r ∉ ERROR_STATUSES) /\ dr_repeat r <> Some RUN_ONCE
         /\ ~ (due_status r = "running" /\ dr_running_blocks r = true)
         /\ exists i, due_interval r = Some i /\ x = t + seconds i - _due_grace i)).
Proof.
  unfold explain_due. case_bool_decide as Hm; [done|].
  destruct (dr_last_run r) as [t|] eqn:Ht; [|done].
  case_bool_decide as Ho.
  { case_bool_decide as Hf; [|case_bool_decide as Hr; [|done]];
      intros [Hx Hlt]%elapsed_next; exists t; split_and!; try done; [lia|eauto|lia|eauto 6]. }
  destruct (bool_decide (due_status r = "running") && dr_running_blocks r) eqn:Hrun.
  { apply andb_true_iff in Hrun as [Hr%bool_decide_eq_true Hb].
    intros [Hx Hlt]%elapsed_next. exists t. split_and!; try done; [lia|eauto 6]. }
  rewrite andb_false_iff, bool_decide_eq_false in Hrun.
  destruct (repeat_due _ _ _ _) eqn:Hrep; [done|].
  case_bool_decide as Hf.
  { intros [Hx Hlt]%elapsed_next. exists t. split_and!; try done; [lia|eauto]. }
  intros Hx. assert (exists i, due_interval r = Some i /\ x = t + seconds i - _due_grace i)
    as (i & Hi & Hxi).
  { unfold due_interval, or_else. destruct (dr_repeat r); [|destruct (dr_default_repeat r)];
      simplify_eq/=; eexists; (split; [done|lia]). }
  exists t. split_and!; try done.
  - destruct (Z.lt_ge_cases now x) as [|Hge]; [done|]. apply not_true_iff_false in Hrep.
    exfalso. apply Hrep, repeat_due_some; [done..|]. exists i. split; [done|lia].
  - right. right. split_and!; [done|done| |eauto]. intros [Hr Hb]. destruct_or!; congruence.
Qed.

(** When explain_due answers with next_due_at, the unit is due at every instant from it on;
    unless the last run failed, it is due at no earlier instant, so the printed next attempt is
    the rule itself. *)
Lemma next_due_at_sound r now x :
  dv_next_due_at (explain_due r now) = Some x ->
  now < x
  /\ (forall now', x <= now' -> dv_due (explain_due r now') = true)
  /\ (due_status r ∉ ERROR_STATUSES ->
      forall now', now' < x -> dv_due (explain_due r now') = false).
Proof.
  intros (t & Ht & Hm & Hlt & Hc)%next_due_cases. split; [done|]. split.
  - intros now' Hle. apply explain_due_rule, (may_start_mono r x); [done|].
    destruct Hc as [[Hf ->]|[(Hr & Hb & ->)|(Hf & Ho & Hrb & i & Hi & ->)]];
      [eapply start_retry|eapply start_stale|eapply start_interval]; eauto; lia.
  - intros Hf now' Hlt'. apply not_true_iff_false. rewrite explain_due_rule.
    destruct Hc as [[? _]|[(Hr & Hb & ->)|(_ & Ho & Hrb & i & Hi & ->)]]; [done| |];
      start_cases; try lia.
    + destruct Hb; [done|]. naive_solver.
    + destruct_or!; naive_solver.
Qed.

(** After a failed run of a repeating unit, retry_interval never holds back the repeat
    interval: explain_due prints last_run + retry_interval as the next attempt, yet the unit is
    due as soon as the interval has elapsed. *)
Lemma retry_never_delays_repeat r t i now0 now :
  dr_last_run r = Some t -> due_status r ∈ ERROR_STATUSES ->
  dr_repeat r <> Some MANUAL_ONLY -> dr_repeat r <> Some RUN_ONCE -> due_interval r = Some i ->
  now0 < t + seconds i - _due_grace i -> now0 < t + seconds (due_retry r) ->
  t + seconds i - _due_grace i <= now ->
  dv_next_due_at (explain_due r now0) = Some (t + seconds (due_retry r))
  /\ dv_due (explain_due r now) = true.
Proof.
  intros Ht Hf Hm Ho Hi H0 Hr0 Hn. pose proof (failed_not_running r Hf) as Hr. split.
  - unfold explain_due. rewrite Ht. rewrite !(bool_decide_false _) by done. cbn [andb].
    destruct (repeat_due _ _ _ _) eqn:Hrep.
    + apply repeat_due_some in Hrep as (n & Hn' & Hle); [|done..].
      unfold due_interval in Hi. simplify_eq. lia.
    + rewrite bool_decide_true by done. by apply elapsed_next.
  - apply explain_due_rule. eapply start_interval; eauto. by intros [? _].
Qed.

Lemma due_grace_bounds i : 0 < i ->
  0 <= _due_grace i /\ 20 * _due_grace i <= seconds i /\ _due_grace i <= seconds 30.
Proof.
  intros Hi. unfold _due_grace, seconds, usec, DUE_GRACE_MAX_SECONDS.
  destruct (Z.leb_spec i 0); lia.
Qed.

(** A repeating unit whose last run succeeded starts at least 95% of the interval and the
    interval less 30 s after the previous start, and is always due once the full interval has
    elapsed. *)
Lemma repeat_start_bounds r t i now :
  dr_last_run r = Some t -> dr_repeat r = Some i -> 0 < i ->
  due_status r ∉ ERROR_STATUSES -> due_status r <> "running" ->
  (dv_due (explain_due r now) = true ->
    19 * seconds i <= 20 * (now - t) /\ seconds i - seconds 30 <= now - t)
  /\ (seconds i <= now - t -> dv_due (explain_due r now) = true).
Proof.
  intros Ht Hi Hpos Hf Hr. pose proof (due_grace_bounds i Hpos) as (? & ? & ?).
  assert (Hint : due_interval r = Some i) by (unfold due_interval; by rewrite Hi).
  rewrite explain_due_rule. split.
  - start_cases; lia.
  - intros Hle. eapply start_interval; [exact Ht|..|exact Hint|lia]; rewrite ?Hi;
      unfold MANUAL_ONLY, RUN_ONCE; [intros [= ?]; lia..|by intros [? _]].
Qed.

(** due_from_row says due exactly when the wall-clock window (if a clock is given) is open
    and the rule read off the row and the window allows a start. *)
Lemma due_from_row_iff w row now local_now d :
  dv_due (due_from_row w row now local_now d) = true <->
  (forall c, local_now = Some c -> is_time_window_open w c = true)
  /\ may_start (due_rule w row d) now.
Proof.
  unfold due_from_row. rewrite <-explain_due_rule. unfold is_time_window_open.
  destruct local_now as [c|].
  - destruct (String.eqb _ "") eqn:E; cbn; [naive_solver|].
    split; [done|]. intros [H _]. specialize (H c eq_refl). congruence.
  - cbn. naive_solver.
Qed.

(** ** Concrete instances *)
Definition nightly : TimeWindow :=
  Build_TimeWindow None None None None None None (Some 22) (Some 6) None None (Some 300)
    (Some 3600) (Some 0) (Some [7; 1]).
Definition failed_rule : DueRule :=
  Build_DueRule (Some 0) "failed" (Some 300) (Some 3600) None false None true.
Definition done_rule : DueRule :=
  Build_DueRule (Some 0) "success" (Some 300) None None false None true.

Lemma parse_time_window_wf_witness :
  exists p, parse_time_window_config "app_commands[0]" [("retry_interval", PInt 60)]
    [("interval_seconds", PStr " 300 ");
     ("time_window", PDict [("hour_from", PInt 22); ("to_hour", PStr "6"); ("weekdays", PList [PInt 7])])]
    = Ok p /\ ptw_warnings p <> [] /\ window_wf (ptw_window p).
Proof.
  eexists. split; [vm_compute; reflexivity|]. split; [done|].
  eapply (parse_time_window_wf "app_commands[0]" [("retry_interval", PInt 60)]
    [("interval_seconds", PStr " 300 ");
     ("time_window", PDict [("hour_from", PInt 22); ("to_hour", PStr "6"); ("weekdays", PList [PInt 7])])]).
  vm_compute. reflexivity.
Defined.

Lemma nightly_wf : window_wf nightly.
Proof.
  split; [by intros [] v [= <-]; vm_compute|]. intros l [= <-].
  split; [by apply (bool_decide_unpack _)|repeat constructor; lia].
Qed.
Lemma to_dict_parse_roundtrip_witness :
  parse_time_window_config "reports[1]" [("from_hour", PInt 0)] [("time_window", PDict (to_dict nightly))]
  = Ok {| ptw_window := nightly; ptw_warnings := [] |}.
Proof.
  eapply to_dict_parse_roundtrip; [exact nightly_wf|vm_compute; reflexivity].
Defined.

Lemma bounds_are_cyclic_witness :
  check_dimension "hour" 23 (Some 22) (Some 6) = None <-> (23 - 22) mod 24 <= (6 - 22) mod 24.
Proof. apply (bounds_are_cyclic 24 "hour" 22 6 23); lia. Defined.

Lemma next_due_at_sound_witness :
  let x := seconds 285 in
  (0 < x)
  /\ (forall now', x <= now' -> dv_due (explain_due done_rule now') = true)
  /\ (due_status done_rule ∉ ERROR_STATUSES ->
      forall now', now' < x -> dv_due (explain_due done_rule now') = false).
Proof. apply (next_due_at_sound done_rule 0). vm_compute. reflexivity. Defined.

Lemma retry_never_delays_repeat_witness :
  dv_next_due_at (explain_due failed_rule (seconds 100)) = Some (seconds 3600)
  /\ dv_due (explain_due failed_rule (seconds 285)) = true.
Proof.
  apply (retry_never_delays_repeat failed_rule 0 300 (seconds 100) (seconds 285));
    try done; by apply (bool_decide_unpack _).
Defined.

Lemma repeat_start_bounds_witness :
  (dv_due (explain_due done_rule (seconds 290)) = true ->
    19 * seconds 300 <= 20 * (seconds 290 - 0) /\ seconds 300 - seconds 30 <= seconds 290 - 0)
  /\ (seconds 300 <= seconds 290 - 0 -> dv_due (explain_due done_rule (seconds 290)) = true).
Proof.
  apply (repeat_start_bounds done_rule 0 300 (seconds 290)); try done;
    by apply (bool_decide_unpack _).
Defined.
