(* ===== verification/RunMode.v ===== *)
(** * [lib/run_mode.py]: one run of an app command at a time, or several. *)

From S2P Require Import Prelude Py.
From Stdlib Require Import SpecFloat.

Definition SYNC : string := "sync".
Definition ASYNC : string := "async".
Definition MODES : list string := [SYNC; ASYNC].
Definition DEFAULT_MODE : string := SYNC.
Definition DEFAULT_MAX_PARALLEL : Z := 4.
Definition MAX_PARALLEL_LIMIT : Z := 32.

Record RunMode := { rm_mode : string; rm_max_parallel : Z }.
Definition is_async (m : RunMode) : bool := String.eqb (rm_mode m) ASYNC.

(** [RunModeError], and the [OverflowError] of [int(Infinity)] that is not caught. *)
Inductive run_mode_error : Type :=
| UnknownMode (raw : pyval)
| ParallelOnSync
| ParallelNotANumber (raw : pyval)
| ParallelTooSmall (n : Z)
| ParallelTooLarge (n : Z)
| ParallelOverflow.

(** [v in (None, "", 1, "1")]: [True] and [1.0] are equal to [1]. *)
Definition none_or_one (v : pyval) : bool :=
  match v with
  | PNone => true
  | PBool b => b
  | PInt n => n =? 1
  | PFloat f => SFeqb f (double 1 0)
  | PStr s => String.eqb s "" || String.eqb s "1"
  | _ => false
  end.

Definition parse (entry : option pydict) : result run_mode_error RunMode :=
  let data := default [] entry in
  let raw_mode := get data "run_mode" in
  let mode := lower (strip (str (py_or raw_mode (PStr DEFAULT_MODE)))) in
  if negb (bool_decide (mode ∈ MODES)) then Err (UnknownMode raw_mode)
  else
    let raw_parallel := get data "max_parallel" in
    if String.eqb mode SYNC then
      if negb (none_or_one raw_parallel) then Err ParallelOnSync
      else Ok {| rm_mode := SYNC; rm_max_parallel := 1 |}
    else if blank raw_parallel then
      Ok {| rm_mode := ASYNC; rm_max_parallel := DEFAULT_MAX_PARALLEL |}
    else match py_int raw_parallel with
         | Err OverflowError => Err ParallelOverflow
         | Err _ => Err (ParallelNotANumber raw_parallel)
         | Ok n =>
             if n <? 1 then Err (ParallelTooSmall n)
             else if MAX_PARALLEL_LIMIT <? n then Err (ParallelTooLarge n)
             else Ok {| rm_mode := ASYNC; rm_max_parallel := n |}
         end.

Definition may_start (m : RunMode) (in_flight : Z) : bool :=
  if negb (is_async m) then in_flight =? 0 else in_flight <? rm_max_parallel m.

(** What a parsed mode can be. *)
Definition run_mode_ok (m : RunMode) : Prop :=
  (rm_mode m = SYNC /\ rm_max_parallel m = 1)
  \/ (rm_mode m = ASYNC /\ 1 <= rm_max_parallel m <= MAX_PARALLEL_LIMIT).

Lemma parse_run_mode_ok entry m : parse entry = Ok m -> run_mode_ok m.
Proof.
  unfold parse, run_mode_ok, MAX_PARALLEL_LIMIT. intros H.
  repeat case_match; simplify_eq/=;
    repeat match goal with H : (_ <? _) = false |- _ => apply Z.ltb_ge in H end; auto;
    right; unfold DEFAULT_MAX_PARALLEL; (split; [done|lia]).
Qed.
(** A record that says nothing keeps the behaviour it had before the field existed. *)
Lemma parse_silent d : get d "run_mode" = PNone -> get d "max_parallel" = PNone ->
  parse (Some d) = Ok {| rm_mode := SYNC; rm_max_parallel := 1 |}.
Proof. intros H1 H2. unfold parse. cbn [default from_option id]. by rewrite H1, H2. Qed.

(** The number of copies the mode allows at once. *)
Definition run_limit (m : RunMode) : Z := if is_async m then rm_max_parallel m else 1.
Lemma may_start_limit m n : 0 <= n -> may_start m n = true <-> n < run_limit m.
Proof.
  intros Hn. unfold may_start, run_limit. destruct (is_async m); cbn.
  - by rewrite Z.ltb_lt.
  - rewrite Z.eqb_eq. lia.
Qed.
Lemma run_limit_bounds m : run_mode_ok m -> 1 <= run_limit m <= MAX_PARALLEL_LIMIT.
Proof.
  unfold run_limit, is_async, MAX_PARALLEL_LIMIT.
  intros [[-> ->]|[-> H]]; cbn; unfold MAX_PARALLEL_LIMIT in *; lia.
Qed.
