(* ===== verification/RunClaim.v ===== *)
(** * [lib/run_claim.py]: who owns a run that is still [running], and when that ends.

    A claim is a few keys of the run row's metadata.  Elapsed time is in microseconds,
    timeouts and graces in seconds.  Reading [metadata_json] (JSON text) is not modelled:
    the metadata is an argument. *)

From S2P Require Import Prelude Py PyTime.

Definition FOREIGN_HOST_GRACE_SECONDS : Z := 3600.
Definition PID_FIELD : string := "claim_pid".
Definition HOST_FIELD : string := "claim_host".
Definition NODE_FIELD : string := "claim_node".
Definition STARTED_FIELD : string := "claim_started".

Record ReapVerdict := { rv_reap : bool; rv_reason : string; rv_timed_out : bool }.
Definition verdict (reap : bool) (reason : string) : ReapVerdict := Build_ReapVerdict reap reason false.

Definition claim_fields (pid : Z) (host node started : string) : pydict :=
  let fields := [(PID_FIELD, PInt pid); (HOST_FIELD, PStr host)] in
  let fields := if String.eqb (strip node) "" then fields
                else assoc_set NODE_FIELD (PStr (strip node)) fields in
  if String.eqb (strip started) "" then fields
  else assoc_set STARTED_FIELD (PStr (strip started)) fields.

(** [str(metadata.get(k) or "")] *)
Definition text_of (metadata : option pydict) (k : string) : string :=
  str (py_or (get (default [] metadata) k) (PStr "")).
Definition claim_started (metadata : option pydict) : string := strip (text_of metadata STARTED_FIELD).
Definition claim_node (metadata : option pydict) : string := strip (text_of metadata NODE_FIELD).

Definition _left_by_an_earlier_host_of_this_node (metadata : option pydict)
    (host this_host this_node : string) : bool :=
  let node := claim_node metadata in
  negb (String.eqb node "") && negb (String.eqb this_node "") && String.eqb node this_node
  && negb (String.eqb host "") && negb (String.eqb host this_host).

(** [row["host_name"]]; a row without the column, or without a row at all, has none. *)
Definition row_host (row : option pydict) : string :=
  match row ≫= assoc "host_name" with
  | Some v => strip (str (py_or v (PStr "")))
  | None => ""
  end.

(** The two spellings of a claim, newest first.  Only an [OverflowError] of [int] gets out. *)
Fixpoint first_owner (data : pydict) (fields : list (string * string))
    : result pyexn (option (Z * string)) :=
  match fields with
  | [] => Ok None
  | (pid_field, host) :: fields =>
      let raw_pid := get data pid_field in
      if is_none raw_pid then first_owner data fields
      else match py_int raw_pid with
           | Ok n => Ok (Some (n, host))
           | Err OverflowError => Err OverflowError
           | Err _ => first_owner data fields
           end
  end.
Definition claim_owner (metadata : option pydict) (host_fallback : string)
    : result pyexn (option Z * string) :=
  let data := default [] metadata in
  let own := text_of metadata HOST_FIELD in
  let other := str (py_or (get data "host_name") (PStr host_fallback)) in
  o ← first_owner data [(PID_FIELD, own); ("pid", other)];
  Ok (match o with Some (pid, host) => (Some pid, host) | None => (None, own) end).

(** What a reaper knows about a row and about itself. *)
Record ReapQuestion := {
  rq_metadata : option pydict; rq_this_host : string; rq_elapsed : Z; rq_timeout : Z;
  rq_pid_alive : option bool; rq_foreign_grace : Z; rq_this_node : string;
  rq_host_fallback : string }.

Definition alive (b : option bool) : bool := bool_decide (b = Some true).
Definition past (elapsed limit : Z) : bool := seconds limit <=? elapsed.
Definition secs (elapsed : Z) : string := str_of_int (whole_seconds elapsed).

Definition _owner_verdict (q : ReapQuestion) : result pyexn ReapVerdict :=
  '(pid, host) ← claim_owner (rq_metadata q) (rq_host_fallback q);
  let this_host := rq_this_host q in
  Ok (match pid with
  | None => if negb (rq_timeout q =? 0) && past (rq_elapsed q) (rq_timeout q)
            then verdict true ("no claim recorded and " +:+ secs (rq_elapsed q) +:+ "s is past "
                               +:+ str_of_int (rq_timeout q) +:+ "s")
            else verdict false "no claim recorded and still within its timeout"
  | Some pid =>
      let p := str_of_int pid in
      let grace := str_of_int (rq_foreign_grace q) in
      if negb (String.eqb host "") && String.eqb host this_host then
        if alive (rq_pid_alive q)
        then verdict false ("pid " +:+ p +:+ " is alive on " +:+ host +:+ ": the run is still going")
        else verdict true ("pid " +:+ p +:+ " is gone on " +:+ host)
      else if _left_by_an_earlier_host_of_this_node (rq_metadata q) host this_host (rq_this_node q) then
        verdict true ("claimed by pid " +:+ p +:+ " on " +:+ host +:+ ", a host name this node ("
          +:+ this_host +:+ ") no longer has: its processes ended with that host")
      else if negb (String.eqb host "") && negb (String.eqb host this_host) then
        if rq_timeout q =? 0 then
          verdict false ("claimed by pid " +:+ p +:+ " on " +:+ host
                         +:+ ": another host's service, closed only by its own host")
        else if past (rq_elapsed q) (Z.max (rq_timeout q) 0 + rq_foreign_grace q) then
          verdict true ("claimed by pid " +:+ p +:+ " on " +:+ host
            +:+ ", which cannot be checked from " +:+ this_host +:+ "; " +:+ secs (rq_elapsed q)
            +:+ "s is past its timeout plus " +:+ grace +:+ "s of grace")
        else verdict false ("claimed by pid " +:+ p +:+ " on " +:+ host
            +:+ ": another host's run is left alone until its timeout plus " +:+ grace
            +:+ "s of grace")
      else if negb (rq_timeout q =? 0) && past (rq_elapsed q) (rq_timeout q)
      then verdict true ("no claim recorded and " +:+ secs (rq_elapsed q) +:+ "s is past "
                         +:+ str_of_int (rq_timeout q) +:+ "s")
      else verdict false "no claim recorded and still within its timeout"
  end).

Definition reap_verdict (q : ReapQuestion) (at_timeout : bool) : result pyexn ReapVerdict :=
  v ← _owner_verdict q;
  Ok (if rv_reap v || negb at_timeout then v
      else if negb (rq_timeout q =? 0) && past (rq_elapsed q) (rq_timeout q)
      then Build_ReapVerdict true
             (secs (rq_elapsed q) +:+ "s is past its timeout of "
              +:+ str_of_int (rq_timeout q) +:+ "s") true
      else v).

Definition startup_verdict (q : ReapQuestion) : result pyexn ReapVerdict :=
  '(pid, host) ← claim_owner (rq_metadata q) (rq_host_fallback q);
  match pid with
  | Some pid =>
      if negb (String.eqb host "") && negb (String.eqb host (rq_this_host q)) then
        reap_verdict {| rq_metadata := rq_metadata q; rq_this_host := rq_this_host q;
          rq_elapsed := rq_elapsed q; rq_timeout := rq_timeout q; rq_pid_alive := None;
          rq_foreign_grace := rq_foreign_grace q; rq_this_node := rq_this_node q;
          rq_host_fallback := rq_host_fallback q |} false
      else if alive (rq_pid_alive q)
      then Ok (verdict false ("pid " +:+ str_of_int pid +:+ " outlived its daemon and is still working"))
      else Ok (verdict true ("pid " +:+ str_of_int pid +:+ " is gone"))
  | None => Ok (verdict true
      "left open by a daemon that is no longer running, and this one owns no children yet")
  end.

(** ** The table of the module's documentation *)
Inductive owner : Type :=
| ThisHost (pid : Z)          (* claimed by a process of this host *)
| EarlierHost (pid : Z)       (* by this node, under a host name it no longer has *)
| OtherHost (pid : Z)         (* by another host *)
| Unclaimed.                  (* nobody recorded, or a pid without a host *)
Definition owner_of (q : ReapQuestion) (pid : option Z) (host : string) : owner :=
  match pid with
  | None => Unclaimed
  | Some p =>
      if decide (host = "") then Unclaimed
      else if decide (host = rq_this_host q) then ThisHost p
      else if decide (claim_node (rq_metadata q) <> "" /\ claim_node (rq_metadata q) = rq_this_node q)
      then EarlierHost p else OtherHost p
  end.
Definition may_reap (q : ReapQuestion) (o : owner) : Prop :=
  match o with
  | ThisHost _ => rq_pid_alive q <> Some true
  | EarlierHost _ => True
  | OtherHost _ => rq_timeout q <> 0
      /\ seconds (Z.max (rq_timeout q) 0 + rq_foreign_grace q) <= rq_elapsed q
  | Unclaimed => rq_timeout q <> 0 /\ seconds (rq_timeout q) <= rq_elapsed q
  end.

Lemma past_timeout q : negb (rq_timeout q =? 0) && past (rq_elapsed q) (rq_timeout q) = true
  <-> rq_timeout q <> 0 /\ seconds (rq_timeout q) <= rq_elapsed q.
Proof. unfold past. rewrite andb_true_iff, negb_true_iff, Z.eqb_neq, Z.leb_le. done. Qed.

Lemma owner_verdict_iff q pid host v :
  claim_owner (rq_metadata q) (rq_host_fallback q) = Ok (pid, host) ->
  _owner_verdict q = Ok v -> (rv_reap v = true <-> may_reap q (owner_of q pid host)).
Proof.
  intros Ho. unfold _owner_verdict. rewrite Ho, bind_ok. intros [= <-].
  pose proof (past_timeout q) as Hpast.
  destruct pid as [p|]; cbn [owner_of].
  2: { cbn. rewrite <-Hpast. destruct (_ && _); cbn; naive_solver. }
  destruct (decide (host = "")) as [->|Hh].
  { unfold _left_by_an_earlier_host_of_this_node. cbn. rewrite !andb_false_r. cbn.
    rewrite <-Hpast. destruct (_ && past _ _); cbn; naive_solver. }
  rewrite (proj2 (String.eqb_neq host "") Hh). cbn [negb andb].
  destruct (decide (host = rq_this_host q)) as [->|Ht].
  { rewrite String.eqb_refl. unfold alive. case_bool_decide; cbn; naive_solver. }
  rewrite (proj2 (String.eqb_neq _ _) Ht).
  unfold _left_by_an_earlier_host_of_this_node.
  rewrite (proj2 (String.eqb_neq host "") Hh), (proj2 (String.eqb_neq _ _) Ht). cbn [negb].
  rewrite !andb_true_r.
  set (node := claim_node (rq_metadata q)).
  assert (Hnode : negb (String.eqb node "") && negb (String.eqb (rq_this_node q) "")
      && String.eqb node (rq_this_node q) = true <-> node <> "" /\ node = rq_this_node q).
  { rewrite !andb_true_iff, !negb_true_iff, !String.eqb_neq, String.eqb_eq. intuition congruence. }
  case_decide as Hd; [by rewrite (proj2 Hnode Hd)|].
  destruct (_ && String.eqb node _); [by destruct Hd; apply Hnode|]. cbn [andb].
  unfold past. destruct (Z.eqb_spec (rq_timeout q) 0); cbn; [naive_solver|].
  destruct (Z.leb_spec (seconds (Z.max (rq_timeout q) 0 + rq_foreign_grace q)) (rq_elapsed q));
    cbn; first [split; [done|lia]|split; naive_solver lia].
Qed.

Lemma reap_verdict_table q at_timeout pid host v :
  claim_owner (rq_metadata q) (rq_host_fallback q) = Ok (pid, host) ->
  reap_verdict q at_timeout = Ok v ->
  let expired := rq_timeout q <> 0 /\ seconds (rq_timeout q) <= rq_elapsed q in
  (rv_reap v = true <-> may_reap q (owner_of q pid host) \/ (at_timeout = true /\ expired))
  /\ (rv_timed_out v = true <->
      ~ may_reap q (owner_of q pid host) /\ at_timeout = true /\ expired).
Proof.
  intros Ho H. cbn zeta. unfold reap_verdict in H. apply result_bind_ok in H as (v0 & H0 & [= <-]).
  pose proof (owner_verdict_iff _ _ _ _ Ho H0) as Hiff.
  assert (Hto : rv_timed_out v0 = false).
  { revert H0. unfold _owner_verdict. rewrite Ho, bind_ok. intros [= <-].
    unfold verdict. by repeat case_match. }
  rewrite <-past_timeout. destruct (rv_reap v0) eqn:Hr, at_timeout; cbn [negb orb];
    rewrite ?Hr, ?Hto; [naive_solver..| |naive_solver].
  destruct (_ && past _ _) eqn:Hp; cbn [rv_reap rv_timed_out]; rewrite ?Hr, ?Hto; naive_solver.
Qed.
(** A running row is closed exactly as the ownership table says: a live process of this
    host never, a dead one or a host name the node no longer has at once, another host only past
    timeout plus grace and never when it has no timeout, an unclaimed row by age; at_timeout
    adds only rows past their timeout, and marks exactly those. *)
Lemma reap_verdict_iff q at_timeout pid host v :
  claim_owner (rq_metadata q) (rq_host_fallback q) = Ok (pid, host) ->
  reap_verdict q at_timeout = Ok v ->
  let expired := rq_timeout q <> 0 /\ seconds (rq_timeout q) <= rq_elapsed q in
  (rv_reap v = true <-> may_reap q (owner_of q pid host) \/ (at_timeout = true /\ expired))
  /\ (rv_timed_out v = true <->
      ~ may_reap q (owner_of q pid host) /\ at_timeout = true /\ expired).
Proof. apply reap_verdict_table. Qed.

(** The claim a process writes names that process. *)
Lemma claim_fields_get pid host node started :
  get (claim_fields pid host node started) PID_FIELD = PInt pid
  /\ get (claim_fields pid host node started) HOST_FIELD = PStr host
  /\ get (claim_fields pid host node started) NODE_FIELD
     = (if String.eqb (strip node) "" then PNone else PStr (strip node))
  /\ get (claim_fields pid host node started) STARTED_FIELD
     = (if String.eqb (strip started) "" then PNone else PStr (strip started)).
Proof.
  unfold claim_fields.
  destruct (String.eqb (strip node) ""), (String.eqb (strip started) ""); split_and!; done.
Qed.
Lemma str_or_empty s : str (py_or (PStr s) (PStr "")) = s.
Proof. by destruct s. Qed.
Lemma strip_if s : strip s = "" \/ strip s <> "".
Proof. destruct (decide (strip s = "")); auto. Qed.

(** The pid, host, node and start marker written by claim_fields are what claim_owner,
    claim_node and claim_started read back. *)
Lemma claim_roundtrip pid host node started host_fallback :
  let md := Some (claim_fields pid host node started) in
  claim_owner md host_fallback = Ok (Some pid, host)
  /\ claim_node md = strip node /\ claim_started md = strip started.
Proof.
  cbn zeta. destruct (claim_fields_get pid host node started) as (Hp & Hh & Hn & Hs).
  unfold claim_owner, claim_node, claim_started, text_of. cbn [default from_option id].
  rewrite Hh, Hn, Hs, !str_or_empty. cbn [first_owner]. rewrite Hp. cbn. split; [done|].
  destruct (String.eqb_spec (strip node) "") as [E|_], (String.eqb_spec (strip started) "") as [E'|_];
    rewrite ?str_or_empty, ?E, ?E', ?strip_idemp; done.
Qed.

(** What a daemon that has just started closes. *)
Definition may_reap_at_startup (q : ReapQuestion) (pid : option Z) (o : owner) : Prop :=
  match o with
  | ThisHost _ => rq_pid_alive q <> Some true
  | Unclaimed => pid = None \/ rq_pid_alive q <> Some true
  | o => may_reap q o
  end.
Lemma startup_table q pid host v :
  claim_owner (rq_metadata q) (rq_host_fallback q) = Ok (pid, host) ->
  startup_verdict q = Ok v ->
  (rv_reap v = true <-> may_reap_at_startup q pid (owner_of q pid host)).
Proof.
  unfold may_reap_at_startup.
  intros Ho H. unfold startup_verdict in H. rewrite Ho, bind_ok in H.
  destruct pid as [p|]; [|injection H as <-; cbn; naive_solver].
  assert (Hlocal : Ok (if alive (rq_pid_alive q)
      then verdict false ("pid " +:+ str_of_int p +:+ " outlived its daemon and is still working")
      else verdict true ("pid " +:+ str_of_int p +:+ " is gone")) = @Ok pyexn _ v ->
      (rv_reap v = true <-> rq_pid_alive q <> Some true)).
  { intros [= <-]. unfold alive. case_bool_decide; cbn; naive_solver. }
  unfold owner_of. destruct (decide (host = "")) as [->|Hh].
  { cbn [String.eqb negb andb] in H. rewrite Hlocal; [naive_solver|].
    by destruct (alive _). }
  destruct (decide (host = rq_this_host q)) as [->|Ht].
  { rewrite String.eqb_refl, andb_false_r in H. apply Hlocal. by destruct (alive _). }
  rewrite (proj2 (String.eqb_neq _ _) Hh), (proj2 (String.eqb_neq _ _) Ht) in H. cbn [negb andb] in H.
  eapply (reap_verdict_table _ _ (Some p) host) in H as [H _]; [|exact Ho].
  rewrite H. unfold owner_of. cbn [rq_this_host rq_metadata rq_this_node].
  rewrite (decide_False (P := host = "")), (decide_False (P := host = rq_this_host q)) by done.
  case_decide; cbn; naive_solver.
Qed.
Lemma startup_answers q o : claim_owner (rq_metadata q) (rq_host_fallback q) = Ok o ->
  exists v, startup_verdict q = Ok v.
Proof.
  intros H. unfold startup_verdict. rewrite H, bind_ok. destruct o as [[pid|] host]; [|by eexists].
  destruct (negb _ && negb _); [|by destruct (alive _); eexists].
  unfold reap_verdict, _owner_verdict. cbn [rq_metadata rq_host_fallback]. rewrite H, !bind_ok. by eexists.
Qed.

(** At daemon start-up a row of this host is closed unless its recorded pid is alive, an
    unowned row without a live pid is closed whatever its age, and rows of other or earlier
    hosts are judged by the same table as the sweep. *)
Lemma startup_verdict_iff q pid host v :
  claim_owner (rq_metadata q) (rq_host_fallback q) = Ok (pid, host) ->
  startup_verdict q = Ok v ->
  (rv_reap v = true <-> may_reap_at_startup q pid (owner_of q pid host)).
Proof. apply startup_table. Qed.

Definition foreign_row : ReapQuestion :=
  {| rq_metadata := Some (claim_fields 4242 "worker-1" "" ""); rq_this_host := "master";
     rq_elapsed := seconds 86400; rq_timeout := 0; rq_pid_alive := None;
     rq_foreign_grace := FOREIGN_HOST_GRACE_SECONDS; rq_this_node := ""; rq_host_fallback := "" |}.
Definition own_row : ReapQuestion :=
  {| rq_metadata := Some [("pid", PStr "77"); ("host_name", PStr "master")]; rq_this_host := "master";
     rq_elapsed := seconds 1900; rq_timeout := 1800; rq_pid_alive := Some true;
     rq_foreign_grace := FOREIGN_HOST_GRACE_SECONDS; rq_this_node := ""; rq_host_fallback := "" |}.

Lemma reap_verdict_iff_witness :
  exists v, reap_verdict own_row true = Ok v /\
  (rv_reap v = true <-> may_reap own_row (ThisHost 77)
     \/ (true = true /\ (rq_timeout own_row <> 0 /\ seconds (rq_timeout own_row) <= rq_elapsed own_row)))
  /\ (rv_timed_out v = true <-> ~ may_reap own_row (ThisHost 77) /\ true = true
     /\ (rq_timeout own_row <> 0 /\ seconds (rq_timeout own_row) <= rq_elapsed own_row)).
Proof.
  eexists. split; [vm_compute; reflexivity|].
  apply (reap_verdict_iff own_row true (Some 77) "master"); vm_compute; reflexivity.
Defined.
Lemma startup_verdict_iff_witness :
  exists v, startup_verdict foreign_row = Ok v /\
  (rv_reap v = true <-> may_reap foreign_row (OtherHost 4242)).
Proof.
  eexists. split; [vm_compute; reflexivity|].
  apply (startup_verdict_iff foreign_row (Some 4242) "worker-1"); vm_compute; reflexivity.
Defined.
