(* ===== verification/StateTransition.v ===== *)
(** * [lib/state_transition.py]: has a recurring check anything new to say?

    The states are finite maps from a key to a status.  Reasons are data: one constructor
    per sentence of the code, with the values it prints. *)

From S2P Require Import Prelude Py PyTime.

Definition DEFAULT_REMINDER_SECONDS : Z := 24 * 3600.

Abbreviation state := (gmap string string).

Record StateDiff := {
  sd_new_bad : list string; sd_recovered : list string;
  sd_worsened : list (string * string * string); sd_improved : list (string * string * string);
  sd_unchanged_bad : list string; sd_vanished_bad : list string; sd_appeared_ok : list string;
  sd_baseline : bool }.

Definition nonempty {A} (l : list A) : bool := match l with [] => false | _ => true end.
Definition has_transition (d : StateDiff) : bool :=
  nonempty (sd_new_bad d) || nonempty (sd_recovered d) || nonempty (sd_worsened d)
  || nonempty (sd_improved d).
Definition counts (d : StateDiff) : list (string * nat) :=
  [("new_failed", length (sd_new_bad d)); ("recovered", length (sd_recovered d));
   ("worsened", length (sd_worsened d)); ("improved", length (sd_improved d));
   ("unchanged", length (sd_unchanged_bad d)); ("vanished", length (sd_vanished_bad d))].

(** ** [diff_states] *)
Definition norm_status (s : string) : string := upper (strip s).
Fixpoint rank_from (i : Z) (order : list string) (rank : gmap string Z) : gmap string Z :=
  match order with
  | [] => rank
  | s :: order => rank_from (i + 1) order (<[norm_status s := i]> rank)
  end.
Definition rank_of (order : list string) : gmap string Z := rank_from 0 order ∅.
(** An unknown status ranks after every listed one. *)
Definition severity (order : list string) (s : string) : Z :=
  default (Z.of_nat (size (rank_of order))) (rank_of order !! norm_status s).
Definition is_bad (healthy : list string) (s : string) : bool :=
  negb (bool_decide (norm_status s ∈ map norm_status healthy)).

Definition sorted_keys (m : state) : list string := merge_sort String.le (map_to_list m).*1.

Section Diff.
Context (order healthy : list string).

Definition add_new_bad (k : string) (d : StateDiff) : StateDiff :=
  Build_StateDiff (sd_new_bad d ++ [k]) (sd_recovered d) (sd_worsened d) (sd_improved d)
    (sd_unchanged_bad d) (sd_vanished_bad d) (sd_appeared_ok d) (sd_baseline d).
Definition add_recovered (k : string) (d : StateDiff) : StateDiff :=
  Build_StateDiff (sd_new_bad d) (sd_recovered d ++ [k]) (sd_worsened d) (sd_improved d)
    (sd_unchanged_bad d) (sd_vanished_bad d) (sd_appeared_ok d) (sd_baseline d).
Definition add_worsened (e : string * string * string) (d : StateDiff) : StateDiff :=
  Build_StateDiff (sd_new_bad d) (sd_recovered d) (sd_worsened d ++ [e]) (sd_improved d)
    (sd_unchanged_bad d) (sd_vanished_bad d) (sd_appeared_ok d) (sd_baseline d).
Definition add_improved (e : string * string * string) (d : StateDiff) : StateDiff :=
  Build_StateDiff (sd_new_bad d) (sd_recovered d) (sd_worsened d) (sd_improved d ++ [e])
    (sd_unchanged_bad d) (sd_vanished_bad d) (sd_appeared_ok d) (sd_baseline d).
Definition add_unchanged (k : string) (d : StateDiff) : StateDiff :=
  Build_StateDiff (sd_new_bad d) (sd_recovered d) (sd_worsened d) (sd_improved d)
    (sd_unchanged_bad d ++ [k]) (sd_vanished_bad d) (sd_appeared_ok d) (sd_baseline d).
Definition add_appeared (k : string) (d : StateDiff) : StateDiff :=
  Build_StateDiff (sd_new_bad d) (sd_recovered d) (sd_worsened d) (sd_improved d)
    (sd_unchanged_bad d) (sd_vanished_bad d) (sd_appeared_ok d ++ [k]) (sd_baseline d).

(** What the loop finds out about one key of this run ([base]: there was no previous run). *)
Inductive change : Type :=
| NewBad | Recovered | Worsened (was : string) | Improved (was : string) | UnchangedBad
| AppearedOk | StillOk.
Definition classify (base : bool) (was_status : option string) (now_status : string) : change :=
  match was_status with
  | None =>
      if is_bad healthy now_status && negb base then NewBad
      else if is_bad healthy now_status then UnchangedBad
      else AppearedOk
  | Some was =>
      if is_bad healthy was && negb (is_bad healthy now_status) then Recovered
      else if negb (is_bad healthy was) && is_bad healthy now_status then NewBad
      else if is_bad healthy now_status then
        if severity order now_status <? severity order was then Worsened was
        else if severity order was <? severity order now_status then Improved was
        else UnchangedBad
      else StillOk
  end.
(** The body of the loop over the sorted keys of this run. *)
Definition diff_key (before : state) (now_status : string) (key : string) (d : StateDiff)
    : StateDiff :=
  match classify (sd_baseline d) (before !! key) now_status with
  | NewBad => add_new_bad key d
  | Recovered => add_recovered key d
  | Worsened was => add_worsened (key, was, now_status) d
  | Improved was => add_improved (key, was, now_status) d
  | UnchangedBad => add_unchanged key d
  | AppearedOk => add_appeared key d
  | StillOk => d
  end.
Definition diff_loop (before after : state) (keys : list string) (d : StateDiff) : StateDiff :=
  fold_left (fun d key => diff_key before (default "" (after !! key)) key d) keys d.

Definition vanished (before after : state) : list string :=
  merge_sort String.le
    (map_to_list (filter (fun kv => is_bad healthy kv.2 = true /\ after !! kv.1 = None) before)).*1.

Definition diff_states (previous : option state) (current : state) : StateDiff :=
  let before := default ∅ previous in
  let start := Build_StateDiff [] [] [] [] [] (vanished before current) []
                 (match previous with None => true | Some _ => false end) in
  diff_loop before current (sorted_keys current) start.
End Diff.

(** ** [decide_notification] *)
Inductive notify_reason : Type :=
| AlwaysRequested | FirstRunFindings | FirstRunClean
| StateChanged (new_failed recovered worsened improved : nat)
| NothingOutstanding | NoPreviousNotification
| OutstandingSince (n : nat) (previous : Z)
| NextReminderAt (n : nat) (due_at : Z).
Inductive notify_kind : Type := transition | reminder | baseline | silent.
Record NotifyDecision := { nd_send : bool; nd_kind : notify_kind; nd_reason : notify_reason }.

(** A stored timestamp, a [datetime] in hand, or nothing. *)
Inductive moment_value : Type := MNone | MText (s : string) | MInstant (t : Z).
Fixpoint replace_first (c by_ : ascii) (l : list ascii) : list ascii :=
  match l with
  | [] => []
  | a :: l => if bool_decide (a = c) then by_ :: l else a :: replace_first c by_ l
  end.
Definition _parse_moment (v : moment_value) : option Z :=
  match v with
  | MNone => None
  | MInstant t => Some t
  | MText s =>
      if String.eqb s "" then None
      else instant_of_iso (text (replace_first " " "T" (chars (replace_char "Z" "+00:00" (strip s)))))
  end.

Definition decide_notification (d : StateDiff) (last_sent_at : moment_value) (now : Z)
    (reminder_after_seconds : Z) (always : bool) : NotifyDecision :=
  if always then Build_NotifyDecision true transition AlwaysRequested
  else if sd_baseline d then
    if nonempty (sd_unchanged_bad d) || nonempty (sd_new_bad d)
    then Build_NotifyDecision true baseline FirstRunFindings
    else Build_NotifyDecision false silent FirstRunClean
  else if has_transition d then
    Build_NotifyDecision true transition
      (StateChanged (length (sd_new_bad d)) (length (sd_recovered d)) (length (sd_worsened d))
         (length (sd_improved d)))
  else if negb (nonempty (sd_unchanged_bad d)) then
    Build_NotifyDecision false silent NothingOutstanding
  else
    let n := length (sd_unchanged_bad d) in
    match _parse_moment last_sent_at with
    | None => Build_NotifyDecision true reminder NoPreviousNotification
    | Some previous =>
        let due_at := previous + seconds (Z.max 0 reminder_after_seconds) in
        if due_at <=? now then Build_NotifyDecision true reminder (OutstandingSince n previous)
        else Build_NotifyDecision false silent (NextReminderAt n due_at)
    end.

(** ** What each list holds *)
Section Spec.
Context (order healthy : list string).

(** Every list is the keys of its kind, in the order of the loop. *)
Definition pick {A} (f : change -> string -> string -> option A) (base : bool)
    (before after : state) (keys : list string) : list A :=
  omap (fun k => let now := default "" (after !! k) in
                 f (classify order healthy base (before !! k) now) k now) keys.
Definition key_if (c : change) (c' : change) (k _ : string) : option string :=
  match c, c' with
  | NewBad, NewBad | Recovered, Recovered | UnchangedBad, UnchangedBad
  | AppearedOk, AppearedOk => Some k
  | _, _ => None
  end.
Definition worse_entry (c : change) (k now : string) :=
  match c with Worsened was => Some (k, was, now) | _ => None end.
Definition better_entry (c : change) (k now : string) :=
  match c with Improved was => Some (k, was, now) | _ => None end.

Lemma diff_loop_lists before after keys d :
  let d' := diff_loop order healthy before after keys d in
  let pk A (f : change -> string -> string -> option A) :=
    pick f (sd_baseline d) before after keys in
  sd_baseline d' = sd_baseline d /\ sd_vanished_bad d' = sd_vanished_bad d
  /\ sd_new_bad d' = sd_new_bad d ++ pk _ (key_if NewBad)
  /\ sd_recovered d' = sd_recovered d ++ pk _ (key_if Recovered)
  /\ sd_worsened d' = sd_worsened d ++ pk _ worse_entry
  /\ sd_improved d' = sd_improved d ++ pk _ better_entry
  /\ sd_unchanged_bad d' = sd_unchanged_bad d ++ pk _ (key_if UnchangedBad)
  /\ sd_appeared_ok d' = sd_appeared_ok d ++ pk _ (key_if AppearedOk).
Proof.
  cbn zeta. unfold diff_loop, pick. revert d. induction keys as [|k keys IH]; intros d.
  { cbn. by rewrite !app_nil_r. }
  cbn [fold_left]. destruct (IH (diff_key order healthy before (default "" (after !! k)) k d))
    as (-> & -> & -> & -> & -> & -> & -> & ->).
  unfold diff_key. cbn [omap list_omap].
  destruct (classify order healthy (sd_baseline d) (before !! k) (default "" (after !! k)));
    cbn; rewrite <-?app_assoc; done.
Qed.

Lemma elem_of_pick {A} (f : change -> string -> string -> option A) base before after x :
  x ∈ pick f base before after (sorted_keys after) <->
  exists k now, after !! k = Some now
    /\ f (classify order healthy base (before !! k) now) k now = Some x.
Proof.
  unfold pick. rewrite list_elem_of_omap. split.
  - intros (k & Hk & Hx). unfold sorted_keys in Hk. rewrite merge_sort_Permutation in Hk.
    apply list_elem_of_fmap in Hk as ([k' now] & -> & Hk). apply elem_of_map_to_list in Hk.
    cbn in *. rewrite Hk in Hx. eauto.
  - intros (k & now & Hk & Hx). exists k. rewrite Hk. split; [|done].
    unfold sorted_keys. rewrite merge_sort_Permutation. apply list_elem_of_fmap.
    exists (k, now). split; [done|]. by apply elem_of_map_to_list.
Qed.

Abbreviation bad s := (is_bad healthy s = true).
Abbreviation ok s := (is_bad healthy s = false).

(** What each kind of change means, apart from the order of the tests. *)
Definition change_means (base : bool) (was_status : option string) (now : string) (c : change)
    : Prop :=
  match c with
  | NewBad => bad now /\ ((was_status = None /\ base = false)
                          \/ exists was, was_status = Some was /\ ok was)
  | Recovered => ok now /\ exists was, was_status = Some was /\ bad was
  | Worsened was => was_status = Some was /\ bad was /\ bad now
                    /\ severity order now < severity order was
  | Improved was => was_status = Some was /\ bad was /\ bad now
                    /\ severity order was < severity order now
  | UnchangedBad => bad now /\ ((was_status = None /\ base = true)
      \/ exists was, was_status = Some was /\ bad was /\ severity order was = severity order now)
  | AppearedOk => ok now /\ was_status = None
  | StillOk => ok now /\ exists was, was_status = Some was /\ ok was
  end.
Lemma classify_means base was now :
  change_means base was now (classify order healthy base was now).
Proof.
  unfold classify. destruct was as [was|].
  - destruct (is_bad healthy was) eqn:Hw, (is_bad healthy now) eqn:Hn; cbn [andb negb];
      [|cbn; eauto 6..].
    destruct (Z.ltb_spec (severity order now) (severity order was)); [done|].
    destruct (Z.ltb_spec (severity order was) (severity order now)); [done|].
    cbn. split; [done|]. right. exists was. split_and!; [done..|lia].
  - destruct (is_bad healthy now) eqn:Hn, base; cbn; auto.
Qed.
Lemma change_means_fun base was now c c' :
  change_means base was now c -> change_means base was now c' -> c = c'.
Proof.
  destruct c, c'; cbn; intros; destruct_and?; destruct_or?; destruct_and?; simplify_eq;
    repeat match goal with H : exists _, _ |- _ => destruct H as (? & H) end;
    destruct_and?; simplify_eq; (congruence || lia).
Qed.
Lemma classify_iff base was now c :
  classify order healthy base was now = c <-> change_means base was now c.
Proof.
  split; [intros <-; apply classify_means|].
  intros H. eapply change_means_fun; [apply classify_means|done].
Qed.

Lemma elem_of_vanished before after k :
  k ∈ vanished healthy before after <->
  exists was, before !! k = Some was /\ bad was /\ after !! k = None.
Proof.
  unfold vanished. rewrite merge_sort_Permutation, list_elem_of_fmap. split.
  - intros ([k' was] & -> & H). apply elem_of_map_to_list, map_lookup_filter_Some in H.
    cbn in *. naive_solver.
  - intros (was & Hk & Hb & Ha). exists (k, was). split; [done|].
    by apply elem_of_map_to_list, map_lookup_filter_Some.
Qed.

Lemma diff_states_lists previous current :
  let d := diff_states order healthy previous current in
  let before := default ∅ previous in
  let base := match previous with None => true | Some _ => false end in
  let now_is k c := exists now, current !! k = Some now /\ change_means base (before !! k) now c in
  (forall k, k ∈ sd_new_bad d <-> now_is k NewBad)
  /\ (forall k, k ∈ sd_recovered d <-> now_is k Recovered)
  /\ (forall k was now, (k, was, now) ∈ sd_worsened d <->
        current !! k = Some now /\ change_means base (before !! k) now (Worsened was))
  /\ (forall k was now, (k, was, now) ∈ sd_improved d <->
        current !! k = Some now /\ change_means base (before !! k) now (Improved was))
  /\ (forall k, k ∈ sd_unchanged_bad d <-> now_is k UnchangedBad)
  /\ (forall k, k ∈ sd_vanished_bad d <->
        exists was, before !! k = Some was /\ bad was /\ current !! k = None).
Proof.
  cbn zeta. unfold diff_states. set (start := Build_StateDiff _ _ _ _ _ _ _ _).
  destruct (diff_loop_lists (default ∅ previous) current (sorted_keys current) start)
    as (_ & -> & -> & -> & -> & -> & -> & _).
  subst start. cbn [sd_new_bad sd_recovered sd_worsened sd_improved sd_unchanged_bad
    sd_vanished_bad sd_baseline app]. split_and!; [..|intros; apply elem_of_vanished].
  1,2,5: intros k; rewrite elem_of_pick; setoid_rewrite <-classify_iff; split;
    [intros (k' & now & Hk & Hf); unfold key_if in Hf; case_match; simplify_eq; eauto
    |intros (now & Hk & Hc); exists k, now; by rewrite Hc].
  all: intros k was now; rewrite elem_of_pick, <-classify_iff; split;
    [intros (k' & now' & Hk & Hf); unfold worse_entry, better_entry in Hf; case_match; simplify_eq; eauto
    |intros (Hk & Hc); exists k, now; by rewrite Hc].
Qed.
(** Each list of the diff holds exactly the keys its definition names, independent of the
    order of the tests; in particular a key that vanished is never a recovery. *)
Lemma diff_states_spec previous current :
  let d := diff_states order healthy previous current in
  let before := default ∅ previous in
  let base := match previous with None => true | Some _ => false end in
  let now_is k c := exists now, current !! k = Some now /\ change_means base (before !! k) now c in
  (forall k, k ∈ sd_new_bad d <-> now_is k NewBad)
  /\ (forall k, k ∈ sd_recovered d <-> now_is k Recovered)
  /\ (forall k was now, (k, was, now) ∈ sd_worsened d <->
        current !! k = Some now /\ change_means base (before !! k) now (Worsened was))
  /\ (forall k was now, (k, was, now) ∈ sd_improved d <->
        current !! k = Some now /\ change_means base (before !! k) now (Improved was))
  /\ (forall k, k ∈ sd_unchanged_bad d <-> now_is k UnchangedBad)
  /\ (forall k, k ∈ sd_vanished_bad d <->
        exists was, before !! k = Some was /\ bad was /\ current !! k = None).
Proof. apply diff_states_lists. Qed.

Lemma pick_sorted_length {A} (f : change -> string -> string -> option A) base before after :
  length (pick f base before after (sorted_keys after))
  = length (pick f base before after (map_to_list after).*1).
Proof. unfold pick, sorted_keys. by rewrite merge_sort_Permutation. Qed.
Lemma picks_count base before after (l : list (string * string)) :
  (forall kv, kv ∈ l -> after !! kv.1 = Some kv.2) ->
  (length (pick (key_if NewBad) base before after l.*1)
   + length (pick worse_entry base before after l.*1)
   + length (pick better_entry base before after l.*1)
   + length (pick (key_if UnchangedBad) base before after l.*1)
   = length (filter (fun kv => is_bad healthy kv.2 = true) l))%nat.
Proof.
  intros Hl. induction l as [|[k now] l IH]; [done|]. cbn [fmap list_fmap fst].
  unfold pick in *. cbn [omap list_omap].
  assert (Hk : after !! k = Some now) by (apply (Hl (k, now)); by left).
  rewrite Hk. cbn [default from_option id].
  pose proof (classify_means base (before !! k) now) as Hc.
  rewrite filter_cons. cbn [snd].
  specialize (IH ltac:(intros; apply Hl; by right)).
  destruct (classify _ _ _ _ _); cbn [change_means key_if worse_entry better_entry] in *;
    destruct_and?; simplify_eq;
    first [rewrite decide_True by done | rewrite decide_False by congruence]; cbn [length]; lia.
Qed.

(** Every failing key of a run is reported once. *)
Lemma diff_states_loses_nothing previous current :
  let d := diff_states order healthy previous current in
  (length (sd_new_bad d) + length (sd_worsened d) + length (sd_improved d)
   + length (sd_unchanged_bad d)
   = length (filter (fun kv => is_bad healthy kv.2 = true) (map_to_list current)))%nat.
Proof.
  cbn zeta. unfold diff_states. set (start := Build_StateDiff _ _ _ _ _ _ _ _).
  destruct (diff_loop_lists (default ∅ previous) current (sorted_keys current) start)
    as (_ & _ & -> & _ & -> & -> & -> & _).
  subst start. cbn [sd_new_bad sd_worsened sd_improved sd_unchanged_bad sd_baseline app].
  rewrite !pick_sorted_length. apply picks_count.
  intros [k v] Hkv. by apply elem_of_map_to_list.
Qed.

(** Two runs that saw the same. *)
Lemma nonempty_false {A} (l : list A) : nonempty l = false <-> l = [].
Proof. by destruct l. Qed.
Lemma nonempty_true {A} (l : list A) : nonempty l = true <-> exists x, x ∈ l.
Proof.
  destruct l; cbn; split; try done.
  - intros [x Hx]. by apply not_elem_of_nil in Hx.
  - intros _. eexists. by left.
Qed.
Lemma unchanged_no_transition m : has_transition (diff_states order healthy (Some m) m) = false.
Proof.
  destruct (diff_states_lists (Some m) m) as (Hn & Hr & Hw & Hi & _).
  unfold has_transition. rewrite !orb_false_iff, !nonempty_false.
  assert (Hno : forall k now c, m !! k = Some now ->
    change_means false (m !! k) now c -> c = UnchangedBad \/ c = StillOk).
  { intros k now c Hk Hc. rewrite Hk in Hc. destruct c; cbn in Hc; auto;
      destruct_and?; destruct_or?; destruct_and?;
      repeat match goal with H : exists _, _ |- _ => destruct H as (? & H) end;
      destruct_and?; simplify_eq; (congruence || lia). }
  split_and!.
  - apply elem_of_nil_inv. intros k (now & Hk & Hc)%Hn. destruct (Hno _ _ _ Hk Hc); done.
  - apply elem_of_nil_inv. intros k (now & Hk & Hc)%Hr. destruct (Hno _ _ _ Hk Hc); done.
  - apply elem_of_nil_inv. intros [[k was] now] (Hk & Hc)%Hw. destruct (Hno _ _ _ Hk Hc); done.
  - apply elem_of_nil_inv. intros [[k was] now] (Hk & Hc)%Hi. destruct (Hno _ _ _ Hk Hc); done.
Qed.

(** A run that saw exactly what the previous one saw sends a message iff something is
    failing and the reminder interval since the last message sent has passed (or no message is
    on record). *)
Lemma unchanged_run_sends_only_reminders m last_sent_at now reminder :
  let d := diff_states order healthy (Some m) m in
  nd_send (decide_notification d last_sent_at now reminder false) = true <->
  (exists k s, m !! k = Some s /\ bad s)
  /\ (forall t, _parse_moment last_sent_at = Some t -> t + seconds (Z.max 0 reminder) <= now).
Proof.
  cbn zeta. pose proof (unchanged_no_transition m) as Hno.
  destruct (diff_states_lists (Some m) m) as (_ & _ & _ & _ & Hu & _).
  unfold decide_notification. rewrite Hno.
  replace (sd_baseline (diff_states order healthy (Some m) m)) with false.
  2:{ unfold diff_states. set (start := Build_StateDiff _ _ _ _ _ _ _ _).
      by destruct (diff_loop_lists (default ∅ (Some m)) m (sorted_keys m) start) as (-> & _). }
  assert (Hbad : nonempty (sd_unchanged_bad (diff_states order healthy (Some m) m)) = true
                 <-> exists k s, m !! k = Some s /\ bad s).
  { rewrite nonempty_true. setoid_rewrite Hu. cbn [default from_option id change_means]. split.
    - intros (k & s & Hk & Hb & _). eauto.
    - intros (k & s & Hk & Hb). exists k, s. split_and!; [done..|]. right. exists s. eauto. }
  destruct (nonempty _) eqn:Hne; cbn [negb].
  - destruct (_parse_moment last_sent_at) as [t|]; [|split; [|done]; intros _; split; [by apply Hbad|done]].
    destruct (Z.leb_spec (t + seconds (Z.max 0 reminder)) now); cbn; split; try done.
    + intros _. split; [by apply Hbad|]. by intros t' [= <-].
    + intros [_ Ht]. specialize (Ht t eq_refl). lia.
  - cbn. split; [done|]. intros [H _]. by apply Hbad in H.
Qed.
End Spec.

(** decide_notification stays silent exactly on a first run with no finding, or on a later
    run with no transition and either nothing outstanding or a reminder not yet due. *)
Lemma silent_iff d last_sent_at now reminder :
  nd_send (decide_notification d last_sent_at now reminder false) = false <->
  (sd_baseline d = true /\ sd_unchanged_bad d = [] /\ sd_new_bad d = [])
  \/ (sd_baseline d = false /\ has_transition d = false /\
      (sd_unchanged_bad d = [] \/
       exists t, _parse_moment last_sent_at = Some t /\ now < t + seconds (Z.max 0 reminder))).
Proof.
  unfold decide_notification. destruct (sd_baseline d).
  - destruct (nonempty (sd_unchanged_bad d)) eqn:Hu, (nonempty (sd_new_bad d)) eqn:Hn; cbn;
      rewrite <-!nonempty_false, Hu, Hn; naive_solver.
  - destruct (has_transition d); [naive_solver|].
    destruct (sd_unchanged_bad d) as [|k l]; cbn [nonempty negb]; [naive_solver|].
    destruct (_parse_moment last_sent_at) as [t|]; [|naive_solver].
    destruct (Z.leb_spec (t + seconds (Z.max 0 reminder)) now); cbn.
    + split; [done|]. intros [|(_ & _ & [|(t' & [= <-] & ?)])]; [naive_solver|done|lia].
    + split; [|done]. intros _. right. split_and!; eauto.
Qed.
