(* ===== verification/CleanupRetention.v ===== *)
(** * [lib/cleanup_retention.py]: how long a directory keeps its backup files.

    One number of seconds, or a window per file type ([None] is "keep").  Messages are
    error constructors holding what the text interpolates. *)

From S2P Require Import Prelude Py.

Definition FIELD : string := "cleanup_retention".
Definition LEGACY_FIELDS : list (string * Z) :=
  [("target_retention_seconds", 1); ("retention_days", 24 * 3600)].
Definition DEFAULT_SECONDS : Z := 8 * 24 * 3600.
Definition KEEP : string := "keep".
Definition KEEP_AS_SECONDS : Z := 100 * 365 * 24 * 3600.
Definition DEFAULT_KEY : string := "default".

Definition ENGINE_FILE_TYPES : list (string * list string) :=
  [("sqlserver", ["FULL"; "DIFF"; "LOG"; "CERT"]);
   ("postgresql", ["FULL_BASE"; "INCR_BASE"; "MANIFEST"; "WAL"]);
   ("oracle", ["RMAN_L0"; "RMAN_L1"; "ARCHIVELOG"; "CONTROLFILE"; "SPFILE"])].
Definition ALL_FILE_TYPES : list string := concat (map snd ENGINE_FILE_TYPES).
Definition ENGINE_ALIASES : list (string * string) :=
  [("mssql", "sqlserver"); ("postgres", "postgresql")].
Definition BASE_TYPE : list (string * string) :=
  [("sqlserver", "FULL"); ("postgresql", "FULL_BASE"); ("oracle", "RMAN_L0")].
Definition DEPENDENT_TYPES : list (string * list string) :=
  [("sqlserver", ["DIFF"; "LOG"]); ("postgresql", ["INCR_BASE"; "WAL"]);
   ("oracle", ["RMAN_L1"; "ARCHIVELOG"])].
Definition LOG_TYPE : list (string * string) :=
  [("sqlserver", "LOG"); ("postgresql", "WAL"); ("oracle", "ARCHIVELOG")].
Definition CHAIN_MEMBERS : list (string * string) :=
  [("postgresql", "INCR_BASE"); ("oracle", "RMAN_L1")].
Definition LEVEL_TYPES : list (string * list (string * string)) :=
  [("sqlserver", [("full", "FULL"); ("diff", "DIFF"); ("log", "LOG")]);
   ("postgresql", [("full", "FULL_BASE"); ("diff", "INCR_BASE"); ("log", "WAL")]);
   ("oracle", [("full", "RMAN_L0"); ("diff", "RMAN_L1"); ("log", "RMAN_L0")])].

Inductive retention_error : Type :=
| Required (context : string)
| NotWhole (where_ : string) (raw : pyval)
| BelowZero (where_ : string)
| NotSecondsOrKeep (where_ : string) (raw : pyval)
| UnknownType (where_ name : string)
| NoDefault (context : string) (named : list string)
| RetentionOverflow.                     (* int(Infinity), not caught *)

Definition _engine (value : string) : string :=
  let name := lower (strip value) in default name (assoc name ENGINE_ALIASES).

Record Retention := { r_windows : list (string * option Z); r_default : option Z; r_uniform : bool }.

Definition window_for (r : Retention) (file_type : string) : option Z :=
  let kind := upper (strip file_type) in
  match assoc kind (r_windows r) with
  | Some w => w
  | None => if String.eqb kind "CERT" && negb (r_uniform r) then None else r_default r
  end.

(** [max] over the stated windows; one that keeps makes it a century. *)
Definition stated_windows (r : Retention) : list (option Z) :=
  map snd (List.filter (fun p => negb (String.eqb (fst p) "CERT")) (r_windows r)) ++ [r_default r].
Definition longest (r : Retention) : Z :=
  if existsb (fun w => match w with None => true | Some _ => false end) (stated_windows r)
  then KEEP_AS_SECONDS
  else match omap id (stated_windows r) with
       | [] => 0    (* not reached: the default is stated *)
       | w :: ws => fold_left Z.max ws w
       end.

Definition window_value (w : option Z) : pyval := match w with None => PStr KEEP | Some n => PInt n end.
Definition as_config (r : Retention) : pyval :=
  if r_uniform r then PInt (default 0 (r_default r))
  else PDict (assoc_set DEFAULT_KEY (window_value (r_default r))
                (map (fun p => (p.1, window_value p.2)) (r_windows r))).

Definition _window (value : pyval) (where_ : string) : result retention_error (option Z) :=
  let number v :=
    match py_int v with
    | Err OverflowError => Err RetentionOverflow
    | Err _ => Err (NotSecondsOrKeep where_ v)
    | Ok n => if n <? 0 then Err (BelowZero where_) else Ok (Some n)
    end in
  match value with
  | PStr s => if String.eqb (lower (strip s)) KEEP then Ok None else number value
  | PBool _ => Err (NotSecondsOrKeep where_ value)
  | _ => number value
  end.

(** ** The object form: one turn of [for key, value in raw.items()] *)
Record ObjectState := { os_windows : list (string * option Z); os_default : option Z; os_has_default : bool }.
Definition object_step (context : string) (allowed : list string) (st : ObjectState)
    (item : string * pyval) : result retention_error ObjectState :=
  let name := strip item.1 in
  let where_ := context +:+ "." +:+ FIELD +:+ "." +:+ name in
  if String.eqb (lower name) DEFAULT_KEY then
    w ← _window item.2 where_; Ok (Build_ObjectState (os_windows st) w true)
  else if negb (bool_decide (upper name ∈ allowed)) then Err (UnknownType where_ name)
  else
    w ← _window item.2 where_;
    Ok (Build_ObjectState (assoc_set (upper name) w (os_windows st)) (os_default st) (os_has_default st)).
Definition named {A} (k : string) (d : list (string * A)) : bool :=
  match assoc k d with Some _ => true | None => false end.
Definition parse_object (context engine : string) (raw : pydict) : result retention_error Retention :=
  let kind := _engine engine in
  let types := assoc kind ENGINE_FILE_TYPES in
  let allowed := default ALL_FILE_TYPES types in
  st ← foldM (object_step context allowed) (Build_ObjectState [] (Some DEFAULT_SECONDS) false) raw;
  let complete := match types with
    | Some ts => forallb (fun t => named t (os_windows st))
                   (List.filter (fun t => negb (String.eqb t "CERT")) ts)
    | None => false
    end in
  if negb (os_has_default st) && negb complete
  then Err (NoDefault context (map fst (os_windows st)))
  else Ok (Build_Retention (os_windows st) (os_default st) false).

(** The first spelling that is there: the field, then the legacy ones with their factor. *)
Fixpoint first_stated (entry : pydict) (names : list (string * Z)) : option (pyval * string * Z) :=
  match names with
  | [] => None
  | (name, factor) :: names =>
      let v := get entry name in
      if is_none v then first_stated entry names else Some (v, name, factor)
  end.
Definition parse (entry : pydict) (context : string) (required : bool) : result retention_error Z :=
  match first_stated entry ((FIELD, 1) :: LEGACY_FIELDS) with
  | None => if required then Err (Required context) else Ok DEFAULT_SECONDS
  | Some (PDict d, _, _) => longest <$> parse_object context "" d
  | Some (raw, source, factor) =>
      let where_ := context +:+ "." +:+ source in
      match py_int raw with
      | Err OverflowError => Err RetentionOverflow
      | Err _ => Err (NotWhole where_ raw)
      | Ok n => if n <? 0 then Err (BelowZero where_) else Ok (n * factor)
      end
  end.
Definition parse_per_type (entry : pydict) (context engine : string) (required : bool)
    : result retention_error Retention :=
  match get entry FIELD with
  | PDict raw => parse_object context engine raw
  | _ => (fun n => Build_Retention [] (Some n) true) <$> parse entry context required
  end.

(** ** What the windows mean together *)
Definition describe (n : Z) : string :=
  if n =? 0 then "0s (no age gate)"
  else str_of_int n +:+ "s (" +:+ fixed1 (div_double n 86400) +:+ " days)".
Definition describe_window (w : option Z) : string :=
  match w with None => "keep" | Some n => describe n end.

Definition outlives (base window : option Z) : bool :=
  match base, window with
  | None, _ => false
  | _, Some 0 => false
  | _, None => true
  | Some b, Some w => negb (b =? 0) && (b <? w)
  end.
Definition dependents_past_their_base (r : Retention) (engine : string) : list string :=
  let kind := _engine engine in
  match assoc kind BASE_TYPE with
  | None => []
  | Some base_type =>
      let base := window_for r base_type in
      map (fun d => d +:+ " (" +:+ describe_window (window_for r d) +:+ ") outlives " +:+ base_type
             +:+ " (" +:+ describe_window base +:+ "): a " +:+ d +:+ " older than the oldest "
             +:+ base_type +:+ " kept restores nothing")
        (List.filter (fun d => outlives base (window_for r d)) (default [] (assoc kind DEPENDENT_TYPES)))
  end.

Definition chain_member_split (r : Retention) (engine : string) : string :=
  let kind := _engine engine in
  match assoc kind CHAIN_MEMBERS, assoc kind BASE_TYPE with
  | Some member, Some base_type =>
      match assoc member (r_windows r) with
      | None => ""
      | Some w =>
          let base := window_for r base_type in
          if bool_decide (w = base) then ""
          else member +:+ " (" +:+ describe_window w +:+ ") differs from " +:+ base_type +:+ " ("
               +:+ describe_window base +:+ "): each " +:+ member +:+ " needs every link back to its "
               +:+ base_type +:+ ", so it goes with its chain - leave " +:+ member
               +:+ " out, or give it " +:+ base_type +:+ "'s window"
      end
  | _, _ => ""
  end.

Definition shorter (a b : option Z) : option Z :=
  match a, b with Some x, Some y => Some (Z.min x y) | Some x, None => Some x | None, _ => b end.
Definition point_in_time_reach (r : Retention) (engine : string) : option Z :=
  let kind := _engine engine in
  match assoc kind BASE_TYPE, assoc kind LOG_TYPE with
  | Some base_type, Some log_type =>
      if String.eqb kind "oracle" then window_for r "RMAN_L0"
      else shorter (window_for r base_type) (window_for r log_type)
  | _, _ => r_default r
  end.

(** [None]: the one-window form; a level's [None]: keep. *)
Definition windows_by_level (r : Retention) (engine : string) : option (list (string * option Z)) :=
  if r_uniform r then None
  else map (fun p => (p.1, window_for r p.2)) <$> assoc (_engine engine) LEVEL_TYPES.

Definition shorter_than_its_interval (window interval : option Z) : bool :=
  match window, interval with
  | Some w, Some i => negb (w =? 0) && negb (i =? 0) && (0 <? w) && (w <? i)
  | _, _ => false
  end.

(** The sentence of a refusal is its error; the findings are joined as text. *)
Definition registrar_refusal (entry : pydict) (context engine : string) : option (retention_error + string) :=
  match parse_per_type entry context engine true with
  | Err e => Some (inl e)
  | Ok r =>
      let split := chain_member_split r engine in
      let found := dependents_past_their_base r engine ++ (if String.eqb split "" then [] else [split]) in
      match found with
      | [] => None
      | _ => Some (inr (context +:+ "." +:+ FIELD +:+ ": " +:+ join "; " found))
      end
  end.

Definition states_it (record : pydict) : bool :=
  existsb (fun name => negb (is_none (get record name))) (FIELD :: map fst LEGACY_FIELDS).
Definition retention_source (job entry : pydict) : pydict :=
  if states_it job || negb (states_it entry) then job
  else map (fun name => (name, get entry name))
         (List.filter (fun name => negb (is_none (get entry name))) (FIELD :: map fst LEGACY_FIELDS)).

(** ** Parsed retentions *)
Definition window_ok (w : option Z) : Prop := match w with Some n => 0 <= n | None => True end.
Definition allowed_types (engine : string) : list string :=
  default ALL_FILE_TYPES (assoc (_engine engine) ENGINE_FILE_TYPES).
Definition retention_wf (engine : string) (r : Retention) : Prop :=
  if r_uniform r then r_windows r = [] /\ exists n, r_default r = Some n /\ 0 <= n
  else NoDup (map fst (r_windows r))
       /\ Forall (fun p => p.1 ∈ allowed_types engine /\ window_ok p.2) (r_windows r)
       /\ window_ok (r_default r).

Lemma window_back w where_ : window_ok w -> _window (window_value w) where_ = Ok w.
Proof.
  destruct w as [n|]; cbn; intros H; [|done]. by rewrite (proj2 (Z.ltb_ge n 0) H).
Qed.

(** The file types are their own canonical spelling. *)
Definition canonical (t : string) : bool :=
  String.eqb (strip t) t && String.eqb (upper t) t && negb (String.eqb (lower t) DEFAULT_KEY).
Lemma types_canonical engine t : t ∈ allowed_types engine ->
  strip t = t /\ upper t = t /\ lower t <> DEFAULT_KEY.
Proof.
  assert (Hall : Forall (fun t => canonical t = true) (allowed_types engine)).
  { apply list.Forall_forall. intros x. unfold allowed_types.
    destruct (assoc _ ENGINE_FILE_TYPES) as [ts|] eqn:E; cbn [default from_option id].
    - unfold ENGINE_FILE_TYPES in E. cbn in E.
      repeat match type of E with context [String.eqb ?a ?b] => destruct (String.eqb a b) end;
        simplify_eq; revert x; apply list.Forall_forall; by repeat constructor.
    - revert x. apply list.Forall_forall. by repeat constructor. }
  intros Ht. rewrite list.Forall_forall in Hall. specialize (Hall t Ht). unfold canonical in Hall.
  rewrite !andb_true_iff, negb_true_iff, !String.eqb_eq, String.eqb_neq in Hall. naive_solver.
Qed.

Lemma object_step_type context engine st t w :
  t ∈ allowed_types engine -> window_ok w -> t ∉ map fst (os_windows st) ->
  object_step context (allowed_types engine) st (t, window_value w)
  = Ok (Build_ObjectState (os_windows st ++ [(t, w)]) (os_default st) (os_has_default st)).
Proof.
  intros Ht Hw Hn. destruct (types_canonical engine t Ht) as (Hs & Hu & Hl).
  unfold object_step. cbn [fst snd]. rewrite Hs, (proj2 (String.eqb_neq _ _) Hl), Hu.
  rewrite bool_decide_true by done. cbn [negb]. rewrite window_back by done. cbn.
  by rewrite assoc_set_fresh.
Qed.
Lemma object_steps_types context engine l st :
  Forall (fun p => p.1 ∈ allowed_types engine /\ window_ok p.2) l ->
  NoDup (map fst (os_windows st ++ l)) ->
  foldM (object_step context (allowed_types engine)) st (map (fun p => (p.1, window_value p.2)) l)
  = Ok (Build_ObjectState (os_windows st ++ l) (os_default st) (os_has_default st)).
Proof.
  intros Hl. revert st. induction Hl as [|[t w] l [Ht Hw] Hl IH]; intros st Hnd; cbn [map foldM].
  { rewrite app_nil_r. by destruct st. }
  cbn [fst snd] in *. rewrite (object_step_type _ _ _ _ _ Ht Hw).
  2:{ rewrite map_app in Hnd. apply list.NoDup_app in Hnd as (_ & Hd & _). intros Hin.
      apply (Hd t Hin). by left. }
  rewrite IH; cbn [os_windows os_default os_has_default]; rewrite <-app_assoc; done.
Qed.
Lemma foldM_app {E A S} (f : S -> A -> result E S) s l1 l2 :
  foldM f s (l1 ++ l2) = foldM f s l1 ≫= fun s' => foldM f s' l2.
Proof. revert s. induction l1 as [|x l1 IH]; intros s; cbn; [done|]. by destruct (f s x). Qed.

Lemma types_not_default engine l :
  Forall (fun p : string * option Z => p.1 ∈ allowed_types engine /\ window_ok p.2) l ->
  DEFAULT_KEY ∉ map fst (map (fun p => (p.1, window_value p.2)) l).
Proof.
  intros H. rewrite map_map. cbn [fst]. intros ([k w] & Hk & Hin)%list_elem_of_fmap.
  rewrite list.Forall_forall in H. destruct (H _ Hin) as [Ht _]. cbn in *. subst k.
  destruct (types_canonical engine _ Ht) as (_ & _ & Hl). by apply Hl.
Qed.

Lemma as_config_parse context engine required r :
  retention_wf engine r -> parse_per_type [(FIELD, as_config r)] context engine required = Ok r.
Proof.
  unfold retention_wf, parse_per_type, get, as_config. cbn [assoc]. rewrite String.eqb_refl.
  cbn [default from_option id].
  destruct r as [ws d u]; cbn [r_uniform r_windows r_default]. destruct u.
  - intros [-> (n & -> & Hn)]. unfold parse, get. cbn [first_stated get assoc].
    cbn -[Z.ltb Z.mul]. rewrite (proj2 (Z.ltb_ge n 0) Hn). cbn. by rewrite Z.mul_1_r.
  - intros (Hnd & Hl & Hd). unfold parse_object. fold (allowed_types engine).
    rewrite assoc_set_fresh by (by eapply types_not_default).
    rewrite foldM_app, object_steps_types by done. rewrite bind_ok. cbn [os_windows app foldM].
    unfold object_step at 1. cbn [fst snd]. change (String.eqb (lower (strip DEFAULT_KEY)) DEFAULT_KEY) with true.
    cbn [negb]. rewrite window_back by done. done.
Qed.
(** A well-formed retention written back to a config by as_config is parsed to the same
    retention, in the integer and the per-type form, for every engine. *)
Lemma as_config_roundtrip context engine required r :
  retention_wf engine r -> parse_per_type [(FIELD, as_config r)] context engine required = Ok r.
Proof. apply as_config_parse. Qed.

Lemma foldl_max ws w : Forall (fun x => x <= fold_left Z.max ws w) (w :: ws).
Proof.
  revert w. induction ws as [|x ws IH]; intros w; [repeat constructor; cbn; lia|].
  cbn [fold_left]. specialize (IH (Z.max w x)). rewrite !list.Forall_cons in *.
  destruct IH as [H1 H2]. split_and!; [lia|lia|done].
Qed.
Lemma longest_stated r w : w ∈ stated_windows r ->
  match w with None => longest r = KEEP_AS_SECONDS
             | Some n => longest r = KEEP_AS_SECONDS \/ n <= longest r end.
Proof.
  intros Hin. unfold longest. destruct (existsb _ _) eqn:He.
  - destruct w; auto.
  - destruct w as [n|].
    + right. assert (Hn : n ∈ omap id (stated_windows r)) by (apply list_elem_of_omap; by exists (Some n)).
      destruct (omap id (stated_windows r)) as [|m ms]; [by apply not_elem_of_nil in Hn|].
      pose proof (foldl_max ms m) as H. rewrite list.Forall_forall in H. by apply H.
    + exfalso. rewrite <-not_true_iff_false in He. apply He, existsb_exists. exists None.
      split; [by apply list_elem_of_In|done].
Qed.
Lemma assoc_in {A} k (v : A) d : assoc k d = Some v -> (k, v) ∈ d.
Proof.
  induction d as [|[k' w] d IH]; cbn; [done|]. destruct (String.eqb_spec k k') as [->|].
  - intros [= ->]. by left.
  - intros. right. by apply IH.
Qed.
Lemma window_for_stated r t : upper (strip t) <> "CERT" -> window_for r t ∈ stated_windows r.
Proof.
  intros Hc. unfold window_for, stated_windows. rewrite elem_of_app.
  destruct (assoc _ _) as [w|] eqn:E.
  - left. apply list_elem_of_fmap. exists (upper (strip t), w). split; [done|].
    apply list_elem_of_In, filter_In. split; [by apply list_elem_of_In, assoc_in|].
    cbn. by rewrite (proj2 (String.eqb_neq _ _) Hc).
  - right. rewrite (proj2 (String.eqb_neq _ _) Hc). cbn. by left.
Qed.

(** A reader that applies one number gets the longest window: parse agrees with longest,
    and no type but CERT is kept for longer than that number. *)
Lemma integer_reader_keeps_longest entry context engine required r :
  parse_per_type entry context engine required = Ok r ->
  (forall n, parse entry context required = Ok n -> engine = "" -> n = longest r)
  /\ (forall t, upper (strip t) <> "CERT" ->
      match window_for r t with
      | None => longest r = KEEP_AS_SECONDS
      | Some w => w <= KEEP_AS_SECONDS -> w <= longest r
      end).
Proof.
  intros Hr. split.
  - intros n Hn ->. unfold parse_per_type in Hr.
    destruct (get entry FIELD) as [| | | | | |raw] eqn:E.
    1-6: rewrite Hn in Hr; cbn in Hr; injection Hr as <-; by cbn.
    unfold parse in Hn. cbn [first_stated] in Hn. rewrite E in Hn. cbn [is_none] in Hn.
    rewrite Hr in Hn. cbn in Hn. congruence.
  - intros t Ht. pose proof (longest_stated r _ (window_for_stated r t Ht)) as H.
    destruct (window_for r t); [|done]. destruct H as [-> | H]; [done|]. done.
Qed.

(** With no dependent outliving its base, point-in-time recovery reaches as far as the log
    window says; when it does not, the check reports a finding and the base window is the reach. *)
Lemma dependents_check_is_reach r engine base_type log_type :
  assoc (_engine engine) BASE_TYPE = Some base_type ->
  assoc (_engine engine) LOG_TYPE = Some log_type ->
  _engine engine <> "oracle" -> (forall n, window_for r base_type = Some n -> 0 < n) ->
  (dependents_past_their_base r engine = [] ->
    point_in_time_reach r engine = window_for r log_type)
  /\ (point_in_time_reach r engine <> window_for r log_type ->
      dependents_past_their_base r engine <> []
      /\ point_in_time_reach r engine = window_for r base_type).
Proof.
  intros Hb Hl Ho H0.
  assert (Hreach : point_in_time_reach r engine
                   = shorter (window_for r base_type) (window_for r log_type)).
  { unfold point_in_time_reach. by rewrite Hb, Hl, (proj2 (String.eqb_neq _ _) Ho). }
  assert (Hin : exists ds, assoc (_engine engine) DEPENDENT_TYPES = Some ds /\ log_type ∈ ds).
  { revert Hl Ho. generalize (_engine engine). intros e. cbn.
    repeat case_match; intros [= <-] Hne; try done; eexists; (split; [done|]);
      by apply (bool_decide_unpack _). }
  destruct Hin as (ds & Hds & Hin).
  assert (Hout : outlives (window_for r base_type) (window_for r log_type) = true ->
                 dependents_past_their_base r engine <> []).
  { intros Hout. unfold dependents_past_their_base. rewrite Hb, Hds. cbn [default from_option id].
    intros Hnil%map_eq_nil.
    assert (Hf : log_type ∈ List.filter (fun d => outlives (window_for r base_type) (window_for r d)) ds).
    { apply list_elem_of_In, filter_In. split; [by apply list_elem_of_In|done]. }
    rewrite Hnil in Hf. by apply not_elem_of_nil in Hf. }
  assert (Hcase : shorter (window_for r base_type) (window_for r log_type) = window_for r log_type
    \/ (outlives (window_for r base_type) (window_for r log_type) = true
        /\ shorter (window_for r base_type) (window_for r log_type) = window_for r base_type)).
  { destruct (window_for r base_type) as [b|], (window_for r log_type) as [w|]; cbn; auto.
    specialize (H0 b eq_refl). destruct (Z.le_gt_cases w b); [left; by rewrite Z.min_r|].
      right. rewrite Z.min_l by lia. split; [|done]. destruct w as [|w|w]; [lia| |lia].
      rewrite andb_true_iff, negb_true_iff, Z.eqb_neq, Z.ltb_lt. lia. }
  rewrite Hreach. split.
  - intros Hnil. destruct Hcase as [|[Ho' _]]; [done|]. by apply Hout in Ho'.
  - intros Hne. destruct Hcase as [|[Ho' ->]]; [done|]. auto.
Qed.

Definition lab_windows : Retention :=
  Build_Retention [("FULL", Some 604800); ("LOG", Some 1209600); ("CERT", None)] (Some 691200) false.
Lemma as_config_roundtrip_witness :
  parse_per_type [(FIELD, as_config lab_windows)] "backups[1]" "mssql" true = Ok lab_windows.
Proof.
  apply as_config_roundtrip. cbn. split_and!; [by apply (bool_decide_unpack _)| |lia].
  repeat constructor; cbn; try lia; by apply (bool_decide_unpack _).
Defined.
Lemma integer_reader_keeps_longest_witness :
  (forall n, parse [(FIELD, as_config lab_windows)] "e" true = Ok n -> "" = "" -> n = longest lab_windows)
  /\ (forall t, upper (strip t) <> "CERT" ->
      match window_for lab_windows t with
      | None => longest lab_windows = KEEP_AS_SECONDS
      | Some w => w <= KEEP_AS_SECONDS -> w <= longest lab_windows
      end).
Proof. apply (integer_reader_keeps_longest _ _ ""). vm_compute. reflexivity. Defined.
Lemma dependents_check_is_reach_witness :
  (dependents_past_their_base lab_windows "mssql" = [] ->
    point_in_time_reach lab_windows "mssql" = window_for lab_windows "LOG")
  /\ (point_in_time_reach lab_windows "mssql" <> window_for lab_windows "LOG" ->
      dependents_past_their_base lab_windows "mssql" <> []
      /\ point_in_time_reach lab_windows "mssql" = window_for lab_windows "FULL").
Proof.
  apply (dependents_check_is_reach lab_windows "mssql" "FULL" "LOG"); try reflexivity; [done|].
  intros n H. vm_compute in H. injection H as <-. reflexivity.
Defined.
