(* ===== verification/RetentionFold.v ===== *)
(** * [lib/cleanup_retention.py], second part: one folder, several jobs.

    The file types a job writes, and [fold_entry], which moves the jobs' retentions onto
    their entry.  The entry and its jobs are edited in place in the code; here the edited
    entry is part of the result. *)

From S2P Require Import Prelude Py CleanupRetention.

(** [(job.get("env") or {}).get("BACKUP_LEVEL")] *)
Definition env_level (job : pydict) : result pyexn pyval :=
  match py_or (get job "env") (PDict []) with
  | PDict env => Ok (get env "BACKUP_LEVEL")
  | _ => Err AttributeError
  end.
Definition last_component (s : string) : string := default "" (list.last (split "/" s)).
Definition types_a_job_writes (engine : string) (job : pydict) : result pyexn (option (list string)) :=
  let kind := _engine engine in
  raw_level ← env_level job;
  let level := lower (strip (str (py_or raw_level (PStr "")))) in
  let script := lower (last_component
    (replace_char "\" "/" (str (py_or (get job "script") (PStr ""))))) in
  let eng s := String.eqb kind s in
  Ok (if eng "sqlserver" && bool_decide (level ∈ ["full"; "diff"; "log"]) then Some [upper level]
      else if eng "postgresql" && contains "archive_wal" script then Some ["WAL"]
      else if eng "postgresql" && contains "basebackup" script && String.eqb level "full"
      then Some ["FULL_BASE"; "INCR_BASE"; "MANIFEST"]
      else if eng "postgresql" && contains "basebackup" script && String.eqb level "incr" then Some []
      else if eng "oracle" && contains "archivelog" script then Some ["ARCHIVELOG"]
      else if eng "oracle" && contains "rman_database" script && String.eqb level "0"
      then Some ["RMAN_L0"; "RMAN_L1"; "CONTROLFILE"; "SPFILE"]
      else if eng "oracle" && contains "rman_database" script && String.eqb level "1" then Some []
      else None).

(** ** [fold_entry] *)
Inductive fold_conflict : Type :=
| BothState (where_ : string)
| PerTypeJob (where_ : string)
| BadJobRetention (e : retention_error)
| SomeSilent (where_ : string)
| UnknownJob (where_ : string) (job : pydict).
Inductive fold_effect : Type := Unchanged | Changes (shortest : Z) (values : list (string * Z)).
Record fold_change := { fc_where : string; fc_value : pyval; fc_effect : fold_effect }.

(** [for job in entry.get("jobs") or [] if isinstance(job, dict)] *)
Definition dicts (l : list pyval) : list pydict :=
  omap (fun v => match v with PDict d => Some d | _ => None end) l.
Definition raw_jobs (entry : pydict) : result pyexn (list pyval) :=
  match py_or (get entry "jobs") (PList []) with
  | PList l => Ok l
  | PDict _ | PStr _ => Ok []          (* iterates strings: none of them is a dict *)
  | _ => Err TypeError
  end.
Definition retention_names : list string := FIELD :: map fst LEGACY_FIELDS.
(** [job.pop(name, None)] for every spelling, on the jobs that state one. *)
Definition drop_stated (job : pydict) : pydict :=
  List.filter (fun p => negb (bool_decide (p.1 ∈ retention_names))) job.
Definition fold_job (v : pyval) : pyval :=
  match v with
  | PDict job => if states_it job then PDict (drop_stated job) else v
  | _ => v
  end.

Definition job_name (job : pydict) : string := str (py_or (get job "job") (PStr "?")).
(** [values = {name: parse(job) for job in stating}]: two jobs of one name share a key. *)
Definition job_value (where_ : string) (values : list (string * Z)) (job : pydict)
    : result retention_error (list (string * Z)) :=
  (fun n => assoc_set (job_name job) n values)
  <$> parse job (where_ +:+ "." +:+ str (get job "job")) true.
Definition fold_values (where_ : string) (stating : list pydict) : result retention_error (list (string * Z)) :=
  foldM (job_value where_) [] stating.

Definition all_equal (l : list Z) : bool :=
  match l with [] => false | x :: l => forallb (Z.eqb x) l end.
Definition minimum (l : list Z) : Z := match l with [] => 0 | x :: l => fold_left Z.min l x end.
Definition maximum (l : list Z) : Z := match l with [] => 0 | x :: l => fold_left Z.max l x end.

(** The windows of the jobs that differ, or the first job whose files are not known. *)
Definition add_types (n : Z) (kinds : list string) (ws : list (string * option Z)) :=
  fold_left (fun ws k => assoc_set k (Some n) ws) kinds ws.
Fixpoint fold_windows (engine : string) (values : list (string * Z)) (stating : list pydict)
    (ws : list (string * option Z)) : result pyexn (list (string * option Z) + pydict) :=
  match stating with
  | [] => Ok (inl ws)
  | job :: stating =>
      kinds ← types_a_job_writes engine job;
      match kinds with
      | None => Ok (inr job)
      | Some kinds =>
          fold_windows engine values stating
            (add_types (default 0 (assoc (job_name job) values)) kinds ws)
      end
  end.

Record fold_result := { fr_entry : pydict; fr_changes : list fold_change; fr_conflicts : list fold_conflict }.
Definition left_alone (entry : pydict) (c : list fold_conflict) : fold_result :=
  Build_fold_result entry [] c.
Definition write_fold (entry : pydict) (jobs : list pyval) (folded : pyval) : pydict :=
  assoc_set FIELD folded (assoc_set "jobs" (PList (map fold_job jobs)) entry).

Definition fold_entry (entry : pydict) (where_ : string) : result pyexn fold_result :=
  raw ← raw_jobs entry;
  let jobs := dicts raw in
  let stating := List.filter states_it jobs in
  let engine := str (py_or (get entry "db_type") (PStr "")) in
  match stating with
  | [] => Ok (left_alone entry [])
  | _ =>
    if states_it entry then Ok (left_alone entry [BothState where_])
    else if existsb (fun job => is_dict (get job FIELD)) stating
    then Ok (left_alone entry [PerTypeJob where_])
    else match fold_values where_ stating with
    | Err RetentionOverflow => Err OverflowError
    | Err e => Ok (left_alone entry [BadJobRetention e])
    | Ok values =>
        if negb (length stating =? length jobs)%nat then Ok (left_alone entry [SomeSilent where_])
        else
          let ns := map snd values in
          if all_equal ns then
            let folded := PInt (minimum ns) in
            Ok (Build_fold_result (write_fold entry raw folded)
                  [Build_fold_change where_ folded Unchanged] [])
          else
            w ← fold_windows engine values stating [];
            match w with
            | inr job => Ok (left_alone entry [UnknownJob where_ job])
            | inl ws =>
                let folded := PDict (assoc_set DEFAULT_KEY (PInt (maximum ns))
                                (map (fun p => (p.1, window_value p.2)) ws)) in
                Ok (Build_fold_result (write_fold entry raw folded)
                      [Build_fold_change where_ folded (Changes (minimum ns) values)] [])
            end
    end
  end.

Definition fold_into_entries (document : pydict) : result pyexn (list fold_result) :=
  match py_or (get document "backup_restore") (PDict []) with
  | PDict section =>
      match py_or (get section "backups") (PList []) with
      | PList l =>
          foldM (fun acc e => (fun r => acc ++ [r])
                   <$> fold_entry e ("backups[" +:+ str (get e "backup_id") +:+ "]")) [] (dicts l)
      | PDict _ | PStr _ => Ok []
      | _ => Err TypeError
      end
  | _ => Err AttributeError
  end.

(** ** Lemmas *)
Lemma get_drop_stated job name : name ∈ retention_names -> get (drop_stated job) name = PNone.
Proof.
  intros Hn. unfold get, drop_stated.
  induction job as [|[k v] job IH]; [done|]. cbn [List.filter fst].
  case_bool_decide; cbn [negb]; [done|]. cbn [assoc].
  destruct (String.eqb_spec name k) as [->|]; done.
Qed.
Lemma drop_stated_silent job : states_it (drop_stated job) = false.
Proof.
  unfold states_it. apply not_true_iff_false. intros (name & Hin & H)%existsb_exists.
  apply list_elem_of_In in Hin. cbn beta in H. by rewrite get_drop_stated in H.
Qed.
Lemma retention_source_folded job entry v :
  get entry FIELD = v -> is_none v = false ->
  get (retention_source (drop_stated job) entry) FIELD = v.
Proof.
  intros Hv Hn. unfold retention_source. rewrite drop_stated_silent.
  assert (He : states_it entry = true).
  { unfold states_it. apply existsb_exists. exists FIELD. split; [by left|]. cbn beta. by rewrite Hv, Hn. }
  rewrite He. cbn [orb negb]. cbn [List.filter]. rewrite Hv, Hn. cbn [negb map].
  unfold get at 1. cbn [assoc]. rewrite String.eqb_refl. exact Hv.
Qed.
Lemma get_write_fold entry raw folded : get (write_fold entry raw folded) FIELD = folded.
Proof. unfold write_fold, get. by rewrite assoc_set_eq. Qed.

(** A parsed retention is not negative. *)
Lemma window_value_ok v where_ w : _window v where_ = Ok w -> window_ok w.
Proof.
  unfold _window. intros H. repeat case_match; simplify_eq/=; try done;
    match goal with H : (_ <? 0) = false |- _ => by apply Z.ltb_ge in H end.
Qed.
Definition state_ok (st : ObjectState) : Prop :=
  Forall (fun p => window_ok p.2) (os_windows st) /\ window_ok (os_default st).
Lemma assoc_set_ok k (w : option Z) d : window_ok w -> Forall (fun p => window_ok p.2) d ->
  Forall (fun p => window_ok p.2) (assoc_set k w d).
Proof.
  intros Hw Hd. induction Hd as [|[k' w'] d Hw' Hd IH]; cbn; [by repeat constructor|].
  destruct (String.eqb k k'); by constructor.
Qed.
Lemma object_step_ok context allowed st item st' :
  state_ok st -> object_step context allowed st item = Ok st' -> state_ok st'.
Proof.
  intros [H1 H2] H. unfold object_step in H.
  destruct (String.eqb _ _); [|destruct (negb _); [done|]];
    apply result_bind_ok in H as (w & Hw%window_value_ok & [= <-]); split; cbn; try done.
  by apply assoc_set_ok.
Qed.
Lemma parse_object_ok context engine raw r : parse_object context engine raw = Ok r ->
  Forall (fun w => window_ok w) (stated_windows r).
Proof.
  unfold parse_object. intros (st & Hst & H)%result_bind_ok.
  apply (foldM_inv state_ok _ (object_step_ok _ _)) in Hst as [Hw Hd].
  2:{ split; cbn; [constructor|unfold DEFAULT_SECONDS; lia]. }
  destruct (negb _ && _); [done|]. injection H as <-. unfold stated_windows. cbn [r_windows r_default].
  apply list.Forall_app. split; [|by constructor].
  rewrite list.Forall_forall in Hw. apply list.Forall_forall.
  intros w (p & -> & Hp)%list_elem_of_fmap. apply list_elem_of_In, filter_In in Hp as [Hp _].
  by apply Hw, list_elem_of_In.
Qed.
Lemma longest_nonneg r : Forall (fun w => window_ok w) (stated_windows r) -> 0 <= longest r.
Proof.
  intros H. unfold longest. destruct (existsb _ _); [unfold KEEP_AS_SECONDS; lia|].
  destruct (omap id (stated_windows r)) as [|n ns] eqn:E; [lia|].
  pose proof (foldl_max ns n) as Hm. rewrite list.Forall_cons in Hm.
  assert (0 <= n); [|lia]. rewrite list.Forall_forall in H. apply (H (Some n)).
  assert (Hin : n ∈ omap id (stated_windows r)) by (rewrite E; by left).
  apply list_elem_of_omap in Hin as (? & ? & ?). cbn in *. by subst.
Qed.
Lemma parse_nonneg entry context required n : parse entry context required = Ok n -> 0 <= n.
Proof.
  unfold parse. destruct (first_stated entry _) as [[[raw source] factor]|] eqn:E.
  2: { destruct required; [done|]. intros [= <-]. unfold DEFAULT_SECONDS. lia. }
  assert (Hf : 0 <= factor).
  { unfold LEGACY_FIELDS in E. cbn [first_stated] in E. repeat case_match; simplify_eq; lia. }
  assert (Hint : (match py_int raw with
      | Err OverflowError => Err RetentionOverflow
      | Err _ => Err (NotWhole (context +:+ "." +:+ source) raw)
      | Ok n => if n <? 0 then Err (BelowZero (context +:+ "." +:+ source)) else Ok (n * factor)
      end = Ok n) -> 0 <= n).
  { repeat case_match; intros; simplify_eq. apply Z.ltb_ge in H0. nia. }
  destruct raw; try exact Hint. clear Hint. destruct (parse_object _ _ _) eqn:Ho; cbn; [|done].
  intros [= <-]. by eapply longest_nonneg, parse_object_ok.
Qed.

(** The values of jobs with names of their own. *)
Lemma fold_values_other where_ l values values' name :
  foldM (job_value where_) values l = Ok values' -> name ∉ map job_name l ->
  assoc name values' = assoc name values.
Proof.
  revert values. induction l as [|job l IH]; intros values; cbn [foldM map]; [by intros [= <-]|].
  unfold job_value at 1. destruct (parse job _ _) as [n|]; cbn; [|done]. intros H Hn.
  rewrite (IH _ H) by (intros ?; apply Hn; by right).
  apply assoc_set_ne. intros ->. apply Hn. by left.
Qed.
Lemma fold_values_own where_ l values values' job :
  foldM (job_value where_) values l = Ok values' -> NoDup (map job_name l) -> job ∈ l ->
  exists n, parse job (where_ +:+ "." +:+ str (get job "job")) true = Ok n
            /\ assoc (job_name job) values' = Some n.
Proof.
  revert values. induction l as [|x l IH]; intros values; [by intros _ _ ?%not_elem_of_nil|].
  cbn [foldM map]. unfold job_value at 1. destruct (parse x _ _) as [n|] eqn:Hp; cbn; [|done].
  intros H [Hx Hnd]%list.NoDup_cons. rewrite list.elem_of_cons. intros [->|Hin]; [|by eapply IH].
  exists n. split; [done|]. rewrite (fold_values_other _ _ _ _ _ H Hx). apply assoc_set_eq.
Qed.

(** The windows of jobs that write types of their own. *)
Lemma types_written_known engine job kinds :
  types_a_job_writes engine job = Ok (Some kinds) -> Forall (fun k => k ∈ allowed_types "") kinds.
Proof.
  unfold types_a_job_writes. intros (lv & _ & H)%result_bind_ok. injection H as H.
  set (level := lower _) in H. clearbody level. set (script := lower _) in H. clearbody script.
  destruct (String.eqb (_engine engine) "sqlserver" && bool_decide (level ∈ ["full"; "diff"; "log"])) eqn:E.
  { injection H as <-. apply andb_true_iff in E as [_ E%bool_decide_eq_true].
    rewrite !list.elem_of_cons in E. repeat destruct E as [->|E]; [..|by apply not_elem_of_nil in E];
      repeat constructor; by apply (bool_decide_unpack _). }
  repeat case_match; simplify_eq; repeat constructor; by apply (bool_decide_unpack _).
Qed.
Lemma add_types_assoc n kinds ws k :
  assoc k (add_types n kinds ws) = if bool_decide (k ∈ kinds) then Some (Some n) else assoc k ws.
Proof.
  unfold add_types. revert ws. induction kinds as [|x kinds IH]; intros ws; cbn [fold_left].
  { by rewrite bool_decide_false by apply not_elem_of_nil. }
  rewrite IH. destruct (decide (k ∈ kinds)) as [Hin|Hin].
  { rewrite !bool_decide_true; [done|by right|done]. }
  rewrite (bool_decide_false _ Hin). destruct (decide (k = x)) as [->|Hne].
  - rewrite bool_decide_true by (by left). apply assoc_set_eq.
  - rewrite bool_decide_false by (by intros [?|?]%list.elem_of_cons). by apply assoc_set_ne.
Qed.
Definition windows_known (ws : list (string * option Z)) : Prop :=
  NoDup (map fst ws) /\ Forall (fun p => p.1 ∈ allowed_types "" /\ window_ok p.2) ws.
Lemma assoc_set_known k w ws : k ∈ allowed_types "" -> window_ok w -> windows_known ws ->
  windows_known (assoc_set k w ws).
Proof.
  intros Hk Hw [Hnd Hf]. split.
  - clear Hf. induction ws as [|[k' w'] ws IH]; cbn in *; [apply NoDup_singleton|].
    apply list.NoDup_cons in Hnd as [Hn Hnd].
    destruct (String.eqb_spec k k') as [->|Hne]; cbn; apply list.NoDup_cons; split; auto.
    assert (Hin : forall x, x ∈ map fst (assoc_set k w ws) -> x = k \/ x ∈ map fst ws).
    { clear. induction ws as [|[k' w'] ws IH]; cbn; intros x.
      - rewrite list_elem_of_singleton. auto.
      - destruct (String.eqb_spec k k') as [->|]; cbn; rewrite !list.elem_of_cons; naive_solver. }
    intros [->|?]%Hin; done.
  - clear Hnd. induction Hf as [|[k' w'] ws Hp Hf IH]; cbn [assoc_set];
      [by apply list.Forall_singleton|].
    destruct (String.eqb_spec k k') as [->|]; by constructor.
Qed.
Lemma add_types_known n kinds ws : 0 <= n -> Forall (fun k => k ∈ allowed_types "") kinds ->
  windows_known ws -> windows_known (add_types n kinds ws).
Proof.
  intros Hn Hk. revert ws. unfold add_types.
  induction Hk as [|k kinds Hk _ IH]; intros ws Hws; cbn [fold_left]; [done|].
  apply IH, assoc_set_known; done.
Qed.
Lemma fold_windows_known engine values l ws ws' :
  (forall name n, assoc name values = Some n -> 0 <= n) ->
  fold_windows engine values l ws = Ok (inl ws') -> windows_known ws -> windows_known ws'.
Proof.
  intros Hv. revert ws. induction l as [|job l IH]; intros ws; cbn [fold_windows].
  { by intros [= <-]. }
  intros (kinds & Hk & H)%result_bind_ok Hws. destruct kinds as [kinds|]; [|done].
  eapply IH; [exact H|]. apply add_types_known; [|by eapply types_written_known|done].
  destruct (assoc _ values) eqn:E; cbn; [by eapply Hv|done].
Qed.
Lemma fold_windows_other engine values l ws ws' k :
  fold_windows engine values l ws = Ok (inl ws') ->
  (forall b kb, b ∈ l -> types_a_job_writes engine b = Ok (Some kb) -> k ∉ kb) ->
  assoc k ws' = assoc k ws.
Proof.
  revert ws. induction l as [|job l IH]; intros ws; cbn [fold_windows]; [by intros [= <-]|].
  intros (kinds & Hk & H)%result_bind_ok Hno. destruct kinds as [kinds|]; [|done].
  rewrite (IH _ H) by (intros b kb Hb; apply Hno; by right).
  rewrite add_types_assoc, bool_decide_false; [done|]. apply (Hno job); [by left|done].
Qed.
Lemma fold_windows_own engine values l ws ws' i job kinds n k :
  fold_windows engine values l ws = Ok (inl ws') -> l !! i = Some job ->
  types_a_job_writes engine job = Ok (Some kinds) -> k ∈ kinds ->
  assoc (job_name job) values = Some n ->
  (forall j b kb, l !! j = Some b -> i <> j -> types_a_job_writes engine b = Ok (Some kb) -> k ∉ kb) ->
  assoc k ws' = Some (Some n).
Proof.
  revert ws i. induction l as [|x l IH]; intros ws i; [done|]. cbn [fold_windows].
  intros (ks & Hks & H)%result_bind_ok. destruct ks as [ks|]; [|done].
  destruct i as [|i]; cbn; intros Hi Hk Hin Hv Hno.
  - injection Hi as ->. rewrite Hk in Hks. injection Hks as <-.
    rewrite (fold_windows_other _ _ _ _ _ k H).
    + by rewrite add_types_assoc, bool_decide_true, Hv by done.
    + intros b kb (j & Hj)%list_elem_of_lookup Hb. by apply (Hno (S j) b kb).
  - eapply IH; eauto. intros j b kb Hj Hne. apply (Hno (S j) b kb Hj). congruence.
Qed.

(** The jobs of an entry share neither a name nor a file type. *)
Definition jobs_apart (engine : string) (jobs : list pydict) : Prop :=
  NoDup (map job_name jobs)
  /\ forall i j a b ka kb k, jobs !! i = Some a -> jobs !! j = Some b -> i <> j ->
     types_a_job_writes engine a = Ok (Some ka) -> types_a_job_writes engine b = Ok (Some kb) ->
     k ∈ ka -> k ∉ kb.

Lemma all_equal_minimum l n : all_equal l = true -> n ∈ l -> minimum l = n.
Proof.
  destruct l as [|x l]; [done|]. cbn [all_equal minimum]. intros H Hin.
  rewrite forallb_forall in H.
  assert (Hx : forall y, y ∈ l -> y = x).
  { intros y Hy%list_elem_of_In. specialize (H y Hy). lia. }
  assert (Hm : fold_left Z.min l x = x).
  { clear H Hin. revert Hx. induction l as [|y l IH]; cbn; [done|]. intros Hx.
    rewrite (Hx y) by (by left). rewrite Z.min_id. apply IH. intros z Hz. apply Hx. by right. }
  rewrite Hm. apply list.elem_of_cons in Hin as [->|Hin]; [done|]. symmetry. by apply Hx.
Qed.
Lemma assoc_value_in name n (values : list (string * Z)) : assoc name values = Some n -> n ∈ map snd values.
Proof. intros H%assoc_in. apply list_elem_of_fmap. by exists (name, n). Qed.
Lemma parse_int_retention n context : 0 <= n ->
  parse_per_type [(FIELD, PInt n)] context "" true = Ok (Build_Retention [] (Some n) true).
Proof. intros Hn. by apply (as_config_parse context "" true (Build_Retention [] (Some n) true)); cbn; eauto. Qed.
Lemma parse_per_type_field d d' context engine :
  get d FIELD = get d' FIELD -> is_none (get d FIELD) = false ->
  parse_per_type d context engine true = parse_per_type d' context engine true.
Proof.
  intros H Hn. unfold parse_per_type. rewrite <-H.
  destruct (get d FIELD) eqn:E; try done; unfold parse; cbn [first_stated]; by rewrite <-H, E.
Qed.
Lemma fold_windows_retention ws context k n m :
  windows_known ws -> 0 <= m -> assoc k ws = Some (Some n) -> k ∈ allowed_types "" ->
  exists ret, parse_per_type [(FIELD, as_config (Build_Retention ws (Some m) false))] context "" true
              = Ok ret /\ window_for ret k = Some n.
Proof.
  intros [Hnd Hf] Hm Hk Hin. eexists. split.
  - apply as_config_parse. cbn. by split_and!.
  - unfold window_for. destruct (types_canonical "" k Hin) as (-> & -> & _). cbn. by rewrite Hk.
Qed.

(** The stated value, whatever shape the fold gave it, is read back for every type. *)
Definition reads_back (folded : pyval) (context k : string) (n : Z) : Prop :=
  exists ret, parse_per_type [(FIELD, folded)] context "" true = Ok ret /\ window_for ret k = Some n.

Lemma fold_values_nonneg where_ l values name n :
  fold_values where_ l = Ok values -> assoc name values = Some n -> 0 <= n.
Proof.
  intros H. revert name n.
  refine (foldM_inv (fun vs => forall name n, assoc name vs = Some n -> 0 <= n)
    (job_value where_) _ l [] values _ H); [|done].
  intros vs job vs' Hvs. unfold job_value. destruct (parse job _ _) as [m|] eqn:Hp; cbn; [|done].
  intros [= <-] name n. destruct (decide (name = job_name job)) as [->|Hne].
  - rewrite assoc_set_eq. intros [= <-]. by eapply parse_nonneg.
  - rewrite assoc_set_ne by done. apply Hvs.
Qed.
Lemma maximum_nonneg l n : n ∈ l -> 0 <= n -> 0 <= maximum l.
Proof.
  destruct l as [|x l]; [by intros ?%not_elem_of_nil|]. intros Hin Hn. cbn [maximum].
  pose proof (foldl_max l x) as H. rewrite list.Forall_forall in H. specialize (H n Hin). lia.
Qed.

(** What a fold that changed the entry wrote, job by job. *)
Lemma fold_entry_reads_back entry where_ r raw i job kinds k n :
  raw_jobs entry = Ok raw -> fold_entry entry where_ = Ok r -> fr_changes r <> [] ->
  let jobs := dicts raw in
  let engine := str (py_or (get entry "db_type") (PStr "")) in
  jobs_apart engine jobs -> jobs !! i = Some job ->
  types_a_job_writes engine job = Ok (Some kinds) -> k ∈ kinds ->
  parse job (where_ +:+ "." +:+ str (get job "job")) true = Ok n ->
  exists folded, fr_entry r = write_fold entry raw folded /\ is_none folded = false
    /\ forall context, reads_back folded context k n.
Proof.
  cbn zeta. intros Hraw Hr Hch [Hnames Htypes] Hi Hkinds Hk Hn. unfold fold_entry in Hr.
  rewrite Hraw, bind_ok in Hr. pose proof (parse_nonneg _ _ _ _ Hn) as Hn0.
  pose proof (types_written_known _ _ _ Hkinds) as Hkn. rewrite list.Forall_forall in Hkn.
  specialize (Hkn k Hk).
  destruct (List.filter states_it (dicts raw)) as [|j0 js] eqn:Hst; [injection Hr as <-; done|].
  rewrite <-Hst in Hr.
  destruct (states_it entry); [injection Hr as <-; done|].
  destruct (existsb _ _); [injection Hr as <-; done|].
  destruct (fold_values where_ _) as [values|e] eqn:Hv;
    [|destruct e; first [done | injection Hr as <-; done]].
  destruct (Nat.eqb_spec (length (List.filter states_it (dicts raw))) (length (dicts raw)))
    as [Hlen|]; cbn [negb] in Hr; [|injection Hr as <-; done].
  rewrite (filter_all_length _ _ Hlen) in *.
  assert (Hval : assoc (job_name job) values = Some n).
  { destruct (fold_values_own _ _ _ _ job Hv Hnames) as (m & Hm & Ha);
      [by eapply list_elem_of_lookup_2|]. by rewrite Hn in Hm; injection Hm as <-. }
  destruct (all_equal (map snd values)) eqn:Heq.
  { injection Hr as <-. exists (PInt n).
    rewrite (all_equal_minimum _ _ Heq (assoc_value_in _ _ _ Hval)).
    split; [done|]. split; [done|]. intros context. eexists. split; [by apply parse_int_retention|].
    unfold window_for. destruct (types_canonical "" k Hkn) as (-> & -> & _).
    cbn [assoc r_windows r_uniform r_default negb]. by rewrite andb_false_r. }
  apply result_bind_ok in Hr as (w & Hw & Hr). destruct w as [ws|]; injection Hr as <-; [|done].
  eexists. split; [done|]. split; [done|]. intros context.
  assert (Hknown : windows_known ws).
  { eapply fold_windows_known; [|exact Hw|split; constructor].
    intros name m. by apply (fold_values_nonneg _ _ _ name m Hv). }
  assert (Hown : assoc k ws = Some (Some n)).
  { eapply (fold_windows_own _ _ _ _ _ i job kinds); eauto. }
  unfold reads_back. apply (fold_windows_retention ws); try done.
  apply (maximum_nonneg _ n); [by eapply assoc_value_in|done].
Qed.

(** When fold_entry moves the retentions of jobs with names and file types of their own
    onto the entry, every type a job writes keeps the window that job stated. *)
Lemma fold_keeps_each_jobs_window entry where_ r raw i job kinds k n context :
  raw_jobs entry = Ok raw -> fold_entry entry where_ = Ok r -> fr_changes r <> [] ->
  jobs_apart (str (py_or (get entry "db_type") (PStr ""))) (dicts raw) ->
  dicts raw !! i = Some job ->
  types_a_job_writes (str (py_or (get entry "db_type") (PStr ""))) job = Ok (Some kinds) -> k ∈ kinds ->
  parse job (where_ +:+ "." +:+ str (get job "job")) true = Ok n ->
  exists ret,
    parse_per_type (retention_source (drop_stated job) (fr_entry r)) context "" true = Ok ret
    /\ window_for ret k = Some n.
Proof.
  intros Hraw Hr Hch Hap Hi Hkinds Hk Hn.
  destruct (fold_entry_reads_back _ _ _ _ _ _ _ _ _ Hraw Hr Hch Hap Hi Hkinds Hk Hn)
    as (folded & He & Hnone & Hback).
  destruct (Hback context) as (ret & Hp & Hw). exists ret. split; [|done]. rewrite <-Hp.
  assert (Hget : get (retention_source (drop_stated job) (fr_entry r)) FIELD = folded).
  { apply retention_source_folded; [|done]. rewrite He. apply get_write_fold. }
  apply parse_per_type_field; rewrite Hget; done.
Qed.

Definition lab_entry : pydict :=
  [("db_type", PStr "mssql"); ("jobs", PList [
    PDict [("job", PStr "full"); ("env", PDict [("BACKUP_LEVEL", PStr "full")]); (FIELD, PInt 1209600)];
    PDict [("job", PStr "log"); ("env", PDict [("BACKUP_LEVEL", PStr "log")]); ("retention_days", PInt 2)]])].
Definition lab_log_job : pydict :=
  [("job", PStr "log"); ("env", PDict [("BACKUP_LEVEL", PStr "log")]); ("retention_days", PInt 2)].
Lemma fold_keeps_each_jobs_window_witness :
  exists r, fold_entry lab_entry "backups[1]" = Ok r
  /\ exists ret, parse_per_type (retention_source (drop_stated lab_log_job) (fr_entry r)) "job" "" true
                 = Ok ret /\ window_for ret "LOG" = Some 172800.
Proof.
  eexists. split; [vm_compute; reflexivity|].
  eapply (fold_keeps_each_jobs_window lab_entry "backups[1]" _ _ 1 lab_log_job ["LOG"] "LOG");
    [vm_compute; reflexivity|vm_compute; reflexivity|done| |vm_compute; reflexivity
    |vm_compute; reflexivity|by left|vm_compute; reflexivity].
  split; [by apply (bool_decide_unpack _)|].
  intros [|[|i]] [|[|j]] a b ka kb x Ha Hb Hij Hka Hkb Hx; cbn in Ha, Hb; simplify_eq;
    vm_compute in Hka, Hkb; simplify_eq; apply list_elem_of_singleton in Hx as ->;
    intros Hy%list_elem_of_singleton; discriminate.
Defined.

(** Two jobs of one name share a key of the values the fold compares: a full kept 14 days
    and a log kept 2 are folded to 2 days, reported as unchanged. *)
Lemma fold_merges_jobs_of_one_name :
  exists entry r ret,
    fold_entry entry "backups[1]" = Ok r /\ map fc_effect (fr_changes r) = [Unchanged]
    /\ (exists job, Ok [PDict job; PDict (assoc_set FIELD (PInt 172800)
            (assoc_set "env" (PDict [("BACKUP_LEVEL", PStr "log")]) job))] = raw_jobs entry
        /\ parse job "job" true = Ok 1209600 /\ types_a_job_writes "mssql" job = Ok (Some ["FULL"])
        /\ parse_per_type (retention_source (drop_stated job) (fr_entry r)) "job" "" true = Ok ret)
    /\ window_for ret "FULL" = Some 172800.
Proof.
  set (job := [("job", PStr "nightly"); ("env", PDict [("BACKUP_LEVEL", PStr "full")]); (FIELD, PInt 1209600)]).
  eexists [("db_type", PStr "mssql"); ("jobs", PList [PDict job; PDict (assoc_set FIELD (PInt 172800)
            (assoc_set "env" (PDict [("BACKUP_LEVEL", PStr "log")]) job))])], _, _.
  split; [vm_compute; reflexivity|]. split; [vm_compute; reflexivity|].
  split; [exists job; split_and!; vm_compute; reflexivity|]. vm_compute. reflexivity.
Qed.
