(* ===== verification/BackupRetention.v ===== *)
(** * [lib/backupfiles_retention.py]: which backup files the window no longer covers.

    A listing row is a record of the fields the planner reads, each as the value the
    listing carries.  Time stamps are text and are compared as text, as in the code. *)

From S2P Require Import Prelude Py PyTime CleanupRetention.

Definition FULL : string := "full".
Definition DEFAULT_RETENTION_DAYS : Z := 14.
Definition AGE : string := "age".
Definition RECOVERY_WINDOW : string := "recovery_window".
Definition MODES : list string := [AGE; RECOVERY_WINDOW].
Definition MASS_DELETE_MIN_FILES : Z := 10.
Definition OBSOLETE : string := "obsolete".

Record BackupFile := {
  bf_path : pyval; bf_finished_at : pyval; bf_kind : pyval; bf_database_name : pyval;
  bf_age_seconds : pyval; bf_size_bytes : pyval }.

(** [MASS_DELETE_FRACTION] is a half. *)
Definition mass_delete_refusal (obsolete total : Z) : string :=
  if (MASS_DELETE_MIN_FILES <=? total) && (total <? 2 * obsolete) then
    str_of_int obsolete +:+ " of " +:+ str_of_int total
    +:+ " files would be deleted in one run - more than 50 %. Refused: a window cut by mistake or a folder "
    +:+ "rewritten by ransomware looks exactly like this. Check the files, then run again with "
    +:+ "--allow-mass-delete if it is meant."
  else "".

Inductive plan_error : Type :=
| UnknownMode (mode : string)
| DaysNotWhole (v : pyval)
| DaysTooFew
| PlanPython (e : pyexn).         (* a TypeError, ValueError or OverflowError that gets out *)

(** The text both sides of every comparison go through. *)
Definition _normalise (v : pyval) : string :=
  let t := strip (str (py_or v (PStr ""))) in
  if String.eqb t "" then "" else str_take 19 (replace_char "T" " " t).
Definition finished (f : BackupFile) : string := _normalise (bf_finished_at f).
Definition database (f : BackupFile) : string := str (py_or (bf_database_name f) (PStr "")).
Definition is_full (f : BackupFile) : bool :=
  match bf_kind f with PStr k => String.eqb k FULL | _ => false end.
Definition level (f : BackupFile) : string := str (py_or (bf_kind f) (PStr "")).

Definition _days (v : pyval) : result plan_error Z :=
  match py_int v with
  | Err OverflowError => Err (PlanPython OverflowError)
  | Err _ => Err (DaysNotWhole v)
  | Ok d => if d <? 1 then Err DaysTooFew else Ok d
  end.

(** ** The cutoff on the clock that stamped the files *)
Definition source_step (there_now : option Z) (f : BackupFile) : result plan_error (option Z) :=
  if is_none (bf_age_seconds f) || String.eqb (finished f) "" then Ok there_now
  else match strptime (finished f) with
       | None => Ok there_now
       | Some t =>
           match py_int (bf_age_seconds f) with
           | Err OverflowError => Err (PlanPython OverflowError)
           | Err _ => Ok there_now
           | Ok age => let moment := t + seconds age in
                       Ok (Some (match there_now with None => moment | Some n => Z.max n moment end))
           end
       end.
Definition _source_cutoff (files : list BackupFile) (span : Z) : result plan_error string :=
  (fun n => match n with None => "" | Some n => stamp (n - span) end)
  <$> foldM source_step None files.

(** ** Verdicts *)
Inductive keep_reason : Type :=
| LevelKept (level : string) | AgeUnknown | InsideWindow (finished label : string)
| FromAnchor (anchor window : string) | NoFull | ChainTooShort (oldest cutoff : string)
| NewestFull | AfterNewestFull (anchor : string).
Inductive obsolete_reason : Type :=
| OlderThanCutoff (finished label cutoff : string) | OlderThanAnchor (anchor window : string).
Inductive verdict : Type := Kept (r : keep_reason) | Obsolete (r : obsolete_reason).
Definition is_obsolete (v : verdict) : bool := match v with Obsolete _ => true | Kept _ => false end.
Record PlanRow := { pr_file : BackupFile; pr_verdict : verdict }.

(** The level's own cutoff when the retention names types; [Some None] is keep. *)
Definition own_cutoff (level_cutoffs : option (list (string * option string))) (lv : string)
    : option (option string) := level_cutoffs ≫= assoc lv.
Definition age_verdict (cutoff days : string) (level_cutoffs : option (list (string * option string)))
    (f : BackupFile) : verdict :=
  let judge own label :=
    if String.eqb (finished f) "" then Kept AgeUnknown
    else if str_lt (finished f) own then Obsolete (OlderThanCutoff (finished f) label own)
    else Kept (InsideWindow (finished f) label) in
  match own_cutoff level_cutoffs (level f) with
  | Some None => Kept (LevelKept (level f))
  | Some (Some own) => judge own (level f +:+ " window's")
  | None => judge cutoff days
  end.
Definition _by_age (files : list BackupFile) (cutoff days : string)
    (level_cutoffs : option (list (string * option string))) : list PlanRow :=
  map (fun f => Build_PlanRow f (age_verdict cutoff days level_cutoffs f)) files.

(** Groups in the order their database first appears. *)
Definition group_add (groups : list (string * list BackupFile)) (f : BackupFile) :=
  assoc_set (database f) (default [] (assoc (database f) groups) ++ [f]) groups.
Definition _by_database (files : list BackupFile) : list (string * list BackupFile) :=
  fold_left group_add files [].

Definition full_stamps (group : list BackupFile) : list string :=
  merge_sort String.le
    (map finished (List.filter (fun f => is_full f && negb (String.eqb (finished f) "")) group)).
Definition _anchor (group : list BackupFile) (cutoff : string) : string + keep_reason :=
  match full_stamps group with
  | [] => inr NoFull
  | (oldest :: _) as fulls =>
      match list.last (List.filter (fun s => String.leb s cutoff) fulls) with
      | None => inr (ChainTooShort oldest cutoff)
      | Some a => inl a
      end
  end.
Definition window_verdict (anchor : string + keep_reason) (days : string) (f : BackupFile) : verdict :=
  if String.eqb (finished f) "" then Kept AgeUnknown
  else match anchor with
       | inr why => Kept why
       | inl a => if String.leb a (finished f) then Kept (FromAnchor a days)
                  else Obsolete (OlderThanAnchor a days)
       end.
Definition _by_recovery_window (files : list BackupFile) (cutoff days : string) : list PlanRow :=
  concat (map (fun g => let anchor := _anchor g.2 cutoff in
                        map (fun f => Build_PlanRow f (window_verdict anchor days f)) g.2)
              (_by_database files)).

(** The floor: each database's newest full, and everything after it. *)
Definition newest_step (newest : list (string * string)) (r : PlanRow) : list (string * string) :=
  let f := pr_file r in
  if is_full f && negb (String.eqb (finished f) "")
  then assoc_set (database f) (str_max (default "" (assoc (database f) newest)) (finished f)) newest
  else newest.
Definition newest_fulls (rows : list PlanRow) : list (string * string) := fold_left newest_step rows [].
Definition spare (newest : list (string * string)) (r : PlanRow) : PlanRow :=
  let f := pr_file r in
  match assoc (database f) newest with
  | Some anchor =>
      if is_obsolete (pr_verdict r) && negb (String.eqb anchor "") && String.leb anchor (finished f)
      then Build_PlanRow f (Kept (if is_full f && String.eqb (finished f) anchor
                                  then NewestFull else AfterNewestFull anchor))
      else r
  | None => r
  end.
Definition _keep_newest_chain (rows : list PlanRow) : list PlanRow :=
  map (spare (newest_fulls rows)) rows.

(** ** [plan_retention] *)
Record Plan := {
  pl_mode : string; pl_retention_days : Z; pl_retention_seconds : Z; pl_window : string;
  pl_cutoff : string; pl_level_cutoffs : option (list (string * option string));
  pl_obsolete : list PlanRow; pl_keep : list PlanRow; pl_total : nat;
  pl_obsolete_paths : list pyval; pl_reclaimable_bytes : Z; pl_sizes_known : bool }.

Definition level_cutoff (files : list BackupFile) (now : Z) (w : option Z)
    : result plan_error (option string) :=
  match w with
  | None => Ok None
  | Some s => (fun c => Some (if String.eqb c "" then stamp (now - seconds s) else c))
              <$> _source_cutoff files (seconds s)
  end.
Definition level_step (files : list BackupFile) (now : Z) (acc : list (string * option string))
    (p : string * option Z) : result plan_error (list (string * option string)) :=
  (fun c => assoc_set p.1 c acc) <$> level_cutoff files now p.2.

Definition size_step (total : Z) (r : PlanRow) : result plan_error Z :=
  match py_int (py_or (bf_size_bytes (pr_file r)) (PInt 0)) with
  | Ok n => Ok (total + n)
  | Err e => Err (PlanPython e)
  end.

(** [windows]: a window per level, empty when the retention is one number.  [now] is the
    operator's wall clock. *)
Definition plan_retention (files : list BackupFile) (retention_days : pyval) (mode : string)
    (now : Z) (retention_seconds : option Z) (windows : list (string * option Z))
    : result plan_error Plan :=
  let secs := default 0 retention_seconds in
  days ← (if secs <=? 0 then _days retention_days else Ok (secs / 86400));
  let window := if (secs <=? 0) || (secs mod 86400 =? 0) then str_of_int days +:+ "-day"
                else str_of_int secs +:+ "-second" in
  let rule := lower (strip (if String.eqb mode "" then AGE else mode)) in
  if negb (bool_decide (rule ∈ MODES)) then Err (UnknownMode mode)
  else
    let span := if secs <=? 0 then seconds (days * 86400) else seconds secs in
    source ← _source_cutoff files span;
    let cutoff := if String.eqb source "" then stamp (now - span) else source in
    level_cutoffs ← foldM (level_step files now) [] windows;
    let levels := match windows with [] => None | _ => Some level_cutoffs end in
    let cutoff := match levels with
      | Some lc => if String.eqb rule AGE then cutoff
                   else match assoc FULL lc with
                        | Some (Some c) => if String.eqb c "" then "0000-00-00 00:00:00" else c
                        | Some None => "0000-00-00 00:00:00"
                        | None => cutoff
                        end
      | None => cutoff
      end in
    let rows := if String.eqb rule AGE then _by_age files cutoff window levels
                else _by_recovery_window files cutoff window in
    let rows := _keep_newest_chain rows in
    let obsolete := List.filter (fun r => is_obsolete (pr_verdict r)) rows in
    let keep := List.filter (fun r => negb (is_obsolete (pr_verdict r))) rows in
    bytes ← foldM size_step 0 obsolete;
    Ok {| pl_mode := rule;
          pl_retention_days := days;
          pl_retention_seconds := if 0 <? secs then secs else days * 86400;
          pl_window := window; pl_cutoff := cutoff; pl_level_cutoffs := levels;
          pl_obsolete := obsolete; pl_keep := keep; pl_total := length rows;
          pl_obsolete_paths := map (fun r => bf_path (pr_file r)) obsolete;
          pl_reclaimable_bytes := bytes;
          pl_sizes_known := forallb (fun r => negb (is_none (bf_size_bytes (pr_file r)))) obsolete |}.

(** ** The rows are the files *)
Lemma group_add_perm groups f :
  NoDup (map fst groups) -> concat (map snd (group_add groups f)) ≡ₚ concat (map snd groups) ++ [f].
Proof.
  unfold group_add. generalize (database f) as k. intros k.
  induction groups as [|[k' g] groups IH]; cbn; intros Hnd; [done|].
  apply list.NoDup_cons in Hnd as [Hn Hnd].
  destruct (String.eqb_spec k k') as [->|Hne]; cbn.
  - rewrite <-!app_assoc. apply Permutation_app_head. by rewrite Permutation_app_comm.
  - rewrite IH by done. by rewrite app_assoc.
Qed.
Definition groups_ok (groups : list (string * list BackupFile)) : Prop :=
  NoDup (map fst groups) /\ Forall (fun g => Forall (fun f => database f = g.1) g.2) groups.
Lemma group_add_ok groups f : groups_ok groups -> groups_ok (group_add groups f).
Proof.
  intros [Hnd Hf]. split; [by apply assoc_set_NoDup|].
  unfold group_add. clear Hnd.
  assert (Hg : Forall (fun x => database x = database f) (default [] (assoc (database f) groups) ++ [f])).
  { apply list.Forall_app. split; [|by repeat constructor].
    destruct (assoc (database f) groups) as [l|] eqn:E; [|constructor].
    apply assoc_in in E. rewrite list.Forall_forall in Hf. by apply (Hf _ E). }
  revert Hg. generalize (default [] (assoc (database f) groups) ++ [f]). intros l Hl.
  induction Hf as [|[k g] groups Hk Hf IH]; cbn; [by repeat constructor|].
  destruct (String.eqb_spec (database f) k) as [<-|]; by constructor.
Qed.
Lemma by_database_spec files :
  groups_ok (_by_database files) /\ concat (map snd (_by_database files)) ≡ₚ files.
Proof.
  unfold _by_database.
  assert (H : forall groups l, groups_ok groups -> concat (map snd groups) ≡ₚ l ->
    groups_ok (fold_left group_add files groups)
    /\ concat (map snd (fold_left group_add files groups)) ≡ₚ l ++ files).
  { induction files as [|f files IH]; intros groups l Hg Hl; cbn [fold_left]; [by rewrite app_nil_r|].
    destruct (IH (group_add groups f) (l ++ [f])) as [H1 H2].
    - by apply group_add_ok.
    - rewrite group_add_perm by apply Hg. by rewrite Hl.
    - split; [done|]. rewrite H2. by rewrite <-app_assoc. }
  apply (H [] []); [|done]. split; constructor.
Qed.

Definition row_files (rows : list PlanRow) : list BackupFile := map pr_file rows.
Lemma row_files_map (v : BackupFile -> verdict) l : row_files (map (fun f => Build_PlanRow f (v f)) l) = l.
Proof. unfold row_files. rewrite map_map. cbn. apply map_id. Qed.
Lemma by_age_files files cutoff days lc : row_files (_by_age files cutoff days lc) = files.
Proof. apply (row_files_map (age_verdict cutoff days lc)). Qed.
Lemma by_recovery_window_groups files cutoff days :
  row_files (_by_recovery_window files cutoff days) = concat (map snd (_by_database files)).
Proof.
  unfold row_files, _by_recovery_window. rewrite concat_map, map_map. f_equal. apply map_ext.
  intros g. apply (row_files_map (window_verdict (_anchor g.2 cutoff) days)).
Qed.
Lemma by_recovery_window_files files cutoff days :
  row_files (_by_recovery_window files cutoff days) ≡ₚ files.
Proof. rewrite by_recovery_window_groups. apply by_database_spec. Qed.
Lemma spare_file newest r : pr_file (spare newest r) = pr_file r.
Proof. unfold spare. by repeat case_match. Qed.
Lemma spare_kept newest r : is_obsolete (pr_verdict r) = false -> spare newest r = r.
Proof. intros H. unfold spare. rewrite H. by destruct (assoc _ newest). Qed.
Lemma keep_newest_chain_files rows : row_files (_keep_newest_chain rows) = row_files rows.
Proof. unfold row_files, _keep_newest_chain. rewrite map_map. apply map_ext. apply spare_file. Qed.

(** ** The newest full of each database *)
Definition dated_full (db : string) (f : BackupFile) : Prop :=
  is_full f = true /\ finished f <> "" /\ database f = db.
Definition newest_full (files : list BackupFile) (db a : string) : Prop :=
  (exists g, g ∈ files /\ dated_full db g /\ finished g = a)
  /\ forall g, g ∈ files -> dated_full db g -> String.leb (finished g) a = true.
Lemma newest_fulls_spec rows db :
  match assoc db (newest_fulls rows) with
  | Some a => newest_full (row_files rows) db a
  | None => forall g, g ∈ row_files rows -> ~ dated_full db g
  end.
Proof.
  induction rows as [|r rows IH] using rev_ind; [by intros g ?%not_elem_of_nil|].
  unfold newest_fulls, row_files in *. rewrite fold_left_app, map_app. cbn [fold_left map].
  set (newest := fold_left newest_step rows []) in *. set (files := map pr_file rows) in *.
  unfold newest_step. set (f := pr_file r).
  assert (Hsplit : forall g, g ∈ files ++ [f] <-> g ∈ files \/ g = f)
    by (intros; rewrite elem_of_app, list_elem_of_singleton; done).
  destruct (is_full f && negb (String.eqb (finished f) "")) eqn:Hf.
  - apply andb_true_iff in Hf as [Hf Hd%negb_true_iff%String.eqb_neq].
    destruct (decide (db = database f)) as [->|Hne].
    + rewrite assoc_set_eq. split.
      * destruct (str_max_cases (default "" (assoc (database f) newest)) (finished f)) as [E|E]; rewrite E.
        -- destruct (assoc (database f) newest) as [a|]; cbn [default from_option id] in *.
           ++ destruct IH as [(g & Hg & Hdf & Ha) _]. exists g. rewrite Hsplit. auto.
           ++ exfalso. unfold str_max, str_lt in E. destruct (finished f); [done|].
              cbn in E. done.
        -- exists f. rewrite Hsplit. split; [auto|]. done.
      * intros g [Hg| ->]%Hsplit Hdf; [|apply str_max_ge_r].
        destruct (assoc (database f) newest) as [a|]; cbn [default from_option id] in *.
        -- eapply leb_trans; [by apply IH|apply str_max_ge_l].
        -- by destruct (IH g Hg).
    + rewrite assoc_set_ne by done. destruct (assoc db newest) as [a|].
      * destruct IH as [(g & Hg & Hdf & Ha) Hmax]. split; [exists g; rewrite Hsplit; auto|].
        intros g' [Hg'| ->]%Hsplit Hdf'; [by apply Hmax|]. by destruct Hdf' as (_ & _ & ?).
      * intros g [Hg| ->]%Hsplit Hdf; [by apply (IH g)|]. by destruct Hdf as (_ & _ & ?).
  - assert (Hno : ~ dated_full db f).
    { intros (Hff & Hdd & _). rewrite Hff in Hf. cbn in Hf. apply negb_false_iff, String.eqb_eq in Hf. done. }
    destruct (assoc db newest) as [a|].
    + destruct IH as [(g & Hg & Hdf & Ha) Hmax]. split; [exists g; rewrite Hsplit; auto|].
      intros g' [Hg'| ->]%Hsplit Hdf'; [by apply Hmax|done].
    + intros g [Hg| ->]%Hsplit Hdf; [by apply (IH g)|done].
Qed.

(** ** The shape of a plan *)
Definition judged (files : list BackupFile) (p : Plan) : list PlanRow :=
  if String.eqb (pl_mode p) AGE then _by_age files (pl_cutoff p) (pl_window p) (pl_level_cutoffs p)
  else _by_recovery_window files (pl_cutoff p) (pl_window p).
Lemma plan_shape files retention_days mode now secs windows p :
  plan_retention files retention_days mode now secs windows = Ok p ->
  let rows := _keep_newest_chain (judged files p) in
  pl_mode p ∈ MODES
  /\ pl_obsolete p = List.filter (fun r => is_obsolete (pr_verdict r)) rows
  /\ pl_keep p = List.filter (fun r => negb (is_obsolete (pr_verdict r))) rows
  /\ pl_total p = length rows
  /\ pl_obsolete_paths p = map (fun r => bf_path (pr_file r)) (pl_obsolete p).
Proof.
  unfold plan_retention. intros (days & _ & H)%result_bind_ok.
  destruct (bool_decide (lower _ ∈ MODES)) eqn:Hm; cbn [negb] in H; [|done].
  apply result_bind_ok in H as (source & _ & H). apply result_bind_ok in H as (lc & _ & H).
  apply result_bind_ok in H as (bytes & _ & H). injection H as <-.
  apply bool_decide_eq_true in Hm. done.
Qed.
Lemma judged_files files p : row_files (judged files p) ≡ₚ files.
Proof.
  unfold judged. destruct (String.eqb _ _); [by rewrite by_age_files|].
  apply by_recovery_window_files.
Qed.
Lemma elem_of_judged files p r : r ∈ judged files p -> pr_file r ∈ files.
Proof. intros H. rewrite <-(judged_files files p). apply list_elem_of_fmap. by exists r. Qed.

(** A plan is a partition of the listing: kept and obsolete files together are the input,
    each judged once. *)
Lemma plan_partitions_files files retention_days mode now secs windows p :
  plan_retention files retention_days mode now secs windows = Ok p ->
  row_files (pl_keep p) ++ row_files (pl_obsolete p) ≡ₚ files
  /\ pl_total p = length files
  /\ pl_obsolete_paths p = map bf_path (row_files (pl_obsolete p)).
Proof.
  intros H. destruct (plan_shape _ _ _ _ _ _ _ H) as (_ & Ho & Hk & Ht & Hp).
  split; [|split].
  - rewrite Ho, Hk. unfold row_files. rewrite <-map_app, filter_partition.
    change (row_files (_keep_newest_chain (judged files p)) ≡ₚ files).
    rewrite keep_newest_chain_files. apply judged_files.
  - rewrite Ht. unfold _keep_newest_chain. rewrite length_map.
    rewrite <-(Permutation_length (judged_files files p)). unfold row_files. by rewrite length_map.
  - rewrite Hp. unfold row_files. by rewrite map_map.
Qed.

Lemma newest_full_perm l l' db a : l ≡ₚ l' -> newest_full l db a -> newest_full l' db a.
Proof. intros Hp [(g & Hg & Hd & Ha) Hm]. split; [exists g|]; setoid_rewrite <-Hp; auto. Qed.
Lemma newest_full_unique l db a b : newest_full l db a -> newest_full l db b -> a = b.
Proof.
  intros [(g & Hg & Hd & <-) Hm] [(h & Hh & Hd' & <-) Hm'].
  apply String.leb_antisym; auto.
Qed.
(** After the floor, a row is obsolete exactly when its rule said so and its file is older
    than the newest full of its database (or there is none). *)
Lemma spare_obsolete rows r :
  is_obsolete (pr_verdict (spare (newest_fulls rows) r)) = true <->
  is_obsolete (pr_verdict r) = true /\
  forall a, newest_full (row_files rows) (database (pr_file r)) a -> str_lt (finished (pr_file r)) a = true.
Proof.
  unfold spare. pose proof (newest_fulls_spec rows (database (pr_file r))) as Hs.
  destruct (assoc _ (newest_fulls rows)) as [a|].
  - destruct (is_obsolete (pr_verdict r)) eqn:Hr; cbn [andb]; [|rewrite Hr; naive_solver].
    assert (Ha : String.eqb a "" = false).
    { apply String.eqb_neq. intros ->. destruct Hs as [(g & _ & (_ & Hd & _) & Hg) _]. done. }
    rewrite Ha. cbn [negb andb]. destruct (String.leb a (finished (pr_file r))) eqn:Hle.
    + cbn. split; [done|]. intros [_ H]. specialize (H a Hs). apply str_lt_not_leb in H. congruence.
    + rewrite Hr. split; [|done]. intros _. split; [done|]. intros b Hb.
      rewrite (newest_full_unique _ _ _ _ Hb Hs). by apply str_lt_not_leb.
  - split; [|naive_solver]. intros H. split; [done|]. intros b [(g & Hg & Hd & _) _]. by destruct (Hs g Hg).
Qed.
Lemma elem_of_obsolete files p r rows :
  rows = judged files p ->
  r ∈ List.filter (fun r => is_obsolete (pr_verdict r)) (_keep_newest_chain rows) ->
  exists r0, r0 ∈ rows /\ r = spare (newest_fulls rows) r0 /\ is_obsolete (pr_verdict r0) = true
    /\ forall a, newest_full files (database (pr_file r)) a -> str_lt (finished (pr_file r)) a = true.
Proof.
  intros -> [Hin Ho]%elem_of_filter_bool. apply list_elem_of_fmap in Hin as (r0 & -> & Hr0).
  apply spare_obsolete in Ho as [Ho Hn]. exists r0. rewrite spare_file. split_and!; try done.
  intros a Ha. apply Hn. eapply newest_full_perm; [symmetry; apply judged_files|done].
Qed.
Lemma verdict_dated files p r :
  r ∈ judged files p -> is_obsolete (pr_verdict r) = true -> finished (pr_file r) <> "".
Proof.
  unfold judged. destruct (String.eqb _ _).
  - intros (f & -> & _)%list_elem_of_fmap. cbn. unfold age_verdict.
    intros H E. rewrite E in H. cbn in H. by repeat case_match.
  - unfold _by_recovery_window. intros Hin. apply list_elem_of_In, in_concat in Hin as (l & Hl & Hin).
    apply in_map_iff in Hl as (g & <- & _). apply in_map_iff in Hin as (f & <- & _). cbn.
    unfold window_verdict. intros H E. rewrite E in H. done.
Qed.

(** The newest chain of a database is kept. *)
Lemma newest_chain_kept files retention_days mode now secs windows p r :
  plan_retention files retention_days mode now secs windows = Ok p -> r ∈ pl_obsolete p ->
  finished (pr_file r) <> ""
  /\ forall f, f ∈ files -> dated_full (database (pr_file r)) f ->
     exists g, g ∈ row_files (pl_keep p) /\ dated_full (database (pr_file r)) g
       /\ String.leb (finished f) (finished g) = true /\ str_lt (finished (pr_file r)) (finished g) = true.
Proof.
  intros H Hr. destruct (plan_shape _ _ _ _ _ _ _ H) as (_ & Ho & Hk & _ & _).
  rewrite Ho in Hr. destruct (elem_of_obsolete files p r _ eq_refl Hr) as (r0 & Hr0 & -> & Hob & Hn).
  rewrite spare_file in *. split; [by eapply verdict_dated|].
  intros f Hf Hdf. pose proof (newest_fulls_spec (judged files p) (database (pr_file r0))) as Hs.
  destruct (assoc _ (newest_fulls (judged files p))) as [a|].
  2: { exfalso. apply (Hs f); [by rewrite (judged_files files p)|done]. }
  pose proof (newest_full_perm _ _ _ _ (judged_files files p) Hs) as Hnew.
  destruct Hnew as [(g & Hg & Hdg & Hga) Hmax]. exists g.
  assert (Hkeep : g ∈ row_files (pl_keep p)).
  { rewrite <-(judged_files files p) in Hg. apply list_elem_of_fmap in Hg as (rg & -> & Hrg).
    apply list_elem_of_fmap. exists (spare (newest_fulls (judged files p)) rg). rewrite spare_file.
    split; [done|]. rewrite Hk. apply elem_of_filter_bool. split.
    - apply list_elem_of_fmap. by exists rg.
    - apply negb_true_iff, not_true_iff_false. rewrite spare_obsolete. intros [_ Hlt].
      destruct Hdg as (? & ? & Hdb). rewrite Hdb in Hlt. specialize (Hlt a Hs).
      rewrite Hga in Hlt. apply str_lt_not_leb in Hlt. by rewrite leb_refl in Hlt. }
  split_and!; [done|done|rewrite Hga; by apply Hmax|rewrite Hga].
  apply Hn. split; [by exists g|done].
Qed.

(** C28: In every mode, for every database, the newest dated full backup and every file dated no
    earlier than it are kept. *)
Theorem newest_chain_is_kept files retention_days mode now secs windows p r :
  plan_retention files retention_days mode now secs windows = Ok p -> r ∈ pl_obsolete p ->
  finished (pr_file r) <> ""
  /\ forall f, f ∈ files -> dated_full (database (pr_file r)) f ->
     exists g, g ∈ row_files (pl_keep p) /\ dated_full (database (pr_file r)) g
       /\ String.leb (finished f) (finished g) = true /\ str_lt (finished (pr_file r)) (finished g) = true.
Proof. apply newest_chain_kept. Qed.

Lemma in_assoc {A} k (v : A) d : NoDup (map fst d) -> (k, v) ∈ d -> assoc k d = Some v.
Proof.
  induction d as [|[k' w] d IH]; cbn; [by intros _ ?%not_elem_of_nil|].
  intros [Hn Hnd]%list.NoDup_cons [[= <- <-]|Hin]%list.elem_of_cons; [by rewrite String.eqb_refl|].
  destruct (String.eqb_spec k k') as [->|]; [|by apply IH].
  destruct Hn. apply list_elem_of_fmap. by exists (k', v).
Qed.
(** A row the window rule judged, seen from its database's group. *)
Lemma recovery_row files cutoff days r :
  r ∈ _by_recovery_window files cutoff days ->
  exists l, assoc (database (pr_file r)) (_by_database files) = Some l /\ pr_file r ∈ l
    /\ r = Build_PlanRow (pr_file r) (window_verdict (_anchor l cutoff) days (pr_file r)).
Proof.
  unfold _by_recovery_window. destruct (by_database_spec files) as [[Hnd Hf] _].
  intros Hin. apply list_elem_of_In, in_concat in Hin as (rows & Hl & Hin).
  apply in_map_iff in Hl as ([k l] & <- & Hg). apply in_map_iff in Hin as (f & <- & Hf').
  apply list_elem_of_In in Hg, Hf'. cbn [pr_file]. exists l.
  assert (Hk : database f = k).
  { rewrite list.Forall_forall in Hf. specialize (Hf _ Hg). cbn in Hf.
    rewrite list.Forall_forall in Hf. by apply Hf. }
  rewrite Hk. split; [by apply in_assoc|done].
Qed.
Lemma group_rows files cutoff days db l f :
  assoc db (_by_database files) = Some l -> f ∈ l ->
  Build_PlanRow f (window_verdict (_anchor l cutoff) days f) ∈ _by_recovery_window files cutoff days
  /\ database f = db.
Proof.
  intros Hl Hf. destruct (by_database_spec files) as [[Hnd Hall] _]. apply assoc_in in Hl. split.
  - unfold _by_recovery_window. apply list_elem_of_In, in_concat.
    eexists. split; [apply in_map_iff; exists (db, l); split; [done|by apply list_elem_of_In]|].
    apply in_map_iff. exists f. split; [done|by apply list_elem_of_In].
  - rewrite list.Forall_forall in Hall. specialize (Hall _ Hl). cbn in Hall.
    rewrite list.Forall_forall in Hall. by apply Hall.
Qed.
Lemma last_elem {A} (l : list A) x : list.last l = Some x -> x ∈ l.
Proof. intros (l' & ->)%last_Some. apply elem_of_app. right. by left. Qed.
Lemma anchor_is_full l cutoff a : _anchor l cutoff = inl a ->
  String.leb a cutoff = true /\ exists g, g ∈ l /\ is_full g = true /\ finished g <> "" /\ finished g = a.
Proof.
  unfold _anchor. destruct (full_stamps l) as [|o fs] eqn:E; [done|].
  destruct (list.last _) as [x|] eqn:Hl; [|done]. intros [= ->].
  apply last_elem, elem_of_filter_bool in Hl as [Hin Hc]. split; [done|].
  assert (Hs : a ∈ full_stamps l) by (rewrite E; exact Hin). clear Hin. rename Hs into Hin.
  unfold full_stamps in Hin. rewrite merge_sort_Permutation in Hin.
  apply list_elem_of_fmap in Hin as (g & -> & Hg). apply elem_of_filter_bool in Hg as [Hg Hf].
  apply andb_true_iff in Hf as [Hf Hd%negb_true_iff%String.eqb_neq]. eauto.
Qed.

(** C36: In recovery-window mode every file that the plan drops is older than some full backup
    of its database that is kept and lies at or before the cutoff, so each point of the window
    can still be restored. *)
Theorem recovery_window_stays_restorable files retention_days mode now secs windows p r :
  plan_retention files retention_days mode now secs windows = Ok p ->
  pl_mode p = RECOVERY_WINDOW -> r ∈ pl_obsolete p ->
  exists g, g ∈ row_files (pl_keep p) /\ dated_full (database (pr_file r)) g
    /\ String.leb (finished g) (pl_cutoff p) = true
    /\ forall r', r' ∈ pl_obsolete p -> database (pr_file r') = database (pr_file r) ->
       str_lt (finished (pr_file r')) (finished g) = true.
Proof.
  intros H Hm Hr. destruct (plan_shape _ _ _ _ _ _ _ H) as (_ & Ho & Hk & _ & _).
  assert (Hj : judged files p = _by_recovery_window files (pl_cutoff p) (pl_window p)).
  { unfold judged. by rewrite Hm. }
  assert (Hback : forall r', r' ∈ pl_obsolete p -> exists l a,
    assoc (database (pr_file r')) (_by_database files) = Some l
    /\ _anchor l (pl_cutoff p) = inl a /\ str_lt (finished (pr_file r')) a = true).
  { intros r'. rewrite Ho. intros (r0 & Hr0 & -> & Hob & _)%(elem_of_obsolete files p r' _ eq_refl).
    rewrite spare_file. rewrite Hj in Hr0. apply recovery_row in Hr0 as (l & Hl & _ & Hv).
    rewrite Hv in Hob. cbn in Hob. unfold window_verdict in Hob.
    destruct (String.eqb _ _); [done|]. destruct (_anchor l _) as [a|] eqn:Ha; [|done].
    destruct (String.leb a _) eqn:Hle; [done|]. exists l, a. by rewrite str_lt_not_leb. }
  destruct (Hback r Hr) as (l & a & Hl & Ha & _).
  destruct (anchor_is_full _ _ _ Ha) as (Hc & g & Hg & Hfg & Hdg & Hga). exists g.
  destruct (group_rows files (pl_cutoff p) (pl_window p) _ _ _ Hl Hg) as [Hrow Hdb].
  split_and!; [|done..|by rewrite Hga|].
  - apply list_elem_of_fmap. eexists (Build_PlanRow g (window_verdict (inl a) (pl_window p) g)).
    split; [done|]. rewrite Hk. apply elem_of_filter_bool.
    assert (Hv : is_obsolete (window_verdict (inl a) (pl_window p) g) = false).
    { unfold window_verdict. rewrite (proj2 (String.eqb_neq _ _) Hdg), Hga, leb_refl. done. }
    rewrite Ha in Hrow. split; [|cbn; by rewrite Hv].
    apply list_elem_of_fmap. rewrite Hj. eexists. split; [|exact Hrow].
    by rewrite spare_kept.
  - intros r' Hr' Hdb'. destruct (Hback r' Hr') as (l' & a' & Hl' & Ha' & Hlt).
    rewrite Hdb', Hl in Hl'. injection Hl' as <-. rewrite Ha in Ha'. injection Ha' as <-. by rewrite Hga.
Qed.

(** In age mode a file is obsolete exactly when it is dated before its cutoff and does not
    belong to the newest chain of its database. *)
Lemma age_obsolete_iff files retention_days mode now secs p f :
  plan_retention files retention_days mode now secs [] = Ok p -> pl_mode p = AGE -> f ∈ files ->
  (f ∈ row_files (pl_obsolete p) <->
   finished f <> "" /\ str_lt (finished f) (pl_cutoff p) = true
   /\ forall a, newest_full files (database f) a -> str_lt (finished f) a = true).
Proof.
  intros H Hm Hf. destruct (plan_shape _ _ _ _ _ _ _ H) as (_ & Ho & _ & _ & _).
  assert (Hlc : pl_level_cutoffs p = None).
  { revert H. unfold plan_retention. intros (days & _ & H)%result_bind_ok.
    destruct (negb _); [done|]. apply result_bind_ok in H as (source & _ & H).
    apply result_bind_ok in H as (lc & _ & H). apply result_bind_ok in H as (bytes & _ & H).
    by injection H as <-. }
  assert (Hj : judged files p
    = map (fun f => Build_PlanRow f (age_verdict (pl_cutoff p) (pl_window p) None f)) files).
  { unfold judged. by rewrite Hm, Hlc. }
  assert (Hv : forall x, is_obsolete (age_verdict (pl_cutoff p) (pl_window p) None x) = true
    <-> finished x <> "" /\ str_lt (finished x) (pl_cutoff p) = true).
  { intros x. unfold age_verdict, own_cutoff. cbn.
    destruct (String.eqb_spec (finished x) ""); [naive_solver|].
    destruct (str_lt _ _); cbn; naive_solver. }
  rewrite Ho. split.
  - intros (r & -> & Hr)%list_elem_of_fmap.
    destruct (elem_of_obsolete files p r _ eq_refl Hr) as (r0 & Hr0 & -> & Hob & Hn).
    rewrite spare_file in *. rewrite Hj in Hr0. apply list_elem_of_fmap in Hr0 as (x & -> & Hx).
    cbn [pr_file pr_verdict] in *. apply Hv in Hob. naive_solver.
  - intros (Hd & Hlt & Hn).
    set (r0 := Build_PlanRow f (age_verdict (pl_cutoff p) (pl_window p) None f)).
    apply list_elem_of_fmap. exists (spare (newest_fulls (judged files p)) r0).
    rewrite spare_file. split; [done|]. apply elem_of_filter_bool. split.
    + apply list_elem_of_fmap. exists r0. split; [done|]. rewrite Hj. apply list_elem_of_fmap. by exists f.
    + apply spare_obsolete. split; [by apply Hv|]. intros a Ha. apply Hn.
      eapply newest_full_perm; [apply judged_files|exact Ha].
Qed.

(** ** A listing of two databases *)
Definition lab_file (path stamp_ kind db : string) : BackupFile :=
  {| bf_path := PStr path; bf_finished_at := PStr stamp_; bf_kind := PStr kind;
     bf_database_name := PStr db; bf_age_seconds := PNone; bf_size_bytes := PInt 1 |}.
Definition lab_listing : list BackupFile :=
  [lab_file "a1" "2026-09-01T01:00:00" "full" "A"; lab_file "a2" "2026-09-08 01:00:00" "full" "A";
   lab_file "a3" "2026-09-19 01:00:00" "log" "A"; lab_file "a4" "2026-09-15 01:00:00" "full" "A";
   lab_file "b1" "2026-08-01 01:00:00" "full" "B"; lab_file "b2" "2026-08-02 01:00:00" "log" "B"].
Definition lab_now : Z := seconds (ymd2ord 2026 9 20 * 86400).
Definition lab_plan (mode : string) : option Plan :=
  match plan_retention lab_listing (PInt 7) mode lab_now None [] with Ok p => Some p | Err _ => None end.
Example lab_plans :
  (fun p => (pl_cutoff p, pl_obsolete_paths p)) <$> lab_plan "age"
  = Some ("2026-09-13 00:00:00", [PStr "a1"; PStr "a2"])
  /\ (fun p => (pl_cutoff p, pl_obsolete_paths p)) <$> lab_plan "recovery_window"
  = Some ("2026-09-13 00:00:00", [PStr "a1"]).
Proof. vm_compute. done. Qed.

Lemma plan_partitions_files_witness :
  exists p, plan_retention lab_listing (PInt 7) "age" lab_now None [] = Ok p
  /\ row_files (pl_keep p) ++ row_files (pl_obsolete p) ≡ₚ lab_listing
  /\ pl_total p = length lab_listing
  /\ pl_obsolete_paths p = map bf_path (row_files (pl_obsolete p)).
Proof.
  eexists. split; [vm_compute; reflexivity|].
  apply (plan_partitions_files lab_listing (PInt 7) "age" lab_now None []). vm_compute. reflexivity.
Defined.
Lemma newest_chain_is_kept_witness :
  exists p r, plan_retention lab_listing (PInt 7) "age" lab_now None [] = Ok p /\ r ∈ pl_obsolete p
  /\ finished (pr_file r) <> ""
  /\ forall f, f ∈ lab_listing -> dated_full (database (pr_file r)) f ->
     exists g, g ∈ row_files (pl_keep p) /\ dated_full (database (pr_file r)) g
       /\ String.leb (finished f) (finished g) = true /\ str_lt (finished (pr_file r)) (finished g) = true.
Proof.
  eexists _, _. split; [vm_compute; reflexivity|]. split; [by left|].
  apply (newest_chain_is_kept lab_listing (PInt 7) "age" lab_now None []); [vm_compute; reflexivity|by left].
Defined.
Lemma recovery_window_stays_restorable_witness :
  exists p r, plan_retention lab_listing (PInt 7) "recovery_window" lab_now None [] = Ok p /\ r ∈ pl_obsolete p
  /\ exists g, g ∈ row_files (pl_keep p) /\ dated_full (database (pr_file r)) g
    /\ String.leb (finished g) (pl_cutoff p) = true
    /\ forall r', r' ∈ pl_obsolete p -> database (pr_file r') = database (pr_file r) ->
       str_lt (finished (pr_file r')) (finished g) = true.
Proof.
  eexists _, _. split; [vm_compute; reflexivity|]. split; [by left|].
  apply (recovery_window_stays_restorable lab_listing (PInt 7) "recovery_window" lab_now None []);
    [vm_compute; reflexivity|reflexivity|by left].
Defined.
Lemma age_obsolete_iff_witness :
  exists p, plan_retention lab_listing (PInt 7) "age" lab_now None [] = Ok p /\
  (lab_file "a2" "2026-09-08 01:00:00" "full" "A" ∈ row_files (pl_obsolete p) <->
   finished (lab_file "a2" "2026-09-08 01:00:00" "full" "A") <> ""
   /\ str_lt (finished (lab_file "a2" "2026-09-08 01:00:00" "full" "A")) (pl_cutoff p) = true
   /\ forall a, newest_full lab_listing "A" a ->
      str_lt (finished (lab_file "a2" "2026-09-08 01:00:00" "full" "A")) a = true).
Proof.
  eexists. split; [vm_compute; reflexivity|].
  apply (age_obsolete_iff lab_listing (PInt 7) "age" lab_now None); [vm_compute; reflexivity|reflexivity|].
  right. by left.
Defined.
