(* ===== verification/Store.v ===== *)
(** * The operational store: [db/store_job_runs.py], [db/store_base.py] and its schema.

    Two tables, [job_runs] and [app_command_requests], with their histories.  A [with
    self.connect()] block is one transaction and one step here.  Timestamps are the text
    the store writes and are compared as text; [now] is an instant in microseconds. *)

From S2P Require Import Prelude Py PyTime RunClaim.

(** ** Rows *)
Record JobRow := {
  jr_log_id : Z; jr_created_at : string; jr_started_at : option string;
  jr_finished_at : option string; jr_job_code : string; jr_level : string; jr_status : string;
  jr_message : string; jr_duration_ms : option Z; jr_error_text : option string;
  jr_host_name : string; jr_claim_key : option string; jr_metadata : pydict }.
(** A row of [job_runs_history]: the columns of [_JOB_RUN_ARCHIVE_COLUMNS], which have no claim key. *)
Record ArchivedRun := {
  hr_log_id : Z; hr_created_at : string; hr_started_at : option string;
  hr_finished_at : option string; hr_job_code : string; hr_level : string; hr_status : string;
  hr_message : string; hr_duration_ms : option Z; hr_error_text : option string;
  hr_host_name : string; hr_metadata : pydict }.
Definition archived_run (r : JobRow) : ArchivedRun :=
  {| hr_log_id := jr_log_id r; hr_created_at := jr_created_at r; hr_started_at := jr_started_at r;
     hr_finished_at := jr_finished_at r; hr_job_code := jr_job_code r; hr_level := jr_level r; hr_status := jr_status r;
     hr_message := jr_message r; hr_duration_ms := jr_duration_ms r; hr_error_text := jr_error_text r;
     hr_host_name := jr_host_name r; hr_metadata := jr_metadata r |}.
(** What a caller hands to [insert_job_run] ([models.JobRun]). *)
Record JobRun := {
  it_job_code : string; it_level : string; it_status : string; it_message : string;
  it_started_at : option string; it_finished_at : option string; it_duration_ms : option Z;
  it_error_text : option string; it_host_name : string; it_claim_key : option string;
  it_metadata : pydict }.
Record Request := {
  rq_id : Z; rq_app : string; rq_status : string; rq_requested_by : string; rq_source : string;
  rq_requested_at : string; rq_claimed_at : option string; rq_started_at : option string;
  rq_finished_at : option string; rq_job_run_id : option Z; rq_note : string }.

Record Db := {
  db_runs : list JobRow; db_next_log : Z; db_requests : list Request; db_next_request : Z;
  db_runs_history : list (ArchivedRun * string); db_requests_history : list (Request * string) }.
Definition set_runs (l : list JobRow) (d : Db) : Db :=
  Build_Db l (db_next_log d) (db_requests d) (db_next_request d) (db_runs_history d) (db_requests_history d).
Definition set_requests (l : list Request) (d : Db) : Db :=
  Build_Db (db_runs d) (db_next_log d) l (db_next_request d) (db_runs_history d) (db_requests_history d).

(** The process that writes: its host, pid and node identity, and what the operating system
    says of a pid's start (empty when it cannot be read). *)
Record Process := { ps_host : string; ps_pid : Z; ps_node : string; ps_start_marker : Z -> string }.

Inductive store_error : Type :=
| RunAlreadyClaimed (job_code host : string)
| UniqueViolation (index : string)
| ForeignKeyViolation (job_run_id : Z)
| CheckViolation
| MetadataOverflow.                    (* int(Infinity) in a recorded pid *)

(** The [CHECK] constraints of [job_runs] on a level and a duration. *)
Definition LEVELS : list string := ["logging"; "warning"; "error"; "critical"].
Definition row_checks (level : string) (duration_ms : option Z) : bool :=
  bool_decide (level ∈ LEVELS) && match duration_ms with Some n => 0 <=? n | None => true end.

(** ** [insert_job_run] *)
Definition is_running (status : string) : bool := String.eqb (lower status) "running".
(** [ux_job_runs_claim]: (claim_key, host_name) of the running rows that carry a key. *)
Definition claim_of (r : JobRow) : option (string * string) :=
  match jr_claim_key r with
  | Some k => if is_running (jr_status r) then Some (k, jr_host_name r) else None
  | None => None
  end.
Definition claims (l : list JobRow) : list (string * string) := omap claim_of l.
Definition claims_unique (l : list JobRow) : bool := bool_decide (NoDup (claims l)).

(** [(item.claim_key or "").strip() or None] *)
Definition clean_key (k : option string) : option string :=
  let t := strip (default "" k) in if String.eqb t "" then None else Some t.
Definition _claim_pid (p : Process) (metadata : pydict) : result store_error Z :=
  match assoc "pid" metadata with
  | None | Some PNone => Ok (ps_pid p)
  | Some v => match py_int v with
              | Ok n => Ok n
              | Err OverflowError => Err MetadataOverflow
              | Err _ => Ok (ps_pid p)
              end
  end.
(** [dict.update] *)
Definition update_dict (d e : pydict) : pydict := fold_left (fun d p => assoc_set p.1 p.2 d) e d.

Definition insert_job_run (p : Process) (now : Z) (item : JobRun) (d : Db) : result store_error (Db * Z) :=
  let claim_key := clean_key (it_claim_key item) in
  let running := String.eqb (lower (strip (it_status item))) "running"
                 && match claim_key with Some _ => true | None => false end in
  let host := if String.eqb (it_host_name item) "" then ps_host p else it_host_name item in
  metadata ← (if running then
      pid ← _claim_pid p (it_metadata item);
      Ok (update_dict (it_metadata item) (claim_fields pid host (ps_node p) (ps_start_marker p pid)))
    else Ok (it_metadata item));
  let row := {| jr_log_id := db_next_log d; jr_created_at := iso_text now;
    jr_started_at := it_started_at item; jr_finished_at := it_finished_at item;
    jr_job_code := it_job_code item; jr_level := it_level item; jr_status := it_status item;
    jr_message := it_message item; jr_duration_ms := it_duration_ms item;
    jr_error_text := it_error_text item; jr_host_name := host; jr_claim_key := claim_key;
    jr_metadata := metadata |} in
  let rows := db_runs d ++ [row] in
  if negb (row_checks (it_level item) (it_duration_ms item)) then Err CheckViolation
  else if claims_unique rows then
    Ok (Build_Db rows (db_next_log d + 1) (db_requests d) (db_next_request d) (db_runs_history d)
          (db_requests_history d), db_next_log d)
  else if running then Err (RunAlreadyClaimed (it_job_code item) host)
  else Err (UniqueViolation "ux_job_runs_claim").

(** ** [update_job_run] *)
Record RunUpdate := {
  up_finished_at : option string; up_level : string; up_status : string; up_message : string;
  up_duration_ms : option Z; up_error_text : option string; up_metadata : pydict }.
Definition write_row (u : RunUpdate) (r : JobRow) : JobRow :=
  {| jr_log_id := jr_log_id r; jr_created_at := jr_created_at r; jr_started_at := jr_started_at r;
     jr_finished_at := up_finished_at u; jr_job_code := jr_job_code r; jr_level := up_level u;
     jr_status := up_status u; jr_message := up_message u; jr_duration_ms := up_duration_ms u;
     jr_error_text := up_error_text u; jr_host_name := jr_host_name r;
     jr_claim_key := jr_claim_key r; jr_metadata := up_metadata u |}.
Definition update_job_run (log_id : Z) (u : RunUpdate) (only_if_running : bool) (d : Db)
    : result store_error (Db * bool) :=
  let hit r := (jr_log_id r =? log_id) && (negb only_if_running || is_running (jr_status r)) in
  let rows := map (fun r => if hit r then write_row u r else r) (db_runs d) in
  if existsb hit (db_runs d) && negb (row_checks (up_level u) (up_duration_ms u)) then Err CheckViolation
  else if claims_unique rows then Ok (set_runs rows d, existsb hit (db_runs d))
  else Err (UniqueViolation "ux_job_runs_claim").

(** ** Reading *)
(** The row as the scheduling rule sees it. *)
Definition text_or_null (o : option string) : pyval := match o with Some s => PStr s | None => PNone end.
Definition row_dict (r : JobRow) : pydict :=
  [("log_id", PInt (jr_log_id r)); ("created_at", PStr (jr_created_at r));
   ("started_at", text_or_null (jr_started_at r)); ("finished_at", text_or_null (jr_finished_at r));
   ("job_code", PStr (jr_job_code r)); ("level", PStr (jr_level r)); ("status", PStr (jr_status r));
   ("message", PStr (jr_message r)); ("error_text", text_or_null (jr_error_text r));
   ("host_name", PStr (jr_host_name r)); ("metadata_json", PDict (jr_metadata r))].
(** The row of the largest [log_id] of each job code. *)
Definition newer (best : option JobRow) (r : JobRow) : option JobRow :=
  match best with Some b => if jr_log_id b <? jr_log_id r then Some r else best | None => Some r end.
Definition latest_run (rows : list JobRow) (job_code : string) : option JobRow :=
  fold_left newer (List.filter (fun r => String.eqb (jr_job_code r) job_code) rows) None.
Definition fetch_latest_job_runs_by_job_code (d : Db) (job_code : string) : option JobRow :=
  latest_run (db_runs d) job_code.
(** With no prefix of the job code, as the daemon asks. *)
Definition fetch_running_job_runs (d : Db) : list JobRow :=
  List.filter (fun r => is_running (jr_status r)) (db_runs d).

(** ** [archive_old_job_runs] *)
Definition points_into (ids : list Z) (r : Request) : bool :=
  match rq_job_run_id r with Some i => bool_decide (i ∈ ids) | None => false end.
Definition _archive_requests_for_runs (ids : list Z) (archived_at : string) (d : Db) : Db :=
  let gone := List.filter (points_into ids) (db_requests d) in
  Build_Db (db_runs d) (db_next_log d) (List.filter (fun r => negb (points_into ids r)) (db_requests d))
    (db_next_request d) (db_runs_history d) (db_requests_history d ++ map (fun r => (r, archived_at)) gone).
(** One batch: the oldest [size] rows created before the cutoff, in one transaction. *)
Definition batch_ids (cutoff : string) (size : nat) (d : Db) : list Z :=
  take size (map jr_log_id (List.filter (fun r => str_lt (jr_created_at r) cutoff) (db_runs d))).
Definition archive_batch (ids : list Z) (archived_at : string) (d : Db) : Db :=
  let out r := bool_decide (jr_log_id r ∈ ids) in
  let d := Build_Db (db_runs d) (db_next_log d) (db_requests d) (db_next_request d)
    (db_runs_history d ++ map (fun r => (archived_run r, archived_at)) (List.filter out (db_runs d)))
    (db_requests_history d) in
  let d := _archive_requests_for_runs ids archived_at d in
  set_runs (List.filter (fun r => negb (out r)) (db_runs d)) d.
(** The [while True] loop; [fuel] bounds its turns ([archive_fuel] of them are enough). *)
Fixpoint archive_loop (fuel : nat) (cutoff : string) (size : nat) (max_batches : option nat)
    (archived_at : string) (moved : nat) (d : Db) : option (Db * nat) :=
  match fuel with
  | O => None
  | S fuel =>
      match max_batches with
      | Some O => Some (d, moved)
      | _ =>
          let ids := batch_ids cutoff size d in
          match ids with
          | [] => Some (d, moved)
          | _ =>
              let d := archive_batch ids archived_at d in
              let moved := (moved + length ids)%nat in
              if (length ids <? size)%nat then Some (d, moved)
              else archive_loop fuel cutoff size (Nat.pred <$> max_batches) archived_at moved d
          end
      end
  end.
Definition archive_fuel (d : Db) : nat := S (length (db_runs d)).
Definition archive_old_job_runs (now retention_days : Z) (size : nat) (max_batches : option nat) (d : Db)
    : option (Db * nat) :=
  if Z.max retention_days 0 <=? 0 then Some (d, 0%nat)
  else archive_loop (archive_fuel d) (iso_text (now - seconds (retention_days * 86400))) size max_batches
         (iso_text now) 0 d.

(** ** The archive loop ends *)
Lemma archive_batch_runs ids now d :
  db_runs (archive_batch ids now d) = List.filter (fun r => negb (bool_decide (jr_log_id r ∈ ids))) (db_runs d).
Proof. done. Qed.
Lemma filter_shorter {A} (p : A -> bool) l x : x ∈ l -> p x = false -> (length (List.filter p l) < length l)%nat.
Proof.
  intros Hx Hp. induction l as [|y l IH]; [by apply not_elem_of_nil in Hx|]. cbn.
  apply list.elem_of_cons in Hx as [->|Hx].
  - rewrite Hp. pose proof (filter_length_le p l). lia.
  - specialize (IH Hx). destruct (p y); cbn; lia.
Qed.
Lemma batch_shrinks cutoff size now d : batch_ids cutoff size d <> [] ->
  (length (db_runs (archive_batch (batch_ids cutoff size d) now d)) < length (db_runs d))%nat.
Proof.
  intros Hne. rewrite archive_batch_runs. destruct (batch_ids cutoff size d) as [|i ids] eqn:E; [done|].
  assert (Hi : i ∈ batch_ids cutoff size d) by (rewrite E; by left). unfold batch_ids in Hi.
  apply elem_of_take in Hi as (k & Hk & _). apply list_elem_of_lookup_2, list_elem_of_fmap in Hk as (r & -> & Hr).
  apply elem_of_filter_bool in Hr as [Hr _].
  eapply (filter_shorter _ _ r Hr). rewrite bool_decide_true; [done|by left].
Qed.
Lemma archive_loop_ends fuel cutoff size mb now moved d :
  (length (db_runs d) < fuel)%nat -> is_Some (archive_loop fuel cutoff size mb now moved d).
Proof.
  revert mb moved d. induction fuel as [|fuel IH]; intros mb moved d Hf; [lia|]. cbn [archive_loop].
  pose proof (batch_shrinks cutoff size now d) as Hs.
  destruct mb as [[|m]|]; [by eexists| |];
    (destruct (batch_ids cutoff size d) as [|i ids]; [by eexists|];
     destruct (_ <? _)%nat; [by eexists|]; apply IH; specialize (Hs ltac:(done)); lia).
Qed.

(** ** What one batch does *)
Definition fk_ok (d : Db) : Prop :=
  forall r i, r ∈ db_requests d -> rq_job_run_id r = Some i -> i ∈ map jr_log_id (db_runs d).
Definition run_ids_ok (d : Db) : Prop := NoDup (map jr_log_id (db_runs d)).
(** [d'] is [d] with the runs [out] and the requests [outq] moved to the histories, a run without
    its claim key. *)
Definition moved_to_history (cutoff : string) (d d' : Db) (out : list JobRow) (outq : list Request) : Prop :=
  db_runs d' ++ out ≡ₚ db_runs d
  /\ map fst (db_runs_history d') = map fst (db_runs_history d) ++ map archived_run out
  /\ db_requests d' ++ outq ≡ₚ db_requests d
  /\ map fst (db_requests_history d') = map fst (db_requests_history d) ++ outq
  /\ Forall (fun r => str_lt (jr_created_at r) cutoff = true) out
  /\ Forall (fun q => exists i, rq_job_run_id q = Some i /\ i ∈ map jr_log_id out) outq.
Lemma moved_refl cutoff d : moved_to_history cutoff d d [] [].
Proof. unfold moved_to_history. rewrite !app_nil_r. split_and!; first [done|constructor]. Qed.
Lemma moved_trans cutoff d1 d2 d3 out1 out2 q1 q2 :
  moved_to_history cutoff d1 d2 out1 q1 -> moved_to_history cutoff d2 d3 out2 q2 ->
  moved_to_history cutoff d1 d3 (out1 ++ out2) (q1 ++ q2).
Proof.
  intros (P1 & H1 & Q1 & G1 & F1 & E1) (P2 & H2 & Q2 & G2 & F2 & E2).
  unfold moved_to_history. split_and!.
  - rewrite <-P1, <-P2. solve_Permutation.
  - by rewrite H2, H1, map_app, app_assoc.
  - rewrite <-Q1, <-Q2. solve_Permutation.
  - by rewrite G2, G1, app_assoc.
  - by apply list.Forall_app.
  - apply list.Forall_app. split; (eapply list.Forall_impl; [eassumption|]); cbn;
      intros q (i & Hi & Hin); exists i; rewrite map_app, elem_of_app; auto.
Qed.
Lemma batch_moves cutoff size now d :
  run_ids_ok d ->
  let ids := batch_ids cutoff size d in
  let d' := archive_batch ids now d in
  exists out outq, moved_to_history cutoff d d' out outq /\ length out = length ids
    /\ run_ids_ok d' /\ (fk_ok d -> fk_ok d').
Proof.
  intros Hnd. cbn zeta. set (ids := batch_ids cutoff size d).
  set (outp r := bool_decide (jr_log_id r ∈ ids)).
  exists (List.filter outp (db_runs d)), (List.filter (points_into ids) (db_requests d)).
  assert (Hsub : sublist ids (map jr_log_id (db_runs d))).
  { unfold ids, batch_ids. etransitivity; [apply sublist_take|apply map_filter_sublist]. }
  assert (Hids : map jr_log_id (List.filter outp (db_runs d)) ≡ₚ ids).
  { apply NoDup_Permutation.
    - eapply sublist_NoDup; [exact Hnd|apply map_filter_sublist].
    - by eapply sublist_NoDup.
    - intros i. split.
      + intros (r & -> & Hr)%list_elem_of_fmap. apply elem_of_filter_bool in Hr as [_ Hr].
        by apply bool_decide_eq_true in Hr.
      + intros Hi. pose proof (elem_of_sublist _ _ _ Hi Hsub) as Hin.
        apply list_elem_of_fmap in Hin as (r & -> & Hr). apply list_elem_of_fmap. exists r.
        split; [done|]. apply elem_of_filter_bool. split; [done|]. by apply bool_decide_eq_true. }
  split; [|split; [|split]].
  - unfold moved_to_history. cbn. split_and!.
    + apply filter_partition.
    + by rewrite map_app, map_map.
    + apply filter_partition.
    + rewrite map_app, map_map. cbn. by rewrite map_id.
    + apply list.Forall_forall. intros r [Hr Ho]%elem_of_filter_bool. apply bool_decide_eq_true in Ho.
      unfold ids, batch_ids in Ho. apply elem_of_take in Ho as (k & Hk & _).
      apply list_elem_of_lookup_2, list_elem_of_fmap in Hk as (r' & Heq & Hr').
      apply elem_of_filter_bool in Hr' as [Hr' Hlt].
      by rewrite (NoDup_map_inj jr_log_id _ r r' Hnd Hr Hr' Heq).
    + apply list.Forall_forall. intros q [_ Hq]%elem_of_filter_bool. unfold points_into in Hq.
      destruct (rq_job_run_id q) as [i|]; [|done]. apply bool_decide_eq_true in Hq.
      exists i. split; [done|]. by rewrite Hids.
  - rewrite <-(Permutation_length Hids). by rewrite length_map.
  - unfold run_ids_ok. rewrite archive_batch_runs. eapply sublist_NoDup; [exact Hnd|apply map_filter_sublist].
  - intros Hfk q i Hq Hi. cbn in Hq. apply elem_of_filter_bool in Hq as [Hq Hno].
    pose proof (Hfk q i Hq Hi) as Hin. apply list_elem_of_fmap in Hin as (r & -> & Hr).
    rewrite archive_batch_runs. apply list_elem_of_fmap. exists r. split; [done|].
    apply elem_of_filter_bool. split; [done|]. unfold points_into in Hno. rewrite Hi in Hno. done.
Qed.

Lemma archive_loop_moves fuel cutoff size mb now moved d d' n :
  archive_loop fuel cutoff size mb now moved d = Some (d', n) -> run_ids_ok d ->
  exists out outq, moved_to_history cutoff d d' out outq /\ n = (moved + length out)%nat
    /\ run_ids_ok d' /\ (fk_ok d -> fk_ok d')
    /\ (mb = None -> (0 < size)%nat -> Forall (fun r => str_lt (jr_created_at r) cutoff = false) (db_runs d')).
Proof.
  revert mb moved d. induction fuel as [|fuel IH]; intros mb moved d; [done|]. cbn [archive_loop].
  intros H Hnd.
  assert (Hstop : forall u : option nat, Some (d, moved) = Some (d', n) ->
    (u = None -> (0 < size)%nat -> Forall (fun r => str_lt (jr_created_at r) cutoff = false) (db_runs d)) ->
    exists out outq, moved_to_history cutoff d d' out outq /\ n = (moved + length out)%nat
    /\ run_ids_ok d' /\ (fk_ok d -> fk_ok d')
    /\ (u = None -> (0 < size)%nat -> Forall (fun r => str_lt (jr_created_at r) cutoff = false) (db_runs d'))).
  { intros u [= <- <-] Hu. exists [], []. split; [apply moved_refl|]. cbn. split_and!; auto. }
  assert (Hempty : batch_ids cutoff size d = [] -> (0 < size)%nat ->
    Forall (fun r => str_lt (jr_created_at r) cutoff = false) (db_runs d)).
  { intros Hb Hs. apply list.Forall_forall. intros r Hr. apply not_true_iff_false. intros Hlt.
    assert (Hin : r ∈ List.filter (fun r => str_lt (jr_created_at r) cutoff) (db_runs d))
      by by apply elem_of_filter_bool.
    unfold batch_ids in Hb. destruct (List.filter _ _) as [|x l]; [by apply not_elem_of_nil in Hin|].
    destruct size; [lia|]. done. }
  assert (Hgo : match batch_ids cutoff size d with
      | [] => Some (d, moved)
      | _ => let d1 := archive_batch (batch_ids cutoff size d) now d in
             let moved1 := (moved + length (batch_ids cutoff size d))%nat in
             if (length (batch_ids cutoff size d) <? size)%nat then Some (d1, moved1)
             else archive_loop fuel cutoff size (Nat.pred <$> mb) now moved1 d1
      end = Some (d', n) ->
    exists out outq, moved_to_history cutoff d d' out outq /\ n = (moved + length out)%nat
    /\ run_ids_ok d' /\ (fk_ok d -> fk_ok d')
    /\ (mb = None -> (0 < size)%nat -> Forall (fun r => str_lt (jr_created_at r) cutoff = false) (db_runs d'))).
  { clear H. destruct (batch_moves cutoff size now d Hnd) as (out & outq & Hm & Hlen & Hnd1 & Hfk1).
    destruct (batch_ids cutoff size d) as [|i ids] eqn:Eb; [by intros; eapply Hstop; eauto|].
    cbv zeta. destruct (Nat.ltb_spec (length (i :: ids)) size) as [Hlt|Hge].
    - intros [= <- <-]. exists out, outq. rewrite Hlen. split_and!; try done.
      intros _ _. (* a short batch took every old row *)
      rewrite archive_batch_runs. apply list.Forall_forall. intros r [Hr Hout]%elem_of_filter_bool.
      apply not_true_iff_false. intros Hold. apply negb_true_iff, bool_decide_eq_false in Hout. apply Hout.
      rewrite <-Eb. rewrite <-Eb in Hlt. unfold batch_ids in *. rewrite length_take in Hlt.
      rewrite take_ge by lia. apply list_elem_of_fmap. exists r. split; [done|].
      by apply elem_of_filter_bool.
    - intros H. apply IH in H as (out2 & outq2 & Hm2 & Hn & Hnd2 & Hfk2 & Hall); [|done].
      exists (out ++ out2), (outq ++ outq2). split; [by eapply moved_trans|].
      rewrite length_app, Hlen. split_and!; [lia|done|auto|]. intros ->. by apply Hall. }
  destruct mb as [[|m]|]; [|exact (Hgo H)..]. by apply (Hstop (Some 0%nat)).
Qed.

(** C37: The archive sweep always ends, moves rows older than the cutoff, whole but for their
    claim key, together with the requests that name them, loses and duplicates none, keeps the
    foreign key, and when uncapped leaves no row older than the cutoff. *)
Theorem archive_is_sound now days size mb d :
  run_ids_ok d -> 0 < days ->
  exists d' out outq,
    archive_old_job_runs now days size mb d = Some (d', length out)
    /\ moved_to_history (iso_text (now - seconds (days * 86400))) d d' out outq
    /\ (fk_ok d -> fk_ok d')
    /\ (mb = None -> (0 < size)%nat ->
        Forall (fun r => str_lt (jr_created_at r) (iso_text (now - seconds (days * 86400))) = false) (db_runs d')).
Proof.
  intros Hnd Hd. unfold archive_old_job_runs. rewrite (proj2 (Z.leb_gt (Z.max days 0) 0)) by lia.
  destruct (archive_loop_ends (archive_fuel d) (iso_text (now - seconds (days * 86400))) size mb
    (iso_text now) 0 d) as [[d' n] H]; [unfold archive_fuel; lia|].
  destruct (archive_loop_moves _ _ _ _ _ _ _ _ _ H Hnd) as (out & outq & Hm & -> & _ & Hfk & Hall).
  exists d', out, outq. split_and!; done.
Qed.

(** ** The claim index *)
Lemma claims_app l l' : claims (l ++ l') = claims l ++ claims l'.
Proof. apply omap_app. Qed.
Lemma insert_claim_exclusive p now item d d' log_id :
  insert_job_run p now item d = Ok (d', log_id) ->
  NoDup (claims (db_runs d')) /\ exists r, db_runs d' = db_runs d ++ [r] /\ jr_log_id r = db_next_log d
    /\ log_id = db_next_log d /\ db_next_log d' = db_next_log d + 1 /\ jr_status r = it_status item
    /\ jr_job_code r = it_job_code item /\ db_requests d' = db_requests d
    /\ db_next_request d' = db_next_request d.
Proof.
  unfold insert_job_run. intros (md & _ & H)%result_bind_ok. cbv zeta in H.
  destruct (negb _) in H; [done|]. destruct (claims_unique _) eqn:Hu.
  - injection H as <- <-. apply bool_decide_eq_true in Hu. split; [done|]. eexists. split_and!; done.
  - by destruct (_ && _) in H.
Qed.
Lemma update_keeps_ids log_id u only d d' b :
  update_job_run log_id u only d = Ok (d', b) ->
  map jr_log_id (db_runs d') = map jr_log_id (db_runs d) /\ NoDup (claims (db_runs d'))
  /\ db_next_log d' = db_next_log d /\ db_requests d' = db_requests d
  /\ db_next_request d' = db_next_request d.
Proof.
  unfold update_job_run. destruct (_ && negb _); [done|]. destruct (claims_unique _) eqn:Hu; [|done]. intros [= <- <-]. cbn.
  apply bool_decide_eq_true in Hu. split_and!; try done.
  rewrite map_map. apply map_ext. intros r. by destruct (_ && _).
Qed.

Definition old_row (id : Z) (created : string) : JobRow :=
  {| jr_log_id := id; jr_created_at := created; jr_started_at := Some created; jr_finished_at := Some created;
     jr_job_code := "APP-METRICS"; jr_level := "logging"; jr_status := "done"; jr_message := "";
     jr_duration_ms := None; jr_error_text := None; jr_host_name := "worker-1"; jr_claim_key := None;
     jr_metadata := [] |}.
Definition old_db : Db :=
  Build_Db [old_row 1 "2026-09-01T00:00:00Z"; old_row 2 "2026-09-20T00:00:00Z"] 3
    [Build_Request 1 "APP-METRICS" "done" "" "" "2026-09-01T00:00:00Z" None None None (Some 1) ""] 2 [] [].
Lemma archive_is_sound_witness :
  exists d' out outq,
    archive_old_job_runs (seconds (ymd2ord 2026 9 21 * 86400)) 15 20000 (Some 1%nat) old_db = Some (d', length out)
    /\ moved_to_history (iso_text (seconds (ymd2ord 2026 9 21 * 86400) - seconds (15 * 86400))) old_db d' out outq
    /\ (fk_ok old_db -> fk_ok d')
    /\ (Some 1%nat = None -> (0 < 20000)%nat ->
        Forall (fun r => str_lt (jr_created_at r)
          (iso_text (seconds (ymd2ord 2026 9 21 * 86400) - seconds (15 * 86400))) = false) (db_runs d')).
Proof. apply archive_is_sound; [by apply (bool_decide_unpack _)|lia]. Defined.
