(* ===== verification/RunRequests.v ===== *)
(** * [db/run_requests.py]: the "run this app now" queue, a state machine over rows.

    [initialize] (schema) is left out.  Each method that opens one connection is one step;
    [claim] and [request_run] open two, and the race between them is modelled below. *)

From S2P Require Import Prelude Py PyTime Store.

Definition STATUS_PENDING : string := "pending".
Definition STATUS_CLAIMED : string := "claimed".
Definition STATUS_STARTED : string := "started".
Definition STATUS_DONE : string := "done".
Definition STATUS_CANCELLED : string := "cancelled".
Definition STATUS_EXPIRED : string := "expired".
Definition OPEN_STATUSES : list string := [STATUS_PENDING; STATUS_CLAIMED; STATUS_STARTED].
Definition DEFAULT_REQUEST_TTL_SECONDS : Z := 900.

Definition has_status (s : string) (r : Request) : bool := String.eqb (rq_status r) s.
Definition has_id (i : Z) (r : Request) : bool := rq_id r =? i.
(** [UPDATE ... WHERE p] *)
Definition update_where (p : Request -> bool) (f : Request -> Request) (l : list Request) : list Request :=
  map (fun r => if p r then f r else r) l.

(** [ux_app_command_requests_pending] *)
Definition pending_apps (l : list Request) : list string :=
  map rq_app (List.filter (has_status STATUS_PENDING) l).
Definition write_requests (l : list Request) (d : Db) : result store_error Db :=
  if bool_decide (NoDup (pending_apps l)) then Ok (set_requests l d)
  else Err (UniqueViolation "ux_app_command_requests_pending").

(** The column assignments of the updates. *)
Definition set_finished (status now note : string) (r : Request) : Request :=
  Build_Request (rq_id r) (rq_app r) status (rq_requested_by r) (rq_source r) (rq_requested_at r)
    (rq_claimed_at r) (rq_started_at r) (Some now) (rq_job_run_id r) note.
Definition set_claimed (now : string) (r : Request) : Request :=
  Build_Request (rq_id r) (rq_app r) STATUS_CLAIMED (rq_requested_by r) (rq_source r) (rq_requested_at r)
    (Some now) (rq_started_at r) (rq_finished_at r) (rq_job_run_id r) (rq_note r).
Definition set_started (now : string) (job_run_id : option Z) (r : Request) : Request :=
  Build_Request (rq_id r) (rq_app r) STATUS_STARTED (rq_requested_by r) (rq_source r) (rq_requested_at r)
    (rq_claimed_at r) (Some now) (rq_finished_at r) job_run_id (rq_note r).
Definition set_released (note : string) (r : Request) : Request :=
  Build_Request (rq_id r) (rq_app r) STATUS_PENDING (rq_requested_by r) (rq_source r) (rq_requested_at r)
    None (rq_started_at r) (rq_finished_at r) (rq_job_run_id r) note.

(** ** Reading *)
Definition is_pending_of (app : string) (r : Request) : bool :=
  String.eqb (rq_app r) app && has_status STATUS_PENDING r.
Definition pending_for (app : string) (d : Db) : option Request :=
  List.find (is_pending_of app) (db_requests d).
(** [{app: row}] over the open rows in id order: the last row of an app stands. *)
Definition open_requests (d : Db) : list (string * Request) :=
  fold_left (fun m r => assoc_set (rq_app r) r m)
    (List.filter (fun r => bool_decide (rq_status r ∈ OPEN_STATUSES)) (db_requests d)) [].

(** ** Asking *)
Record Asked := { ask_id : Z; ask_created : bool; ask_status : string }.
Inductive request_error : Type := AppRequired | StoreFailed (e : store_error).

(** The second connection of [request_run]: the INSERT, which the index may refuse. *)
Definition insert_request (now : Z) (app requested_by source note : string) (d : Db)
    : result store_error (Db * Asked) :=
  let r := Build_Request (db_next_request d) app STATUS_PENDING requested_by source (iso_text now)
             None None None None note in
  let l := db_requests d ++ [r] in
  if bool_decide (NoDup (pending_apps l)) then
    Ok (Build_Db (db_runs d) (db_next_log d) l (db_next_request d + 1) (db_runs_history d)
          (db_requests_history d), Build_Asked (db_next_request d) true STATUS_PENDING)
  else Err (UniqueViolation "ux_app_command_requests_pending").
Definition request_run (now : Z) (app requested_by source note : string) (d : Db)
    : result request_error (Db * Asked) :=
  let code := strip app in
  if String.eqb code "" then Err AppRequired
  else match pending_for code d with
       | Some r => Ok (d, Build_Asked (rq_id r) false (rq_status r))
       | None => match insert_request now code requested_by source note d with
                 | Ok x => Ok x | Err e => Err (StoreFailed e) end
       end.
Definition cancel_request (now request_id : Z) (actor : string) (d : Db) : result store_error (Db * bool) :=
  match List.find (has_id request_id) (db_requests d) with
  | Some r =>
      if has_status STATUS_PENDING r then
        let note := "Cancelled by " +:+ (if String.eqb actor "" then "an operator" else actor) +:+ "." in
        (fun d => (d, true)) <$>
        write_requests (update_where (has_id request_id) (set_finished STATUS_CANCELLED (iso_text now) note)
                          (db_requests d)) d
      else Ok (d, false)
  | None => Ok (d, false)
  end.

(** ** The daemon's side *)
Definition _finish (now request_id : Z) (status note : string) (d : Db) : result store_error Db :=
  write_requests (update_where (has_id request_id) (set_finished status (iso_text now) note) (db_requests d)) d.
Definition ttl_cutoff (now ttl : Z) : string := iso_text (now - seconds (Z.max 1 ttl)).

(** The last connection of [claim]: the conditional UPDATE and the row read back. *)
Definition take_request (now request_id : Z) (d : Db) : result store_error (Db * option Request) :=
  (fun d => (d, List.find (fun r => has_id request_id r && has_status STATUS_CLAIMED r) (db_requests d)))
  <$> write_requests (update_where (fun r => has_id request_id r && has_status STATUS_PENDING r)
                        (set_claimed (iso_text now)) (db_requests d)) d.
(** What [claim] does with the pending row it has seen. *)
Definition claim_seen (now ttl : Z) (row : Request) (d : Db) : result store_error (Db * option Request) :=
  if str_lt (rq_requested_at row) (ttl_cutoff now ttl) then
    (fun d => (d, None)) <$> _finish now (rq_id row) STATUS_EXPIRED
      ("Not picked up within " +:+ str_of_int ttl +:+ "s; the daemon was not running.") d
  else take_request now (rq_id row) d.
Definition claim (now ttl : Z) (app : string) (d : Db) : result store_error (Db * option Request) :=
  match pending_for app d with
  | None => Ok (d, None)
  | Some row => claim_seen now ttl row d
  end.

Definition run_exists (d : Db) (job_run_id : option Z) : bool :=
  match job_run_id with None => true | Some i => bool_decide (i ∈ map jr_log_id (db_runs d)) end.
Definition mark_started (now request_id : Z) (job_run_id : option Z) (d : Db) : result store_error Db :=
  if existsb (has_id request_id) (db_requests d) && negb (run_exists d job_run_id)
  then Err (ForeignKeyViolation (default 0 job_run_id))
  else write_requests (update_where (has_id request_id) (set_started (iso_text now) job_run_id) (db_requests d)) d.
Definition mark_done (now request_id : Z) (note : string) (d : Db) : result store_error Db :=
  _finish now request_id STATUS_DONE note d.
Definition release (request_id : Z) (note : string) (d : Db) : result store_error Db :=
  write_requests (update_where (fun r => has_id request_id r && has_status STATUS_CLAIMED r)
                    (set_released note) (db_requests d)) d.
Definition is_stale (cutoff : string) (r : Request) : bool :=
  has_status STATUS_PENDING r && str_lt (rq_requested_at r) cutoff.
Definition expire_stale (now ttl : Z) (d : Db) : result store_error (Db * nat) :=
  let ids := map rq_id (List.filter (is_stale (ttl_cutoff now ttl)) (db_requests d)) in
  let note := "Not picked up within " +:+ str_of_int ttl +:+ "s." in
  (fun d => (d, length ids)) <$>
  write_requests (update_where (fun r => bool_decide (rq_id r ∈ ids))
                    (set_finished STATUS_EXPIRED (iso_text now) note) (db_requests d)) d.

(** The run a started request points at, when it has finished. *)
Definition finished_run (d : Db) (r : Request) : option JobRow :=
  if has_status STATUS_STARTED r then
    i ← rq_job_run_id r;
    List.find (fun j => (jr_log_id j =? i) && match jr_finished_at j with Some _ => true | None => false end)
      (db_runs d)
  else None.
Definition close_row (now : string) (d : Db) (r : Request) : Request :=
  match finished_run d r with
  | Some j => set_finished STATUS_DONE now ("Run finished with status " +:+ jr_status j +:+ ".") r
  | None => r
  end.
Definition close_finished (now : Z) (d : Db) : result store_error (Db * nat) :=
  let closed := List.filter (fun r => match finished_run d r with Some _ => true | None => false end)
                  (db_requests d) in
  (fun d => (d, length closed)) <$> write_requests (map (close_row (iso_text now) d) (db_requests d)) d.

(** ** What the store keeps *)
Definition store_ok (d : Db) : Prop :=
  run_ids_ok d /\ Forall (fun r => jr_log_id r < db_next_log d) (db_runs d)
  /\ NoDup (claims (db_runs d)) /\ fk_ok d
  /\ NoDup (map rq_id (db_requests d)) /\ Forall (fun r => rq_id r < db_next_request d) (db_requests d)
  /\ NoDup (pending_apps (db_requests d)).

Lemma write_requests_ok l d d' : write_requests l d = Ok d' <-> d' = set_requests l d /\ NoDup (pending_apps l).
Proof. unfold write_requests. case_bool_decide; naive_solver. Qed.
Lemma update_where_ids p f l : (forall r, rq_id (f r) = rq_id r) -> map rq_id (update_where p f l) = map rq_id l.
Proof. intros Hf. unfold update_where. rewrite map_map. apply map_ext. intros r. by destruct (p r). Qed.

(** Rewriting request rows keeps the store's invariant when ids stay and runs exist. *)
Lemma write_requests_store_ok (f : Request -> Request) d d' :
  (forall r, r ∈ db_requests d -> rq_id (f r) = rq_id r) ->
  (forall r i, r ∈ db_requests d -> rq_job_run_id (f r) = Some i -> i ∈ map jr_log_id (db_runs d)) ->
  write_requests (map f (db_requests d)) d = Ok d' -> store_ok d -> store_ok d'.
Proof.
  intros Hid Hfk [-> Hp]%write_requests_ok (H1 & H2 & H3 & H4 & H5 & H6 & _).
  assert (Hids : map rq_id (map f (db_requests d)) = map rq_id (db_requests d)).
  { rewrite map_map. apply map_ext_in. intros r Hr. by apply Hid, list_elem_of_In. }
  unfold store_ok. cbn [db_runs db_next_log db_requests db_next_request set_requests].
  split_and!; try done.
  - intros r i Hr Hi. apply list_elem_of_fmap in Hr as (x & -> & Hx). by eapply Hfk.
  - by rewrite Hids.
  - apply list.Forall_forall. intros r Hr.
    assert (Hin : rq_id r ∈ map rq_id (db_requests d)).
    { rewrite <-Hids. apply list_elem_of_fmap. by exists r. }
    apply list_elem_of_fmap in Hin as (x & -> & Hx). rewrite list.Forall_forall in H6. by apply H6.
Qed.
Lemma update_where_store_ok p f d d' :
  (forall r, rq_id (f r) = rq_id r) -> (forall r, rq_job_run_id (f r) = rq_job_run_id r) ->
  write_requests (update_where p f (db_requests d)) d = Ok d' -> store_ok d -> store_ok d'.
Proof.
  intros Hid Hj H Hok. eapply (write_requests_store_ok (fun r => if p r then f r else r)); [| |exact H|done].
  - intros r _. by destruct (p r).
  - intros r i Hr Hi. destruct Hok as (_ & _ & _ & Hfk & _). destruct (p r); [rewrite Hj in Hi|]; by eapply Hfk.
Qed.

(** ** Every step of every client *)
Inductive store_step (d d' : Db) : Prop :=
| step_insert_run p now item i : insert_job_run p now item d = Ok (d', i) -> store_step d d'
| step_update_run i u only b : update_job_run i u only d = Ok (d', b) -> store_step d d'
| step_archive now days size mb n : archive_old_job_runs now days size mb d = Some (d', n) -> store_step d d'
| step_insert_request now app by_ src note a : insert_request now app by_ src note d = Ok (d', a) -> store_step d d'
| step_request now app by_ src note a : request_run now app by_ src note d = Ok (d', a) -> store_step d d'
| step_cancel now i actor b : cancel_request now i actor d = Ok (d', b) -> store_step d d'
| step_take now i o : take_request now i d = Ok (d', o) -> store_step d d'
| step_claim now ttl app o : claim now ttl app d = Ok (d', o) -> store_step d d'
| step_finish now i s note : _finish now i s note d = Ok d' -> store_step d d'
| step_mark_started now i j : mark_started now i j d = Ok d' -> store_step d d'
| step_release i note : release i note d = Ok d' -> store_step d d'
| step_expire now ttl n : expire_stale now ttl d = Ok (d', n) -> store_step d d'
| step_close now n : close_finished now d = Ok (d', n) -> store_step d d'.

Lemma fmap_ok {A B} (f : A -> B) (m : result store_error A) b : f <$> m = Ok b -> exists a, m = Ok a /\ b = f a.
Proof. destruct m; cbn; naive_solver. Qed.
Lemma finish_store_ok now i s note d d' : _finish now i s note d = Ok d' -> store_ok d -> store_ok d'.
Proof. apply update_where_store_ok; done. Qed.
Lemma take_store_ok now i d d' o : take_request now i d = Ok (d', o) -> store_ok d -> store_ok d'.
Proof. intros (x & H & [= -> ->])%fmap_ok. revert H. apply update_where_store_ok; done. Qed.
Lemma claim_store_ok now ttl app d d' o : claim now ttl app d = Ok (d', o) -> store_ok d -> store_ok d'.
Proof.
  unfold claim, claim_seen. destruct (pending_for app d) as [r|]; [|by intros [= <- <-]].
  destruct (str_lt _ _); [|apply take_store_ok].
  intros (x & H & [= -> ->])%fmap_ok. revert H. apply finish_store_ok.
Qed.
Lemma insert_run_store_ok p now item d d' i :
  insert_job_run p now item d = Ok (d', i) -> store_ok d -> store_ok d'.
Proof.
  intros (Hc & r & Hr & Hid & -> & Hn & _ & _ & Hq & Hnq)%insert_claim_exclusive (H1 & H2 & H3 & H4 & H5 & H6 & H7).
  unfold store_ok, run_ids_ok, fk_ok. rewrite Hq, Hnq, Hn, Hr, map_app. cbn [map].
  split_and!; try done.
  - apply list.NoDup_app. split_and!; [done| |apply NoDup_singleton].
    intros x Hx Hx'%list_elem_of_singleton. subst x. apply list_elem_of_fmap in Hx as (y & Hy & Hin).
    rewrite list.Forall_forall in H2. specialize (H2 y Hin). lia.
  - apply list.Forall_app. split; [|repeat constructor; lia].
    eapply list.Forall_impl; [exact H2|]. cbn. lia.
  - by rewrite <-Hr.
  - intros q j Hq' Hj. apply elem_of_app. left. by eapply H4.
Qed.
Lemma update_run_store_ok i u only d d' b :
  update_job_run i u only d = Ok (d', b) -> store_ok d -> store_ok d'.
Proof.
  intros (Hids & Hc & Hn & Hq & Hnq)%update_keeps_ids (H1 & H2 & H3 & H4 & H5 & H6 & H7).
  unfold store_ok, run_ids_ok, fk_ok. rewrite Hq, Hnq, Hn, Hids. split_and!; try done.
  apply list.Forall_forall. intros r Hr. assert (Hin : jr_log_id r ∈ map jr_log_id (db_runs d)).
  { rewrite <-Hids. apply list_elem_of_fmap. by exists r. }
  apply list_elem_of_fmap in Hin as (x & -> & Hx). rewrite list.Forall_forall in H2. by apply H2.
Qed.
Lemma archive_loop_next fuel cutoff size mb now moved d d' n :
  archive_loop fuel cutoff size mb now moved d = Some (d', n) ->
  db_next_log d' = db_next_log d /\ db_next_request d' = db_next_request d.
Proof.
  revert mb moved d. induction fuel as [|fuel IH]; intros mb moved d; [done|]. cbn [archive_loop].
  assert (Hgo : forall ids m, (if (length ids <? size)%nat then Some (archive_batch ids now d, m)
      else archive_loop fuel cutoff size (Nat.pred <$> mb) now m (archive_batch ids now d)) = Some (d', n) ->
      db_next_log d' = db_next_log d /\ db_next_request d' = db_next_request d).
  { intros ids m. destruct (_ <? _)%nat; [by intros [= <- _]|]. intros H%IH. exact H. }
  destruct mb as [[|m]|]; [by intros [= <- _]| |];
    (destruct (batch_ids cutoff size d); [by intros [= <- _]|apply Hgo]).
Qed.
Lemma NoDup_app_left {A} (l k m : list A) : l ++ k ≡ₚ m -> NoDup m -> NoDup l.
Proof. intros <- H. by apply list.NoDup_app in H as [? _]. Qed.
Lemma pending_apps_app l k : pending_apps (l ++ k) = pending_apps l ++ pending_apps k.
Proof. unfold pending_apps. by rewrite filter_app, map_app. Qed.
Lemma pending_apps_perm l k : l ≡ₚ k -> pending_apps l ≡ₚ pending_apps k.
Proof.
  induction 1; [done| | |by etrans]; unfold pending_apps in *; cbn in *.
  - destruct (has_status _ x); cbn; [by constructor|done].
  - destruct (has_status _ x), (has_status _ y); cbn; try done. apply perm_swap.
Qed.
Lemma archive_store_ok now days size mb d d' n :
  archive_old_job_runs now days size mb d = Some (d', n) -> store_ok d -> store_ok d'.
Proof.
  unfold archive_old_job_runs. destruct (_ <=? 0); [by intros [= <- _]|].
  intros H (H1 & H2 & H3 & H4 & H5 & H6 & H7).
  destruct (archive_loop_next _ _ _ _ _ _ _ _ _ H) as [Hn Hnq].
  destruct (archive_loop_moves _ _ _ _ _ _ _ _ _ H H1) as (out & outq & (P & _ & Q & _ & _) & _ & Hnd & Hfk & _).
  unfold store_ok. rewrite Hn, Hnq. split_and!; [done| | |by apply Hfk| | |].
  - rewrite <-P in H2. by apply list.Forall_app in H2 as [? _].
  - eapply NoDup_app_left; [|exact H3]. unfold claims. rewrite <-omap_app. by rewrite P.
  - eapply NoDup_app_left; [|exact H5]. rewrite <-map_app. by rewrite Q.
  - rewrite <-Q in H6. by apply list.Forall_app in H6 as [? _].
  - eapply NoDup_app_left; [|exact H7]. rewrite <-pending_apps_app. by apply pending_apps_perm.
Qed.
Lemma insert_request_store_ok now app by_ src note d d' a :
  insert_request now app by_ src note d = Ok (d', a) -> store_ok d -> store_ok d'.
Proof.
  unfold insert_request. case_bool_decide as Hp; [|done]. intros [= <- _] (H1 & H2 & H3 & H4 & H5 & H6 & H7).
  unfold store_ok, fk_ok, run_ids_ok. cbn [db_runs db_next_log db_requests db_next_request].
  split_and!; try done.
  - intros r i [Hr|Hr%list_elem_of_singleton]%elem_of_app Hi; [by eapply H4|]. by subst r.
  - rewrite map_app. apply list.NoDup_app. split_and!; [done| |apply NoDup_singleton].
    intros x Hx Hx'%list_elem_of_singleton. subst x. apply list_elem_of_fmap in Hx as (y & Hy & Hin).
    rewrite list.Forall_forall in H6. specialize (H6 y Hin). cbn in Hy. lia.
  - apply list.Forall_app. split; [|repeat constructor; cbn; lia].
    eapply list.Forall_impl; [exact H6|]. cbn. lia.
Qed.

Lemma store_step_ok d d' : store_step d d' -> store_ok d -> store_ok d'.
Proof.
  intros Hstep Hok.
  destruct Hstep as [p now item i H|i u only b H|now days size mb n H|now app by_ src note a H
    |now app by_ src note a H|now i actor b H|now i o H|now ttl app o H|now i s note H|now i j H|i note H
    |now ttl n H|now n H].
  - by eapply insert_run_store_ok.
  - by eapply update_run_store_ok.
  - by eapply archive_store_ok.
  - by eapply insert_request_store_ok.
  - unfold request_run in H. destruct (String.eqb _ ""); [done|].
    destruct (pending_for _ d); [by injection H as <- _|].
    destruct (insert_request _ _ _ _ _ d) as [[x y]|] eqn:E; [|done]. injection H as <- _.
    by eapply insert_request_store_ok.
  - unfold cancel_request in H. destruct (List.find _ _) as [r|]; [|by injection H as <- _].
    destruct (has_status _ r); [|by injection H as <- _].
    apply fmap_ok in H as (x & H & [= -> _]). eapply update_where_store_ok; [| |exact H|done]; done.
  - by eapply take_store_ok.
  - by eapply claim_store_ok.
  - by eapply finish_store_ok.
  - unfold mark_started in H. destruct (existsb (has_id i) (db_requests d) && negb (run_exists d j)) eqn:E; [done|].
    eapply (write_requests_store_ok (fun r => if has_id i r then set_started (iso_text now) j r else r));
      [| |exact H|done].
    + intros r _. by destruct (has_id i r).
    + intros r k Hr Hk. destruct (has_id i r) eqn:Hi; [|destruct Hok as (_ & _ & _ & Hfk & _); by eapply Hfk].
      cbn in Hk. subst j. apply andb_false_iff in E as [E|E].
      * exfalso. apply not_true_iff_false in E. apply E, existsb_exists. exists r. split; [by apply list_elem_of_In|done].
      * apply negb_false_iff in E. by apply bool_decide_eq_true in E.
  - eapply update_where_store_ok; [| |exact H|done]; done.
  - apply fmap_ok in H as (x & H & [= -> _]). eapply update_where_store_ok; [| |exact H|done]; done.
  - apply fmap_ok in H as (x & H & [= -> _]).
    eapply (write_requests_store_ok (close_row (iso_text now) d)); [| |exact H|done].
    + intros r _. unfold close_row. by destruct (finished_run d r).
    + intros r k Hr Hk. destruct Hok as (_ & _ & _ & Hfk & _). eapply Hfk; [done|].
      revert Hk. unfold close_row. by destruct (finished_run d r).
Qed.

(** C25: Whatever the daemons, runners and consoles do, in any order: row ids stay unique, no
    (claim key, host) has two running rows, every request's run exists, and no app has two
    pending requests. *)
Theorem reachable_store_ok d d' : rtc store_step d d' -> store_ok d -> store_ok d'.
Proof. induction 1; [done|]. eauto using store_step_ok. Qed.

Definition empty_db : Db := Build_Db [] 1 [] 1 [] [].
Lemma empty_store_ok : store_ok empty_db.
Proof. unfold store_ok, run_ids_ok, fk_ok. cbn. split_and!; try constructor. by intros r i ?%not_elem_of_nil. Qed.

(** ** Two daemons on one store *)

(** One daemon inside [claim]: it has not looked, it has seen the pending row, or it has its answer. *)
Inductive claimer : Type := Looking | Saw (r : Request) | Answered (o : option Request).
Inductive claim_step (now ttl : Z) (app : string) : Db * claimer -> Db * claimer -> Prop :=
| look_none d : pending_for app d = None -> claim_step now ttl app (d, Looking) (d, Answered None)
| look_some d r : pending_for app d = Some r -> claim_step now ttl app (d, Looking) (d, Saw r)
| take d d' r o : claim_seen now ttl r d = Ok (d', o) -> claim_step now ttl app (d, Saw r) (d', Answered o).
Inductive race_step (now ttl : Z) (app : string) : Db * claimer * claimer -> Db * claimer * claimer -> Prop :=
| first_moves d d' a a' b : claim_step now ttl app (d, a) (d', a') -> race_step now ttl app (d, a, b) (d', a', b)
| second_moves d d' a b b' : claim_step now ttl app (d, b) (d', b') -> race_step now ttl app (d, a, b) (d', a, b').

Definition lab_request : Request :=
  Build_Request 7 "APP-SQL_TASKS" STATUS_PENDING "ops" "console" "2026-09-21T02:30:00Z" None None None None "".
Definition lab_db : Db := Build_Db [] 1 [lab_request] 8 [] [].
Definition lab_instant : Z := seconds (ymd2ord 2026 9 21 * 86400 + 9010).

(** Two daemons that both saw the pending row can both be handed the same claimed request:
    the read-back after the conditional update does not ask whose update it was. *)
Lemma two_daemons_get_one_request :
  exists d d' r, store_ok d
    /\ rtc (race_step lab_instant DEFAULT_REQUEST_TTL_SECONDS "APP-SQL_TASKS")
           (d, Looking, Looking) (d', Answered (Some r), Answered (Some r))
    /\ rq_id r = 7 /\ rq_status r = STATUS_CLAIMED.
Proof.
  exists lab_db. eexists _, _. split; [|split].
  - unfold store_ok, run_ids_ok, fk_ok. cbn. split_and!; try constructor; try (cbn; lia); try constructor.
    + by intros r i ->%list_elem_of_singleton.
    + apply not_elem_of_nil.
    + apply not_elem_of_nil.
  - eapply rtc_l; [apply first_moves, look_some; vm_compute; reflexivity|].
    eapply rtc_l; [apply second_moves, look_some; vm_compute; reflexivity|].
    eapply rtc_l; [apply first_moves, take; vm_compute; reflexivity|].
    eapply rtc_l; [apply second_moves, take; vm_compute; reflexivity|]. apply rtc_refl.
  - done.
Qed.

(** ** One daemon at a time *)
Lemma pending_for_some app d r : pending_for app d = Some r ->
  r ∈ db_requests d /\ rq_app r = app /\ rq_status r = STATUS_PENDING.
Proof.
  intros [Hin H]%find_some. apply andb_true_iff in H as [H1%String.eqb_eq H2%String.eqb_eq].
  split_and!; [by apply list_elem_of_In|done|done].
Qed.
Lemma pending_for_none app d : (forall r, r ∈ db_requests d -> rq_app r = app -> rq_status r <> STATUS_PENDING) ->
  pending_for app d = None.
Proof.
  intros H. unfold pending_for. destruct (List.find _ _) as [r|] eqn:E; [|done].
  destruct (pending_for_some app d r E) as (Hin & Ha & Hp). by destruct (H r Hin Ha).
Qed.
(** Two pending rows of one app are one row. *)
Lemma pending_unique l r r' : NoDup (map rq_id l) -> NoDup (pending_apps l) -> r ∈ l -> r' ∈ l ->
  rq_status r = STATUS_PENDING -> rq_status r' = STATUS_PENDING -> rq_app r = rq_app r' -> r = r'.
Proof.
  intros _ Hp Hr Hr' Hs Hs' Ha.
  eapply (NoDup_map_inj rq_app (List.filter (has_status STATUS_PENDING) l)); try done;
    apply elem_of_filter_bool; (split; [done|]); by apply String.eqb_eq.
Qed.

(** A claim that hands out a request returns the row of that app, now claimed, and until
    somebody asks again every later claim finds nothing. *)
Lemma claim_hands_out_once now ttl app d d' r :
  store_ok d -> claim now ttl app d = Ok (d', Some r) ->
  rq_app r = app /\ rq_status r = STATUS_CLAIMED /\ r ∈ db_requests d'
  /\ pending_for app d' = None
  /\ (forall now' ttl', claim now' ttl' app d' = Ok (d', None)).
Proof.
  intros Hok H.
  assert (Hpend : rq_app r = app /\ rq_status r = STATUS_CLAIMED /\ r ∈ db_requests d' /\ pending_for app d' = None).
  2: { destruct Hpend as (? & ? & ? & Hnone). split_and!; try done. intros. unfold claim. by rewrite Hnone. }
  revert H. unfold claim. destruct (pending_for app d) as [row|] eqn:Hrow; [|done].
  destruct (pending_for_some _ _ _ Hrow) as (Hin & Happ & Hst). unfold claim_seen.
  destruct (str_lt _ _); [by intros (x & _ & [=])%fmap_ok|].
  intros (x & [-> _]%write_requests_ok & [= -> Hf])%fmap_ok.
  destruct Hok as (_ & _ & _ & _ & Hids & _ & Hp).
  set (upd := update_where _ _ _) in *. cbn [db_requests set_requests] in *.
  symmetry in Hf. apply find_some in Hf as [Hr Hrs]. apply list_elem_of_In in Hr.
  apply andb_true_iff in Hrs as [Hid%Z.eqb_eq Hcl%String.eqb_eq].
  apply list_elem_of_fmap in Hr as (y & Hy & Hyin).
  assert (Hsame : rq_id y = rq_id row).
  { rewrite <-Hid, Hy. by destruct (_ && _). }
  assert (y = row) as -> by (by eapply (NoDup_map_inj rq_id)).
  assert (Hpr : has_id (rq_id row) row && has_status STATUS_PENDING row = true).
  { unfold has_id, has_status. by rewrite Z.eqb_refl, Hst. }
  rewrite Hpr in Hy. subst r. split_and!; [done|done| |].
  - apply list_elem_of_fmap. exists row. by rewrite Hpr.
  - apply pending_for_none. cbn. intros z Hz Hza Hzp. apply list_elem_of_fmap in Hz as (w & -> & Hw).
    destruct (has_id (rq_id row) w && has_status STATUS_PENDING w) eqn:Hcase; [done|].
    assert (w = row) as ->; [|congruence]. eapply pending_unique; try done. congruence.
Qed.

(** ** The sweep of the daemon *)
Lemma pending_apps_closing f l :
  (forall r, f r = r \/ rq_status (f r) <> STATUS_PENDING) -> sublist (pending_apps (map f l)) (pending_apps l).
Proof.
  intros Hf. unfold pending_apps. induction l as [|r l IH]; cbn; [done|].
  destruct (Hf r) as [->|Hne].
  - destruct (has_status _ r); cbn; [by constructor|done].
  - unfold has_status at 1. rewrite (proj2 (String.eqb_neq _ _) Hne).
    destruct (has_status _ r); cbn; [by constructor|done].
Qed.
Lemma write_closing f d :
  (forall r, f r = r \/ rq_status (f r) <> STATUS_PENDING) -> NoDup (pending_apps (db_requests d)) ->
  write_requests (map f (db_requests d)) d = Ok (set_requests (map f (db_requests d)) d).
Proof. intros Hf Hp. apply write_requests_ok. split; [done|]. eapply sublist_NoDup; [exact Hp|by apply pending_apps_closing]. Qed.

Lemma expire_stale_total now ttl d : store_ok d ->
  exists n, expire_stale now ttl d = Ok (set_requests (map (fun r => if is_stale (ttl_cutoff now ttl) r
      then set_finished STATUS_EXPIRED (iso_text now) ("Not picked up within " +:+ str_of_int ttl +:+ "s.") r else r)
    (db_requests d)) d, n).
Proof.
  intros (_ & _ & _ & _ & Hids & _ & Hp). unfold expire_stale, update_where.
  set (ids := map rq_id _). set (f r := if bool_decide _ then _ else r).
  exists (length ids).
  assert (Hmap : map f (db_requests d) = map (fun r => if is_stale (ttl_cutoff now ttl) r
      then set_finished STATUS_EXPIRED (iso_text now) ("Not picked up within " +:+ str_of_int ttl +:+ "s.") r
      else r) (db_requests d)).
  { apply map_ext_in. intros r Hr%list_elem_of_In. unfold f.
    replace (bool_decide (rq_id r ∈ ids)) with (is_stale (ttl_cutoff now ttl) r); [done|].
    destruct (is_stale _ r) eqn:Hs.
    + symmetry. apply bool_decide_eq_true, list_elem_of_fmap. exists r. split; [done|]. by apply elem_of_filter_bool.
    + symmetry. apply bool_decide_eq_false. intros (x & Hx & Hin)%list_elem_of_fmap.
      apply elem_of_filter_bool in Hin as [Hin Hst].
      rewrite (NoDup_map_inj rq_id _ r x Hids Hr Hin Hx) in Hs. congruence. }
  rewrite (write_closing f), Hmap; [done| |done].
  intros r. unfold f. destruct (bool_decide _); [by right|by left].
Qed.

(** The two sweeps always succeed on a well-formed store, expire exactly the pending
    requests older than the time to live, close exactly the started requests whose run has
    finished, and leave none of either kind. *)
Lemma sweep_closes_what_ended now ttl d :
  store_ok d ->
  let cutoff := ttl_cutoff now ttl in
  let swept r := if is_stale cutoff r
    then set_finished STATUS_EXPIRED (iso_text now) ("Not picked up within " +:+ str_of_int ttl +:+ "s.") r
    else close_row (iso_text now) d r in
  exists d1 n1 d2 n2, expire_stale now ttl d = Ok (d1, n1) /\ close_finished now d1 = Ok (d2, n2)
    /\ db_requests d2 = map swept (db_requests d)
    /\ Forall (fun r => is_stale cutoff r = false /\ finished_run d2 r = None) (db_requests d2).
Proof.
  intros Hok. cbn zeta. destruct (expire_stale_total now ttl d Hok) as [n1 H1].
  set (d1 := set_requests _ d) in H1. exists d1, n1.
  assert (Hok1 : store_ok d1) by (eapply store_step_ok; [by eapply step_expire|done]).
  destruct Hok1 as (_ & _ & _ & _ & _ & _ & Hp1). unfold close_finished.
  rewrite (write_closing (close_row (iso_text now) d1) d1).
  2: { intros r. unfold close_row. destruct (finished_run d1 r); [by right|by left]. }
  2: { done. }
  eexists _, _. split; [done|]. split; [reflexivity|].
  assert (Hreq : db_requests (set_requests (map (close_row (iso_text now) d1) (db_requests d1)) d1)
    = map (fun r => if is_stale (ttl_cutoff now ttl) r
        then set_finished STATUS_EXPIRED (iso_text now) ("Not picked up within " +:+ str_of_int ttl +:+ "s.") r
        else close_row (iso_text now) d r) (db_requests d)).
  { cbn [db_requests set_requests]. unfold d1. cbn [db_requests set_requests]. rewrite map_map.
    apply map_ext. intros r. destruct (is_stale _ r) eqn:Hs; [|done]. done. }
  split; [exact Hreq|]. rewrite Hreq. apply list.Forall_forall.
  intros r (x & -> & _)%list_elem_of_fmap. destruct (is_stale _ x) eqn:Hs; [done|].
  unfold close_row. destruct (finished_run d x) as [j|] eqn:Hf; [done|]. split; [done|]. exact Hf.
Qed.

Definition lab_row (id : Z) (status : string) (finished : option string) : JobRow :=
  {| jr_log_id := id; jr_created_at := "2026-09-01T00:00:00Z"; jr_started_at := Some "2026-09-01T00:00:00Z";
     jr_finished_at := finished; jr_job_code := "APP-SQL_TASKS"; jr_level := "logging"; jr_status := status;
     jr_message := ""; jr_duration_ms := None; jr_error_text := None; jr_host_name := "worker-1";
     jr_claim_key := None; jr_metadata := [] |}.
Definition lab_started : Request :=
  Build_Request 6 "APP-METRICS" STATUS_STARTED "ops" "console" "2026-09-21T01:00:00Z" None None None (Some 3) "".
Definition lab_db2 : Db := Build_Db [lab_row 3 "done" (Some "2026-09-21T01:05:00Z")] 4 [lab_started; lab_request] 8 [] [].
Lemma lab_db2_ok : store_ok lab_db2.
Proof.
  unfold store_ok, run_ids_ok, fk_ok. split_and!.
  - by apply (bool_decide_unpack _).
  - by apply (bool_decide_unpack _).
  - by apply (bool_decide_unpack _).
  - cbn. intros r i [->|[->|[]%not_elem_of_nil]%list.elem_of_cons]%list.elem_of_cons; [|done].
    intros [= <-]. by left.
  - by apply (bool_decide_unpack _).
  - by apply (bool_decide_unpack _).
  - by apply (bool_decide_unpack _).
Qed.
Lemma reachable_store_ok_witness :
  exists d' o, claim lab_instant 900 "APP-SQL_TASKS" lab_db2 = Ok (d', o) /\ rtc store_step lab_db2 d' /\ store_ok d'.
Proof.
  destruct (claim lab_instant 900 "APP-SQL_TASKS" lab_db2) as [[d' o]|e] eqn:E; [|vm_compute in E; discriminate E].
  assert (H : rtc store_step lab_db2 d') by (eapply rtc_once, step_claim, E).
  exists d', o. split; [done|]. split; [exact H|]. exact (reachable_store_ok _ _ H lab_db2_ok).
Defined.
Lemma claim_hands_out_once_witness :
  exists d' r, claim lab_instant 900 "APP-SQL_TASKS" lab_db2 = Ok (d', Some r)
  /\ rq_app r = "APP-SQL_TASKS" /\ rq_status r = STATUS_CLAIMED /\ r ∈ db_requests d'
  /\ pending_for "APP-SQL_TASKS" d' = None
  /\ (forall now' ttl', claim now' ttl' "APP-SQL_TASKS" d' = Ok (d', None)).
Proof.
  eexists _, _. split; [vm_compute; reflexivity|].
  apply (claim_hands_out_once lab_instant 900 "APP-SQL_TASKS" lab_db2); [exact lab_db2_ok|vm_compute; reflexivity].
Defined.
Lemma sweep_closes_what_ended_witness :
  exists d1 n1 d2 n2, expire_stale lab_instant 900 lab_db2 = Ok (d1, n1) /\ close_finished lab_instant d1 = Ok (d2, n2)
    /\ db_requests d2 = map (fun r => if is_stale (ttl_cutoff lab_instant 900) r
        then set_finished STATUS_EXPIRED (iso_text lab_instant) ("Not picked up within " +:+ str_of_int 900 +:+ "s.") r
        else close_row (iso_text lab_instant) lab_db2 r) (db_requests lab_db2)
    /\ Forall (fun r => is_stale (ttl_cutoff lab_instant 900) r = false /\ finished_run d2 r = None) (db_requests d2).
Proof. apply (sweep_closes_what_ended lab_instant 900 lab_db2), lab_db2_ok. Defined.
