(* ===== verification/StoreOutage.v ===== *)
(** * [lib/store_outage.py]: which store failures are waited out, and for how long.

    An exception is an object of a heap: [__cause__] and [__context__] are addresses, so a
    chain may loop.  A value of [args] that is not a dict is any other [pyval]. *)

From S2P Require Import Prelude Py.

Definition TRANSIENT_SQLSTATES : list string :=
  ["08000"; "08001"; "08003"; "08004"; "08006"; "08007"; "08P01"; "57P01"; "57P02"; "57P03";
   "53000"; "53100"; "53200"; "53300"].
Definition TRANSIENT_PHRASES : list string :=
  ["network error"; "connection is closed"; "connection already closed"; "server closed the connection";
   "the database system is starting up"; "the database system is in recovery mode";
   "the database system is shutting down"; "connection reset"; "connection refused";
   "connection aborted"; "broken pipe"; "no route to host"; "timed out"; "timeout expired";
   "can't create a connection to host"].
Definition BUDGET_SECONDS : Z := 6 * 60 * 60.
Definition MAX_WAIT_SECONDS : Z := 30.

(** [ex_sqlstate] and [ex_pgcode] are [None] where the attribute is missing. *)
Record Exc := {
  ex_type : string; ex_text : string; ex_sqlstate : pyval; ex_pgcode : pyval;
  ex_args : list pyval; ex_cause : option nat; ex_context : option nat }.
Definition Heap : Type := list Exc.
(** An exception somebody caught: its heap, and where it is. *)
Record Raised := { ra_heap : Heap; ra_at : nat }.

(** ** [sqlstate] *)
(** [isinstance(v, str) and v.strip()] *)
Definition stated_code (v : pyval) : option string :=
  match v with
  | PStr s => if String.eqb (strip s) "" then None else Some (strip s)
  | _ => None
  end.
Definition arg_code (v : pyval) : option string :=
  match v with PDict d => stated_code (py_or (get d "C") (get d "code")) | _ => None end.
Fixpoint first_code (args : list pyval) : option string :=
  match args with
  | [] => None
  | v :: args => match arg_code v with Some c => Some c | None => first_code args end
  end.
Definition code_of (e : Exc) : option string :=
  match stated_code (py_or (ex_sqlstate e) (ex_pgcode e)) with
  | Some c => Some c
  | None => first_code (ex_args e)
  end.
(** [current.__cause__ or current.__context__] *)
Definition next_exc (e : Exc) : option nat :=
  match ex_cause e with Some c => Some c | None => ex_context e end.
(** The [while] loop; [None] is out of fuel. *)
Fixpoint walk (fuel : nat) (h : Heap) (seen : list nat) (current : option nat) : option string :=
  match fuel, current with
  | O, _ => None
  | _, None => Some ""
  | S fuel, Some a =>
      if bool_decide (a ∈ seen) then Some ""
      else match h !! a with
           | None => Some ""
           | Some e => match code_of e with
                       | Some c => Some c
                       | None => walk fuel h (seen ++ [a]) (next_exc e)
                       end
           end
  end.
Definition walk_fuel (h : Heap) : nat := S (S (length h)).
Definition sqlstate (r : Raised) : option string := walk (walk_fuel (ra_heap r)) (ra_heap r) [] (Some (ra_at r)).

Definition is_transient (r : Raised) : bool :=
  let code := default "" (sqlstate r) in
  if negb (String.eqb code "") then bool_decide (code ∈ TRANSIENT_SQLSTATES)
  else match ra_heap r !! ra_at r with
       | Some e => let text := lower (ex_type e +:+ ": " +:+ ex_text e) in
                   existsb (fun phrase => contains phrase text) TRANSIENT_PHRASES
       | None => false
       end.

(** ** [OutageWaiter] *)
Record OutageWaiter := { ow_budget : Z; ow_max_wait : Z; ow_attempts : Z; ow_waited : Z }.
Definition fresh_waiter : OutageWaiter := Build_OutageWaiter BUDGET_SECONDS MAX_WAIT_SECONDS 0 0.
Definition wait_for (error : Raised) (w : OutageWaiter) : option Z * OutageWaiter :=
  if negb (is_transient error) then (None, w)
  else
    let remaining := ow_budget w - ow_waited w in
    if remaining <=? 0 then (None, w)
    else
      let attempts := ow_attempts w + 1 in
      let wait := Z.min (Z.min (ow_max_wait w) (2 ^ attempts)) remaining in
      (Some wait, Build_OutageWaiter (ow_budget w) (ow_max_wait w) attempts (ow_waited w + wait)).
Definition recovered (w : OutageWaiter) : OutageWaiter := Build_OutageWaiter (ow_budget w) (ow_max_wait w) 0 0.

(** The loop of the daemon over one outage: failed passes in a row, until one is let out.
    The waits taken, and the error let out, if any. *)
Fixpoint outage (w : OutageWaiter) (errors : list Raised) : list Z * OutageWaiter * option Raised :=
  match errors with
  | [] => ([], w, None)
  | e :: errors =>
      match wait_for e w with
      | (None, w) => ([], w, Some e)
      | (Some s, w) => let '(waits, w, out) := outage w errors in (s :: waits, w, out)
      end
  end.

(** ** The walk ends, whatever the chain *)
Definition step (h : Heap) (a : nat) : option nat := h !! a ≫= next_exc.
(** The exception [n] links down. *)
Fixpoint follow (h : Heap) (n : nat) (a : nat) : option nat :=
  match n with O => Some a | S n => step h a ≫= follow h n end.
Definition silent (h : Heap) (a : nat) : Prop := forall e, h !! a = Some e -> code_of e = None.

Lemma follow_closed h (P : nat -> Prop) : (forall x y, P x -> step h x = Some y -> P y) ->
  forall n a b, P a -> follow h n a = Some b -> P b.
Proof.
  intros HP n. induction n as [|n IH]; cbn; intros a b Ha; [by intros [= <-]|].
  intros (c & Hc & Hf)%bind_Some. eauto.
Qed.
(** What is behind the walk: distinct addresses, none with a code, closed but for [current]. *)
Definition behind (h : Heap) (seen : list nat) (current : option nat) : Prop :=
  NoDup seen /\ (forall x, x ∈ seen -> (x < length h)%nat /\ silent h x)
  /\ (forall x y, x ∈ seen -> step h x = Some y -> y ∈ seen \/ current = Some y).
Lemma behind_length h seen c : behind h seen c -> (length seen <= length h)%nat.
Proof.
  intros (Hnd & Hlt & _). rewrite <-(length_seq (length h) 0).
  apply submseteq_length, NoDup_submseteq; [done|].
  intros x Hx. apply elem_of_seq. destruct (Hlt x Hx). cbn. lia.
Qed.
Lemma behind_snoc h seen a e : behind h seen (Some a) -> a ∉ seen -> h !! a = Some e -> code_of e = None ->
  behind h (seen ++ [a]) (next_exc e).
Proof.
  intros (Hnd & Hlt & Hcl) Ha He Hc. split_and!.
  - apply list.NoDup_app. split_and!; [done| |apply NoDup_singleton].
    intros x Hx ->%list_elem_of_singleton. done.
  - intros x [Hx| ->%list_elem_of_singleton]%elem_of_app; [auto|].
    split; [by apply lookup_lt_Some in He|]. intros e' He'. congruence.
  - intros x y [Hx| ->%list_elem_of_singleton]%elem_of_app Hs.
    + left. apply elem_of_app. destruct (Hcl x y Hx Hs) as [?|[= ->]]; [by left|]. right. by left.
    + right. unfold step in Hs. rewrite He in Hs. done.
Qed.
Lemma walk_spec h fuel seen a :
  behind h seen (Some a) -> (S (length h) < fuel + length seen)%nat ->
  exists s, walk fuel h seen (Some a) = Some s
    /\ ((exists n b e, follow h n a = Some b /\ h !! b = Some e /\ code_of e = Some s
          /\ forall m c, (m < n)%nat -> follow h m a = Some c -> silent h c)
        \/ s = "" /\ forall n b, follow h n a = Some b -> silent h b).
Proof.
  revert seen a. induction fuel as [|fuel IH]; intros seen a Hb Hf.
  { pose proof (behind_length _ _ _ Hb). lia. }
  cbn [walk]. case_bool_decide as Hin.
  - exists "". split; [done|]. right. split; [done|]. intros n b Hfol.
    destruct Hb as (_ & Hlt & Hcl).
    assert (b ∈ seen) as Hbs; [|by apply Hlt].
    eapply (follow_closed h (fun x => x ∈ seen)); [|exact Hin|exact Hfol].
    intros x y Hx Hs. by destruct (Hcl x y Hx Hs) as [?|[= <-]].
  - destruct (h !! a) as [e|] eqn:He.
    2: { exists "". split; [done|]. right. split; [done|]. intros [|n] b; cbn [follow].
         - intros [= <-] e. by rewrite He.
         - unfold step. by rewrite He. }
    destruct (code_of e) as [c|] eqn:Hc.
    { exists c. split; [done|]. left. exists 0%nat, a, e. split_and!; try done. intros; lia. }
    assert (Hsil : silent h a) by (intros e'; rewrite He; congruence).
    pose proof (behind_snoc _ _ _ _ Hb Hin He Hc) as Hb'.
    assert (Hfol : forall n, follow h (S n) a = next_exc e ≫= follow h n).
    { intros n. cbn [follow]. unfold step. by rewrite He. }
    destruct (next_exc e) as [a'|] eqn:Hn.
    2: { pose proof (behind_length _ _ _ Hb') as Hl. rewrite length_app in Hl. cbn [length] in Hl.
         destruct fuel as [|fuel]; [lia|]. exists "". split; [done|]. right. split; [done|].
         intros [|n] b; [by intros [= <-]|]. by rewrite Hfol. }
    destruct (IH (seen ++ [a]) a' Hb') as (s & Hw & Hs); [rewrite length_app; cbn; lia|].
    exists s. split; [done|]. destruct Hs as [(n & b & e' & Hfb & Hhb & Hcb & Hall)|[-> Hall]].
    + left. exists (S n), b, e'. split_and!; [by rewrite Hfol|done|done|].
      intros [|m] c Hm; [by intros [= <-]|]. rewrite Hfol. apply Hall. lia.
    + right. split; [done|]. intros [|n] b; [by intros [= <-]|]. rewrite Hfol. apply Hall.
Qed.

(** Reading the SQLSTATE ends on every chain of exceptions, a cyclic one included, and
    returns the code of the first exception of the chain that carries one, or the empty text if
    none does. *)
Lemma sqlstate_first_code r :
  let h := ra_heap r in
  exists s, sqlstate r = Some s
    /\ ((exists n b e, follow h n (ra_at r) = Some b /\ h !! b = Some e /\ code_of e = Some s
          /\ forall m c, (m < n)%nat -> follow h m (ra_at r) = Some c -> silent h c)
        \/ s = "" /\ forall n b, follow h n (ra_at r) = Some b -> silent h b).
Proof.
  cbn zeta. apply walk_spec; [|cbn; unfold walk_fuel; lia].
  split_and!; [constructor|intros x []%not_elem_of_nil|intros x y []%not_elem_of_nil].
Qed.

(** ** One outage *)
Definition sum (l : list Z) : Z := foldr Z.add 0 l.
Lemma wait_for_some e w s w' : wait_for e w = (Some s, w') -> 0 < ow_max_wait w -> 0 <= ow_attempts w ->
  is_transient e = true /\ 1 <= s <= ow_max_wait w /\ s <= ow_budget w - ow_waited w
  /\ w' = Build_OutageWaiter (ow_budget w) (ow_max_wait w) (ow_attempts w + 1) (ow_waited w + s).
Proof.
  unfold wait_for. destruct (is_transient e); [|done]. cbn.
  destruct (Z.leb_spec (ow_budget w - ow_waited w) 0); [done|]. intros [= <- <-] Hm Ha.
  pose proof (Z.pow_pos_nonneg 2 (ow_attempts w + 1)). split_and!; try done; lia.
Qed.
Lemma wait_for_none e w w' : wait_for e w = (None, w') ->
  w' = w /\ (is_transient e = false \/ ow_budget w <= ow_waited w).
Proof.
  unfold wait_for. destruct (is_transient e); cbn; [|intros [= <-]; auto].
  destruct (Z.leb_spec (ow_budget w - ow_waited w) 0); [|done]. intros [= <-]. split; [done|]. right. lia.
Qed.
Lemma outage_budget errors w waits w' out :
  outage w errors = (waits, w', out) -> 0 < ow_max_wait w -> 0 <= ow_attempts w -> ow_waited w <= ow_budget w ->
  Forall (fun s => 1 <= s <= ow_max_wait w) waits
  /\ ow_waited w + sum waits <= ow_budget w
  /\ (forall e, out = Some e -> is_transient e = false \/ ow_waited w + sum waits = ow_budget w)
  /\ (out = None -> length waits = length errors).
Proof.
  revert w waits. induction errors as [|e errors IH]; intros w waits; cbn.
  { intros [= <- _ <-] ???. change (sum []) with 0. split_and!; [constructor|lia|done|done]. }
  destruct (wait_for e w) as [[s|] w1] eqn:Hw.
  - destruct (outage w1 errors) as [[ws w2] o] eqn:Ho. intros [= <- <- <-] Hm Ha Hle.
    destruct (wait_for_some _ _ _ _ Hw Hm Ha) as (_ & Hs & Hrem & ->).
    apply IH in Ho; cbn [ow_budget ow_max_wait ow_attempts ow_waited] in *; [|lia..].
    destruct Ho as (Hf & Hb & Ht & Hl).
    change (sum (s :: ws)) with (s + sum ws). cbn [length]. split_and!; [constructor; [lia|done]|lia|intros x Hx; destruct (Ht x Hx); [by left|right; lia]|].
    intros Hx. by rewrite Hl.
  - intros [= <- _ <-] Hm Ha Hle. destruct (wait_for_none _ _ _ Hw) as [-> Hc].
    change (sum []) with 0.
    split_and!; [constructor|lia| |done]. intros x [= <-]. destruct Hc; [by left|right; lia].
Qed.
Lemma sum_length (waits : list Z) : Forall (fun s => 1 <= s) waits -> Z.of_nat (length waits) <= sum waits.
Proof. induction 1 as [|s l Hs _ IH]; [done|]. change (sum (s :: l)) with (s + sum l). cbn [length]. lia. Qed.

(** One outage is waited out in steps of at least a second and at most the cap, never
    beyond the budget; a transient error is let out only when exactly the whole budget is spent,
    and it is let out after at most that many failures. *)
Lemma outage_waits_exactly_the_budget w errors waits w' out :
  0 < ow_max_wait w -> 0 <= ow_budget w ->
  outage (recovered w) errors = (waits, w', out) ->
  Forall (fun s => 1 <= s <= ow_max_wait w) waits
  /\ sum waits <= ow_budget w /\ Z.of_nat (length waits) <= ow_budget w
  /\ (forall e, out = Some e -> is_transient e = false \/ sum waits = ow_budget w)
  /\ (ow_budget w < Z.of_nat (length errors) -> is_Some out).
Proof.
  intros Hm Hb Ho. apply outage_budget in Ho; cbn in *; [|lia..].
  destruct Ho as (Hf & Hsum & Ht & Hlen).
  assert (Hn : Z.of_nat (length waits) <= sum waits).
  { apply sum_length. eapply list.Forall_impl; [exact Hf|]. cbn. lia. }
  split_and!; [done|lia|lia| |].
  - intros e He. destruct (Ht e He); [by left|right; lia].
  - intros Hl. destruct out; [by eexists|]. specialize (Hlen eq_refl). lia.
Qed.

Definition starting_up : Raised :=
  Build_Raised
    [Build_Exc "PostgresStoreError" "Could not connect to store" PNone PNone
       [PStr "Could not connect to store"] (Some 1%nat) (Some 1%nat);
     Build_Exc "DatabaseError" "" PNone PNone
       [PDict [("S", PStr "FATAL"); ("C", PStr "57P03"); ("M", PStr "the database system is starting up")]]
       None (Some 0%nat)] 0.
(** Six hours are 4 + 719 waits, and the next failure is let out. *)
Example six_hours_of_waits :
  let '(waits, _, out) := outage fresh_waiter (repeat starting_up 724) in
  length waits = 723%nat /\ take 6 waits = [2; 4; 8; 16; 30; 30] /\ sum waits = BUDGET_SECONDS /\ out = Some starting_up.
Proof. vm_compute. repeat split. Qed.
Lemma outage_waits_exactly_the_budget_witness :
  let w := fresh_waiter in
  exists waits w' out, outage (recovered w) (repeat starting_up 5) = (waits, w', out)
  /\ Forall (fun s => 1 <= s <= ow_max_wait w) waits
  /\ sum waits <= ow_budget w /\ Z.of_nat (length waits) <= ow_budget w
  /\ (forall e, out = Some e -> is_transient e = false \/ sum waits = ow_budget w)
  /\ (ow_budget w < Z.of_nat (length (repeat starting_up 5)) -> is_Some out).
Proof.
  eexists _, _, _. split; [vm_compute; reflexivity|].
  eapply (outage_waits_exactly_the_budget fresh_waiter (repeat starting_up 5)); [done|done|vm_compute; reflexivity].
Defined.
