(* ===== verification/AppCommands.v ===== *)
(** * App commands: [jobs/daemon.py] (the record and its loader), [lib/node_role.py],
    [logging_ops/writer.py] (the scope check).

    The JSON text of [app_commands.json] is read by [json]; here it is the object read. *)

From S2P Require Import Prelude Py PyTime TimeWindow RunMode Store.

(** ** [lib/node_role.py] *)
Definition EVERY_NODE : list string := ["all"; "both"; "any"].
Definition DEFAULT_NODE_ROLE : string := "master".
Definition runs_on (command_role node_role : option string) (dflt : string) : bool :=
  let role := lower (strip (default "" command_role)) in
  let role := if String.eqb role "" then lower (strip dflt) else role in
  if bool_decide (role ∈ EVERY_NODE) then true
  else let node := lower (strip (default "" node_role)) in
       String.eqb role (if String.eqb node "" then DEFAULT_NODE_ROLE else node).

(** ** [AppCommand] *)
Record AppCommand := {
  ac_id : string; ac_code : string; ac_name : string; ac_display_name : string;
  ac_log_scope : string; ac_working_dir : string; ac_command_text : string;
  ac_time_window : TimeWindow; ac_active : bool; ac_node_role : string; ac_run_mode : RunMode }.
Definition repeat_interval_seconds (c : AppCommand) : option Z := tw_repeat_interval (ac_time_window c).
Definition retry_interval_seconds (c : AppCommand) : Z := default 60 (tw_retry_interval (ac_time_window c)).
Definition timeout_seconds (c : AppCommand) : Z := default 300 (tw_timeout (ac_time_window c)).
Definition timeout_disabled (c : AppCommand) : bool := bool_decide (tw_timeout (ac_time_window c) = Some 0).
Definition _command_runs_on_node (c : AppCommand) (node_role : string) : bool :=
  runs_on (Some (ac_node_role c)) (Some node_role) "all".

(** ** [load_app_commands] *)
Inductive load_error : Type :=
| NotIterable                                   (* the value of [app_commands] *)
| NotAnItem                                     (* an element that is no object *)
| IdMissing
| WindowRefused (e : tw_error)
| ScopeRefused (app_command_id : string)
| ModeRefused (e : run_mode_error).
Definition lift_error {E F A} (f : E -> F) (m : result E A) : result F A := result_catch m (fun e => Err (f e)).

Definition INVALID_SCOPE_CHARS : string := "/\:*?<>|" +:+ String (chr 34) "".
Definition validate_log_scope (log_scope : string) : option string :=
  let clean := strip log_scope in
  if String.eqb clean "" then None
  else if existsb (fun c => existsb (Ascii.eqb c) (chars INVALID_SCOPE_CHARS)) (chars clean) then None
  else Some clean.
Definition validate_app_command_log_scope (item : pydict) : result load_error string :=
  match validate_log_scope (str (py_or (get item "log_scope") (PStr ""))) with
  | Some s => Ok s
  | None => Err (ScopeRefused (str (default (PStr "<missing>") (assoc "app_command_id" item))))
  end.
Definition WINDOW_DEFAULTS : pydict :=
  [("from_day", PInt 1); ("to_day", PInt 31); ("from_hour", PInt 0); ("to_hour", PInt 23);
   ("retry_interval", PInt 60); ("timeout", PInt 300)].
Definition load_item (item : pyval) : result load_error AppCommand :=
  match item with
  | PDict d =>
      match assoc "app_command_id" d with
      | None => Err IdMissing
      | Some raw =>
          let id := str raw in
          w ← lift_error WindowRefused (parse_time_window_config ("app_commands." +:+ id) WINDOW_DEFAULTS d);
          scope ← validate_app_command_log_scope d;
          mode ← lift_error ModeRefused (parse (Some d));
          let role := lower (strip (str (default (PStr "all") (assoc "node_role" d)))) in
          Ok {| ac_id := id; ac_code := str (py_or (get d "app_code") raw);
                ac_name := str (py_or (get d "app_name") (py_or (get d "app_code") raw));
                ac_display_name := str (py_or (get d "display_name") (py_or (get d "command_name")
                  (py_or (get d "app_name") raw)));
                ac_log_scope := scope;
                ac_working_dir := str (default (PStr "") (assoc "working_dir" d));
                ac_command_text := str (default (PStr "") (assoc "command_text" d));
                ac_time_window := ptw_window w;
                ac_active := truthy (default (PBool true) (assoc "active" d));
                ac_node_role := if String.eqb role "" then "all" else role;
                ac_run_mode := mode |}
      end
  | _ => Err NotAnItem
  end.
(** What a [for] loop over the value meets; characters and keys are no items. *)
Definition elements (v : pyval) : result load_error (list pyval) :=
  match v with
  | PList l => Ok l
  | PDict d => Ok (map (fun p => PStr p.1) d)
  | PStr s => Ok (map (fun c => PStr (text [c])) (chars s))
  | _ => Err NotIterable
  end.
Definition load_app_commands (data : pydict) : result load_error (list (string * AppCommand)) :=
  items ← elements (default (PList []) (assoc "app_commands" data));
  commands ← foldM (fun acc item => c ← load_item item; Ok (acc ++ [c])) [] items;
  Ok (fold_left (fun m c => assoc_set (ac_id c) c m) commands []).

(** ** Rows and schedule of a command *)
Definition app_command_metadata (c : AppCommand) (extra : pydict) : pydict :=
  update_dict [("scope", PStr (ac_log_scope c)); ("app_command_id", PStr (ac_id c));
    ("app_code", PStr (ac_code c)); ("app_name", PStr (ac_name c));
    ("display_name", PStr (ac_display_name c)); ("command_text", PStr (ac_command_text c));
    ("retry_interval_seconds", PInt (retry_interval_seconds c));
    ("timeout_seconds", PInt (timeout_seconds c))] extra.
Definition app_command_due (c : AppCommand) (latest : option JobRow) (now : Z) : DueVerdict :=
  due_from_row (Some (ac_time_window c)) (row_dict <$> latest) now None
    {| dd_retry := Some 60; dd_timeout := Some 300; dd_repeat := None;
       dd_running_blocks := negb (is_async (ac_run_mode c)) |}.
Definition app_command_is_due (c : AppCommand) (latest : option JobRow) (now : Z) : bool :=
  dv_due (app_command_due c latest now).
Definition app_command_in_schedule_window (c : AppCommand) (local : wall) : bool :=
  is_time_window_open (Some (ac_time_window c)) local.

(** ** What the loader returns *)
Definition command_ok (c : AppCommand) : Prop :=
  window_wf (ac_time_window c) /\ run_mode_ok (ac_run_mode c) /\ ac_log_scope c <> "" /\ ac_node_role c <> "".
Lemma lift_error_ok {E F A} (f : E -> F) (m : result E A) a : lift_error f m = Ok a -> m = Ok a.
Proof. destruct m; cbn; [by intros [= ->]|discriminate]. Qed.
Lemma scope_ok d s : validate_app_command_log_scope d = Ok s -> s <> "".
Proof.
  unfold validate_app_command_log_scope, validate_log_scope. cbv zeta.
  destruct (String.eqb (strip _) "") eqn:E; [done|]. destruct (existsb _ _); [done|].
  intros [= <-]. by apply String.eqb_neq.
Qed.
Lemma load_item_ok v c : load_item v = Ok c -> command_ok c.
Proof.
  destruct v as [| | | | | |d]; try done. cbn [load_item].
  destruct (assoc "app_command_id" d) as [raw|]; [|done]. cbv zeta.
  intros (w & Hw%lift_error_ok & H)%result_bind_ok.
  apply result_bind_ok in H as (scope & Hs & H). apply result_bind_ok in H as (m & Hm%lift_error_ok & [= <-]).
  unfold command_ok. cbn [ac_time_window ac_run_mode ac_log_scope ac_node_role].
  split_and!; [by eapply parse_window_wf|by eapply parse_run_mode_ok|by eapply scope_ok|].
  destruct (String.eqb _ "") eqn:E; [done|]. by apply String.eqb_neq.
Qed.
Definition keyed_ok (m : list (string * AppCommand)) : Prop :=
  NoDup (map fst m) /\ Forall (fun p => p.1 = ac_id p.2 /\ command_ok p.2) m.
Lemma by_id_ok l : Forall command_ok l -> forall m, keyed_ok m ->
  keyed_ok (fold_left (fun m c => assoc_set (ac_id c) c m) l m).
Proof.
  induction 1 as [|c l Hc _ IH]; intros m [Hnd Hm]; [done|]. apply IH. split.
  - by apply assoc_set_NoDup.
  - by apply assoc_set_Forall.
Qed.

Lemma load_commands_keyed data commands : load_app_commands data = Ok commands -> keyed_ok commands.
Proof.
  intros (items & _ & (l & Hl & [= <-])%result_bind_ok)%result_bind_ok.
  apply (by_id_ok l); [|split; constructor].
  revert Hl. apply (foldM_inv (Forall command_ok)); [|constructor].
  intros acc v acc' Hacc (c & Hc & [= <-])%result_bind_ok.
  apply list.Forall_app. split; [done|]. by eapply list.Forall_singleton, load_item_ok.
Qed.
(** Every command the loader returns is keyed by its own id, once, with a well-formed
    window, a run mode within its limits, a log scope and a node role. *)
Lemma load_app_commands_ok data commands :
  load_app_commands data = Ok commands ->
  NoDup (map fst commands) /\ Forall (fun p => p.1 = ac_id p.2 /\ command_ok p.2) commands.
Proof. apply load_commands_keyed. Qed.

Definition lab_item : pyval :=
  PDict [("app_command_id", PStr "APP-METRICS"); ("log_scope", PStr " metrics "); ("node_role", PStr " Worker ");
         ("command_text", PStr "python -m dbabrain.metrics"); ("time_window", PDict [("repeat_interval", PInt 60)])].
Lemma load_app_commands_ok_witness :
  exists commands, load_app_commands [("app_commands", PList [lab_item])] = Ok commands
  /\ NoDup (map fst commands) /\ Forall (fun p => p.1 = ac_id p.2 /\ command_ok p.2) commands.
Proof.
  eexists. split; [vm_compute; reflexivity|].
  apply (load_app_commands_ok [("app_commands", PList [lab_item])]). vm_compute. reflexivity.
Defined.
