(* ===== verification/Daemon.v ===== *)
(** * [jobs/daemon.py]: the scan that starts app commands, and what it does when things go wrong.

    An operation is a function of the [World] (the store, the daemon's table of running
    commands, the processes it has started) that ends in a value or in an exception; the
    world keeps what was done before the exception.  What a scan asks of the machine - the
    clock, the file of commands, a child's exit, whether a stop ends one, whether a store call gets
    through - is its
    environment [Env]: one scan reads one clock.  Log lines, output files and the child's
    environment variables are left out; writing them is taken not to raise. *)

From S2P Require Import Prelude Py PyTime TimeWindow RunMode RunClaim Store RunRequests StoreOutage AppCommands.
From Stdlib Require Import SpecFloat.

(** ** Exceptions *)
Inductive daemon_exn : Type :=
| Caught (operational : bool) (e : Raised)     (* whether it is an [sqlite3.OperationalError] *)
| StoreRefused (e : store_error)
| ConfigRefused (e : load_error)
| PyRaised (e : pyexn).
Definition is_locked (operational : bool) (e : Raised) : bool :=
  operational && match ra_heap e !! ra_at e with
                 | Some x => contains "database is locked" (lower (ex_text x))
                 | None => false
                 end.
Definition _is_store_trouble (e : daemon_exn) : bool :=
  match e with Caught op e => is_locked op e || is_transient e | _ => false end.

(** ** State *)
Record RunningAppCommand := {
  rc_command : AppCommand; rc_pid : Z; rc_started_at : Z; rc_log_id : Z;
  rc_run_request_id : option Z; rc_requested_by : string }.
(** [w_procs]: the children started and not yet seen to have ended, with their app command;
    [w_outlived]: those of them the daemon has tried to stop, and that are still there. *)
Record World := {
  w_db : Db; w_running : list (string * RunningAppCommand); w_procs : list (Z * string);
  w_last_swept_at : Z; w_outlived : list (Z * string) }.
Definition live (w : World) : list (Z * string) := w_procs w ++ w_outlived w.
Definition set_db (d : Db) (w : World) : World :=
  Build_World d (w_running w) (w_procs w) (w_last_swept_at w) (w_outlived w).
Definition set_running (l : list (string * RunningAppCommand)) (w : World) : World :=
  Build_World (w_db w) l (w_procs w) (w_last_swept_at w) (w_outlived w).
Definition set_procs (l : list (Z * string)) (w : World) : World :=
  Build_World (w_db w) (w_running w) l (w_last_swept_at w) (w_outlived w).
Definition set_outlived (l : list (Z * string)) (w : World) : World :=
  Build_World (w_db w) (w_running w) (w_procs w) (w_last_swept_at w) l.

(** The calls on the store that can fail by themselves. *)
Inductive store_op : Type :=
| OpUpdate (log_id : Z) | OpInsert (app : string) | OpStartFailure (app : string) | OpLatest | OpRunning
| OpExpire | OpClose | OpOpen | OpClaim (app : string) | OpMarkStarted (id : Z) | OpFinish (id : Z)
| OpRelease (id : Z) | OpArchive.

Record Env := {
  ev_now : Z; ev_monotonic : Z; ev_local : wall; ev_process : Process;
  ev_node_role : string; ev_single_pass : bool;
  ev_file : result daemon_exn pydict;               (* app_commands.json, read *)
  ev_poll : Z -> option Z;                          (* the exit code of a child that has ended *)
  ev_stops : Z -> bool;                             (* whether stopping the child's tree ends it *)
  ev_stopped_code : Z -> pyval;                     (* returncode of a child that was stopped *)
  ev_output : Z -> string * string;                 (* its stderr and stdout *)
  ev_spawn : AppCommand -> result daemon_exn Z;     (* Popen: the pid *)
  ev_working_dir : AppCommand -> string; ev_sqlite_path : string;
  ev_pid_alive : Z -> option bool;
  ev_down : store_op -> option daemon_exn;          (* what a store call raises, if it gets nowhere *)
  ev_exn_text : daemon_exn -> string }.             (* f"{type(error).__name__}: {error}" *)

(** ** Operations *)
Definition D (A : Type) : Type := World -> World * result daemon_exn A.
Definition d_ret {A} (a : A) : D A := fun w => (w, Ok a).
#[export] Instance d_bind : MBind D := fun A B f m w =>
  match m w with (w, Ok a) => f a w | (w, Err e) => (w, Err e) end.
Definition d_raise {A} (e : daemon_exn) : D A := fun w => (w, Err e).
Definition d_catch {A} (m : D A) (h : daemon_exn -> D A) : D A := fun w =>
  match m w with (w, Err e) => h e w | r => r end.
Definition d_modify (f : World -> World) : D unit := fun w => (f w, Ok tt).
Fixpoint d_each {A} (f : A -> D unit) (l : list A) : D unit :=
  match l with [] => d_ret tt | x :: l => f x;; d_each f l end.
(** [except Exception: ... return dflt] *)
Definition fail_open {A} (m : D A) (dflt : A) : D A := d_catch m (fun _ => d_ret dflt).

Definition running_slot_key (app_command_id : string) (pid : Z) : string :=
  app_command_id +:+ "#" +:+ str_of_int pid.
Definition is_run_of (app_command_id : string) (p : string * RunningAppCommand) : bool :=
  String.eqb (ac_id (rc_command p.2)) app_command_id.
Definition count_in_flight (running : list (string * RunningAppCommand)) (app_command_id : string) : Z :=
  Z.of_nat (length (List.filter (is_run_of app_command_id) running)).
(** [running_commands.pop(key, None)] *)
Definition pop (key : string) (l : list (string * RunningAppCommand)) : list (string * RunningAppCommand) :=
  List.filter (fun p => negb (String.eqb p.1 key)) l.

Definition MAX_OUTPUT_CHARS : nat := 8000.
Definition trim_output (value : string) : string :=
  if (str_len value <=? MAX_OUTPUT_CHARS)%nat then value else str_last MAX_OUTPUT_CHARS value.
Definition FAILED_RUN_ERROR_TEXT_CHARS : nat := 2000.
Definition newline : string := String (chr 10) "".
Definition _failed_run_error_text (returncode : Z) (stderr stdout : string) : string :=
  let detail := if String.eqb (strip stderr) "" then strip stdout else strip stderr in
  let text := "Command exited with return code " +:+ str_of_int returncode +:+ "." in
  if String.eqb detail "" then text
  else
    let tail := str_last FAILED_RUN_ERROR_TEXT_CHARS detail in
    let tail := if (FAILED_RUN_ERROR_TEXT_CHARS <? str_len detail)%nat
      then "...[" +:+ str_of_int (Z.of_nat (str_len detail - FAILED_RUN_ERROR_TEXT_CHARS))
           +:+ " earlier chars omitted]..." +:+ tail
      else tail in
    text +:+ newline +:+ tail.
(** [int((now - started).total_seconds() * 1000)], in binary64. *)
Definition elapsed_ms (now started : Z) : Z :=
  match int_of_float (SFmul 53 1024 (div_double (now - started) usec) (double 1000 0)) with
  | Ok n => n | Err _ => 0 end.
Definition request_metadata (r : RunningAppCommand) : pydict :=
  match rc_run_request_id r with
  | Some i => [("run_request_id", PInt i); ("requested_by", PStr (rc_requested_by r))]
  | None => []
  end.
(** A child is done with: it has ended, or it outlived the stop of its tree. *)
Definition done_with (ended : bool) (pid : Z) (w : World) : World :=
  let rest := set_procs (List.filter (fun p => negb (p.1 =? pid)) (w_procs w)) w in
  if ended then rest else set_outlived (w_outlived w ++ List.filter (fun p => p.1 =? pid) (w_procs w)) rest.
(** It was polled, and has exited. *)
Definition end_process (pid : Z) : D unit := d_modify (done_with true pid).

Section Scan.
Context (E : Env).
#[local] Abbreviation now := (ev_now E).

(** One call on the store: it gets nowhere, it is refused, or it is done. *)
Definition store_call {A} (op : store_op) (f : Db -> result store_error (Db * A)) : D A := fun w =>
  match ev_down E op with
  | Some e => (w, Err e)
  | None => match f (w_db w) with
            | Ok (d, a) => (set_db d w, Ok a)
            | Err e => (w, Err (StoreRefused e))
            end
  end.
Definition no_value (m : Db -> result store_error Db) (d : Db) : result store_error (Db * unit) :=
  (fun d => (d, tt)) <$> m d.
Definition store_read {A} (op : store_op) (f : Db -> A) : D A := store_call op (fun d => Ok (d, f d)).

(** [stop_process_tree], which never raises: SIGTERM, a grace, SIGKILL; a process that hangs in I/O
    is there after it. *)
Definition stop_process (pid : Z) : D unit := d_modify (done_with (ev_stops E pid) pid).

(** ** The queue, through helpers that fail open *)
Definition open_run_requests : D (list (string * Request)) :=
  fail_open (store_read OpOpen (fun d =>
    List.filter (fun p => has_status "pending" p.2) (open_requests d))) [].
Definition claim_run_request (app_command_id : string) : D (option Request) :=
  fail_open (store_call (OpClaim app_command_id) (claim now DEFAULT_REQUEST_TTL_SECONDS app_command_id)) None.
Definition mark_run_request_started (request : Request) (job_run_id : Z) : D unit :=
  fail_open (store_call (OpMarkStarted (rq_id request))
    (no_value (mark_started now (rq_id request) (Some job_run_id)))) tt.
Definition finish_run_request (request_id : Z) (run_status : string) : D unit :=
  fail_open (store_call (OpFinish request_id)
    (no_value (mark_done now request_id ("Run finished with status " +:+ run_status +:+ ".")))) tt.
Definition release_run_request (request : Request) (note : string) : D unit :=
  fail_open (store_call (OpRelease (rq_id request)) (no_value (release (rq_id request) note))) tt.
Definition sweep_run_requests : D unit :=
  fail_open (_ ← store_call OpExpire (expire_stale now DEFAULT_REQUEST_TTL_SECONDS);
             _ ← store_call OpClose (close_finished now); d_ret tt) tt.

(** ** [collect_running_commands] *)
Definition finish_requested (r : RunningAppCommand) (status : string) : D unit :=
  match rc_run_request_id r with Some i => finish_run_request i status | None => d_ret tt end.
Definition reap (key : string) (r : RunningAppCommand) (status level : string) (error_text : option string)
    (elapsed : Z) (returncode : pyval) : D unit :=
  let c := rc_command r in
  _ ← store_call (OpUpdate (rc_log_id r)) (update_job_run (rc_log_id r)
    {| up_finished_at := Some (iso_text now); up_level := level; up_status := status;
       up_message := "App command " +:+ ac_id c +:+ " finished with status " +:+ status +:+ ".";
       up_duration_ms := Some elapsed; up_error_text := error_text;
       up_metadata := app_command_metadata c
         ([("pid", PInt (rc_pid r)); ("returncode", returncode)] ++ request_metadata r) |} false);
  finish_requested r status;;
  d_modify (fun w => set_running (pop key (w_running w)) w).
Definition overran (r : RunningAppCommand) : bool :=
  negb (timeout_disabled (rc_command r)
        || (elapsed_ms now (rc_started_at r) <=? timeout_seconds (rc_command r) * 1000)).
Definition collect_one (p : string * RunningAppCommand) : D unit :=
  let '(key, r) := p in
  let elapsed := elapsed_ms now (rc_started_at r) in
  match ev_poll E (rc_pid r) with
  | None =>
      if negb (overran r) then d_ret tt
      else stop_process (rc_pid r);;
           reap key r "timeout" "error"
             (Some ("Command timed out after " +:+ str_of_int (timeout_seconds (rc_command r)) +:+ " seconds."))
             elapsed (ev_stopped_code E (rc_pid r))
  | Some code =>
      let '(stderr, stdout) := ev_output E (rc_pid r) in
      let failed := negb (code =? 0) in
      end_process (rc_pid r);;
      reap key r (if failed then "error" else "done") (if failed then "error" else "logging")
        (if failed then Some (_failed_run_error_text code (trim_output stderr) (trim_output stdout)) else None)
        elapsed (PInt code)
  end.
Definition collect_running_commands : D unit := fun w => d_each collect_one (w_running w) w.

(** ** [start_app_command] *)
Definition started_run (c : AppCommand) (pid : Z) (run_request : option Request) : JobRun :=
  let requested := match run_request with
    | Some q => [("run_request_id", PInt (rq_id q)); ("requested_by", PStr (rq_requested_by q))]
    | None => [] end in
  {| it_job_code := ac_id c; it_level := "logging"; it_status := "running";
     it_message := "App command " +:+ ac_id c +:+ " started"
       +:+ (match run_request with
            | Some q => " on request from " +:+ (if String.eqb (rq_requested_by q) "" then "the console"
                                                 else rq_requested_by q) +:+ "."
            | None => "." end);
     it_started_at := Some (iso_text now); it_finished_at := None; it_duration_ms := None;
     it_error_text := None; it_host_name := ps_host (ev_process E);
     it_claim_key := if is_async (ac_run_mode c) then None else Some (ac_id c);
     it_metadata := update_dict (app_command_metadata c [("working_dir", PStr (ev_working_dir E c));
       ("pid", PInt pid); ("sqlite_path", PStr (ev_sqlite_path E))]) requested |}.
Definition track (c : AppCommand) (pid log_id : Z) (run_request : option Request) : D unit :=
  d_modify (fun w => set_running (assoc_set (running_slot_key (ac_id c) pid)
    {| rc_command := c; rc_pid := pid; rc_started_at := now; rc_log_id := log_id;
       rc_run_request_id := rq_id <$> run_request;
       rc_requested_by := default "" (rq_requested_by <$> run_request) |} (w_running w)) w).
(** The claim: the row's id, or [None] when somebody else holds the key and the child is stopped. *)
Definition record_start (c : AppCommand) (pid : Z) (run_request : option Request) : D (option Z) :=
  d_catch (log_id ← store_call (OpInsert (ac_id c))
                      (insert_job_run (ev_process E) now (started_run c pid run_request));
           d_ret (Some log_id))
    (fun e => match e with
              | StoreRefused (RunAlreadyClaimed _ _) => stop_process pid;; d_ret None
              | _ => d_raise e
              end).
Definition start_app_command (c : AppCommand) (run_request : option Request) : D unit :=
  match ev_spawn E c with
  | Err e => d_raise e
  | Ok pid =>
      d_modify (fun w => set_procs (w_procs w ++ [(pid, ac_id c)]) w);;
      o ← record_start c pid run_request;
      match o with
      | None => d_ret tt
      | Some log_id =>
          track c pid log_id run_request;;
          match run_request with Some q => mark_run_request_started q log_id | None => d_ret tt end
      end
  end.

(** [str[:4000]], as [str_take]. *)
Definition record_start_failure (c : AppCommand) (error : daemon_exn) : D unit :=
  let now_text := iso_text now in
  _ ← fail_open (store_call (OpStartFailure (ac_id c)) (insert_job_run (ev_process E) now
    {| it_job_code := ac_id c; it_level := "error"; it_status := "error";
       it_message := "App command " +:+ ac_id c +:+ " could not be started.";
       it_started_at := Some now_text; it_finished_at := Some now_text; it_duration_ms := Some 0;
       it_error_text := Some (str_take 4000 ("start failed: " +:+ ev_exn_text E error));
       it_host_name := ps_host (ev_process E); it_claim_key := None;
       it_metadata := app_command_metadata c [("start_failed", PBool true)] |})) 0;
  d_ret tt.

(** ** [run_scheduler_scan] *)
(** Starting, with the handler of the scan around it. *)
Definition try_start (c : AppCommand) (run_request : option Request) : D unit :=
  d_catch (start_app_command c run_request) (fun e =>
    match run_request with
    | Some q => release_run_request q "Start failed; returned to the queue."
    | None => d_ret tt
    end;;
    if _is_store_trouble e then d_raise e else record_start_failure c e).
Definition scan_command (latest_runs : string -> option JobRow) (requests : list (string * Request))
    (c : AppCommand) : D unit := fun w =>
  if ev_single_pass E && timeout_disabled c then (w, Ok tt)
  else if negb (RunMode.may_start (ac_run_mode c) (count_in_flight (w_running w) (ac_id c))) then (w, Ok tt)
  else match assoc (ac_id c) requests with
       | None =>
           if negb (app_command_in_schedule_window c (ev_local E)) then (w, Ok tt)
           else if negb (app_command_is_due c (latest_runs (ac_id c)) now) then (w, Ok tt)
           else try_start c None w
       | Some _ =>
           (q ← claim_run_request (ac_id c);
            match q with None => d_ret tt | Some q => try_start c (Some q) end) w
       end.
Definition load : D (list (string * AppCommand)) :=
  match ev_file E with
  | Err e => d_raise e
  | Ok data => match load_app_commands data with Ok l => d_ret l | Err e => d_raise (ConfigRefused e) end
  end.
Definition active_commands (commands : list (string * AppCommand)) : list AppCommand :=
  List.filter (fun c => ac_active c && _command_runs_on_node c (ev_node_role E)) (map snd commands).
Definition run_scheduler_scan : D unit :=
  collect_running_commands;;
  commands ← load;
  latest_runs ← store_read OpLatest fetch_latest_job_runs_by_job_code;
  sweep_run_requests;;
  requests ← open_run_requests;
  d_each (scan_command latest_runs requests) (active_commands commands).

(** ** Between the scans *)
Definition JOB_RUNS_RETENTION_DAYS : Z := 15.
Definition JOB_RUNS_SWEEP_INTERVAL_SECONDS : Z := 300.
Definition JOB_RUNS_SWEEP_BATCH_SIZE : N := 20000.
Definition JOB_RUNS_SWEEP_MAX_BATCHES : nat := 1.
(** The archive has the fuel it needs ([Store.archive_is_sound]). *)
Definition sweep_job_runs_history : D nat := fun w =>
  if ev_monotonic E - w_last_swept_at w <? seconds JOB_RUNS_SWEEP_INTERVAL_SECONDS then (w, Ok 0%nat)
  else
    let w := Build_World (w_db w) (w_running w) (w_procs w) (ev_monotonic E) (w_outlived w) in
    fail_open (store_call OpArchive (fun d =>
      Ok (default (d, 0%nat) (archive_old_job_runs now JOB_RUNS_RETENTION_DAYS
            (N.to_nat JOB_RUNS_SWEEP_BATCH_SIZE) (Some JOB_RUNS_SWEEP_MAX_BATCHES) d)))) 0%nat w.
Definition daemon_pass : D unit := run_scheduler_scan;; _ ← sweep_job_runs_history; d_ret tt.

End Scan.
(** ** Names of slots *)
Lemma append_hash_inj (l1 l2 d1 d2 : list ascii) h : h ∉ d1 -> h ∉ d2 -> l1 ++ h :: d1 = l2 ++ h :: d2 -> l1 = l2 /\ d1 = d2.
Proof.
  revert l2. induction l1 as [|a l1 IH]; intros [|b l2] H1 H2; cbn; intros [= ]; subst.
  - done.
  - exfalso. apply H1. apply elem_of_app. right. by left.
  - exfalso. apply H2. apply elem_of_app. right. by left.
  - destruct (IH l2) as [-> ->]; done.
Qed.
Lemma hash_not_in_int n : "#"%char ∉ chars (str_of_int n).
Proof.
  assert (Hpos : forall m, 0 <= m -> "#"%char ∉ chars (str_of_int m)).
  { intros m Hm Hin. destruct (str_of_nonneg_digits m Hm) as (ds & Hc & _ & Hd & _).
    rewrite Hc in Hin. rewrite list.Forall_forall in Hd. by apply Hd in Hin. }
  destruct n as [|p|p]; [by apply Hpos|by apply Hpos|].
  change (str_of_int (Zneg p)) with ("-" +:+ str_of_int (Zpos p)). rewrite chars_app.
  intros [Hin%list_elem_of_singleton|Hin]%elem_of_app; [done|]. by apply (Hpos (Zpos p)) in Hin.
Qed.
Lemma slot_key_inj a p a' p' : running_slot_key a p = running_slot_key a' p' -> a = a' /\ p = p'.
Proof.
  unfold running_slot_key. intros H. apply (f_equal chars) in H. rewrite !chars_app in H.
  cbn [chars] in H. cbn [app] in H.
  apply append_hash_inj in H as [Ha Hp]; [|apply hash_not_in_int..].
  split; [by rewrite <-(text_chars a), Ha, text_chars|].
  apply (inj pretty). change (str_of_int p = str_of_int p').
  by rewrite <-(text_chars (str_of_int p)), Hp, text_chars.
Qed.
(** ** What an operation keeps, however it ends *)
Definition keeps {A} (P : World -> Prop) (m : D A) : Prop := forall w w' r, m w = (w', r) -> P w -> P w'.
Lemma keeps_ret {A} P (a : A) : keeps P (d_ret a).
Proof. by intros w w' r [= <- _]. Qed.
Lemma keeps_raise {A} P e : keeps P (d_raise (A := A) e).
Proof. by intros w w' r [= <- _]. Qed.
Lemma keeps_modify P f : (forall w, P w -> P (f w)) -> keeps P (d_modify f).
Proof. intros H w w' r [= <- _]. auto. Qed.
Lemma keeps_bind {A B} P (m : D A) (f : A -> D B) : keeps P m -> (forall a, keeps P (f a)) -> keeps P (m ≫= f).
Proof.
  intros Hm Hf w w' r. unfold mbind, d_bind. destruct (m w) as [w1 [a|e]] eqn:Hw.
  - intros H HP. eapply Hf; [exact H|]. by eapply Hm.
  - intros [= <- _] HP. by eapply Hm.
Qed.
Lemma keeps_catch {A} P (m : D A) h : keeps P m -> (forall e, keeps P (h e)) -> keeps P (d_catch m h).
Proof.
  intros Hm Hh w w' r. unfold d_catch. destruct (m w) as [w1 [a|e]] eqn:Hw.
  - intros [= <- _] HP. by eapply Hm.
  - intros H HP. eapply Hh; [exact H|]. by eapply Hm.
Qed.
Lemma keeps_fail_open {A} P (m : D A) a : keeps P m -> keeps P (fail_open m a).
Proof. intros H. apply keeps_catch; [done|]. intros e. apply keeps_ret. Qed.
Lemma keeps_each {A} P (f : A -> D unit) l : (forall x, x ∈ l -> keeps P (f x)) -> keeps P (d_each f l).
Proof.
  intros H. induction l as [|x l IH]; cbn [d_each]; [apply keeps_ret|].
  apply keeps_bind; [apply H; by left|]. intros _. apply IH. intros y Hy. apply H. by right.
Qed.
(** A property of the store alone that every step of its tables keeps. *)
Lemma keeps_store {A} E P op (f : Db -> result store_error (Db * A)) :
  (forall d w a d', w_db w = d -> f d = Ok (d', a) -> P w -> P (set_db d' w)) -> keeps P (store_call E op f).
Proof.
  intros H w w' r. unfold store_call. destruct (ev_down E op); [by intros [= <- _]|].
  destruct (f (w_db w)) as [[d a]|e] eqn:Hf; intros [= <- _]; [|done]. by eapply H.
Qed.
Create HintDb keeps discriminated.
#[export] Hint Resolve keeps_ret keeps_raise keeps_bind keeps_catch keeps_fail_open keeps_each : keeps.

(** ** The invariant of the daemon *)
Definition run_pids (l : list (string * RunningAppCommand)) : list (Z * string) :=
  map (fun p => (rc_pid p.2, ac_id (rc_command p.2))) l.
(** The table is keyed by slot, and every live child is in it. *)
Definition slots_ok (l : list (string * RunningAppCommand)) : Prop :=
  NoDup (map fst l) /\ Forall (fun p => p.1 = running_slot_key (ac_id (rc_command p.2)) (rc_pid p.2)) l.
Definition daemon_ok (w : World) : Prop :=
  store_ok (w_db w) /\ slots_ok (w_running w)
  /\ NoDup (map fst (w_procs w)) /\ w_procs w ⊆+ run_pids (w_running w).
Lemma store_step_daemon_ok d' w : store_step (w_db w) d' -> daemon_ok w -> daemon_ok (set_db d' w).
Proof. intros Hs [Hok H]. split; [|exact H]. by eapply store_step_ok. Qed.
(** What the daemon asks of the store: an invariant is kept by every step of [RunRequests], so
    that whatever only touches the store keeps it. *)
Class store_blind (P : World -> Prop) : Prop :=
  blind_step : forall w d', store_step (w_db w) d' -> P w -> P (set_db d' w).
Lemma set_db_same w : set_db (w_db w) w = w.
Proof. by destruct w. Qed.
Lemma keeps_step {A} E P op (f : Db -> result store_error (Db * A)) : store_blind P ->
  (forall d d' a, f d = Ok (d', a) -> store_step d d') -> keeps P (store_call E op f).
Proof. intros HP Hf. apply keeps_store. intros d w a d' <- H. apply HP. by eapply Hf. Qed.
Lemma keeps_read {A} E P op (f : Db -> A) : keeps P (store_read E op f).
Proof. apply keeps_store. intros d w a d' <- [= <- _]. by rewrite set_db_same. Qed.
Lemma no_value_ok m d d' u : no_value m d = Ok (d', u) -> m d = Ok d'.
Proof. unfold no_value. intros (x & -> & [= -> _])%fmap_ok. done. Qed.
#[export] Hint Resolve keeps_read : keeps.

Section Blind.
Context (E : Env) (P : World -> Prop) (HP : store_blind P).
Lemma open_keeps : keeps P (open_run_requests E).
Proof. unfold open_run_requests. auto with keeps. Qed.
Lemma claim_keeps a : keeps P (claim_run_request E a).
Proof. apply keeps_fail_open, keeps_step; [done|]. intros d d' o H. by eapply step_claim. Qed.
Lemma mark_keeps q i : keeps P (mark_run_request_started E q i).
Proof. apply keeps_fail_open, keeps_step; [done|]. intros d d' o H%no_value_ok. by eapply step_mark_started. Qed.
Lemma finish_keeps i s : keeps P (finish_run_request E i s).
Proof. apply keeps_fail_open, keeps_step; [done|]. intros d d' o H%no_value_ok. by eapply step_finish. Qed.
Lemma finish_requested_keeps r s : keeps P (finish_requested E r s).
Proof. unfold finish_requested. destruct (rc_run_request_id r); [apply finish_keeps|apply keeps_ret]. Qed.
Lemma release_keeps q n : keeps P (release_run_request E q n).
Proof. apply keeps_fail_open, keeps_step; [done|]. intros d d' o H%no_value_ok. by eapply step_release. Qed.
Lemma sweep_keeps : keeps P (sweep_run_requests E).
Proof.
  apply keeps_fail_open, keeps_bind; [|intros _; apply keeps_bind; [|intros _; apply keeps_ret]];
    apply keeps_step; try done; intros d d' o H; [by eapply step_expire|by eapply step_close].
Qed.
Lemma failure_keeps c e : keeps P (record_start_failure E c e).
Proof.
  apply keeps_bind; [|intros _; apply keeps_ret]. apply keeps_fail_open, keeps_step; [done|].
  intros d d' o H. by eapply step_insert_run.
Qed.
Lemma update_keeps i u op : keeps P (store_call E op (update_job_run i u false)).
Proof. apply keeps_step; [done|]. intros d d' o H. by eapply step_update_run. Qed.
Lemma load_keeps : keeps P (load E).
Proof.
  unfold load. destruct (ev_file E) as [d|e]; [|apply keeps_raise].
  destruct (load_app_commands d); auto with keeps.
Qed.
End Blind.
#[export] Hint Resolve open_keeps claim_keeps mark_keeps finish_keeps finish_requested_keeps release_keeps sweep_keeps failure_keeps
  update_keeps load_keeps : keeps.
(** ** Counting *)
Definition count_procs (procs : list (Z * string)) (app_command_id : string) : Z :=
  Z.of_nat (length (List.filter (fun p => String.eqb p.2 app_command_id) procs)).
Lemma filter_submseteq {A} (p : A -> bool) k l : k ⊆+ l -> List.filter p k ⊆+ List.filter p l.
Proof.
  induction 1 as [|x k l _ IH|x y l|x k l _ IH|k l m _ IH1 _ IH2]; cbn.
  - done.
  - destruct (p x); [by constructor|done].
  - destruct (p x), (p y); first [apply submseteq_swap|reflexivity].
  - destruct (p x); [by constructor|done].
  - by etransitivity.
Qed.
Lemma count_procs_in_flight w a : daemon_ok w -> count_procs (w_procs w) a <= count_in_flight (w_running w) a.
Proof.
  intros (_ & _ & _ & Hsub). unfold count_procs, count_in_flight. apply Nat2Z.inj_le.
  etransitivity; [apply submseteq_length, filter_submseteq, Hsub|].
  clear Hsub. apply Nat.eq_le_incl. unfold run_pids. induction (w_running w) as [|p l IH]; cbn; [done|].
  unfold is_run_of at 1. destruct (String.eqb _ a); cbn; [by f_equal|done].
Qed.
Lemma count_sublist k l a : sublist k l -> count_in_flight k a <= count_in_flight l a.
Proof.
  intros H. unfold count_in_flight. apply Nat2Z.inj_le. induction H as [|x k l _ IH|x k l _ IH]; cbn; [done| |];
    destruct (is_run_of a x); cbn; lia.
Qed.

(** ** Reaping *)
Lemma sublist_filter {A} (p : A -> bool) l : sublist (List.filter p l) l.
Proof. induction l as [|x l IH]; cbn; [done|]. destruct (p x); by constructor. Qed.
Lemma done_parts ended pid w : w_db (done_with ended pid w) = w_db w /\ w_running (done_with ended pid w) = w_running w
  /\ w_procs (done_with ended pid w) = List.filter (fun p => negb (p.1 =? pid)) (w_procs w).
Proof. by destruct ended. Qed.
Lemma procs_without ended pid w : daemon_ok w -> daemon_ok (done_with ended pid w).
Proof.
  intros (Hok & Hs & Hnd & Hsub). unfold daemon_ok. destruct (done_parts ended pid w) as (-> & -> & ->). split_and!; try done.
  - eapply sublist_NoDup; [exact Hnd|apply map_filter_sublist].
  - etransitivity; [apply sublist_submseteq, sublist_filter|done].
Qed.
Definition without (pid : Z) (w : World) : Prop := daemon_ok w /\ pid ∉ map fst (w_procs w).
#[export] Instance without_blind pid : store_blind (without pid).
Proof. intros w d' Hs [Hok Hp]. split; [by apply store_step_daemon_ok|done]. Qed.
#[export] Instance daemon_blind : store_blind daemon_ok.
Proof. intros w d'. apply store_step_daemon_ok. Qed.
#[export] Hint Resolve without_blind daemon_blind : keeps.
Lemma filter_id_on {A} (p : A -> bool) l : (forall x, x ∈ l -> p x = true) -> List.filter p l = l.
Proof.
  induction l as [|x l IH]; intros H; cbn; [done|]. rewrite H by by left. rewrite IH; [done|].
  intros y Hy. apply H. by right.
Qed.
Lemma pop_daemon_ok a pid w :
  without pid w -> daemon_ok (set_running (pop (running_slot_key a pid) (w_running w)) w).
Proof.
  intros [(Hok & [Hk Hf] & Hnd & Hsub) Hp]. split_and!; cbn [w_db w_running w_procs set_running]; try done.
  - split; [eapply sublist_NoDup; [exact Hk|apply map_filter_sublist]|].
    apply list.Forall_forall. intros p [Hin _]%elem_of_filter_bool. rewrite list.Forall_forall in Hf. by apply Hf.
  - apply (filter_submseteq (fun p => negb (p.1 =? pid))) in Hsub.
    rewrite filter_id_on in Hsub.
    2: { intros x Hx. destruct (Z.eqb_spec x.1 pid) as [Heq|]; [|done]. exfalso. apply Hp.
         apply list_elem_of_fmap. by exists x. }
    etransitivity; [exact Hsub|]. apply sublist_submseteq. clear -Hf. unfold run_pids, pop.
    induction Hf as [|p l Hkey _ IH]; cbn; [done|].
    destruct (String.eqb_spec p.1 (running_slot_key a pid)) as [Heq|Hne]; cbn.
    + rewrite Hkey in Heq. apply slot_key_inj in Heq as [_ ->]. rewrite Z.eqb_refl. done.
    + destruct (negb _); cbn; by constructor.
Qed.
Lemma end_then {A} ended pid (m : D A) :
  (forall w w' r, m w = (w', r) -> without pid w -> daemon_ok w') -> keeps daemon_ok (d_modify (done_with ended pid);; m).
Proof.
  intros H w w' r Hm Hok. eapply H; [exact Hm|]. split; [by apply procs_without|].
  destruct (done_parts ended pid w) as (_ & _ & ->). intros (p & -> & [_ Hp]%elem_of_filter_bool)%list_elem_of_fmap. by rewrite Z.eqb_refl in Hp.
Qed.
Lemma reap_ok E key r s l e ms code w w' o : key = running_slot_key (ac_id (rc_command r)) (rc_pid r) ->
  reap E key r s l e ms code w = (w', o) -> without (rc_pid r) w -> daemon_ok w'.
Proof.
  intros -> H Hw. set (key := running_slot_key _ _) in *. unfold reap in H.
  assert (Hfin : keeps (without (rc_pid r)) (finish_requested E r s)) by auto with keeps.
  unfold mbind, d_bind in H. destruct (store_call _ _ _ w) as [w1 [b|x]] eqn:H1.
  - assert (Hw1 : without (rc_pid r) w1) by (eapply update_keeps; [apply without_blind|exact H1|done]).
    destruct (finish_requested E r s w1) as [w2 [u|x]] eqn:H2.
    + assert (Hw2 : without (rc_pid r) w2) by (by eapply Hfin).
      injection H as <- _. by apply pop_daemon_ok.
    + injection H as <- _. by eapply Hfin.
  - injection H as <- _. eapply (update_keeps _ _ (without_blind (rc_pid r))); [exact H1|done].
Qed.
Lemma collect_one_keeps E p : p.1 = running_slot_key (ac_id (rc_command p.2)) (rc_pid p.2) ->
  keeps daemon_ok (collect_one E p).
Proof.
  destruct p as [key r]. cbn [fst snd]. intros Hk. unfold collect_one. cbv zeta.
  destruct (ev_poll E (rc_pid r)) as [code|].
  - destruct (ev_output E (rc_pid r)) as [err out]. apply end_then. intros w w' o. by eapply reap_ok.
  - destruct (negb (overran E r)); [apply keeps_ret|]. apply end_then. intros w w' o. by eapply reap_ok.
Qed.
Lemma collect_daemon_ok E : keeps daemon_ok (collect_running_commands E).
Proof.
  intros w w' r H Hok. pose proof Hok as (_ & [_ Hf] & _).
  assert (Hk : keeps daemon_ok (d_each (collect_one E) (w_running w))).
  { apply keeps_each. intros p Hp. apply collect_one_keeps. rewrite list.Forall_forall in Hf. by apply Hf. }
  by eapply Hk.
Qed.
(** A reap only takes commands off the table, and children off the list. *)
Definition fewer (w0 w : World) : Prop :=
  sublist (w_running w) (w_running w0) /\ sublist (w_procs w) (w_procs w0).
#[export] Instance fewer_blind w0 : store_blind (fewer w0).
Proof. by intros w d'. Qed.
#[export] Hint Resolve fewer_blind : keeps.
Lemma collect_fewer E w0 : keeps (fewer w0) (collect_running_commands E).
Proof.
  intros w w' r. apply (keeps_each (fewer w0)). intros [key x] _.
  assert (Hend : forall ended, keeps (fewer w0) (d_modify (done_with ended (rc_pid x)))).
  { intros ended. apply keeps_modify. intros w1 [H1 H2]. unfold fewer. destruct (done_parts ended (rc_pid x) w1) as (_ & -> & ->).
    split; [done|]. etransitivity; [apply sublist_filter|done]. }
  assert (Hreap : forall s le e ms code, keeps (fewer w0) (reap E key x s le e ms code)).
  { intros. unfold reap. apply keeps_bind; [apply update_keeps, fewer_blind|]. intros _.
    apply keeps_bind; [auto with keeps|]. intros _.
    apply keeps_modify. intros w1 [H1 H2]. split; [|done]. etransitivity; [apply sublist_filter|done]. }
  unfold collect_one. cbv zeta. destruct (ev_poll E (rc_pid x)) as [code|].
  - destruct (ev_output E (rc_pid x)). apply keeps_bind; [apply Hend|done].
  - destruct (negb _); [apply keeps_ret|]. apply keeps_bind; [apply Hend|done].
Qed.
(** ** Starting *)
Lemma started_claims E c pid q d e : NoDup (claims (db_runs d)) ->
  insert_job_run (ev_process E) (ev_now E) (started_run E c pid q) d = Err e ->
  exists code host, e = RunAlreadyClaimed code host.
Proof.
  intros Hnd. unfold insert_job_run. cbv zeta.
  assert (Hpid : _claim_pid (ev_process E) (it_metadata (started_run E c pid q)) = Ok pid).
  { unfold _claim_pid. destruct q; reflexivity. }
  change (String.eqb (lower (strip (it_status (started_run E c pid q)))) "running") with true. cbn [andb].
  change (row_checks (it_level (started_run E c pid q)) (it_duration_ms (started_run E c pid q))) with true.
  cbn [negb]. rewrite Hpid. destruct (clean_key (it_claim_key (started_run E c pid q))) as [k|] eqn:Hk.
  - rewrite !bind_ok. destruct (claims_unique _); [done|]. intros [= <-]. by eexists _, _.
  - rewrite bind_ok. unfold claims_unique. rewrite claims_app.
    rewrite (bool_decide_true (NoDup _)); [done|]. cbn. by rewrite app_nil_r.
Qed.
Definition with_proc (pid : Z) (a : string) (w : World) : World := set_procs (w_procs w ++ [(pid, a)]) w.
(** How a start ends. *)
Inductive start_end (E : Env) (c : AppCommand) (w : World) : World -> result daemon_exn unit -> Prop :=
| not_spawned e : ev_spawn E c = Err e -> start_end E c w w (Err e)
| duplicate pid : ev_spawn E c = Ok pid ->
    start_end E c w (done_with (ev_stops E pid) pid (with_proc pid (ac_id c) w)) (Ok tt)
| running pid d r : ev_spawn E c = Ok pid -> rc_command r = c -> rc_pid r = pid -> rtc store_step (w_db w) d ->
    start_end E c w (Build_World d (assoc_set (running_slot_key (ac_id c) pid) r (w_running w))
      (w_procs w ++ [(pid, ac_id c)]) (w_last_swept_at w) (w_outlived w)) (Ok tt)
| unrecorded pid e : ev_spawn E c = Ok pid ->
    (ev_down E (OpInsert (ac_id c)) = Some e
     \/ exists q se, e = StoreRefused se /\ (forall code host, se <> RunAlreadyClaimed code host)
        /\ insert_job_run (ev_process E) (ev_now E) (started_run E c pid q) (w_db w) = Err se) ->
    start_end E c w (with_proc pid (ac_id c) w) (Err e).
Lemma mark_started_db E q i w w' r : mark_run_request_started E q i w = (w', r) ->
  r = Ok tt /\ exists d, w' = set_db d w /\ rtc store_step (w_db w) d.
Proof.
  unfold mark_run_request_started, fail_open, d_catch, store_call.
  destruct (ev_down E _); [intros [= <- <-]; split; [done|]; exists (w_db w); by rewrite set_db_same|].
  destruct (no_value _ _) as [[d u]|e] eqn:Hm; intros [= <- <-]; (split; [by destruct u || done|]).
  - exists d. split; [done|]. apply rtc_once. eapply step_mark_started. by eapply no_value_ok.
  - exists (w_db w). by rewrite set_db_same.
Qed.
Lemma record_start_cases E c pid q w w' r : record_start E c pid q w = (w', r) ->
  match r with
  | Ok (Some _) => exists d, w' = set_db d w /\ rtc store_step (w_db w) d
  | Ok None => w' = done_with (ev_stops E pid) pid w
  | Err e => w' = w /\ (ev_down E (OpInsert (ac_id c)) = Some e
     \/ exists se, e = StoreRefused se /\ (forall code host, se <> RunAlreadyClaimed code host)
        /\ insert_job_run (ev_process E) (ev_now E) (started_run E c pid q) (w_db w) = Err se)
  end.
Proof.
  unfold record_start, d_catch, mbind, d_bind, store_call, d_raise, d_ret, stop_process, d_modify.
  destruct (ev_down E (OpInsert (ac_id c))) as [e|] eqn:Hd.
  { destruct e as [| [] | |]; intros [= <- <-]; auto. }
  destruct (insert_job_run _ _ _ _) as [[d i]|se] eqn:Hi.
  { intros [= <- <-]. exists d. split; [done|]. apply rtc_once. by eapply step_insert_run. }
  destruct se; intros [= <- <-]; first [done|split; [done|]; right; by eexists].
Qed.
Lemma start_cases E c q w w' r : start_app_command E c q w = (w', r) -> start_end E c w w' r.
Proof.
  unfold start_app_command. destruct (ev_spawn E c) as [pid|e] eqn:Hs; [|by intros [= <- <-]; constructor].
  unfold mbind, d_bind at 1, d_modify. fold (with_proc pid (ac_id c) w).
  unfold d_bind at 1. destruct (record_start E c pid q _) as [w1 [[i|]|e]] eqn:Hr; apply record_start_cases in Hr.
  - destruct Hr as (d & -> & Hst). unfold d_bind at 1, track, d_modify. set (x := Build_RunningAppCommand _ _ _ _ _ _).
    intros H.
    assert (Hm : r = Ok tt /\ exists d', w' = set_db d' (set_running
        (assoc_set (running_slot_key (ac_id c) pid) x (w_running w)) (with_proc pid (ac_id c) w))
        /\ rtc store_step (w_db w) d').
    { destruct q as [q|].
      - apply mark_started_db in H as (-> & d' & -> & Hd'). split; [done|]. exists d'. split; [done|].
        etransitivity; [exact Hst|exact Hd'].
      - injection H as <- <-. split; [done|]. by exists d. }
    destruct Hm as (-> & d' & -> & Hd'). by eapply (running E c w pid d' x).
  - intros [= <- <-]. subst w1. exact (duplicate E c w pid Hs).
  - intros [= <- <-]. destruct Hr as [-> Hr]. eapply unrecorded; [done|].
    destruct Hr as [?|(se & ? & ? & ?)]; [by left|right]. by exists q, se.
Qed.
(** ** What one start adds *)
Definition one_more (c : AppCommand) (a : string) : Z := if String.eqb (ac_id c) a then 1 else 0.
Definition grew (E : Env) (c : AppCommand) (w w' : World) : Prop :=
  daemon_ok w'
  /\ (forall a, count_in_flight (w_running w') a <= count_in_flight (w_running w) a + one_more c a)
  /\ (forall p, p ∈ w_procs w' -> p ∈ w_procs w \/ ev_spawn E c = Ok p.1 /\ p.2 = ac_id c).
#[export] Instance grew_blind E c w : store_blind (grew E c w).
Proof. intros w1 d' Hs (Hok & Hg). split; [by apply store_step_daemon_ok|done]. Qed.
#[export] Hint Resolve grew_blind : keeps.
Lemma grew_refl E c w w' : daemon_ok w' -> w_running w' = w_running w -> w_procs w' = w_procs w -> grew E c w w'.
Proof.
  intros Hok Hr Hp. split_and!; [done| |intros p; rewrite Hp; by left].
  intros a. rewrite Hr. unfold one_more. destruct (String.eqb _ a); lia.
Qed.
Lemma count_app l l' a : count_in_flight (l ++ l') a = count_in_flight l a + count_in_flight l' a.
Proof. unfold count_in_flight. rewrite List.filter_app, length_app. lia. Qed.
Lemma count_cons p l a : count_in_flight (p :: l) a = one_more (rc_command p.2) a + count_in_flight l a.
Proof. unfold count_in_flight, is_run_of, one_more. cbn. destruct (String.eqb _ a); cbn; lia. Qed.
Lemma assoc_set_count c pid x l a : slots_ok l -> rc_command x = c ->
  count_in_flight (assoc_set (running_slot_key (ac_id c) pid) x l) a <= count_in_flight l a + one_more c a.
Proof.
  intros [_ Hf] <-. destruct (assoc_set_cases (running_slot_key (ac_id (rc_command x)) pid) x l)
    as [[_ ->]|(l1 & y & l2 & -> & _ & ->)].
  - rewrite count_app, count_cons. change (count_in_flight [] a) with 0. cbn [snd]. lia.
  - rewrite !count_app, !count_cons. cbn [snd].
    assert (0 <= one_more (rc_command y) a) by (unfold one_more; destruct (String.eqb _ a); lia). lia.
Qed.
Lemma rtc_store_ok d d' : rtc store_step d d' -> store_ok d -> store_ok d'.
Proof. induction 1; eauto using store_step_ok. Qed.
Lemma running_daemon_ok c pid d x w : daemon_ok w -> store_ok d -> rc_command x = c -> rc_pid x = pid ->
  pid ∉ map fst (w_procs w) ->
  daemon_ok (Build_World d (assoc_set (running_slot_key (ac_id c) pid) x (w_running w))
    (w_procs w ++ [(pid, ac_id c)]) (w_last_swept_at w) (w_outlived w)).
Proof.
  intros (_ & [Hk Hf] & Hnd & Hsub) Hd Hc Hp Hfresh.
  assert (Hnd' : NoDup (map fst (w_procs w ++ [(pid, ac_id c)]))).
  { rewrite map_app. apply list.NoDup_app. split_and!; [done| |apply NoDup_singleton].
    intros i Hi ->%list_elem_of_singleton. done. }
  split_and!; cbn [w_db w_running w_procs]; try done.
  - split; [by apply assoc_set_NoDup|]. apply assoc_set_Forall; [done|]. cbn. by subst c pid.
  - apply NoDup_submseteq; [by eapply NoDup_fmap_1|].
    assert (Hin : forall y, y ∈ w_procs w -> y ∈ run_pids (w_running w)) by (intros y Hy; by eapply elem_of_submseteq).
    destruct (assoc_set_cases (running_slot_key (ac_id c) pid) x (w_running w))
      as [[_ ->]|(l1 & y & l2 & Heq & _ & ->)]; intros z Hz; unfold run_pids in *; rewrite map_app;
      apply elem_of_app; apply elem_of_app in Hz as [Hz|Hz%list_elem_of_singleton].
    + left. by apply Hin.
    + right. cbn. rewrite Hz, Hc, Hp. by left.
    + assert (Hy : (running_slot_key (ac_id c) pid, y) ∈ w_running w) by (rewrite Heq; apply elem_of_app; right; by left).
      rewrite list.Forall_forall in Hf. apply Hf in Hy. cbn in Hy. apply slot_key_inj in Hy as [Hyc Hyp].
      apply Hin in Hz. rewrite Heq, map_app in Hz. cbn [map fst snd] in *. rewrite Hc, Hp, Hyc, Hyp.
      by apply elem_of_app in Hz.
    + right. cbn. rewrite Hz, Hc, Hp. by left.
Qed.

(** The operating system does not hand out the pid of a child that is still there, nor one pid twice. *)
Definition pids_fresh (E : Env) (l : list AppCommand) (w : World) : Prop :=
  (forall c pid, c ∈ l -> ev_spawn E c = Ok pid -> pid ∉ map fst (w_procs w))
  /\ (forall c c' pid, c ∈ l -> c' ∈ l -> ev_spawn E c = Ok pid -> ev_spawn E c' = Ok pid -> ac_id c = ac_id c').
(** The store takes the row of every start, or refuses it by its claim index. *)
Definition inserts_answered (E : Env) : Prop := forall a, ev_down E (OpInsert a) = None.

Section Start.
Context (E : Env) (Hup : inserts_answered E).
Lemma start_grew c q w w' r : daemon_ok w -> (forall pid, ev_spawn E c = Ok pid -> pid ∉ map fst (w_procs w)) ->
  start_app_command E c q w = (w', r) -> grew E c w w'.
Proof.
  intros Hok Hfresh H%start_cases.
  destruct H as [e Hs|pid Hs|pid d x Hs Hc Hp Hd|pid e Hs Hi]; [by apply grew_refl| | |].
  - specialize (Hfresh _ Hs).
    assert (Hsame : List.filter (fun p => negb (p.1 =? pid)) (w_procs w ++ [(pid, ac_id c)])
                    = List.filter (fun p => negb (p.1 =? pid)) (w_procs w)).
    { rewrite List.filter_app. cbn. rewrite Z.eqb_refl. cbn. by rewrite app_nil_r. }
    rewrite (filter_id_on _ (w_procs w)) in Hsame.
    + destruct (done_parts (ev_stops E pid) pid (with_proc pid (ac_id c) w)) as (Hd & Hr & Hp). apply grew_refl; [|done|rewrite Hp; exact Hsame].
      unfold daemon_ok. rewrite Hd, Hr, Hp. cbn [with_proc set_procs w_db w_running w_procs]. by rewrite Hsame.
    + intros p Hp. destruct (Z.eqb_spec p.1 pid) as [Heq|]; [|done]. exfalso. apply Hfresh, list_elem_of_fmap. by exists p.
  - split_and!.
    + apply running_daemon_ok; auto. eapply rtc_store_ok; [exact Hd|]. apply Hok.
    + intros a. cbn. apply assoc_set_count; [apply Hok|done].
    + intros p [Hin| ->%list_elem_of_singleton]%elem_of_app; [by left|by right].
  - exfalso. destruct Hi as [Hi|(q' & se & -> & Hne & Hi)]; [by rewrite Hup in Hi|].
    destruct Hok as ((_ & _ & Hcl & _) & _). destruct (started_claims _ _ _ _ _ _ Hcl Hi) as (code & host & ->). by eapply Hne.
Qed.
Lemma try_start_grew c q w w' r : daemon_ok w -> (forall pid, ev_spawn E c = Ok pid -> pid ∉ map fst (w_procs w)) ->
  try_start E c q w = (w', r) -> grew E c w w'.
Proof.
  intros Hok Hfresh. unfold try_start, d_catch. destruct (start_app_command E c q w) as [w1 [u|e]] eqn:Hs;
    apply start_grew in Hs; try done; [by intros [= <- _]|].
  intros H. revert H Hs. apply (keeps_bind (grew E c w)).
  - destruct q; auto with keeps.
  - intros _. destruct (_is_store_trouble e); auto with keeps.
Qed.
Lemma scan_command_grew latest requests c w w' r :
  daemon_ok w -> (forall pid, ev_spawn E c = Ok pid -> pid ∉ map fst (w_procs w)) ->
  scan_command E latest requests c w = (w', r) ->
  w' = w \/ grew E c w w' /\ count_in_flight (w_running w) (ac_id c) < run_limit (ac_run_mode c).
Proof.
  intros Hok Hfresh. unfold scan_command. destruct (_ && _); [intros [= <- _]; by left|].
  destruct (RunMode.may_start _ _) eqn:Hm; cbn [negb]; [|intros [= <- _]; by left].
  apply may_start_limit in Hm; [|unfold count_in_flight; lia].
  destruct (assoc (ac_id c) requests).
  - intros H. right. split; [|done]. revert H. unfold mbind, d_bind.
    destruct (claim_run_request E (ac_id c) w) as [w1 o] eqn:Hc.
    assert (Hw1 : grew E c w w1) by (eapply claim_keeps; [apply grew_blind|exact Hc|by apply grew_refl]).
    assert (Hsame : w_running w1 = w_running w /\ w_procs w1 = w_procs w).
    { eapply (claim_keeps E (fun w1 => w_running w1 = w_running w /\ w_procs w1 = w_procs w)); [|exact Hc|done].
      by intros ???. }
    destruct Hsame as [Hr Hp].
    destruct o as [[q|]|e]; [|by intros [= <- _]..].
    intros H%try_start_grew; [|apply Hw1|by rewrite Hp].
    destruct H as (Hok' & Hcount & Hprocs). rewrite Hr in Hcount. rewrite Hp in Hprocs. done.
  - destruct (negb _); [intros [= <- _]; by left|]. destruct (negb _); [intros [= <- _]; by left|].
    intros H%try_start_grew; auto.
Qed.
End Start.
(** ** The scan *)
Lemma one_more_ne c a : ac_id c <> a -> one_more c a = 0.
Proof. intros H. unfold one_more. by rewrite (proj2 (String.eqb_neq _ _) H). Qed.
Lemma scan_commands_bound E latest requests : inserts_answered E -> forall l w w' r,
  NoDup (map ac_id l) -> pids_fresh E l w -> daemon_ok w ->
  d_each (scan_command E latest requests) l w = (w', r) ->
  daemon_ok w' /\ forall a, count_in_flight (w_running w') a <= count_in_flight (w_running w) a
    \/ exists c, c ∈ l /\ ac_id c = a /\ count_in_flight (w_running w') a <= run_limit (ac_run_mode c).
Proof.
  intros Hup l. induction l as [|c l IH]; intros w w' r Hnd [Hfresh Hinj] Hok H.
  { injection H as <- _. split; [done|]. intros a. by left. }
  cbn [map] in Hnd. apply list.NoDup_cons in Hnd as [Hc Hnd]. cbn [d_each] in H. unfold mbind, d_bind in H.
  destruct (scan_command E latest requests c w) as [w1 o] eqn:H1.
  apply scan_command_grew in H1; [|done|done|intros pid; apply Hfresh; by left].
  assert (Hstep : daemon_ok w1 /\ pids_fresh E l w1
    /\ (forall a, a <> ac_id c -> count_in_flight (w_running w1) a <= count_in_flight (w_running w) a)
    /\ (count_in_flight (w_running w1) (ac_id c) <= count_in_flight (w_running w) (ac_id c)
        \/ count_in_flight (w_running w1) (ac_id c) <= run_limit (ac_run_mode c))).
  { destruct H1 as [->|[(Hok1 & Hcount & Hprocs) Hlt]].
    - split; [done|]. split; [split; intros *; eauto using list_elem_of_further|]. split; [intros; lia|left; lia].
    - split; [done|]. split; [|split].
      + split.
        * intros c' pid Hc' Hs (p & -> & Hp)%list_elem_of_fmap.
          destruct (Hprocs p Hp) as [Hold|[Hnew _]].
          -- eapply Hfresh; [by right|exact Hs|]. apply list_elem_of_fmap. by exists p.
          -- apply Hc. rewrite (Hinj c c' p.1); [|by left|by right|done|done]. apply list_elem_of_fmap. by exists c'.
        * intros c1 c2 pid H1 H2. apply Hinj; by right.
      + intros a Ha. specialize (Hcount a). rewrite one_more_ne in Hcount by congruence. lia.
      + right. specialize (Hcount (ac_id c)). unfold one_more in Hcount. rewrite String.eqb_refl in Hcount. lia. }
  destruct Hstep as (Hok1 & Hfresh1 & Hother & Hown).
  assert (Hrest : daemon_ok w' /\ forall a, count_in_flight (w_running w') a <= count_in_flight (w_running w1) a
    \/ exists c, c ∈ l /\ ac_id c = a /\ count_in_flight (w_running w') a <= run_limit (ac_run_mode c)).
  { destruct o as [u|e]; [by eapply IH|]. injection H as <- _. split; [done|]. intros a. by left. }
  destruct Hrest as [Hok' Hrest]. split; [done|]. intros a.
  destruct (Hrest a) as [Hle|(c' & Hin & Ha & Hle)]; [|right; exists c'; split_and!; [by right|done|done]].
  destruct (decide (a = ac_id c)) as [->|Hne]; [|left; specialize (Hother a Hne); lia].
  destruct Hown; [left; lia|right]. exists c. split_and!; [by left|done|lia].
Qed.

Lemma scan_phases E w w' r : run_scheduler_scan E w = (w', r) -> daemon_ok w ->
  (daemon_ok w' /\ fewer w w')
  \/ exists commands latest requests w1, (exists data, ev_file E = Ok data /\ load_app_commands data = Ok commands)
     /\ daemon_ok w1 /\ fewer w w1
     /\ d_each (scan_command E latest requests) (active_commands E commands) w1 = (w', r).
Proof.
  intros H Hok.
  assert (Hfew : fewer w w) by done.
  set (P w1 := daemon_ok w1 /\ fewer w w1).
  assert (HP : store_blind P) by (intros w1 d' Hs [? ?]; split; [by apply store_step_daemon_ok|done]).
  unfold run_scheduler_scan, mbind, d_bind in H.
  destruct (collect_running_commands E w) as [w1 o1] eqn:H1.
  assert (P w1) as HP1 by (split; [by eapply collect_daemon_ok|by eapply collect_fewer]).
  destruct o1 as [u1|e]; [|injection H as <- _; by left].
  destruct (load E w1) as [w2 o2] eqn:H2. assert (P w2) as HP2 by (by eapply (load_keeps E P)).
  destruct o2 as [commands|e]; [|injection H as <- _; by left].
  destruct (store_read E OpLatest _ w2) as [w3 o3] eqn:H3. assert (P w3) as HP3 by (by eapply (keeps_read E P)).
  destruct o3 as [latest|e]; [|injection H as <- _; by left].
  destruct (sweep_run_requests E w3) as [w4 o4] eqn:H4. assert (P w4) as HP4 by (by eapply (sweep_keeps E P)).
  destruct o4 as [u4|e]; [|injection H as <- _; by left].
  destruct (open_run_requests E w4) as [w5 o5] eqn:H5. assert (P w5) as HP5 by (by eapply (open_keeps E P)).
  destruct o5 as [requests|e]; [|injection H as <- _; by left].
  right. exists commands, latest, requests, w5. split; [|split_and!; [apply HP5|apply HP5|exact H]].
  unfold load in H2. destruct (ev_file E) as [data|]; [|done]. exists data. split; [done|].
  unfold d_raise, d_ret in H2. destruct (load_app_commands data); by simplify_eq.
Qed.
Lemma active_ids E commands : keyed_ok commands -> NoDup (map ac_id (active_commands E commands)).
Proof.
  intros [Hnd Hf]. unfold active_commands. eapply sublist_NoDup; [|apply map_filter_sublist].
  rewrite map_map. replace (map (fun p => ac_id p.2) commands) with (map fst commands); [done|].
  apply map_ext_in. intros p Hp%list_elem_of_In. rewrite list.Forall_forall in Hf. by destruct (Hf p Hp).
Qed.
Lemma active_elem E commands c : keyed_ok commands -> c ∈ active_commands E commands -> (ac_id c, c) ∈ commands
  /\ ac_active c = true /\ _command_runs_on_node c (ev_node_role E) = true.
Proof.
  intros [_ Hf] [(p & -> & Hp)%list_elem_of_fmap [Ha Hn]%andb_true_iff]%elem_of_filter_bool.
  rewrite list.Forall_forall in Hf. destruct (Hf p Hp) as [Heq _]. rewrite <-Heq. by destruct p.
Qed.

(** ** What outlives its stop *)
Definition outlived_by (E : Env) (S : Z * string -> Prop) (w : World) : Prop :=
  forall p, p ∈ w_outlived w -> S p \/ ev_stops E p.1 = false.
#[export] Instance outlived_blind E S : store_blind (outlived_by E S).
Proof. by intros w d'. Qed.
#[export] Hint Resolve outlived_blind : keeps.
Section Outlived.
Context (E : Env) (S : Z * string -> Prop).
Lemma stop_outlived pid : keeps (outlived_by E S) (stop_process E pid).
Proof.
  apply keeps_modify. intros w Hw p. unfold done_with. destruct (ev_stops E pid) eqn:Hs; [apply Hw|]. cbn [set_outlived w_outlived].
  intros [Hp|[_ Hp%Z.eqb_eq]%elem_of_filter_bool]%elem_of_app; [by apply Hw|right]. by rewrite Hp.
Qed.
Lemma collect_outlived : keeps (outlived_by E S) (collect_running_commands E).
Proof.
  intros w w' r. apply (keeps_each (outlived_by E S)). intros [key x] _.
  assert (Hreap : forall s le e ms code, keeps (outlived_by E S) (reap E key x s le e ms code)).
  { intros. unfold reap. apply keeps_bind; [apply update_keeps, outlived_blind|]. intros _.
    apply keeps_bind; [auto with keeps|]. intros _. by apply keeps_modify. }
  unfold collect_one. cbv zeta. destruct (ev_poll E (rc_pid x)) as [code|].
  - destruct (ev_output E (rc_pid x)). apply keeps_bind; [by apply keeps_modify|done].
  - destruct (negb _); [apply keeps_ret|]. apply keeps_bind; [apply stop_outlived|done].
Qed.
Lemma record_start_outlived c pid q : keeps (outlived_by E S) (record_start E c pid q).
Proof.
  apply keeps_catch.
  - apply keeps_bind; [|auto with keeps]. apply keeps_step; [auto with keeps|]. intros d d' i H. by eapply step_insert_run.
  - intros e. destruct e as [?|[]|?|?]; auto with keeps. apply keeps_bind; [apply stop_outlived|auto with keeps].
Qed.
Lemma try_start_outlived c q : keeps (outlived_by E S) (try_start E c q).
Proof.
  apply keeps_catch.
  - unfold start_app_command. destruct (ev_spawn E c); [|apply keeps_raise]. apply keeps_bind; [by apply keeps_modify|]. intros _.
    apply keeps_bind; [apply record_start_outlived|]. intros [i|]; [|apply keeps_ret].
    apply keeps_bind; [by apply keeps_modify|]. intros _. destruct q; auto with keeps.
  - intros e. apply keeps_bind; [destruct q; auto with keeps|]. intros _. destruct (_is_store_trouble e); auto with keeps.
Qed.
Lemma scan_command_outlived latest requests c : keeps (outlived_by E S) (scan_command E latest requests c).
Proof.
  intros w w' r. unfold scan_command. destruct (_ && _); [by intros [= <- _]|]. destruct (negb _); [by intros [= <- _]|].
  destruct (assoc (ac_id c) requests).
  - apply (keeps_bind (outlived_by E S)); [auto with keeps|]. intros [q|]; [apply try_start_outlived|apply keeps_ret].
  - destruct (negb _); [by intros [= <- _]|]. destruct (negb _); [by intros [= <- _]|]. apply try_start_outlived.
Qed.
Lemma scan_outlived : keeps (outlived_by E S) (run_scheduler_scan E).
Proof.
  apply keeps_bind; [apply collect_outlived|]. intros _. apply keeps_bind; [auto with keeps|]. intros cs.
  apply keeps_bind; [auto with keeps|]. intros latest. apply keeps_bind; [auto with keeps|]. intros _.
  apply keeps_bind; [auto with keeps|]. intros requests. apply keeps_each. intros c _. apply scan_command_outlived.
Qed.
End Outlived.

(** C1: A scan, however it ends, keeps the daemon's invariant (store, slot table, every live
    child it tracks) and never tracks more live children of a command than were in flight before
    or its run mode allows: one for sync, max_parallel for async. A child the scan let go of
    while it lived is one whose stop did not end it; such children are kept apart and not
    counted. It assumes that the system hands out fresh pids and that the store answers the
    claim of each start. *)
Theorem scan_keeps_run_bounds E w w' r data commands :
  ev_file E = Ok data -> load_app_commands data = Ok commands ->
  inserts_answered E -> pids_fresh E (map snd commands) w -> daemon_ok w ->
  run_scheduler_scan E w = (w', r) ->
  daemon_ok w'
  /\ (forall c, (ac_id c, c) ∈ commands ->
       count_procs (w_procs w') (ac_id c)
         <= Z.max (count_in_flight (w_running w) (ac_id c)) (run_limit (ac_run_mode c)))
  /\ (forall p, p ∈ w_outlived w' -> p ∈ w_outlived w \/ ev_stops E p.1 = false).
Proof.
  intros Hfile Hload Hup [Hfr Hinj] Hok H. assert (Hout : outlived_by E (fun p => p ∈ w_outlived w) w') by
    (eapply (scan_outlived E); [exact H|intros p Hp; by left]).
  match goal with |- ?a /\ ?b /\ _ => enough (a /\ b) as [? ?] by done end. clear Hout. pose proof (load_commands_keyed _ _ Hload) as Hkeyed.
  apply scan_phases in H as [[Hok' [Hfew _]]|(cs & latest & requests & w1 & (data' & Hf' & Hl') & Hok1 & [Hf1 Hp1] & H)];
    [|..|done].
  - split; [done|]. intros c _. pose proof (count_procs_in_flight w' (ac_id c) Hok').
    pose proof (count_sublist _ _ (ac_id c) Hfew). lia.
  - assert (cs = commands) as -> by congruence.
    assert (Hsub : forall c, c ∈ active_commands E commands -> c ∈ map snd commands).
    { intros c (Hc & _)%active_elem; [|done]. apply list_elem_of_fmap. by exists (ac_id c, c). }
    apply scan_commands_bound in H as [Hok' Hb]; [|done|by apply active_ids| |done].
    + split; [done|]. intros c Hc. pose proof (count_procs_in_flight w' (ac_id c) Hok').
      pose proof (count_sublist _ _ (ac_id c) Hf1).
      destruct (Hb (ac_id c)) as [Hle|(c' & Hin & Heq & Hle)]; [lia|].
      apply active_elem in Hin as (Hin & _); [|done]. rewrite Heq in Hin.
      assert (c' = c) as ->; [|lia]. destruct Hkeyed as [Hnd _].
      assert (Hpair : (ac_id c, c') = (ac_id c, c)) by (by eapply (NoDup_map_inj fst)). congruence.
    + split; [|intros c c' pid Hc Hc'; eauto].
      intros c pid Hc Hs Hin. eapply Hfr; [by apply Hsub|exact Hs|].
      apply list_elem_of_fmap in Hin as (p & -> & Hp). apply list_elem_of_fmap. exists p.
      split; [done|]. by eapply elem_of_sublist.
Qed.
(** ** What a scan may start *)
(** The scan up to its commands: what they are, their latest runs, the open requests. *)
Definition Agenda : Type := list (string * AppCommand) * (string -> option JobRow) * list (string * Request).
Definition scan_start (E : Env) : D Agenda :=
  collect_running_commands E;;
  commands ← load E;
  latest_runs ← store_read E OpLatest fetch_latest_job_runs_by_job_code;
  sweep_run_requests E;;
  requests ← open_run_requests E;
  d_ret (commands, latest_runs, requests).
Definition scan_each (E : Env) (a : Agenda) (l : list AppCommand) : D unit := d_each (scan_command E a.1.2 a.2) l.
(** Why a scan that has come to the command [c] in the world [w] starts it. *)
Definition reason_to_start (E : Env) (a : Agenda) (w : World) (c : AppCommand) : Prop :=
  (ev_single_pass E = true -> timeout_disabled c = false)
  /\ RunMode.may_start (ac_run_mode c) (count_in_flight (w_running w) (ac_id c)) = true
  /\ (assoc (ac_id c) a.2 = None /\ app_command_in_schedule_window c (ev_local E) = true
          /\ app_command_is_due c (a.1.2 (ac_id c)) (ev_now E) = true
      \/ assoc (ac_id c) a.2 <> None
          /\ exists d q, claim (ev_now E) DEFAULT_REQUEST_TTL_SECONDS (ac_id c) (w_db w) = Ok (d, Some q)).
(** A child of the command the scan of [w] came to after those of [before], in the world it had then. *)
Definition allowed_start (E : Env) (w : World) (p : Z * string) : Prop :=
  exists w0 a before c after w1,
    scan_start E w = (w0, Ok a) /\ a.1.2 = fetch_latest_job_runs_by_job_code (w_db (collect_running_commands E w).1)
    /\ active_commands E a.1.1 = before ++ c :: after /\ scan_each E a before w0 = (w1, Ok tt)
    /\ (exists data, ev_file E = Ok data /\ load_app_commands data = Ok a.1.1) /\ (ac_id c, c) ∈ a.1.1
    /\ ac_active c = true /\ runs_on (Some (ac_node_role c)) (Some (ev_node_role E)) "all" = true
    /\ reason_to_start E a w1 c /\ ev_spawn E c = Ok p.1 /\ p.2 = ac_id c.
Definition only (S : Z * string -> Prop) (w : World) : Prop := forall p, p ∈ live w -> S p.
#[export] Instance only_blind S : store_blind (only S).
Proof. by intros w d'. Qed.
#[export] Hint Resolve only_blind : keeps.
Lemma live_done_with ended pid w p : p ∈ live (done_with ended pid w) -> p ∈ live w.
Proof.
  unfold live, done_with. destruct ended; cbn [set_outlived set_procs w_procs w_outlived].
  - intros [[Hp _]%elem_of_filter_bool|Hp]%elem_of_app; apply elem_of_app; auto.
  - intros [[Hp _]%elem_of_filter_bool|[Hp|[Hp _]%elem_of_filter_bool]%elem_of_app]%elem_of_app; apply elem_of_app; auto.
Qed.
Lemma live_with_proc pid a w p : p ∈ live (with_proc pid a w) -> p ∈ live w \/ p = (pid, a).
Proof.
  unfold live. cbn [with_proc set_procs w_procs w_outlived].
  intros [[Hp| ->%list_elem_of_singleton]%elem_of_app|Hp]%elem_of_app; [left|by right|left]; apply elem_of_app; auto.
Qed.
Lemma try_start_only E (S : Z * string -> Prop) c q :
  (forall pid, ev_spawn E c = Ok pid -> S (pid, ac_id c)) -> keeps (only S) (try_start E c q).
Proof.
  intros HS. assert (Hadd : forall pid w, ev_spawn E c = Ok pid -> only S w -> only S (with_proc pid (ac_id c) w)).
  { intros pid w Hs Hw p [Hp| ->]%live_with_proc; [by apply Hw|by apply HS]. }
  apply keeps_catch.
  - intros w w' r [e Hs|pid Hs|pid d x Hs _ _ _|pid e Hs _]%start_cases Hw; [done| | |].
    + intros p Hp%live_done_with. by apply (Hadd pid w Hs Hw).
    + exact (Hadd pid w Hs Hw).
    + exact (Hadd pid w Hs Hw).
  - intros e. apply keeps_bind; [destruct q; auto with keeps|].
    intros _. destruct (_is_store_trouble e); auto with keeps.
Qed.
Lemma claim_run_request_some E a w w' q : claim_run_request E a w = (w', Ok (Some q)) ->
  exists d', claim (ev_now E) DEFAULT_REQUEST_TTL_SECONDS a (w_db w) = Ok (d', Some q).
Proof.
  unfold claim_run_request, fail_open, d_catch, store_call.
  destruct (ev_down E _); [done|]. destruct (claim _ _ _ _) as [[d o]|]; [|done].
  intros [= _ ->]. by exists d.
Qed.
Lemma scan_command_only E (S : Z * string -> Prop) a c w w' r :
  (forall pid, ev_spawn E c = Ok pid -> reason_to_start E a w c -> S (pid, ac_id c)) ->
  scan_command E a.1.2 a.2 c w = (w', r) -> only S w -> only S w'.
Proof.
  intros HS. unfold reason_to_start in HS. unfold scan_command.
  destruct (ev_single_pass E && timeout_disabled c) eqn:Hsp; [by intros [= <- _]|].
  assert (Hone : ev_single_pass E = true -> timeout_disabled c = false) by (intros H; by rewrite H in Hsp).
  destruct (RunMode.may_start _ _); cbn [negb]; [|by intros [= <- _]].
  destruct (assoc (ac_id c) a.2) as [q0|] eqn:Hq0.
  - unfold mbind, d_bind. destruct (claim_run_request E (ac_id c) w) as [w1 o] eqn:Hc. intros H Hw.
    assert (Hw1 : only S w1) by (by eapply (claim_keeps E (only S) (only_blind S))).
    destruct o as [[q|]|e]; [|by revert H; intros [= <- _]..].
    eapply try_start_only; [|exact H|exact Hw1]. intros pid Hs. apply HS; [done|]. split_and!; [done..|].
    right. apply claim_run_request_some in Hc as (d' & Hc). eauto.
  - destruct (app_command_in_schedule_window _ _) eqn:Hin; cbn [negb]; [|by intros [= <- _]].
    destruct (app_command_is_due _ _ _) eqn:Hdue; cbn [negb]; [|by intros [= <- _]].
    apply try_start_only. intros pid Hs. apply HS; [done|]. split_and!; auto.
Qed.
Lemma scan_is_start E w : run_scheduler_scan E w
  = match scan_start E w with
    | (w0, Ok a) => scan_each E a (active_commands E a.1.1) w0
    | (w0, Err e) => (w0, Err e)
    end.
Proof.
  unfold run_scheduler_scan, scan_start, mbind, d_bind, d_ret. destruct (collect_running_commands E w) as [w1 [u1|e]]; [|done].
  destruct (load E w1) as [w2 [commands|e]]; [|done]. destruct (store_read _ _ _ w2) as [w3 [latest|e]]; [|done].
  destruct (sweep_run_requests E w3) as [w4 [u4|e]]; [|done]. by destruct (open_run_requests E w4) as [w5 [requests|e]].
Qed.
Lemma collect_live E w0 : keeps (only (fun p => p ∈ live w0)) (collect_running_commands E).
Proof.
  intros w w' r. apply keeps_each. intros [key x] _.
  assert (Hend : forall ended, keeps (only (fun p => p ∈ live w0)) (d_modify (done_with ended (rc_pid x)))).
  { intros ended. apply keeps_modify. intros w1 Hw p Hp%live_done_with. by apply Hw. }
  assert (Hreap : forall s le e ms code, keeps (only (fun p => p ∈ live w0)) (reap E key x s le e ms code)).
  { intros. unfold reap. apply keeps_bind; [apply update_keeps, only_blind|]. intros _.
    apply keeps_bind; [auto with keeps|]. intros _. by apply keeps_modify. }
  unfold collect_one. cbv zeta. destruct (ev_poll E (rc_pid x)) as [code|].
  - destruct (ev_output E (rc_pid x)). apply keeps_bind; [apply Hend|done].
  - destruct (negb _); [apply keeps_ret|]. apply keeps_bind; [apply Hend|done].
Qed.
(** The agenda is the file's commands and the latest runs after the reaping; nothing has been started. *)
Lemma scan_start_spec E w w0 r : scan_start E w = (w0, r) -> only (fun p => p ∈ live w) w0
  /\ forall a, r = Ok a -> a.1.2 = fetch_latest_job_runs_by_job_code (w_db (collect_running_commands E w).1)
     /\ exists data, ev_file E = Ok data /\ load_app_commands data = Ok a.1.1.
Proof.
  unfold scan_start, mbind, d_bind, d_ret. intros H.
  destruct (collect_running_commands E w) as [w1 o1] eqn:H1. cbn [fst].
  assert (HS1 : only (fun p => p ∈ live w) w1) by (eapply (collect_live E w); [exact H1|by intros p]).
  destruct o1 as [u1|e]; [|by injection H as <- <-].
  destruct (load E w1) as [w2 o2] eqn:H2. unfold load in H2.
  destruct (ev_file E) as [data|e] eqn:Hfile; [|by injection H2 as <- <-; injection H as <- <-].
  destruct (load_app_commands data) as [commands|e] eqn:Hload; [|by injection H2 as <- <-; injection H as <- <-].
  injection H2 as <- <-. destruct (store_read E OpLatest _ w1) as [w3 o3] eqn:H3. unfold store_read, store_call in H3.
  destruct (ev_down E OpLatest); injection H3 as <- <-; [by injection H as <- <-|].
  rewrite set_db_same in H. destruct (sweep_run_requests E w1) as [w4 o4] eqn:H4.
  assert (HS4 : only (fun p => p ∈ live w) w4) by (by eapply (sweep_keeps E _ (only_blind _))).
  destruct o4 as [u4|e]; [|by injection H as <- <-].
  destruct (open_run_requests E w4) as [w5 o5] eqn:H5.
  assert (HS5 : only (fun p => p ∈ live w) w5) by (by eapply (open_keeps E (only (fun p => p ∈ live w)))).
  destruct o5 as [requests|e]; injection H as <- <-; (split; [done|]); intros a [= <-]; cbn; eauto.
Qed.
Lemma scan_rest E w w0 a after : scan_start E w = (w0, Ok a) ->
  forall before w1 w' r, active_commands E a.1.1 = before ++ after -> scan_each E a before w0 = (w1, Ok tt) ->
  only (fun p => p ∈ live w \/ allowed_start E w p) w1 -> scan_each E a after w1 = (w', r) ->
  only (fun p => p ∈ live w \/ allowed_start E w p) w'.
Proof.
  intros Hst. induction after as [|c after IH]; intros before w1 w' r Hall Hb Hw H; [by injection H as <- _|].
  unfold scan_each in H. cbn [d_each] in H. unfold mbind, d_bind in H.
  destruct (scan_command E a.1.2 a.2 c w1) as [w2 o] eqn:Hc. destruct (scan_start_spec E w w0 _ Hst) as [_ Hsp].
  destruct (Hsp a eq_refl) as [Hlat (data & Hfile & Hload)].
  assert (Hw2 : only (fun p => p ∈ live w \/ allowed_start E w p) w2).
  { eapply scan_command_only; [|exact Hc|exact Hw]. intros pid Hs Hwhy. right.
    destruct (active_elem E a.1.1 c) as (Hin & Ha & Hn);
      [by eapply load_commands_keyed|rewrite Hall; apply elem_of_app; right; by left|].
    exists w0, a, before, c, after, w1. split_and!; eauto. }
  destruct o as [[]|e]; [|by injection H as <- _].
  apply (IH (before ++ [c]) w2 w' r); [by rewrite <-app_assoc| |done|exact H].
  clear -Hb Hc. unfold scan_each in *. revert w0 Hb. induction before as [|b before IH]; intros w0 Hb; cbn [app d_each] in *.
  - injection Hb as ->. unfold mbind, d_bind. by rewrite Hc.
  - unfold mbind, d_bind in *. destruct (scan_command E a.1.2 a.2 b w0) as [w3 [u|e]]; [by apply IH|done].
Qed.

(** C19: Every child there is after a scan was there before it or belongs to an active command
    of this node's role, which is no service under --once and has room in its run mode; and in
    the world in which the scan came to that command, its window was open and the due rule said
    so on the latest run the scan had read, and nothing was requested for it, or a claim of a
    request for it was answered. *)
Theorem scan_starts_only_what_is_allowed E w w' r :
  run_scheduler_scan E w = (w', r) -> forall p, p ∈ live w' -> p ∈ live w \/ allowed_start E w p.
Proof.
  rewrite scan_is_start. destruct (scan_start E w) as [w0 [a|e]] eqn:Hst; destruct (scan_start_spec E w _ _ Hst) as [H0 _].
  - intros H. apply (scan_rest E w w0 a (active_commands E a.1.1) Hst [] w0 w' r); [done|done| |exact H].
    intros p Hp. left. by apply H0.
  - intros [= <- _] p Hp. left. by apply H0.
Qed.

(** ** A node with one command *)
Definition lab_data : pydict := [("app_commands", PList [lab_item])].
Definition lab_process : Process := Build_Process "worker-1" 100 "node-1" (fun _ => "").
Definition lab_env_polled (poll : Z -> option Z) (role : string) (file : pydict) (now : Z)
    (spawn : result daemon_exn Z) (down : store_op -> option daemon_exn) : Env :=
  {| ev_now := now; ev_monotonic := now; ev_local := Build_wall 2026 9 21 10 30; ev_process := lab_process;
     ev_node_role := role; ev_single_pass := false; ev_file := Ok file; ev_poll := poll;
     ev_stops := fun _ => true; ev_stopped_code := fun _ => PNone; ev_output := fun _ => ("", ""); ev_spawn := fun _ => spawn;
     ev_working_dir := fun _ => "/app"; ev_sqlite_path := ""; ev_pid_alive := fun _ => Some false;
     ev_down := down; ev_exn_text := fun _ => "" |}.
Definition lab_env := lab_env_polled (fun _ => None).
Definition no_outage (op : store_op) : option daemon_exn := None.
Definition lab_world (d : Db) : World := Build_World d [] [] 0 [].
Definition lab_commands : list (string * AppCommand) :=
  match load_app_commands lab_data with Ok l => l | Err _ => [] end.
Lemma lab_world_ok d : store_ok d -> daemon_ok (lab_world d).
Proof. intros H. split_and!; [exact H|split; constructor|constructor|done]. Qed.
Lemma lab_fresh E spawn d : (forall c, ev_spawn E c = spawn) -> pids_fresh E (map snd lab_commands) (lab_world d).
Proof.
  intros Hs. split; [by intros c pid _ _ ?%not_elem_of_nil|].
  assert (Hid : Forall (fun c => ac_id c = "APP-METRICS") (map snd lab_commands)) by (vm_compute; repeat constructor).
  rewrite list.Forall_forall in Hid. intros c c' pid Hc Hc' _ _. by rewrite (Hid c), (Hid c').
Qed.
Lemma scan_keeps_run_bounds_witness :
  let E := lab_env "worker" lab_data lab_instant (Ok 200) no_outage in
  let w := lab_world empty_db in
  exists w', run_scheduler_scan E w = (w', Ok tt) /\ w_procs w' = [(200, "APP-METRICS")]
  /\ daemon_ok w'
  /\ (forall c, (ac_id c, c) ∈ lab_commands ->
       count_procs (w_procs w') (ac_id c)
         <= Z.max (count_in_flight (w_running w) (ac_id c)) (run_limit (ac_run_mode c)))
  /\ (forall p, p ∈ w_outlived w' -> p ∈ w_outlived w \/ ev_stops E p.1 = false).
Proof.
  cbv zeta. set (E := lab_env _ _ _ _ _). set (w := lab_world empty_db).
  destruct (run_scheduler_scan E w) as [w' r] eqn:H.
  assert (Hres : snd (run_scheduler_scan E w) = Ok tt /\ w_procs (fst (run_scheduler_scan E w)) = [(200, "APP-METRICS")])
    by (vm_compute; done).
  rewrite H in Hres. destruct Hres as [Hr Hp]. cbn [fst snd] in Hr, Hp. subst r.
  exists w'. split; [done|]. split; [done|].
  apply (scan_keeps_run_bounds E w w' (Ok tt) lab_data lab_commands); [done|vm_compute; reflexivity|done| |by apply lab_world_ok, empty_store_ok|done].
  by apply (lab_fresh E (Ok 200)).
Defined.
Lemma scan_starts_only_what_is_allowed_witness :
  let E := lab_env "worker" lab_data lab_instant (Ok 200) no_outage in
  let w := lab_world empty_db in
  (200, "APP-METRICS") ∈ live (fst (run_scheduler_scan E w))
  /\ ((200, "APP-METRICS") ∈ live w \/ allowed_start E w (200, "APP-METRICS")).
Proof.
  cbv zeta. assert (Hin : (200, "APP-METRICS") ∈ live (fst (run_scheduler_scan
    (lab_env "worker" lab_data lab_instant (Ok 200) no_outage) (lab_world empty_db)))) by (vm_compute; by left).
  split; [exact Hin|]. revert Hin.
  apply (scan_starts_only_what_is_allowed _ _ _ (snd (run_scheduler_scan
    (lab_env "worker" lab_data lab_instant (Ok 200) no_outage) (lab_world empty_db)))).
  by destruct (run_scheduler_scan _ _).
Defined.
