(* ===== verification/DaemonLife.v ===== *)
(** * [jobs/daemon.py]: start-up recovery, the main loop, and shutdown. *)

From S2P Require Import Prelude Py PyTime TimeWindow RunMode RunClaim Store RunRequests StoreOutage AppCommands Daemon.

Definition STALE_RECOVERY_ALERT_MAX_AGE_SECONDS : Z := 24 * 3600.

(** What [recover_stale_running_jobs] decides about one open row. *)
Inductive recovery : Type := LeaveRow | CloseRemoved | CloseStale (c : AppCommand) (elapsed_seconds : Z).
(** [recovered], the number of [fresh_crashes], [backlog]. *)
Record Recovered := { rec_recovered : Z; rec_fresh : Z; rec_backlog : Z }.
Definition none_recovered : Recovered := Build_Recovered 0 0 0.
Definition count_recovered (v : recovery) (n : Recovered) : Recovered :=
  match v with
  | LeaveRow => n
  | CloseRemoved => Build_Recovered (rec_recovered n + 1) (rec_fresh n) (rec_backlog n)
  | CloseStale c elapsed =>
      if timeout_disabled c || negb (elapsed <=? STALE_RECOVERY_ALERT_MAX_AGE_SECONDS)
      then Build_Recovered (rec_recovered n + 1) (rec_fresh n) (rec_backlog n + 1)
      else Build_Recovered (rec_recovered n + 1) (rec_fresh n + 1) (rec_backlog n)
  end.

Section Life.
Context (E : Env).
#[local] Abbreviation now := (ev_now E).

(** ** [recover_stale_running_jobs] *)
Definition removed_is_ours (row : JobRow) (app_command_id : string) : bool :=
  let metadata := jr_metadata row in
  let claimed_by := claim_node (Some metadata) in
  let another_node := negb (String.eqb claimed_by "") && negb (String.eqb claimed_by (ps_node (ev_process E))) in
  negb another_node && negb (String.eqb app_command_id "")
  && String.eqb (str (py_or (get metadata "app_command_id") (PStr ""))) app_command_id.
(** The question [startup_verdict] is asked about a row of a command of this node. *)
Definition startup_question (c : AppCommand) (row : JobRow) (elapsed : Z) (owner : option Z * string) : ReapQuestion :=
  let this_host := ps_host (ev_process E) in
  {| rq_metadata := Some (jr_metadata row); rq_this_host := this_host; rq_elapsed := seconds elapsed;
     rq_timeout := if timeout_disabled c then 0 else timeout_seconds c;
     rq_pid_alive := match owner with
                     | (Some pid, host) => if String.eqb host this_host then ev_pid_alive E pid else None
                     | (None, _) => None
                     end;
     rq_foreign_grace := FOREIGN_HOST_GRACE_SECONDS; rq_this_node := ps_node (ev_process E);
     rq_host_fallback := row_host (Some (row_dict row)) |}.
Definition recover_verdict (app_commands : list (string * AppCommand)) (node_role : option string) (row : JobRow)
    : result pyexn recovery :=
  let app_command_id := strip (jr_job_code row) in
  if negb (String.eqb (lower (strip (jr_status row))) "running") then Ok LeaveRow
  else match assoc app_command_id app_commands with
  | None => Ok (if removed_is_ours row app_command_id then CloseRemoved else LeaveRow)
  | Some c =>
      if match node_role with Some role => negb (_command_runs_on_node c role) | None => false end
      then Ok LeaveRow
      else match run_anchor (Some (row_dict row)) with
      | None => Ok LeaveRow
      | Some last_run =>
          let elapsed := whole_seconds (now - last_run) in
          owner ← claim_owner (Some (jr_metadata row)) (row_host (Some (row_dict row)));
          v ← startup_verdict (startup_question c row elapsed owner);
          Ok (if rv_reap v then CloseStale c elapsed else LeaveRow)
      end
  end.
Definition removed_update (app_command_id : string) : RunUpdate :=
  {| up_finished_at := Some (iso_text now); up_level := "error"; up_status := "timeout";
     up_message := "App command " +:+ app_command_id +:+ " recovered from a RUNNING state on daemon "
       +:+ "startup: it is no longer in app_commands.json.";
     up_duration_ms := None;
     up_error_text := Some "The app command was removed from app_commands.json while this run was open.";
     up_metadata := [("stale_recovery", PBool true); ("app_command_removed", PBool true)] |}.
Definition stale_update (app_command_id : string) (c : AppCommand) (elapsed : Z) : RunUpdate :=
  {| up_finished_at := Some (iso_text now); up_level := "error"; up_status := "timeout";
     up_message := "App command " +:+ app_command_id +:+ " recovered from stale RUNNING state on daemon startup "
       +:+ "after " +:+ str_of_int elapsed +:+ "s (timeout=" +:+ str_of_int (timeout_seconds c) +:+ "s).";
     up_duration_ms := None;
     up_error_text := Some ("Stale running job detected on startup. elapsed=" +:+ str_of_int elapsed
       +:+ "s timeout=" +:+ str_of_int (timeout_seconds c) +:+ "s. Marked timeout to unblock retry.");
     up_metadata := app_command_metadata c [("stale_recovery", PBool true);
       ("elapsed_seconds", PInt elapsed); ("timeout_seconds", PInt (timeout_seconds c))] |}.
(** The update a verdict writes. *)
Definition recovery_update (row : JobRow) (v : recovery) : option RunUpdate :=
  match v with
  | LeaveRow => None
  | CloseRemoved => Some (removed_update (strip (jr_job_code row)))
  | CloseStale c elapsed => Some (stale_update (strip (jr_job_code row)) c elapsed)
  end.
Definition recover_row (app_commands : list (string * AppCommand)) (node_role : option string)
    (n : Recovered) (row : JobRow) : D Recovered :=
  let write u := store_call E (OpUpdate (jr_log_id row)) (update_job_run (jr_log_id row) u false) in
  match recover_verdict app_commands node_role row with
  | Err e => d_raise (PyRaised e)
  | Ok v =>
      match v, recovery_update row v with
      | CloseRemoved, Some u => fail_open (_ ← write u; d_ret (count_recovered v n)) n
      | _, Some u => _ ← write u; d_ret (count_recovered v n)
      | _, None => d_ret n
      end
  end.
Fixpoint recover_rows (app_commands : list (string * AppCommand)) (node_role : option string)
    (n : Recovered) (rows : list JobRow) : D Recovered :=
  match rows with
  | [] => d_ret n
  | row :: rows => n ← recover_row app_commands node_role n row; recover_rows app_commands node_role n rows
  end.
Definition recover_stale_running_jobs (app_commands : list (string * AppCommand)) (node_role : option string)
    : D Recovered :=
  rows ← store_read E OpRunning fetch_running_job_runs;
  recover_rows app_commands node_role none_recovered rows.

(** ** [close_running_on_shutdown] *)
Definition shutdown_update (reason : string) (r : RunningAppCommand) : RunUpdate :=
  {| up_finished_at := Some (iso_text now); up_level := "logging"; up_status := "timeout";
     up_message := "App command " +:+ ac_id (rc_command r) +:+ " was interrupted: the daemon stopped ("
       +:+ reason +:+ "). It resumes on the next scan.";
     up_duration_ms := None; up_error_text := None;
     up_metadata := app_command_metadata (rc_command r) [("shutdown", PBool true); ("reason", PStr reason)] |}.
Definition shutdown_one (reason : string) (p : string * RunningAppCommand) : D unit :=
  stop_process E (rc_pid p.2);;
  fail_open (_ ← store_call E (OpUpdate (rc_log_id p.2))
                   (update_job_run (rc_log_id p.2) (shutdown_update reason p.2) false);
             d_ret tt) tt.
Definition close_running_on_shutdown (reason : string) : D unit := fun w =>
  d_each (shutdown_one reason) (w_running w) w.

(** ** The loop of [main] *)
Record Loop := { lp_world : World; lp_waiter : OutageWaiter; lp_db_lock_retries : Z }.
(** How one turn ended: a good pass, a wait, or the error let out (the process exits). *)
Inductive turn : Type := Passed | LockBackoff (s : Z) | OutageWait (s : Z) | LetOut (e : daemon_exn).
Definition main_turn (lp : Loop) : Loop * turn :=
  match daemon_pass E (lp_world lp) with
  | (w, Ok _) => (Build_Loop w (recovered (lp_waiter lp)) 0, Passed)
  | (w, Err e) =>
      match e with
      | Caught true r =>
          if is_locked true r then
            let retries := lp_db_lock_retries lp + 1 in
            (Build_Loop w (lp_waiter lp) retries, LockBackoff (Z.min 30 (retries * 2)))
          else (Build_Loop w (lp_waiter lp) (lp_db_lock_retries lp), LetOut e)
      | Caught false r =>
          match wait_for r (lp_waiter lp) with
          | (Some s, waiter) => (Build_Loop w waiter (lp_db_lock_retries lp), OutageWait s)
          | (None, waiter) => (Build_Loop w waiter (lp_db_lock_retries lp), LetOut e)
          end
      | _ => (Build_Loop w (lp_waiter lp) (lp_db_lock_retries lp), LetOut e)
      end
  end.

End Life.

(** ** Closing rows *)
Lemma claims_closing f l : (forall r, r ∈ l -> f r = r \/ claim_of (f r) = None) -> sublist (claims (map f l)) (claims l).
Proof.
  unfold claims. induction l as [|r l IH]; intros Hf; [done|]. cbn [map omap list_omap].
  specialize (IH (fun x Hx => Hf x (list_elem_of_further _ _ _ Hx))).
  destruct (Hf r (list_elem_of_here _ _)) as [-> | ->]; destruct (claim_of r); by try constructor.
Qed.
Definition write_id (i : Z) (u : RunUpdate) (r : JobRow) : JobRow := if jr_log_id r =? i then write_row u r else r.
Lemma write_id_id i u r : jr_log_id (write_id i u r) = jr_log_id r.
Proof. unfold write_id. by destruct (_ =? i). Qed.
Lemma closing_update i u d : is_running (up_status u) = false ->
  row_checks (up_level u) (up_duration_ms u) = true -> NoDup (claims (db_runs d)) ->
  exists b, update_job_run i u false d = Ok (set_runs (map (write_id i u) (db_runs d)) d, b)
    /\ NoDup (claims (map (write_id i u) (db_runs d))).
Proof.
  intros Hu Hck Hnd. unfold update_job_run. rewrite Hck. cbn [negb orb]. rewrite andb_false_r.
  replace (map _ (db_runs d)) with (map (write_id i u) (db_runs d)).
  2: { apply map_ext. intros r. unfold write_id. by rewrite andb_true_r. }
  assert (Hnd' : NoDup (claims (map (write_id i u) (db_runs d)))).
  { eapply sublist_NoDup; [exact Hnd|]. apply claims_closing. intros r _. unfold write_id.
    destruct (_ =? i); [|by left]. right. unfold claim_of, write_row. cbn [jr_claim_key jr_status].
    rewrite Hu. by destruct (jr_claim_key r). }
  unfold claims_unique. rewrite bool_decide_true by done. by eexists.
Qed.
(** The store answers the updates. *)
Definition updates_answered (E : Env) : Prop := forall i, ev_down E (OpUpdate i) = None.

(** ** Recovery *)
Definition closed_by (E : Env) (commands : list (string * AppCommand)) (role : option string) (x r : JobRow) : JobRow :=
  match recover_verdict E commands role x with
  | Ok v => match recovery_update E x v with Some u => write_row u r | None => r end
  | Err _ => r
  end.
Definition recovered_row (E : Env) (commands : list (string * AppCommand)) (role : option string)
    (rows : list JobRow) (r : JobRow) : JobRow :=
  match List.find (fun x => jr_log_id x =? jr_log_id r) rows with
  | Some x => closed_by E commands role x r
  | None => r
  end.
Lemma recovery_update_closes E x v u : recovery_update E x v = Some u ->
  up_status u = "timeout" /\ row_checks (up_level u) (up_duration_ms u) = true.
Proof. by destruct v; intros [= <-]. Qed.
Lemma closed_by_id E cs role x r : jr_log_id (closed_by E cs role x r) = jr_log_id r.
Proof. unfold closed_by. destruct (recover_verdict _ _ _ _) as [v|]; [|done]. by destruct (recovery_update E x v). Qed.

Section Recover.
Context (E : Env) (Hup : updates_answered E) (cs : list (string * AppCommand)) (role : option string).
Lemma set_db_set_db d d' w : set_db d' (set_db d w) = set_db d' w.
Proof. done. Qed.
Lemma recover_row_spec n x w : NoDup (claims (db_runs (w_db w))) -> result_is_ok (recover_verdict E cs role x) = true ->
  let runs := map (fun r => if jr_log_id r =? jr_log_id x then closed_by E cs role x r else r) (db_runs (w_db w)) in
  exists n', recover_row E cs role n x w = (set_db (set_runs runs (w_db w)) w, Ok n') /\ NoDup (claims runs).
Proof.
  intros Hnd Hv. unfold recover_row, closed_by. cbv zeta.
  destruct (recover_verdict E cs role x) as [v|]; [|done]. clear Hv.
  destruct (recovery_update E x v) as [u|] eqn:Hu.
  - destruct (recovery_update_closes _ _ _ _ Hu) as [Hst Hck].
    destruct (closing_update (jr_log_id x) u (w_db w)) as (b & Hb & Hnd'); [by rewrite Hst|done..|].
    assert (Hcall : store_call E (OpUpdate (jr_log_id x)) (update_job_run (jr_log_id x) u false) w
      = (set_db (set_runs (map (write_id (jr_log_id x) u) (db_runs (w_db w))) (w_db w)) w, Ok b)).
    { unfold store_call. by rewrite Hup, Hb. }
    exists (count_recovered v n). split; [|exact Hnd'].
    destruct v; [discriminate Hu|..]; rewrite Hu; unfold fail_open, d_catch, mbind, d_bind; cbn beta; rewrite Hcall; done.
  - exists n. assert (Hid : map (fun r => if jr_log_id r =? jr_log_id x then r else r) (db_runs (w_db w)) = db_runs (w_db w)).
    { rewrite <-(map_id (db_runs (w_db w))) at 2. apply map_ext. intros r. by destruct (_ =? _). }
    rewrite Hid. split; [|done]. destruct v; [|done..]. by destruct w as [[] ? ? ?].
Qed.
Lemma recover_rows_spec rows : forall n w, NoDup (map jr_log_id rows) -> NoDup (claims (db_runs (w_db w))) ->
  Forall (fun x => result_is_ok (recover_verdict E cs role x) = true) rows ->
  exists n', recover_rows E cs role n rows w
    = (set_db (set_runs (map (recovered_row E cs role rows) (db_runs (w_db w))) (w_db w)) w, Ok n').
Proof.
  induction rows as [|x rows IH]; intros n w Hids Hnd Hv.
  - exists n. unfold recovered_row. cbn. rewrite map_id. by destruct w as [[] ? ? ?].
  - cbn in Hids. apply list.NoDup_cons in Hids as [Hx Hids]. apply list.Forall_cons in Hv as [Hv1 Hv].
    destruct (recover_row_spec n x w Hnd Hv1) as (n1 & H1 & Hnd1). cbn [recover_rows]. unfold mbind, d_bind. rewrite H1.
    destruct (IH n1 (set_db (set_runs (map (fun r => if jr_log_id r =? jr_log_id x then closed_by E cs role x r else r)
      (db_runs (w_db w))) (w_db w)) w) Hids Hnd1 Hv) as (n2 & H2).
    exists n2. rewrite H2, set_db_set_db. cbn [w_db set_db db_runs set_runs]. rewrite map_map.
    match goal with |- (set_db (set_runs ?a _) _, _) = (set_db (set_runs ?b _) _, _) => enough (a = b) as -> by done end.
    apply map_ext. intros r. unfold recovered_row. cbn [List.find]. rewrite (Z.eqb_sym (jr_log_id x)).
    destruct (Z.eqb_spec (jr_log_id r) (jr_log_id x)) as [Heq|]; [|done].
    rewrite closed_by_id. destruct (List.find _ rows) as [y|] eqn:Hf; [|done].
    apply find_some in Hf as [Hy Hyr%Z.eqb_eq]. exfalso. apply Hx. rewrite <-Heq, <-Hyr.
    apply list_elem_of_fmap. exists y. split; [done|]. by apply list_elem_of_In.
Qed.
End Recover.

Lemma recovery_maps E commands role w :
  store_ok (w_db w) -> updates_answered E -> ev_down E OpRunning = None ->
  (forall row, row ∈ fetch_running_job_runs (w_db w) -> result_is_ok (recover_verdict E commands role row) = true) ->
  let close row := if is_running (jr_status row) then closed_by E commands role row row else row in
  exists n, recover_stale_running_jobs E commands role w
    = (set_db (set_runs (map close (db_runs (w_db w))) (w_db w)) w, Ok n).
Proof.
  intros (Hids & _ & Hnd & _) Hup Hr Hv. cbv zeta. unfold run_ids_ok in Hids.
  set (rows := fetch_running_job_runs (w_db w)).
  destruct (recover_rows_spec E Hup commands role rows none_recovered w) as (n & Hn).
  { eapply sublist_NoDup; [exact Hids|apply map_filter_sublist]. }
  { done. }
  { by apply list.Forall_forall. }
  exists n. unfold recover_stale_running_jobs, mbind, d_bind, store_read, store_call. rewrite Hr, set_db_same. fold rows.
  rewrite Hn.
  match goal with |- (set_db (set_runs ?a _) _, _) = (set_db (set_runs ?b _) _, _) => enough (a = b) as -> by done end.
  apply map_ext_in. intros r Hin%list_elem_of_In. unfold recovered_row.
  assert (Huniq : forall x, x ∈ rows -> jr_log_id x = jr_log_id r -> x = r).
  { intros x [Hx _]%elem_of_filter_bool Heq. by eapply (NoDup_map_inj jr_log_id). }
  destruct (List.find _ rows) as [x|] eqn:Hf.
  - apply find_some in Hf as [Hx%list_elem_of_In Heq%Z.eqb_eq]. pose proof (Huniq x Hx Heq) as ->.
    apply elem_of_filter_bool in Hx as [_ Hrun]. by rewrite Hrun.
  - destruct (is_running (jr_status r)) eqn:Hrun; [|done]. exfalso.
    assert (Hne : (jr_log_id r =? jr_log_id r) = false).
    { apply (find_none _ _ Hf r). by apply list_elem_of_In, elem_of_filter_bool. }
    by rewrite Z.eqb_refl in Hne.
Qed.

(** The rows of this node whose run is over: of a command that is gone, when the row names it and
    no other node claims it; of a command this daemon runs, by the table of [RunClaim]. *)
Definition should_close (E : Env) (commands : list (string * AppCommand)) (role : option string) (row : JobRow) : Prop :=
  let app_command_id := strip (jr_job_code row) in
  let metadata := jr_metadata row in
  match assoc app_command_id commands with
  | None => app_command_id <> "" /\ str (py_or (get metadata "app_command_id") (PStr "")) = app_command_id
      /\ (claim_node (Some metadata) = "" \/ claim_node (Some metadata) = ps_node (ev_process E))
  | Some c => (forall ro, role = Some ro -> _command_runs_on_node c ro = true)
      /\ exists last_run pid host, run_anchor (Some (row_dict row)) = Some last_run
      /\ claim_owner (Some metadata) (row_host (Some (row_dict row))) = Ok (pid, host)
      /\ let q := startup_question E c row (whole_seconds (ev_now E - last_run)) (pid, host) in
         may_reap_at_startup q pid (owner_of q pid host)
  end.
Lemma removed_is_ours_iff E row a : removed_is_ours E row a = true <->
  a <> "" /\ str (py_or (get (jr_metadata row) "app_command_id") (PStr "")) = a
  /\ (claim_node (Some (jr_metadata row)) = "" \/ claim_node (Some (jr_metadata row)) = ps_node (ev_process E)).
Proof.
  unfold removed_is_ours. cbv zeta. rewrite !andb_true_iff, !negb_true_iff, andb_false_iff, !negb_false_iff,
    String.eqb_neq, !String.eqb_eq. tauto.
Qed.
Lemma recover_verdict_iff E commands role row :
  is_running (jr_status row) = true ->
  result_is_ok (claim_owner (Some (jr_metadata row)) (row_host (Some (row_dict row)))) = true ->
  exists v, recover_verdict E commands role row = Ok v /\ (v <> LeaveRow <-> should_close E commands role row).
Proof.
  intros Hrun Hown. unfold recover_verdict, should_close. cbv zeta.
  assert (Hst : String.eqb (lower (strip (jr_status row))) "running" = true).
  { apply String.eqb_eq in Hrun. rewrite strip_of_lower; [by apply String.eqb_eq|].
    rewrite Hrun. repeat constructor. }
  rewrite Hst. cbn [negb]. destruct (assoc _ commands) as [c|].
  2: { eexists. split; [done|]. rewrite <-removed_is_ours_iff. destruct (removed_is_ours _ _ _); split; done. }
  destruct (match role with Some ro => negb (_command_runs_on_node c ro) | None => false end) eqn:Hrole.
  { exists LeaveRow. split; [done|]. split; [done|]. intros [Hr _]. destruct role as [ro|]; [|done].
    by rewrite (Hr ro eq_refl) in Hrole. }
  assert (Hr : forall ro, role = Some ro -> _command_runs_on_node c ro = true).
  { intros ro ->. by apply negb_false_iff in Hrole. }
  destruct (run_anchor _) as [last|].
  2: { exists LeaveRow. split; [done|]. split; [done|]. by intros (_ & last & pid & host & [=] & _). }
  destruct (claim_owner _ _) as [[pid host]|e] eqn:Ho; [|done]. rewrite bind_ok. clear Hown.
  set (q := startup_question E c row (whole_seconds (ev_now E - last)) (pid, host)).
  destruct (startup_answers q (pid, host)) as [v Hv]; [exact Ho|]. rewrite Hv, bind_ok.
  pose proof (startup_table q pid host v Ho Hv) as Ht. eexists. split; [done|].
  transitivity (may_reap_at_startup q pid (owner_of q pid host)).
  - rewrite <-Ht. destruct (rv_reap v); split; done.
  - split; [intros H; split; [done|]; by exists last, pid, host|].
    intros (_ & last' & pid' & host' & [= <-] & [= <- <-] & H). done.
Qed.
(** What recovery does to a row. *)
Definition recovered_to (E : Env) (commands : list (string * AppCommand)) (role : option string) (r r' : JobRow) : Prop :=
  (is_running (jr_status r) = true /\ should_close E commands role r
     /\ exists u, r' = write_row u r /\ up_status u = "timeout")
  \/ (~ (is_running (jr_status r) = true /\ should_close E commands role r) /\ r' = r).

(** C35: Start-up recovery rewrites exactly the running rows its verdict closes (this node's,
    with no live process, or of a command that is gone) with status timeout, and leaves every
    other row as it was, as long as the store answers and the recorded pids can be read. *)
Theorem recovery_closes_exactly E commands role w :
  store_ok (w_db w) -> updates_answered E -> ev_down E OpRunning = None ->
  Forall (fun row => is_running (jr_status row) = true ->
    result_is_ok (claim_owner (Some (jr_metadata row)) (row_host (Some (row_dict row)))) = true) (db_runs (w_db w)) ->
  exists w' n, recover_stale_running_jobs E commands role w = (w', Ok n)
    /\ Forall2 (recovered_to E commands role) (db_runs (w_db w)) (db_runs (w_db w')).
Proof.
  intros Hok Hup Hr Hv. rewrite list.Forall_forall in Hv.
  destruct (recovery_maps E commands role w Hok Hup Hr) as [n Hn].
  { intros row [Hin Hrun]%elem_of_filter_bool.
    destruct (recover_verdict_iff E commands role row Hrun (Hv row Hin Hrun)) as (v & -> & _). done. }
  eexists _, n. split; [exact Hn|]. cbn [w_db set_db db_runs set_runs].
  change (map ?f ?l) with (f <$> l). apply Forall2_fmap_r, Forall_Forall2_diag, list.Forall_forall.
  intros row Hin. unfold compose, recovered_to.
  destruct (is_running (jr_status row)) eqn:Hrun; [|right; split; [by intros [? _]|done]].
  destruct (recover_verdict_iff E commands role row Hrun (Hv row Hin Hrun)) as (v & Hver & Hiff).
  unfold closed_by. rewrite Hver. destruct (recovery_update E row v) as [u|] eqn:Hu.
  - left. split; [done|]. split; [apply Hiff; by destruct v|]. exists u. split; [done|].
    by destruct (recovery_update_closes _ _ _ _ Hu).
  - right. split; [|done]. intros [_ Hs]. apply Hiff in Hs. by destruct v.
Qed.

(** ** Shutdown *)
Lemma shutdown_one_world E reason p w : exists d, shutdown_one E reason p w
  = (set_db d (done_with (ev_stops E (rc_pid p.2)) (rc_pid p.2) w), Ok tt).
Proof.
  unfold shutdown_one, stop_process, d_modify, mbind, d_bind, fail_open, d_catch, store_call. set (w1 := done_with _ _ w).
  destruct (ev_down E _); [exists (w_db w1); by rewrite set_db_same|].
  destruct (update_job_run _ _ _ _) as [[d b]|e]; [by exists d|]. exists (w_db w1). by rewrite set_db_same.
Qed.
Definition stopped_by (l : list (string * RunningAppCommand)) (p : Z * string) : Prop := exists q, q ∈ l /\ rc_pid q.2 = p.1.
Lemma shutdown_procs E reason l : forall w, exists w', d_each (shutdown_one E reason) l w = (w', Ok tt)
  /\ forall p, (p ∈ w_procs w' <-> p ∈ w_procs w /\ ~ stopped_by l p)
     /\ (p ∈ w_outlived w' <-> p ∈ w_outlived w \/ (p ∈ w_procs w /\ ev_stops E p.1 = false /\ stopped_by l p)).
Proof.
  induction l as [|q l IH]; intros w.
  - exists w. split; [done|]. intros p. assert (~ stopped_by [] p) by (by intros (q & ?%not_elem_of_nil & _)). tauto.
  - destruct (shutdown_one_world E reason q w) as [d Hd]. cbn [d_each]. unfold mbind, d_bind. rewrite Hd.
    destruct (IH (set_db d (done_with (ev_stops E (rc_pid q.2)) (rc_pid q.2) w))) as (w' & Hw' & Hp').
    exists w'. split; [exact Hw'|]. intros p. destruct (Hp' p) as [Hpr Hou].
    assert (Hcons : stopped_by (q :: l) p <-> p.1 = rc_pid q.2 \/ stopped_by l p).
    { split; [intros (x & [->|Hx]%list.elem_of_cons & Hxp); [by left|right; by exists x]|].
      intros [Hxp|(x & Hx & Hxp)]; [by exists q; split; [left|]|by exists x; split; [right|]]. }
    assert (Hq : p ∈ w_procs (done_with (ev_stops E (rc_pid q.2)) (rc_pid q.2) w) <-> p ∈ w_procs w /\ p.1 <> rc_pid q.2).
    { destruct (done_parts (ev_stops E (rc_pid q.2)) (rc_pid q.2) w) as (_ & _ & ->). rewrite elem_of_filter_bool.
      by rewrite negb_true_iff, Z.eqb_neq. }
    assert (Ho : p ∈ w_outlived (done_with (ev_stops E (rc_pid q.2)) (rc_pid q.2) w)
      <-> p ∈ w_outlived w \/ (p ∈ w_procs w /\ ev_stops E p.1 = false /\ p.1 = rc_pid q.2)).
    { unfold done_with. destruct (ev_stops E (rc_pid q.2)) eqn:Hs; cbn [set_outlived set_procs w_outlived w_procs].
      - split; [by left|]. intros [?|(_ & Hf & Heq)]; [done|congruence].
      - rewrite elem_of_app, elem_of_filter_bool, Z.eqb_eq. split; (intros [?|?]; [by left|right]); intuition congruence. }
    cbn [set_db w_procs w_outlived] in Hpr, Hou. rewrite Hpr, Hou, Hq, Ho, Hcons. destruct (decide (p.1 = rc_pid q.2)); tauto.
Qed.
Definition interrupted (l : list (string * RunningAppCommand)) (r r' : JobRow) : Prop :=
  jr_log_id r' = jr_log_id r
  /\ ((jr_log_id r ∈ map (fun p => rc_log_id p.2) l /\ jr_status r' = "timeout" /\ jr_job_code r' = jr_job_code r)
      \/ (~ (jr_log_id r ∈ map (fun p => rc_log_id p.2) l) /\ r' = r)).
Lemma shutdown_rows E reason l : updates_answered E -> forall w, NoDup (claims (db_runs (w_db w))) ->
  exists w', d_each (shutdown_one E reason) l w = (w', Ok tt)
  /\ Forall2 (interrupted l) (db_runs (w_db w)) (db_runs (w_db w')).
Proof.
  intros Hup. induction l as [|q l IH]; intros w Hnd.
  - exists w. split; [done|]. apply Forall_Forall2_diag, list.Forall_forall. intros r _. split; [done|]. right.
    by split; [apply not_elem_of_nil|].
  - destruct (closing_update (rc_log_id q.2) (shutdown_update E reason q.2) (w_db w)) as (b & Hb & Hnd'); [done..|].
    assert (Hone : exists w1, shutdown_one E reason q w = (w1, Ok tt)
      /\ db_runs (w_db w1) = map (write_id (rc_log_id q.2) (shutdown_update E reason q.2)) (db_runs (w_db w))).
    { unfold shutdown_one, stop_process, d_modify, mbind, d_bind, fail_open, d_catch, store_call. rewrite Hup.
      destruct (done_parts (ev_stops E (rc_pid q.2)) (rc_pid q.2) w) as (-> & _). rewrite Hb. by eexists. }
    destruct Hone as (w1 & H1 & Hr1). destruct (IH w1) as (w' & H2 & Hf); [by rewrite Hr1|].
    exists w'. split; [cbn [d_each]; unfold mbind, d_bind; by rewrite H1|].
    rewrite Hr1 in Hf. change (map (write_id ?i ?u) ?l) with (write_id i u <$> l) in Hf. rewrite Forall2_fmap_l in Hf.
    eapply Forall2_impl; [|exact Hf].
    intros r r' [Hid Hcase]. unfold interrupted. cbn [map]. rewrite write_id_id in *.
    split; [done|]. rewrite list.elem_of_cons. unfold write_id in Hcase.
    destruct (Z.eqb_spec (jr_log_id r) (rc_log_id q.2)) as [Heq|Hne].
    + left. destruct Hcase as [(_ & Hs & Hc)|[_ ->]]; (split; [by left|]); done.
    + destruct Hcase as [(Hin & Hs & Hc)|[Hin ->]]; [left|right]; split_and?; try done; [by right|]. by intros [?|?].
Qed.

(** C40: Shutdown always completes; the children alive after it are those that had outlived an
    earlier stop and those whose stop at shutdown did not end them. If the store answers, the
    rows of its running commands end in timeout and all other rows are untouched. *)
Theorem shutdown_stops_and_closes E reason w :
  daemon_ok w ->
  exists w', close_running_on_shutdown E reason w = (w', Ok tt)
  /\ (forall p, p ∈ live w' <-> p ∈ w_outlived w \/ (p ∈ w_procs w /\ ev_stops E p.1 = false))
  /\ (updates_answered E -> Forall2 (interrupted (w_running w)) (db_runs (w_db w)) (db_runs (w_db w'))).
Proof.
  intros ((_ & _ & Hcl & _) & _ & _ & Hsub). unfold close_running_on_shutdown.
  destruct (shutdown_procs E reason (w_running w) w) as (w' & Hw' & Hp). exists w'. split; [done|]. split.
  - assert (Hall : forall p, p ∈ w_procs w -> stopped_by (w_running w) p).
    { intros p Hin. eapply elem_of_submseteq in Hin; [|exact Hsub]. apply list_elem_of_fmap in Hin as (q & -> & Hq). by exists q. }
    intros p. unfold live. rewrite elem_of_app. destruct (Hp p) as [-> ->]. specialize (Hall p). tauto.
  - intros Hup. destruct (shutdown_rows E reason (w_running w) Hup w Hcl) as (w'' & Hw'' & Hf).
    rewrite Hw' in Hw''. by injection Hw'' as <-.
Qed.

(** ** A store that fails between the spawn and the claim *)
Definition down_at_insert (op : store_op) : option daemon_exn :=
  match op with OpInsert _ => Some (Caught false starting_up) | _ => None end.
Definition lab_loop (d : Db) : Loop := Build_Loop (lab_world d) fresh_waiter 0.
Definition turn_world (E : Env) (lp : Loop) : World := lp_world (fst (main_turn E lp)).

(** When the store goes away between the spawn and the insert of the run row, the child
    stays alive without a slot or a claim; the loop waits the outage out and the next scan
    starts the sync command a second time. *)
Lemma a_lost_insert_starts_a_sync_command_twice :
  exists E1 E2 lp,
    daemon_ok (lp_world lp) /\ w_procs (lp_world lp) = []
    /\ snd (main_turn E1 lp) = OutageWait 2
    /\ snd (main_turn E2 (fst (main_turn E1 lp))) = Passed
    /\ Forall (fun p => is_async (ac_run_mode p.2) = false) lab_commands
    /\ w_procs (turn_world E2 (fst (main_turn E1 lp))) = [(200, "APP-METRICS"); (201, "APP-METRICS")]
    /\ map fst (w_running (turn_world E2 (fst (main_turn E1 lp)))) = ["APP-METRICS#201"].
Proof.
  exists (lab_env "worker" lab_data lab_instant (Ok 200) down_at_insert),
    (lab_env "worker" lab_data (lab_instant + seconds 2) (Ok 201) no_outage), (lab_loop empty_db).
  split; [apply lab_world_ok, empty_store_ok|]. split; [done|].
  split; [vm_compute; reflexivity|]. split; [vm_compute; reflexivity|].
  split; [vm_compute; repeat constructor|]. split; vm_compute; reflexivity.
Qed.

(** ** A requested start that the claim index refuses *)
Definition held_row : JobRow :=
  {| jr_log_id := 3; jr_created_at := "2026-09-21T02:29:00Z"; jr_started_at := Some "2026-09-21T02:29:00Z";
     jr_finished_at := None; jr_job_code := "APP-METRICS"; jr_level := "logging"; jr_status := "running";
     jr_message := ""; jr_duration_ms := None; jr_error_text := None; jr_host_name := "worker-1";
     jr_claim_key := Some "APP-METRICS"; jr_metadata := [] |}.
Definition asked_db : Db :=
  Build_Db [held_row] 4
    [Build_Request 7 "APP-METRICS" STATUS_PENDING "ops" "console" "2026-09-21T02:30:00Z" None None None None ""] 8 [] [].
Lemma asked_db_ok : store_ok asked_db.
Proof.
  unfold store_ok, run_ids_ok, fk_ok. split_and!; try by apply (bool_decide_unpack _).
  intros r i ->%list_elem_of_singleton. done.
Qed.
Definition claimed_row (q : Request) (w : World) : Prop :=
  store_ok (w_db w) /\ q ∈ db_requests (w_db w) /\ rq_status q = STATUS_CLAIMED.
Lemma map_keeps_row (f : Request -> Request) q d : f q = q -> q ∈ db_requests d ->
  forall d', write_requests (map f (db_requests d)) d = Ok d' -> q ∈ db_requests d'.
Proof. intros Hf Hq d' [-> _]%write_requests_ok. cbn. apply list_elem_of_fmap. by exists q. Qed.
Lemma sweep_keeps_claimed E q : keeps (claimed_row q) (sweep_run_requests E).
Proof.
  apply keeps_fail_open, keeps_bind; [|intros _; apply keeps_bind; [|intros _; apply keeps_ret]];
    apply keeps_store; intros d w a d' <- H (Hok & Hq & Hst).
  - split; [eapply store_step_ok; [by eapply step_expire|done]|]. split; [|done].
    apply fmap_ok in H as (x & H & [= -> _]). revert H. apply map_keeps_row; [|done].
    rewrite bool_decide_false; [done|]. intros (y & Hy & [Hin Hs]%elem_of_filter_bool)%list_elem_of_fmap.
    destruct Hok as (_ & _ & _ & _ & Hids & _). rewrite <-(NoDup_map_inj rq_id _ q y Hids Hq Hin Hy) in Hs.
    unfold is_stale, has_status in Hs. by rewrite Hst in Hs.
  - split; [eapply store_step_ok; [by eapply step_close|done]|]. split; [|done].
    apply fmap_ok in H as (x & H & [= -> _]). revert H. apply map_keeps_row; [|done].
    unfold close_row, finished_run, has_status. by rewrite Hst.
Qed.

(** A requested start that the claim index refuses leaves its request in status claimed: no
    sweep of any daemon changes it and it can no longer be cancelled. *)
Lemma refused_request_stays_claimed :
  exists E w w' q,
    daemon_ok w /\ run_scheduler_scan E w = (w', Ok tt)
    /\ pending_for "APP-METRICS" (w_db w) <> None /\ w_procs w' = [] /\ w_running w' = []
    /\ q ∈ db_requests (w_db w') /\ rq_status q = STATUS_CLAIMED
    /\ (forall E' w'' r, sweep_run_requests E' w' = (w'', r) -> q ∈ db_requests (w_db w''))
    /\ (forall now actor, exists d, cancel_request now (rq_id q) actor (w_db w') = Ok (d, false)).
Proof.
  set (E := lab_env "worker" lab_data lab_instant (Ok 200) no_outage). set (w := lab_world asked_db).
  set (q := set_claimed "2026-09-21T02:30:10Z"
    (Build_Request 7 "APP-METRICS" STATUS_PENDING "ops" "console" "2026-09-21T02:30:00Z" None None None None "")).
  set (w' := lab_world (set_requests [q] asked_db)).
  assert (Hw' : store_ok (w_db w')).
  { unfold store_ok, run_ids_ok, fk_ok. split_and!; try by apply (bool_decide_unpack _).
    intros r i ->%list_elem_of_singleton. done. }
  exists E, w, w', q.
  split; [apply lab_world_ok, asked_db_ok|]. split; [vm_compute; reflexivity|]. split; [done|].
  split; [done|]. split; [done|]. split; [by left|]. split; [done|]. split; [|by eexists].
  intros E' w'' r H. eapply (sweep_keeps_claimed E' q); [exact H|]. split; [exact Hw'|]. split; [by left|done].
Qed.

(** ** A run-once command whose only row is archived *)
Definition once_data : pydict :=
  [("app_commands", PList [PDict [("app_command_id", PStr "APP-ONCE"); ("log_scope", PStr "once");
     ("time_window", PDict [("repeat_interval", PInt 0)])]])].
Definition once_row : JobRow :=
  {| jr_log_id := 1; jr_created_at := "2026-09-05T00:00:00Z"; jr_started_at := Some "2026-09-05T00:00:00Z";
     jr_finished_at := Some "2026-09-05T00:00:09Z"; jr_job_code := "APP-ONCE"; jr_level := "logging";
     jr_status := "done"; jr_message := ""; jr_duration_ms := Some 9000; jr_error_text := None;
     jr_host_name := "worker-1"; jr_claim_key := Some "APP-ONCE"; jr_metadata := [] |}.
Definition once_db : Db := Build_Db [once_row] 2 [] 1 [] [].
Lemma once_db_ok : store_ok once_db.
Proof.
  unfold store_ok, run_ids_ok, fk_ok. split_and!; try by apply (bool_decide_unpack _).
  intros r i []%not_elem_of_nil.
Qed.

(** The sweep of job_runs archives the only row of a run-once command after 15 days, its
    success included; the next scan finds no run and starts the command again. *)
Lemma archived_run_once_runs_again :
  exists E E' lp,
    daemon_ok (lp_world lp)
    /\ (exists r, fetch_latest_job_runs_by_job_code (w_db (lp_world lp)) "APP-ONCE" = Some r /\ jr_status r = "done")
    /\ snd (main_turn E lp) = Passed /\ w_procs (turn_world E lp) = []
    /\ fetch_latest_job_runs_by_job_code (w_db (turn_world E lp)) "APP-ONCE" = None
    /\ w_procs (turn_world E' (fst (main_turn E lp))) = [(300, "APP-ONCE")].
Proof.
  exists (lab_env "master" once_data lab_instant (Ok 299) no_outage),
    (lab_env "master" once_data (lab_instant + seconds 1) (Ok 300) no_outage), (lab_loop once_db).
  split; [apply lab_world_ok, once_db_ok|]. split; [by exists once_row|].
  split; [vm_compute; reflexivity|]. split; [vm_compute; reflexivity|]. split; vm_compute; reflexivity.
Qed.

(** ** Witnesses *)
Definition dead_row : JobRow :=
  {| jr_log_id := 3; jr_created_at := "2026-09-21T02:20:00Z"; jr_started_at := Some "2026-09-21T02:20:00Z";
     jr_finished_at := None; jr_job_code := "APP-METRICS"; jr_level := "logging"; jr_status := "running";
     jr_message := ""; jr_duration_ms := None; jr_error_text := None; jr_host_name := "worker-1";
     jr_claim_key := Some "APP-METRICS";
     jr_metadata := claim_fields 77 "worker-1" "node-1" "" |}.
Definition dead_db : Db := Build_Db [dead_row] 4 [] 1 [] [].
Lemma dead_db_ok : store_ok dead_db.
Proof.
  unfold store_ok, run_ids_ok, fk_ok. split_and!; try by apply (bool_decide_unpack _).
  intros r i []%not_elem_of_nil.
Qed.
Lemma recovery_closes_exactly_witness :
  let E := lab_env "worker" lab_data lab_instant (Ok 200) no_outage in
  let w := lab_world dead_db in
  map jr_status (db_runs (w_db (fst (recover_stale_running_jobs E lab_commands (Some "worker") w)))) = ["timeout"]
  /\ exists w' n, recover_stale_running_jobs E lab_commands (Some "worker") w = (w', Ok n)
     /\ Forall2 (recovered_to E lab_commands (Some "worker")) (db_runs (w_db w)) (db_runs (w_db w')).
Proof.
  cbv zeta. split; [vm_compute; reflexivity|].
  apply (recovery_closes_exactly (lab_env "worker" lab_data lab_instant (Ok 200) no_outage) lab_commands
    (Some "worker") (lab_world dead_db)); [exact dead_db_ok|done|done|].
  repeat constructor.
Defined.
(** The dead row's command, with its child still there. *)
Definition live_world (c : AppCommand) : World :=
  Build_World dead_db [(running_slot_key (ac_id c) 77, Build_RunningAppCommand c 77 lab_instant 3 None "")]
    [(77, ac_id c)] 0 [].
Lemma live_world_ok c : daemon_ok (live_world c).
Proof.
  split; [exact dead_db_ok|]. split; [split; [apply NoDup_singleton|by repeat constructor]|].
  split; [apply NoDup_singleton|done].
Qed.
Lemma shutdown_stops_and_closes_witness :
  let E := lab_env "worker" lab_data lab_instant (Ok 200) no_outage in
  Forall (fun p => let w := live_world p.2 in
    exists w', close_running_on_shutdown E "signal_15" w = (w', Ok tt)
    /\ (forall p, p ∈ live w' <-> p ∈ w_outlived w \/ (p ∈ w_procs w /\ ev_stops E p.1 = false))
    /\ (updates_answered E -> Forall2 (interrupted (w_running w)) (db_runs (w_db w)) (db_runs (w_db w'))))
  lab_commands.
Proof.
  cbv zeta. apply list.Forall_forall. intros p _.
  apply (shutdown_stops_and_closes (lab_env "worker" lab_data lab_instant (Ok 200) no_outage) "signal_15").
  apply live_world_ok.
Defined.

(** ** A clock set back while a child runs *)

(** When the clock is set back past the start of a child, reaping it writes a negative
    duration, which the table's check refuses; that error is let out of the loop and the daemon
    exits. *)
Lemma clock_set_back_ends_the_daemon (c : AppCommand) :
  exists E lp lp',
    daemon_ok (lp_world lp) /\ ev_poll E 77 = Some 0
    /\ main_turn E lp = (lp', LetOut (StoreRefused CheckViolation))
    /\ map jr_status (db_runs (w_db (lp_world lp'))) = ["running"].
Proof.
  exists (lab_env_polled (fun _ => Some 0) "worker" lab_data (lab_instant - seconds 10) (Ok 200) no_outage),
    (Build_Loop (live_world c) fresh_waiter 0).
  eexists. split; [apply live_world_ok|]. split; [done|]. split; [reflexivity|reflexivity].
Qed.

(** ** A child that outlives its stop *)
Definition with_stops (stops : Z -> bool) (E : Env) : Env :=
  {| ev_now := ev_now E; ev_monotonic := ev_monotonic E; ev_local := ev_local E; ev_process := ev_process E;
     ev_node_role := ev_node_role E; ev_single_pass := ev_single_pass E; ev_file := ev_file E; ev_poll := ev_poll E;
     ev_stops := stops; ev_stopped_code := ev_stopped_code E; ev_output := ev_output E; ev_spawn := ev_spawn E;
     ev_working_dir := ev_working_dir E; ev_sqlite_path := ev_sqlite_path E; ev_pid_alive := ev_pid_alive E;
     ev_down := ev_down E; ev_exn_text := ev_exn_text E |}.
(** The row of a run that is past its timeout is closed whether or not the stop ended the child:
    the claim is free, and the scan starts the sync command beside it. *)
Lemma a_child_that_outlives_its_stop_is_joined :
  match head lab_commands with
  | Some p => let c := p.2 in
      let E := with_stops (fun _ => false)
        (lab_env "worker" lab_data (lab_instant + seconds (timeout_seconds c + 1)) (Ok 200) no_outage) in
      let w := (run_scheduler_scan E (live_world c)).1 in
      is_async (ac_run_mode c) = false /\ live w = [(200, ac_id c); (77, ac_id c)]
      /\ map jr_status (db_runs (w_db w)) = ["timeout"; "running"]
  | None => False
  end.
Proof. vm_compute. split_and!; reflexivity. Qed.
