(* ===== verification/TrieRegex.v ===== *)
(** * One regular expression for many words ([lib/trie_regex.py]).

    [alternation] writes a list of words as a trie and prints the trie as the text of a
    Python regular expression.  The text is given its meaning here: [compile] reads the
    syntax of [re] the printer uses (escapes, [(?:...)], [|], [?], [(?!)]), and [run] is the
    backtracking matcher: what is left of the input after each way to match, in the order
    in which the engine tries them, so that the first one is the match and the others are
    what a surrounding pattern falls back to.  Characters are code points below 256, case
    is that of ASCII.  Words are short enough for Python's recursion limit. *)

From S2P Require Import Prelude Py.

(** ** The trie: nested dicts, the key [""] marks the end of a word *)
#[warnings="-register-all"]
Inductive trie : Type := Dict (entries : list (string * trie)).

Definition items (node : trie) : list (string * trie) := let 'Dict l := node in l.

(** The inner loop over the characters: [node = node.setdefault(char, {})], and at the end
    [node[""] = {}].  The path of nested dicts is rebuilt instead of written in place. *)
Fixpoint put (word : list ascii) (node : trie) : trie :=
  match word with
  | [] => Dict (assoc_set "" (Dict []) (items node))
  | char :: rest =>
      let child := default (Dict []) (assoc (String char "") (items node)) in
      Dict (assoc_set (String char "") (put rest child) (items node))
  end.

Definition spelled (fold : bool) (word : string) : string := if fold then lower word else word.

Definition build (fold : bool) (words : list string) : trie :=
  fold_left (fun trie word =>
    if String.eqb word "" then trie else put (chars (spelled fold word)) trie) words (Dict []).

(** [re.escape]. *)
Definition special (a : ascii) : bool :=
  existsb (Ascii.eqb a) (chars "()[]{}?*+-|^$\.&~#") || between 9 (code a) 13 || (code a =? 32).
Definition escape_char (a : ascii) : list ascii := if special a then ["\"%char; a] else [a].
Definition escape (s : string) : string := text (flat_map escape_char (chars s)).

(** [sorted(node.items())]: the keys of a dict differ, so they decide. *)
Definition by_key {A} (l : list (string * A)) : list (string * A) :=
  merge_sort (fun x y : string * A => String.le x.1 y.1) l.
Definition branches_of {A} (l : list (string * A)) : list A :=
  map snd (List.filter (fun kv => negb (String.eqb kv.1 "")) (by_key l)).
Definition ends {A} (l : list (string * A)) : bool := existsb (fun kv => String.eqb kv.1 "") l.

(** [_node]. *)
Fixpoint node_text (node : trie) : string :=
  let 'Dict l := node in
  let branches := branches_of (map (fun '(char, child) =>
    (char, escape char +:+ node_text child)) l) in
  match branches with
  | [] => ""
  | _ =>
      let body := match branches with [b] => b | _ => "(?:" +:+ join "|" branches +:+ ")" end in
      if ends l then
        (if (length branches =? 1)%nat && (1 <? str_len body)%nat
         then "(?:" +:+ body +:+ ")" else body) +:+ "?"
      else body
  end.

Definition alternation (fold : bool) (words : list string) : string :=
  let trie := build fold words in
  match items trie with [] => "(?!)" | _ => "(?:" +:+ node_text trie +:+ ")" end.

(** ** What the text means: the syntax of [re] the printer uses *)
Inductive rx : Type :=
| Eps | Never
| Lit (a : ascii)
| Cat (r1 r2 : rx) | Alt (r1 r2 : rx)
| Opt (r : rx).

Fixpoint seq_of (l : list rx) : rx :=
  match l with [] => Eps | [r] => r | r :: l => Cat r (seq_of l) end.
Fixpoint alt_of (l : list rx) : rx :=
  match l with [] => Never | [r] => r | r :: l => Alt r (alt_of l) end.

(** A group that is being read: the branches before the last [|] and the items after it,
    each last first. *)
Record frame := Frame { closed : list rx; open_items : list rx }.
Definition push (r : rx) (f : frame) : frame := Frame (closed f) (r :: open_items f).
Definition close (f : frame) : rx := alt_of (reverse (seq_of (reverse (open_items f)) :: closed f)).
Definition meta (a : ascii) : bool := existsb (Ascii.eqb a) (chars "()[{?*+|^$\.").

Fixpoint read (s : list ascii) (stack : list frame) (f : frame) : option (list frame * frame) :=
  match s with
  | [] => Some (stack, f)
  | a :: s1 =>
      if Ascii.eqb a "(" then
        match s1 with
        | q :: c :: s2 =>
            if negb (Ascii.eqb q "?") then None
            else if Ascii.eqb c ":" then read s2 (f :: stack) (Frame [] [])
            else match s2 with
                 | p :: s3 =>
                     if Ascii.eqb c "!" && Ascii.eqb p ")" then read s3 stack (push Never f)
                     else None
                 | [] => None
                 end
        | _ => None
        end
      else if Ascii.eqb a ")" then
        match stack with g :: stack => read s1 stack (push (close f) g) | [] => None end
      else if Ascii.eqb a "|" then
        read s1 stack (Frame (seq_of (reverse (open_items f)) :: closed f) [])
      else if Ascii.eqb a "?" then
        match open_items f with
        | [] | Opt _ :: _ => None
        | r :: l => read s1 stack (Frame (closed f) (Opt r :: l))
        end
      else if Ascii.eqb a "\" then
        match s1 with
        | e :: s2 => if is_alnum e then None else read s2 stack (push (Lit e) f)
        | [] => None
        end
      else if meta a then None else read s1 stack (push (Lit a) f)
  end.

Definition compile (s : string) : option rx :=
  match read (chars s) [] (Frame [] []) with
  | Some ([], f) => Some (close f)
  | _ => None
  end.

(** [re.IGNORECASE] compares the lower case. *)
Definition norm1 (fold : bool) (a : ascii) : ascii := if fold then to_lower a else a.
Definition norm (fold : bool) (w : list ascii) : list ascii := map (norm1 fold) w.

(** The remainders of the input, in the order of the backtracking engine. *)
Fixpoint run (fold : bool) (r : rx) (s : list ascii) : list (list ascii) :=
  match r with
  | Eps => [s]
  | Never => []
  | Lit a => match s with
             | c :: s' => if Ascii.eqb (norm1 fold a) (norm1 fold c) then [s'] else []
             | [] => []
             end
  | Cat r1 r2 => flat_map (run fold r2) (run fold r1 s)
  | Alt r1 r2 => run fold r1 s ++ run fold r2 s
  | Opt r => run fold r s ++ [s]
  end.

(** ** The specification: the words at the head of the input, the longest first *)
Definition is_word (fold : bool) (words : list string) (w : list ascii) : bool :=
  existsb (fun word => negb (String.eqb word "") &&
                       bool_decide (norm fold w = norm fold (chars word))) words.

Definition longest_first (P : list ascii -> bool) (s : list ascii) : list (list ascii) :=
  map (fun n => drop n s)
    (List.filter (fun n => P (take n s)) (reverse (seq 0 (S (length s))))).

Definition longer (x y : string) : Prop := (str_len y <= str_len x)%nat.
#[export] Instance longer_dec x y : Decision (longer x y).
Proof. unfold longer. apply _. Defined.

(** The plain alternation the module replaces: the words sorted by length, longest first. *)
Definition plain (fold : bool) (words : list string) : string :=
  "(?:" +:+ join "|" (map escape
    (merge_sort longer (map (spelled fold) words))) +:+ ")".

Example alternation_example :
  alternation false ["10.0.2.248"; "10.0.1.5"; "10.0.1"] =
  "(?:10\.0\.(?:1(?:\.5)?|2\.248))".
Proof. vm_compute. reflexivity. Qed.

(** ** Reading the printed text *)
Lemma read_lit a s st f : read (escape_char a ++ s) st f = read s st (push (Lit a) f).
Proof. destruct a as [[] [] [] [] [] [] [] []]; reflexivity. Qed.

(** [t] is the text of the items [l]: reading it adds them to the open group. *)
Definition reads (t : string) (l : list rx) : Prop := forall s st f,
  read (chars t ++ s) st f = read s st (Frame (closed f) (reverse l ++ open_items f)).

Lemma reads_nil : reads "" [].
Proof. intros s st [cl op]. done. Qed.

Lemma reads_app t1 l1 t2 l2 : reads t1 l1 -> reads t2 l2 -> reads (t1 +:+ t2) (l1 ++ l2).
Proof.
  intros H1 H2 s st f. rewrite chars_app, <- app_assoc, H1, H2. cbn [closed open_items].
  by rewrite reverse_app, app_assoc.
Qed.

Lemma reads_escape w : reads (escape w) (map Lit (chars w)).
Proof.
  unfold escape. intros s st f. rewrite chars_text. revert f.
  induction (chars w) as [|a l IH]; intros f; cbn [flat_map map].
  - by destruct f.
  - rewrite <- app_assoc, read_lit, IH. cbn [closed open_items push].
    by rewrite reverse_cons, <- app_assoc.
Qed.

Lemma read_branches ts ls : Forall2 reads ts ls -> ts <> [] -> forall s st g cl,
  read (chars (join "|" ts) ++ ")"%char :: s) (g :: st) (Frame cl []) =
  read s st (push (alt_of (reverse cl ++ map seq_of ls)) g).
Proof.
  induction 1 as [|t l ts ls Ht Hts IH]; [done|]. intros _ s st g cl.
  destruct Hts as [|t' l' ts ls Ht' Hts]; cbn [join].
  - rewrite Ht. cbn [read closed open_items]. cbn [Ascii.eqb Bool.eqb]. f_equal. unfold close. cbn [closed open_items].
    by rewrite app_nil_r, reverse_involutive, reverse_cons.
  - rewrite !chars_app, <- !app_assoc, Ht. cbn [chars app read closed open_items].
    cbn [Ascii.eqb Bool.eqb]. rewrite IH by done. rewrite app_nil_r, reverse_involutive, reverse_cons, <- app_assoc.
    done.
Qed.

Lemma reads_group ts ls : Forall2 reads ts ls -> ts <> [] ->
  reads ("(?:" +:+ join "|" ts +:+ ")") [alt_of (map seq_of ls)].
Proof.
  intros H Hne s st f. rewrite !chars_app. change (chars "(?:") with ["("; "?"; ":"]%char.
  change (chars ")") with [")"]%char. rewrite <- !app_assoc. cbn [app].
  cbn [read]. cbn [Ascii.eqb Bool.eqb negb]. by rewrite (read_branches ts ls).
Qed.

Definition is_opt (r : rx) : bool := match r with Opt _ => true | _ => false end.

Lemma reads_opt t r : reads t [r] -> is_opt r = false -> reads (t +:+ "?") [Opt r].
Proof.
  intros H Hr s st f. rewrite chars_app, <- app_assoc, H. by destruct r.
Qed.

(** ** Sorting under a map that keeps the keys *)
Lemma by_key_map {A B} (f : string -> A -> B) (l : list (string * A)) :
  by_key (map (fun kv => (kv.1, f kv.1 kv.2)) l) = map (fun kv => (kv.1, f kv.1 kv.2)) (by_key l).
Proof. apply (merge_sort_map (fun kv : string * A => (kv.1, f kv.1 kv.2))). done. Qed.

(** The entries that are not the end of a word, in the order of the keys. *)
Definition kids {A} (l : list (string * A)) : list (string * A) :=
  List.filter (fun kv => negb (String.eqb kv.1 "")) (by_key l).

Lemma branches_of_map {A B} (f : string -> A -> B) (l : list (string * A)) :
  branches_of (map (fun kv => (kv.1, f kv.1 kv.2)) l) = map (fun kv => f kv.1 kv.2) (kids l).
Proof.
  unfold branches_of, kids. rewrite by_key_map.
  induction (by_key l) as [|[k v] l' IH]; [done|]. cbn [map List.filter fst snd].
  destruct (negb _); cbn [map fst snd]; by rewrite IH.
Qed.

Lemma elem_of_kids {A} (l : list (string * A)) k v : (k, v) ∈ kids l <-> (k, v) ∈ l /\ k <> "".
Proof.
  unfold kids. rewrite elem_of_filter_bool. unfold by_key. rewrite merge_sort_Permutation. cbn.
  by rewrite negb_true_iff, String.eqb_neq.
Qed.

(** The items [node_text] prints, by the same recursion. *)
Fixpoint node_items (node : trie) : list rx :=
  let 'Dict l := node in
  let branches := branches_of (map (fun kv =>
    (kv.1, map Lit (chars kv.1) ++ node_items kv.2)) l) in
  match branches with
  | [] => []
  | _ =>
      let body := match branches with [b] => b | _ => [alt_of (map seq_of branches)] end in
      if ends l then [Opt (seq_of body)] else body
  end.

(** What [build] makes: keys are single characters or the end mark, which holds an empty
    dict; every other dict has an entry, and its keys are normalised. *)
Inductive well_formed (fold : bool) : trie -> Prop :=
| well_formed_dict l :
    NoDup (map fst l) ->
    (forall k t, (k, t) ∈ l -> (k = "" /\ t = Dict []) \/
      (exists c, k = String c "" /\ norm1 fold c = c /\ items t <> [])) ->
    (forall c t, (String c "", t) ∈ l -> well_formed fold t) ->
    well_formed fold (Dict l).

Lemma node_text_eq l : node_text (Dict l) =
  let branches := map (fun kv => escape kv.1 +:+ node_text kv.2) (kids l) in
  match branches with
  | [] => ""
  | _ =>
      let body := match branches with [b] => b | _ => "(?:" +:+ join "|" branches +:+ ")" end in
      if ends l then
        (if (length branches =? 1)%nat && (1 <? str_len body)%nat
         then "(?:" +:+ body +:+ ")" else body) +:+ "?"
      else body
  end.
Proof.
  cbn [node_text].
  assert (map (fun '(char, child) => (char, escape char +:+ node_text child)) l =
          map (fun kv => (kv.1, escape kv.1 +:+ node_text kv.2)) l) as ->.
  { apply map_ext. by intros []. }
  by rewrite (branches_of_map (fun char child => escape char +:+ node_text child)).
Qed.

Lemma node_items_eq l : node_items (Dict l) =
  let branches := map (fun kv => map Lit (chars kv.1) ++ node_items kv.2) (kids l) in
  match branches with
  | [] => []
  | _ =>
      let body := match branches with [b] => b | _ => [alt_of (map seq_of branches)] end in
      if ends l then [Opt (seq_of body)] else body
  end.
Proof.
  cbn [node_items].
  by rewrite (branches_of_map (fun char child => map Lit (chars char) ++ node_items child)).
Qed.

Lemma reads_inj_empty l : reads "" l -> l = [].
Proof.
  intros H. specialize (H [] [] (Frame [] [])). cbn in H. injection H as H.
  rewrite app_nil_r in H. destruct l as [|x l] using rev_ind; [done|].
  rewrite reverse_snoc in H. done.
Qed.

Lemma escape_char_length a : (1 <= length (escape_char a))%nat.
Proof. unfold escape_char. destruct (special a); cbn; lia. Qed.

(** A branch is an escaped character and the text of its child. *)
Definition branch (t : string) (b : list rx) : Prop := exists a t' b',
  t = escape (String a "") +:+ t' /\ b = Lit a :: b' /\ reads t' b'.

Lemma branch_reads t b : branch t b -> reads t b.
Proof.
  intros (a & t' & b' & -> & -> & H). by apply (reads_app _ [Lit a]); [apply (reads_escape (String a ""))|].
Qed.

Lemma branch_short t b : branch t b -> (str_len t <= 1)%nat -> exists a, b = [Lit a].
Proof.
  intros (a & t' & b' & -> & -> & H) Hlen. exists a. f_equal. apply reads_inj_empty.
  destruct t' as [|c t']; [done|]. exfalso.
  unfold str_len, escape in Hlen. rewrite chars_app, chars_text, length_app in Hlen.
  cbn [chars flat_map] in Hlen. rewrite app_nil_r in Hlen.
  pose proof (escape_char_length a). cbn [length] in Hlen. lia.
Qed.

Lemma branches_read fold l :
  (forall k t, (k, t) ∈ l -> (k = "" /\ t = Dict []) \/
     (exists c, k = String c "" /\ norm1 fold c = c /\ items t <> [])) ->
  (forall c t, (String c "", t) ∈ l -> reads (node_text t) (node_items t)) ->
  Forall2 branch (map (fun kv => escape kv.1 +:+ node_text kv.2) (kids l))
                 (map (fun kv => map Lit (chars kv.1) ++ node_items kv.2) (kids l)).
Proof.
  intros Hk IH. apply Forall2_fmap_2, Forall_Forall2_diag, list.Forall_forall. intros [k t] Hin.
  apply elem_of_kids in Hin as [Hin Hne]. cbn.
  destruct (Hk _ _ Hin) as [[-> _]|(c & -> & _)]; [done|].
  exists c, (node_text t), (node_items t). eauto.
Qed.

(** The text of a node reads back as its items. *)
Lemma reads_node fold t : well_formed fold t -> reads (node_text t) (node_items t).
Proof.
  induction 1 as [l Hnd Hk Hwf IH]. rewrite node_text_eq, node_items_eq. cbv zeta.
  pose proof (branches_read fold l Hk IH) as Hall. revert Hall.
  generalize (map (fun kv => map Lit (chars kv.1) ++ node_items kv.2) (kids l)).
  generalize (map (fun kv => escape kv.1 +:+ node_text kv.2) (kids l)).
  intros ts ls Hall. assert (Forall2 reads ts ls) as Hreads.
  { eapply Forall2_impl; [|exact Hall]. apply branch_reads. }
  pose proof (reads_group ts ls Hreads) as Hg.
  destruct Hall as [|t b ts ls Hb Hall]; [apply reads_nil|]. specialize (Hg ltac:(done)).
  destruct Hall as [|t' b' ts ls Hb' Hall]; (destruct (ends l); [|by inversion Hreads]).
  - cbn [length Nat.eqb andb]. destruct (Nat.ltb_spec 1 (str_len t)) as [Hlen|Hlen].
    + apply reads_opt; [done|]. destruct Hb as (a & t' & b' & -> & -> & _). by destruct b'.
    + destruct (branch_short t b Hb Hlen) as [a ->]. by apply reads_opt; [apply branch_reads|].
  - by apply reads_opt.
Qed.

(** ** Matching *)
Lemma run_seq_cons fold r l s :
  run fold (seq_of (r :: l)) s = flat_map (run fold (seq_of l)) (run fold r s).
Proof.
  destruct l; [|done]. cbn [seq_of].
  induction (run fold r s) as [|x xs IH]; [done|]. cbn. by f_equal.
Qed.

Lemma run_alt fold l s : run fold (alt_of l) s = flat_map (fun r => run fold r s) l.
Proof.
  induction l as [|r l IH]; [done|]. destruct l as [|r' l].
  - cbn. by rewrite app_nil_r.
  - change (run fold r s ++ run fold (alt_of (r' :: l)) s =
            flat_map (fun r => run fold r s) (r :: r' :: l)). by rewrite IH.
Qed.

Lemma run_lit_cons fold a l s : run fold (seq_of (Lit a :: l)) s =
  match s with
  | c :: s' => if Ascii.eqb (norm1 fold a) (norm1 fold c) then run fold (seq_of l) s' else []
  | [] => []
  end.
Proof.
  rewrite run_seq_cons. cbn [run]. destruct s as [|c s]; [done|].
  destruct (Ascii.eqb _ _); [|done]. cbn. apply app_nil_r.
Qed.

Lemma longest_first_nil P : longest_first P [] = if P [] then [[]] else [].
Proof. unfold longest_first. cbn. by destruct (P []). Qed.

Lemma filter_map {A B} (p : B -> bool) (f : A -> B) l :
  List.filter p (map f l) = map f (List.filter (fun x => p (f x)) l).
Proof. induction l as [|x l IH]; cbn; [done|]. destruct (p (f x)); cbn; by rewrite IH. Qed.

Lemma longest_first_cons P c s :
  longest_first P (c :: s) = longest_first (fun w => P (c :: w)) s ++ (if P [] then [c :: s] else []).
Proof.
  unfold longest_first. cbn [length].
  change (seq 0 (S (S (length s)))) with (0%nat :: seq 1 (S (length s))).
  rewrite <- seq_shift, reverse_cons, List.filter_app, map_app.
  change (map S (seq 0 (S (length s)))) with (S <$> seq 0 (S (length s))).
  rewrite <- fmap_reverse. change (@fmap list _ nat nat) with (@map nat nat). rewrite filter_map, map_map. f_equal.
  cbn. by destruct (P []).
Qed.

Lemma longest_first_ext P Q s : (forall w, P w = Q w) -> longest_first P s = longest_first Q s.
Proof.
  intros H. unfold longest_first. f_equal. apply List.filter_ext. auto.
Qed.

Lemma longest_first_none s : longest_first (fun _ => false) s = [].
Proof. induction s as [|c s IH]; [done|]. by rewrite longest_first_cons, IH. Qed.

(** The words of a trie. *)
Fixpoint lang (w : list ascii) (t : trie) : bool :=
  match w with
  | [] => match assoc "" (items t) with Some _ => true | None => false end
  | c :: w => match assoc (String c "") (items t) with Some child => lang w child | None => false end
  end.

Lemma ends_assoc {A} (l : list (string * A)) :
  ends l = match assoc "" l with Some _ => true | None => false end.
Proof.
  unfold ends. induction l as [|[k v] l IH]; [done|]. cbn [existsb fst assoc]. rewrite IH.
  rewrite (String.eqb_sym "" k). by destruct (String.eqb k "").
Qed.

(** Among keys that differ, the one that is looked for is the only branch that matches. *)
Lemma flat_map_key {A B} (f : A -> list B) (l : list (string * A)) k : NoDup (map fst l) ->
  flat_map (fun kv => if String.eqb kv.1 k then f kv.2 else []) l =
  match assoc k l with Some v => f v | None => [] end.
Proof.
  induction l as [|[k' v'] l IH]; cbn; [done|]. intros [Hk Hnd]%list.NoDup_cons.
  rewrite (String.eqb_sym k' k). destruct (String.eqb_spec k k') as [->|Hne]; [|by apply IH].
  rewrite IH by done. destruct (assoc k' l) as [v|] eqn:E; [|apply app_nil_r].
  apply assoc_elem in E; [|done]. destruct Hk. apply list_elem_of_fmap. by exists (k', v).
Qed.

Lemma kids_NoDup {A} (l : list (string * A)) : NoDup (map fst l) -> NoDup (map fst (kids l)).
Proof.
  intros H. unfold kids, by_key. eapply sublist_NoDup; [|apply map_filter_sublist].
  change (NoDup (fst <$> merge_sort (fun x y : string * A => String.le x.1 y.1) l)).
  by rewrite merge_sort_Permutation.
Qed.

Lemma kids_assoc {A} (l : list (string * A)) k : NoDup (map fst l) -> k <> "" ->
  assoc k (kids l) = assoc k l.
Proof.
  intros Hnd Hk. apply option_eq. intros v. rewrite !assoc_elem, elem_of_kids by auto using kids_NoDup.
  split; [by intros []|done].
Qed.

Lemma run_branches fold (l : list (string * trie)) s : NoDup (map fst l) ->
  (forall k t, (k, t) ∈ l -> (k = "" /\ t = Dict []) \/
     (exists c, k = String c "" /\ norm1 fold c = c /\ items t <> [])) ->
  flat_map (fun r => run fold r s)
    (map seq_of (map (fun kv => map Lit (chars kv.1) ++ node_items kv.2) (kids l))) =
  match s with
  | [] => []
  | c :: s' => match assoc (String (norm1 fold c) "") l with
               | Some t => run fold (seq_of (node_items t)) s'
               | None => []
               end
  end.
Proof.
  intros Hnd Hk. rewrite map_map, flat_map_concat_map, map_map, <- flat_map_concat_map.
  assert (Forall (fun kv => exists c, kv.1 = String c "" /\ norm1 fold c = c) (kids l)) as Hsingle.
  { apply list.Forall_forall. intros [k t] [Hin Hne]%elem_of_kids.
    destruct (Hk _ _ Hin) as [[-> _]|(c & -> & ? & _)]; [done|]. cbn. eauto. }
  destruct s as [|c s].
  - induction Hsingle as [|[k t] l' (c & Hc & _) _ IH]; [done|]. cbn in Hc. subst k.
    cbn [flat_map fst snd chars map app]. by rewrite run_lit_cons.
  - rewrite <- (kids_assoc l _ Hnd) by done.
    rewrite <- (flat_map_key (fun t => run fold (seq_of (node_items t)) s) (kids l))
      by (by apply kids_NoDup).
    induction Hsingle as [|[k t] l' (a & Ha & Hn) _ IH]; [done|]. cbn in Ha. subst k.
    cbn [flat_map fst snd chars map app]. rewrite run_lit_cons, Hn, IH. f_equal.
    cbn [String.eqb]. by destruct (Ascii.eqb a _).
Qed.

(** A node matches its words, the longest first. *)
Lemma run_node fold t : well_formed fold t -> items t <> [] -> forall s,
  run fold (seq_of (node_items t)) s = longest_first (fun w => lang (norm fold w) t) s.
Proof.
  induction 1 as [l Hnd Hk Hwf IH]. intros Hne s.
  assert (longest_first (fun w => lang (norm fold w) (Dict l)) s =
    match s with
    | [] => []
    | c :: s' => match assoc (String (norm1 fold c) "") l with
                 | Some t => run fold (seq_of (node_items t)) s'
                 | None => []
                 end
    end ++ (if ends l then [s] else [])) as ->.
  { rewrite ends_assoc. destruct s as [|c s]; [by rewrite longest_first_nil; cbn; destruct (assoc "" l)|].
    rewrite longest_first_cons. cbn [norm map lang items].
    assert ((if match assoc "" l with Some _ => true | None => false end then [c :: s] else []) =
            match assoc "" l with Some _ => [c :: s] | None => [] end) as -> by by destruct (assoc "" l).
    f_equal.
    destruct (assoc (String (norm1 fold c) "") l) as [t|] eqn:E; [|apply longest_first_none].
    apply assoc_elem in E; [|done]. destruct (Hk _ _ E) as [[? _]|(a & _ & _ & Ht)]; [done|].
    symmetry. by apply (IH (norm1 fold c)). }
  rewrite <- (run_branches fold l s Hnd Hk), node_items_eq. cbv zeta.
  destruct (kids l) as [|kv [|kv' ks]] eqn:Eks; cbn [map].
  - assert (ends l = true) as ->; [|done]. destruct l as [|[k t] l]; [done|].
    destruct (ends ((k, t) :: l)) eqn:E; [done|]. exfalso.
    assert ((k, t) ∈ kids ((k, t) :: l)) as Hin.
    { apply elem_of_kids. split; [by left|]. intros ->. by cbn in E. }
    rewrite Eks in Hin. by apply not_elem_of_nil in Hin.
  - destruct (ends l); cbn [flat_map]; rewrite !app_nil_r; [|done].
    cbn [seq_of run]. done.
  - rewrite <- (run_alt fold). cbn [map]. destruct (ends l); [done|]. by rewrite app_nil_r.
Qed.

(** ** What [build] makes *)
Lemma elem_of_assoc_set {A} k (v : A) l k' v' : NoDup (map fst l) ->
  (k', v') ∈ assoc_set k v l -> (k' = k /\ v' = v) \/ (k' <> k /\ (k', v') ∈ l).
Proof.
  intros Hnd H. apply assoc_elem in H; [|by apply assoc_set_NoDup].
  destruct (decide (k' = k)) as [->|Hne].
  - rewrite assoc_set_eq in H. left. by simplify_eq.
  - rewrite assoc_set_ne in H by done. right. by rewrite assoc_elem in H.
Qed.

Lemma assoc_set_not_nil {A} k (v : A) l : assoc_set k v l <> [].
Proof. destruct l as [|[k' v'] l]; cbn; [done|]. by destruct (String.eqb k k'). Qed.

Lemma well_formed_empty fold : well_formed fold (Dict []).
Proof.
  constructor; [constructor|intros k t H|intros c t H]; by apply not_elem_of_nil in H.
Qed.

Lemma well_formed_set fold k t l : well_formed fold (Dict l) ->
  (k = "" /\ t = Dict [] \/ exists c, k = String c "" /\ norm1 fold c = c /\ items t <> []) ->
  well_formed fold t -> well_formed fold (Dict (assoc_set k t l)).
Proof.
  inversion 1 as [l' Hnd Hk Hwf]; subst l'. intros Hnew Ht. constructor.
  - by apply assoc_set_NoDup.
  - intros k' t' [[-> ->]|[_ Hin]]%elem_of_assoc_set; [done|by apply Hk|done].
  - intros c t' [[_ ->]|[_ Hin]]%elem_of_assoc_set; [done|by apply (Hwf c)|done].
Qed.

Lemma well_formed_put fold w t : well_formed fold t -> Forall (fun c => norm1 fold c = c) w ->
  well_formed fold (put w t).
Proof.
  revert t. induction w as [|c w IH]; intros [l] Ht Hw; cbn [put items].
  - apply well_formed_set; [done|by left|apply well_formed_empty].
  - apply list.Forall_cons in Hw as [Hc Hw]. apply well_formed_set; [done| |].
    + right. exists c. split_and!; [done..|]. destruct w; cbn [put items]; apply assoc_set_not_nil.
    + apply IH; [|done]. destruct (assoc (String c "") l) as [t|] eqn:E; [|apply well_formed_empty].
      inversion Ht as [l' Hnd Hk Hwf]; subst l'. apply (Hwf c). by apply assoc_elem.
Qed.

Lemma lang_put w t v : lang v (put w t) = bool_decide (v = w) || lang v t.
Proof.
  revert t v. induction w as [|c w IH]; intros t [|d v]; cbn [put lang items].
  - by rewrite assoc_set_eq.
  - by rewrite assoc_set_ne.
  - by rewrite assoc_set_ne.
  - destruct (decide (d = c)) as [->|Hne].
    + rewrite assoc_set_eq, IH. destruct (assoc (String c "") (items t)) as [t'|] eqn:E; cbn [default].
      * f_equal. apply bool_decide_ext. naive_solver.
      * destruct v; cbn [lang items assoc]; rewrite !orb_false_r; apply bool_decide_ext; naive_solver.
    + rewrite assoc_set_ne by congruence. rewrite bool_decide_false by congruence. done.
Qed.

Lemma to_lower_idemp a : to_lower (to_lower a) = to_lower a.
Proof. destruct a as [[] [] [] [] [] [] [] []]; reflexivity. Qed.

Lemma chars_spelled fold w : chars (spelled fold w) = norm fold (chars w).
Proof.
  destruct fold; cbn [spelled]; [unfold lower; apply chars_text|].
  unfold norm. cbn [norm1]. symmetry. apply map_id.
Qed.

Lemma norm_normal fold w : Forall (fun c => norm1 fold c = c) (norm fold w).
Proof.
  apply Forall_fmap, list.Forall_forall. intros c _. cbn. destruct fold; [apply to_lower_idemp|done].
Qed.

Lemma build_spec fold words : well_formed fold (build fold words) /\
  forall w, lang (norm fold w) (build fold words) = is_word fold words w.
Proof.
  unfold build, is_word.
  enough (forall l t, well_formed fold t -> well_formed fold (fold_left (fun trie word =>
    if String.eqb word "" then trie else put (chars (spelled fold word)) trie) l t) /\
    forall w, lang (norm fold w) (fold_left (fun trie word =>
    if String.eqb word "" then trie else put (chars (spelled fold word)) trie) l t) =
      existsb (fun word => negb (String.eqb word "") &&
        bool_decide (norm fold w = norm fold (chars word))) l || lang (norm fold w) t) as H.
  { destruct (H words (Dict []) (well_formed_empty fold)) as [H1 H2]. split; [done|].
    intros w. rewrite H2. by destruct w; cbn [norm map lang items assoc]; rewrite orb_false_r. }
  induction l as [|word l IH]; intros t Ht; cbn [fold_left existsb]; [done|].
  destruct (String.eqb_spec word "") as [->|Hne]; cbn [negb andb orb]; [by apply IH|].
  rewrite chars_spelled.
  destruct (IH (put (norm fold (chars word)) t)) as [H1 H2].
  { apply well_formed_put; [done|apply norm_normal]. }
  split; [done|]. intros w. rewrite H2, lang_put, !orb_assoc. f_equal. apply orb_comm.
Qed.

Lemma items_build fold words : items (build fold words) = [] ->
  forall w, is_word fold words w = false.
Proof.
  intros H w. destruct (build_spec fold words) as [_ <-].
  by destruct w; cbn [norm map lang]; rewrite H.
Qed.

Lemma alternation_runs fold words : exists r,
  compile (alternation fold words) = Some r /\
  forall s, run fold r s = longest_first (is_word fold words) s.
Proof.
  destruct (build_spec fold words) as [Hwf Hlang]. unfold alternation, compile.
  destruct (items (build fold words)) as [|e l] eqn:E.
  - exists Never. split; [reflexivity|]. intros s. cbn [run].
    rewrite (longest_first_ext _ (fun _ => false)) by by apply items_build.
    by rewrite longest_first_none.
  - exists (seq_of (node_items (build fold words))). split.
    + rewrite <- (app_nil_r (chars _)).
      pose proof (reads_group [node_text (build fold words)] [node_items (build fold words)]) as Hg.
      cbn [join map alt_of] in Hg. rewrite Hg; [done| |done].
      repeat constructor. by apply (reads_node fold).
    + intros s. rewrite run_node by (done || by rewrite E). by apply longest_first_ext.
Qed.

(** ** The plain alternation *)
Lemma run_word fold w s : run fold (seq_of (map Lit w)) s =
  if bool_decide (norm fold (take (length w) s) = norm fold w) then [drop (length w) s] else [].
Proof.
  revert s. induction w as [|a w IH]; intros s; cbn [map length]; [done|].
  rewrite run_lit_cons. destruct s as [|c s]; [done|]. cbn [take drop norm map].
  destruct (Ascii.eqb_spec (norm1 fold a) (norm1 fold c)) as [->|Hne].
  - rewrite IH. destruct (bool_decide_reflect (norm fold (take (length w) s) = norm fold w)) as [E|E];
      [rewrite bool_decide_true|rewrite bool_decide_false]; unfold norm in *; congruence.
  - rewrite bool_decide_false; [done|]. congruence.
Qed.

Definition heads (fold : bool) (s : list ascii) (w : string) : bool :=
  bool_decide (norm fold (take (str_len w) s) = norm fold (chars w)).

Lemma run_words fold words s :
  run fold (alt_of (map seq_of (map (fun w => map Lit (chars w)) words))) s =
  map (fun n => drop n s) (map str_len (List.filter (heads fold s) words)).
Proof.
  rewrite run_alt, flat_map_concat_map, !map_map.
  induction words as [|w words IH]; [done|]. cbn [map concat List.filter].
  rewrite IH, run_word. unfold heads, str_len. by destruct (bool_decide _).
Qed.

#[export] Instance longer_trans : Transitive longer.
Proof. intros x y z. unfold longer. lia. Qed.
#[export] Instance longer_total : Total longer.
Proof. intros x y. unfold longer. lia. Qed.

Lemma StronglySorted_map_filter {A B} (R : relation A) (R' : relation B) (f : A -> B) p l :
  (forall x y, R x y -> R' (f x) (f y)) -> StronglySorted R l ->
  StronglySorted R' (map f (List.filter p l)).
Proof.
  intros Hf. induction 1 as [|x l Hs IH Hx]; cbn; [constructor|]. destruct (p x); [|done].
  cbn. constructor; [done|]. apply list.Forall_forall. intros y Hy.
  apply list_elem_of_fmap in Hy as (z & -> & Hz). apply elem_of_filter_bool in Hz as [Hz _].
  apply Hf. by eapply list.Forall_forall in Hx.
Qed.

Lemma StronglySorted_down n : StronglySorted ge (reverse (seq 0 n)).
Proof.
  induction n as [|n IH]; [constructor|]. rewrite seq_S, reverse_snoc. constructor; [done|].
  apply list.Forall_forall. intros m. rewrite elem_of_reverse, elem_of_seq. lia.
Qed.

Lemma norm_spelled fold w : norm fold (chars (spelled fold w)) = chars (spelled fold w).
Proof.
  rewrite chars_spelled. induction (norm_normal fold (chars w)) as [|c l Hc _ IH]; [done|].
  cbn. by rewrite Hc; f_equal.
Qed.

Lemma norm_length fold w : length (norm fold w) = length w.
Proof. apply length_map. Qed.

(** The lengths of the words at the head of the input, as the trie and as the sorted list
    of words give them. *)
Lemma word_lengths fold words s : (forall w, w ∈ words -> w <> "") ->
  NoDup (map (spelled fold) words) ->
  map str_len (List.filter (heads fold s) (merge_sort longer (map (spelled fold) words))) =
  List.filter (fun n => is_word fold words (take n s)) (reverse (seq 0 (S (length s)))).
Proof.
  intros Hne Hnd.
  assert (AntiSymm (=) (ge : relation nat)) as Hanti by (intros x y; lia).
  apply (StronglySorted_unique ge).
  - apply (StronglySorted_map_filter longer); [unfold longer; lia|]. exact (StronglySorted_merge_sort longer _).
  - rewrite <- (map_id (List.filter _ _)). apply (StronglySorted_map_filter ge); [done|].
    apply StronglySorted_down.
  - apply NoDup_Permutation.
    + apply NoDup_fmap_2_strong.
      * intros x y [Hx Hhx]%elem_of_filter_bool [Hy Hhy]%elem_of_filter_bool Hlen.
        rewrite merge_sort_Permutation in Hx, Hy.
        apply list_elem_of_fmap in Hx as (x' & -> & _), Hy as (y' & -> & _).
        apply bool_decide_eq_true in Hhx, Hhy. rewrite norm_spelled in Hhx, Hhy.
        rewrite <- (text_chars (spelled fold x')), <- (text_chars (spelled fold y')).
        f_equal. congruence.
      * apply NoDup_ListNoDup, List.NoDup_filter, NoDup_ListNoDup. by rewrite merge_sort_Permutation.
    + apply NoDup_ListNoDup, List.NoDup_filter, NoDup_ListNoDup. rewrite reverse_Permutation. apply NoDup_seq.
    + intros n. rewrite list_elem_of_fmap, elem_of_filter_bool, elem_of_reverse, elem_of_seq.
      setoid_rewrite elem_of_filter_bool. setoid_rewrite merge_sort_Permutation.
      unfold heads, is_word. rewrite existsb_exists. split.
      * intros (w & -> & Hw & Hh). apply list_elem_of_fmap in Hw as (word & -> & Hword).
        apply bool_decide_eq_true in Hh. pose proof (f_equal length Hh) as Hlen.
        rewrite !norm_length, length_take in Hlen. fold (str_len (spelled fold word)) in Hlen.
        split; [lia|]. exists word. split; [by apply list_elem_of_In|].
        rewrite (proj2 (String.eqb_neq word "")) by auto. apply bool_decide_eq_true.
        by rewrite Hh, norm_spelled, chars_spelled.
      * intros [Hn (word & Hword & [_ Hw%bool_decide_eq_true]%andb_prop)].
        pose proof (f_equal length Hw) as Hlen. rewrite !norm_length, length_take in Hlen.
        assert (n = str_len (spelled fold word)) as ->.
        { unfold str_len. rewrite chars_spelled, norm_length. lia. }
        exists (spelled fold word). split; [done|]. split.
        -- apply list_elem_of_fmap. exists word. by rewrite list_elem_of_In.
        -- apply bool_decide_eq_true. by rewrite Hw, norm_spelled, chars_spelled.
Qed.

(** The text that alternation builds is a valid regular expression, and matching it at a
    position takes the longest of the words that starts there, and fails exactly when none does. *)
Lemma alternation_longest_word_first fold words : exists r,
  compile (alternation fold words) = Some r /\
  forall s, run fold r s = longest_first (is_word fold words) s.
Proof. apply alternation_runs. Qed.

(** The trie expression behaves as the plain alternation of the same words, longest first:
    same match at every position. *)
Lemma alternation_equals_plain fold words :
  words <> [] -> (forall w, w ∈ words -> w <> "") -> NoDup (map (spelled fold) words) ->
  exists r r', compile (alternation fold words) = Some r /\
    compile (plain fold words) = Some r' /\ forall s, run fold r s = run fold r' s.
Proof.
  intros Hnil Hne Hnd. destruct (alternation_runs fold words) as (r & Hr & Hrun).
  set (sorted := merge_sort longer (map (spelled fold) words)).
  exists r, (alt_of (map seq_of (map (fun w => map Lit (chars w)) sorted))). split_and!; [done| |].
  - unfold compile, plain. rewrite <- (app_nil_r (chars _)).
    rewrite (reads_group _ (map (fun w => map Lit (chars w)) sorted)); [done| |].
    + apply Forall2_fmap_2, Forall_Forall2_diag, list.Forall_forall. intros w _. apply reads_escape.
    + intros E%(f_equal length). rewrite length_map, merge_sort_Permutation, length_map in E.
      by destruct words.
  - intros s. rewrite Hrun, run_words. unfold longest_first. by rewrite <- word_lengths.
Qed.

Lemma alternation_equals_plain_witness : exists r r',
  compile (alternation true ["10.0.1.5"; "Host"; "10.0.1"]) = Some r /\
  compile (plain true ["10.0.1.5"; "Host"; "10.0.1"]) = Some r' /\
  run true r (chars "10.0.1.55") = run true r' (chars "10.0.1.55").
Proof.
  destruct (alternation_equals_plain true ["10.0.1.5"; "Host"; "10.0.1"]) as (r & r' & H1 & H2 & H).
  - done.
  - by apply list.Forall_forall; repeat constructor.
  - by apply (bool_decide_unpack _).
  - exists r, r'. split_and!; [exact H1|exact H2|apply H].
Defined.
