(* ===== verification/RestoreChain.v ===== *)
(** * The backups a restore to a moment needs ([lib/sqlserver_backup_chain.py]), and the
    copy that stages them ([_chain_or_window] of [backup_restore/copy_backup.py]).

    Time stamps are instants in microseconds; they are only compared.  A caller's handle is
    a type parameter.  [sorted] and [list.sort] are the stable sort of [Prelude], [max] keeps
    the first of the greatest. *)

From S2P Require Import Prelude Py PyTime.

(** ** The time in a backup's name *)
(** [_(\d{8})_(\d{6})(Z?)], found at its leftmost place: date, time, marker. *)
Definition digits_at (n : nat) (l : list ascii) : option (list ascii * list ascii) :=
  if (length (take n l) =? n)%nat && forallb is_digit (take n l) then Some (take n l, drop n l) else None.
Fixpoint search_stamp (l : list ascii) : option (list ascii * list ascii * bool) :=
  match l with
  | [] => None
  | _ :: rest =>
      let here :=
        l ← eat "_" l; '(d, l) ← digits_at 8 l; l ← eat "_" l; '(t, l) ← digits_at 6 l;
        Some (d, t, match l with c :: _ => Ascii.eqb c "Z" | [] => false end) in
      match here with Some m => Some m | None => search_stamp rest end
  end.

(** [datetime.strptime(..., "%Y%m%d%H%M%S")] on fourteen digits: every field has its full
    width.  The moment is on the calendar, without a zone. *)
Definition moment_of_digits (d t : list ascii) : option Z :=
  '(y, l) ← take_digits 4 0 d; '(m, l) ← take_digits 2 0 l; '(dd, _) ← take_digits 2 0 l;
  '(h, l) ← take_digits 2 0 t; '(mi, l) ← take_digits 2 0 l; '(s, _) ← take_digits 2 0 l;
  if valid_date y m dd && between 0 h 23 && between 0 mi 59 && between 0 s 59
  then Some (seconds (ymd2ord y m dd * 86400 + (h * 60 + mi) * 60 + s)) else None.

(** [local] reads a wall clock moment in the timezone of the process. *)
Definition backup_time_from_name (local : Z -> Z) (name : string) : option Z :=
  '(d, t, z) ← search_stamp (chars name);
  moment ← moment_of_digits d t;
  Some (if (z : bool) then moment else local moment).

Definition KINDS : list string := ["FULL"; "DIFF"; "LOG"].
Definition kind_from_folder (name : string) : string :=
  let up := upper (strip name) in
  if bool_decide (up ∈ KINDS) then up else "".

(** ** The chain *)
Section Chain.
Context {Item : Type}.

Record Candidate := mkCandidate {
  item : Item; database : string; kind : string; timestamp : Z }.

Record ChainChoice := mkChainChoice {
  selected : list Item; unresolved : list string; lines : list string }.

Definition key_of (c : Candidate) : string := lower (database c).
Definition is_kind (k : string) (c : Candidate) : bool := String.eqb (kind c) k.
(** [until is None or c.timestamp <= until] *)
Definition at_or_before (until : option Z) (c : Candidate) : bool :=
  match until with None => true | Some u => timestamp c <=? u end.

(** [max(l, key=lambda c: c.timestamp)], and no maximum of an empty list. *)
Fixpoint max_from (best : Candidate) (l : list Candidate) : Candidate :=
  match l with
  | [] => best
  | c :: l => max_from (if timestamp best <? timestamp c then c else best) l
  end.
Definition newest (l : list Candidate) : option Candidate :=
  match l with [] => None | c :: l => Some (max_from c l) end.

Definition by_time (x y : Candidate) : bool := timestamp x <=? timestamp y.
(** The order of [selected.sort]: the time, then the database. *)
Definition by_time_and_database (x y : Candidate) : bool :=
  (timestamp x <? timestamp y) ||
  ((timestamp x =? timestamp y) && String.leb (key_of x) (key_of y)).

(** The loop that keeps the logs up to and including the first that reaches the moment. *)
Fixpoint up_to (u : Z) (logs : list Candidate) : list Candidate :=
  match logs with
  | [] => []
  | log :: rest => log :: (if u <=? timestamp log then [] else up_to u rest)
  end.

Record chain := mkChain { full : Candidate; diff : option Candidate; logs : list Candidate }.
Definition chain_files (c : chain) : list Candidate :=
  [full c] ++ (match diff c with Some d => [d] | None => [] end) ++ logs c.
Definition baseline (f : Candidate) (d : option Candidate) : Z := timestamp (default f d).

(** The body of the loop over the databases. *)
Definition chain_of (until : option Z) (files : list Candidate) : option chain :=
  let fulls := List.filter (fun c => is_kind "FULL" c && at_or_before until c) files in
  full ← newest fulls;
  let diffs := List.filter (fun c => is_kind "DIFF" c && (timestamp full <=? timestamp c)
                                     && at_or_before until c) files in
  let diff := newest diffs in
  let logs := sort_by by_time (List.filter (fun c =>
    is_kind "LOG" c && (baseline full diff <=? timestamp c)) files) in
  Some (mkChain full diff (match until with Some u => up_to u logs | None => logs end)).

Definition group (candidates : list Candidate) : list (string * list Candidate) :=
  fold_left (fun by_database c =>
    assoc_set (key_of c) (default [] (assoc (key_of c) by_database) ++ [c]) by_database)
    candidates [].

(** [files[0].database or "(no database folder)"] *)
Definition no_folder : string := "(no database folder)".
Definition or_no_folder (name : string) : string := if String.eqb name "" then no_folder else name.
Definition name_of (files : list Candidate) : string :=
  or_no_folder (match files with c :: _ => database c | [] => "" end).

Definition line_of (files : list Candidate) (found : option chain) : string :=
  match found with
  | None => name_of files +:+ ": no FULL at or before the moment - copied by its window instead"
  | Some c => name_of files +:+ ": FULL 1 + DIFF " +:+ (match diff c with Some _ => "1" | None => "0" end) +:+ " + LOG "
      +:+ str_of_int (Z.of_nat (length (logs c))) +:+ " of "
      +:+ str_of_int (Z.of_nat (length files)) +:+ " file(s) on the source"
  end.

(** One turn of the loop: what was selected, left and said so far. *)
Definition settle (until : option Z) (acc : list Candidate * list string * list string)
    (files : list Candidate) : list Candidate * list string * list string :=
  let '(selected, unresolved, lines) := acc in
  let found := chain_of until files in
  match found with
  | None => (selected, unresolved ++ [name_of files], lines ++ [line_of files found])
  | Some c => (selected ++ chain_files c, unresolved, lines ++ [line_of files found])
  end.

Definition settle_all (until : option Z) (candidates : list Candidate)
    : list Candidate * list string * list string :=
  let by_database := group candidates in
  fold_left (fun acc key => settle until acc (default [] (assoc key by_database)))
    (sort_by String.leb (map fst by_database)) ([], [], []).

Definition chosen (until : option Z) (candidates : list Candidate) : list Candidate :=
  sort_by by_time_and_database (settle_all until candidates).1.1.

Definition restore_chain (candidates : list Candidate) (until : option Z) : ChainChoice :=
  let '(_, unresolved, lines) := settle_all until candidates in
  mkChainChoice (map item (chosen until candidates)) unresolved lines.

(** ** The copy: the chain, and the window of a database that has none *)
Context `{!EqDecision Item}.

Definition _chain_or_window (copy_selection : string) (until : option Z)
    (candidates : list Candidate) (in_window : Item -> bool) : list Item :=
  if String.eqb (if String.eqb copy_selection "" then "chain" else copy_selection) "window" then
    let picked := List.filter in_window (map item candidates) in
    picked ++ List.filter (fun i => negb (bool_decide (i ∈ picked)))
                (selected (restore_chain candidates until))
  else
    let choice := restore_chain candidates until in
    let names := map lower (unresolved choice) in
    selected choice ++ map item (List.filter (fun c =>
      bool_decide (lower (or_no_folder (database c)) ∈ names) && in_window (item c)) candidates).
End Chain.
Arguments Candidate : clear implicits.
Arguments ChainChoice : clear implicits.
Arguments chain : clear implicits.

Example chain_example :
  let c k t := mkCandidate (k +:+ str_of_int t) "Sales" k t in
  selected (restore_chain [c "LOG" 5; c "FULL" 1; c "DIFF" 3; c "FULL" 9; c "LOG" 2; c "LOG" 4;
                           c "LOG" 7; c "LOG" 8; c "DIFF" 2] (Some 6))
  = ["FULL1"; "DIFF3"; "LOG4"; "LOG5"; "LOG7"].
Proof. vm_compute. reflexivity. Qed.
Example name_times : let read := backup_time_from_name (fun t => t + 1) in
  (read "db_20260921_023007Z.bak", read "db_20260921_023007.bak", read "db_20260231_000000.bak",
   read "db.bak")
  = (Some (seconds (739880 * 86400 + 9007)), Some (seconds (739880 * 86400 + 9007) + 1), None, None).
Proof. vm_compute. reflexivity. Qed.

(** ** The newest of a list *)
Section ChainProofs.
Context {Item : Type}.
#[local] Abbreviation Candidate := (Candidate Item).
Implicit Types (f d : Candidate) (files l cs : list Candidate).

Lemma max_from_spec b l : (max_from b l = b \/ max_from b l ∈ l) /\
  forall c, c = b \/ c ∈ l -> timestamp c <= timestamp (max_from b l).
Proof.
  revert b. induction l as [|x l IH]; intros b; cbn [max_from].
  - split; [by left|]. intros c [->|H]; [lia|by apply not_elem_of_nil in H].
  - destruct (IH (if timestamp b <? timestamp x then x else b)) as [H1 H2].
    destruct (Z.ltb_spec (timestamp b) (timestamp x)) as [Hlt|Hle]; split.
    + destruct H1 as [->|H1]; right; [left|by right].
    + intros c [->|[->|Hc]%list.elem_of_cons]; [|by apply H2; left|by apply H2; right].
      specialize (H2 x (or_introl eq_refl)). lia.
    + destruct H1 as [->|H1]; [by left|right; by right].
    + intros c [->|[->|Hc]%list.elem_of_cons]; [by apply H2; left| |by apply H2; right].
      specialize (H2 b (or_introl eq_refl)). lia.
Qed.

Lemma newest_some l m : newest l = Some m ->
  m ∈ l /\ forall c, c ∈ l -> timestamp c <= timestamp m.
Proof.
  destruct l as [|x l]; cbn; [done|]. intros [= <-].
  destruct (max_from_spec x l) as [[->|H1] H2]; (split; [try by left; try by right|]);
    try (by right); intros c [->|H]%list.elem_of_cons; apply H2; auto.
Qed.

Lemma newest_none l : newest l = None <-> l = [].
Proof. by destruct l. Qed.


(** ** The chain is the one a restore applies *)
Definition is_full (until : option Z) files f : Prop :=
  f ∈ files /\ kind f = "FULL" /\ at_or_before until f = true.
Definition is_diff (until : option Z) files f d : Prop :=
  d ∈ files /\ kind d = "DIFF" /\ timestamp f <= timestamp d /\ at_or_before until d = true.
Definition is_log files (from : Z) (c : Candidate) : Prop := c ∈ files /\ kind c = "LOG" /\ from <= timestamp c.
Definition before (until : option Z) (c : Candidate) : Prop :=
  match until with None => True | Some u => timestamp c < u end.

Record restorable (until : option Z) files (c : chain Item) : Prop := {
  newest_full : is_full until files (full c) /\
    forall f, is_full until files f -> timestamp f <= timestamp (full c);
  newest_diff : match diff c with
    | Some d => is_diff until files (full c) d /\
        forall d', is_diff until files (full c) d' -> timestamp d' <= timestamp d
    | None => forall d, ~ is_diff until files (full c) d
    end;
  only_logs : forall g, g ∈ logs c -> is_log files (baseline (full c) (diff c)) g;
  logs_in_order : StronglySorted (fun x y => timestamp x <= timestamp y) (logs c);
  (* no log before the moment is missing, *)
  no_gap : forall g, is_log files (baseline (full c) (diff c)) g -> before until g -> g ∈ logs c;
  (* a log that reaches the moment comes last, and is the first that does, *)
  reaches : forall u g, until = Some u -> is_log files (baseline (full c) (diff c)) g ->
    u <= timestamp g -> exists l x, logs c = l ++ [x] /\ u <= timestamp x <= timestamp g;
  (* and nothing follows it. *)
  stops : forall l x, logs c = l ++ [x] -> Forall (before until) l }.

Lemma by_time_total (x y : Candidate) : by_time x y = true \/ by_time y x = true.
Proof. unfold by_time. lia. Qed.
Lemma by_time_trans (x y z : Candidate) : by_time x y = true -> by_time y z = true -> by_time x z = true.
Proof. unfold by_time. lia. Qed.

Lemma elem_of_up_to u l g : g ∈ up_to u l -> g ∈ l.
Proof.
  induction l as [|x l IH]; cbn; [done|]. rewrite !list.elem_of_cons.
  intros [->|H]; [by left|right]. destruct (u <=? timestamp x); [by apply not_elem_of_nil in H|auto].
Qed.

Lemma up_to_before u l g : StronglySorted (fun x y => by_time x y = true) l ->
  g ∈ l -> timestamp g < u -> g ∈ up_to u l.
Proof.
  induction 1 as [|x l Hl IH Hx]; cbn; [done|]. rewrite !list.elem_of_cons.
  intros [->|Hg] Hlt; [by left|right]. rewrite list.Forall_forall in Hx.
  specialize (Hx _ Hg). unfold by_time in Hx.
  destruct (Z.leb_spec u (timestamp x)); [lia|auto].
Qed.

Lemma up_to_reaches u l g : StronglySorted (fun x y => by_time x y = true) l ->
  g ∈ l -> u <= timestamp g -> exists l' x, up_to u l = l' ++ [x] /\ u <= timestamp x <= timestamp g.
Proof.
  induction 1 as [|x l Hl IH Hx]; cbn; [by intros ?%not_elem_of_nil|]. rewrite list.elem_of_cons.
  intros Hg Hu. destruct (Z.leb_spec u (timestamp x)) as [Hr|Hr].
  - exists [], x. split; [done|]. split; [done|]. destruct Hg as [->|Hg]; [lia|].
    rewrite list.Forall_forall in Hx. specialize (Hx _ Hg). unfold by_time in Hx. lia.
  - destruct Hg as [->|Hg]; [lia|]. destruct (IH Hg Hu) as (l' & y & -> & Hy).
    by exists (x :: l'), y.
Qed.

Lemma up_to_stops u l l' x : up_to u l = l' ++ [x] -> Forall (fun g => timestamp g < u) l'.
Proof.
  revert l'. induction l as [|y l IH]; intros l' H; [by destruct l'|]. cbn in H.
  destruct l' as [|z l']; [constructor|]. injection H as -> H.
  destruct (Z.leb_spec u (timestamp z)); [by destruct l'|]. constructor; [done|]. by apply IH.
Qed.

Lemma up_to_idemp u l : up_to u (up_to u l) = up_to u l.
Proof.
  induction l as [|x l IH]; cbn; [done|]. f_equal. destruct (u <=? timestamp x); [done|]. done.
Qed.

Lemma up_to_sorted {R : relation Candidate} u l : StronglySorted R l -> StronglySorted R (up_to u l).
Proof.
  induction 1 as [|x l Hl IH Hx]; cbn; [constructor|]. destruct (u <=? timestamp x); [repeat constructor|].
  constructor; [done|]. apply list.Forall_forall. intros g Hg%elem_of_up_to.
  by eapply list.Forall_forall in Hx.
Qed.

(** The logs of [chain_of], before the moment cuts them. *)
Definition logs_from (files : list Candidate) (from : Z) : list Candidate :=
  sort_by by_time (List.filter (fun c => is_kind "LOG" c && (from <=? timestamp c)) files).

Lemma elem_of_logs_from files from g : g ∈ logs_from files from <-> is_log files from g.
Proof.
  unfold logs_from, is_log, is_kind. rewrite elem_of_sort_by, elem_of_filter_bool.
  rewrite andb_true_iff, String.eqb_eq, Z.leb_le. tauto.
Qed.
Lemma logs_from_sorted files from : StronglySorted (fun x y => by_time x y = true) (logs_from files from).
Proof. apply sort_by_sorted; [apply by_time_total|apply by_time_trans]. Qed.

Lemma chain_of_some until files c : chain_of until files = Some c ->
  newest (List.filter (fun c => is_kind "FULL" c && at_or_before until c) files) = Some (full c) /\
  diff c = newest (List.filter (fun d => is_kind "DIFF" d && (timestamp (full c) <=? timestamp d)
                                     && at_or_before until d) files) /\
  logs c = (let l := logs_from files (baseline (full c) (diff c)) in
            match until with Some u => up_to u l | None => l end).
Proof.
  unfold chain_of, logs_from. destruct (newest _) as [f|] eqn:E; [|done]. cbn. by intros [= <-].
Qed.

Lemma chain_of_restorable until files c : chain_of until files = Some c -> restorable until files c.
Proof.
  intros (Hf & Hd & Hl)%chain_of_some. cbv zeta in Hl.
  assert (forall f, f ∈ List.filter (fun c => is_kind "FULL" c && at_or_before until c) files
                    <-> is_full until files f) as Hfull.
  { intros f. unfold is_full, is_kind. rewrite elem_of_filter_bool, andb_true_iff, String.eqb_eq. tauto. }
  assert (forall d, d ∈ List.filter (fun d => is_kind "DIFF" d && (timestamp (full c) <=? timestamp d)
            && at_or_before until d) files <-> is_diff until files (full c) d) as Hdiff.
  { intros d. unfold is_diff, is_kind.
    rewrite elem_of_filter_bool, !andb_true_iff, String.eqb_eq, Z.leb_le. tauto. }
  pose proof (logs_from_sorted files (baseline (full c) (diff c))) as Hs.
  split.
  - apply newest_some in Hf as [Hin Hmax]. setoid_rewrite Hfull in Hmax. by apply Hfull in Hin.
  - destruct (diff c) as [d|].
    + symmetry in Hd. apply newest_some in Hd as [Hin Hmax].
      setoid_rewrite Hdiff in Hmax. by apply Hdiff in Hin.
    + intros d Hin%Hdiff. symmetry in Hd. apply newest_none in Hd. rewrite Hd in Hin.
      by apply not_elem_of_nil in Hin.
  - intros g Hg. apply elem_of_logs_from. rewrite Hl in Hg.
    destruct until; [by eapply elem_of_up_to|done].
  - assert (StronglySorted (fun x y => by_time x y = true) (logs c)) as H
      by (rewrite Hl; destruct until; [by apply up_to_sorted|done]).
    clear -H. induction H as [|x l H IH Hx]; constructor; [done|].
    eapply list.Forall_impl; [exact Hx|]. intros y. unfold by_time. lia.
  - intros g Hg%elem_of_logs_from Hb. rewrite Hl. destruct until as [u|]; [|done].
    by apply up_to_before.
  - intros u g -> Hg%elem_of_logs_from Hu. rewrite Hl. by eapply up_to_reaches.
  - intros l x H. destruct until as [u|]; [|by apply list.Forall_forall].
    rewrite Hl in H. by eapply up_to_stops.
Qed.

Lemma chain_of_none until files : chain_of until files = None <-> forall f, ~ is_full until files f.
Proof.
  unfold chain_of, is_full. destruct (newest _) as [f|] eqn:E; cbn; split; try done.
  - apply newest_some in E as [E _]. intros H. destruct (H f).
    apply elem_of_filter_bool in E as [Hin [Hk Ha]%andb_true_iff].
    unfold is_kind in Hk. by apply String.eqb_eq in Hk.
  - intros _ f (Hin & Hk & Ha). apply newest_none in E.
    assert (f ∈ List.filter (fun c => is_kind "FULL" c && at_or_before until c) files) as H.
    { apply elem_of_filter_bool. split; [done|]. unfold is_kind. by rewrite Hk, Ha. }
    rewrite E in H. by apply not_elem_of_nil in H.
Qed.

Lemma chain_files_sorted until files c : chain_of until files = Some c ->
  StronglySorted (fun x y => timestamp x <= timestamp y) (chain_files c).
Proof.
  intros H%chain_of_restorable. destruct H as [[Hf _] Hd Ho Hs _ _ _]. unfold chain_files.
  assert (forall g, g ∈ logs c -> timestamp (default (full c) (diff c)) <= timestamp g) as Hg.
  { intros g Hg%Ho. apply Hg. }
  destruct (diff c) as [d|]; cbn [app default] in *.
  - destruct Hd as [(_ & _ & Hfd & _) _]. constructor; [constructor|].
    + done.
    + by apply list.Forall_forall.
    + constructor; [done|]. apply list.Forall_forall. intros g Hin%Hg. cbn in *. lia.
  - constructor; [done|]. by apply list.Forall_forall.
Qed.

(** Deciding again among the files of the chain gives the same chain. *)
Lemma chain_of_idemp until files c : chain_of until files = Some c ->
  chain_of until (chain_files c) = Some c.
Proof.
  intros H. pose proof (chain_of_restorable _ _ _ H) as [[(_ & Hfk & Hfa) _] Hd Ho Hs _ _ _].
  apply chain_of_some in H as (_ & _ & Hl).
  assert (forall k p, k <> "LOG" -> List.filter (fun g => is_kind k g && p g) (logs c) = []) as Hno.
  { intros k p Hk. apply filter_false. intros g Hg%Ho. destruct Hg as (_ & Hk' & _).
    unfold is_kind. rewrite Hk'. by rewrite (proj2 (String.eqb_neq "LOG" k)) by congruence. }
  assert (List.filter (fun g => is_kind "LOG" g && (baseline (full c) (diff c) <=? timestamp g))
            (logs c) = logs c) as Hyes.
  { apply filter_true. intros g Hg%Ho. destruct Hg as (_ & Hk' & Hb). unfold is_kind. rewrite Hk'. cbn. lia. }
  assert (sort_by by_time (logs c) = logs c) as Hsort.
  { apply sort_by_id. clear -Hs. induction Hs as [|x l H IH Hx]; constructor; [done|].
    eapply list.Forall_impl; [exact Hx|]. intros y. unfold by_time. lia. }
  assert (match until with Some u => up_to u (logs c) | None => logs c end = logs c) as Hcut.
  { cbv zeta in Hl. rewrite Hl. destruct until; [apply up_to_idemp|done]. }
  destruct c as [f d l]. unfold chain_of, chain_files. cbn [full diff logs] in *.
  assert (is_kind "FULL" f = true /\ is_kind "DIFF" f = false /\ is_kind "LOG" f = false)
    as (Hf1 & Hf2 & Hf3) by (unfold is_kind; by rewrite Hfk).
  rewrite !List.filter_app, Hno by done. cbn [List.filter]. rewrite Hf1, Hfa. cbn [andb].
  assert (List.filter (fun c => is_kind "FULL" c && at_or_before until c)
            match d with Some d => [d] | None => [] end = []) as ->.
  { destruct d as [d|]; [|done]. destruct Hd as [(_ & Hdk & _) _]. cbn. unfold is_kind. by rewrite Hdk. }
  cbn [app newest max_from mbind option_bind].
  cbn [List.filter]. rewrite Hf2, Hf3. cbn [andb]. rewrite !List.filter_app.
  assert (forall p, List.filter (fun g => is_kind "DIFF" g && p g && at_or_before until g) l = []) as Hno'.
  { intros p. rewrite <- (Hno "DIFF" (fun g => p g && at_or_before until g)) by done.
    apply List.filter_ext. intros g. by rewrite andb_assoc. }
  rewrite Hno', app_nil_r. cbn [app].
  assert (newest (List.filter (fun d => is_kind "DIFF" d && (timestamp f <=? timestamp d)
            && at_or_before until d) match d with Some d => [d] | None => [] end) = d) as ->.
  { destruct d as [d|]; [|done]. destruct Hd as [(_ & Hdk & Hfd & Hda) _]. cbn.
    unfold is_kind. rewrite Hdk, Hda. apply Z.leb_le in Hfd. by rewrite Hfd. }
  rewrite Hyes. cbn [andb app].
  assert (List.filter (fun c => is_kind "LOG" c && (baseline f d <=? timestamp c))
            match d with Some d => [d] | None => [] end = []) as ->.
  { destruct d as [d|]; [|done]. destruct Hd as [(_ & Hdk & _) _]. cbn. unfold is_kind. by rewrite Hdk. }
  cbn [app]. by rewrite Hsort, Hcut.
Qed.

(** ** The databases *)
Definition files_of (k : string) (cs : list Candidate) : list Candidate :=
  List.filter (fun c => String.eqb (key_of c) k) cs.

Lemma group_snoc cs (c : Candidate) :
  group (cs ++ [c]) = assoc_set (key_of c) (default [] (assoc (key_of c) (group cs)) ++ [c]) (group cs).
Proof. unfold group. by rewrite fold_left_app. Qed.

Lemma group_files k cs : default [] (assoc k (group cs)) = files_of k cs.
Proof.
  induction cs as [|c cs IH] using rev_ind; [done|]. unfold files_of in *.
  rewrite group_snoc, List.filter_app. cbn [List.filter].
  destruct (String.eqb_spec (key_of c) k) as [<-|Hne].
  - by rewrite assoc_set_eq, <- IH.
  - by rewrite assoc_set_ne, IH, app_nil_r by done.
Qed.

Lemma group_keys cs k : k ∈ map fst (group cs) <-> exists c, c ∈ cs /\ key_of c = k.
Proof.
  induction cs as [|c cs IH] using rev_ind.
  - split; [by intros ?%not_elem_of_nil|by intros (c & ?%not_elem_of_nil & _)].
  - rewrite group_snoc, assoc_set_keys. setoid_rewrite elem_of_app.
    destruct (existsb (String.eqb (key_of c)) (map fst (group cs))) eqn:E.
    + apply existsb_exists in E as (k' & Hk' & <-%String.eqb_eq). apply list_elem_of_In in Hk'.
      rewrite IH. split; [intros (c' & ? & ?); eauto|].
      intros (c' & [?|Hc'] & <-); [by eauto|]. apply list_elem_of_singleton in Hc' as ->. by apply IH.
    + rewrite elem_of_app, IH, list_elem_of_singleton. split.
      * intros [(c' & ? & ?)|Hk]; [by eauto|]. subst k. exists c. split; [right; by left|done].
      * intros (c' & [?|Hc'] & <-); [by eauto|]. apply list_elem_of_singleton in Hc' as ->. by right.
Qed.

Lemma group_NoDup cs : NoDup (map fst (group cs)).
Proof.
  induction cs as [|c cs IH] using rev_ind; [constructor|]. rewrite group_snoc. by apply assoc_set_NoDup.
Qed.

Definition sorted_databases (cs : list Candidate) : list string := sort_by String.leb (map fst (group cs)).

Lemma elem_of_sorted_databases cs k :
  k ∈ sorted_databases cs <-> exists c, c ∈ cs /\ key_of c = k.
Proof. unfold sorted_databases. by rewrite elem_of_sort_by, group_keys. Qed.
Lemma sorted_databases_NoDup cs : NoDup (sorted_databases cs).
Proof. unfold sorted_databases. rewrite sort_by_perm. apply group_NoDup. Qed.

(** What the loop adds for one database. *)
Definition chain_part until files : list Candidate :=
  match chain_of until files with Some c => chain_files c | None => [] end.
Definition unresolved_part until files : list string :=
  match chain_of until files with Some _ => [] | None => [name_of files] end.

Lemma settle_all_eq until cs : settle_all until cs =
  (flat_map (fun k => chain_part until (files_of k cs)) (sorted_databases cs),
   flat_map (fun k => unresolved_part until (files_of k cs)) (sorted_databases cs),
   map (fun k => line_of (files_of k cs) (chain_of until (files_of k cs))) (sorted_databases cs)).
Proof.
  unfold settle_all. fold (sorted_databases cs).
  enough (forall ks s u (l : list string), fold_left (fun acc key => settle until acc
    (default [] (assoc key (group cs)))) ks (s, u, l) =
    (s ++ flat_map (fun k => chain_part until (files_of k cs)) ks,
     u ++ flat_map (fun k => unresolved_part until (files_of k cs)) ks,
     l ++ map (fun k => line_of (files_of k cs) (chain_of until (files_of k cs))) ks)) as H by apply H.
  induction ks as [|k ks IH]; intros s u l; cbn [fold_left flat_map map]; [by rewrite !app_nil_r|].
  rewrite group_files. unfold settle, chain_part, unresolved_part.
  destruct (chain_of until (files_of k cs)) eqn:E; rewrite IH, <- !app_assoc;
    unfold chain_part, unresolved_part; by rewrite ?E.
Qed.

Lemma elem_of_files_of k cs c : c ∈ files_of k cs <-> c ∈ cs /\ key_of c = k.
Proof. unfold files_of. by rewrite elem_of_filter_bool, String.eqb_eq. Qed.

Lemma chain_part_in until files c : c ∈ chain_part until files -> c ∈ files.
Proof.
  unfold chain_part. destruct (chain_of until files) as [ch|] eqn:E; [|by intros ?%not_elem_of_nil].
  apply chain_of_restorable in E as [[(Hf & _) _] Hd Ho _ _ _ _].
  unfold chain_files. rewrite !elem_of_app, list_elem_of_singleton.
  intros [->|[H|H]]; [done| |by apply Ho].
  destruct (diff ch) as [d|]; [|by apply not_elem_of_nil in H].
  apply list_elem_of_singleton in H as ->. apply Hd.
Qed.

Lemma by_td_total (x y : Candidate) : by_time_and_database x y = true \/ by_time_and_database y x = true.
Proof.
  unfold by_time_and_database. destruct (Z.lt_trichotomy (timestamp x) (timestamp y)) as [H|[H|H]].
  - left. apply Z.ltb_lt in H. by rewrite H.
  - rewrite H, Z.eqb_refl, Z.ltb_irrefl. cbn.
    destruct (String.leb (key_of x) (key_of y)) eqn:E; [by left|right]. by apply leb_false.
  - right. apply Z.ltb_lt in H. by rewrite H.
Qed.
Lemma by_td_trans (x y z : Candidate) : by_time_and_database x y = true ->
  by_time_and_database y z = true -> by_time_and_database x z = true.
Proof.
  unfold by_time_and_database. rewrite !orb_true_iff, !andb_true_iff, !Z.ltb_lt, !Z.eqb_eq.
  intros [?|[? ?]] [?|[? ?]]; [left; lia..|right]. split; [lia|by eapply leb_trans].
Qed.

Lemma files_of_concat k until cs ks : NoDup ks ->
  files_of k (flat_map (fun k => chain_part until (files_of k cs)) ks) =
  if bool_decide (k ∈ ks) then chain_part until (files_of k cs) else [].
Proof.
  induction ks as [|k' ks IH]; intros Hnd; [rewrite bool_decide_false; [done|apply not_elem_of_nil]|].
  apply list.NoDup_cons in Hnd as [Hk Hnd]. cbn [flat_map].
  unfold files_of at 1. rewrite List.filter_app. fold (files_of k (flat_map (fun k => chain_part until (files_of k cs)) ks)).
  rewrite IH by done. destruct (String.eqb_spec k' k) as [->|Hne].
  - rewrite (bool_decide_false _ Hk), (bool_decide_true (k ∈ k :: ks)), app_nil_r by by left.
    apply filter_true. intros c Hc%chain_part_in. apply elem_of_files_of in Hc as [_ ->]. apply String.eqb_refl.
  - rewrite filter_false.
    + cbn [app]. erewrite bool_decide_ext; [done|]. rewrite list.elem_of_cons. split; [by right|].
      intros [->|?]; done.
    + intros c Hc%chain_part_in. apply elem_of_files_of in Hc as [_ ->]. by apply String.eqb_neq.
Qed.

Lemma chosen_of_database until cs k : files_of k (chosen until cs) = chain_part until (files_of k cs).
Proof.
  unfold chosen. rewrite settle_all_eq. cbn [fst]. unfold files_of at 1.
  rewrite (filter_sort_by _ by_td_total by_td_trans).
  change (List.filter ?p (flat_map ?f ?l)) with (files_of k (flat_map f l)).
  rewrite files_of_concat by apply sorted_databases_NoDup.
  destruct (bool_decide_reflect (k ∈ sorted_databases cs)) as [Hk|Hk].
  - apply sort_by_id. unfold chain_part.
    destruct (chain_of until (files_of k cs)) as [ch|] eqn:E; [|constructor].
    assert (forall c, c ∈ chain_files ch -> key_of c = k) as Hkey.
    { intros c Hc. assert (c ∈ chain_part until (files_of k cs)) as H by (unfold chain_part; by rewrite E).
      apply chain_part_in, elem_of_files_of in H. apply H. }
    revert Hkey. induction (chain_files_sorted _ _ _ E) as [|x l Hl IH Hx]; intros Hkey; constructor.
    + apply IH. intros c Hc. apply Hkey. by right.
    + apply list.Forall_forall. intros y Hy. rewrite list.Forall_forall in Hx. specialize (Hx y Hy).
      unfold by_time_and_database. rewrite !Hkey by (by left || by right). rewrite leb_refl. lia.
  - symmetry. destruct (chain_part until (files_of k cs)) as [|c l] eqn:E; [done|].
    destruct Hk. apply elem_of_sorted_databases. exists c. apply elem_of_files_of.
    apply (chain_part_in until). rewrite E. by left.
Qed.

Lemma selected_chosen until cs : selected (restore_chain cs until) = map item (chosen until cs).
Proof. unfold restore_chain. by destruct (settle_all until cs) as [[s u] l]. Qed.

Lemma chosen_sorted until cs :
  StronglySorted (fun x y => timestamp x <= timestamp y) (chosen until cs).
Proof.
  unfold chosen. induction (sort_by_sorted _ by_td_total by_td_trans (settle_all until cs).1.1)
    as [|x l Hl IH Hx]; constructor; [done|].
  eapply list.Forall_impl; [exact Hx|]. intros y. unfold by_time_and_database. cbn. lia.
Qed.

(** C26: For every database the chain rule selects the newest full backup at or before the
    moment, the newest differential of it, and the logs from there up to the first that reaches
    the moment, with no gap and in time order; or nothing, exactly when there is no such full. *)
Theorem selected_is_restorable until cs :
  selected (restore_chain cs until) = map item (chosen until cs) /\
  StronglySorted (fun x y => timestamp x <= timestamp y) (chosen until cs) /\
  forall k, match chain_of until (files_of k cs) with
    | Some ch => files_of k (chosen until cs) = chain_files ch /\
                 restorable until (files_of k cs) ch
    | None => files_of k (chosen until cs) = [] /\ forall f, ~ is_full until (files_of k cs) f
    end.
Proof.
  split; [apply selected_chosen|]. split; [apply chosen_sorted|]. intros k.
  rewrite chosen_of_database. unfold chain_part.
  destruct (chain_of until (files_of k cs)) as [ch|] eqn:E.
  - split; [done|]. by apply chain_of_restorable.
  - split; [done|]. by apply chain_of_none.
Qed.

(** Applied to what was staged, the chain rule chooses the same chain again for every
    database: a copy of the selection is enough for the restore. *)
Lemma staged_files_give_the_same_chain until cs k :
  chain_of until (files_of k (chosen until cs)) = chain_of until (files_of k cs) /\
  files_of k (chosen until (chosen until cs)) = files_of k (chosen until cs).
Proof.
  assert (chain_of until (files_of k (chosen until cs)) = chain_of until (files_of k cs)) as H.
  { rewrite chosen_of_database. unfold chain_part.
    destruct (chain_of until (files_of k cs)) as [ch|] eqn:E; [|done]. by eapply chain_of_idemp. }
  split; [done|]. rewrite !chosen_of_database. unfold chain_part at 1.
  rewrite <- chosen_of_database, H, chosen_of_database. done.
Qed.

(** ** The copy *)
Lemma lower_no_folder : lower no_folder = no_folder.
Proof. reflexivity. Qed.

Lemma lower_name (c : Candidate) :
  lower (or_no_folder (database c)) = or_no_folder (key_of c).
Proof.
  unfold or_no_folder, key_of. destruct (database c) as [|a s] eqn:E; [done|]. done.
Qed.

Lemma lower_name_of cs c : c ∈ cs ->
  lower (name_of (files_of (key_of c) cs)) = or_no_folder (key_of c).
Proof.
  intros Hc. unfold name_of. destruct (files_of (key_of c) cs) as [|c' l] eqn:E.
  - assert (c ∈ files_of (key_of c) cs) as H by by apply elem_of_files_of.
    rewrite E in H. by apply not_elem_of_nil in H.
  - rewrite lower_name. f_equal.
    assert (c' ∈ files_of (key_of c) cs) as H by (rewrite E; by left).
    apply elem_of_files_of in H. apply H.
Qed.

Lemma unresolved_names until cs n :
  n ∈ map lower (unresolved (restore_chain cs until)) <->
  exists c, c ∈ cs /\ chain_of until (files_of (key_of c) cs) = None /\ n = or_no_folder (key_of c).
Proof.
  assert (unresolved (restore_chain cs until) = (settle_all until cs).1.2) as ->
    by (unfold restore_chain; by destruct (settle_all until cs) as [[s u] l]).
  rewrite settle_all_eq. cbn [fst snd]. rewrite list_elem_of_fmap.
  setoid_rewrite list_elem_of_In. setoid_rewrite in_flat_map. setoid_rewrite <- list_elem_of_In.
  setoid_rewrite elem_of_sorted_databases. unfold unresolved_part. split.
  - intros (x & -> & k & (c & Hc & <-) & Hx). exists c. split; [done|].
    destruct (chain_of until (files_of (key_of c) cs)) eqn:E; [by apply not_elem_of_nil in Hx|].
    apply list_elem_of_singleton in Hx as ->. split; [done|]. by apply lower_name_of.
  - intros (c & Hc & E & ->). eexists. split; [|exists (key_of c); split; [by exists c|rewrite E; by left]].
    symmetry. by apply lower_name_of.
Qed.

Lemma or_no_folder_inj a b : a <> no_folder -> b <> no_folder ->
  or_no_folder a = or_no_folder b -> a = b.
Proof.
  unfold or_no_folder. destruct (String.eqb_spec a ""), (String.eqb_spec b ""); congruence.
Qed.

(** What the copy step takes is exactly the chains of all databases, plus the files in the
    window: of every database in window mode, else of the databases that have no chain. *)
Lemma copy_takes_chains_and_windows `{!EqDecision Item} mode until cs in_window :
  (forall c, c ∈ cs -> key_of c <> no_folder) ->
  let chained i := exists c, c ∈ chosen until cs /\ i = item c in
  let windowed i := exists c, c ∈ cs /\ in_window (item c) = true /\ i = item c in
  let no_chain i := exists c, c ∈ cs /\ chain_of until (files_of (key_of c) cs) = None /\
                              in_window (item c) = true /\ i = item c in
  forall i, i ∈ _chain_or_window mode until cs in_window <->
    chained i \/ if String.eqb mode "window" then windowed i else no_chain i.
Proof.
  intros Hname chained windowed no_chain i. unfold _chain_or_window. rewrite selected_chosen.
  assert (i ∈ map item (chosen until cs) <-> chained i) as Hc.
  { unfold chained. rewrite list_elem_of_fmap.
    split; intros (c & ? & ?); by exists c. }
  assert (String.eqb (if String.eqb mode "" then "chain" else mode) "window" = String.eqb mode "window") as ->
    by by destruct mode.
  destruct (String.eqb mode "window"); cbv zeta; rewrite elem_of_app.
  - assert (i ∈ List.filter in_window (map item cs) <-> windowed i) as Hw.
    { unfold windowed. rewrite elem_of_filter_bool, list_elem_of_fmap.
      split; [intros [(c & -> & ?) ?]; by eauto|intros (c & ? & ? & ->); by eauto]. }
    rewrite (elem_of_filter_bool (fun i => negb _)), negb_true_iff, bool_decide_eq_false, Hc.
    destruct (decide (i ∈ List.filter in_window (map item cs))); tauto.
  - rewrite Hc, list_elem_of_fmap. setoid_rewrite elem_of_filter_bool.
    setoid_rewrite andb_true_iff. setoid_rewrite bool_decide_eq_true. setoid_rewrite unresolved_names.
    setoid_rewrite lower_name. unfold no_chain. split; (intros [?|H]; [by left|right]).
    + destruct H as (c & -> & Hin & (c' & Hc' & E & Heq) & Hw). exists c. split_and!; try done.
      rewrite (or_no_folder_inj (key_of c) (key_of c')); auto.
    + destruct H as (c & Hin & E & Hw & ->). exists c. split_and!; try done. by exists c.
Qed.
End ChainProofs.

Lemma copy_takes_chains_and_windows_witness :
  let c k t := mkCandidate (k +:+ str_of_int t) "Sales" k t in
  let cs := [c "FULL" 1; c "LOG" 2; c "LOG" 3; mkCandidate "x" "" "" 4] in
  let picked := _chain_or_window "" (Some 2) cs (fun i => true) in
  picked = ["FULL1"; "LOG2"; "x"] /\ ("x" ∈ picked <->
    (exists c, c ∈ chosen (Some 2) cs /\ "x" = item c) \/
    exists c, c ∈ cs /\ chain_of (Some 2) (files_of (key_of c) cs) = None /\ true = true /\ "x" = item c).
Proof.
  cbv zeta. split; [vm_compute; reflexivity|].
  apply (copy_takes_chains_and_windows "" (Some 2)).
  intros c Hc. repeat (apply list.elem_of_cons in Hc as [->|Hc]; [by vm_compute|]).
  by apply not_elem_of_nil in Hc.
Defined.
