(* ===== verification/RestoreFind.v ===== *)
(** * What a SQL Server restore applies among the staged files ([backup_restore/restore_find.py]).

    The choice of one mapped database: its newest FULL, the DIFF after it, the LOGs after
    those, for the latest point and for a moment.  A directory is the list of the files it
    holds, in the order in which it is listed; a directory that does not exist is empty.  On
    a Linux target the files are listed by [find] and one of them is asked by [stat], which
    answers whole seconds; the shell's answers are those of the files. *)

From S2P Require Import Prelude Py PyTime RestoreChain.

Section Find.
(** The timezone of the process, which a name without [Z] is read in. *)
Variable local : Z -> Z.

Record File := mkFile { name : string; path : string; mtime : Z }.

(** [_backup_sort_timestamp]. *)
Definition _backup_sort_timestamp (f : File) (fallback_mtime : Z) : Z :=
  match backup_time_from_name local (name f) with Some stamped => stamped | None => fallback_mtime end.
Definition stamp_of (f : File) : Z := _backup_sort_timestamp f (mtime f).

(** [stat -c %Y] on Linux, [st_mtime] elsewhere. *)
Definition asked (is_linux : bool) (t : Z) : Z := if is_linux then t / usec * usec else t.
(** The stamp of a file that is asked alone. *)
Definition asked_stamp (is_linux : bool) (f : File) : Z := _backup_sort_timestamp f (asked is_linux (mtime f)).

(** [key=lambda item: (time, str(path).lower())]; the Linux branch of a point in time
    compares the paths as they are. *)
Definition lexi (time : File -> Z) (text : File -> string) (x y : File) : bool :=
  (time x <? time y) || ((time x =? time y) && String.leb (text x) (text y)).
Definition low (f : File) : string := lower (path f).
Definition spelled (is_linux : bool) (f : File) : string := if is_linux then path f else low f.
Definition by_mtime (x y : File) : bool := mtime x <=? mtime y.

Inductive find_error := NoFullBackup | FullNewerThanMoment | NoLogBackups | BeyondLogChain (last_stamp : Z).

(** ** The latest point *)
(** [cutoff] is [None] when the entry sets no [copy_recent_hours]. *)
Definition get_latest_full_backup_for_database (is_linux : bool) (cutoff : option Z)
    (full_dir : list File) : result find_error File :=
  let recent := List.filter (fun f => match cutoff with None => true | Some c => c <=? mtime f end) full_dir in
  match (if is_linux then sort_desc (lexi mtime low) recent else sort_desc by_mtime recent) with
  | f :: _ => Ok f
  | [] => Err NoFullBackup
  end.

(** [full_exists] is whether the FULL that was chosen is still there. *)
Definition find_restore_diff_backup (is_linux full_exists : bool) (full : File) (diff_dir : list File)
    : option File :=
  if is_linux && negb full_exists then None
  else list.last (sort_by (lexi mtime low)
         (List.filter (fun f => negb full_exists || (asked is_linux (mtime full) <=? mtime f)) diff_dir)).

Definition find_restore_log_backups (is_linux baseline_exists : bool) (full : File) (diff : option File)
    (log_dir : list File) : list File :=
  if is_linux && negb baseline_exists then []
  else sort_by (lexi mtime low)
         (List.filter (fun f => negb baseline_exists ||
            (asked is_linux (mtime (default full diff)) <=? mtime f)) log_dir).

(** ** A moment *)
Definition get_full_backup_for_pitr (pit : Z) (full_dir : list File) : result find_error File :=
  let candidates := List.filter (fun f => stamp_of f <=? pit) full_dir in
  match sort_desc (lexi stamp_of low) candidates with f :: _ => Ok f | [] => Err NoFullBackup end.

Definition find_restore_diff_backup_for_pitr (is_linux : bool) (pit : Z) (full : File)
    (diff_dir : list File) : option File :=
  list.last (sort_by (lexi stamp_of (spelled is_linux))
    (List.filter (fun f => (asked_stamp is_linux full <=? stamp_of f) && (stamp_of f <=? pit)) diff_dir)).

(** The loop that stops at the first log that reaches the moment. *)
Fixpoint logs_up_to (pit : Z) (l : list File) : list File :=
  match l with
  | [] => []
  | f :: l => f :: (if pit <=? stamp_of f then [] else logs_up_to pit l)
  end.

Definition find_restore_log_backups_for_pitr (is_linux : bool) (pit : Z) (full : File)
    (diff : option File) (log_dir : list File) : result find_error (list File) :=
  let entries := sort_by (lexi stamp_of (spelled is_linux))
    (List.filter (fun f => asked_stamp is_linux (default full diff) <=? stamp_of f) log_dir) in
  let kept := logs_up_to pit entries in
  match list.last kept with
  | None => Err NoLogBackups
  | Some l => if stamp_of l <? pit then Err (BeyondLogChain (stamp_of l)) else Ok kept
  end.

(** The selection of [run_restore_database] for a mapped database: its guard on the FULL
    asks the stamp again. *)
Definition pitr_chain (is_linux : bool) (pit : Z) (full_dir diff_dir log_dir : list File)
    : result find_error (list File) :=
  full ← get_full_backup_for_pitr pit full_dir;
  _ ← raise_when (pit <? asked_stamp is_linux full) FullNewerThanMoment;
  let diff := find_restore_diff_backup_for_pitr is_linux pit full diff_dir in
  logs ← find_restore_log_backups_for_pitr is_linux pit full diff log_dir;
  Ok ([full] ++ match diff with Some d => [d] | None => [] end ++ logs).

Definition latest_chain (is_linux : bool) (cutoff : option Z) (full_dir diff_dir log_dir : list File)
    : result find_error (list File) :=
  full ← get_latest_full_backup_for_database is_linux cutoff full_dir;
  let diff := find_restore_diff_backup is_linux true full diff_dir in
  Ok ([full] ++ match diff with Some d => [d] | None => [] end
      ++ find_restore_log_backups is_linux true full diff log_dir).

(** ** The same files, as the copy's chain rule sees them *)
Definition seen (time : File -> Z) (k : string) (f : File) : Candidate File :=
  mkCandidate f "db" k (time f).
Definition seen_all (time : File -> Z) (full_dir diff_dir log_dir : list File) : list (Candidate File) :=
  map (seen time "FULL") full_dir ++ map (seen time "DIFF") diff_dir ++ map (seen time "LOG") log_dir.

(** ** The two choices agree *)
Lemma lexi_total time text x y : lexi time text x y = true \/ lexi time text y x = true.
Proof.
  unfold lexi. destruct (Z.lt_trichotomy (time x) (time y)) as [H|[H|H]].
  - left. apply Z.ltb_lt in H. by rewrite H.
  - rewrite H, Z.eqb_refl, Z.ltb_irrefl. cbn.
    destruct (String.leb (text x) (text y)) eqn:E; [by left|right]. by apply leb_false.
  - right. apply Z.ltb_lt in H. by rewrite H.
Qed.
Lemma lexi_trans time text x y z :
  lexi time text x y = true -> lexi time text y z = true -> lexi time text x z = true.
Proof.
  unfold lexi. rewrite !orb_true_iff, !andb_true_iff, !Z.ltb_lt, !Z.eqb_eq.
  intros [?|[? ?]] [?|[? ?]]; [left; lia..|right]. split; [lia|by eapply leb_trans].
Qed.
Lemma lexi_time time text x y : lexi time text x y = true -> time x <= time y.
Proof. unfold lexi. rewrite orb_true_iff, andb_true_iff, Z.ltb_lt, Z.eqb_eq. lia. Qed.

(** The last of a sorted list is the greatest. *)
Lemma last_sort_by time text l :
  match list.last (sort_by (lexi time text) l) with
  | Some m => m ∈ l /\ forall x, x ∈ l -> time x <= time m
  | None => l = []
  end.
Proof.
  pose proof (sort_by_sorted _ (lexi_total time text) (lexi_trans time text) l) as Hs.
  pose proof (sort_by_perm (lexi time text) l) as Hp. revert Hs Hp.
  generalize (sort_by (lexi time text) l). intros s Hs Hp.
  destruct s as [|m s _] using rev_ind; [by apply Permutation_nil_l in Hp|].
  rewrite last_snoc. split; [rewrite <- Hp, elem_of_app; right; by left|].
  intros x. rewrite <- Hp. clear Hp. intros [Hx|Hx]%elem_of_app; [|by apply list_elem_of_singleton in Hx as ->].
  induction s as [|y s IH]; [by apply not_elem_of_nil in Hx|].
  apply StronglySorted_inv in Hs as [Hs Hy]. apply list.elem_of_cons in Hx as [->|Hx].
  - rewrite list.Forall_forall in Hy. eapply lexi_time, Hy. rewrite elem_of_app. right. by left.
  - by apply IH.
Qed.

(** Where no two files of a directory have one time, the newest is the same file whichever
    way it is looked for. *)
Lemma newest_seen time k text l l' : l' ≡ₚ l -> NoDup (map time l) ->
  newest (map (seen time k) l) = seen time k <$> list.last (sort_by (lexi time text) l').
Proof.
  intros Hp Hnd. pose proof (last_sort_by time text l') as H.
  destruct (list.last _) as [m|]; [|rewrite H in Hp; apply Permutation_nil_l in Hp; by subst l].
  destruct H as [Hm Hmax]. rewrite Hp in Hm. setoid_rewrite Hp in Hmax.
  destruct (newest (map (seen time k) l)) as [n|] eqn:E.
  - apply newest_some in E as [Hin Hle]. apply list_elem_of_fmap in Hin as (f & -> & Hf).
    cbn. do 2 f_equal. apply (NoDup_map_inj time l); [done..|].
    specialize (Hmax f Hf). specialize (Hle (seen time k m)).
    cbn in Hle. enough (time m <= time f) by lia. apply Hle. apply list_elem_of_fmap. by exists m.
  - apply newest_none in E. destruct l; [by apply not_elem_of_nil in Hm|done].
Qed.

Lemma filter_seen time k (p : Candidate File -> bool) l :
  List.filter p (map (seen time k) l) = map (seen time k) (List.filter (fun f => p (seen time k f)) l).
Proof. induction l as [|f l IH]; cbn; [done|]. destruct (p _); cbn; by rewrite IH. Qed.

Lemma NoDup_map_filter {A B} (f : A -> B) p l : NoDup (map f l) -> NoDup (map f (List.filter p l)).
Proof. intros H. eapply sublist_NoDup; [|apply map_filter_sublist]; done. Qed.

(** With distinct times the order of the paths does not matter. *)
Lemma sort_seen time k text l : NoDup (map time l) ->
  sort_by by_time (map (seen time k) l) = map (seen time k) (sort_by (lexi time text) l).
Proof.
  intros Hnd. apply sort_by_map. induction l as [|x l IH]; cbn in Hnd; [constructor|].
  apply list.NoDup_cons in Hnd as [Hx Hnd]. constructor; [|by apply IH].
  apply list.Forall_forall. intros y Hy. unfold by_time, lexi. cbn.
  assert (time x <> time y) as Hne.
  { intros E. apply Hx. rewrite E. apply list_elem_of_fmap. by exists y. }
  apply Z.eqb_neq in Hne as Hne'. rewrite Hne'. cbn. lia.
Qed.

Lemma up_to_seen k pit l : up_to pit (map (seen stamp_of k) l) = map (seen stamp_of k) (logs_up_to pit l).
Proof.
  induction l as [|f l IH]; cbn; [done|]. destruct (pit <=? stamp_of f); cbn; [done|]. by rewrite IH.
Qed.

(** The files of one kind, among all that are seen. *)
Lemma filter_seen_all time k p fs ds ls :
  List.filter (fun c => is_kind k c && p c) (seen_all time fs ds ls) =
  List.filter p (map (seen time k)
    (if String.eqb k "FULL" then fs else if String.eqb k "DIFF" then ds
     else if String.eqb k "LOG" then ls else [])).
Proof.
  unfold seen_all. rewrite !List.filter_app, !filter_seen. unfold is_kind. cbn [kind seen].
  assert (forall l : list File, List.filter (fun f => false && p (seen time k f)) l = []) as Hno
    by (intros l; by apply filter_false).
  rewrite !(String.eqb_sym _ k).
  destruct (String.eqb_spec k "FULL") as [->|]; [|destruct (String.eqb_spec k "DIFF") as [->|];
    [|destruct (String.eqb_spec k "LOG") as [->|]]]; cbn [String.eqb Ascii.eqb Bool.eqb andb].
  all: rewrite ?(filter_false (fun _ => false)) by done; cbn [map app]; rewrite ?app_nil_r; done.
Qed.

(** The times of a directory tell its files apart, and a file asked alone answers the time
    it was listed with. *)
Definition apart (is_linux : bool) (fs ds ls : list File) : Prop :=
  NoDup (map stamp_of fs) /\ NoDup (map stamp_of ds) /\ NoDup (map stamp_of ls) /\
  forall f, f ∈ fs ++ ds -> asked_stamp is_linux f = stamp_of f.

Definition wanted_diffs (pit : Z) (full : File) (ds : list File) : list File :=
  List.filter (fun f => (stamp_of full <=? stamp_of f) && (stamp_of f <=? pit)) ds.
Definition wanted_logs (from : Z) (ls : list File) : list File :=
  List.filter (fun f => from <=? stamp_of f) ls.

Lemma chain_of_seen is_linux pit fs ds ls : apart is_linux fs ds ls ->
  chain_of (Some pit) (seen_all stamp_of fs ds ls) =
  match list.last (sort_by (lexi stamp_of low) (reverse (List.filter (fun f => stamp_of f <=? pit) fs))) with
  | None => None
  | Some full =>
      let diff := list.last (sort_by (lexi stamp_of (spelled is_linux)) (wanted_diffs pit full ds)) in
      Some (mkChain (seen stamp_of "FULL" full) (seen stamp_of "DIFF" <$> diff)
        (map (seen stamp_of "LOG") (logs_up_to pit (sort_by (lexi stamp_of (spelled is_linux))
          (wanted_logs (stamp_of (default full diff)) ls)))))
  end.
Proof.
  intros (Hf & Hd & Hl & _). unfold chain_of.
  rewrite filter_seen_all. cbn [String.eqb Ascii.eqb Bool.eqb]. rewrite filter_seen. cbn [at_or_before timestamp seen].
  rewrite (newest_seen stamp_of "FULL" low _ (reverse (List.filter (fun f => stamp_of f <=? pit) fs)))
    by first [by rewrite reverse_Permutation|by apply NoDup_map_filter].
  destruct (list.last _) as [full|]; [|done]. cbn [fmap option_fmap option_map mbind option_bind timestamp seen].
  rewrite (List.filter_ext (fun c => is_kind "DIFF" c && _ && _)
            (fun c : Candidate File => is_kind "DIFF" c && ((stamp_of full <=? timestamp c) && at_or_before (Some pit) c)))
    by (intros c; by rewrite andb_assoc).
  rewrite (filter_seen_all stamp_of "DIFF"). cbn [String.eqb Ascii.eqb Bool.eqb]. rewrite filter_seen.
  cbn [at_or_before timestamp seen]. fold (wanted_diffs pit full ds).
  rewrite (newest_seen stamp_of "DIFF" (spelled is_linux) _ (wanted_diffs pit full ds))
    by first [done|by apply NoDup_map_filter]. cbv zeta.
  set (diff := list.last _). rewrite filter_seen_all. cbn [String.eqb Ascii.eqb Bool.eqb]. rewrite filter_seen.
  cbn [timestamp seen]. rewrite (sort_seen stamp_of "LOG" (spelled is_linux)) by by apply NoDup_map_filter.
  rewrite up_to_seen. do 2 f_equal. unfold wanted_logs, baseline. by destruct diff.
Qed.

Lemma pitr_chain_eq is_linux pit fs ds ls : apart is_linux fs ds ls ->
  pitr_chain is_linux pit fs ds ls =
  match chain_of (Some pit) (seen_all stamp_of fs ds ls) with
  | None => Err NoFullBackup
  | Some ch => match list.last (logs ch) with
      | None => Err NoLogBackups
      | Some l => if timestamp l <? pit then Err (BeyondLogChain (timestamp l))
                  else Ok (map item (chain_files ch))
      end
  end.
Proof.
  intros Ha. rewrite (chain_of_seen is_linux) by done. destruct Ha as (_ & _ & _ & Hask).
  unfold pitr_chain, get_full_backup_for_pitr, sort_desc.
  pose proof (last_sort_by stamp_of low (reverse (List.filter (fun f => stamp_of f <=? pit) fs))) as Hfull.
  rewrite <- head_reverse in *. destruct (reverse (sort_by _ _)) as [|full rest]; [done|].
  cbn [head list.head] in *. destruct Hfull as [Hin _].
  rewrite elem_of_reverse, elem_of_filter_bool in Hin. destruct Hin as [Hin Hpit].
  cbn [mbind result_bind]. rewrite (Hask full) by (rewrite elem_of_app; by left).
  unfold raise_when. assert ((pit <? stamp_of full) = false) as -> by lia. cbn [mbind result_bind].
  unfold find_restore_diff_backup_for_pitr, find_restore_log_backups_for_pitr.
  rewrite (Hask full) by (rewrite elem_of_app; by left). fold (wanted_diffs pit full ds).
  pose proof (last_sort_by stamp_of (spelled is_linux) (wanted_diffs pit full ds)) as Hdiff.
  cbv zeta. set (diff := list.last _) in *.
  assert (asked_stamp is_linux (default full diff) = stamp_of (default full diff)) as ->.
  { apply Hask. destruct diff as [d|]; cbn; rewrite elem_of_app; [right|by left].
    destruct Hdiff as [Hd _]. unfold wanted_diffs in Hd. apply elem_of_filter_bool in Hd. apply Hd. }
  fold (wanted_logs (stamp_of (default full diff)) ls). cbn [logs].
  set (kept := logs_up_to _ _). rewrite fmap_last. destruct (list.last kept) as [l|]; [|done].
  cbn [fmap option_fmap option_map timestamp seen]. destruct (stamp_of l <? pit); [done|].
  cbn [mbind result_bind]. unfold chain_files.
  destruct diff; cbn; by rewrite map_map, map_id.
Qed.

Lemma logs_up_to_prefix pit l : exists k, l = logs_up_to pit l ++ k.
Proof.
  induction l as [|f l [k IH]]; cbn; [by exists []|]. destruct (pit <=? stamp_of f); [by exists l|].
  exists k. cbn. by f_equal.
Qed.

(** Of the newest file, an older one and the logs, the files of the chain are told apart. *)
Lemma apart_chain is_linux pit fs ds ls ch : apart is_linux fs ds ls ->
  chain_of (Some pit) (seen_all stamp_of fs ds ls) = Some ch ->
  seen_all stamp_of [item (full ch)] (match diff ch with Some d => [item d] | None => [] end)
    (map item (logs ch)) = chain_files ch /\
  apart is_linux [item (full ch)] (match diff ch with Some d => [item d] | None => [] end)
    (map item (logs ch)).
Proof.
  intros Ha H. rewrite (chain_of_seen is_linux) in H by done.
  pose proof (last_sort_by stamp_of low (reverse (List.filter (fun f => stamp_of f <=? pit) fs))) as Hfull.
  destruct (list.last _) as [f|]; [|done]. destruct Hfull as [Hfull _].
  rewrite elem_of_reverse, elem_of_filter_bool in Hfull. destruct Hfull as [Hfull _].
  pose proof (last_sort_by stamp_of (spelled is_linux) (wanted_diffs pit f ds)) as Hdiff.
  cbv zeta in H. injection H as <-. revert Hdiff. set (d := list.last _). intros Hdiff.
  set (sorted := sort_by _ _). cbn [full diff logs]. destruct Ha as (_ & _ & Hl & Hask). split.
  - unfold seen_all, chain_files. cbn. f_equal. by destruct d; cbn; rewrite !map_map.
  - split_and!.
    + apply NoDup_singleton.
    + destruct d; cbn; [apply NoDup_singleton|constructor].
    + rewrite !map_map. cbn. destruct (logs_up_to_prefix pit sorted) as [k Hk].
      assert (NoDup (map stamp_of sorted)) as Hnd.
      { change (NoDup (stamp_of <$> sorted)). unfold sorted. rewrite sort_by_perm. by apply NoDup_map_filter. }
      rewrite Hk, map_app in Hnd. apply list.NoDup_app in Hnd. apply Hnd.
    + intros g Hg. apply Hask. rewrite elem_of_app in *. destruct Hg as [Hg|Hg].
      * apply list_elem_of_singleton in Hg as ->. by left.
      * right. destruct d as [d|]; cbn in Hg; [|by apply not_elem_of_nil in Hg].
        apply list_elem_of_singleton in Hg as ->. destruct Hdiff as [Hd _].
        apply elem_of_filter_bool in Hd. apply Hd.
Qed.

(** C21: When the files of a directory have distinct times and a file asked alone answers the
    time it was listed with, the point-in-time restore, which searches three directories on the
    target, applies exactly the chain the copy rule of the other module defines on the same
    files, and fails exactly when there is no full backup, no log, or the logs end before the
    moment. *)
Theorem restore_to_a_moment_applies_the_copied_chain is_linux pit fs ds ls : apart is_linux fs ds ls ->
  pitr_chain is_linux pit fs ds ls =
  match chain_of (Some pit) (seen_all stamp_of fs ds ls) with
  | None => Err NoFullBackup
  | Some ch => match list.last (logs ch) with
      | None => Err NoLogBackups
      | Some l => if timestamp l <? pit then Err (BeyondLogChain (timestamp l))
                  else Ok (map item (chain_files ch))
      end
  end.
Proof. apply pitr_chain_eq. Qed.

(** A point-in-time restore that sees only the files of the copied chain restores what it
    would have restored from the whole listing. *)
Lemma restore_after_the_copy is_linux pit fs ds ls ch : apart is_linux fs ds ls ->
  chain_of (Some pit) (seen_all stamp_of fs ds ls) = Some ch ->
  pitr_chain is_linux pit [item (full ch)] (match diff ch with Some d => [item d] | None => [] end)
    (map item (logs ch)) = pitr_chain is_linux pit fs ds ls.
Proof.
  intros Ha H. destruct (apart_chain _ _ _ _ _ _ Ha H) as [E Hch].
  rewrite !pitr_chain_eq by done. rewrite E. by rewrite (chain_of_idemp _ _ _ H), H.
Qed.

(** The latest point is decided by the times of the files, not by those in their names. *)
Lemma sort_by_ext {A} (leb1 leb2 : A -> A -> bool) l :
  (forall x y, leb1 x y = leb2 x y) -> sort_by leb1 l = sort_by leb2 l.
Proof.
  intros H. induction l as [|x l IH]; [done|]. unfold sort_by in *. cbn. rewrite IH.
  generalize (foldr (insert_sorted leb2) [] l). intros s.
  induction s as [|y s IHs]; cbn; [done|]. by rewrite H, IHs.
Qed.

Lemma by_mtime_lexi x y : by_mtime x y = lexi mtime (fun _ => "") x y.
Proof. unfold by_mtime, lexi. cbn. lia. Qed.

(** A restore to the latest point applies the chain of the copy rule read on the
    modification times of the files, over the full backups that the cutoff leaves. *)
Lemma restore_to_the_latest_point is_linux cutoff fs ds ls :
  NoDup (map mtime fs) -> NoDup (map mtime ds) -> NoDup (map mtime ls) ->
  (forall f, f ∈ fs ++ ds -> asked is_linux (mtime f) = mtime f) ->
  let recent := List.filter (fun f => match cutoff with None => true | Some c => c <=? mtime f end) fs in
  latest_chain is_linux cutoff fs ds ls =
  match chain_of None (seen_all mtime recent ds ls) with
  | None => Err NoFullBackup
  | Some ch => Ok (map item (chain_files ch))
  end.
Proof.
  intros Hf Hd Hl Hask recent. unfold latest_chain, get_latest_full_backup_for_database. fold recent.
  assert (exists text, (if is_linux then sort_desc (lexi mtime low) recent else sort_desc by_mtime recent)
            = sort_desc (lexi mtime text) recent) as [text ->].
  { destruct is_linux; [by eexists|]. eexists. unfold sort_desc. f_equal. apply sort_by_ext, by_mtime_lexi. }
  unfold chain_of. rewrite filter_seen_all. cbn [String.eqb Ascii.eqb Bool.eqb].
  rewrite (filter_true (at_or_before None)) by done.
  rewrite (newest_seen mtime "FULL" text _ (reverse recent))
    by first [by rewrite reverse_Permutation|by apply NoDup_map_filter].
  pose proof (last_sort_by mtime text (reverse recent)) as Hfull.
  unfold sort_desc. rewrite <- head_reverse in *. destruct (reverse (sort_by _ _)) as [|f rest]; [done|].
  cbn [list.head] in *. destruct Hfull as [Hin _].
  rewrite elem_of_reverse in Hin. apply elem_of_filter_bool in Hin as [Hin _].
  cbn [mbind result_bind fmap option_fmap option_map option_bind timestamp seen].
  unfold find_restore_diff_backup, find_restore_log_backups. rewrite !andb_false_r. cbn [negb orb].
  rewrite (Hask f) by (rewrite elem_of_app; by left).
  rewrite (List.filter_ext (fun c => is_kind "DIFF" c && _ && _)
            (fun c : Candidate File => is_kind "DIFF" c && (mtime f <=? timestamp c)))
    by (intros c; apply andb_true_r).
  rewrite (filter_seen_all mtime "DIFF"). cbn [String.eqb Ascii.eqb Bool.eqb]. rewrite filter_seen.
  cbn [timestamp seen]. set (later := List.filter (fun f' => mtime f <=? mtime f') ds).
  rewrite (newest_seen mtime "DIFF" low _ later) by first [done|by apply NoDup_map_filter].
  pose proof (last_sort_by mtime low later) as Hdiff. cbv zeta. set (d := list.last _) in *.
  assert (asked is_linux (mtime (default f d)) = mtime (default f d)) as ->.
  { apply Hask. destruct d as [d|]; cbn; rewrite elem_of_app; [right|by left].
    destruct Hdiff as [Hd' _]. apply elem_of_filter_bool in Hd'. apply Hd'. }
  rewrite filter_seen_all. cbn [String.eqb Ascii.eqb Bool.eqb]. rewrite filter_seen. cbn [timestamp seen].
  rewrite (sort_seen mtime "LOG" low) by by apply NoDup_map_filter.
  unfold chain_files. cbn. unfold baseline. f_equal. by destruct d; cbn; rewrite !map_map, map_id.
Qed.
End Find.

(** ** Concrete directories: a FULL at 02:00, a DIFF at 06:00, LOGs at 06:30, 07:00 and 07:30 *)
Definition sample_file (folder hhmm : string) (minutes : Z) : File :=
  let n := "db_20260921_" +:+ hhmm +:+ "00Z.bak" in
  mkFile n (folder +:+ "/" +:+ n) (seconds (739880 * 86400 + minutes * 60)).
Definition sample_fulls : list File := [sample_file "FULL" "0200" 150; sample_file "FULL" "0130" 90].
Definition sample_diffs : list File := [sample_file "DIFF" "0600" 365].
Definition sample_logs : list File :=
  [sample_file "LOG" "0730" 450; sample_file "LOG" "0630" 390; sample_file "LOG" "0700" 420;
   sample_file "LOG" "0215" 135].
Definition sample_moment : Z := seconds (739880 * 86400 + 400 * 60).

Lemma sample_apart is_linux : apart (fun t => t) is_linux sample_fulls sample_diffs sample_logs.
Proof.
  split_and!; [by apply (bool_decide_unpack _)..|].
  intros f Hf. repeat (apply list.elem_of_cons in Hf as [->|Hf]; [by destruct is_linux; vm_compute|]).
  by apply not_elem_of_nil in Hf.
Qed.

Lemma restore_to_a_moment_witness :
  let r := pitr_chain (fun t => t) true sample_moment sample_fulls sample_diffs sample_logs in
  map path <$> r = Ok ["FULL/db_20260921_020000Z.bak"; "DIFF/db_20260921_060000Z.bak";
                       "LOG/db_20260921_063000Z.bak"; "LOG/db_20260921_070000Z.bak"] /\
  r = match chain_of (Some sample_moment)
              (seen_all (stamp_of (fun t => t)) sample_fulls sample_diffs sample_logs) with
      | None => Err NoFullBackup
      | Some ch => match list.last (logs ch) with
          | None => Err NoLogBackups
          | Some l => if timestamp l <? sample_moment then Err (BeyondLogChain (timestamp l))
                      else Ok (map item (chain_files ch))
          end
      end.
Proof.
  cbv zeta. split; [vm_compute; reflexivity|].
  apply (restore_to_a_moment_applies_the_copied_chain (fun t => t) true sample_moment).
  apply sample_apart.
Defined.

Lemma restore_after_the_copy_witness : exists ch,
  chain_of (Some sample_moment) (seen_all (stamp_of (fun t => t)) sample_fulls sample_diffs sample_logs) = Some ch /\
  pitr_chain (fun t => t) true sample_moment [item (full ch)]
    (match diff ch with Some d => [item d] | None => [] end) (map item (logs ch)) =
  pitr_chain (fun t => t) true sample_moment sample_fulls sample_diffs sample_logs.
Proof.
  eexists. split; [vm_compute; reflexivity|].
  apply (restore_after_the_copy (fun t => t) true sample_moment); [apply sample_apart|].
  vm_compute. reflexivity.
Defined.

Lemma restore_to_the_latest_point_witness :
  latest_chain true None sample_fulls sample_diffs sample_logs =
  match chain_of None (seen_all mtime (List.filter (fun _ => true) sample_fulls) sample_diffs sample_logs) with
  | None => Err NoFullBackup
  | Some ch => Ok (map item (chain_files ch))
  end.
Proof.
  apply (restore_to_the_latest_point true None); [by apply (bool_decide_unpack _)..|].
  intros f Hf. repeat (apply list.elem_of_cons in Hf as [->|Hf]; [by vm_compute|]).
  by apply not_elem_of_nil in Hf.
Defined.

(** The restore to the latest point reads modification times where the copy reads the
    stamps of the names, so on the same files it can leave out a log that the copy counted in
    the chain. *)
Lemma latest_restore_reads_other_times : exists fs ls,
  (map item ∘ chain_files) <$> chain_of None (seen_all (stamp_of (fun t => t)) fs [] ls) = Some (fs ++ ls) /\
  latest_chain false None fs [] ls = Ok fs.
Proof.
  exists [sample_file "FULL" "0200" 150], [sample_file "LOG" "0215" 135]. by vm_compute.
Qed.
