(* ===== verification/Integrity.v ===== *)
(** * What a restore must prove about a file, and what its entry says ([lib/integrity.py]).

    The words of the backup catalogue, the [integrity] block and the [action] of a restore
    entry, and the step of [upgrade-config] that states both.  A refusal keeps what it is
    about, not its sentence. *)

From S2P Require Import Prelude Py.

Definition SHA256 : string := "sha256".
Definition ALGORITHMS : list string := [SHA256].
Definition CHECKSUM_LENGTH : nat := 64.
Definition RESTORE_ACTIONS : list string := ["restore"; "copy_only"].
Definition RUN_FILE_VERDICTS : list string :=
  ["copying"; "match"; "copied"; "recopied"; "source_mismatch"; "source_missing";
   "uncatalogued_refused"; "copy_failed_after_retries"].
Definition PROVEN_VERDICTS : list string := ["match"; "copied"; "recopied"].
Definition ATTEMPT_RESULTS : list string := ["match"; "mismatch"; "copy_error"].
Definition DEFAULT_COPY_MAX_RETRY : Z := 3.
Definition MAX_COPY_MAX_RETRY : Z := 10.
Definition DEFAULT_COPY_RETRY_INTERVAL_SECONDS : Z := 30.
Definition UNCATALOGUED_CHOICES : list string := ["compare_copy"; "refuse"].
Definition SCRUB_FILES_PER_RUN : Z := 20.
Definition INTEGRITY_FIELDS : list string :=
  ["algorithm"; "copy_max_retry"; "copy_retry_interval_seconds"; "verify_source_before_copy";
   "uncatalogued"; "engine_verify_before_restore"].
Definition STATED_ACTION : string := "restore".

(** ** The [integrity] block *)
Record RestoreIntegrity := mkIntegrity {
  algorithm : string; copy_max_retry : Z; copy_retry_interval_seconds : Z;
  verify_source_before_copy : bool; uncatalogued : string; engine_verify_before_restore : bool }.
#[export] Instance RestoreIntegrity_eq_dec : EqDecision RestoreIntegrity.
Proof. solve_decision. Defined.

(** [RestoreIntegrity()]: the defaults of the dataclass. *)
Definition default_integrity : RestoreIntegrity :=
  mkIntegrity SHA256 DEFAULT_COPY_MAX_RETRY DEFAULT_COPY_RETRY_INTERVAL_SECONDS true "compare_copy" false.

Definition as_record (r : RestoreIntegrity) : pydict :=
  [("algorithm", PStr (algorithm r)); ("copy_max_retry", PInt (copy_max_retry r));
   ("copy_retry_interval_seconds", PInt (copy_retry_interval_seconds r));
   ("verify_source_before_copy", PBool (verify_source_before_copy r));
   ("uncatalogued", PStr (uncatalogued r));
   ("engine_verify_before_restore", PBool (engine_verify_before_restore r))].
Definition stated_restore_integrity : pydict := as_record default_integrity.
Definition new_restore_integrity : pydict :=
  as_record (mkIntegrity SHA256 DEFAULT_COPY_MAX_RETRY DEFAULT_COPY_RETRY_INTERVAL_SECONDS true "refuse" false).

(** [IntegrityConfigError], by what it names. *)
Inductive config_error :=
| NotAnObject | UnknownFields (names : list string) | RetryMissing
| BadAlgorithm | BadUncatalogued
| NotABoolean (name : string) | NotAWholeNumber (name : string) | OutOfRange (name : string)
| NoIntegrity | BadAction | NoAction.

Definition _bool (raw : pydict) (name : string) (dflt : bool) : result config_error bool :=
  match default (PBool dflt) (assoc name raw) with
  | PBool b => Ok b
  | _ => Err (NotABoolean name)
  end.
Definition _int (raw : pydict) (name : string) (dflt low high : Z) : result config_error Z :=
  match default (PInt dflt) (assoc name raw) with
  | PInt n => if (low <=? n) && (n <=? high) then Ok n else Err (OutOfRange name)
  | _ => Err (NotAWholeNumber name)
  end.

(** [str(raw.get(name) or default).strip().lower()] *)
Definition word_of (raw : pydict) (name dflt : string) : string :=
  lower (strip (str (py_or (get raw name) (PStr dflt)))).

(** [entry] is the dict of [entry or {}]. *)
Definition parse_restore_integrity (entry : pydict) : result config_error (option RestoreIntegrity) :=
  match get entry "integrity" with
  | PNone => Ok None
  | PDict raw =>
      let unknown := sort_by String.leb (List.filter (fun name =>
        negb (bool_decide (name ∈ INTEGRITY_FIELDS)) && negb (startswith name "_")) (map fst raw)) in
      _ ← raise_when (negb (bool_decide (unknown = []))) (UnknownFields unknown);
      _ ← raise_when (negb (has_key raw "copy_max_retry")) RetryMissing;
      let algorithm := word_of raw "algorithm" SHA256 in
      _ ← raise_when (negb (bool_decide (algorithm ∈ ALGORITHMS))) BadAlgorithm;
      let uncatalogued := word_of raw "uncatalogued" "compare_copy" in
      _ ← raise_when (negb (bool_decide (uncatalogued ∈ UNCATALOGUED_CHOICES))) BadUncatalogued;
      retry ← _int raw "copy_max_retry" DEFAULT_COPY_MAX_RETRY 0 MAX_COPY_MAX_RETRY;
      interval ← _int raw "copy_retry_interval_seconds" DEFAULT_COPY_RETRY_INTERVAL_SECONDS 0 3600;
      verify ← _bool raw "verify_source_before_copy" true;
      engine ← _bool raw "engine_verify_before_restore" false;
      Ok (Some (mkIntegrity algorithm retry interval verify uncatalogued engine))
  | _ => Err NotAnObject
  end.

Definition require_restore_integrity (entry : pydict) : result config_error RestoreIntegrity :=
  parsed ← parse_restore_integrity entry;
  match parsed with Some r => Ok r | None => Err NoIntegrity end.

(** ** The [action] *)
Definition parse_restore_action (entry : pydict) : result config_error (option string) :=
  match get entry "action" with
  | PNone => Ok None
  | PStr s => let value := lower (strip s) in
              if bool_decide (value ∈ RESTORE_ACTIONS) then Ok (Some value) else Err BadAction
  | _ => Err BadAction
  end.
Definition require_restore_action (action : option string) : result config_error string :=
  match action with Some a => Ok a | None => Err NoAction end.

(** [scrub_files_per_run]. *)
Definition scrub_files_per_run (entry : pydict) : result config_error Z :=
  match default (PInt SCRUB_FILES_PER_RUN) (assoc "scrub_files_per_run" entry) with
  | PInt n => if (0 <=? n) && (n <=? 1000) then Ok n else Err (OutOfRange "scrub_files_per_run")
  | _ => Err (NotAWholeNumber "scrub_files_per_run")
  end.

(** ** [upgrade-config]: stating both where they are not *)
Record change := mkChange { where_ : string; field : string }.

Definition label_of (index : nat) (entry : pydict) : string :=
  str (py_or (get entry "restore_id") (PStr ("restores[" +:+ str_of_int (Z.of_nat index) +:+ "]"))).

(** The body of the loop: the entry as it is left, and what was written. *)
Definition state_entry (index : nat) (entry : pydict) : pydict * list change :=
  let at_ := "backup_restore.restores[" +:+ label_of index entry +:+ "]" in
  let '(entry, changes) :=
    if has_key entry "action" then (entry, [])
    else (assoc_set "action" (PStr STATED_ACTION) entry, [mkChange at_ "action"]) in
  if has_key entry "integrity" then (entry, changes)
  else (assoc_set "integrity" (PDict stated_restore_integrity) entry,
        changes ++ [mkChange at_ "integrity"]).

Fixpoint state_entries (index : nat) (entries : list pyval) : list pyval * list change :=
  match entries with
  | [] => ([], [])
  | v :: rest =>
      let '(v, changes) := match v with
        | PDict entry => let '(entry, changes) := state_entry index entry in (PDict entry, changes)
        | _ => (v, [])
        end in
      let '(rest, more) := state_entries (S index) rest in
      (v :: rest, changes ++ more)
  end.

(** The entries are rewritten in place, in the document that holds them. *)
Definition state_restore_integrity (document : pyval) : pyval * list change :=
  match document with
  | PDict doc =>
      match get doc "backup_restore" with
      | PDict section =>
          match get section "restores" with
          | PList entries =>
              let '(entries, changes) := state_entries 0 entries in
              (PDict (assoc_set "backup_restore"
                 (PDict (assoc_set "restores" (PList entries) section)) doc), changes)
          | _ => (document, [])
          end
      | _ => (document, [])
      end
  | _ => (document, [])
  end.

(** ** File types *)
Definition LEVEL_OF_FILE_TYPE : list (string * string) :=
  [("FULL", "full"); ("FULL_BASE", "full"); ("RMAN_L0", "full");
   ("DIFF", "diff"); ("INCR_BASE", "diff"); ("RMAN_L1", "diff");
   ("LOG", "log"); ("WAL", "log"); ("ARCHIVELOG", "log")].
Definition HASHED_MEMBER : list (string * string) :=
  [("FULL_BASE", "backup_manifest"); ("INCR_BASE", "backup_manifest")].
Definition is_hashed_member (file_type : string) : bool :=
  match assoc (upper file_type) HASHED_MEMBER with Some _ => true | None => false end.

Definition hashed_path (file_type path : string) : string :=
  match assoc (upper file_type) HASHED_MEMBER with
  | None => path
  | Some member =>
      if String.eqb path "" then path
      else
        let sep := if contains "\" path && negb (contains "/" path) then "\" else "/" in
        rstrip_chars "/\" path +:+ sep +:+ member
  end.

Definition path_parts (path : string) : list string :=
  List.filter (fun p => negb (String.eqb p "")) (split "/" (replace_char "\" "/" path)).
Definition sqlserver_file_type (relative_path : string) : string :=
  let parts := map upper (path_parts relative_path) in
  let name := default "" (list.last parts) in
  let folders := removelast parts in
  if (endswith name ".CER" || endswith name ".PVK") || bool_decide ("_CERT" ∈ parts) then "CERT"
  else if endswith name ".TRN" || bool_decide ("LOG" ∈ folders) then "LOG"
  else if bool_decide ("DIFF" ∈ folders) then "DIFF"
  else "FULL".

(** [production_target_refusal], without its sentence: is the target refused? *)
Definition PRODUCTION_ENVIRONMENTS : list string := ["prod"; "production"].
Definition production_target_refused (environment : string) (allowed : bool) : bool :=
  negb (allowed || negb (bool_decide (lower (strip environment) ∈ PRODUCTION_ENVIRONMENTS))).

(** ** What the parser lets through *)
Record well_formed (r : RestoreIntegrity) : Prop := {
  wf_algorithm : algorithm r ∈ ALGORITHMS;
  wf_retry : 0 <= copy_max_retry r <= MAX_COPY_MAX_RETRY;
  wf_interval : 0 <= copy_retry_interval_seconds r <= 3600;
  wf_uncatalogued : uncatalogued r ∈ UNCATALOGUED_CHOICES }.

Lemma int_ok raw name dflt low high n : _int raw name dflt low high = Ok n -> low <= n <= high.
Proof.
  unfold _int. destruct (default _ _); try done. destruct (_ && _) eqn:E; [|done]. intros [= <-]. lia.
Qed.

Lemma parse_well_formed entry r : parse_restore_integrity entry = Ok (Some r) -> well_formed r.
Proof.
  unfold parse_restore_integrity. destruct (get entry "integrity") as [| | | | | |raw]; try done.
  cbv zeta. intros H.
  apply result_bind_ok in H as (_ & _ & H). apply result_bind_ok in H as (_ & _ & H).
  apply result_bind_ok in H as (u1 & H1 & H). apply raise_when_ok in H1.
  apply result_bind_ok in H as (u2 & H2 & H). apply raise_when_ok in H2.
  apply result_bind_ok in H as (retry & H3%int_ok & H).
  apply result_bind_ok in H as (interval & H4%int_ok & H).
  apply result_bind_ok in H as (verify & _ & H). apply result_bind_ok in H as (engine & _ & [= <-]).
  apply negb_false_iff, bool_decide_eq_true in H1, H2. by constructor.
Qed.

Lemma parse_as_record entry r : get entry "integrity" = PDict (as_record r) -> well_formed r ->
  parse_restore_integrity entry = Ok (Some r).
Proof.
  intros E [Ha Hr Hi Hu]. unfold parse_restore_integrity. rewrite E.
  destruct r as [a n i v u e]. cbn [algorithm copy_max_retry copy_retry_interval_seconds uncatalogued] in *.
  apply list_elem_of_singleton in Ha as ->.
  unfold word_of, _int, _bool. cbn -[Z.leb MAX_COPY_MAX_RETRY bool_decide].
  assert ((0 <=? n) && (n <=? MAX_COPY_MAX_RETRY) = true) as -> by lia.
  assert ((0 <=? i) && (i <=? 3600) = true) as -> by lia.
  unfold UNCATALOGUED_CHOICES in *. rewrite !list.elem_of_cons in Hu.
  destruct Hu as [->|[->|Hu]]; [reflexivity..|]. by apply not_elem_of_nil in Hu.
Qed.

(** Every integrity block the parser accepts is within its limits, and writing it back with
    as_record and parsing again gives the same block. *)
Lemma integrity_block_roundtrip entry r : parse_restore_integrity entry = Ok (Some r) ->
  well_formed r /\ parse_restore_integrity (assoc_set "integrity" (PDict (as_record r)) entry) = Ok (Some r).
Proof.
  intros H%parse_well_formed. split; [done|]. apply parse_as_record; [|done].
  unfold get. by rewrite assoc_set_eq.
Qed.

(** ** What [upgrade-config] leaves behind *)
Definition states_both (v : pyval) : Prop :=
  match v with PDict e => has_key e "action" = true /\ has_key e "integrity" = true | _ => True end.

Lemma has_key_set k k' (v : pyval) d : has_key (assoc_set k v d) k' = String.eqb k k' || has_key d k'.
Proof.
  unfold has_key. destruct (String.eqb_spec k k') as [->|Hne]; [by rewrite assoc_set_eq|].
  by rewrite assoc_set_ne.
Qed.

Lemma state_entry_keys i e : states_both (PDict (state_entry i e).1).
Proof.
  unfold state_entry. cbn. destruct (has_key e "action") eqn:Ea; cbn zeta iota beta;
    match goal with |- context [if has_key ?d "integrity" then _ else _] => destruct (has_key d "integrity") eqn:Ei end;
    cbn [fst]; rewrite ?has_key_set in *; cbn; rewrite ?Ea, ?Ei; auto.
Qed.

Lemma state_entry_done i e : states_both (PDict e) -> state_entry i e = (e, []).
Proof. intros [Ha Hi]. unfold state_entry. by rewrite Ha, Hi. Qed.

(** A field that is there is kept; one that is not is stated. *)
Lemma state_entry_get i e k : get (state_entry i e).1 k =
  if has_key e k then get e k
  else if String.eqb k "action" then PStr STATED_ACTION
  else if String.eqb k "integrity" then PDict stated_restore_integrity else PNone.
Proof.
  assert (has_key e k = false -> get e k = PNone) as Hno.
  { unfold has_key, get. by destruct (assoc k e). }
  assert (forall k' v d, get (assoc_set k' v d) k = if String.eqb k k' then v else get d k) as Hset.
  { intros k' v d. unfold get. destruct (String.eqb_spec k k') as [<-|]; [by rewrite assoc_set_eq|].
    by rewrite assoc_set_ne by done. }
  unfold state_entry. destruct (has_key e "action") eqn:Ea; cbn zeta iota beta;
    match goal with |- context [if has_key ?d "integrity" then _ else _] => destruct (has_key d "integrity") eqn:Ei end;
    cbn [fst]; rewrite ?has_key_set in Ei; cbn in Ei; rewrite ?Hset;
    destruct (String.eqb_spec k "action") as [Hk|]; destruct (String.eqb_spec k "integrity") as [Hk'|];
    try (rewrite Hk in Hk'; done); try rewrite Hk; try rewrite Hk'; rewrite ?Ea, ?Ei; try done;
    destruct (has_key e k) eqn:Ek; try done; by apply Hno.
Qed.

Lemma state_entries_both i l : Forall states_both (state_entries i l).1.
Proof.
  revert i. induction l as [|v l IH]; intros i; cbn; [constructor|].
  specialize (IH (S i)). destruct (state_entries (S i) l) as [rest more]. cbn [fst] in IH.
  destruct v as [| | | | | |e]; cbn; try (constructor; [exact I|exact IH]).
  pose proof (state_entry_keys i e). destruct (state_entry i e). by constructor.
Qed.

Lemma state_entries_done i l : Forall states_both l -> state_entries i l = (l, []).
Proof.
  intros H. revert i. induction H as [|v l Hv Hl IH]; intros i; cbn; [done|].
  rewrite (IH (S i)). destruct v as [| | | | | |e]; try done. by rewrite state_entry_done.
Qed.

(** The entries of a document. *)
Definition restores_of (document : pyval) : list pyval :=
  match document with
  | PDict doc => match get doc "backup_restore" with
                 | PDict section => match get section "restores" with PList l => l | _ => [] end
                 | _ => []
                 end
  | _ => []
  end.

Lemma restores_of_stated document :
  restores_of (state_restore_integrity document).1 = (state_entries 0 (restores_of document)).1.
Proof.
  unfold state_restore_integrity, restores_of.
  destruct document as [| | | | | |doc]; try done.
  destruct (get doc "backup_restore") as [| | | | | |section] eqn:E1; try by cbn [fst]; rewrite E1.
  destruct (get section "restores") as [| | | | |l|] eqn:E2; try by cbn [fst]; rewrite E1, E2.
  destruct (state_entries 0 l) as [l' changes]. unfold get. cbn [fst].
  rewrite assoc_set_eq. cbn beta iota delta [from_option id]. by rewrite assoc_set_eq.
Qed.

Lemma assoc_set_same {A} k (v : A) d : assoc k d = Some v -> assoc_set k v d = d.
Proof.
  induction d as [|[k' w] d IH]; cbn; [done|]. destruct (String.eqb_spec k k') as [->|]; [by intros [= ->]|].
  intros H. by rewrite IH.
Qed.

Lemma state_done document : Forall states_both (restores_of document) ->
  state_restore_integrity document = (document, []).
Proof.
  intros H. unfold state_restore_integrity, restores_of in *.
  destruct document as [| | | | | |doc]; try done.
  destruct (get doc "backup_restore") as [| | | | | |section] eqn:E1; try done.
  destruct (get section "restores") as [| | | | |l|] eqn:E2; try done.
  rewrite state_entries_done by done. unfold get in *.
  destruct (assoc "backup_restore" doc) as [v|] eqn:E3; [|done]. cbn in E1. subst v.
  destruct (assoc "restores" section) as [v|] eqn:E4; [|done]. cbn in E2. subst v.
  rewrite (assoc_set_same "restores") by done. by rewrite assoc_set_same.
Qed.

Lemma state_entries_lookup i l n e : l !! n = Some (PDict e) ->
  exists e', (state_entries i l).1 !! n = Some (PDict e') /\ e' = (state_entry (i + n) e).1.
Proof.
  revert i n. induction l as [|v l IH]; intros i n Hn; [done|]. cbn [state_entries].
  destruct n as [|n]; cbn in Hn.
  - injection Hn as ->. destruct (state_entry i e) as [e1 c] eqn:Ee.
    destruct (state_entries (S i) l) as [rest more]. exists e1. rewrite Nat.add_0_r, Ee. done.
  - destruct (IH (S i) n Hn) as (e' & H & He). rewrite Nat.add_succ_r.
    destruct (match v with PDict entry => _ | _ => _ end) as [v' c].
    destruct (state_entries (S i) l) as [rest more]. by exists e'.
Qed.

(** The config upgrade changes nothing a restore entry already states, gives every entry
    without one the default integrity block and action, after which the entry parses to exactly
    those, and a second run changes nothing. *)
Lemma upgrade_states_every_entry document : let document' := (state_restore_integrity document).1 in
  state_restore_integrity document' = (document', []) /\
  forall n e, restores_of document !! n = Some (PDict e) ->
    exists e', restores_of document' !! n = Some (PDict e') /\
      (forall k, has_key e k = true -> get e' k = get e k) /\
      (has_key e "integrity" = false -> require_restore_integrity e' = Ok default_integrity) /\
      (has_key e "action" = false -> parse_restore_action e' = Ok (Some STATED_ACTION)).
Proof.
  intros document'. split.
  - apply state_done. unfold document'. rewrite restores_of_stated. apply state_entries_both.
  - intros n e Hn. unfold document'. rewrite restores_of_stated.
    destruct (state_entries_lookup 0 _ _ _ Hn) as (e' & -> & He'). exists e'. split; [done|].
    rewrite He'. split_and!.
    + intros k Hk. by rewrite state_entry_get, Hk.
    + intros Hk. unfold require_restore_integrity. rewrite (parse_as_record _ default_integrity); [done| |].
      * by rewrite state_entry_get, Hk.
      * by constructor; [left|..|left].
    + intros Hk. unfold parse_restore_action. rewrite state_entry_get, Hk. reflexivity.
Qed.

Lemma integrity_block_roundtrip_witness :
  let entry := [("restore_id", PStr "drill");
                ("integrity", PDict [("copy_max_retry", PInt 5); ("uncatalogued", PStr " Refuse "); ("_note", PNone)])] in
  let r := mkIntegrity SHA256 5 30 true "refuse" false in
  parse_restore_integrity entry = Ok (Some r) /\
  parse_restore_integrity (assoc_set "integrity" (PDict (as_record r)) entry) = Ok (Some r).
Proof.
  cbv zeta. split; [vm_compute; reflexivity|].
  apply integrity_block_roundtrip. vm_compute. reflexivity.
Defined.

Lemma upgrade_states_every_entry_witness :
  let document := PDict [("backup_restore", PDict [("restores",
     PList [PNone; PDict [("restore_id", PStr "drill"); ("action", PStr "copy_only")]])])] in
  exists e', restores_of (state_restore_integrity document).1 !! 1%nat = Some (PDict e') /\
    parse_restore_action e' = Ok (Some "copy_only") /\
    require_restore_integrity e' = Ok default_integrity.
Proof.
  cbv zeta.
  destruct (proj2 (upgrade_states_every_entry (PDict [("backup_restore", PDict [("restores",
     PList [PNone; PDict [("restore_id", PStr "drill"); ("action", PStr "copy_only")]])])])) 1%nat
     [("restore_id", PStr "drill"); ("action", PStr "copy_only")] eq_refl) as (e' & H1 & H2 & H3 & _).
  exists e'. split; [exact H1|]. split.
  - unfold parse_restore_action. rewrite (H2 "action"); [vm_compute; reflexivity|reflexivity].
  - apply H3. reflexivity.
Defined.
