(* ===== verification/CopyGate.v ===== *)
(** * The copy gate ([backup_restore/copy_gate.py]): a staged file is proven by checksum
    and size before it is used.

    The transport is injected, as in the code: a record of what hashes, copies and waits,
    over a world of any type.  The catalogue is the list of rows written, in order; the
    instants of a row are left out.  The dicts [sha_of], [size_of], [stored] and [side] of
    the code are one record, [Known], that a file has once its source was read. *)

From S2P Require Import Prelude Py Integrity.

(** ** Data *)
Record FileToCopy := mkFile {
  source_server_id : string; target_server_id : string; file_name : string; file_type : string;
  source_path : string; target_path : string; database_name : string; engine : string;
  checksum_after_backup : option string; size_after_backup : option Z;
  source_host_path : string; target_host_path : string; file_id : option Z;
  chain_position : option Z; backup_taken_at : option string }.

Record Attempt := mkAttempt {
  attempt_no : Z; a_result : string; after_copy : option string; size_after_copy : option Z;
  bytes_copied : option Z; error_text : string }.

Record FileOutcome := mkOutcome {
  verdict : string; checksum_source_before_copy : option string;
  checksum_target_before_copy : option string; checksum_target_after_copy : option string;
  attempts : list Attempt; run_file_id : option Z; reason : string }.
Definition proven (o : FileOutcome) : bool := bool_decide (verdict o ∈ PROVEN_VERDICTS).

(** A hasher's answer: checksum and size, for each path that is there. *)
Definition Answer : Type := string * option Z.
Definition Answers : Type := list (string * Answer).

(** [not text], of a text that may be [None]. *)
Definition given (s : option string) : option string :=
  match s with Some s => if String.eqb s "" then None else Some s | None => None end.

Definition same_bytes (found : option Answer) (sha256 : option string) (size : option Z) : bool :=
  match found, given sha256 with
  | Some (sha, found_size), Some expected =>
      negb (String.eqb sha "") && String.eqb (lower sha) (lower expected) &&
      match found_size, size with Some a, Some b => a =? b | _, _ => true end
  | _, _ => false
  end.

Definition _size_note (found : option Answer) (size : option Z) : string :=
  match found, size with
  | Some (_, Some a), Some b =>
      if a =? b then "" else str_of_int a +:+ " bytes on the target, " +:+ str_of_int b +:+ " at the source"
  | _, _ => ""
  end.

(** What is known of a file whose source was read. *)
Record Known := mkKnown { source_sha : string; source_size : option Z; stored : string }.
Definition source_checksum_matches (k : Known) : bool := String.eqb (source_sha k) (stored k).

(** The rows of the catalogue: [add_run_file], [set_run_file], [record_copy_attempt]. *)
Inductive row :=
| RunFile (id : option Z) (item : FileToCopy) (verdict : string) (side : option Known)
    (before : option string)
| RunFileSet (id : option Z) (verdict : string) (copy_attempts : option Z) (after : option string)
    (size_target_bytes : option Z) (target_on_disk : bool) (target_checksum_matches : option bool)
| CopyAttempt (id : option Z) (item : FileToCopy) (sha : string) (attempt : Attempt).

Inductive gate_error := NoIntegrityStated | HashFailed (text : string) | IndexError.

(** ** The transport, and the effects of a run *)
Record transport (W : Type) := mkTransport {
  hash_sources : list string -> W -> result string Answers * W;
  hash_targets : list string -> W -> result string Answers * W;
  copy : FileToCopy -> W -> result string (option Z) * W;
  sleep : Z -> W -> W }.
Arguments hash_sources {W}. Arguments hash_targets {W}. Arguments copy {W}. Arguments sleep {W}.
Arguments mkTransport {W}.

Section Gate.
Context {W : Type}.

(** [recording] is [catalog is not None and restore_run_id is not None]; without it the rows
    go nowhere and have no number. *)
Record run := mkRun { world : W; recording : bool; rows : list row; next_id : Z }.

Definition M (A : Type) : Type := run -> result gate_error A * run.
#[export] Instance M_ret : MRet M := fun _ a r => (Ok a, r).
#[export] Instance M_bind : MBind M := fun _ _ f m r =>
  match m r with (Ok a, r) => f a r | (Err e, r) => (Err e, r) end.

Definition raise {A} (e : gate_error) : M A := fun r => (Err e, r).
(** A [for] loop whose body rewrites its element. *)
Fixpoint each {A B} (f : A -> M B) (l : list A) : M (list B) :=
  match l with
  | [] => mret []
  | x :: l => y ← f x; ys ← each f l; mret (y :: ys)
  end.

Definition act {A} (f : W -> result string A * W) : M A := fun r =>
  let '(a, w) := f (world r) in
  let r := mkRun w (recording r) (rows r) (next_id r) in
  match a with Ok a => (Ok a, r) | Err e => (Err (HashFailed e), r) end.
Definition pause (t : transport W) (s : Z) : M unit := fun r =>
  (Ok tt, mkRun (sleep t s (world r)) (recording r) (rows r) (next_id r)).
(** [try: copy(item) except Exception as exc]. *)
Definition try_copy (t : transport W) (item : FileToCopy) : M (result string (option Z)) := fun r =>
  let '(a, w) := copy t item (world r) in (Ok a, mkRun w (recording r) (rows r) (next_id r)).
Definition write (x : row) : M unit := fun r =>
  (Ok tt, mkRun (world r) (recording r) (if recording r then rows r ++ [x] else rows r) (next_id r)).
Definition add_run_file (item : FileToCopy) (verdict : string) (side : option Known)
    (before : option string) : M (option Z) := fun r =>
  if recording r then
    let id := Some (next_id r) in
    (Ok id, mkRun (world r) true (rows r ++ [RunFile id item verdict side before]) (next_id r + 1))
  else (Ok None, r).

(** ** One file on its way *)
Inductive stage := Closed | Candidate (k : Known) | Pending (k : Known) | Copied (k : Known).
Record work := mkWork { item : FileToCopy; outcome : FileOutcome; at_ : stage }.

Definition with_verdict (v : string) (why : string) (o : FileOutcome) : FileOutcome :=
  mkOutcome v (checksum_source_before_copy o) (checksum_target_before_copy o)
    (checksum_target_after_copy o) (attempts o) (run_file_id o) why.
Definition is_pending (w : work) : bool := match at_ w with Pending _ => true | _ => false end.
Definition is_candidate (w : work) : bool := match at_ w with Candidate _ => true | _ => false end.

Context (integrity : RestoreIntegrity) (t : transport W).

(** 1. The sources, where they are. *)
Definition look_at_source (sources : Answers) (item : FileToCopy) : M work :=
  match assoc (source_path item) sources with
  | None =>
      id ← add_run_file item "source_missing" None None;
      mret (mkWork item (mkOutcome "source_missing" None None None [] id
        (source_path item +:+ " is not on " +:+ source_server_id item)) Closed)
  | Some (sha, size) =>
      let k := mkKnown sha size (default sha (given (checksum_after_backup item))) in
      let closed verdict why :=
        id ← add_run_file item verdict (Some k) None;
        mret (mkWork item (mkOutcome verdict (Some sha) None None [] id why) Closed) in
      match checksum_after_backup item with
      | None =>
          if String.eqb (uncatalogued integrity) "refuse" then
            closed "uncatalogued_refused" "no backup recorded this file, and the entry refuses one"
          else mret (mkWork item (mkOutcome "copying" (Some sha) None None [] None "") (Candidate k))
      | Some recorded =>
          if verify_source_before_copy integrity && negb (String.eqb sha recorded) then
            closed "source_mismatch"
              (source_path item +:+ " on " +:+ source_server_id item +:+ " hashes " +:+ str_take 12 sha
               +:+ "... but its backup recorded " +:+ str_take 12 recorded
               +:+ "... - the backup changed after it was written")
          else mret (mkWork item (mkOutcome "copying" (Some sha) None None [] None "") (Candidate k))
      end
  end.

(** 2. Already on the target, the same bytes: nothing to copy. *)
Definition look_at_target (before : Answers) (w : work) : M work :=
  match at_ w with
  | Candidate k =>
      let found := assoc (target_path (item w)) before in
      let before_sha := fst <$> found in
      id ← add_run_file (item w) "copying" (Some k) before_sha;
      let o := outcome w in
      if same_bytes found (Some (source_sha k)) (source_size k) then
        _ ← write (RunFileSet id "match" None before_sha (found ≫= snd) true
                     (Some (bool_decide (before_sha = Some (stored k)))));
        mret (mkWork (item w) (mkOutcome "match" (checksum_source_before_copy o) before_sha before_sha
                (attempts o) id (reason o)) Closed)
      else
        mret (mkWork (item w) (mkOutcome (verdict o) (checksum_source_before_copy o) before_sha
                (checksum_target_after_copy o) (attempts o) id (reason o)) (Pending k))
  | _ => mret w
  end.

(** 3. One round: copy everything pending, hash it in one call, keep what is still wrong.
    The first loop leaves the attempt of a pending file and whether it was copied. *)
Definition copy_one (no : Z) (w : work) : M (work * option (Attempt * bool)) :=
  if is_pending w then
    answer ← try_copy t (item w);
    mret (w, Some (match answer with
      | Ok bytes => (mkAttempt no "copy_error" None None bytes "", true)
      | Err text => (mkAttempt no "copy_error" None None None (str_take 2000 text), false)
      end))
  else mret (w, None).

Definition judge (k : Known) (item : FileToCopy) (found : option Answer) (a : Attempt) : Attempt :=
  match found with
  | None => mkAttempt (attempt_no a) (a_result a) (after_copy a) (size_after_copy a) (bytes_copied a)
              (target_path item +:+ " is not on " +:+ target_server_id item +:+ " after the copy")
  | Some (sha, size) =>
      let same := same_bytes found (Some (source_sha k)) (source_size k) in
      mkAttempt (attempt_no a) (if same then "match" else "mismatch") (Some sha) size (bytes_copied a)
        (if negb same && String.eqb sha (source_sha k) then _size_note found (source_size k)
         else error_text a)
  end.

Definition check_one (no : Z) (after : Answers) (p : work * option (Attempt * bool)) : M work :=
  let '(w, tried) := p in
  match at_ w, tried with
  | Pending k, Some (a, copied) =>
      let a := if copied then judge k (item w) (assoc (target_path (item w)) after) a else a in
      let o := outcome w in
      _ ← write (CopyAttempt (run_file_id o) (item w) (source_sha k) a);
      let matched := String.eqb (a_result a) "match" in
      let last_sha := match after_copy a with Some s => Some s | None => checksum_target_after_copy o end in
      let v := if matched then (if no =? 1 then "copied" else "recopied") else verdict o in
      mret (mkWork (item w) (mkOutcome v (checksum_source_before_copy o) (checksum_target_before_copy o)
              last_sha (attempts o ++ [a]) (run_file_id o) (reason o))
              (if matched then Copied k else Pending k))
  | _, _ => mret w
  end.

(** [hash_targets(paths) if paths else {}] *)
Definition hash_some (paths : list string) : M Answers :=
  match paths with [] => mret [] | _ => act (hash_targets t paths) end.

Definition round (no : Z) (works : list work) : M (list work) :=
  tried ← each (copy_one no) works;
  let copied := omap (fun p : work * option (Attempt * bool) =>
    match p.2 with Some (_, true) => Some (target_path (item p.1)) | _ => None end) tried in
  after ← hash_some copied;
  each (check_one no after) tried.

Definition total : Z := copy_max_retry integrity + 1.

Fixpoint rounds (nos : list Z) (works : list work) : M (list work) :=
  match nos with
  | [] => mret works
  | no :: nos =>
      if existsb is_pending works then
        works ← round no works;
        _ ← (if existsb is_pending works && (no <? total)
                && negb (copy_retry_interval_seconds integrity =? 0)
             then pause t (copy_retry_interval_seconds integrity) else mret tt);
        rounds nos works
      else mret works
  end.
(** [range(1, total + 1)] *)
Definition attempt_numbers : list Z := map Z.of_nat (seq 1 (Z.to_nat total)).

(** Out of attempts: [outcome.attempts[-1]] of a file that is still pending. *)
Definition give_up_on (w : work) : M work :=
  match at_ w with
  | Pending k =>
      match list.last (attempts (outcome w)) with
      | None => raise IndexError
      | Some a =>
          mret (mkWork (item w) (with_verdict "copy_failed_after_retries"
            (file_name (item w) +:+ ": " +:+ str_of_int total +:+ " attempt(s), none arrived equal to the source"
             +:+ (if String.eqb (error_text a) "" then "" else " - last: " +:+ error_text a)) (outcome w))
            (Pending k))
      end
  | _ => mret w
  end.

(** The last row of every file a copy was started for. *)
Definition close_row (w : work) : M work :=
  match at_ w with
  | Pending k | Copied k =>
      match list.last (attempts (outcome w)) with
      | None => raise IndexError
      | Some a =>
          let o := outcome w in
          _ ← write (RunFileSet (run_file_id o) (verdict o) (Some (Z.of_nat (length (attempts o))))
                (checksum_target_after_copy o) (size_after_copy a)
                (match after_copy a with Some _ => true | None => false end)
                ((fun s => String.eqb s (stored k)) <$> after_copy a));
          mret w
      end
  | _ => mret w
  end.

Definition gate (items : list FileToCopy) : M (list FileOutcome) :=
  sources ← act (hash_sources t (map source_path items));
  works ← each (look_at_source sources) items;
  before ← hash_some (map (fun w => target_path (item w)) (List.filter is_candidate works));
  works ← each (look_at_target before) works;
  works ← rounds attempt_numbers works;
  works ← each give_up_on works;
  works ← each close_row works;
  mret (map outcome works).
End Gate.
Arguments run : clear implicits.
Arguments M : clear implicits.

Definition copy_verified_batch {W} (integrity : option RestoreIntegrity) (t : transport W)
    (items : list FileToCopy) : M W (list FileOutcome) :=
  match integrity with
  | None => raise NoIntegrityStated
  | Some integrity => gate integrity t items
  end.

(** [copy_verified]: a batch of one, its hashers asked path by path. *)
Fixpoint ask_all {W} (hasher : string -> W -> result string (option Answer) * W) (paths : list string)
    (found : Answers) (w : W) : result string Answers * W :=
  match paths with
  | [] => (Ok found, w)
  | path :: paths =>
      match hasher path w with
      | (Err e, w) => (Err e, w)
      | (Ok None, w) => ask_all hasher paths found w
      | (Ok (Some answer), w) => ask_all hasher paths (assoc_set path answer found) w
      end
  end.
Definition copy_verified {W} (integrity : option RestoreIntegrity)
    (hash_source hash_target : string -> W -> result string (option Answer) * W)
    (copy : FileToCopy -> W -> result string (option Z) * W) (sleep : Z -> W -> W)
    (item : FileToCopy) : M W FileOutcome :=
  os ← copy_verified_batch integrity
         (mkTransport (fun ps => ask_all hash_source ps []) (fun ps => ask_all hash_target ps []) copy sleep) [item];
  match os with o :: _ => mret o | [] => raise IndexError end.

(** [summarize]. *)
Record summary := mkSummary {
  s_files : nat; s_verdicts : list (string * nat); s_proven : bool; s_recopied : nat; s_unproven : list string }.
Definition count_verdicts (os : list FileOutcome) : list (string * nat) :=
  fold_left (fun counts o => assoc_set (verdict o) (default 0%nat (assoc (verdict o) counts) + 1)%nat counts) os [].
Definition summarize (os : list FileOutcome) : summary :=
  let counts := count_verdicts os in
  let unproven := map (fun o => if String.eqb (reason o) "" then verdict o else reason o)
    (List.filter (fun o => negb (proven o)) os) in
  mkSummary (length os) counts (match unproven with [] => true | _ => false end)
    (default 0%nat (assoc "recopied" counts)) (take 20 unproven).

(** [confirm_on_target]: the files that are there, held to what their backup recorded. *)
Definition recorded_size (item : FileToCopy) : option Z :=
  if is_hashed_member (file_type item) then None else size_after_backup item.
Definition catalogued (item : FileToCopy) : bool :=
  match given (checksum_after_backup item) with Some _ => true | None => false end.
Definition blank_outcome : FileOutcome := mkOutcome "copying" None None None [] None "".

Definition confirm_one {W} (found : Answers) (item : FileToCopy) : M W (FileOutcome * bool) :=
  let target := assoc (target_path item) found in
  if catalogued item && same_bytes target (checksum_after_backup item) (recorded_size item) then
    let sha := fst <$> target in
    id ← add_run_file item "match" None sha;
    mret (mkOutcome "match" None sha sha [] id "", false)
  else mret (blank_outcome, true).

(** The outcome of each file, and the indexes still to copy. *)
Definition confirm_on_target {W} (integrity : option RestoreIntegrity) (t : transport W)
    (items : list FileToCopy) : M W (list FileOutcome * list nat) :=
  match integrity with
  | None => raise NoIntegrityStated
  | Some _ =>
      found ← hash_some t (map target_path (List.filter catalogued items));
      os ← each (confirm_one found) items;
      let remaining := omap (fun p : nat * (FileOutcome * bool) => if p.2.2 then Some p.1 else None)
        (imap pair os) in
      mret (map fst os, remaining)
  end.
