(* ===== verification/CopyGateProofs.v ===== *)
(** * What the copy gate proves.

    The steps of a run as relations on one file ([source_spec], [target_spec], [round_spec]),
    how far a file is after a number of rounds ([progress]), what a run does to the state of
    its transport ([moves]), and the theorems: every file is judged by the rules of the module,
    a proven file is the source's bytes on the target, nothing else is copied, and only a hash
    that cannot be taken makes the gate raise. *)

From S2P Require Import Prelude Py Integrity CopyGate.

(** ** Reasoning about a run *)
Lemma Forall2_conj {A B} (P Q : A -> B -> Prop) l k :
  Forall2 P l k -> Forall2 Q l k -> Forall2 (fun x y => P x y /\ Q x y) l k.
Proof. induction 1; inversion 1; subst; constructor; auto. Qed.

Section Proofs.
Context {W : Type}.

Lemma bind_runs {A B} (m : M W A) (f : A -> M W B) r b r' :
  (m ≫= f) r = (Ok b, r') <-> exists a r1, m r = (Ok a, r1) /\ f a r1 = (Ok b, r').
Proof.
  unfold mbind, M_bind. destruct (m r) as [[a|e] r1]; split.
  - eauto.
  - intros (a' & r2 & [= <- <-] & H). done.
  - done.
  - intros (a' & r2 & H & _). done.
Qed.
Lemma ret_runs {A} (a b : A) (r r' : run W) : mret (M := M W) a r = (Ok b, r') <-> a = b /\ r = r'.
Proof. unfold mret, M_ret. split; [by intros [= -> ->]|by intros [-> ->]]. Qed.

(** What a loop makes of each element, whatever the state. *)
Lemma each_values {A B} (f : A -> M W B) (Q : A -> B -> Prop) l r ys r' :
  (forall x r y r', f x r = (Ok y, r') -> Q x y) ->
  each f l r = (Ok ys, r') -> Forall2 Q l ys.
Proof.
  intros Hf. revert r ys. induction l as [|x l IH]; intros r ys; cbn [each].
  - intros [<- _]%ret_runs. constructor.
  - intros (y & r1 & Hy & H)%bind_runs. apply bind_runs in H as (zs & r2 & Hys & [<- <-]%ret_runs).
    constructor; [by eapply Hf|by eapply IH].
Qed.

(** What a step does to the state, however it ends. *)
Definition moves {A} (R : run W -> run W -> Prop) (m : M W A) : Prop := forall r, R r (m r).2.

Section moves.
Context (R : run W -> run W -> Prop) `{!Reflexive R, !Transitive R}.
Lemma moves_ret {A} (a : A) : moves R (mret (M := M W) a).
Proof. intros r. done. Qed.
Lemma moves_raise {A} e : moves R (raise (A := A) e).
Proof. intros r. done. Qed.
Lemma moves_bind {A B} (m : M W A) (f : A -> M W B) :
  moves R m -> (forall a, moves R (f a)) -> moves R (m ≫= f).
Proof.
  intros Hm Hf r. unfold mbind, M_bind. specialize (Hm r). destruct (m r) as [[a|e] r1]; [|done].
  etrans; [exact Hm|apply Hf].
Qed.
Lemma moves_each {A B} (f : A -> M W B) l : (forall x, x ∈ l -> moves R (f x)) -> moves R (each f l).
Proof.
  induction l as [|x l IH]; intros Hf; cbn [each]; [apply moves_ret|].
  apply moves_bind; [apply Hf; by left|]. intros y. apply moves_bind; [|intros ys; apply moves_ret].
  apply IH. intros z Hz. apply Hf. by right.
Qed.
End moves.

Context (integrity : RestoreIntegrity) (t : transport W).

(** ** The steps, as relations on one file *)
(** A source that may be copied from: it was read, and is what the backup recorded. *)
Definition may_copy (answer : option Answer) (item : FileToCopy) : bool :=
  match answer, checksum_after_backup item with
  | None, _ => false
  | Some _, None => negb (String.eqb (uncatalogued integrity) "refuse")
  | Some (sha, _), Some c => negb (verify_source_before_copy integrity) || String.eqb sha c
  end.
Definition refusal (answer : option Answer) (item : FileToCopy) : string :=
  match answer, checksum_after_backup item with
  | None, _ => "source_missing"
  | Some _, None => "uncatalogued_refused"
  | Some _, Some _ => "source_mismatch"
  end.

Definition source_spec (sources : Answers) (f : FileToCopy) (w : work) : Prop :=
  item w = f /\ attempts (outcome w) = [] /\
  let answer := assoc (source_path f) sources in
  if may_copy answer f then
    exists k, at_ w = Candidate k /\ answer = Some (source_sha k, source_size k) /\
      verdict (outcome w) = "copying" /\ checksum_source_before_copy (outcome w) = Some (source_sha k)
  else at_ w = Closed /\ verdict (outcome w) = refusal answer f.

Lemma look_at_source_spec sources f (r : run W) w r' :
  look_at_source integrity sources f r = (Ok w, r') -> source_spec sources f w.
Proof.
  unfold look_at_source, source_spec, may_copy, refusal. destruct (assoc (source_path f) sources) as [[sha size]|].
  - destruct (checksum_after_backup f) as [c|] eqn:Ec.
    + destruct (verify_source_before_copy integrity); cbn [andb negb orb];
        [|intros [<- <-]%ret_runs; by eauto 10].
      destruct (String.eqb_spec sha c); cbn [negb]; [intros [<- <-]%ret_runs; by eauto 10|].
      intros (id & r1 & _ & [<- <-]%ret_runs)%bind_runs. by split_and!.
    + destruct (String.eqb (uncatalogued integrity) "refuse"); cbn [negb].
      * intros (id & r1 & _ & [<- <-]%ret_runs)%bind_runs. by split_and!.
      * intros [<- <-]%ret_runs. by eauto 10.
  - intros (id & r1 & _ & [<- <-]%ret_runs)%bind_runs. by split_and!.
Qed.

Definition same_as (k : Known) (answer : option Answer) : bool :=
  same_bytes answer (Some (source_sha k)) (source_size k).

Definition target_spec (before : Answers) (w w' : work) : Prop :=
  match at_ w with
  | Candidate k =>
      item w' = item w /\ attempts (outcome w') = attempts (outcome w) /\
      checksum_source_before_copy (outcome w') = checksum_source_before_copy (outcome w) /\
      if same_as k (assoc (target_path (item w)) before)
      then at_ w' = Closed /\ verdict (outcome w') = "match"
      else at_ w' = Pending k /\ verdict (outcome w') = verdict (outcome w)
  | _ => w' = w
  end.

Lemma look_at_target_spec before w (r : run W) w' r' :
  look_at_target before w r = (Ok w', r') -> target_spec before w w'.
Proof.
  unfold look_at_target, target_spec, same_as. destruct (at_ w) as [|k|k|k]; try by intros [<- <-]%ret_runs.
  intros (id & r1 & _ & H)%bind_runs. destruct (same_bytes _ _ _).
  - apply bind_runs in H as (u & r2 & _ & [<- <-]%ret_runs). by split_and!.
  - apply ret_runs in H as [<- <-]. by split_and!.
Qed.

Definition tried_spec (no : Z) (w : work) (p : work * option (Attempt * bool)) : Prop :=
  p.1 = w /\ match at_ w with
    | Pending _ => exists a copied, p.2 = Some (a, copied) /\ attempt_no a = no /\ a_result a = "copy_error"
    | _ => p.2 = None
    end.

Lemma copy_one_spec no w r p r' : copy_one t no w r = (Ok p, r') -> tried_spec no w p.
Proof.
  unfold copy_one, is_pending, tried_spec. destruct (at_ w); try by intros [<- <-]%ret_runs.
  intros (answer & r1 & _ & [<- <-]%ret_runs)%bind_runs. split; [done|]. destruct answer; by eauto.
Qed.

Lemma judge_spec k f found a : a_result a = "copy_error" ->
  attempt_no (judge k f found a) = attempt_no a /\
  String.eqb (a_result (judge k f found a)) "match" = same_as k found.
Proof.
  unfold judge, same_as. intros Ha. destruct found as [[sha size]|]; cbn [attempt_no a_result]; (split; [done|]).
  - by destruct (same_bytes _ _ _).
  - by rewrite Ha.
Qed.

(** One round, for one file. *)
Definition round_spec (no : Z) (after : Answers) (w w' : work) : Prop :=
  match at_ w with
  | Pending k => exists a, attempt_no a = no /\ item w' = item w /\
      attempts (outcome w') = attempts (outcome w) ++ [a] /\
      checksum_source_before_copy (outcome w') = checksum_source_before_copy (outcome w) /\
      if String.eqb (a_result a) "match" then
        at_ w' = Copied k /\ verdict (outcome w') = (if no =? 1 then "copied" else "recopied") /\
        same_as k (assoc (target_path (item w)) after) = true
      else at_ w' = Pending k /\ verdict (outcome w') = verdict (outcome w)
  | _ => w' = w
  end.

Lemma check_one_spec no after w p (r : run W) w' r' :
  tried_spec no w p -> check_one no after p r = (Ok w', r') -> round_spec no after w w'.
Proof.
  destruct p as [w0 tried]. intros [E H]. cbn in E. subst w0. unfold check_one, round_spec.
  destruct (at_ w) as [|k|k|k]; cbn in H; try (subst tried; by intros [<- <-]%ret_runs).
  destruct H as (a & copied & -> & Hno & Hres). cbv zeta.
  set (a' := if copied then _ else _). intros (u & r1 & _ & [<- <-]%ret_runs)%bind_runs.
  assert (attempt_no a' = no /\ (String.eqb (a_result a') "match" = true ->
            same_as k (assoc (target_path (item w)) after) = true)) as [Hn Hm].
  { unfold a'. destruct copied; [|by rewrite Hres].
    destruct (judge_spec k (item w) (assoc (target_path (item w)) after) a Hres) as [-> ->]. done. }
  exists a'. cbn [outcome item attempts checksum_source_before_copy at_ verdict].
  destruct (String.eqb (a_result a') "match") eqn:Em; split_and!; auto.
Qed.

Lemma round_values no works r works' r' : round t no works r = (Ok works', r') ->
  exists after, Forall2 (round_spec no after) works works'.
Proof.
  unfold round. intros (tried & r1 & H1 & H)%bind_runs. cbv zeta in H.
  apply bind_runs in H as (after & r2 & _ & H2). exists after.
  apply (each_values _ _ _ _ _ _ (copy_one_spec no)) in H1.
  apply (each_values _ (fun p w' => forall w, tried_spec no w p -> round_spec no after w w')) in H2.
  - eapply list.Forall2_trans; [|exact H1|exact H2]. intros w p w' Hp Hw. apply Hw, Hp.
  - intros p r3 w' r4 Hc w Hp. by eapply check_one_spec.
Qed.

(** ** How far a file is after [n] rounds *)
Definition numbered (l : list Attempt) : Prop := map attempt_no l = map Z.of_nat (seq 1 (length l)).
Definition failed (a : Attempt) : Prop := a_result a <> "match".
Definition delivered (n : nat) (l : list Attempt) (v : string) : Prop := exists fs a,
  l = fs ++ [a] /\ Forall failed fs /\ a_result a = "match" /\ (length l <= n)%nat /\
  v = match fs with [] => "copied" | _ => "recopied" end.

Definition progress (n : nat) (answer : option Answer) (f : FileToCopy) (w : work) : Prop :=
  item w = f /\ numbered (attempts (outcome w)) /\
  (may_copy answer f = true -> checksum_source_before_copy (outcome w) = fst <$> answer) /\
  match at_ w with
  | Closed => attempts (outcome w) = [] /\
      verdict (outcome w) = if may_copy answer f then "match" else refusal answer f
  | Candidate _ => False
  | Pending k => may_copy answer f = true /\ answer = Some (source_sha k, source_size k) /\
      verdict (outcome w) = "copying" /\ length (attempts (outcome w)) = n /\
      Forall failed (attempts (outcome w))
  | Copied k => may_copy answer f = true /\ answer = Some (source_sha k, source_size k) /\
      delivered n (attempts (outcome w)) (verdict (outcome w))
  end.

Lemma numbered_snoc l a : numbered l -> attempt_no a = Z.of_nat (S (length l)) -> numbered (l ++ [a]).
Proof.
  unfold numbered. intros Hl Ha. rewrite map_app, length_app, Nat.add_1_r, seq_S, map_app, Hl. cbn.
  by rewrite Ha.
Qed.

Lemma progress_round n after answer f w w' :
  progress n answer f w -> round_spec (Z.of_nat (S n)) after w w' -> progress (S n) answer f w'.
Proof.
  unfold progress, round_spec. intros (Hi & Hn & Hs & H). destruct (at_ w) as [|k|k|k] eqn:E.
  - intros ->. by rewrite E.
  - destruct H.
  - intros (a & Ha & Hi' & Hatt & Hs' & Hres). destruct H as (Hmay & Hans & Hv & Hlen & Hf).
    rewrite Hi', Hatt, Hs'. split; [done|]. split; [apply numbered_snoc; [done|by rewrite Ha, Hlen]|].
    split; [done|]. destruct (String.eqb_spec (a_result a) "match") as [Em|Em].
    + destruct Hres as (-> & Hv' & _). split; [done|]. split; [done|].
      exists (attempts (outcome w)), a. split_and!; try done; [rewrite length_app; cbn; lia|].
      rewrite Hv'. destruct (attempts (outcome w)) as [|b l]; cbn in Hlen; [subst n; done|].
      destruct (Z.eqb_spec (Z.of_nat (S n)) 1); [lia|done].
    + destruct Hres as (-> & Hv'). rewrite Hv', length_app, Hlen. cbn. split_and!; try done; [lia|].
      apply list.Forall_app. split; [done|]. by constructor.
  - intros ->. rewrite E. cbv iota beta. split_and!; try done; try apply H.
    destruct H as (? & ? & fs & a & ? & ? & ? & ? & ?). exists fs, a. split_and!; try done. lia.
Qed.

(** After the rounds: every one was held, or nothing is pending. *)
Lemma rounds_progress items sources m n works r works' r' :
  rounds integrity t (map Z.of_nat (seq (S n) m)) works r = (Ok works', r') ->
  Forall2 (fun f w => progress n (assoc (source_path f) sources) f w) items works ->
  exists n', Forall2 (fun f w => progress n' (assoc (source_path f) sources) f w) items works' /\
    (n' = (n + m)%nat \/ n' <= n + m /\ existsb is_pending works' = false)%nat.
Proof.
  revert n works r. induction m as [|m IH]; intros n works r H Hw; cbn [seq map rounds] in H.
  - apply ret_runs in H as [<- _]. exists n. split; [done|]. left. lia.
  - destruct (existsb is_pending works) eqn:Ep.
    + apply bind_runs in H as (works1 & r1 & [after Hr]%round_values & H).
      apply bind_runs in H as (u & r2 & _ & H).
      destruct (IH (S n) works1 r2 H) as (n' & Hn' & Hend).
      { eapply list.Forall2_trans; [|exact Hw|exact Hr]. intros f w w' Hp Hs. eapply progress_round; [exact Hp|exact Hs]. }
      exists n'. split; [done|]. destruct Hend as [Hend|[Hle Hnone]].
      * left. lia.
      * right. split; [lia|exact Hnone].
    + apply ret_runs in H as [<- _]. exists n. split; [done|]. right. split; [lia|done].
Qed.

(** ** The answer of the gate, file by file *)
Definition judged (answer : option Answer) (f : FileToCopy) (o : FileOutcome) : Prop :=
  numbered (attempts o) /\
  if may_copy answer f then
    checksum_source_before_copy o = fst <$> answer /\
    (verdict o = "match" /\ attempts o = [] \/
     delivered (Z.to_nat (total integrity)) (attempts o) (verdict o) \/
     verdict o = "copy_failed_after_retries" /\ Z.of_nat (length (attempts o)) = total integrity /\
       Forall failed (attempts o))
  else verdict o = refusal answer f /\ attempts o = [].

(** A file before the first round. *)
Lemma progress_start sources before f w w' : source_spec sources f w -> target_spec before w w' ->
  progress 0 (assoc (source_path f) sources) f w'.
Proof.
  intros (Hi & Ha & Hm) Ht. cbv zeta in Hm. unfold progress, target_spec, refusal in *.
  destruct (may_copy (assoc (source_path f) sources) f) eqn:Em.
  - destruct Hm as (k & Hk & Hans & Hv & Hs). rewrite Hk in Ht. destruct Ht as (Hi' & Ha' & Hs' & Ht).
    rewrite Hi', Ha', Hs', Hs, Ha, Hans, Hi. split; [done|]. split; [done|]. split; [done|].
    destruct (same_as _ _); destruct Ht as [-> Hv']; by rewrite ?Hv', ?Ha, ?Hv.
  - destruct Hm as [Hc Hv]. rewrite Hc in Ht. subst w'. by rewrite Hc, Ha, Hv.
Qed.

(** What the last loops make of a file. *)
Definition given_up (w w' : work) : Prop :=
  item w' = item w /\ at_ w' = at_ w /\ attempts (outcome w') = attempts (outcome w) /\
  checksum_source_before_copy (outcome w') = checksum_source_before_copy (outcome w) /\
  verdict (outcome w') = if is_pending w then "copy_failed_after_retries" else verdict (outcome w).

Lemma give_up_spec w (r : run W) w' r' : give_up_on integrity w r = (Ok w', r') -> given_up w w'.
Proof.
  unfold give_up_on, given_up, is_pending. destruct (at_ w) as [|k|k|k] eqn:E; try (by intros [<- <-]%ret_runs).
  destruct (list.last _); [|done]. by intros [<- <-]%ret_runs.
Qed.

Lemma close_row_same w (r : run W) w' r' : close_row w r = (Ok w', r') -> w' = w.
Proof.
  unfold close_row. destruct (at_ w); try (by intros [<- <-]%ret_runs);
    (destruct (list.last _); [|done]); by intros (u & r1 & _ & [<- <-]%ret_runs)%bind_runs.
Qed.

(** The stages of a run that answers. *)
Lemma gate_stages items r os r' : gate integrity t items r = (Ok os, r') ->
  exists sources r1 works1 works2 r2 works3 r3 works4 r4,
    act (hash_sources t (map source_path items)) r = (Ok sources, r1) /\
    Forall2 (fun f w => progress 0 (assoc (source_path f) sources) f w) items works2 /\
    (exists r1', each (look_at_source integrity sources) items r1 = (Ok works1, r1') /\
      exists before r2', hash_some t (map (fun w => target_path (item w)) (List.filter is_candidate works1)) r1'
        = (Ok before, r2') /\ each (look_at_target before) works1 r2' = (Ok works2, r2)) /\
    rounds integrity t (attempt_numbers integrity) works2 r2 = (Ok works3, r3) /\
    each (give_up_on integrity) works3 r3 = (Ok works4, r4) /\
    each close_row works4 r4 = (Ok works4, r') /\ os = map outcome works4.
Proof.
  unfold gate. intros (sources & r1 & H1 & H)%bind_runs.
  apply bind_runs in H as (works1 & r1' & H2 & H). apply bind_runs in H as (before & r2' & H3 & H).
  apply bind_runs in H as (works2 & r2 & H4 & H). apply bind_runs in H as (works3 & r3 & H5 & H).
  apply bind_runs in H as (works4 & r4 & H6 & H). apply bind_runs in H as (works5 & r5 & H7 & H).
  apply ret_runs in H as [<- <-].
  assert (works5 = works4) as ->.
  { apply (each_values _ (fun w w' => w' = w)) in H7; [|apply close_row_same].
    clear -H7. induction H7 as [|w w' l l' Hw _ IH]; [done|]. by rewrite Hw, IH. }
  exists sources, r1, works1, works2, r2, works3, r3, works4, r4. split_and!; try done; [|by eauto 10].
  apply (each_values _ _ _ _ _ _ (look_at_source_spec sources)) in H2.
  apply (each_values _ _ _ _ _ _ (look_at_target_spec before)) in H4.
  eapply list.Forall2_trans; [|exact H2|exact H4]. intros f w w' Hw Ht. eapply progress_start; [exact Hw|exact Ht].
Qed.

Lemma progress_judged n answer f w w' : 0 <= copy_max_retry integrity -> progress n answer f w ->
  (n = Z.to_nat (total integrity) \/ (n <= Z.to_nat (total integrity))%nat /\ is_pending w = false) ->
  given_up w w' -> judged answer f (outcome w').
Proof.
  intros Hr (Hi & Hn & Hs & H) Hend (_ & _ & Ha' & Hs' & Hv').
  unfold judged. rewrite Ha', Hv', Hs'. split; [done|].
  unfold is_pending in *. destruct (at_ w) as [|k|k|k].
  - destruct H as [Ha Hv]. rewrite Hv, Ha. destruct (may_copy answer f); [|done]. split; [by apply Hs|by left].
  - destruct H.
  - destruct H as (Hm & Hans & Hv & Hlen & Hf). rewrite Hm. split; [by apply Hs|]. right. right.
    destruct Hend as [->|[_ ?]]; [|done]. rewrite Hlen. unfold total in *. split_and!; [done|lia|done].
  - destruct H as (Hm & Hans & fs & a & ? & ? & ? & ? & ?). rewrite Hm. split; [by apply Hs|]. right. left.
    exists fs, a. split_and!; try done. destruct Hend as [->|[? _]]; lia.
Qed.

Lemma gate_judges items r os r' : 0 <= copy_max_retry integrity ->
  gate integrity t items r = (Ok os, r') ->
  exists sources r1, act (hash_sources t (map source_path items)) r = (Ok sources, r1) /\
    Forall2 (fun f o => judged (assoc (source_path f) sources) f o) items os.
Proof.
  intros Hr (sources & r1 & works1 & works2 & r2 & works3 & r3 & works4 & r4 & H1 & Hw & _ & H3 & H4 & _ & ->)%gate_stages.
  exists sources, r1. split; [done|]. unfold attempt_numbers in H3.
  destruct (rounds_progress items sources _ _ _ _ _ _ H3 Hw) as (n & Hn & Hend).
  apply (each_values _ _ _ _ _ _ give_up_spec) in H4.
  apply Forall2_fmap_r. unfold compose.
  assert (Forall (fun w => n = Z.to_nat (total integrity) \/
            (n <= Z.to_nat (total integrity))%nat /\ is_pending w = false) works3) as Hall.
  { apply list.Forall_forall. intros w Hin. destruct Hend as [->|[Hle Hnone]]; [left; lia|right].
    split; [lia|]. apply not_true_iff_false. intros Hp. apply not_true_iff_false in Hnone. apply Hnone.
    apply existsb_exists. exists w. split; [by apply list_elem_of_In|done]. }
  clear -Hr Hn H4 Hall. revert works4 H4 Hall.
  induction Hn as [|f w fs ws Hp Hps IH]; intros works4 H4 Hall; inversion H4; subst; constructor.
  - inversion Hall; subst. by eapply progress_judged.
  - apply IH; [done|]. by inversion Hall.
Qed.

(** ** What the target holds at the end *)
(** A transport that answers truly: [source] and [target] are what is known of the two sides, a
    hash of the target says what is there once it was taken and changes no path it was not asked
    about (a transport may copy a round's files there), waiting changes nothing, a copy changes
    its own path only. *)
Record honest (source target : W -> string -> option Answer) : Prop := {
  tells_sources : forall ps w d w', hash_sources t ps w = (Ok d, w') ->
    forall p a, assoc p d = Some a -> source w p = Some a;
  tells_targets : forall ps w d w', hash_targets t ps w = (Ok d, w') ->
    forall p a, assoc p d = Some a -> target w' p = Some a;
  reads_sources : forall ps w p a, target w p = Some a -> target (hash_sources t ps w).2 p = Some a;
  reads_targets : forall ps w p a, p ∉ ps -> target w p = Some a -> target (hash_targets t ps w).2 p = Some a;
  copies_one : forall f w p a, p <> target_path f -> target w p = Some a -> target (copy t f w).2 p = Some a;
  waits : forall s w p a, target w p = Some a -> target (sleep t s w) p = Some a }.

Lemma moves_bind_ok {A B} (R : run W -> run W -> Prop) `{!Transitive R} (m : M W A) (f : A -> M W B) r :
  R r (m r).2 -> (forall a r', m r = (Ok a, r') -> R r' (f a r').2) -> R r ((m ≫= f) r).2.
Proof.
  intros Hm Hf. unfold mbind, M_bind. destruct (m r) as [[a|e] r1] eqn:E; [|done].
  etrans; [exact Hm|]. by apply Hf.
Qed.

(** What a run does to the state, from what the transport does to it. *)
Section steps.
Context (R : run W -> run W -> Prop) `{!Reflexive R, !Transitive R} (C : FileToCopy -> Prop).
Hypothesis R_same : forall r r', world r' = world r -> R r r'.
Hypothesis R_hash_sources : forall ps, moves R (act (hash_sources t ps)).
(** Only files of [C] are copied, and only their paths are hashed. *)
Definition of_files (ps : list string) : Prop := Forall (fun p => exists f, C f /\ p = target_path f) ps.
Hypothesis R_hash_targets : forall ps, of_files ps -> moves R (act (hash_targets t ps)).
Hypothesis R_pause : forall s, moves R (pause t s).
Hypothesis R_copy : forall f, C f -> moves R (try_copy t f).

Lemma moves_write x : moves R (write x).
Proof using R_same. intros r. by apply R_same. Qed.
Lemma moves_add f v side b : moves R (add_run_file (W := W) f v side b).
Proof using R_same. intros r. apply R_same. unfold add_run_file. by destruct (recording r). Qed.
Lemma moves_hash_some ps : of_files ps -> moves R (hash_some t ps).
Proof using All. destruct ps; [by intros _; apply moves_ret|]. apply R_hash_targets. Qed.

Ltac steps := repeat first
  [ apply moves_ret; apply _ | apply moves_raise; apply _ | apply moves_write | apply moves_add
  | apply R_pause | apply moves_bind; [apply _| |intros ?] ].

Lemma moves_look_at_source sources f : moves R (look_at_source integrity sources f).
Proof using All.
  unfold look_at_source. destruct (assoc _ _) as [[sha size]|]; [|steps].
  cbv zeta. destruct (checksum_after_backup f); [destruct (_ && _)|destruct (String.eqb _ _)]; steps.
Qed.
Lemma moves_look_at_target before w : moves R (look_at_target before w).
Proof using All.
  unfold look_at_target. destruct (at_ w); steps. cbv zeta. destruct (same_bytes _ _ _); steps.
Qed.
Lemma moves_check_one no after q : moves R (check_one no after q).
Proof using All.
  destruct q as [w tried]. unfold check_one.
  destruct (at_ w), tried as [[a copied]|]; cbv zeta; steps.
Qed.
Lemma moves_give_up w : moves R (give_up_on integrity w).
Proof using All. unfold give_up_on. destruct (at_ w); steps. destruct (list.last _); steps. Qed.
Lemma moves_close_row w : moves R (close_row w).
Proof using All. unfold close_row. destruct (at_ w); steps; destruct (list.last _); steps. Qed.
Lemma moves_copy_one no w : (is_pending w = true -> C (item w)) -> moves R (copy_one t no w).
Proof using All.
  intros H. unfold copy_one. destruct (is_pending w); [|steps].
  apply moves_bind; [apply _|apply R_copy; auto|intros ?; steps].
Qed.
Lemma moves_round no works : (forall w, w ∈ works -> is_pending w = true -> C (item w)) ->
  moves R (round t no works).
Proof using All.
  intros H r. unfold round. apply moves_bind_ok; [apply _| |intros tried r1 Htried; cbv zeta].
  - apply moves_each; [apply _..|]. intros w Hw. by apply moves_copy_one, H.
  - apply moves_bind; [apply _|apply moves_hash_some|intros after].
    + apply (each_values _ _ _ _ _ _ (copy_one_spec no)) in Htried. clear r r1. revert H.
      induction Htried as [|w q ws qs [Hq Ht] _ IH]; intros H; cbn; [by constructor|].
      assert (of_files (omap (fun p : work * option (Attempt * bool) =>
        match p.2 with Some (_, true) => Some (target_path (item p.1)) | _ => None end) qs)) as Hqs.
      { apply IH. intros w' Hw'. apply H. by right. }
      destruct (q.2) as [[a []]|] eqn:Eq; try exact Hqs. constructor; [|exact Hqs]. exists (item w). rewrite Hq.
      split; [|done]. apply H; [by left|]. unfold is_pending. by destruct (at_ w).
    + apply moves_each; [apply _..|]. intros q _. apply moves_check_one.
Qed.
End steps.

Section Honest.
Context (source target : W -> string -> option Answer) (Hh : honest source target).

(** Nothing happened to [p] on the target. *)
Definition kept (p : string) (r r' : run W) : Prop := forall a, target (world r) p = Some a -> target (world r') p = Some a.
#[local] Instance kept_refl p : Reflexive (kept p).
Proof. by intros ? ?. Qed.
#[local] Instance kept_trans p : Transitive (kept p).
Proof. intros r1 r2 r3 H1 H2 a Ha. by apply H2, H1. Qed.

Lemma kept_same p r r' : world r' = world r -> kept p r r'.
Proof. intros Hw a. by rewrite Hw. Qed.
Lemma kept_act p (g : W -> result string Answers * W) :
  (forall w a, target w p = Some a -> target (g w).2 p = Some a) -> moves (kept p) (act g).
Proof.
  intros H r a. unfold act. specialize (H (world r) a). destruct (g (world r)) as [[b|e] w]; done.
Qed.
Lemma kept_sources p ps : moves (kept p) (act (hash_sources t ps)).
Proof using All. apply kept_act. intros w a. apply (reads_sources _ _ Hh). Qed.
Lemma kept_targets p ps : of_files (fun f => p <> target_path f) ps -> moves (kept p) (act (hash_targets t ps)).
Proof using All.
  intros Hps. apply kept_act. intros w a. apply (reads_targets _ _ Hh). intros Hp. unfold of_files in Hps.
  rewrite list.Forall_forall in Hps. by destruct (Hps p Hp) as (f & ? & ?).
Qed.
Lemma kept_try_copy p f : p <> target_path f -> moves (kept p) (try_copy t f).
Proof using All.
  intros Hp r a. unfold try_copy. pose proof (copies_one _ _ Hh f (world r) p a Hp) as H.
  by destruct (copy t f (world r)).
Qed.
Lemma kept_pause p s : moves (kept p) (pause t s).
Proof using All. intros r a. apply (waits _ _ Hh). Qed.

Ltac kept_by lem p := apply (lem (kept p) _ _ (fun f => p <> target_path f) (kept_same p)
  (kept_sources p) (kept_targets p) (kept_pause p) (kept_try_copy p)).
Lemma kept_look_at_target p before w : moves (kept p) (look_at_target before w).
Proof using All. kept_by moves_look_at_target p. Qed.
Lemma kept_check_one p no after q : moves (kept p) (check_one no after q).
Proof using All. kept_by moves_check_one p. Qed.
Lemma kept_give_up p w : moves (kept p) (give_up_on integrity w).
Proof using All. kept_by moves_give_up p. Qed.
Lemma kept_close_row p w : moves (kept p) (close_row w).
Proof using All. kept_by moves_close_row p. Qed.
(** A round leaves the paths of the files that are not pending alone. *)
Lemma kept_round p no works :
  (forall w, w ∈ works -> is_pending w = true -> p <> target_path (item w)) ->
  moves (kept p) (round t no works).
Proof using All. kept_by moves_round p. Qed.

Lemma moves_to {A} (R : run W -> run W -> Prop) (m : M W A) r x r' : moves R m -> m r = (x, r') -> R r r'.
Proof. intros H E. specialize (H r). by rewrite E in H. Qed.

Lemma told p ps (r r' : run W) d a : hash_some t ps r = (Ok d, r') -> assoc p d = Some a ->
  target (world r') p = Some a.
Proof using All.
  unfold hash_some. destruct ps as [|p0 ps]; [by intros [<- _]%ret_runs|].
  unfold act. destruct (hash_targets t (p0 :: ps) (world r)) as [[d'|e] w] eqn:E; [|done].
  intros [= -> <-] Ha. by eapply (tells_targets _ _ Hh).
Qed.

(** What a file that is proven holds on the target. *)
Definition holds (answer : option Answer) (r : run W) (w : work) : Prop :=
  (at_ w = Closed -> verdict (outcome w) = "match" -> exists k, answer = Some (source_sha k, source_size k) /\
     same_as k (target (world r) (target_path (item w))) = true) /\
  (forall k, at_ w = Copied k -> same_as k (target (world r) (target_path (item w))) = true).

Lemma same_as_some k answer : same_as k answer = true -> exists a, answer = Some a.
Proof. destruct answer; [by eexists|done]. Qed.
Lemma holds_kept answer w (r r' : run W) : (is_pending w = false -> kept (target_path (item w)) r r') ->
  holds answer r w -> holds answer r' w.
Proof.
  intros Hk [H1 H2].
  assert (Hs : forall k, is_pending w = false -> same_as k (target (world r) (target_path (item w))) = true ->
    same_as k (target (world r') (target_path (item w))) = true).
  { intros k Hp Hs. destruct (same_as_some _ _ Hs) as [a Ha]. rewrite Ha in Hs. by rewrite (Hk Hp a Ha). }
  split.
  - intros Hc Hv. destruct (H1 Hc Hv) as (k & Ha & Hsame). exists k. split; [done|].
    apply Hs; [unfold is_pending; by rewrite Hc|done].
  - intros k Hc. apply Hs; [unfold is_pending; by rewrite Hc|by apply H2].
Qed.

(** [round_values], with what the target holds. *)
Lemma round_holds no works r works' r' : round t no works r = (Ok works', r') ->
  exists after, Forall2 (round_spec no after) works works' /\
    forall p a, assoc p after = Some a -> target (world r') p = Some a.
Proof using All.
  intros H. unfold round in H. apply bind_runs in H as (tried & r1 & H1 & H). cbv zeta in H.
  apply bind_runs in H as (after & r2 & Ha & H2). exists after. split.
  - apply (each_values _ _ _ _ _ _ (copy_one_spec no)) in H1.
    apply (each_values _ (fun p w' => forall w, tried_spec no w p -> round_spec no after w w')) in H2.
    + eapply list.Forall2_trans; [|exact H1|exact H2]. intros w p w' Hp Hw. apply Hw, Hp.
    + intros p r3 w' r4 Hc w Hp. by eapply check_one_spec.
  - intros p a Hp. pose proof (told _ _ _ _ _ _ Ha Hp) as Ht.
    assert (kept p r2 r') as Hk2.
    { eapply moves_to; [|exact H2]. apply moves_each; [apply _..|]. intros q _. apply kept_check_one. }
    by apply Hk2.
Qed.

Definition paths_of (works : list work) : list string := map (fun w => target_path (item w)) works.

Lemma distinct_kept works w (r r' : run W) no works' : NoDup (paths_of works) -> w ∈ works ->
  round t no works r = (Ok works', r') -> is_pending w = false -> kept (target_path (item w)) r r'.
Proof using All.
  intros Hnd Hw Hr Hp. eapply moves_to; [|exact Hr]. apply kept_round. intros w2 Hw2 Hp2 E.
  assert (w = w2) as -> by (by apply (NoDup_map_inj (fun w => target_path (item w)) works)).
  congruence.
Qed.

Lemma holds_round no works r works' r' (ans : FileToCopy -> option Answer) items :
  NoDup (paths_of works) -> round t no works r = (Ok works', r') ->
  Forall2 (fun f w => item w = f /\ holds (ans f) r w /\
     forall k, at_ w = Pending k -> ans f = Some (source_sha k, source_size k)) items works ->
  Forall2 (fun f w => item w = f /\ holds (ans f) r' w /\
     forall k, at_ w = Pending k -> ans f = Some (source_sha k, source_size k)) items works'.
Proof using All.
  intros Hnd Hr Hw. destruct (round_holds _ _ _ _ _ Hr) as (after & Hspec & Hafter).
  assert (forall w, w ∈ works -> is_pending w = false -> kept (target_path (item w)) r r') as Hkept.
  { intros w Hin. by eapply distinct_kept. }
  clear Hnd Hr. revert works' Hspec Hkept.
  induction Hw as [|f w fs ws (Hi & Hhold & Hpend) _ IH]; intros works' Hspec Hkept; inversion Hspec; subst;
    constructor; [|apply IH; [done|]; intros w' Hw'; apply Hkept; by right].
  rename y into w'. rename H1 into Hs. unfold round_spec in Hs.
  assert (is_pending w = false -> kept (target_path (item w)) r r') as Hk by (apply Hkept; by left).
  destruct (at_ w) as [|k|k|k] eqn:E.
  1, 2, 4: subst w'; split_and!; [done| |by rewrite E]; eapply holds_kept; [|exact Hhold]; done.
  destruct Hs as (a & _ & Hi' & _ & _ & Hres). rewrite Hi'. split; [done|].
  destruct (String.eqb (a_result a) "match").
  - destruct Hres as (Hc & _ & Hsame). split; [|by rewrite Hc]. split; [by rewrite Hc|].
    intros k' Hk'. rewrite Hc in Hk'. injection Hk' as <-. rewrite Hi'.
    destruct (same_as_some _ _ Hsame) as [b Hb]. by rewrite (Hafter _ _ Hb), <- Hb.
  - destruct Hres as (Hc & _). split; [by split; rewrite Hc|]. intros k' Hk'. rewrite Hc in Hk'.
    injection Hk' as <-. by apply Hpend.
Qed.

Definition sound (ans : FileToCopy -> option Answer) (r : run W) (f : FileToCopy) (w : work) : Prop :=
  item w = f /\ holds (ans f) r w /\
  forall k, at_ w = Pending k -> ans f = Some (source_sha k, source_size k).

Lemma paths_of_items ans r items works : Forall2 (sound ans r) items works ->
  paths_of works = map target_path items.
Proof. induction 1 as [|f w fs ws (Hi & _) _ IH]; [done|]. cbn. by rewrite Hi, <- IH. Qed.

Lemma sound_kept ans items works (r r' : run W) : (forall p, kept p r r') ->
  Forall2 (sound ans r) items works -> Forall2 (sound ans r') items works.
Proof.
  intros Hk H. eapply Forall2_impl; [|exact H]. intros f w (Hi & Hhold & Hp). split_and!; try done.
  eapply holds_kept; [|exact Hhold]. intros _. apply Hk.
Qed.

Lemma rounds_sound ans items nos works r works' r' : NoDup (map target_path items) ->
  rounds integrity t nos works r = (Ok works', r') ->
  Forall2 (sound ans r) items works -> Forall2 (sound ans r') items works'.
Proof using All.
  intros Hnd. revert works r. induction nos as [|no nos IH]; intros works r H Hs; cbn [rounds] in H.
  - by apply ret_runs in H as [<- <-].
  - destruct (existsb is_pending works); [|by apply ret_runs in H as [<- <-]].
    apply bind_runs in H as (works1 & r1 & Hr & H). apply bind_runs in H as (u & r2 & Hp & H).
    apply (IH works1 r2 H). apply (sound_kept ans items works1 r1).
    + intros p. eapply moves_to; [|exact Hp].
      destruct (_ && _); [apply kept_pause|apply moves_ret; apply _].
    + eapply holds_round; [|exact Hr|exact Hs]. by rewrite (paths_of_items _ _ _ _ Hs).
Qed.

(** The files before the first round. *)
Lemma before_sound sources items (r1 : run W) works1 r1' before r2' works2 r2 :
  each (look_at_source integrity sources) items r1 = (Ok works1, r1') ->
  hash_some t (map (fun w => target_path (item w)) (List.filter is_candidate works1)) r1' = (Ok before, r2') ->
  each (look_at_target before) works1 r2' = (Ok works2, r2) ->
  Forall2 (sound (fun f => assoc (source_path f) sources) r2) items works2.
Proof using All.
  intros H1 Hb H2.
  assert (forall p a, assoc p before = Some a -> target (world r2) p = Some a) as Hbefore.
  { intros p a Hp. pose proof (told _ _ _ _ _ _ Hb Hp) as Hto.
    assert (kept p r2' r2) as Hk2.
    { eapply moves_to; [|exact H2]. apply moves_each; [apply _..|]. intros w _. apply kept_look_at_target. }
    by apply Hk2. }
  apply (each_values _ _ _ _ _ _ (look_at_source_spec sources)) in H1.
  apply (each_values _ _ _ _ _ _ (look_at_target_spec before)) in H2.
  eapply list.Forall2_trans; [|exact H1|exact H2]. intros f w w' (Hi & _ & Hm) Ht. cbv zeta in Hm.
  unfold target_spec in Ht. unfold sound, holds. destruct (may_copy (assoc (source_path f) sources) f).
  - destruct Hm as (k & Hk & Hans & Hv & _). rewrite Hk in Ht. destruct Ht as (Hi' & _ & _ & Ht).
    rewrite Hi', Hi. split; [done|]. destruct (same_as k _) eqn:Es; destruct Ht as [-> Hv'].
    + split; [|done]. split; [|done]. intros _ _. exists k. split; [done|].
      rewrite Hi in Es. destruct (same_as_some _ _ Es) as [b Hb']. by rewrite (Hbefore _ _ Hb'), <- Hb'.
    + split; [done|]. by intros k' [= <-].
  - destruct Hm as [Hc Hv]. rewrite Hc in Ht. subst w'. rewrite Hc. split_and!; try done.
    intros _ Hm. rewrite Hv in Hm. unfold refusal in Hm.
    by destruct (assoc (source_path f) sources), (checksum_after_backup f).
Qed.

Definition proven_in (r : run W) (answer : option Answer) (f : FileToCopy) : Prop :=
  exists sha size, answer = Some (sha, size) /\
    same_bytes (target (world r) (target_path f)) (Some sha) size = true /\
    may_copy (Some (sha, size)) f = true.

Lemma proven_file n (r : run W) ans f w w' : progress n (ans f) f w -> sound ans r f w -> given_up w w' ->
  proven (outcome w') = true -> proven_in r (ans f) f.
Proof.
  intros (_ & _ & _ & Hp) (Hif & [Hc1 Hc2] & _) (_ & _ & _ & _ & Hv) Hpr.
  unfold proven in Hpr. rewrite Hv in Hpr. unfold is_pending in Hpr.
  destruct (at_ w) as [|k|k|k].
  - destruct Hp as [_ Hvw]. rewrite Hvw in Hpr. destruct (may_copy (ans f) f) eqn:Em.
    + destruct (Hc1 eq_refl Hvw) as (k & Hk & Hsame). exists (source_sha k), (source_size k).
      rewrite Hif in Hsame. by rewrite Hk in *.
    + unfold refusal in Hpr. by destruct (ans f), (checksum_after_backup f); vm_compute in Hpr.
  - destruct Hp.
  - by vm_compute in Hpr.
  - destruct Hp as (Hm & Hk & _). exists (source_sha k), (source_size k).
    specialize (Hc2 k eq_refl). rewrite Hif in Hc2. by rewrite Hk in *.
Qed.

Lemma gate_proven items r os r' : NoDup (map target_path items) ->
  gate integrity t items r = (Ok os, r') ->
  Forall2 (fun f o => proven o = true -> proven_in r' (source (world r) (source_path f)) f) items os.
Proof using All.
  intros Hnd Hg.
  apply gate_stages in Hg as (sources & r1 & works1 & works2 & r2 & works3 & r3 & works4 & r4 & Hs & Hprog &
    (r1' & Hl & before & r2' & Hb & Ht) & Hr & Hgive & Hclose & ->).
  pose proof (before_sound _ _ _ _ _ _ _ _ _ Hl Hb Ht) as Hsound.
  apply (rounds_sound _ _ _ _ _ _ _ Hnd Hr) in Hsound.
  apply (sound_kept _ _ _ _ r') in Hsound.
  2: { intros p. trans r4.
       - eapply moves_to; [|exact Hgive]. apply moves_each; [apply _..|]. intros w _. apply kept_give_up.
       - eapply moves_to; [|exact Hclose]. apply moves_each; [apply _..|]. intros w _. apply kept_close_row. }
  assert (forall p a, assoc p sources = Some a -> source (world r) p = Some a) as Htell.
  { unfold act in Hs. destruct (hash_sources t (map source_path items) (world r)) as [[d|e] w] eqn:E; [|done].
    injection Hs as <- _. by eapply (tells_sources _ _ Hh). }
  apply (each_values _ _ _ _ _ _ give_up_spec) in Hgive.
  destruct (rounds_progress items sources _ _ _ _ _ _ Hr Hprog) as (n & Hn & _).
  apply Forall2_fmap_r. unfold compose.
  pose proof (Forall2_conj _ _ _ _ Hn Hsound) as Hboth.
  eapply list.Forall2_trans; [|exact Hboth|exact Hgive]. intros f w w' [Hp Hsd] Hw Hpr.
  destruct (proven_file n r' (fun f => assoc (source_path f) sources) f w w') as (sha & size & Ha & Hrest);
    [done..|]. exists sha, size. split; [by apply Htell|done].
Qed.
End Honest.

(** ** Which files are copied at all *)
Section frame.
Context (R : run W -> run W -> Prop) `{!Reflexive R, !Transitive R} (items : list FileToCopy) (sources : Answers).
Let C (f : FileToCopy) : Prop := f ∈ items /\ may_copy (assoc (source_path f) sources) f = true.
Hypothesis R_same : forall r r', world r' = world r -> R r r'.
Hypothesis R_hash_sources : forall ps, moves R (act (hash_sources t ps)).
Hypothesis R_hash_targets : forall ps, moves R (act (hash_targets t ps)).
Hypothesis R_pause : forall s, moves R (pause t s).
Hypothesis R_copy : forall f, C f -> moves R (try_copy t f).

Lemma frame_hash_some ps : moves R (hash_some t ps).
Proof using All. destruct ps; [by apply moves_ret|apply R_hash_targets]. Qed.
Lemma pending_allowed n works w : Forall2 (fun f w => progress n (assoc (source_path f) sources) f w) items works ->
  w ∈ works -> is_pending w = true -> C (item w).
Proof.
  intros Hw Hin Hp. apply list_elem_of_lookup in Hin as [i Hi].
  destruct (Forall2_lookup_r _ _ _ _ _ Hw Hi) as (f & Hf & Hpr).
  destruct Hpr as (Hif & _ & _ & Hst). unfold is_pending in Hp. destruct (at_ w); try done.
  rewrite Hif. split; [by eapply list_elem_of_lookup_2|apply Hst].
Qed.

Lemma moves_rounds m n works r :
  Forall2 (fun f w => progress n (assoc (source_path f) sources) f w) items works ->
  R r (rounds integrity t (map Z.of_nat (seq (S n) m)) works r).2.
Proof using All.
  revert n works r. induction m as [|m IH]; intros n works r Hw; cbn [seq map rounds]; [done|].
  destruct (existsb is_pending works); [|done].
  apply moves_bind_ok; [apply _| |intros works1 r1 [after Hr]%round_values].
  - apply (moves_round R C); try done. intros w. by eapply pending_allowed.
  - apply moves_bind_ok; [apply _| |intros u r2 _].
    + destruct (_ && _); [apply R_pause|done].
    + apply IH. eapply list.Forall2_trans; [|exact Hw|exact Hr].
      intros f w w' Hp Hs. eapply progress_round; [exact Hp|exact Hs].
Qed.

Lemma moves_after_sources r r1 : act (hash_sources t (map source_path items)) r = (Ok sources, r1) ->
  R r1 (gate integrity t items r).2.
Proof using All.
  intros Hs. unfold gate at 1. unfold mbind at 1, M_bind at 1. rewrite Hs.
  apply moves_bind_ok; [apply _| |intros works1 r1' H1].
  { apply moves_each; [apply _..|]. intros f _. by apply (moves_look_at_source R C). }
  apply moves_bind_ok; [apply _| |intros before r2 _]. { by apply frame_hash_some. }
  apply moves_bind_ok; [apply _| |intros works2 r3 H2].
  { apply moves_each; [apply _..|]. intros w _. by apply (moves_look_at_target R C). }
  apply moves_bind_ok; [apply _| |intros works3 r4 _].
  { apply moves_rounds.
    apply (each_values _ _ _ _ _ _ (look_at_source_spec sources)) in H1.
    apply (each_values _ _ _ _ _ _ (look_at_target_spec before)) in H2.
    eapply list.Forall2_trans; [|exact H1|exact H2]. intros f w w' Hw Ht. eapply progress_start; [exact Hw|exact Ht]. }
  apply moves_bind; [apply _| |intros works4].
  { apply moves_each; [apply _..|]. intros w _. by apply (moves_give_up R C). }
  apply moves_bind; [apply _| |intros works5; by apply moves_ret].
  apply moves_each; [apply _..|]. intros w _. by apply (moves_close_row R C).
Qed.
End frame.

(** ** The only way the gate raises: a hash that could not be taken *)
Definition by_hash {A} (x : result gate_error A * run W) : Prop :=
  match x.1 with Err e => exists text, e = HashFailed text | Ok _ => True end.

Lemma by_hash_bind {A B} (m : M W A) (f : A -> M W B) r :
  by_hash (m r) -> (forall a r', m r = (Ok a, r') -> by_hash (f a r')) -> by_hash ((m ≫= f) r).
Proof.
  intros Hm Hf. unfold mbind, M_bind. destruct (m r) as [[a|e] r1] eqn:E; [|done]. by apply Hf.
Qed.
Lemma by_hash_each {A B} (f : A -> M W B) l r :
  (forall x r, x ∈ l -> by_hash (f x r)) -> by_hash (each f l r).
Proof.
  revert r. induction l as [|x l IH]; intros r Hf; cbn [each]; [done|].
  apply by_hash_bind; [apply Hf; by left|]. intros y r1 _. apply by_hash_bind; [|done].
  apply IH. intros z r2 Hz. apply Hf. by right.
Qed.
Lemma by_hash_act (g : W -> result string Answers * W) r : by_hash (act g r).
Proof. unfold act, by_hash. destruct (g (world r)) as [[a|e] w]; cbn; eauto. Qed.
Lemma by_hash_some ps r : by_hash (hash_some t ps r).
Proof. destruct ps; [done|apply by_hash_act]. Qed.
Lemma by_hash_add f v side b r : by_hash (add_run_file (W := W) f v side b r).
Proof. unfold add_run_file, by_hash. by destruct (recording r). Qed.

Ltac hash_steps := repeat first
  [ exact I | apply by_hash_add | apply by_hash_some | apply by_hash_bind; [|intros ? ? _] ].

Lemma by_hash_source sources f r : by_hash (look_at_source (W := W) integrity sources f r).
Proof.
  unfold look_at_source. destruct (assoc _ _) as [[sha size]|]; [|hash_steps].
  cbv zeta. destruct (checksum_after_backup f); [destruct (_ && _)|destruct (String.eqb _ _)]; hash_steps.
Qed.
Lemma by_hash_target before w r : by_hash (look_at_target (W := W) before w r).
Proof.
  unfold look_at_target. destruct (at_ w); hash_steps. cbv zeta. destruct (same_bytes _ _ _); hash_steps.
Qed.
Lemma by_hash_round no works r : by_hash (round t no works r).
Proof.
  unfold round. apply by_hash_bind.
  - apply by_hash_each. intros w r1 _. unfold copy_one. destruct (is_pending w); [|done].
    apply by_hash_bind; [|done]. unfold try_copy, by_hash. by destruct (copy _ _ _).
  - intros tried r1 _. cbv zeta. apply by_hash_bind; [apply by_hash_some|]. intros after r2 _.
    apply by_hash_each. intros [w [[a c]|]] r3 _; unfold check_one; destruct (at_ w); cbv zeta; hash_steps.
Qed.
Lemma by_hash_rounds nos works r : by_hash (rounds integrity t nos works r).
Proof.
  revert works r. induction nos as [|no nos IH]; intros works r; cbn [rounds]; [done|].
  destruct (existsb is_pending works); [|done]. apply by_hash_bind; [apply by_hash_round|]. intros works1 r1 _.
  apply by_hash_bind; [by destruct (_ && _)|]. intros u r2 _. apply IH.
Qed.

(** A file that reached the rounds has an attempt when they end. *)
Definition has_attempt (w : work) : Prop :=
  match at_ w with Pending _ | Copied _ => attempts (outcome w) <> [] | _ => True end.

Lemma by_hash_give_up w r : has_attempt w -> by_hash (give_up_on (W := W) integrity w r).
Proof.
  unfold give_up_on, has_attempt. destruct (at_ w); try done. intros H.
  destruct (list.last _) eqn:E; [done|]. by apply last_None in E.
Qed.
Lemma by_hash_close w r : has_attempt w -> by_hash (close_row (W := W) w r).
Proof.
  unfold close_row, has_attempt. destruct (at_ w); try done; intros H;
    (destruct (list.last _) eqn:E; [done|by apply last_None in E]).
Qed.

Lemma progress_has_attempt n answer f w : progress n answer f w -> (n <> 0)%nat \/ is_pending w = false ->
  has_attempt w.
Proof.
  unfold progress, has_attempt, is_pending. intros (_ & _ & _ & H). destruct (at_ w); try done.
  - destruct H as (_ & _ & _ & Hlen & _). intros [Hn|?]; [|done]. by destruct (attempts (outcome w)).
  - destruct H as (_ & _ & fs & a & -> & _). intros _. by destruct fs.
Qed.

Lemma gate_by_hash items r : 0 <= copy_max_retry integrity -> by_hash (gate integrity t items r).
Proof.
  intros Hret. unfold gate. apply by_hash_bind; [apply by_hash_act|]. intros sources r1 _.
  apply by_hash_bind; [apply by_hash_each; intros; apply by_hash_source|]. intros works1 r2 H1.
  apply by_hash_bind; [apply by_hash_some|]. intros before r3 _.
  apply by_hash_bind; [apply by_hash_each; intros; apply by_hash_target|]. intros works2 r4 H2.
  apply by_hash_bind; [apply by_hash_rounds|]. intros works3 r5 H3.
  assert (Forall has_attempt works3) as Hall.
  { apply (each_values _ _ _ _ _ _ (look_at_source_spec sources)) in H1.
    apply (each_values _ _ _ _ _ _ (look_at_target_spec before)) in H2.
    destruct (rounds_progress items sources _ _ _ _ _ _ H3) as (n & Hn & Hend).
    { eapply list.Forall2_trans; [|exact H1|exact H2]. intros f w w' Hw Ht.
      eapply progress_start; [exact Hw|exact Ht]. }
    apply list.Forall_forall. intros w Hw. apply list_elem_of_lookup in Hw as [i Hi].
    destruct (Forall2_lookup_r _ _ _ _ _ Hn Hi) as (f & _ & Hp). eapply progress_has_attempt; [exact Hp|].
    destruct Hend as [->|[_ Hnone]]; [left; unfold total; lia|right].
    apply not_true_iff_false. intros Hpw. apply not_true_iff_false in Hnone. apply Hnone, existsb_exists.
    exists w. split; [by apply list_elem_of_In; eapply list_elem_of_lookup_2|done]. }
  apply by_hash_bind.
  { apply by_hash_each. intros w r6 Hw. apply by_hash_give_up. by eapply list.Forall_forall in Hall. }
  intros works4 r6 H4. apply by_hash_bind; [|done]. apply by_hash_each. intros w r7 Hw. apply by_hash_close.
  apply (each_values _ _ _ _ _ _ give_up_spec) in H4. apply list_elem_of_lookup in Hw as [i Hi].
  destruct (Forall2_lookup_r _ _ _ _ _ H4 Hi) as (w0 & Hw0 & (_ & Hat & Ha & _)).
  apply list_elem_of_lookup_2 in Hw0. eapply list.Forall_forall in Hall; [|exact Hw0].
  unfold has_attempt in *. by rewrite Hat, Ha.
Qed.
End Proofs.

(** ** The answer of a run *)
Lemma summarize_proven os : s_proven (summarize os) = forallb proven os.
Proof.
  unfold summarize. cbn. induction os as [|o os IH]; [done|]. cbn. by destruct (proven o).
Qed.

Lemma count_verdicts_spec os v :
  default 0%nat (assoc v (count_verdicts os)) = length (List.filter (fun o => String.eqb (verdict o) v) os).
Proof.
  unfold count_verdicts. induction os as [|o os IH] using rev_ind; [done|].
  rewrite fold_left_app, List.filter_app, length_app. cbn [fold_left List.filter].
  destruct (String.eqb_spec (verdict o) v) as [<-|Hne].
  - rewrite assoc_set_eq. cbn. by rewrite IH.
  - rewrite assoc_set_ne by done. cbn. rewrite IH. lia.
Qed.

(** C3: If the hashers tell the truth about the two stores, then after a run of the gate every
    file whose outcome counts as proven is present on the target with the checksum (and, where
    both are known, the size) of its source, also held to the recorded checksum where the
    settings ask; and summarize answers proven only if that holds of every file. *)
Theorem a_proven_file_is_the_source integrity {W} (t : transport W) source target items r os r' :
  honest t source target -> NoDup (map target_path items) ->
  copy_verified_batch (Some integrity) t items r = (Ok os, r') ->
  let intact f := proven_in integrity target r' (source (world r) (source_path f)) f in
  Forall2 (fun f o => proven o = true -> intact f) items os /\
  (s_proven (summarize os) = true -> Forall intact items).
Proof.
  intros Hh Hnd Hg intact. pose proof (gate_proven integrity t source target Hh items r os r' Hnd Hg) as H.
  split; [exact H|]. rewrite summarize_proven, forallb_forall. intros Hall. apply list.Forall_forall.
  intros f Hf. apply list_elem_of_lookup in Hf as [i Hi].
  destruct (Forall2_lookup_l _ _ _ _ _ H Hi) as (o & Ho & Hp). apply Hp, Hall, list_elem_of_In.
  by eapply list_elem_of_lookup_2.
Qed.

(** A run of the gate either ends with one outcome per file, each with the verdict its
    source answer calls for (missing, refused, mismatched, match, copied on the first attempt,
    recopied on a later one, failed after all of them) and no more attempts than allowed, or
    fails because a hasher did: never for another reason. *)
Lemma gate_judges_every_file integrity {W} (t : transport W) items r :
  0 <= copy_max_retry integrity ->
  match copy_verified_batch (Some integrity) t items r with
  | (Ok os, _) => exists sources r1, act (hash_sources t (map source_path items)) r = (Ok sources, r1) /\
      Forall2 (fun f o => judged integrity (assoc (source_path f) sources) f o) items os
  | (Err e, _) => exists text, e = HashFailed text
  end.
Proof.
  intros Hret. pose proof (gate_by_hash integrity t items r Hret) as He. cbn [copy_verified_batch].
  destruct (gate integrity t items r) as [[os|e] r'] eqn:E; [|exact He]. by eapply gate_judges.
Qed.

(** A run of the gate touches the target only by copying a file of the batch whose source
    is there and which the settings allow: whatever the hashers, the pauses and those copies
    keep is kept by the run. *)
Lemma only_allowed_files_are_copied integrity {W} (t : transport W) source target items r (P : W -> Prop) :
  honest t source target ->
  (forall ps w, P w -> P (hash_sources t ps w).2) -> (forall ps w, P w -> P (hash_targets t ps w).2) ->
  (forall s w, P w -> P (sleep t s w)) ->
  (forall f w, f ∈ items -> may_copy integrity (source (world r) (source_path f)) f = true ->
     P w -> P (copy t f w).2) ->
  P (world r) -> P (world (copy_verified_batch (Some integrity) t items r).2).
Proof.
  intros Hh Hs Ht Hw Hc. cbn [copy_verified_batch].
  set (R := fun r r' : run W => P (world r) -> P (world r')).
  assert (Reflexive R) by (intros ?; unfold R; tauto).
  assert (Transitive R) by (intros ?; unfold R; tauto).
  assert (forall g : W -> result string Answers * W, (forall w, P w -> P (g w).2) ->
            moves R (act g)) as Hact.
  { intros g Hg r0 Hp. unfold act. specialize (Hg (world r0) Hp). by destruct (g (world r0)) as [[a|e] w]. }
  destruct (act (hash_sources t (map source_path items)) r) as [[sources|e] r1] eqn:E.
  - intros Hp. pose proof (Hact _ (Hs (map source_path items)) r Hp) as Hp1. rewrite E in Hp1.
    revert Hp1. apply (moves_after_sources integrity t R items sources); try done.
    + intros r2 r3 H1. unfold R. by rewrite H1.
    + intros ps. apply Hact, Hs.
    + intros ps. apply Hact, Ht.
    + intros s r2 Hp2. by apply Hw.
    + intros f [Hf Hmay] r2 Hp2. unfold try_copy. specialize (Hc f (world r2) Hf).
      destruct (copy t f (world r2)) as [a w]. apply Hc; [|done].
      unfold act in E. destruct (hash_sources t (map source_path items) (world r)) as [[d|e] w0] eqn:Eh; [|done].
      injection E as -> _. destruct (assoc (source_path f) sources) as [a0|] eqn:Ea; [|done].
      by rewrite (tells_sources _ _ _ Hh _ _ _ _ Eh _ _ Ea).
  - intros Hp. pose proof (Hact _ (Hs (map source_path items)) r Hp) as Hp1. rewrite E in Hp1.
    unfold gate, mbind, M_bind. rewrite E. exact Hp1.
Qed.

(** ** Files already there *)
Lemma confirm_one_spec {W} found f (r : run W) p r' : confirm_one found f r = (Ok p, r') ->
  proven p.1 = catalogued f && same_bytes (assoc (target_path f) found) (checksum_after_backup f) (recorded_size f)
  /\ p.2 = negb (proven p.1).
Proof.
  unfold confirm_one. cbv zeta. destruct (catalogued f && _).
  - intros (id & r1 & _ & [<- <-]%ret_runs)%bind_runs. done.
  - intros [<- <-]%ret_runs. done.
Qed.

Lemma elem_of_flagged {A} (l : list (A * bool)) n :
  n ∈ omap (fun p : nat * (A * bool) => if p.2.2 then Some p.1 else None) (imap pair l) <->
  exists x, l !! n = Some (x, true).
Proof.
  rewrite list_elem_of_omap. split.
  - intros ([i [x b]] & Hin & H). apply elem_of_lookup_imap in Hin as (i' & y & E & Hy).
    cbn in H. destruct b; [|done]. injection H as <-. injection E as -> <-. by exists x.
  - intros (x & Hx). exists (n, (x, true)). split; [|done]. apply elem_of_lookup_imap. by exists n, (x, true).
Qed.

(** A file that confirm_on_target proves is on the target with the checksum its backup
    recorded (and the recorded size, except for a hashed directory), and the indexes it leaves
    to copy are exactly those of the files it did not prove. *)
Lemma confirmed_files_are_what_was_backed_up integrity {W} (t : transport W) source target items r os remaining r' :
  honest t source target ->
  confirm_on_target (Some integrity) t items r = (Ok (os, remaining), r') ->
  Forall2 (fun f o => proven o = true -> exists c, given (checksum_after_backup f) = Some c /\
      same_bytes (target (world r') (target_path f)) (Some c) (recorded_size f) = true) items os /\
  forall n, n ∈ remaining <-> exists o, os !! n = Some o /\ proven o = false.
Proof.
  intros Hh. unfold confirm_on_target. intros (found & r1 & Hf & H)%bind_runs.
  apply bind_runs in H as (ps & r2 & Hps & H). cbv zeta in H. apply ret_runs in H as [[= <- <-] <-].
  assert (forall p a, assoc p found = Some a -> target (world r2) p = Some a) as Hfound.
  { intros p a Hp. pose proof (told integrity t source target Hh _ _ _ _ _ _ Hf Hp) as Ht.
    assert (kept target p r1 r2) as Hk2.
    { eapply moves_to; [|exact Hps]. apply moves_each; [by apply kept_refl|by apply kept_trans|].
      intros f _. unfold confirm_one. cbv zeta. destruct (_ && _); [|by intros ? ?].
      apply moves_bind; [by apply kept_trans| |by intros ? ? ?].
      intros r3 b. unfold add_run_file. by destruct (recording r3). }
    by apply Hk2. }
  apply (each_values _ _ _ _ _ _ (confirm_one_spec found)) in Hps. split.
  - apply Forall2_fmap_r. eapply Forall2_impl; [|exact Hps]. intros f p [Hp _] Hpr. unfold compose in Hpr.
    rewrite Hp in Hpr. apply andb_true_iff in Hpr as [Hcat Hsame]. unfold catalogued in Hcat.
    destruct (given (checksum_after_backup f)) as [c|] eqn:Ec; [|done]. exists c. split; [done|].
    destruct (assoc (target_path f) found) as [a|] eqn:Ea; [|done]. rewrite (Hfound _ _ Ea).
    assert (same_bytes (Some a) (Some c) (recorded_size f) =
            same_bytes (Some a) (checksum_after_backup f) (recorded_size f)) as ->; [|done].
    unfold same_bytes. rewrite Ec. unfold given in *. destruct (checksum_after_backup f) as [c'|]; [|done].
    destruct (String.eqb_spec c' ""); [done|]. injection Ec as <-. by rewrite (proj2 (String.eqb_neq c' "")).
  - intros n. rewrite elem_of_flagged. change (map fst ps) with (fst <$> ps).
    setoid_rewrite list_lookup_fmap. split.
    + intros (o & Ho). destruct (Forall2_lookup_r _ _ _ _ _ Hps Ho) as (f & _ & [_ Hb]).
      exists o. rewrite Ho. split; [done|]. cbn in Hb. by destruct (proven o).
    + intros (o & Ho & Hno). destruct (ps !! n) as [[o' b]|] eqn:E; [|done]. injection Ho as ->.
      destruct (Forall2_lookup_r _ _ _ _ _ Hps E) as (f & _ & [_ Hb]). cbn in Hb. rewrite Hno in Hb.
      exists o. by rewrite Hb.
Qed.

(** ** A transport over two tables of files: the first [broken] copies arrive short *)
Record disks := mkDisks { on_source : Answers; on_target : Answers; broken : nat }.
Definition look (files : Answers) (ps : list string) : Answers :=
  omap (fun p => (fun a => (p, a)) <$> assoc p files) ps.
Definition sample_transport : transport disks := mkTransport
  (fun ps w => (Ok (look (on_source w) ps), w))
  (fun ps w => (Ok (look (on_target w) ps), w))
  (fun f w => match broken w, assoc (source_path f) (on_source w) with
     | _, None => (Err "FileNotFoundError: no such file", w)
     | O, Some a => (Ok (a.2), mkDisks (on_source w) (assoc_set (target_path f) a (on_target w)) 0)
     | S n, Some a => (Ok (Some 1), mkDisks (on_source w) (assoc_set (target_path f) ("00", Some 1) (on_target w)) n)
     end)
  (fun _ w => w).

Lemma look_told files ps p a : assoc p (look files ps) = Some a -> assoc p files = Some a.
Proof.
  unfold look. induction ps as [|q ps IH]; cbn; [done|].
  destruct (assoc q files) as [b|] eqn:E; cbn; [|done].
  destruct (String.eqb_spec p q) as [->|]; [by intros [= <-]|done].
Qed.
Lemma sample_honest : honest sample_transport (fun w p => assoc p (on_source w)) (fun w p => assoc p (on_target w)).
Proof.
  constructor; try done; cbn.
  - intros ps w d w' [= <- <-] p a. apply look_told.
  - intros ps w d w' [= <- <-] p a. apply look_told.
  - intros f w p b Hp. destruct (broken w), (assoc (source_path f) (on_source w)) as [a|]; try done; cbn;
      by rewrite assoc_set_ne.
Qed.

Definition sample_file (name kind : string) (recorded : option string) : FileToCopy :=
  mkFile "prod" "drill" name kind ("/backup/" +:+ name) ("/import/" +:+ name) "Sales" "sqlserver"
    recorded (Some 7) "" "" None None None.
Definition sample_items : list FileToCopy :=
  [sample_file "a.bak" "FULL" (Some "aa"); sample_file "b.trn" "LOG" (Some "bb"); sample_file "c.trn" "LOG" None].
Definition sample_run : run disks :=
  mkRun (mkDisks [("/backup/a.bak", ("aa", Some 7)); ("/backup/b.trn", ("cc", Some 9)); ("/backup/c.trn", ("dd", None))]
           [("/import/c.trn", ("dd", Some 5))] 1) true [] 1.

Example sample_verdicts :
  map verdict <$> (copy_verified_batch (Some default_integrity) sample_transport sample_items sample_run).1
  = Ok ["recopied"; "source_mismatch"; "match"].
Proof. vm_compute. reflexivity. Qed.

Lemma a_proven_file_is_the_source_witness : exists os r',
  copy_verified_batch (Some default_integrity) sample_transport sample_items sample_run = (Ok os, r') /\
  map proven os = [true; false; true] /\
  Forall2 (fun f o => proven o = true -> proven_in default_integrity (fun w p => assoc p (on_target w)) r'
    (assoc (source_path f) (on_source (world sample_run))) f) sample_items os.
Proof.
  eexists _, _. split; [vm_compute; reflexivity|]. split; [vm_compute; reflexivity|].
  apply (a_proven_file_is_the_source default_integrity sample_transport (fun w p => assoc p (on_source w))).
  - apply sample_honest.
  - by apply (bool_decide_unpack _).
  - vm_compute. reflexivity.
Defined.

Lemma gate_judges_every_file_witness : exists os r',
  copy_verified_batch (Some default_integrity) sample_transport sample_items sample_run = (Ok os, r') /\
  exists sources r1, act (hash_sources sample_transport (map source_path sample_items)) sample_run = (Ok sources, r1) /\
    Forall2 (fun f o => judged default_integrity (assoc (source_path f) sources) f o) sample_items os.
Proof.
  eexists _, _. split; [vm_compute; reflexivity|].
  apply (gate_judges_every_file default_integrity sample_transport sample_items sample_run). vm_compute. discriminate.
Defined.

Lemma only_allowed_files_are_copied_witness :
  assoc "/import/b.trn" (on_target (world
    (copy_verified_batch (Some default_integrity) sample_transport sample_items sample_run).2)) = None.
Proof.
  apply (only_allowed_files_are_copied default_integrity sample_transport
    (fun w p => assoc p (on_source w)) (fun w p => assoc p (on_target w)) sample_items sample_run
    (fun w => assoc "/import/b.trn" (on_target w) = None)).
  - apply sample_honest.
  - intros ps w H. exact H.
  - intros ps w H. exact H.
  - intros s w H. exact H.
  - intros f w Hf Hmay Hw. assert (target_path f <> "/import/b.trn") as Hne.
    { intros E. repeat (apply list.elem_of_cons in Hf as [->|Hf]; [by vm_compute in Hmay; vm_compute in E|]).
      by apply not_elem_of_nil in Hf. }
    cbn. destruct (broken w), (assoc (source_path f) (on_source w)) as [a|]; try exact Hw; cbn;
      rewrite assoc_set_ne; (exact Hw || congruence).
  - vm_compute. reflexivity.
Defined.

Lemma confirmed_files_witness : exists os remaining r',
  confirm_on_target (Some default_integrity) sample_transport
    [sample_file "a.bak" "FULL" (Some "aa"); sample_file "c.trn" "LOG" (Some "DD")]
    (mkRun (mkDisks [] [("/import/c.trn", ("dd", Some 7))] 0) false [] 1) = (Ok (os, remaining), r') /\
  remaining = [0%nat] /\
  forall n, n ∈ remaining <-> exists o, os !! n = Some o /\ proven o = false.
Proof.
  eexists _, _, _. split; [vm_compute; reflexivity|]. split; [reflexivity|].
  eapply (confirmed_files_are_what_was_backed_up default_integrity sample_transport _ _
    [sample_file "a.bak" "FULL" (Some "aa"); sample_file "c.trn" "LOG" (Some "DD")]
    (mkRun (mkDisks [] [("/import/c.trn", ("dd", Some 7))] 0) false [] 1)); [apply sample_honest|].
  vm_compute. reflexivity.
Defined.
