(* ===== verification/ChainBreak.v ===== *)
(** * Does a chain of backups hold? ([sqlserver_chain_break] and [postgresql_wal_break] of
    [lib/integrity.py])

    A break is the piece it names, not its sentence.  The theorems say what an unbroken chain
    covers, and that a break that is named is one. *)

From S2P Require Import Prelude Py.

(** ** SQL Server: the LSNs of the headers *)
(** [int((item or {}).get(key) or 0)], a value that is no number being 0 (an infinite float,
    which JSON has none of, would raise). *)
Definition lsn (item : pydict) (key : string) : Z :=
  match py_int (py_or (get item key) (PInt 0)) with Ok n => n | Err _ => 0 end.

Inductive log_break :=
| WrongBase                      (* the DIFF belongs to another FULL *)
| StartsLate (item : pydict)     (* the first log starts after the anchor ends *)
| Missing (item : pydict).       (* nothing ends where this log starts *)

(** The loop over the logs: the end of what is restored so far, and whether a log was applied. *)
Fixpoint log_loop (previous_end : Z) (started : bool) (logs : list pydict) : option log_break :=
  match logs with
  | [] => None
  | item :: rest =>
      let first := lsn item "first_lsn" in
      let last := lsn item "last_lsn" in
      if (first =? 0) || (last =? 0) || (previous_end =? 0) then None
      else if negb started then
        if last <=? previous_end then log_loop previous_end false rest
        else if previous_end <? first then Some (StartsLate item)
        else log_loop last true rest
      else if negb (first =? previous_end) then Some (Missing item)
      else log_loop last true rest
  end.

(** [if diff:], [diff or full]: an empty dict is no DIFF. *)
Definition given (diff : option pydict) : option pydict :=
  match diff with Some [] => None | _ => diff end.

Definition sqlserver_chain_break (full : pydict) (diff : option pydict) (logs : list pydict)
    : option log_break :=
  let diff := given diff in
  let wrong := match diff with
    | Some d =>
        let base := lsn d "differential_base_lsn" in
        let checkpoint := lsn full "checkpoint_lsn" in
        negb (base =? 0) && negb (checkpoint =? 0) && negb (base =? checkpoint)
    | None => false
    end in
  if wrong then Some WrongBase
  else log_loop (lsn (default full diff) "last_lsn") false logs.

(** Every header gave its LSNs, and a log does not end before it starts. *)
Definition told (item : pydict) : Prop :=
  lsn item "first_lsn" <> 0 /\ lsn item "last_lsn" <> 0 /\ lsn item "first_lsn" <= lsn item "last_lsn".
Definition covers (item : pydict) (x : Z) : Prop := lsn item "first_lsn" <= x < lsn item "last_lsn".
(** Where the logs end. *)
Definition log_end (from : Z) (logs : list pydict) : Z :=
  fold_left (fun e item => Z.max e (lsn item "last_lsn")) logs from.

Lemma log_end_ge from logs : from <= log_end from logs.
Proof.
  revert from. induction logs as [|i l IH]; intros from; [cbn; lia|].
  specialize (IH (Z.max from (lsn i "last_lsn"))). unfold log_end in *. cbn [fold_left]. lia.
Qed.

Lemma log_loop_none e started logs : Forall told logs -> e <> 0 -> log_loop e started logs = None ->
  forall x, e <= x < log_end e logs -> exists item, item ∈ logs /\ covers item x.
Proof.
  intros Hl. revert e started. induction Hl as [|i l (H1 & H2 & H3) _ IH]; intros e started He Hn x Hx.
  - unfold log_end in Hx. cbn in Hx. lia.
  - cbn [log_loop] in Hn. cbv zeta in Hn.
    assert ((lsn i "first_lsn" =? 0) || (lsn i "last_lsn" =? 0) || (e =? 0) = false) as E by lia.
    rewrite E in Hn. cbn [log_end fold_left] in Hx. fold (log_end (Z.max e (lsn i "last_lsn")) l) in Hx.
    assert (e <= lsn i "last_lsn" /\ lsn i "first_lsn" <= e /\ log_loop (lsn i "last_lsn") true l = None
      \/ lsn i "last_lsn" <= e /\ log_loop e started l = None) as [(Hle & Hf & Hn')|[Hle Hn']].
    { destruct started; cbn [negb] in Hn.
      - destruct (Z.eqb_spec (lsn i "first_lsn") e); cbn [negb] in Hn; [|done]. left. split_and!; [lia|lia|done].
      - destruct (Z.leb_spec (lsn i "last_lsn") e); [right; done|].
        destruct (Z.ltb_spec e (lsn i "first_lsn")); [done|]. left. split_and!; [lia|lia|done]. }
    + rewrite Z.max_r in Hx by done. destruct (decide (x < lsn i "last_lsn")) as [Hlt|Hge].
      * exists i. split; [by left|]. unfold covers. lia.
      * destruct (IH (lsn i "last_lsn") true) with (x := x) as (j & Hj & Hc); [done..|lia|].
        exists j. split; [by right|done].
    + rewrite Z.max_l in Hx by done. destruct (IH e started He Hn' x Hx) as (j & Hj & Hc).
      exists j. split; [by right|done].
Qed.

(** A log that is named starts away from the end of all that was applied before it. *)
Lemma log_loop_some e started logs b : Forall told logs -> e <> 0 -> log_loop e started logs = Some b ->
  exists before item after, logs = before ++ item :: after /\
    ((b = StartsLate item /\ started = false /\ log_end e before = e /\ e < lsn item "first_lsn") \/
     (b = Missing item /\ log_end e before <> lsn item "first_lsn")).
Proof.
  intros Hl. revert e started. induction Hl as [|i l (H1 & H2 & H3) Hl IH]; intros e started He Hn; [done|].
  cbn [log_loop] in Hn. cbv zeta in Hn.
  assert ((lsn i "first_lsn" =? 0) || (lsn i "last_lsn" =? 0) || (e =? 0) = false) as E by lia.
  rewrite E in Hn. destruct started; cbn [negb] in Hn.
  - destruct (Z.eqb_spec (lsn i "first_lsn") e) as [Hf|Hf]; cbn [negb] in Hn.
    + destruct (IH _ _ H2 Hn) as (bf & j & af & -> & Hb). exists (i :: bf), j, af. split; [done|].
      destruct Hb as [(_ & ? & _)|[-> Hb]]; [done|]. right. split; [done|].
      cbn [log_end fold_left]. rewrite Z.max_r by lia. exact Hb.
    + injection Hn as <-. exists [], i, l. split; [done|]. right. split; [done|]. cbn. congruence.
  - destruct (Z.leb_spec (lsn i "last_lsn") e) as [Hle|Hgt].
    + destruct (IH _ _ He Hn) as (bf & j & af & -> & Hb). exists (i :: bf), j, af. split; [done|].
      cbn [log_end fold_left]. rewrite Z.max_l by lia. exact Hb.
    + destruct (Z.ltb_spec e (lsn i "first_lsn")) as [Hlt|Hge].
      * injection Hn as <-. exists [], i, l. split; [done|]. left. done.
      * destruct (IH _ _ H2 Hn) as (bf & j & af & -> & Hb). exists (i :: bf), j, af. split; [done|].
        destruct Hb as [(_ & ? & _)|[-> Hb]]; [done|]. right. split; [done|].
        cbn [log_end fold_left]. rewrite Z.max_r by lia. exact Hb.
Qed.

(** When the chain check of a SQL Server restore finds no break, every LSN from the end of
    the full or differential backup to the end of the logs is covered by some log; otherwise it
    names the wrong base, or the log at which the covered range and the next log do not meet. *)
Lemma unbroken_logs_cover full diff logs :
  let from := lsn (default full (given diff)) "last_lsn" in
  Forall told logs -> from <> 0 ->
  match sqlserver_chain_break full diff logs with
  | None => forall x, from <= x < log_end from logs -> exists item, item ∈ logs /\ covers item x
  | Some WrongBase => exists d, diff = Some d /\ lsn d "differential_base_lsn" <> lsn full "checkpoint_lsn"
  | Some b => exists before item after, logs = before ++ item :: after /\
      ((b = StartsLate item /\ log_end from before = from /\ from < lsn item "first_lsn") \/
       (b = Missing item /\ log_end from before <> lsn item "first_lsn"))
  end.
Proof.
  cbv zeta. intros Hl Hf. unfold sqlserver_chain_break. cbv zeta.
  destruct (match given diff with Some d => _ | None => false end) eqn:Ew.
  - destruct (given diff) as [d|] eqn:Ed; [|done]. exists d.
    split; [by destruct diff as [[|]|]; simplify_eq/=|]. lia.
  - destruct (log_loop _ false logs) as [b|] eqn:E; [|by apply (log_loop_none _ false)].
    destruct (log_loop_some _ _ _ _ Hl Hf E) as (bf & i & af & H & Hb).
    assert (b <> WrongBase) as Hne by (destruct Hb as [(-> & _)|(-> & _)]; done).
    destruct b; [done|..]; exists bf, i, af; (split; [done|]);
      (destruct Hb as [(? & ? & ? & ?)|(? & ?)]; [left|right]; split_and?; done).
Qed.

Definition header (first last : Z) : pydict := [("first_lsn", PInt first); ("last_lsn", PInt last)].

Lemma unbroken_logs_cover_witness :
  let full := [("checkpoint_lsn", PInt 5); ("last_lsn", PInt 10)] in
  let logs := [header 4 8; header 8 20; header 20 31] in
  sqlserver_chain_break full None logs = None /\
  exists item, item ∈ logs /\ covers item 25.
Proof.
  cbv zeta. split; [vm_compute; reflexivity|].
  apply (unbroken_logs_cover [("checkpoint_lsn", PInt 5); ("last_lsn", PInt 10)] None
           [header 4 8; header 8 20; header 20 31]).
  - repeat constructor; vm_compute; discriminate.
  - vm_compute. discriminate.
  - vm_compute. split; [discriminate|reflexivity].
Defined.

(** The chain check also rejects logs that overlap: it reports a missing log although every
    LSN up to the end of the logs is covered. *)
Lemma overlapping_logs_are_called_missing : exists full logs item,
  Forall told logs /\ sqlserver_chain_break full None logs = Some (Missing item) /\
  let from := lsn full "last_lsn" in
  forall x, from <= x < log_end from logs -> exists i, i ∈ logs /\ covers i x.
Proof.
  exists (header 1 10), [header 10 20; header 20 25; header 20 30], (header 20 30).
  split; [repeat constructor; vm_compute; discriminate|]. split; [vm_compute; reflexivity|].
  cbv zeta. unfold covers. change (log_end _ _) with 30. change (lsn (header 1 10) "last_lsn") with 10.
  intros x Hx. destruct (decide (x < 20)).
  - exists (header 10 20). split; [by left|]. change (10 <= x < 20). lia.
  - exists (header 20 30). split; [by right; right; left|]. change (20 <= x < 30). lia.
Qed.

(** ** PostgreSQL: the WAL segments *)
Definition is_hex (a : ascii) : bool := is_digit a || between 65 (code a) 70.
Definition hex_of (a : ascii) : Z := if is_digit a then code a - 48 else code a - 55.
Definition hex_value (l : list ascii) : Z := fold_left (fun v a => v * 16 + hex_of a) l 0.

(** [WAL_SEGMENT_NAME] on a stripped, upper case name. *)
Definition is_segment (s : string) : bool := (str_len s =? 24)%nat && forallb is_hex (chars s).
Definition clean (s : string) : string := upper (strip s).

Definition timeline (s : string) : list ascii := take 8 (chars s).
(** [log * 0x100 + seg], [None] past [0xFF]. *)
Definition number (s : string) : option Z :=
  let log := hex_value (take 8 (drop 8 (chars s))) in
  let seg := hex_value (take 8 (drop 16 (chars s))) in
  if 255 <? seg then None else Some (log * 256 + seg).

Inductive wal_break := StartMissing | SegmentMissing (segment : Z) (before : string).

Fixpoint wal_loop (previous : option Z) (after : list string) : option wal_break :=
  match after with
  | [] => None
  | name :: rest =>
      match previous, number name with
      | Some p, Some c => if c =? p + 1 then wal_loop (Some c) rest else Some (SegmentMissing (p + 1) name)
      | _, _ => None
      end
  end.

(** [sorted({...})] and [[name for name in names if name >= start]]. *)
Definition segment_names (segments : list string) : list string :=
  sort_by String.leb (remove_dups (List.filter is_segment (map clean segments))).
Definition from_start (start : string) (names : list string) : list string :=
  List.filter (fun name => String.leb start name) names.

Definition postgresql_wal_break (start_wal : string) (segments : list string) (to_latest : bool)
    : option wal_break :=
  let start := clean start_wal in
  let names := segment_names segments in
  if negb (is_segment start) || match names with [] => true | _ => false end then None
  else
    let after := from_start start names in
    if existsb (fun name => negb (bool_decide (timeline name = timeline start))) after then None
    else if negb (bool_decide (start ∈ after)) then Some StartMissing
    else if negb to_latest then None
    else wal_loop (number start) (tail after).

Example wal_examples :
  let seg n := "0000000100000000000000" +:+ n in
  (postgresql_wal_break (seg "FE") [seg "ff"; seg "FE"; "000000010000000100000000"; seg "FD"] true,
   postgresql_wal_break (seg "FE") [seg "FE"; "000000010000000100000000"] true,
   postgresql_wal_break (seg "FE") [seg "FF"; "00000002.history"] false)
  = (None, Some (SegmentMissing 255 "000000010000000100000000"), Some StartMissing).
Proof. vm_compute. reflexivity. Qed.

(** ** Names of one length are in the order of the numbers they write *)
Lemma hex_of_range a : is_hex a = true -> 0 <= hex_of a < 16.
Proof.
  unfold is_hex, hex_of, is_digit, between. destruct ((48 <=? code a) && (code a <=? 57)) eqn:E; lia.
Qed.

Lemma hex_value_from v l : fold_left (fun v a => v * 16 + hex_of a) l v =
  v * 16 ^ Z.of_nat (length l) + hex_value l.
Proof.
  unfold hex_value. revert v. induction l as [|a l IH]; intros v; cbn [fold_left length].
  - cbn. lia.
  - rewrite IH, (IH (0 * 16 + hex_of a)). rewrite Nat2Z.inj_succ, Z.pow_succ_r by lia. ring.
Qed.
Lemma hex_value_cons a l : hex_value (a :: l) = hex_of a * 16 ^ Z.of_nat (length l) + hex_value l.
Proof. unfold hex_value at 1. cbn [fold_left]. rewrite hex_value_from. ring. Qed.
Lemma hex_value_app l1 l2 : hex_value (l1 ++ l2) = hex_value l1 * 16 ^ Z.of_nat (length l2) + hex_value l2.
Proof. unfold hex_value at 1. by rewrite fold_left_app, hex_value_from. Qed.

Lemma hex_value_range l : forallb is_hex l = true -> 0 <= hex_value l < 16 ^ Z.of_nat (length l).
Proof.
  induction l as [|a l IH]; intros H; [cbn; lia|]. cbn [forallb] in H. apply andb_true_iff in H as [Ha Hl].
  rewrite hex_value_cons. cbn [length]. rewrite Nat2Z.inj_succ, Z.pow_succ_r by lia.
  pose proof (hex_of_range a Ha). specialize (IH Hl). nia.
Qed.

Lemma hex_of_compare a b : is_hex a = true -> is_hex b = true -> Ascii.compare a b = (hex_of a ?= hex_of b).
Proof.
  destruct a as [[] [] [] [] [] [] [] []]; intros Ha; try discriminate Ha; clear Ha;
    destruct b as [[] [] [] [] [] [] [] []]; intros Hb; try discriminate Hb; reflexivity.
Qed.

Lemma hex_compare a b : length a = length b -> forallb is_hex a = true -> forallb is_hex b = true ->
  String.compare (text a) (text b) = (hex_value a ?= hex_value b).
Proof.
  revert b. induction a as [|x a IH]; intros [|y b] Hlen Ha Hb; try discriminate Hlen; [done|].
  cbn [forallb] in Ha, Hb. apply andb_true_iff in Ha as [Hx Ha], Hb as [Hy Hb]. injection Hlen as Hlen.
  cbn [text String.compare]. rewrite hex_of_compare, IH by done. rewrite !hex_value_cons, Hlen.
  pose proof (hex_value_range a Ha) as Ra. pose proof (hex_value_range b Hb) as Rb. rewrite Hlen in Ra.
  pose proof (hex_of_range x Hx). pose proof (hex_of_range y Hy).
  destruct (Z.compare_spec (hex_of x) (hex_of y)) as [->|Hlt|Hgt]; symmetry.
  - destruct (Z.compare_spec (hex_value a) (hex_value b)); [apply Z.compare_eq_iff|apply Z.compare_lt_iff|apply Z.compare_gt_iff]; lia.
  - apply Z.compare_lt_iff. nia.
  - apply Z.compare_gt_iff. nia.
Qed.

Lemma forallb_take {A} (p : A -> bool) n l : forallb p l = true -> forallb p (take n l) = true.
Proof.
  revert n. induction l as [|x l IH]; intros [|n] H; try done. cbn in *.
  apply andb_true_iff in H as [-> H]. by apply IH.
Qed.
Lemma forallb_drop {A} (p : A -> bool) n l : forallb p l = true -> forallb p (drop n l) = true.
Proof.
  revert n. induction l as [|x l IH]; intros [|n] H; try done. cbn in *.
  apply andb_true_iff in H as [_ H]. by apply IH.
Qed.

(** The value of a name is that of its timeline, log and segment. *)
Lemma segment_value s n : is_segment s = true -> number s = Some n -> exists r,
  hex_value (chars s) = hex_value (timeline s) * 16 ^ 16 + (n / 256) * 16 ^ 8 + r /\
  n = (n / 256) * 256 + r /\ 0 <= r <= 255 /\ 0 <= n / 256 < 16 ^ 8.
Proof.
  unfold is_segment, number, str_len. intros [Hlen%Nat.eqb_eq Hx]%andb_true_iff. cbv zeta.
  set (log := take 8 (drop 8 (chars s))). set (seg := take 8 (drop 16 (chars s))).
  assert (length log = 8%nat /\ length seg = 8%nat) as [Hl Hs]
    by (unfold log, seg; rewrite !length_take, !length_drop, Hlen; done).
  assert (chars s = timeline s ++ log ++ seg) as E.
  { unfold timeline, log, seg. change 16%nat with (8 + 8)%nat. rewrite <- drop_drop.
    rewrite (take_ge (drop 8 (drop 8 (chars s)))) by (rewrite !length_drop, Hlen; lia).
    by rewrite !take_drop. }
  pose proof (hex_value_range log) as Rl. pose proof (hex_value_range seg) as Rs.
  rewrite Hl in Rl. rewrite Hs in Rs.
  assert (0 <= hex_value log < 16 ^ 8) as Rl' by (apply Rl, forallb_take, forallb_drop, Hx).
  assert (0 <= hex_value seg < 16 ^ 8) as Rs' by (apply Rs, forallb_take, forallb_drop, Hx).
  destruct (Z.ltb_spec 255 (hex_value seg)) as [|Hle]; [done|]. intros [= <-].
  exists (hex_value seg). rewrite Z.div_add_l, (Z.div_small (hex_value seg)) by lia.
  split_and!; try lia. rewrite E at 1. rewrite !hex_value_app, length_app, Hl, Hs. cbn. lia.
Qed.

Lemma leb_value a b : is_segment a = true -> is_segment b = true ->
  String.leb a b = true <-> hex_value (chars a) <= hex_value (chars b).
Proof.
  unfold is_segment, str_len. intros [Ha%Nat.eqb_eq Hxa]%andb_true_iff [Hb%Nat.eqb_eq Hxb]%andb_true_iff.
  unfold String.leb. rewrite <- (text_chars a), <- (text_chars b), hex_compare, !text_chars by congruence.
  unfold Z.le. destruct (Z.compare _ _); split; congruence.
Qed.

Lemma number_order a b m n : is_segment a = true -> is_segment b = true -> timeline a = timeline b ->
  number a = Some m -> number b = Some n -> String.leb a b = true <-> m <= n.
Proof.
  intros Ha Hb Ht Hm Hn. rewrite leb_value by done.
  destruct (segment_value a m Ha Hm) as (r & -> & Em & Hr & Hlr).
  destruct (segment_value b n Hb Hn) as (r' & -> & En & Hr' & Hlr').
  rewrite Ht. split; nia.
Qed.

(** ** What the loop finds *)
Definition judged (start : string) (l : list string) : Prop :=
  forall s, s ∈ l -> is_segment s = true /\ timeline s = timeline start /\ exists n, number s = Some n.

Lemma wal_loop_none p l : (forall s, s ∈ l -> exists n, number s = Some n) -> wal_loop (Some p) l = None ->
  forall s n, s ∈ l -> number s = Some n -> forall k, p < k <= n -> exists s', s' ∈ l /\ number s' = Some k.
Proof.
  revert p. induction l as [|x l IH]; intros p Hl Hn s n Hs Hnum k Hk; [by apply not_elem_of_nil in Hs|].
  destruct (Hl x) as [c Hc]; [by left|]. cbn [wal_loop] in Hn. rewrite Hc in Hn.
  destruct (Z.eqb_spec c (p + 1)) as [E|]; [|done]. rewrite E in *.
  destruct (decide (k = p + 1)) as [->|Hne]; [by exists x; split; [left|]|].
  apply list.elem_of_cons in Hs as [->|Hs]; [rewrite Hc in Hnum; injection Hnum as <-; lia|].
  destruct (IH (p + 1)) with (s := s) (n := n) (k := k) as (s' & Hs' & Hk'); try done; [|lia|].
  - intros y Hy. apply Hl. by right.
  - exists s'. split; [by right|done].
Qed.

Lemma wal_loop_some p start l b : judged start l -> StronglySorted (fun x y => String.leb x y = true) l ->
  NoDup l -> (forall s n, s ∈ l -> number s = Some n -> p < n) -> wal_loop (Some p) l = Some b ->
  exists m name n, b = SegmentMissing m name /\ name ∈ l /\ number name = Some n /\ p < m < n /\
    forall s, s ∈ l -> number s <> Some m.
Proof.
  revert p. induction l as [|s l IH]; intros p Hj Hs Hnd Hp Hb; [done|].
  apply StronglySorted_inv in Hs as [Hs Hle]. apply list.NoDup_cons in Hnd as [Hin Hnd].
  destruct (Hj s) as (Hseg & Ht & c & Hc); [by left|].
  assert (forall s' n, s' ∈ l -> number s' = Some n -> c < n) as Hgt.
  { intros s' n Hs' Hn. destruct (Hj s') as (Hseg' & Ht' & _); [by right|].
    rewrite list.Forall_forall in Hle. pose proof (Hle s' Hs') as Hss.
    apply (number_order s s' c n) in Hss; [|done|done|congruence|done|done].
    destruct (decide (c = n)) as [->|]; [|lia]. exfalso. apply Hin.
    assert (String.leb s' s = true) as Hss'
      by (apply (number_order s' s n n); [done|done|congruence|done|done|lia]).
    replace s with s'; [done|]. apply String.leb_antisym; [done|]. by apply Hle. }
  cbn [wal_loop] in Hb. rewrite Hc in Hb. destruct (Z.eqb_spec c (p + 1)) as [E|Hne]; [rewrite E in *|].
  - destruct (IH (p + 1)) as (m & name & n & -> & Hname & Hn & Hm & Hno); try done.
    { intros s' Hs'. apply Hj. by right. }
    exists m, name, n. split; [done|]. split; [by right|]. split; [done|]. split; [lia|].
    intros s' [->|Hs']%list.elem_of_cons; [rewrite Hc; intros [= ?]; lia|by apply Hno].
  - injection Hb as <-. assert (p < c) as Hpc by (apply (Hp s); [by left|done]).
    exists (p + 1), s, c. split; [done|]. split; [by left|]. split; [done|]. split; [lia|].
    intros s' [->|Hs']%list.elem_of_cons Hn; [congruence|]. specialize (Hgt _ _ Hs' Hn). lia.
Qed.

Lemma segment_names_sorted segs : StronglySorted (fun x y => String.leb x y = true) (segment_names segs).
Proof.
  apply sort_by_sorted; [|apply leb_trans]. intros x y.
  destruct (String.leb x y) eqn:E; [by left|right]. by apply leb_false.
Qed.
Lemma segment_names_NoDup segs : NoDup (segment_names segs).
Proof. unfold segment_names. rewrite sort_by_perm. apply NoDup_remove_dups. Qed.
Lemma elem_of_segment_names segs s :
  s ∈ segment_names segs <-> is_segment s = true /\ exists x, x ∈ segs /\ s = clean x.
Proof.
  unfold segment_names. rewrite elem_of_sort_by, elem_of_remove_dups, elem_of_filter_bool, list_elem_of_fmap.
  split; [intros [(x & -> & ?) ?]; by eauto|intros (? & x & ? & ->); by eauto].
Qed.

Lemma StronglySorted_filter {A} (R : relation A) (p : A -> bool) l :
  StronglySorted R l -> StronglySorted R (List.filter p l).
Proof.
  induction 1 as [|x l Hl IH Hx]; cbn; [constructor|]. destruct (p x); [|done]. constructor; [done|].
  apply list.Forall_forall. intros y [Hy _]%elem_of_filter_bool. by eapply list.Forall_forall in Hx.
Qed.

(** The names from the start on begin with it. *)
Lemma from_start_head start segs : start ∈ from_start start (segment_names segs) -> exists l,
  from_start start (segment_names segs) = start :: l /\
  StronglySorted (fun x y => String.leb x y = true) l /\ NoDup l /\ (start ∉ l) /\
  Forall (fun y => String.leb start y = true) l.
Proof.
  intros Hin. pose proof (StronglySorted_filter _ (fun n => String.leb start n) _ (segment_names_sorted segs)) as Hs.
  assert (NoDup (from_start start (segment_names segs))) as Hnd
    by apply NoDup_ListNoDup, List.NoDup_filter, NoDup_ListNoDup, segment_names_NoDup.
  assert (forall x, x ∈ from_start start (segment_names segs) -> String.leb start x = true) as Hge
    by (intros x [_ ?]%elem_of_filter_bool; done).
  unfold from_start in *. destruct (List.filter _ _) as [|h l]; [by apply not_elem_of_nil in Hin|].
  apply StronglySorted_inv in Hs as [Hs Hh]. apply list.NoDup_cons in Hnd as [Hhl Hnd].
  assert (h = start) as ->.
  { apply list.elem_of_cons in Hin as [->|Hin]; [done|]. apply String.leb_antisym; [|apply Hge; by left].
    by eapply list.Forall_forall in Hh. }
  exists l. by split_and!.
Qed.

(** When the WAL check of a PostgreSQL restore is silent, every segment from the start of
    the base backup to the newest archived one is archived; otherwise the segment it names is
    really absent and lies before an archived one. *)
Lemma wal_break_is_a_hole start_wal segments to_latest p :
  let start := clean start_wal in
  let names := segment_names segments in
  is_segment start = true -> number start = Some p -> judged start (from_start start names) ->
  match postgresql_wal_break start_wal segments to_latest with
  | None => names = [] \/ start ∈ names /\ (to_latest = true ->
      forall s n, s ∈ from_start start names -> number s = Some n ->
      forall k, p <= k <= n -> exists s', s' ∈ names /\ timeline s' = timeline start /\ number s' = Some k)
  | Some StartMissing => start ∉ names
  | Some (SegmentMissing m name) => to_latest = true /\ name ∈ names /\
      exists n, number name = Some n /\ p < m < n /\
        forall s, s ∈ names -> timeline s = timeline start -> number s <> Some m
  end.
Proof.
  cbv zeta. intros Hseg Hp Hj. unfold postgresql_wal_break. cbv zeta. rewrite Hseg. cbn [negb orb].
  set (start := clean start_wal) in *. set (names := segment_names segments) in *.
  assert (names = [] \/ match names with [] => true | _ => false end = false) as [En|En]
    by (destruct names; auto); [rewrite En; by left|]. rewrite En.
  destruct (existsb _ _) eqn:Et.
  { exfalso. apply existsb_exists in Et as (s & Hs%list_elem_of_In & Hn). apply Hj in Hs as (_ & Ht & _).
    by rewrite bool_decide_true in Hn. }
  assert (start ∈ names <-> start ∈ from_start start names) as Hin.
  { unfold from_start. rewrite elem_of_filter_bool, leb_refl. tauto. }
  destruct (bool_decide_reflect (start ∈ from_start start names)) as [Hst|Hst]; cbn [negb];
    [|by rewrite Hin]. destruct to_latest; cbn [negb]; [|right; by rewrite Hin].
  destruct (from_start_head start segments Hst) as (l & El & Hs & Hnd & Hnot & Hge).
  fold names in El. rewrite El in *. cbn [tail]. rewrite Hp.
  assert (forall s, s ∈ l -> s ∈ names) as Hsub.
  { intros s Hs'. assert (s ∈ from_start start names) as H by (rewrite El; by right).
    by apply elem_of_filter_bool in H as [? _]. }
  assert (judged start l) as Hjl by (intros s Hs'; apply Hj; by right).
  destruct (wal_loop (Some p) l) as [b|] eqn:Eb.
  - destruct (wal_loop_some p start l b) as (m & name & n & -> & Hname & Hn & Hm & Hno); try done.
    { intros s n Hs' Hn. rewrite list.Forall_forall in Hge.
      destruct (Hjl s Hs') as (Hseg' & Ht & _). pose proof (Hge s Hs') as Hle.
      apply (number_order start s p n) in Hle; [|done..].
      destruct (decide (p = n)) as [->|]; [|lia]. exfalso. apply Hnot. replace start with s; [done|].
      apply String.leb_antisym; [|by apply Hge]. by apply (number_order s start n n). }
    split; [done|]. split; [by apply Hsub|]. exists n. split_and!; try done; [lia..|].
    intros s Hsn Ht Hnum. assert (s ∉ l) as Hsl by (intros ?; by apply (Hno s)).
    assert (String.leb start s = false) as Hlt.
    { destruct (String.leb start s) eqn:E; [|done]. exfalso.
      assert (s ∈ start :: l) as H by (rewrite <- El; apply elem_of_filter_bool; done).
      apply list.elem_of_cons in H as [->|?]; [|done]. rewrite Hp in Hnum. injection Hnum as ->. lia. }
    apply leb_false in Hlt. apply elem_of_segment_names in Hsn as [Hseg' _].
    apply (number_order s start m p) in Hlt; [lia|done..].
  - right. split; [by apply Hin|]. intros _ s n Hs' Hn k Hk.
    destruct (decide (k = p)) as [->|]; [by exists start; rewrite Hin|].
    apply list.elem_of_cons in Hs' as [->|Hs']; [rewrite Hp in Hn; injection Hn as <-; lia|].
    destruct (wal_loop_none p l) with (s := s) (n := n) (k := k) as (s' & Hs'' & Hk'); try done; [|lia|].
    { intros y Hy. by apply Hjl. }
    exists s'. split; [by apply Hsub|]. split; [|done]. by apply Hjl.
Qed.

Lemma wal_break_is_a_hole_witness :
  let seg n := "0000000100000000000000" +:+ n in
  postgresql_wal_break (seg "0A") [seg "0A"; seg "0b"; seg "0D"] true = Some (SegmentMissing 12 (seg "0D")) /\
  (true = true /\ seg "0D" ∈ segment_names [seg "0A"; seg "0b"; seg "0D"] /\
   exists n, number (seg "0D") = Some n /\ 10 < 12 < n /\
     forall s, s ∈ segment_names [seg "0A"; seg "0b"; seg "0D"] ->
       timeline s = timeline (clean (seg "0A")) -> number s <> Some 12).
Proof.
  cbv zeta. split; [vm_compute; reflexivity|].
  apply (wal_break_is_a_hole "00000001000000000000000A"
    ["00000001000000000000000A"; "00000001000000000000000b"; "00000001000000000000000D"] true 10).
  - vm_compute. reflexivity.
  - vm_compute. reflexivity.
  - intros s Hs.
    assert (from_start (clean "00000001000000000000000A") (segment_names
      ["00000001000000000000000A"; "00000001000000000000000b"; "00000001000000000000000D"]) =
      ["00000001000000000000000A"; "00000001000000000000000B"; "00000001000000000000000D"]) as E
      by (vm_compute; reflexivity).
    rewrite E in Hs.
    repeat (apply list.elem_of_cons in Hs as [->|Hs]; [split_and!; [vm_compute; reflexivity..|eexists; vm_compute; reflexivity]|]).
    by apply not_elem_of_nil in Hs.
Defined.
