(* ===== verification/TelegramText.v ===== *)
(** * Fitting a text into a Telegram message ([lib/telegram_text.py]): split into parts,
    never cut; and the caption of a document.

    A length is a number of characters, of which a text in ASCII has one per byte. *)

From S2P Require Import Prelude Py.

#[local] Open Scope nat_scope.

Definition TELEGRAM_MESSAGE_LIMIT : nat := 4096.
Definition TELEGRAM_SAFE_TEXT_LENGTH : nat := 3900.
Definition TELEGRAM_CAPTION_LIMIT : nat := 1024.
Definition _PART_MARKER_ROOM : nat := 80.

Definition LF : ascii := chr 10.
Definition CR : ascii := chr 13.
Definition CAPTION_CONTINUED : list ascii := LF :: chars "[full text in the next message]".

(** ** Lines: [str.splitlines] on ASCII *)
Definition line := list ascii.
Definition is_break (a : ascii) : bool := between 10 (code a) 13 || between 28 (code a) 30.
Fixpoint splitlines (l : list ascii) : list line :=
  match l with
  | [] => []
  | a :: l' =>
      if is_break a then
        [] :: match l' with
              | b :: l'' => if bool_decide (a = CR) && bool_decide (b = LF) then splitlines l'' else splitlines l'
              | [] => []
              end
      else match splitlines l' with [] => [[a]] | w :: ws => (a :: w) :: ws end
  end.
(** ["\n".join(lines)] *)
Fixpoint join_lines (lines : list line) : list ascii :=
  match lines with
  | [] => []
  | [w] => w
  | w :: ws => w ++ LF :: join_lines ws
  end.

(** ** [split_text_by_lines] *)
(** [line[start : start + n] for start in range(0, len(line), n)] *)
Fixpoint pieces (fuel n : nat) (l : line) : list line :=
  match fuel, l with
  | S fuel, _ :: _ => take n l :: pieces fuel n (drop n l)
  | _, _ => []
  end.

Record chunking := mkChunking { chunks : list (list ascii); current_lines : list line; current_length : nat }.
Definition flush (s : chunking) : chunking :=
  mkChunking (chunks s ++ [join_lines (current_lines s)]) [] 0.
Definition if_any (s : chunking) : bool := match current_lines s with [] => false | _ => true end.

Definition add_line (max_length : nat) (s : chunking) (l : line) : chunking :=
  let line_length := length l + (if if_any s then 1 else 0) in
  let s := if if_any s && (max_length <? current_length s + line_length) then flush s else s in
  if max_length <? length l then
    let s := if if_any s then flush s else s in
    mkChunking (chunks s ++ pieces (length l) max_length l) (current_lines s) (current_length s)
  else
    mkChunking (chunks s) (current_lines s ++ [l])
      (current_length s + length l + (if current_length s =? 0 then 0 else 1)).

Definition split_text_by_lines (t : list ascii) (max_length : nat) : list (list ascii) :=
  let s := fold_left (add_line max_length) (splitlines t) (mkChunking [] [] 0) in
  let s := if if_any s then flush s else s in
  match chunks s with [] => [[]] | cs => cs end.

(** ** [split_telegram_message] *)
Definition part_marker (index count : nat) : string :=
  "[part " +:+ str_of_int (Z.of_nat index) +:+ "/" +:+ str_of_int (Z.of_nat count) +:+ "]" +:+ text [LF].

Definition split_to (max_length : nat) (t : string) : list string :=
  let clean_text := chars (strip t) in
  if length clean_text <=? max_length then [text clean_text]
  else
    let raw_chunks := split_text_by_lines clean_text (max_length - _PART_MARKER_ROOM) in
    imap (fun i c => part_marker (S i) (length raw_chunks) +:+ text c) raw_chunks.
Definition split_telegram_message (t : string) : list string := split_to TELEGRAM_SAFE_TEXT_LENGTH t.

(** ** [document_caption] *)
(** [head.rfind("\n")], where there is one. *)
Fixpoint rfind_lf (l : list ascii) : option nat :=
  match l with
  | [] => None
  | a :: l => match rfind_lf l with
              | Some n => Some (S n)
              | None => if bool_decide (a = LF) then Some 0 else None
              end
  end.
Definition rstrip (l : list ascii) : list ascii := reverse (drop_while is_space (reverse l)).
Definition document_caption (t : string) : string * string :=
  let l := chars t in
  if length l <=? TELEGRAM_CAPTION_LIMIT then (t, "")
  else
    let room := TELEGRAM_CAPTION_LIMIT - length CAPTION_CONTINUED in
    let head := take room l in
    let head := match rfind_lf head with
                | Some cut => if Nat.div room 2 <? cut then take cut head else head
                | None => head
                end in
    (text (rstrip head ++ CAPTION_CONTINUED), t).

(** ** What a part holds *)
Definition cut (n : nat) (l : line) : list line :=
  if n <? length l then pieces (length l) n l else [l].
Definition no_text (l : line) : bool := match l with [] => true | _ => false end.
(** The lines of a chunk after the empty ones it starts with. *)
Definition body (g : list line) : list line := drop_while no_text g.
Definition leading_blanks (g : list line) : nat := length (take_while no_text g).

Lemma pieces_spec n fuel l : 0 < n -> length l <= fuel ->
  concat (pieces fuel n l) = l /\ forall w, w ∈ pieces fuel n l -> length w <= n.
Proof.
  intros Hn. revert l. induction fuel as [|fuel IH]; intros l Hl.
  { destruct l; cbn in *; [|lia]. split; [done|]. by intros w ?%elem_of_nil. }
  destruct l as [|a l]; [split; [done|]; by intros w ?%elem_of_nil|].
  cbn [pieces]. destruct (IH (drop n (a :: l))) as [Hc Hw].
  { rewrite length_drop. lia. }
  cbn [concat]. rewrite Hc, take_drop. split; [done|].
  intros w [->|H]%list.elem_of_cons; [rewrite length_take; lia|by apply Hw].
Qed.

Lemma cut_spec n l : 0 < n -> concat (cut n l) = l /\ forall w, w ∈ cut n l -> length w <= n.
Proof.
  intros Hn. unfold cut. destruct (Nat.ltb_spec n (length l)).
  - by apply pieces_spec.
  - split; [apply app_nil_r|]. intros w ->%list_elem_of_singleton. done.
Qed.

Lemma join_lines_snoc ws l : length (join_lines (ws ++ [l])) =
  length (join_lines ws) + length l + match ws with [] => 0 | _ => 1 end.
Proof.
  induction ws as [|w ws IH]; [cbn; lia|].
  destruct ws as [|w' ws]; cbn in *; rewrite ?length_app in *; cbn in *; [lia|].
  rewrite ?length_app in *. cbn in *. lia.
Qed.

Lemma join_lines_body g : length (join_lines g) <= length (join_lines (body g)) + leading_blanks g.
Proof.
  unfold body, leading_blanks. induction g as [|w g IH]; cbn; [done|].
  destruct w as [|a w]; [|cbn; lia]. cbn [no_text length]. destruct g as [|w' g]; cbn in *; [lia|]. lia.
Qed.

Lemma body_snoc g l : body (g ++ [l]) =
  match body g with [] => (if no_text l then [] else [l]) | _ => body g ++ [l] end.
Proof.
  unfold body. induction g as [|w g IH]; cbn; [by destruct l|].
  destruct w; cbn; [apply IH|done].
Qed.
Lemma body_length g : length (join_lines (body g)) = 0 -> body g = [].
Proof.
  unfold body. induction g as [|[|a w] g IH]; cbn; [done|apply IH|].
  destruct g; cbn; lia.
Qed.

(** The loop: what is in the finished chunks and in the open one. *)
Record built (n : nat) (done_lines : list line) (gs : list (list line)) (s : chunking) : Prop := {
  b_chunks : chunks s = map join_lines gs;
  b_lines : concat gs ++ current_lines s = flat_map (cut n) done_lines;
  b_fit : Forall (fun g => length (join_lines (body g)) <= n) gs;
  b_length : current_length s = length (join_lines (body (current_lines s)));
  b_open : current_length s <= n }.

Lemma flush_built n ls gs s : built n ls gs s -> built n ls (gs ++ [current_lines s]) (flush s).
Proof.
  intros [Hc Hl Hf Hn Ho]. split; cbn.
  - by rewrite Hc, map_app.
  - rewrite concat_app. cbn. by rewrite !app_nil_r.
  - apply Forall_app. split; [done|]. repeat constructor. by rewrite <-Hn.
  - done.
  - lia.
Qed.

Lemma maybe_flush_built n ls gs s (b : bool) : built n ls gs s ->
  exists gs', built n ls gs' (if if_any s && b then flush s else s).
Proof.
  intros H. destruct (if_any s && b); [|by exists gs].
  exists (gs ++ [current_lines s]). by apply flush_built.
Qed.

Lemma concat_singletons {A} (l : list A) : concat (map (fun x => [x]) l) = l.
Proof. induction l; cbn; congruence. Qed.

Lemma add_line_built n ls gs s l : 0 < n -> built n ls gs s ->
  exists gs', built n (ls ++ [l]) gs' (add_line n s l).
Proof.
  intros Hn H. unfold add_line. set (long := n <? current_length s + _).
  destruct (maybe_flush_built n ls gs s long H) as [gs1 H1].
  assert (Hroom : if_any (if if_any s && long then flush s else s) = true -> current_length s + length l + 1 <= n
          /\ (if if_any s && long then flush s else s) = s).
  { destruct (if_any s) eqn:Ea; cbn [andb] in *; [|by rewrite Ea].
    subst long. destruct (Nat.ltb_spec n (current_length s + (length l + 1))); [done|]. intros _. split; [lia|done]. }
  revert H1 Hroom. generalize (if if_any s && long then flush s else s). intros s1 H1 Hroom.
  destruct (Nat.ltb_spec n (length l)) as [Hlong|Hshort].
  - destruct (maybe_flush_built n ls gs1 s1 true H1) as [gs2 H2]. rewrite andb_true_r in H2.
    exists (gs2 ++ map (fun p => [p]) (pieces (length l) n l)).
    destruct (if_any s1) eqn:Ea.
    + destruct (Hroom eq_refl). lia.
    + destruct H2 as [Hc Hl Hf Hlen Ho]. unfold if_any in Ea.
      destruct (current_lines s1) eqn:El; [|done].
      split; cbn; rewrite ?El.
      * rewrite Hc, map_app, map_map. f_equal. cbn. by rewrite map_id.
      * rewrite concat_app, concat_singletons, app_nil_r, flat_map_app. cbn. rewrite app_nil_r in *.
        rewrite Hl. f_equal. unfold cut. by destruct (Nat.ltb_spec n (length l)); [|lia].
      * apply Forall_app. split; [done|]. apply Forall_map, list.Forall_forall. intros p Hp.
        destruct (pieces_spec n (length l) l Hn (le_n _)) as [_ Hw]. specialize (Hw p Hp).
        cbn. destruct p; cbn in *; lia.
      * done.
      * done.
  - exists gs1. destruct H1 as [Hc Hl Hf Hlen Ho]. split; cbn.
    + done.
    + rewrite app_assoc, Hl, flat_map_app. cbn. rewrite app_nil_r. f_equal.
      unfold cut. by destruct (Nat.ltb_spec n (length l)); [lia|].
    + done.
    + rewrite body_snoc. destruct (Nat.eqb_spec (current_length s1) 0) as [E|E].
      * rewrite Hlen in E. apply body_length in E. rewrite E. rewrite Hlen, E. cbn.
        destruct l; cbn; lia.
      * destruct (body (current_lines s1)) eqn:Eb; [rewrite Hlen in E; done|].
        rewrite join_lines_snoc, <-Hlen. cbn. lia.
    + destruct (Nat.eqb_spec (current_length s1) 0) as [E|E]; [lia|].
      destruct (if_any s1) eqn:Ea.
      * destruct (Hroom eq_refl) as [? ->]. lia.
      * exfalso. unfold if_any in Ea. destruct (current_lines s1); [|done]. rewrite Hlen in E. done.
Qed.

Lemma all_lines_built n t : 0 < n ->
  exists gs, built n (splitlines t) gs (fold_left (add_line n) (splitlines t) (mkChunking [] [] 0)).
Proof.
  intros Hn. induction (splitlines t) as [|l ls [gs H]] using rev_ind.
  - exists []. by split; [..|cbn; lia].
  - rewrite fold_left_app. by apply add_line_built with gs.
Qed.

Lemma split_spec n t : 0 < n -> exists gs,
  split_text_by_lines t n = map join_lines gs /\
  (t <> [] -> concat gs = flat_map (cut n) (splitlines t)) /\
  Forall (fun g => length (join_lines (body g)) <= n) gs.
Proof.
  intros Hn. unfold split_text_by_lines. destruct (all_lines_built n t Hn) as [gs H].
  destruct (maybe_flush_built _ _ _ _ true H) as [gs' H']. rewrite andb_true_r in H'.
  set (s := if if_any _ then _ else _) in *.
  assert (current_lines s = []) as Hs.
  { subst s. generalize (fold_left (add_line n) (splitlines t) (mkChunking [] [] 0)).
    intros [cs cur len]. unfold if_any. by destruct cur. }
  destruct H' as [Hc Hl Hf _ _]. rewrite Hs, app_nil_r in Hl. destruct (chunks s) as [|c cs] eqn:E.
  - exists [[]]. split; [done|]. split; [|repeat constructor; cbn; lia].
    intros Ht. destruct gs'; [|by rewrite ?E in Hc]. cbn in *. exfalso. assert (splitlines t = []) as Hsp.
    { destruct (splitlines t) as [|w ws]; [done|]. exfalso. cbn in Hl. destruct (cut_spec n w Hn) as [Hw _].
      destruct (cut n w) eqn:Ew; [|done]. unfold cut in Ew. destruct (Nat.ltb_spec n (length w)); [|done].
      cbn in Hw. subst w. cbn in *. lia. }
    destruct t as [|a t]; [done|]. cbn in Hsp. destruct (is_break a); [done|]. by destruct (splitlines t).
  - exists gs'. by rewrite <-Hc.
Qed.

(** ** The parts of a text *)
Definition part_room : nat := TELEGRAM_SAFE_TEXT_LENGTH - _PART_MARKER_ROOM.
Definition part (groups : list (list line)) (i : nat) (g : list line) : string :=
  part_marker (S i) (length groups) +:+ text (join_lines g).

Lemma split_telegram_spec t : str_len (strip t) <= TELEGRAM_SAFE_TEXT_LENGTH \/
  exists groups, split_telegram_message t = imap (part groups) groups /\
    concat groups = flat_map (cut part_room) (splitlines (chars (strip t))) /\
    Forall (fun g => length (join_lines (body g)) <= part_room) groups.
Proof.
  unfold split_telegram_message, split_to, str_len. fold part_room.
  destruct (Nat.leb_spec (length (chars (strip t))) TELEGRAM_SAFE_TEXT_LENGTH) as [|Hlong]; [by left|right].
  destruct (split_spec part_room (chars (strip t))) as (gs & -> & Hl & Hf); [cbn; lia|].
  exists gs. rewrite length_map. split; [|split; [apply Hl|done]].
  - unfold part. generalize (length gs). intros m. by rewrite imap_fmap.
  - intros E. rewrite E in Hlong. cbn in Hlong. lia.
Qed.

Lemma take_while_In {A} (q : A -> bool) l x : x ∈ take_while q l -> x ∈ l.
Proof.
  induction l as [|y l IH]; cbn; [done|]. destruct (q y); [|by intros ?%elem_of_nil].
  intros [->|H]%list.elem_of_cons; apply list.elem_of_cons; auto.
Qed.

Lemma no_leading_blanks g : (forall w, w ∈ g -> w <> []) -> leading_blanks g = 0.
Proof. intros H. unfold leading_blanks. destruct g as [|[|a w] g]; [done| |done]. by destruct (H [] ltac:(by left)). Qed.

(** The lines of the parts are those of the text or pieces of them. *)
Lemma cut_nonempty n l w : 0 < n -> l <> [] -> w ∈ cut n l -> w <> [].
Proof.
  intros Hn Hl. unfold cut. destruct (Nat.ltb_spec n (length l)); [|by intros ->%list_elem_of_singleton].
  clear H Hl. generalize (length l). intros fuel. revert l. induction fuel as [|fuel IH]; intros l; cbn; [by intros ?%elem_of_nil|].
  destruct l as [|a l]; [by intros ?%elem_of_nil|]. intros [->|H]%list.elem_of_cons; [by destruct n; [lia|]|by eapply IH].
Qed.

Lemma str_len_app s t : str_len (s +:+ t) = str_len s + str_len t.
Proof. unfold str_len. by rewrite chars_app, length_app. Qed.
Lemma str_len_text l : str_len (text l) = length l.
Proof. unfold str_len. by rewrite chars_text. Qed.
Lemma str_len_nat (n k : nat) : 0 < k -> (Z.of_nat n < 10 ^ Z.of_nat k)%Z -> str_len (str_of_int (Z.of_nat n)) <= k.
Proof.
  intros Hk Hn. destruct (str_of_nonneg_digits (Z.of_nat n) ltac:(lia)) as (ds & <- & _ & _ & _ & H). by apply H.
Qed.

Lemma part_marker_fits i n : i <= n -> (Z.of_nat n < 10 ^ 35)%Z -> str_len (part_marker i n) <= _PART_MARKER_ROOM.
Proof.
  intros Hi Hn. unfold part_marker. rewrite !str_len_app, str_len_text.
  pose proof (str_len_nat i 35 ltac:(lia) ltac:(lia)). pose proof (str_len_nat n 35 ltac:(lia) ltac:(lia)).
  change (str_len "[part ") with 6. change (str_len "/") with 1. change (str_len "]") with 1.
  change _PART_MARKER_ROOM with 80. cbn [length]. lia.
Qed.

(** A text longer than a message is sent in parts that together are its lines in order,
    whole, except that a line longer than a part is cut into consecutive pieces; no part exceeds
    its room by more than the empty lines it starts with. *)
Lemma parts_carry_every_line t : str_len (strip t) <= TELEGRAM_SAFE_TEXT_LENGTH \/
  exists groups, split_telegram_message t = imap (part groups) groups /\
    concat groups = flat_map (cut part_room) (splitlines (chars (strip t))) /\
    (forall l, concat (cut part_room l) = l) /\
    Forall (fun g => length (join_lines g) <= part_room + leading_blanks g) groups.
Proof.
  destruct (split_telegram_spec t) as [|(gs & E & Hl & Hf)]; [by left|right].
  exists gs. split; [done|]. split; [done|]. split.
  - intros l. apply cut_spec. vm_compute. lia.
  - eapply Forall_impl, Hf. intros g Hg. etrans; [apply join_lines_body|]. by apply Nat.add_le_mono_r.
Qed.

(** A run of empty lines at the start of a chunk is not counted, so a text with thousands
    of them has a part above the hard limit of 4096 characters. *)
Lemma blank_lines_overflow_a_part : exists t p,
  p ∈ split_telegram_message t /\ TELEGRAM_MESSAGE_LIMIT < str_len p.
Proof.
  set (t := text (repeat "a"%char 3801 ++ repeat LF 5000 ++ ["b"%char])).
  exists t, (default "" (split_telegram_message t !! 1)). split.
  - apply list_elem_of_lookup. exists 1. vm_compute. reflexivity.
  - apply Nat.ltb_lt. vm_compute. reflexivity.
Qed.

(** Every part of a text without empty lines, its [part i/n] marker included, has at most
    the 3900 characters producers aim at. *)
Lemma parts_fit t p : (Z.of_nat (length (split_telegram_message t)) < 10 ^ 35)%Z ->
  (forall w, w ∈ splitlines (chars (strip t)) -> w <> []) ->
  p ∈ split_telegram_message t -> str_len p <= TELEGRAM_SAFE_TEXT_LENGTH.
Proof.
  intros Hn Hw Hp. destruct (split_telegram_spec t) as [H|(gs & E & Hl & Hf)].
  - unfold split_telegram_message, split_to in Hp. unfold str_len in H. apply Nat.leb_le in H. rewrite H in Hp.
    apply list_elem_of_singleton in Hp as ->. rewrite str_len_text. by apply Nat.leb_le.
  - rewrite E in Hp, Hn. rewrite length_imap in Hn.
    apply list_elem_of_lookup in Hp as [i Hi]. rewrite list_lookup_imap in Hi.
    destruct (gs !! i) as [g|] eqn:Eg; [|done]. injection Hi as <-.
    unfold part. rewrite str_len_app, str_len_text.
    pose proof (lookup_lt_Some _ _ _ Eg).
    pose proof (part_marker_fits (S i) (length gs) ltac:(lia) Hn) as Hm.
    assert (length (join_lines g) <= part_room) as Hg.
    { etrans; [apply join_lines_body|]. rewrite no_leading_blanks, Nat.add_0_r.
      - rewrite list.Forall_forall in Hf. apply Hf. by eapply list_elem_of_lookup_2.
      - intros w Hwg. assert (w ∈ concat gs) as Hc.
        { apply list_elem_of_In, in_concat. exists g. rewrite <-!list_elem_of_In. split; [by eapply list_elem_of_lookup_2|done]. }
        rewrite Hl in Hc. apply list_elem_of_In, in_flat_map in Hc as (l & Hin & Hc).
        rewrite <-list_elem_of_In in Hin, Hc. eapply cut_nonempty; [|by apply Hw|exact Hc]. vm_compute. lia. }
    unfold part_room in Hg. change _PART_MARKER_ROOM with 80 in *. change TELEGRAM_SAFE_TEXT_LENGTH with 3900 in *. lia.
Qed.

Definition long_text : string := text (repeat "a"%char 2500 ++ LF :: repeat "b"%char 2500 ++ LF :: repeat "c"%char 9).

Lemma parts_fit_witness :
  Forall (fun p => str_len p <= TELEGRAM_SAFE_TEXT_LENGTH) (split_telegram_message long_text).
Proof.
  apply list.Forall_forall. intros p. apply parts_fit; [apply Z.ltb_lt; vm_compute; reflexivity|].
  assert (Forall (fun w => no_text w = false) (splitlines (chars (strip long_text)))) as H by (vm_compute; repeat constructor).
  rewrite list.Forall_forall in H. intros w Hw ->. by specialize (H _ Hw).
Defined.

(** word. *)
Lemma caption_fits t : str_len (document_caption t).1 <= TELEGRAM_CAPTION_LIMIT /\
  (document_caption t = (t, "") \/ TELEGRAM_CAPTION_LIMIT < str_len t /\ (document_caption t).2 = t).
Proof.
  unfold document_caption, str_len. destruct (Nat.leb_spec (length (chars t)) TELEGRAM_CAPTION_LIMIT) as [H|H].
  { split; [done|by left]. }
  cbn [fst snd]. split; [|by right]. rewrite chars_text, length_app.
  set (head := match rfind_lf _ with Some _ => _ | None => _ end).
  assert (length head <= TELEGRAM_CAPTION_LIMIT - length CAPTION_CONTINUED) as Hh.
  { subst head. destruct (rfind_lf _) as [c|]; [destruct (_ <? c)|]; rewrite ?length_take; lia. }
  assert (length (rstrip head) <= length head) as Hr.
  { unfold rstrip. rewrite length_reverse. rewrite <-(length_reverse head). generalize (reverse head). intros l.
    induction l as [|a l IH]; cbn; [done|]. destruct (is_space a); cbn; lia. }
  change (length CAPTION_CONTINUED) with 32 in *. change TELEGRAM_CAPTION_LIMIT with 1024 in *. lia.
Qed.
