(* ===== verification/TelegramQueue.v ===== *)
(** * The queue of outgoing Telegram messages: [telegram/send_queue.py], the rows of
    [telegram_send_messages] ([db/store_telegram.py]) and [send_message] ([telegram/api.py]).

    The table is a map from [send_tlgmsg_id]; [metadata_json] is the object it holds.  A
    thread sends the rows of one chat: what it has done so far ([Local]) is the number of
    its interactions and its deliveries and sleeps, in order.  What Telegram, the store and
    the clocks answer it at its n-th interaction is an argument ([Env]), so any thread may be
    answered anything.  Log lines, addresses, tokens and the emoji that
    [decorate_message] puts before a text are left out: a payload keeps the text and the
    message type they are made from.  Durations are microseconds. *)

From S2P Require Import Prelude Py PyTime TelegramText.

(** ** Rows and constants *)
Record SendRow := mkRow {
  row_ins_date : string; tlgchat_id : option string; message_text : string; send_status : Z;
  send_date : option string; message_id : option Z; reply_message_id : option Z;
  source_type : option string; source_id : option string; message_type : option string;
  metadata : pydict }.
#[global] Abbreviation table := (gmap Z SendRow).

Definition SEND_PER_CHAT : Z := 5.
Definition STALE_IN_FLIGHT_SECONDS : Z := 900.
Definition RECORD_SENT_ATTEMPTS : nat := 3.
Definition RECORD_SENT_PAUSE_SECONDS : Z := usec / 2.
Definition DEFAULT_RATE_LIMIT_WAIT_SECONDS : Z := seconds 5.
Definition MAX_RATE_LIMIT_WAIT_SECONDS : Z := seconds 60.
Definition RATE_LIMIT_ATTEMPTS : nat := 3.
Definition PART_PAUSE_SECONDS : Z := 350000.

(** ** What a thread does and is told *)
(** The form fields of one call. *)
Record payload := mkPayload {
  chat_id : string; p_text : string; p_type : option string; reply_to : option Z; markup : option pyval }.
Record document := mkDocument { d_chat : string; path : string; caption : string; d_reply : option Z }.
Inductive event :=
| Message (p : payload)
| Document (d : document)
| Slept (t : Z)
| ReplyRecorded (command_message : Z) (message_id : Z).

(** A call's answer: delivered, a 429 with its body and [retry_after], or any other exception. *)
Inductive answer :=
| Delivered (message_id : option Z)
| TooMany (body : string) (retry_after : option Z)
| Failed (error : string).
Record Env := { ev_answer : nat -> answer; ev_store : nat -> bool; ev_utc : nat -> string; ev_clock : nat -> Z }.
Record Local := mkLocal { l_step : nat; l_log : list event }.
Definition fresh_local : Local := mkLocal 0 [].

Inductive exn :=
| TelegramRateLimited (text : string) (retry_after : Z) (parts_delivered : Z)
| Refused (text : string)
| StoreError
| Unreadable.                            (* a value of the row that int() refuses *)

(** ** Operations: the table and the thread in, a value or an exception out *)
Definition M (A : Type) : Type := table * Local -> result exn A * (table * Local).
#[export] Instance M_ret : MRet M := fun _ a s => (Ok a, s).
#[export] Instance M_bind : MBind M := fun _ _ f m s =>
  match m s with (Ok a, s) => f a s | (Err e, s) => (Err e, s) end.
Definition raise {A} (e : exn) : M A := fun s => (Err e, s).
Definition attempt {A} (m : M A) : M (result exn A) := fun s => let '(r, s) := m s in (Ok r, s).

Definition log (e : event) : M unit := fun s => (Ok tt, (s.1, mkLocal (l_step s.2) (l_log s.2 ++ [e]))).
(** One interaction with the machine. *)
Definition ask {A} (f : nat -> A) : M A := fun s => (Ok (f (l_step s.2)), (s.1, mkLocal (S (l_step s.2)) (l_log s.2))).
Definition read {A} (f : table -> A) : M A := fun s => (Ok (f s.1), s).
Definition set_row (id : Z) (r : SendRow) : M unit := fun s => (Ok tt, (<[id := r]> s.1, s.2)).

Section Send.
Context (E : Env).

(** A connection block of the store: it gets through, or raises and changes nothing. *)
Definition stored {A} (m : M A) : M A := ok ← ask (ev_store E); if (ok : bool) then m else raise StoreError.

(** ** The rows: [DbaBrainStore] *)
Definition fetch_telegram_send_message (id : Z) : M (option SendRow) := stored (read (fun t => t !! id)).

Definition with_status (status : Z) (date : option string) (r : SendRow) : SendRow :=
  mkRow (row_ins_date r) (tlgchat_id r) (message_text r) status date (message_id r) (reply_message_id r)
    (source_type r) (source_id r) (message_type r) (metadata r).
Definition with_metadata (m : pydict) (r : SendRow) : SendRow :=
  mkRow (row_ins_date r) (tlgchat_id r) (message_text r) (send_status r) (send_date r) (message_id r)
    (reply_message_id r) (source_type r) (source_id r) (message_type r) m.
Definition with_message_id (m : option Z) (r : SendRow) : SendRow :=
  mkRow (row_ins_date r) (tlgchat_id r) (message_text r) (send_status r) (send_date r) m
    (reply_message_id r) (source_type r) (source_id r) (message_type r) (metadata r).

(** Whether this caller took the row. *)
Definition mark_telegram_send_message_processing (id : Z) : M bool :=
  stored (now ← ask (ev_utc E); row ← read (fun t => t !! id);
    match row with
    | Some r => if send_status r =? 0 then _ ← set_row id (with_status 2 (Some now) r); mret true else mret false
    | None => mret false
    end).

(** The reply a command message is answered with, where the row answers one. *)
Definition answered (r : SendRow) (mid : option Z) : option (string * Z) :=
  match source_type r, source_id r, mid with
  | Some t, Some i, Some m =>
      if String.eqb t "telegram_command_messages" && negb (String.eqb i "") && negb (m =? 0) then Some (i, m) else None
  | _, _, _ => None
  end.
Definition mark_telegram_send_message_sent (id : Z) (mid : option Z) : M unit :=
  stored (now ← ask (ev_utc E); row ← read (fun t => t !! id);
    match row with
    | None => mret tt
    | Some r =>
        let r' := with_message_id mid (with_status 1 (Some now) r) in
        match answered r mid with
        | None => set_row id r'
        | Some (i, m) => match int_of_str i with
            | None => raise Unreadable
            | Some i => _ ← set_row id r'; log (ReplyRecorded i m)
            end
        end
    end).

Definition mark_telegram_send_message_failed (id : Z) (fail_text : string) : M unit :=
  stored (now ← ask (ev_utc E); row ← read (fun t => t !! id);
    match row with
    | None => mret tt
    | Some r => set_row id (with_metadata (assoc_set "fail_text" (PStr fail_text) (metadata r)) (with_status (-1) (Some now) r))
    end).

Definition update_with (d extra : pydict) : pydict := fold_left (fun d p => assoc_set p.1 p.2 d) extra d.
Definition reset_telegram_send_message_pending (id : Z) (fail_text : string) (extra : pydict) : M unit :=
  stored (row ← read (fun t => t !! id);
    match row with
    | None => mret tt
    | Some r =>
        set_row id (with_metadata (update_with (assoc_set "last_fail_text" (PStr fail_text) (metadata r)) extra)
          (with_status 0 (send_date r) r))
    end).

(** ** [send_message] *)
Definition _retry_after_seconds (retry_after : option Z) : Z :=
  Z.max 0 (default DEFAULT_RATE_LIMIT_WAIT_SECONDS retry_after).

(** [call_telegram_api] and [call_telegram_multipart_api]: what is delivered is logged. *)
Definition call (e : event) : M (option Z) :=
  a ← ask (ev_answer E);
  match a with
  | Delivered mid => _ ← log e; mret mid
  | TooMany body ra => raise (TelegramRateLimited ("Telegram HTTP 429: " +:+ body) (_retry_after_seconds ra) 0)
  | Failed text => raise (Refused text)
  end.

Fixpoint _send_part_honouring_rate_limit (attempts_left : nat) (p : payload) (wait : bool) : M (option Z) :=
  match attempts_left with
  | O => raise (Refused "Telegram send gave up")
  | S rest =>
      r ← attempt (call (Message p));
      match r with
      | Ok mid => mret mid
      | Err (TelegramRateLimited text ra pd) =>
          if negb wait then raise (TelegramRateLimited text ra pd)
          else if (rest =? 0)%nat || (MAX_RATE_LIMIT_WAIT_SECONDS <? ra) then raise (TelegramRateLimited text ra pd)
          else _ ← log (Slept (Z.min ra MAX_RATE_LIMIT_WAIT_SECONDS));
               _send_part_honouring_rate_limit rest p wait
      | Err e => raise e
      end
  end.

(** A body as it is handed to [send_message]. *)
Record outgoing := mkOutgoing { o_chat : string; o_text : string; o_reply : option Z; o_markup : option pyval; o_type : option string }.
(** The call of part [index] of [count]: the quote on the first, the buttons on the last. *)
Definition part_payload (o : outgoing) (count index : nat) (t : string) : payload :=
  mkPayload (o_chat o) t (o_type o) (if (index =? 0)%nat then o_reply o else None)
    (if (index =? count - 1)%nat then o_markup o else None).

Fixpoint send_parts (o : outgoing) (count index : nat) (start : Z) (wait_before_first_part : bool)
    (parts : list string) (first : option (option Z)) : M (option Z) :=
  match parts with
  | [] => mret (default None first)
  | t :: parts =>
      if Z.of_nat index <? start then send_parts o count (S index) start wait_before_first_part parts first
      else
        let later := start <? Z.of_nat index in
        _ ← (if later then log (Slept PART_PAUSE_SECONDS) else mret tt);
        r ← attempt (_send_part_honouring_rate_limit RATE_LIMIT_ATTEMPTS (part_payload o count index t)
                       (wait_before_first_part || later));
        match r with
        | Ok mid => send_parts o count (S index) start wait_before_first_part parts
                      (Some (default mid first))
        | Err (TelegramRateLimited text ra _) => raise (TelegramRateLimited text ra (Z.of_nat index))
        | Err e => raise e
        end
  end.

Definition send_message (o : outgoing) (wait_before_first_part : bool) (start_part : Z) : M (option Z) :=
  if String.eqb (o_chat o) "" then raise (Refused "Telegram chat id is empty.")
  else if String.eqb (o_text o) "" then raise (Refused "Telegram message text is empty.")
  else
    let parts := split_telegram_message (o_text o) in
    send_parts o (length parts) 0 start_part wait_before_first_part parts None.

Definition send_document (d : document) : M (option Z) :=
  if String.eqb (d_chat d) "" then raise (Refused "Telegram chat id is empty.") else call (Document d).

(** ** [send_one_message] *)
Definition reply_markup_from_metadata (m : pydict) : option pyval :=
  match get m "force_reply" with
  | PBool true => Some (PDict [("force_reply", PBool true); ("selective", PBool true)])
  | _ => match get m "reply_markup" with PDict d => Some (PDict d) | _ => None end
  end.
Definition document_path (m : pydict) : string := strip (str (py_or (get m "document_path") (PStr ""))).
Definition chat_of (r : SendRow) : string := default "" (tlgchat_id r).

(** The local variables that outlive an attempt. *)
Record progress := mkProgress { parts_delivered : Z; document_delivered : bool; document_message_id : pyval }.

Definition stored_progress (m : pydict) : result exn progress :=
  match (match py_int (py_or (get m "parts_delivered") (PInt 0)) with
         | Ok n => Ok n | Err OverflowError => Err Unreadable | Err _ => Ok 0 end) with
  | Ok n => Ok (mkProgress n (match get m "document_delivered" with PBool b => b | _ => false end)
                  (get m "document_message_id"))
  | Err e => Err e
  end.

Definition none_or_int (m : option Z) : pyval := match m with Some m => PInt m | None => PNone end.

(** The text that is sent as a message: the row's, or what follows its document. *)
Definition outgoing_of (r : SendRow) : outgoing :=
  if String.eqb (document_path (metadata r)) "" then
    mkOutgoing (chat_of r) (message_text r) (reply_message_id r) (reply_markup_from_metadata (metadata r)) (message_type r)
  else mkOutgoing (chat_of r) (document_caption (message_text r)).2 None None (message_type r).
Definition document_of (r : SendRow) : document :=
  mkDocument (chat_of r) (document_path (metadata r)) (document_caption (message_text r)).1 (reply_message_id r).

(** [timeout_seconds] of the metadata, which [int()] may refuse. *)
Definition timeout_ok (m : pydict) : bool :=
  result_is_ok (py_int (py_or (get m "timeout_seconds") (PInt 60))).

(** One turn of the retry loop: what is known after it, and the id of the row's message. *)
Definition send_body (wait : bool) (r : SendRow) (p : progress) : M (progress * result exn pyval) :=
  if String.eqb (document_path (metadata r)) "" then
    a ← attempt (send_message (outgoing_of r) wait (parts_delivered p));
    mret (p, none_or_int <$> a)
  else
    d ← (if document_delivered p then mret (p, Ok tt)
         else if negb (timeout_ok (metadata r)) then mret (p, Err (Refused "timeout_seconds"))
         else
           a ← attempt (send_document (document_of r));
           mret (match a with
                 | Ok mid => (mkProgress (parts_delivered p) true (none_or_int mid), Ok tt)
                 | Err e => (p, Err e) end));
    let '(p, done_) := (d : progress * result exn unit) in
    match done_ with
    | Err e => mret (p, Err e)
    | Ok _ =>
        if String.eqb (o_text (outgoing_of r)) "" then mret (p, Ok (document_message_id p))
        else
          a ← attempt (send_message (outgoing_of r) wait (parts_delivered p));
          mret (p, (fun _ => document_message_id p) <$> a)
    end.

(** How the retries ended: the message is out, or the last error and whether it was a 429. *)
Inductive ending := Out (mid : pyval) | GaveUp (p : progress) (last_error : string) (limited : option Z).

Definition exn_text (e : exn) : string :=
  match e with TelegramRateLimited t _ _ => t | Refused t => t | _ => "" end.
Fixpoint retries (n : nat) (wait : bool) (r : SendRow) (p : progress) (last : string * option Z) : M ending :=
  match n with
  | O => mret (GaveUp p last.1 last.2)
  | S n =>
      b ← send_body wait r p;
      match b with
      | (_, Ok mid) => mret (Out mid)
      | (p, Err (TelegramRateLimited text ra pd)) =>
          let p := mkProgress (Z.max (parts_delivered p) pd) (document_delivered p) (document_message_id p) in
          if negb wait then mret (GaveUp p text (Some ra))
          else _ ← log (Slept (Z.min ra MAX_RATE_LIMIT_WAIT_SECONDS)); retries n wait r p (text, Some ra)
      | (p, Err e) => retries n wait r p (exn_text e, None)
      end
  end.

Fixpoint _record_sent (attempts_left : nat) (id : Z) (mid : option Z) : M unit :=
  match attempts_left with
  | O => mret tt
  | S rest =>
      a ← attempt (mark_telegram_send_message_sent id mid);
      match a with
      | Ok _ => mret tt
      | Err _ => if (rest =? 0)%nat then mret tt
                 else _ ← log (Slept RECORD_SENT_PAUSE_SECONDS); _record_sent rest id mid
      end
  end.

(** [extract_sent_message_id] *)
Definition extract_sent_message_id (mid : pyval) : result exn (option Z) :=
  match mid with PNone => Ok None | v => match py_int v with Ok m => Ok (Some m) | Err _ => Err Unreadable end end.

Inductive status := NotFound | NotPending | Sent | RateLimited (retry_after : Z) | DeliveryFailed.

Definition resume_of (p : progress) : pydict :=
  (if parts_delivered p =? 0 then [] else [("parts_delivered", PInt (parts_delivered p))]) ++
  (if document_delivered p then [("document_delivered", PBool true); ("document_message_id", document_message_id p)] else []).

Definition lift {A} (r : result exn A) : M A := fun s => (r, s).

Definition send_one_message (retry_count : Z) (wait_on_rate_limit : bool) (id : Z) : M status :=
  row ← fetch_telegram_send_message id;
  match row with
  | None => mret NotFound
  | Some r =>
      if negb (send_status r =? 0) then mret NotPending else
      took ← mark_telegram_send_message_processing id;
      if negb took then mret NotPending else
      p ← lift (stored_progress (metadata r));
      e ← retries (Z.to_nat (Z.max 1 retry_count)) wait_on_rate_limit r p ("", None);
      match e with
      | Out mid =>
          mid ← lift (extract_sent_message_id mid);
          _ ← _record_sent RECORD_SENT_ATTEMPTS id mid;
          mret Sent
      | GaveUp p error (Some ra) =>
          _ ← reset_telegram_send_message_pending id error (resume_of p);
          mret (RateLimited ra)
      | GaveUp p error None =>
          let error := if document_delivered p
            then "the document was delivered; the text that follows it was not: " +:+ error else error in
          _ ← mark_telegram_send_message_failed id error;
          mret DeliveryFailed
      end
  end.
End Send.

(** ** The queue: which rows a pass takes *)
Definition is_stale (cutoff : string) (r : SendRow) : bool :=
  (send_status r =? 2) && match send_date r with None => true | Some d => str_lt d cutoff end.
Definition requeue_stale_telegram_send_messages (cutoff : string) (t : table) : table * nat :=
  ((fun r => if is_stale cutoff r then with_status 0 None r else r) <$> t,
   length (List.filter (fun p => is_stale cutoff p.2) (map_to_list t))).

(** [ORDER BY row_ins_date, send_tlgmsg_id] *)
Definition older (x y : Z * SendRow) : bool :=
  str_lt (row_ins_date x.2) (row_ins_date y.2) ||
  (String.eqb (row_ins_date x.2) (row_ins_date y.2) && (x.1 <=? y.1)).
(** [ROW_NUMBER() OVER (PARTITION BY tlgchat_id ...)] *)
Fixpoint ranked (seen : list (option string)) (l : list (Z * SendRow)) : list (nat * (Z * SendRow)) :=
  match l with
  | [] => []
  | x :: l =>
      let c := tlgchat_id x.2 in
      (S (length (List.filter (fun c' => bool_decide (c' = c)) seen)), x) :: ranked (c :: seen) l
  end.
Definition by_rank (x y : nat * (Z * SendRow)) : bool :=
  (x.1 <? y.1)%nat || ((x.1 =? y.1)%nat && older x.2 y.2).
Definition pending_rows (t : table) : list (Z * SendRow) :=
  sort_by older (List.filter (fun p => send_status p.2 =? 0) (map_to_list t)).
(** A negative [LIMIT] is none. *)
Definition sql_limit {A} (limit : Z) (l : list A) : list A := if limit <? 0 then l else take (Z.to_nat limit) l.
Definition fetch_pending_telegram_send_messages (limit : Z) (per_chat : option Z) (t : table) : list (Z * SendRow) :=
  match per_chat with
  | None => sql_limit limit (pending_rows t)
  | Some n =>
      sql_limit limit (map snd (sort_by by_rank
        (List.filter (fun x => Z.of_nat x.1 <=? Z.max 1 n) (ranked [] (pending_rows t)))))
  end.

(** ** A send pass *)
Record settings := mkSettings {
  retry_count : Z; budget : option Z; started : Z; pauses : list (string * Z) }.

(** One thread: the rows of a chat it has still to send, its counts, and how it ended: with
    the pause Telegram asked for, if any, or with an exception. *)
Record task := mkTask {
  t_chat : string; todo : list Z; t_sent : Z; t_failed : Z; t_deferred : Z;
  t_end : option (result exn (option Z)) }.
Definition ended (k : task) (deferred : Z) (e : result exn (option Z)) : task :=
  mkTask (t_chat k) (todo k) (t_sent k) (t_failed k) deferred (Some e).
Definition deferring_all (k : task) (pause : option Z) : task :=
  ended k (t_deferred k + Z.of_nat (length (todo k))) (Ok pause).

Definition out_of_budget (E : Env) (cfg : settings) : M bool :=
  match budget cfg with
  | None => mret false
  | Some b => now ← ask (ev_clock E); mret (b <=? now - started cfg)
  end.

(** One turn of [send_chat]'s loop. *)
Definition chat_step (E : Env) (cfg : settings) (k : task) : M task :=
  match t_end k, todo k with
  | Some _, _ => mret k
  | None, [] => mret (ended k (t_deferred k) (Ok None))
  | None, id :: rest =>
      out ← out_of_budget E cfg;
      if (out : bool) then mret (deferring_all k None)
      else
        r ← attempt (send_one_message E (retry_count cfg) false id);
        mret (match r with
        | Err e => ended k (t_deferred k) (Err e)
        | Ok (RateLimited ra) =>
            deferring_all k (Some (if ra =? 0 then DEFAULT_RATE_LIMIT_WAIT_SECONDS else ra))
        | Ok Sent => mkTask (t_chat k) rest (t_sent k + 1) (t_failed k) (t_deferred k) None
        | Ok NotPending => mkTask (t_chat k) rest (t_sent k) (t_failed k) (t_deferred k) None
        | Ok NotFound | Ok DeliveryFailed =>
            mkTask (t_chat k) rest (t_sent k) (t_failed k + 1) (t_deferred k) None
        end)
  end.

(** [send_chat], up to its loop. *)
Definition start_chat (cfg : settings) (chat : string) (ids : list Z) : task :=
  let k := mkTask chat ids 0 0 0 None in
  match assoc chat (pauses cfg) with Some _ => deferring_all k None | None => k end.

Definition by_chat (rows : list (Z * SendRow)) : list (string * list Z) :=
  fold_left (fun d p => assoc_set (chat_of p.2) (default [] (assoc (chat_of p.2) d) ++ [p.1]) d) rows [].

(** The threads side by side: a schedule says whose turn it is. *)
#[global] Abbreviation threads := (list (task * Local)).
Definition thread_step (E : string -> Env) (cfg : settings) (s : table * threads) (i : nat) : table * threads :=
  match s.2 !! i with
  | None => s
  | Some (k, l) =>
      match chat_step (E (t_chat k)) cfg k (s.1, l) with
      | (Ok k', (t, l')) => (t, <[i := (k', l')]> s.2)
      | (Err _, (t, l')) => (t, <[i := (k, l')]> s.2)
      end
  end.
Definition run_threads (E : string -> Env) (cfg : settings) (schedule : list nat) (s : table * threads) : table * threads :=
  fold_left (thread_step E cfg) schedule s.
Definition all_ended (ths : threads) : bool := forallb (fun p => match t_end p.1 with Some _ => true | None => false end) ths.

Record counts := mkCounts {
  n_read : nat; n_sent : Z; n_failed : Z; n_deferred : Z; n_paused_chats : nat; n_requeued : nat; n_errors : nat }.
Definition collect (now : string -> Z) (s : counts * list (string * Z)) (k : task) : counts * list (string * Z) :=
  let '(c, ps) := s in
  match t_end k with
  | Some (Ok pause) =>
      (mkCounts (n_read c) (n_sent c + t_sent k) (n_failed c + t_failed k) (n_deferred c + t_deferred k)
         (n_paused_chats c) (n_requeued c) (n_errors c),
       match pause with Some p => assoc_set (t_chat k) (now (t_chat k) + p) ps | None => ps end)
  | Some (Err _) =>
      (mkCounts (n_read c) (n_sent c) (n_failed c) (n_deferred c) (n_paused_chats c) (n_requeued c) (S (n_errors c)), ps)
  | None => s
  end.

(** The pauses a pass reads back: those still running. *)
Definition running_pauses (now : Z) (ps : list (string * Z)) : list (string * Z) := List.filter (fun p => now <? p.2) ps.

Definition start_pass (cfg : settings) (rows : list (Z * SendRow)) : threads :=
  map (fun p => (start_chat cfg p.1 p.2, fresh_local)) (by_chat rows).

(** The pass, on a schedule that lets every thread end. *)
Definition send_pending_messages (E : string -> Env) (now : string -> Z) (cfg : settings) (cutoff : string)
    (limit per_chat : Z) (schedule : list nat) (t : table) : option (table * threads * (counts * list (string * Z))) :=
  let '(t, requeued) := requeue_stale_telegram_send_messages cutoff t in
  let rows := fetch_pending_telegram_send_messages limit (Some per_chat) t in
  let '(t, ths) := run_threads E cfg schedule (t, start_pass cfg rows) in
  if all_ended ths then
    let '(c, ps) := fold_left (collect now) (map fst ths) (mkCounts (length rows) 0 0 0 0 requeued 0, pauses cfg) in
    Some (t, ths, (mkCounts (n_read c) (n_sent c) (n_failed c) (n_deferred c) (length ps) (n_requeued c) (n_errors c), ps))
  else None.
