(* ===== verification/TelegramRows.v ===== *)
(** * The rows of a send pass ([db/store_telegram.py], [telegram/send_queue.py]): which
    rows it takes, and whose they are. *)

From S2P Require Import Prelude Py PyTime TelegramText TelegramQueue.

(** ** The rows of a pass, chat by chat *)
Definition of_chat (c : string) (p : Z * SendRow) : bool := String.eqb (chat_of p.2) c.

Lemma by_chat_fold c rows : forall d,
  default [] (assoc c (fold_left (fun d p => assoc_set (chat_of p.2) (default [] (assoc (chat_of p.2) d) ++ [p.1]) d) rows d)) =
  default [] (assoc c d) ++ map fst (List.filter (of_chat c) rows).
Proof.
  induction rows as [|x rows IH]; intros d; cbn; [by rewrite app_nil_r|].
  rewrite IH. unfold of_chat at 2. destruct (String.eqb_spec (chat_of x.2) c) as [<-|Hne].
  - rewrite assoc_set_eq. cbn. by rewrite <-app_assoc.
  - by rewrite assoc_set_ne.
Qed.
Lemma by_chat_keys rows : NoDup (map fst (by_chat rows)).
Proof.
  unfold by_chat. set (f := fun d p => _). assert (forall d, NoDup (map fst d) -> NoDup (map fst (fold_left f rows d))) as H.
  { induction rows as [|x rows IH]; intros d Hd; [done|]. cbn. apply IH. by apply assoc_set_NoDup. }
  apply H. constructor.
Qed.
Lemma by_chat_ids c ids rows : (c, ids) ∈ by_chat rows -> ids = map fst (List.filter (of_chat c) rows).
Proof.
  intros H. apply assoc_elem in H; [|apply by_chat_keys]. pose proof (by_chat_fold c rows []) as Hf.
  unfold by_chat in H. rewrite H in Hf. done.
Qed.

Lemma start_pass_lookup cfg rows i p : start_pass cfg rows !! i = Some p ->
  exists c ids, by_chat rows !! i = Some (c, ids) /\ p = (start_chat cfg c ids, fresh_local) /\ t_chat p.1 = c /\ todo p.1 = ids.
Proof.
  unfold start_pass. change (map ?f ?l) with (f <$> l). rewrite list_lookup_fmap.
  destruct (by_chat rows !! i) as [[c ids]|]; [|done]. intros [= <-]. exists c, ids.
  repeat split; cbn; unfold start_chat; by destruct (assoc c (pauses cfg)).
Qed.

Lemma threads_disjoint cfg rows : NoDup (map fst rows) ->
  forall i j p q id, start_pass cfg rows !! i = Some p -> start_pass cfg rows !! j = Some q ->
    id ∈ todo p.1 -> id ∈ todo q.1 -> i = j.
Proof.
  intros Hnd i j p q id (c & ids & Hi & _ & _ & ->)%start_pass_lookup (c' & ids' & Hj & _ & _ & ->)%start_pass_lookup Hp Hq.
  rewrite (by_chat_ids c ids rows) in Hp by by eapply list_elem_of_lookup_2.
  rewrite (by_chat_ids c' ids' rows) in Hq by by eapply list_elem_of_lookup_2.
  apply list_elem_of_fmap in Hp as (x & -> & Hx), Hq as (y & Exy & Hy).
  apply elem_of_filter_bool in Hx as [Hx Hc], Hy as [Hy Hc'].
  rewrite (NoDup_map_inj fst rows x y Hnd Hx Hy Exy) in Hc.
  apply String.eqb_eq in Hc, Hc'. assert (c = c') as <- by congruence.
  eapply (NoDup_lookup (map fst (by_chat rows))); [apply by_chat_keys|..];
    change (map ?f ?l) with (f <$> l); rewrite list_lookup_fmap; [by rewrite Hi|by rewrite Hj].
Qed.

Lemma map_fst_pending t : NoDup (map fst (pending_rows t)).
Proof.
  unfold pending_rows. rewrite (Permutation_map fst (sort_by_perm _ _)).
  eapply sublist_NoDup; [|apply map_filter_sublist]. apply (NoDup_fst_map_to_list t).
Qed.
Lemma map_snd_ranked seen l : map snd (ranked seen l) = l.
Proof. revert seen. induction l as [|x l IH]; intros seen; cbn; [done|]. by rewrite IH. Qed.
Lemma sublist_map {A B} (f : A -> B) l1 l2 : sublist l1 l2 -> sublist (map f l1) (map f l2).
Proof. induction 1; cbn; by constructor. Qed.
Lemma sql_limit_sublist {A} n (l : list A) : sublist (sql_limit n l) l.
Proof. unfold sql_limit. destruct (n <? 0); [done|]. apply sublist_take. Qed.
Lemma fetch_NoDup limit per_chat t : NoDup (map fst (fetch_pending_telegram_send_messages limit per_chat t)).
Proof.
  unfold fetch_pending_telegram_send_messages. destruct per_chat as [n|].
  - eapply sublist_NoDup; [|apply (sublist_map fst), sql_limit_sublist].
    
    rewrite (Permutation_map fst (Permutation_map snd (sort_by_perm by_rank _))).
    eapply sublist_NoDup; [|apply (sublist_map fst), map_filter_sublist].
     rewrite map_snd_ranked. apply map_fst_pending.
  - eapply sublist_NoDup; [apply map_fst_pending|]. apply (sublist_map fst), sql_limit_sublist.
Qed.

(** ** Which rows a pass takes *)
(** The older rows of its chat that wait before a row. *)
Definition before_it (x z : Z * SendRow) : bool :=
  bool_decide (tlgchat_id z.2 = tlgchat_id x.2) && older z x && negb (z.1 =? x.1).
Definition waiting (t : table) (x : Z * SendRow) : nat := length (List.filter (before_it x) (pending_rows t)).

Lemma older_spec x y : older x y = true <->
  String.leb (row_ins_date x.2) (row_ins_date y.2) = true /\ (row_ins_date x.2 = row_ins_date y.2 -> x.1 <= y.1).
Proof.
  unfold older, str_lt. rewrite orb_true_iff, andb_true_iff, negb_true_iff, String.eqb_eq, Z.leb_le. split.
  - intros [H|[H1 H2]].
    + split; [destruct (String.leb_total (row_ins_date x.2) (row_ins_date y.2)); congruence|].
      intros E. rewrite E, leb_refl in H. done.
    + split; [rewrite H1; apply leb_refl|done].
  - intros [H1 H2]. destruct (String.leb (row_ins_date y.2) (row_ins_date x.2)) eqn:E; [|by left].
    right. assert (row_ins_date x.2 = row_ins_date y.2) as Hd by by apply String.leb_antisym. auto.
Qed.
Lemma older_total x y : older x y = true \/ older y x = true.
Proof.
  rewrite !older_spec. destruct (decide (row_ins_date x.2 = row_ins_date y.2)) as [E|E].
  - rewrite E, leb_refl. destruct (Z.le_ge_cases x.1 y.1); [left|right]; auto.
  - destruct (String.leb_total (row_ins_date x.2) (row_ins_date y.2)); [left|right]; split; try done; congruence.
Qed.
Lemma older_trans x y z : older x y = true -> older y z = true -> older x z = true.
Proof.
  rewrite !older_spec. intros [H1 H2] [H3 H4]. split; [by eapply leb_trans|]. intros E.
  assert (row_ins_date x.2 = row_ins_date y.2) as Exy.
  { apply String.leb_antisym; [done|]. by rewrite E. }
  assert (row_ins_date y.2 = row_ins_date z.2) as Eyz by congruence.
  specialize (H2 Exy). specialize (H4 Eyz). lia.
Qed.
Lemma older_antisym x y : older x y = true -> older y x = true -> x.1 = y.1.
Proof.
  rewrite !older_spec. intros [H1 H2] [H3 H4].
  assert (row_ins_date x.2 = row_ins_date y.2) as E by by apply String.leb_antisym.
  specialize (H2 E). specialize (H4 (eq_sym E)). lia.
Qed.

Lemma by_rank_spec x y : by_rank x y = true <-> (x.1 < y.1)%nat \/ (x.1 = y.1 /\ older x.2 y.2 = true).
Proof. unfold by_rank. by rewrite orb_true_iff, andb_true_iff, Nat.ltb_lt, Nat.eqb_eq. Qed.
Lemma by_rank_total x y : by_rank x y = true \/ by_rank y x = true.
Proof. rewrite !by_rank_spec. destruct (older_total x.2 y.2); destruct (Nat.lt_trichotomy x.1 y.1) as [|[|]]; auto. Qed.
Lemma by_rank_trans x y z : by_rank x y = true -> by_rank y z = true -> by_rank x z = true.
Proof.
  rewrite !by_rank_spec. intros [H1|[H1 H2]] [H3|[H3 H4]]; [left; lia..|].
  right. split; [congruence|by eapply older_trans].
Qed.

Lemma filter_perm {A} (p : A -> bool) l1 l2 : l1 ≡ₚ l2 -> List.filter p l1 ≡ₚ List.filter p l2.
Proof. induction 1; cbn; repeat case_match; eauto using perm_trans, perm_swap, perm_skip. Qed.
(** The rank of a row: one more than the rows of its chat before it. *)
Lemma ranked_elem seen l n x : (n, x) ∈ ranked seen l -> exists l1 l2, l = l1 ++ x :: l2 /\
  n = S (length (List.filter (fun c => bool_decide (c = tlgchat_id x.2)) (map (fun z => tlgchat_id z.2) l1 ++ seen))).
Proof.
  revert seen. induction l as [|y l IH]; intros seen; cbn [ranked]; [by intros ?%elem_of_nil|].
  intros [[= -> ->]|H]%list.elem_of_cons; [by exists [], l|].
  destruct (IH _ H) as (l1 & l2 & -> & ->). exists (y :: l1), l2. split; [done|]. f_equal. cbn [map app].
  apply Permutation_length, filter_perm. by rewrite Permutation_middle.
Qed.

Lemma filter_map_length {A B} (f : A -> B) (p : B -> bool) l :
  length (List.filter p (map f l)) = length (List.filter (fun x => p (f x)) l).
Proof. induction l as [|x l IH]; cbn; [done|]. destruct (p (f x)); cbn; by rewrite IH. Qed.
Lemma filter_ext_in {A} (p q : A -> bool) l : (forall x, x ∈ l -> p x = q x) -> List.filter p l = List.filter q l.
Proof.
  induction l as [|x l IH]; cbn; intros H; [done|]. rewrite (H x) by left. rewrite IH; [done|]. intros y Hy. apply H. by right.
Qed.

Lemma pending_sorted t : StronglySorted (fun x y => older x y = true) (pending_rows t).
Proof. apply sort_by_sorted; [apply older_total|apply older_trans]. Qed.

Lemma rank_waiting t n x : NoDup (map fst (pending_rows t)) -> (n, x) ∈ ranked [] (pending_rows t) -> n = S (waiting t x).
Proof.
  intros Hnd H. apply ranked_elem in H as (l1 & l2 & E & ->). f_equal. rewrite app_nil_r.
  pose proof (pending_sorted t) as Hs. unfold waiting. rewrite E in *. rewrite List.filter_app, length_app, filter_map_length.
  rewrite map_app in Hnd. cbn in Hnd. apply list.NoDup_app in Hnd as (_ & Hout & Hnd).
  apply list.NoDup_cons in Hnd as [Hx _].
  assert (forall y, y ∈ l1 -> older y x = true /\ y.1 <> x.1) as H1.
  { intros y Hy. split.
    - apply list_elem_of_lookup in Hy as [i Hi]. rewrite StronglySorted_app in Hs. destruct Hs as (Hs & _ & _).
      apply Hs; [by eapply list_elem_of_lookup_2|by left].
    - intros Exy. apply (Hout y.1); [apply list_elem_of_fmap; by exists y|]. rewrite Exy. by left. }
  assert (forall y, y ∈ l2 -> before_it x y = false) as H2.
  { intros y Hy. unfold before_it. apply andb_false_iff. destruct (older y x) eqn:Eo; [|left; by rewrite andb_false_r].
    exfalso. apply Hx, list_elem_of_fmap. exists y. split; [|done].
    rewrite StronglySorted_app in Hs. destruct Hs as (_ & _ & Hs). apply StronglySorted_inv in Hs as [_ Hs].
    rewrite list.Forall_forall in Hs. apply older_antisym; [by apply Hs|done]. }
  cbn [List.filter]. assert (before_it x x = false) as ->.
  { unfold before_it. rewrite Z.eqb_refl. cbn. apply andb_false_r. }
  rewrite (filter_false (before_it x) l2 H2). cbn. rewrite Nat.add_0_r. f_equal. apply filter_ext_in.
  intros y Hy. destruct (H1 y Hy) as [Ho Hne]. unfold before_it. rewrite Ho. apply Z.eqb_neq in Hne. rewrite Hne.
  cbn. by rewrite !andb_true_r.
Qed.

Lemma elem_of_ranked seen l x : x ∈ l -> exists n, (n, x) ∈ ranked seen l.
Proof.
  intros Hx. rewrite <-(map_snd_ranked seen l) in Hx. apply list_elem_of_fmap in Hx as ([n y] & -> & H). by exists n.
Qed.

(** Before the limit: the rows of small rank, by rank. *)
Definition within (n : Z) (t : table) : list (nat * (Z * SendRow)) :=
  sort_by by_rank (List.filter (fun x => Z.of_nat x.1 <=? Z.max 1 n) (ranked [] (pending_rows t))).
Lemma within_elem n t k x : (k, x) ∈ within n t -> x ∈ pending_rows t /\ k = S (waiting t x) /\ Z.of_nat k <= Z.max 1 n.
Proof.
  unfold within. rewrite elem_of_sort_by, elem_of_filter_bool, Z.leb_le. intros [H1 H2]. split; [|split; [|done]].
  - rewrite <-(map_snd_ranked [] (pending_rows t)). apply list_elem_of_fmap. by exists (k, x).
  - apply rank_waiting; [apply map_fst_pending|done].
Qed.

Lemma taken_prefix {A} limit (l : list A) : exists rest, l = sql_limit limit l ++ rest.
Proof. unfold sql_limit. destruct (limit <? 0); [exists []; by rewrite app_nil_r|]. exists (drop (Z.to_nat limit) l). by rewrite take_drop. Qed.
Lemma sql_limit_map {A B} (f : A -> B) limit l : sql_limit limit (map f l) = map f (sql_limit limit l).
Proof. unfold sql_limit. destruct (limit <? 0); [done|]. by rewrite firstn_map. Qed.

(** A pass takes pending rows only, fewer than send_per_chat older ones of the chat wait
    before each, and a pending row it leaves behind has at least as many older rows of its chat
    before it as any row it takes: no chat waits behind the backlog of another. *)
Lemma no_chat_waits_behind_another limit n t :
  let rows := fetch_pending_telegram_send_messages limit (Some n) t in
  forall y, y ∈ rows -> y ∈ pending_rows t /\ Z.of_nat (waiting t y) < Z.max 1 n /\
    forall x, x ∈ pending_rows t -> x ∉ rows -> (waiting t y <= waiting t x)%nat.
Proof.
  cbn zeta. unfold fetch_pending_telegram_send_messages. fold (within n t). rewrite sql_limit_map.
  destruct (taken_prefix limit (within n t)) as [rest Er]. intros y Hy.
  apply list_elem_of_fmap in Hy as ([k y'] & -> & Hy). cbn [snd].
  destruct (within_elem n t k y') as (Hp & -> & Hk). { rewrite Er. apply elem_of_app. by left. }
  split; [done|]. split; [lia|]. intros x Hx Hnot. destruct (elem_of_ranked [] _ x Hx) as [m Hm].
  pose proof (rank_waiting t m x (map_fst_pending t) Hm) as ->.
  destruct (decide (Z.of_nat (S (waiting t x)) <= Z.max 1 n)) as [Hle|Hgt]; [|lia].
  assert ((S (waiting t x), x) ∈ rest) as Hin.
  { assert ((S (waiting t x), x) ∈ within n t) as Hin.
    { unfold within. rewrite elem_of_sort_by, elem_of_filter_bool, Z.leb_le. by split. }
    rewrite Er in Hin. apply elem_of_app in Hin as [Hin|Hin]; [|done]. exfalso. apply Hnot, list_elem_of_fmap.
    by exists (S (waiting t x), x). }
  pose proof (sort_by_sorted by_rank by_rank_total by_rank_trans
    (List.filter (fun x => Z.of_nat x.1 <=? Z.max 1 n) (ranked [] (pending_rows t)))) as Hs.
  fold (within n t) in Hs. rewrite Er, StronglySorted_app in Hs. destruct Hs as (Hs & _ & _).
  specialize (Hs _ _ Hy Hin). apply by_rank_spec in Hs. cbn in Hs. lia.
Qed.

(** ** A small queue *)
Definition row_of (date chat text : string) : SendRow :=
  mkRow date (Some chat) text 0 None None None None None None [].
Definition sample_rows : list (Z * SendRow) :=
  [(1, row_of "2026-01-01T10:00:00Z" "a" "one"); (2, row_of "2026-01-01T10:00:01Z" "a" "two");
   (3, row_of "2026-01-01T10:00:02Z" "a" "three"); (4, row_of "2026-01-01T10:00:03Z" "b" "four")].
Definition sample_queue : table := list_to_map sample_rows.

Lemma no_chat_waits_behind_another_witness :
  let y := (4, row_of "2026-01-01T10:00:03Z" "b" "four") in
  y ∈ fetch_pending_telegram_send_messages 2 (Some 5) sample_queue /\
  forall x, x ∈ pending_rows sample_queue -> x ∉ fetch_pending_telegram_send_messages 2 (Some 5) sample_queue ->
    (waiting sample_queue y <= waiting sample_queue x)%nat.
Proof.
  cbn zeta. assert ((4, row_of "2026-01-01T10:00:03Z" "b" "four") ∈ fetch_pending_telegram_send_messages 2 (Some 5) sample_queue) as H.
  { apply (list_elem_of_lookup_2 _ 1). vm_compute. reflexivity. }
  split; [exact H|]. apply (no_chat_waits_behind_another 2 5 sample_queue _ H).
Defined.
