(* ===== verification/TelegramThreads.v ===== *)
(** * The threads of a send pass ([telegram/send_queue.py]): a send touches its own row
    only, so the threads of a pass do not disturb each other; and the order within a chat. *)

From S2P Require Import Prelude Py PyTime TelegramText TelegramQueue TelegramRows.

(** ** An operation touches its own row only *)
Definition on_row {A} (id : Z) (m : M A) : Prop := forall t1 t2 l, t1 !! id = t2 !! id ->
  (m (t1, l)).1 = (m (t2, l)).1 /\ (m (t1, l)).2.2 = (m (t2, l)).2.2 /\
  (m (t1, l)).2.1 !! id = (m (t2, l)).2.1 !! id /\
  forall j, j <> id -> (m (t1, l)).2.1 !! j = t1 !! j.

Lemma on_row_const {A} id (f : Local -> result exn A * Local) :
  on_row id (fun s => ((f s.2).1, (s.1, (f s.2).2))).
Proof. intros t1 t2 l H. by cbn. Qed.
Lemma on_row_ret {A} id (a : A) : on_row id (mret a).
Proof. apply (on_row_const id (fun l => (Ok a, l))). Qed.
Lemma on_row_raise {A} id e : on_row id (raise (A := A) e).
Proof. apply (on_row_const id (fun l => (Err e, l))). Qed.
Lemma on_row_lift {A} id (r : result exn A) : on_row id (lift r).
Proof. apply (on_row_const id (fun l => (r, l))). Qed.
Lemma on_row_log id e : on_row id (log e).
Proof. apply (on_row_const id (fun l => (Ok tt, mkLocal (l_step l) (l_log l ++ [e])))). Qed.
Lemma on_row_ask {A} id (f : nat -> A) : on_row id (ask f).
Proof. apply (on_row_const id (fun l => (Ok (f (l_step l)), mkLocal (S (l_step l)) (l_log l)))). Qed.
Lemma on_row_read id : on_row id (read (fun t => t !! id)).
Proof. intros t1 t2 l H. cbn. by rewrite H. Qed.
Lemma on_row_set id r : on_row id (set_row id r).
Proof. intros t1 t2 l H. unfold set_row. cbn [fst snd]. rewrite !lookup_insert_eq. repeat split.
  intros j Hj. by rewrite lookup_insert_ne. Qed.
Lemma on_row_bind {A B} id (m : M A) (f : A -> M B) : on_row id m -> (forall a, on_row id (f a)) -> on_row id (m ≫= f).
Proof.
  intros Hm Hf t1 t2 l H. unfold mbind, M_bind. specialize (Hm t1 t2 l H).
  destruct (m (t1, l)) as [r1 [t1' l1]], (m (t2, l)) as [r2 [t2' l2]]. cbn in Hm.
  destruct Hm as (-> & -> & Ht & Ho). destruct r2 as [a|e]; [|done].
  destruct (Hf a t1' t2' l2 Ht) as (E1 & E2 & E3 & E4). repeat split; [done..|].
  intros j Hj. by rewrite E4, Ho.
Qed.
Lemma on_row_attempt {A} id (m : M A) : on_row id m -> on_row id (attempt m).
Proof.
  intros Hm t1 t2 l H. unfold attempt. specialize (Hm t1 t2 l H).
  destruct (m (t1, l)) as [r1 [t1' l1]], (m (t2, l)) as [r2 [t2' l2]]. cbn in *. by destruct Hm as (-> & -> & ? & ?).
Qed.
Create HintDb on_row discriminated.
#[export] Hint Resolve on_row_ret on_row_raise on_row_lift on_row_log on_row_ask on_row_read on_row_set
  on_row_bind on_row_attempt : on_row.

(** Case analysis down to the operations. *)
Ltac on_row := repeat first
  [ progress auto with on_row
  | apply on_row_bind; [|intros ?] | apply on_row_attempt
  | match goal with
    | |- on_row _ (let x := _ in _) => cbv zeta
    | |- on_row _ (match ?x with _ => _ end) => destruct x
    | |- on_row _ (let '(_, _) := ?x in _) => destruct x
    end ].

Section OneRow.
Context (E : Env) (id : Z).

Lemma on_row_stored {A} (m : M A) : on_row id m -> on_row id (stored E m).
Proof. intros H. unfold stored. on_row. Qed.
Lemma on_row_fetch : on_row id (fetch_telegram_send_message E id).
Proof. apply on_row_stored. on_row. Qed.
Lemma on_row_mark : on_row id (mark_telegram_send_message_processing E id).
Proof. apply on_row_stored. on_row. Qed.
Lemma on_row_sent mid : on_row id (mark_telegram_send_message_sent E id mid).
Proof. apply on_row_stored. on_row. Qed.
Lemma on_row_failed text : on_row id (mark_telegram_send_message_failed E id text).
Proof. apply on_row_stored. on_row. Qed.
Lemma on_row_reset text extra : on_row id (reset_telegram_send_message_pending E id text extra).
Proof. apply on_row_stored. on_row. Qed.
Lemma on_row_call e : on_row id (call E e).
Proof. unfold call. on_row. Qed.
#[local] Hint Resolve on_row_fetch on_row_mark on_row_sent on_row_failed on_row_reset on_row_call : on_row.

Lemma on_row_part n p wait : on_row id (_send_part_honouring_rate_limit E n p wait).
Proof. induction n; cbn [_send_part_honouring_rate_limit]; on_row. Qed.
#[local] Hint Resolve on_row_part : on_row.
Lemma on_row_parts o count parts start wait : forall index first, on_row id (send_parts E o count index start wait parts first).
Proof. induction parts as [|p parts IH]; intros index first; cbn [send_parts]; on_row. Qed.
#[local] Hint Resolve on_row_parts : on_row.
Lemma on_row_message o wait start : on_row id (send_message E o wait start).
Proof. unfold send_message. on_row. Qed.
Lemma on_row_document d : on_row id (send_document E d).
Proof. unfold send_document. on_row. Qed.
#[local] Hint Resolve on_row_message on_row_document : on_row.
Lemma on_row_body wait r p : on_row id (send_body E wait r p).
Proof. unfold send_body. on_row. Qed.
#[local] Hint Resolve on_row_body : on_row.
Lemma on_row_retries n wait r : forall p last, on_row id (retries E n wait r p last).
Proof. induction n; intros p last; cbn [retries]; on_row. Qed.
Lemma on_row_record n mid : on_row id (_record_sent E n id mid).
Proof. induction n; cbn [_record_sent]; on_row. Qed.
#[local] Hint Resolve on_row_retries on_row_record : on_row.
Lemma on_row_send_one n wait : on_row id (send_one_message E n wait id).
Proof. unfold send_one_message. on_row. Qed.
End OneRow.

(** ** Threads side by side *)
Section Threads.
Context (E : string -> Env) (cfg : settings).

Definition agree (O : list Z) (t1 t2 : table) : Prop := forall id, id ∈ O -> t1 !! id = t2 !! id.

(** A thread's turn, when it runs alone. *)
Definition turn (s : table * (task * Local)) : table * (task * Local) :=
  let '(k, l) := s.2 in
  match chat_step (E (t_chat k)) cfg k (s.1, l) with
  | (Ok k', (t, l')) => (t, (k', l'))
  | (Err _, (t, l')) => (t, (k, l'))
  end.
Lemma thread_step_turn s i : thread_step E cfg s i =
  match s.2 !! i with None => s | Some p => let s' := turn (s.1, p) in (s'.1, <[i := s'.2]> s.2) end.
Proof.
  unfold thread_step, turn. destruct s as [t ths]. cbn [fst snd]. destruct (ths !! i) as [[k l]|]; [|done].
  cbn [fst snd]. by destruct (chat_step _ _ _ _) as [[k'|] [t' l']].
Qed.

Lemma chat_step_on_row k id rest : todo k = id :: rest -> on_row id (chat_step (E (t_chat k)) cfg k).
Proof.
  intros Hk. unfold chat_step. rewrite Hk. destruct (t_end k); [apply on_row_ret|].
  apply on_row_bind; [unfold out_of_budget; on_row|]. intros out. pose proof on_row_send_one. on_row.
Qed.

Lemma bind_ok_inv {A B} (m : M A) (f : A -> M B) s b s' : (m ≫= f) s = (Ok b, s') ->
  exists a s1, m s = (Ok a, s1) /\ f a s1 = (Ok b, s').
Proof. unfold mbind, M_bind. destruct (m s) as [[a|e] s1]; [|done]. eauto. Qed.

(** A turn ends the thread, or takes its first row off the list. *)
Definition after_turn (k k' : task) : Prop :=
  t_chat k' = t_chat k /\
  ((todo k' = todo k /\ (t_end k <> None \/ t_end k' <> None) /\ (t_end k <> None -> k' = k)) \/
   (t_end k = None /\ t_end k' = None /\ exists id, todo k = id :: todo k')).

Lemma out_of_budget_ok EE s : exists b s', out_of_budget EE cfg s = (Ok b, s') /\ s'.1 = s.1.
Proof. unfold out_of_budget. destruct (budget cfg); cbn; eauto. Qed.

Lemma chat_step_ok EE k s : exists k' s', chat_step EE cfg k s = (Ok k', s') /\ after_turn k k'.
Proof.
  unfold chat_step, after_turn. destruct (t_end k) as [x|] eqn:Ee.
  { exists k, s. split; [done|]. split; [done|]. left. split; [done|]. split; [by left|done]. }
  destruct (todo k) as [|id rest] eqn:Ek.
  { eexists _, s. split; [done|]. cbn. split; [done|]. left. split; [done|]. split; [by right|done]. }
  unfold mbind, M_bind. destruct (out_of_budget_ok EE s) as (b & s1 & -> & _). destruct b.
  { eexists _, s1. split; [done|]. cbn. split; [done|]. left. split; [done|]. split; [by right|done]. }
  unfold attempt. destruct (send_one_message EE (retry_count cfg) false id s1) as [r s2]. cbn.
  eexists _, s2. split; [done|]. destruct r as [[| | |ra|]|e]; cbn; (split; [done|]).
  1, 2, 3, 5: right; split; [done|]; split; [done|]; by exists id.
  all: left; rewrite Ek; split; [done|]; split; [by right|done].
Qed.

Lemma turn_spec t p : after_turn p.1 (turn (t, p)).2.1.
Proof.
  unfold turn. destruct p as [k l]. cbn [fst snd].
  by destruct (chat_step_ok (E (t_chat k)) k (t, l)) as (k' & [t' l'] & -> & H).
Qed.
Lemma after_turn_todo k k' : after_turn k k' -> forall id, id ∈ todo k' -> id ∈ todo k.
Proof.
  intros (_ & [(-> & _)|(_ & _ & id & ->)]) j Hj; [done|]. by right.
Qed.

Lemma turn_local O t1 t2 p : (forall id, id ∈ todo p.1 -> id ∈ O) -> agree O t1 t2 ->
  (turn (t1, p)).2 = (turn (t2, p)).2 /\ agree O (turn (t1, p)).1 (turn (t2, p)).1 /\
  forall j, j ∉ todo p.1 -> (turn (t1, p)).1 !! j = t1 !! j.
Proof.
  intros HO Ht. unfold turn. destruct p as [k l]. cbn [fst snd] in *.
  destruct (todo k) as [|id rest] eqn:Ek.
  { unfold chat_step. rewrite Ek. by destruct (t_end k). }
  assert (forall t t', t !! id = t' !! id -> _) as Hon by exact (fun t t' => chat_step_on_row k id rest Ek t t' l).
  destruct (Hon t1 t2) as (E1 & E2 & E3 & E4); [apply Ht, HO; by left|].
  destruct (Hon t2 t1) as (_ & _ & _ & E5); [symmetry; apply Ht, HO; by left|].
  destruct (chat_step _ _ _ (t1, l)) as [r1 [t1' l1]], (chat_step _ _ _ (t2, l)) as [r2 [t2' l2]].
  cbn in *. subst r2 l2. assert (agree O t1' t2') as Hag.
  { intros j Hj. destruct (decide (j = id)) as [->|Hne]; [done|]. rewrite E4, E5 by done. by apply Ht. }
  assert (forall j, j ∉ id :: rest -> t1' !! j = t1 !! j) as Hout.
  { intros j Hj. apply E4. intros ->. apply Hj. by left. }
  by destruct r1; cbn.
Qed.

(** Alone for [n] turns. *)
Definition alone (n : nat) (t : table) (p : task * Local) : table * (task * Local) := Nat.iter n turn (t, p).

Lemma alone_S n t p : alone (S n) t p = turn (alone n t p).
Proof. done. Qed.
Lemma alone_todo n t p id : id ∈ todo (alone n t p).2.1 -> id ∈ todo p.1.
Proof.
  induction n as [|n IH]; [done|]. rewrite alone_S. destruct (alone n t p) as [t' p'] eqn:Ea.
  intros H. apply IH. exact (after_turn_todo _ _ (turn_spec t' p') _ H).
Qed.
Lemma alone_ends n t p : (length (todo p.1) < n)%nat -> t_end (alone n t p).2.1 <> None.
Proof.
  intros Hn. enough (t_end (alone n t p).2.1 <> None \/ (length (todo (alone n t p).2.1) + n <= length (todo p.1))%nat) as [|]; [done|lia|]. clear Hn.
  induction n as [|n IH]; [right; cbn; lia|]. rewrite alone_S. destruct (alone n t p) as [t' p'].
  cbn [snd] in IH. destruct (turn_spec t' p') as (_ & [(E1 & H & Hs)|(He & He' & id & Ei)]).
  - left. destruct H as [H|H]; [|done]. by rewrite (Hs H).
  - destruct IH as [|IH]; [done|]. right. rewrite Ei in IH. cbn in IH. lia.
Qed.
Lemma alone_ended n m t p : t_end (alone n t p).2.1 <> None -> (n <= m)%nat -> alone m t p = alone n t p.
Proof.
  intros He Hle. induction Hle as [|m _ IH]; [done|]. rewrite alone_S, IH.
  destruct (alone n t p) as [t' [k l]]. cbn in He. unfold turn, chat_step. cbn. by destruct (t_end k).
Qed.

Lemma disturb_nobody t ths schedule :
  (forall i j p q id, ths !! i = Some p -> ths !! j = Some q -> id ∈ todo p.1 -> id ∈ todo q.1 -> i = j) ->
  let s := run_threads E cfg schedule (t, ths) in
  length s.2 = length ths /\
  (forall i p, ths !! i = Some p -> let a := alone (count_occ Nat.eq_dec schedule i) t p in
     s.2 !! i = Some a.2 /\ agree (todo p.1) s.1 a.1) /\
  (forall id, (forall i p, ths !! i = Some p -> id ∉ todo p.1) -> s.1 !! id = t !! id).
Proof.
  intros Hdis. induction schedule as [|i0 sched IH] using rev_ind.
  { cbn. split; [done|]. split; [|done]. intros i p Hi. by split. }
  unfold run_threads in *. rewrite fold_left_app. cbn [fold_left]. cbn zeta in *.
  set (s := fold_left (thread_step E cfg) sched (t, ths)) in *. clearbody s. destruct IH as (Hlen & Hi & Ho).
  rewrite thread_step_turn. destruct (s.2 !! i0) as [p'|] eqn:Es.
  2: { split; [done|]. split; [|done]. intros i p Hp. rewrite count_occ_app. cbn.
       destruct (Nat.eq_dec i0 i) as [->|]; [|rewrite Nat.add_0_r; by apply Hi].
       destruct (Hi i p Hp) as [E' _]. by rewrite Es in E'. }
  assert (exists p, ths !! i0 = Some p) as [p Hp].
  { apply lookup_lt_is_Some. rewrite <-Hlen. by apply lookup_lt_is_Some; exists p'. }
  destruct (Hi i0 p Hp) as [E0 A0]. rewrite Es in E0. injection E0 as ->.
  set (a := alone (count_occ Nat.eq_dec sched i0) t p) in *.
  destruct (turn_local (todo p.1) s.1 a.1 a.2) as (T1 & T2 & T3); [intros id; apply alone_todo|done|].
  cbn [fst snd]. split; [by rewrite length_insert|]. split.
  - intros i q Hq. rewrite count_occ_app. cbn [count_occ].
    destruct (Nat.eq_dec i0 i) as [<-|Hne].
    + rewrite Hp in Hq. injection Hq as <-. rewrite Nat.add_1_r.
      change (alone (S _) t p) with (turn a). rewrite list_lookup_insert_eq by (rewrite Hlen; by eapply lookup_lt_Some).
      rewrite T1. destruct a as [ta pa]. by split.
    + rewrite Nat.add_0_r. destruct (Hi i q Hq) as [Ei Ai]. rewrite list_lookup_insert_ne by done.
      split; [done|]. intros id Hid. rewrite T3; [by apply Ai|]. intros Hin. apply alone_todo in Hin.
      apply Hne. by eapply Hdis.
  - intros id Hid. rewrite T3; [by apply Ho|]. intros Hin. apply alone_todo in Hin. by eapply Hid.
Qed.
End Threads.

(** ** The outcome of a pass *)
Section Pass.
Context (E : string -> Env) (now : string -> Z) (cfg : settings) (cutoff : string) (limit per_chat : Z) (t : table).

Definition taken : table * list (Z * SendRow) :=
  let t := (requeue_stale_telegram_send_messages cutoff t).1 in
  (t, fetch_pending_telegram_send_messages limit (Some per_chat) t).
Definition at_start : threads := start_pass cfg taken.2.
(** A schedule with a turn for each row of a chat, and one to end. *)
Definition fair (schedule : list nat) : Prop := forall i p, at_start !! i = Some p ->
  (length (todo p.1) < count_occ Nat.eq_dec schedule i)%nat.

Lemma at_start_disjoint : forall i j p q id, at_start !! i = Some p -> at_start !! j = Some q ->
  id ∈ todo p.1 -> id ∈ todo q.1 -> i = j.
Proof. apply threads_disjoint, fetch_NoDup. Qed.

Lemma all_ended_lookup (ths : threads) : all_ended ths = true <-> forall i p, ths !! i = Some p -> t_end p.1 <> None.
Proof.
  unfold all_ended. rewrite forallb_forall. split.
  - intros H i p Hi. assert (In p ths) as Hin by (apply list_elem_of_In; by eapply list_elem_of_lookup_2).
    specialize (H p Hin). cbn in H. by destruct (t_end p.1).
  - intros H p Hp. apply list_elem_of_In, list_elem_of_lookup in Hp as [i Hi]. specialize (H i p Hi).
    by destruct (t_end p.1).
Qed.

Lemma fair_ends schedule : fair schedule -> all_ended (run_threads E cfg schedule (taken.1, at_start)).2 = true.
Proof.
  intros Hf. apply all_ended_lookup. intros i p Hi.
  destruct (disturb_nobody E cfg taken.1 at_start schedule at_start_disjoint) as (Hlen & Hal & _).
  destruct (lookup_lt_is_Some_2 at_start i) as [q Hq].
  { rewrite <-Hlen. by eapply lookup_lt_Some. }
  destruct (Hal i q Hq) as [E1 _]. rewrite Hi in E1. injection E1 as ->.
  apply alone_ends. by apply Hf.
Qed.

Lemma ended_runs_agree s1 s2 :
  all_ended (run_threads E cfg s1 (taken.1, at_start)).2 = true ->
  all_ended (run_threads E cfg s2 (taken.1, at_start)).2 = true ->
  run_threads E cfg s1 (taken.1, at_start) = run_threads E cfg s2 (taken.1, at_start).
Proof.
  rewrite !all_ended_lookup. intros H1 H2.
  destruct (disturb_nobody E cfg taken.1 at_start s1 at_start_disjoint) as (L1 & A1 & O1).
  destruct (disturb_nobody E cfg taken.1 at_start s2 at_start_disjoint) as (L2 & A2 & O2).
  assert (forall i p, at_start !! i = Some p ->
    alone E cfg (count_occ Nat.eq_dec s1 i) taken.1 p = alone E cfg (count_occ Nat.eq_dec s2 i) taken.1 p) as Ha.
  { intros i p Hp. destruct (A1 i p Hp) as [E1 _], (A2 i p Hp) as [E2 _].
    specialize (H1 _ _ E1). specialize (H2 _ _ E2).
    destruct (Nat.le_ge_cases (count_occ Nat.eq_dec s1 i) (count_occ Nat.eq_dec s2 i));
      [symmetry|]; by apply alone_ended. }
  destruct (run_threads E cfg s1 _) as [t1 ths1], (run_threads E cfg s2 _) as [t2 ths2]. cbn [fst snd] in *. f_equal.
  - apply map_eq. intros id.
    destruct (decide (Exists (fun p => id ∈ todo p.1) at_start)) as [Hin|Hno].
    + apply list.Exists_exists in Hin as (p & Hp & Hid). apply list_elem_of_lookup in Hp as [i Hp].
      destruct (A1 i p Hp) as [_ G1], (A2 i p Hp) as [_ G2]. by rewrite (G1 id Hid), (G2 id Hid), (Ha i p Hp).
    + assert (forall i p, at_start !! i = Some p -> id ∉ todo p.1) as Hout.
      { intros i p Hp Hid. apply Hno, list.Exists_exists. exists p. split; [by eapply list_elem_of_lookup_2|done]. }
      by rewrite O1, O2.
  - apply list_eq. intros i. destruct (at_start !! i) as [p|] eqn:Ep.
    + destruct (A1 i p Ep) as [-> _], (A2 i p Ep) as [-> _]. by rewrite (Ha i p Ep).
    + apply lookup_ge_None in Ep. rewrite !lookup_ge_None_2 by lia. done.
Qed.

(** Round after round, everybody's turn. *)
Definition round_robin : list nat :=
  concat (replicate (S (list_max (map (fun p : task * Local => length (todo p.1)) at_start))) (seq 0 (length at_start))).
Lemma count_rounds n m i : (i < n)%nat -> count_occ Nat.eq_dec (concat (replicate m (seq 0 n))) i = m.
Proof.
  intros Hi. induction m as [|m IH]; [done|]. cbn [replicate concat]. rewrite count_occ_app, IH.
  enough (count_occ Nat.eq_dec (seq 0 n) i = 1)%nat by lia.
  apply NoDup_count_occ'; [apply NoDup_ListNoDup, NoDup_seq|]. apply in_seq. lia.
Qed.
Lemma round_robin_fair : fair round_robin.
Proof.
  intros i p Hp. unfold round_robin. rewrite count_rounds by by eapply lookup_lt_Some.
  pose proof (proj1 (list_max_le (map (fun p : task * Local => length (todo p.1)) at_start) _) (le_n _)) as Hm.
  rewrite List.Forall_forall in Hm. specialize (Hm (length (todo p.1))). apply Nat.lt_succ_r, Hm.
  apply in_map_iff. exists p. split; [done|]. apply list_elem_of_In. by eapply list_elem_of_lookup_2.
Qed.

Lemma pass_run schedule : send_pending_messages E now cfg cutoff limit per_chat schedule t =
  let s := run_threads E cfg schedule (taken.1, at_start) in
  if all_ended s.2 then
    let cp := fold_left (collect now) (map fst s.2)
      (mkCounts (length taken.2) 0 0 0 0 (requeue_stale_telegram_send_messages cutoff t).2 0, pauses cfg) in
    Some (s.1, s.2, (mkCounts (n_read cp.1) (n_sent cp.1) (n_failed cp.1) (n_deferred cp.1) (length cp.2)
      (n_requeued cp.1) (n_errors cp.1), cp.2))
  else None.
Proof.
  unfold send_pending_messages, at_start, taken. destruct (requeue_stale_telegram_send_messages cutoff t) as [t1 n].
  cbn [fst snd]. destruct (run_threads _ _ _ _) as [t' ths]. cbn [fst snd].
  destruct (all_ended ths); [|done]. by destruct (fold_left _ _ _).
Qed.
End Pass.

(** The outcome of a send pass (table, threads, counts and pauses) does not depend on how
    its threads interleave: there is one outcome, every schedule that gives each thread a turn
    for each of its rows and one more reaches it, and such schedules exist. *)
Lemma pass_outcome E now cfg cutoff limit per_chat t : exists outcome,
  (forall schedule, fair cfg cutoff limit per_chat t schedule ->
     send_pending_messages E now cfg cutoff limit per_chat schedule t = Some outcome) /\
  (forall schedule outcome', send_pending_messages E now cfg cutoff limit per_chat schedule t = Some outcome' ->
     outcome' = outcome) /\
  exists schedule, fair cfg cutoff limit per_chat t schedule.
Proof.
  pose proof (round_robin_fair cfg cutoff limit per_chat t) as Hr.
  pose proof (fair_ends E _ _ _ _ _ _ Hr) as He.
  eexists. split; [|split; [|by eexists]].
  - intros s Hs. pose proof (fair_ends E _ _ _ _ _ _ Hs) as Hes. rewrite pass_run. cbn zeta.
    rewrite (ended_runs_agree E cfg cutoff limit per_chat t s _ Hes He), He. done.
  - intros s o. rewrite pass_run. cbn zeta.
    destruct (all_ended (run_threads E cfg s _).2) eqn:Hes; [|done].
    rewrite (ended_runs_agree E cfg cutoff limit per_chat t s _ Hes He). congruence.
Qed.

(** ** Nothing overtakes a row that is left in the queue *)
Definition settled (t : table) (id : Z) : Prop := match t !! id with Some r => send_status r <> 0 | None => True end.
Definition keeps_settled {A} (id : Z) (m : M A) : Prop := forall s, settled s.1 id -> settled (m s).2.1 id.

Lemma settled_ret {A} id (a : A) : keeps_settled id (mret a).
Proof. by intros [t l] H. Qed.
Lemma settled_raise {A} id e : keeps_settled id (raise (A := A) e).
Proof. by intros [t l] H. Qed.
Lemma settled_lift {A} id (r : result exn A) : keeps_settled id (lift r).
Proof. by intros [t l] H. Qed.
Lemma settled_log id e : keeps_settled id (log e).
Proof. by intros [t l] H. Qed.
Lemma settled_ask {A} id (f : nat -> A) : keeps_settled id (ask f).
Proof. by intros [t l] H. Qed.
Lemma settled_read {A} id (f : table -> A) : keeps_settled id (read f).
Proof. by intros [t l] H. Qed.
Lemma settled_set id r : send_status r <> 0 -> keeps_settled id (set_row id r).
Proof. intros Hr [t l] _. unfold settled, set_row. cbn [fst snd]. by rewrite lookup_insert_eq. Qed.
Lemma settled_bind {A B} id (m : M A) (f : A -> M B) : keeps_settled id m -> (forall a, keeps_settled id (f a)) ->
  keeps_settled id (m ≫= f).
Proof.
  intros Hm Hf s Hs. unfold mbind, M_bind. specialize (Hm s Hs). destruct (m s) as [[a|e] s1]; [by apply Hf|done].
Qed.
Lemma settled_attempt {A} id (m : M A) : keeps_settled id m -> keeps_settled id (attempt m).
Proof. intros Hm s Hs. unfold attempt. specialize (Hm s Hs). by destruct (m s). Qed.
Create HintDb settled discriminated.
#[export] Hint Resolve settled_ret settled_raise settled_lift settled_log settled_ask settled_read settled_set
  settled_bind settled_attempt : settled.
Ltac settle := repeat first
  [ progress auto with settled
  | apply settled_bind; [|intros ?] | apply settled_attempt | apply settled_set; cbn; lia
  | match goal with
    | |- keeps_settled _ (let x := _ in _) => cbv zeta
    | |- keeps_settled _ (match ?x with _ => _ end) => destruct x
    end ].

Section Settled.
Context (E : Env) (id : Z).
Lemma settled_stored {A} (m : M A) : keeps_settled id m -> keeps_settled id (stored E m).
Proof. intros H. unfold stored. settle. Qed.
Lemma settled_sent mid : keeps_settled id (mark_telegram_send_message_sent E id mid).
Proof. apply settled_stored. settle. Qed.
Lemma settled_failed text : keeps_settled id (mark_telegram_send_message_failed E id text).
Proof. apply settled_stored. settle. Qed.
Lemma settled_call e : keeps_settled id (call E e).
Proof. unfold call. settle. Qed.
#[local] Hint Resolve settled_sent settled_failed settled_call : settled.
Lemma settled_part n p wait : keeps_settled id (_send_part_honouring_rate_limit E n p wait).
Proof. induction n; cbn [_send_part_honouring_rate_limit]; settle. Qed.
#[local] Hint Resolve settled_part : settled.
Lemma settled_parts o count parts start wait : forall index first,
  keeps_settled id (send_parts E o count index start wait parts first).
Proof. induction parts as [|p parts IH]; intros index first; cbn [send_parts]; settle. Qed.
#[local] Hint Resolve settled_parts : settled.
Lemma settled_body wait r p : keeps_settled id (send_body E wait r p).
Proof. unfold send_body, send_message, send_document. settle. Qed.
#[local] Hint Resolve settled_body : settled.
Lemma settled_retries n wait r : forall p last, keeps_settled id (retries E n wait r p last).
Proof. induction n; intros p last; cbn [retries]; settle. Qed.
Lemma settled_record n mid : keeps_settled id (_record_sent E n id mid).
Proof. induction n; cbn [_record_sent]; settle. Qed.

Lemma settled_after {A} (m : M A) s r s' : keeps_settled id m -> m s = (r, s') -> settled s.1 id -> settled s'.1 id.
Proof. intros H He Hs. specialize (H s Hs). by rewrite He in H. Qed.

Lemma mark_processing_settles s took s' : mark_telegram_send_message_processing E id s = (Ok took, s') -> settled s'.1 id.
Proof.
  unfold mark_telegram_send_message_processing, stored, mbind, M_bind, ask, read. cbn [fst snd].
  destruct (ev_store E _); [|done]. cbn [fst snd]. destruct (s.1 !! id) as [r|] eqn:Er.
  - destruct (Z.eqb_spec (send_status r) 0) as [E0|E0].
    + unfold set_row. cbn. intros [= _ <-]. unfold settled. cbn [fst]. by rewrite lookup_insert_eq.
    + cbn. intros [= _ <-]. unfold settled. cbn. by rewrite Er.
  - cbn. intros [= _ <-]. unfold settled. cbn. by rewrite Er.
Qed.

Lemma fetch_through s row s' : fetch_telegram_send_message E id s = (Ok row, s') -> s'.1 = s.1 /\ row = s.1 !! id.
Proof.
  unfold fetch_telegram_send_message, stored, mbind, M_bind, ask, read. cbn [fst snd].
  destruct (ev_store E _); [|done]. by intros [= <- <-].
Qed.

Lemma send_one_settles n wait s res s' : send_one_message E n wait id s = (Ok res, s') ->
  match res with RateLimited _ => True | _ => settled s'.1 id end.
Proof.
  unfold send_one_message. intros (row & s1 & [Ht ->]%fetch_through & H)%bind_ok_inv.
  assert (Hrow : s1.1 !! id = s.1 !! id) by by rewrite Ht.
  destruct (s.1 !! id) as [r|] eqn:Er; cbn in H.
  2: { injection H as <- <-. unfold settled. by rewrite Hrow. }
  destruct (Z.eqb_spec (send_status r) 0) as [E0|E0]; cbn [negb] in H.
  2: { injection H as <- <-. unfold settled. by rewrite Hrow. }
  apply bind_ok_inv in H as (took & s2 & H2%mark_processing_settles & H).
  destruct took; cbn [negb] in H; [|by injection H as <- <-].
  apply bind_ok_inv in H as (p & s3 & Hl & H). injection Hl as _ <-.
  apply bind_ok_inv in H as (e & s4 & H4 & H).
  assert (settled s4.1 id) as Hs4.
  { eapply settled_after; [apply settled_retries|exact H4|exact H2]. }
  destruct e as [v|p' text [ra|]].
  - apply bind_ok_inv in H as (m & s5 & Hl & H). injection Hl as _ <-.
    apply bind_ok_inv in H as (u & s6 & H6 & H). injection H as <- <-.
    exact (settled_after (_record_sent E RECORD_SENT_ATTEMPTS id m) s4 _ s6 (settled_record _ _) H6 Hs4).
  - apply bind_ok_inv in H as (u & s6 & H6 & H). by injection H as <- <-.
  - apply bind_ok_inv in H as (u & s6 & H6 & H). injection H as <- <-.
    eapply settled_after; [apply settled_failed|exact H6|exact Hs4].
Qed.
End Settled.

Section Overtake.
Context (E : string -> Env) (cfg : settings).

(** A thread is through its first rows, which are settled; the rows it has not come to are
    as they were. *)
Definition in_order (t0 : table) (ids : list Z) (k : task) (t : table) : Prop :=
  exists through, ids = through ++ todo k /\ (forall id, id ∈ through -> settled t id) /\
    forall id, id ∈ (match t_end k with None => todo k | Some _ => tail (todo k) end) -> t !! id = t0 !! id.

Lemma chat_step_settles EE k id rest t l k' t' l' : todo k = id :: rest -> t_end k = None ->
  chat_step EE cfg k (t, l) = (Ok k', (t', l')) -> t_end k' = None -> settled t' id.
Proof.
  intros Ek Ee H He. unfold chat_step in H. rewrite Ek, Ee in H.
  apply bind_ok_inv in H as (out & s1 & _ & H). destruct out; [injection H as <- _; done|].
  apply bind_ok_inv in H as (r & s2 & Ha & H). unfold attempt in Ha.
  destruct (send_one_message EE (retry_count cfg) false id s1) as [res s3] eqn:Es. injection Ha as <- <-.
  destruct res as [st|e]; [|injection H as <- _; done].
  pose proof (send_one_settles EE id _ _ _ _ _ Es) as Hset. injection H as <- ->. cbn [fst] in Hset.
  by destruct st.
Qed.

Lemma turn_in_order t0 ids t p : NoDup ids -> in_order t0 ids p.1 t ->
  in_order t0 ids (turn E cfg (t, p)).2.1 (turn E cfg (t, p)).1.
Proof.
  destruct p as [k l]. cbn [fst]. intros Hnd (through & Hids & Hset & Hrest).
  unfold turn. cbn [fst snd]. destruct (todo k) as [|id rest] eqn:Ek.
  { unfold chat_step. rewrite Ek. exists through. destruct (t_end k) eqn:Ee; cbn; rewrite Ek, ?Ee; done. }
  destruct (chat_step_on_row E cfg k id rest Ek t t l eq_refl) as (_ & _ & _ & Hother).
  assert (Hthrough : forall t' : table, (forall j, j <> id -> t' !! j = t !! j) -> forall j, j ∈ through -> settled t' j).
  { intros t' Ho j Hj. unfold settled. rewrite Ho; [by apply Hset|]. intros ->.
    rewrite Hids in Hnd. apply list.NoDup_app in Hnd as (_ & Hno & _). apply (Hno id Hj). by left. }
  assert (Hafter : forall t' : table, (forall j, j <> id -> t' !! j = t !! j) -> forall j, j ∈ rest -> t' !! j = t0 !! j).
  { intros t' Ho j Hj. rewrite Ho.
    - apply Hrest. destruct (t_end k); [done|by right].
    - intros ->. rewrite Hids in Hnd. apply list.NoDup_app in Hnd as (_ & _ & Hnd).
      by apply list.NoDup_cons in Hnd as [? _]. }
  destruct (chat_step_ok cfg (E (t_chat k)) k (t, l)) as (k' & [t' l'] & Es & _ & Hk).
  rewrite Es in *. cbn [fst snd] in *. destruct Hk as [(Et & Hend & Hsame)|(He & He' & j & Ej)].
  - exists through. rewrite Et, Ek. split; [done|]. split; [by apply Hthrough|].
    destruct (t_end k') eqn:Ee'; cbn [tail]; [by apply Hafter|].
    destruct Hend as [Hend|Hend]; [|done]. rewrite (Hsame Hend) in Ee'. done.
  - rewrite Ek in Ej. injection Ej as <- ->. exists (through ++ [id]). rewrite <-app_assoc. split; [done|].
    rewrite He'. split; [|by apply Hafter].
    intros j [Hj| ->%list_elem_of_singleton]%elem_of_app; [by apply Hthrough|].
    by eapply chat_step_settles.
Qed.

Lemma alone_in_order n t0 p : NoDup (todo p.1) -> in_order t0 (todo p.1) (alone E cfg n t0 p).2.1 (alone E cfg n t0 p).1.
Proof.
  intros Hnd. induction n as [|n IH].
  - exists []. split; [done|]. split; [by intros id ?%elem_of_nil|]. done.
  - rewrite alone_S. destruct (alone E cfg n t0 p) as [t' p']. by apply turn_in_order.
Qed.
End Overtake.

Lemma elem_of_tail {A} (x : A) l : x ∈ tail l -> x ∈ l.
Proof. destruct l; [done|]. cbn. by right. Qed.

(** After a pass, the rows it took of a chat, oldest first, are some rows that are settled
    (sent, failed or in flight), then at most one row it stopped at, then rows it never touched:
    nothing overtakes a row that stays in the queue. *)
Lemma nothing_overtakes_a_row_left_in_the_queue E now cfg cutoff limit per_chat t schedule t' ths cs :
  send_pending_messages E now cfg cutoff limit per_chat schedule t = Some (t', ths, cs) ->
  forall c ids, (c, ids) ∈ by_chat (taken cutoff limit per_chat t).2 ->
  exists through rest, ids = through ++ rest /\ (forall id, id ∈ through -> settled t' id) /\
    forall id, id ∈ tail rest -> t' !! id = (taken cutoff limit per_chat t).1 !! id.
Proof.
  rewrite pass_run. cbn zeta. destruct (all_ended _) eqn:He; [|done]. intros [= <- <- <-] c ids Hc.
  apply list_elem_of_lookup in Hc as [i Hi].
  assert (Hp : at_start cfg cutoff limit per_chat t !! i = Some (start_chat cfg c ids, fresh_local)).
  { unfold at_start, start_pass. change (map ?f ?l) with (f <$> l). by rewrite list_lookup_fmap, Hi. }
  destruct (disturb_nobody E cfg (taken cutoff limit per_chat t).1 _ schedule (at_start_disjoint cfg cutoff limit per_chat t)) as (_ & Hal & _).
  destruct (Hal i _ Hp) as [Ea Hag]. cbn [fst] in Hag.
  assert (Htodo : todo (start_chat cfg c ids) = ids) by (unfold start_chat; by destruct (assoc c _)).
  set (n := count_occ Nat.eq_dec schedule i) in *.
  pose proof (alone_in_order E cfg n (taken cutoff limit per_chat t).1 (start_chat cfg c ids, fresh_local)) as Ho.
  cbn [fst] in Ho. rewrite Htodo in *. destruct Ho as (through & Hids & Hset & Hrest).
  { rewrite (by_chat_ids c ids _ (list_elem_of_lookup_2 _ _ _ Hi)).
    eapply sublist_NoDup; [apply (fetch_NoDup limit (Some per_chat))|apply map_filter_sublist]. }
  exists through, (todo (alone E cfg n (taken cutoff limit per_chat t).1 (start_chat cfg c ids, fresh_local)).2.1).
  split; [done|]. split.
  - intros id Hid. unfold settled. rewrite Hag; [by apply Hset|]. rewrite Hids. apply elem_of_app. by left.
  - intros id Hid. assert (id ∈ todo (alone E cfg n (taken cutoff limit per_chat t).1 (start_chat cfg c ids, fresh_local)).2.1) as Hin.
    { by apply elem_of_tail. }
    rewrite Hag; [|rewrite Hids; apply elem_of_app; by right]. apply Hrest. by destruct (t_end _).
Qed.

Definition one_each (answers : nat -> answer) : string -> Env := fun _ =>
  {| ev_answer := answers; ev_store := fun _ => true; ev_utc := fun _ => "2026-01-01T10:00:00Z"; ev_clock := fun _ => 0 |}.
Definition plain_settings : settings := mkSettings 3 None 0 [].
(** The first two calls of a thread are delivered, then the chat is limited. *)
Definition limited_after (n : nat) : nat -> answer :=
  fun k => if (k <? n)%nat then Delivered (Some (Z.of_nat k)) else TooMany "" (Some (seconds 30)).

Lemma nothing_overtakes_witness :
  match send_pending_messages (one_each (limited_after 8)) (fun _ => 0) plain_settings "" 50 5
    [0; 1; 0; 0; 1; 0]%nat sample_queue with
  | Some (t', _, _) => exists through rest, [1; 2; 3] = through ++ rest /\
      (forall id, id ∈ through -> settled t' id) /\ (forall id, id ∈ tail rest -> t' !! id = sample_queue !! id)
  | None => False
  end.
Proof.
  destruct (send_pending_messages _ _ _ _ _ _ _ _) as [[[t' ths] cs]|] eqn:H; [|vm_compute in H; discriminate H].
  exact (nothing_overtakes_a_row_left_in_the_queue _ _ _ _ _ _ _ _ _ _ _ H "a" [1; 2; 3] ltac:(by left)).
Defined.

(** The texts a pass delivered, thread by thread. *)
Definition texts (ths : threads) : list string :=
  flat_map (fun p : task * Local => omap (fun e => match e with Message m => Some (p_text m) | _ => None end) (l_log p.2)) ths.

(** When a pass is killed with a row in flight, the next pass sends the later rows of that
    chat; the row in flight goes out after them, once it is stale and queued again. *)
Lemma a_killed_pass_reorders_a_chat : exists E t, let killed := (mark_telegram_send_message_processing (E "a") 1 (t, fresh_local)).2.1 in
  map fst (pending_rows t) = [1; 2] /\ (forall id r, t !! id = Some r -> chat_of r = "a") /\
  exists t1 t2 ths1 ths2 c1 c2,
    send_pending_messages E (fun _ => 0) plain_settings "2026-01-01T09:45:01Z" 50 5 [0; 0; 0]%nat killed = Some (t1, ths1, c1) /\
    send_pending_messages E (fun _ => 0) plain_settings "2026-01-01T10:05:00Z" 50 5 [0; 0; 0]%nat t1 = Some (t2, ths2, c2) /\
    texts ths1 = ["second"] /\ texts ths2 = ["first"].
Proof.
  exists (one_each (fun _ => Delivered None)),
    (list_to_map [(1, row_of "2026-01-01T09:59:58Z" "a" "first"); (2, row_of "2026-01-01T09:59:59Z" "a" "second")]).
  cbn zeta. split; [vm_compute; reflexivity|]. split.
  { intros id r H. apply elem_of_list_to_map_2 in H. apply list.elem_of_cons in H as [[= -> ->]|H]; [done|].
    by apply list_elem_of_singleton in H as [= -> ->]. }
  eexists _, _, _, _, _, _. split; [vm_compute; reflexivity|]. split; [vm_compute; reflexivity|]. split; reflexivity.
Qed.
