(* ===== verification/TelegramLimits.v ===== *)
(** * Rate limits ([telegram/send_queue.py], [telegram/api.py]): a row that Telegram puts
    off goes on where it stopped. *)

From S2P Require Import Prelude Py PyTime TelegramText TelegramQueue.

(** ** What a thread has delivered *)
Definition is_delivery (e : event) : bool := match e with Message _ | Document _ => true | _ => false end.
Definition deliveries (l : Local) : list event := List.filter is_delivery (l_log l).

(** Telegram answers but with a delivery or a 429, and the store gets through. *)
Record patient (E : Env) : Prop := {
  only_limits : forall n, match ev_answer E n with Failed _ => False | _ => True end;
  store_answers : forall n, ev_store E n = true }.

(** The calls a text takes, and those of a row that are left at a point of its progress. *)
Definition messages_of (o : outgoing) : list event :=
  let parts := split_telegram_message (o_text o) in
  imap (fun i t => Message (part_payload o (length parts) i t)) parts.
Definition rest_of (r : SendRow) (p : progress) : list event :=
  (if String.eqb (document_path (metadata r)) "" || document_delivered p then [] else [Document (document_of r)]) ++
  (if String.eqb (o_text (outgoing_of r)) "" then []
   else drop (Z.to_nat (parts_delivered p)) (messages_of (outgoing_of r))).
Definition still_to_send (r : SendRow) : list event :=
  match stored_progress (metadata r) with Ok p => rest_of r p | Err _ => [] end.

Section Limits.
Context (E : Env) (HE : patient E).

(** [m], from [s], delivers [X] and leaves the table alone. *)
Definition delivers {A} (m : M A) (s : table * Local) (Q : result exn A -> list event -> Prop) : Prop :=
  exists r l X, m s = (r, (s.1, l)) /\ deliveries l = deliveries s.2 ++ X /\ Q r X.

Lemma delivers_ret {A} (a : A) s (Q : _ -> _ -> Prop) : Q (Ok a) [] -> delivers (mret a) s Q.
Proof. intros H. exists (Ok a), s.2, []. destruct s. by rewrite app_nil_r. Qed.
Lemma delivers_raise {A} e s (Q : result exn A -> _ -> Prop) : Q (Err e) [] -> delivers (raise e) s Q.
Proof. intros H. exists (Err e), s.2, []. destruct s. by rewrite app_nil_r. Qed.
Lemma delivers_bind {A B} (m : M A) (f : A -> M B) s (Q : _ -> _ -> Prop) (R : result exn A -> list event -> Prop) :
  delivers m s R ->
  (forall a X s1, R (Ok a) X -> s1.1 = s.1 -> delivers (f a) s1 (fun r Y => Q r (X ++ Y))) ->
  (forall e X, R (Err e) X -> Q (Err e) X) -> delivers (m ≫= f) s Q.
Proof.
  intros (r & l & X & Em & Ed & HR) Hok Herr. unfold delivers, mbind, M_bind. rewrite Em.
  destruct r as [a|e].
  - destruct (Hok a X (s.1, l) HR eq_refl) as (r & l' & Y & Ef & Ed' & HQ). cbn in *. rewrite Ef.
    exists r, l', (X ++ Y). by rewrite Ed', Ed, app_assoc.
  - eauto 10.
Qed.
Lemma delivers_mono {A} (m : M A) s (Q R : result exn A -> list event -> Prop) :
  delivers m s R -> (forall r X, R r X -> Q r X) -> delivers m s Q.
Proof. intros (r & l & X & H1 & H2 & H3) H. exists r, l, X. auto. Qed.
Lemma delivers_attempt {A} (m : M A) s (Q : result exn A -> _ -> Prop) :
  delivers m s Q -> delivers (attempt m) s (fun r X => match r with Ok a => Q a X | Err _ => False end).
Proof. intros (r & l & X & Em & Ed & H). unfold delivers, attempt. rewrite Em. eauto 10. Qed.
Lemma delivers_sleep t s : delivers (log (Slept t)) s (fun r X => r = Ok tt /\ X = []).
Proof.
  exists (Ok tt), (mkLocal (l_step s.2) (l_log s.2 ++ [Slept t])), []. split; [by destruct s|]. split; [|done].
  unfold deliveries. cbn. by rewrite List.filter_app.
Qed.

(** A call is delivered, or is answered with a limit. *)
Definition limited_or {A} (n : Z) (X : list event) (r : result exn A) (Y : list event) : Prop :=
  match r with Ok _ => Y = X | Err (TelegramRateLimited _ _ k) => k = n /\ Y = [] | _ => False end.

Lemma call_delivers e s : is_delivery e = true -> delivers (call E e) s (limited_or 0 [e]).
Proof.
  intros He. pose proof (only_limits E HE (l_step s.2)) as Ho. unfold delivers, call, mbind, M_bind, ask, mret, M_ret, raise, log.
  cbn [fst snd]. destruct (ev_answer E (l_step s.2)) as [mid|body ra|err]; [..|done]; cbn [fst snd].
  - exists (Ok mid), (mkLocal (S (l_step s.2)) (l_log s.2 ++ [e])), [e]. split; [done|]. split; [|done].
    unfold deliveries. cbn. rewrite List.filter_app. cbn. by rewrite He.
  - eexists _, (mkLocal (S (l_step s.2)) (l_log s.2)), []. split; [done|]. split; [by rewrite app_nil_r|done].
Qed.

Lemma part_delivers n p wait s : (0 < n)%nat ->
  delivers (_send_part_honouring_rate_limit E n p wait) s (limited_or 0 [Message p]).
Proof.
  intros Hn. destruct n as [|n]; [lia|]. clear Hn. revert s. destruct wait; induction n as [|n IH]; intros s; cbn [_send_part_honouring_rate_limit].
  all: eapply delivers_bind; [apply delivers_attempt, call_delivers; done| |].
  all: try (intros e ? []; fail).
  all: intros [mid|e] X s1 HR _; cbn in HR; [apply delivers_ret; cbn; by subst X|].
  all: destruct e as [text ra pd| | |]; try done; destruct HR as [-> ->]; cbn [Nat.eqb orb negb].
  all: try (by apply delivers_raise).
  destruct (_ <? _); [by apply delivers_raise|].
  eapply delivers_bind; [apply delivers_sleep|..].
  - intros [] X s2 [_ ->] _. exact (IH s2).
  - by intros e X [? _].
Qed.

(** The parts of a text, from one on. *)
Definition parts_from (o : outgoing) (count index : nat) (parts : list string) : list event :=
  imap (fun i t => Message (part_payload o count (index + i) t)) parts.
Lemma parts_from_cons o count index t parts :
  parts_from o count index (t :: parts) = Message (part_payload o count index t) :: parts_from o count (S index) parts.
Proof.
  unfold parts_from. rewrite imap_cons. rewrite Nat.add_0_r. f_equal. apply imap_ext. intros i x _. cbn.
  by rewrite Nat.add_succ_r.
Qed.

(** From part [start] on, all of them; or up to part [k], where a limit stopped. *)
Definition sends (all : list event) (index start : Z) {A} (r : result exn A) (X : list event) : Prop :=
  match r with
  | Ok _ => X = drop (Z.to_nat (start - index)) all
  | Err (TelegramRateLimited _ _ k) => start <= k /\ index <= k /\
      drop (Z.to_nat (start - index)) all = X ++ drop (Z.to_nat (k - index)) all
  | _ => False
  end.

Lemma parts_deliver o count start wait parts : forall index first s,
  delivers (send_parts E o count index start wait parts first) s
    (sends (parts_from o count index parts) (Z.of_nat index) start).
Proof.
  induction parts as [|t parts IH]; intros index first s; cbn [send_parts].
  { apply delivers_ret. cbn. by destruct (Z.to_nat _). }
  rewrite parts_from_cons. destruct (Z.ltb_spec (Z.of_nat index) start) as [Hlt|Hge].
  - eapply delivers_mono; [apply IH|]. unfold sends. intros [mid|[text ra k| | |]] X; try done.
    + intros ->. replace (Z.to_nat (start - Z.of_nat index)) with (S (Z.to_nat (start - Z.of_nat (S index)))) by lia. done.
    + intros (H1 & H2 & H3). split; [done|]. split; [lia|].
      replace (Z.to_nat (start - Z.of_nat index)) with (S (Z.to_nat (start - Z.of_nat (S index)))) by lia.
      replace (Z.to_nat (k - Z.of_nat index)) with (S (Z.to_nat (k - Z.of_nat (S index)))) by lia. done.
  - eapply delivers_bind with (R := fun r X => r = Ok tt /\ X = []).
    { destruct (start <? Z.of_nat index); [apply delivers_sleep|by apply delivers_ret]. }
    2: by intros e X [? _].
    intros [] X s1 [_ ->] _. cbn [app]. eapply delivers_bind; [apply delivers_attempt, part_delivers; vm_compute; lia| |].
    2: intros e X [].
    intros [mid|e] X s2 HR _; cbn in HR.
    + subst X. eapply delivers_mono; [apply IH|]. unfold sends.
      replace (Z.to_nat (start - Z.of_nat index)) with 0%nat by lia.
      replace (Z.to_nat (start - Z.of_nat (S index))) with 0%nat by lia.
      intros [mid'|[text ra k| | |]] X; try done; cbn [drop app].
      * by intros ->.
      * intros (H1 & H2 & H3). split; [done|]. split; [lia|].
        replace (Z.to_nat (k - Z.of_nat index)) with (S (Z.to_nat (k - Z.of_nat (S index)))) by lia. cbn. by f_equal.
    + destruct e as [text ra pd| | |]; try done. destruct HR as [_ ->]. apply delivers_raise. cbn.
      split; [lia|]. split; [lia|].
      replace (Z.to_nat (start - Z.of_nat index)) with 0%nat by lia. by rewrite Z.sub_diag.
Qed.

(** ** A row's message: the document and the text *)
Definition good_id (v : pyval) : Prop := v = PNone \/ exists m, v = PInt m.
Lemma good_none_or_int m : good_id (none_or_int m).
Proof. destruct m; [right; eauto|by left]. Qed.

Definition sendable (r : SendRow) : Prop :=
  chat_of r <> "" /\ (document_path (metadata r) = "" -> message_text r <> "") /\ timeout_ok (metadata r) = true /\
  (exists p, stored_progress (metadata r) = Ok p /\ good_id (document_message_id p)) /\
  forall mid i m, answered r mid = Some (i, m) -> int_of_str i <> None.

(** What is left after an attempt is what was left before it, less what it delivered. *)
Definition carries (r : SendRow) (p : progress) (n : Z) (p' : progress) {A} (res : result exn A) (X : list event) : Prop :=
  n <= parts_delivered p' /\ (document_delivered p' = false -> document_delivered p = false) /\
  good_id (document_message_id p') /\
  match res with
  | Ok _ => X = rest_of r p
  | Err (TelegramRateLimited _ _ k) =>
      rest_of r p = X ++ rest_of r (mkProgress (Z.max (parts_delivered p') k) (document_delivered p') (document_message_id p'))
  | _ => False
  end.

Lemma o_chat_outgoing r : o_chat (outgoing_of r) = chat_of r.
Proof. unfold outgoing_of. by destruct (String.eqb _ _). Qed.

Lemma message_delivers o wait start s : o_chat o <> "" -> o_text o <> "" ->
  delivers (send_message E o wait start) s (sends (messages_of o) 0 start).
Proof.
  intros Hc Ht. unfold send_message. destruct (String.eqb_spec (o_chat o) ""); [done|].
  destruct (String.eqb_spec (o_text o) ""); [done|]. apply parts_deliver.
Qed.
Lemma sends_all all start {A} (r : result exn A) X : sends all 0 start r X ->
  match r with Ok _ => X = drop (Z.to_nat start) all
  | Err (TelegramRateLimited _ _ k) => drop (Z.to_nat start) all = X ++ drop (Z.to_nat (Z.max start k)) all
  | _ => False end.
Proof.
  unfold sends. rewrite !Z.sub_0_r. destruct r as [a|[text ra k| | |]]; try done.
  intros (H1 & _ & H2). rewrite Z.sub_0_r in H2. by rewrite Z.max_r.
Qed.

Lemma body_delivers wait r p s : sendable r -> good_id (document_message_id p) ->
  delivers (send_body E wait r p) s (fun b X => match b with
    | Ok (p', Ok v) => carries r p (parts_delivered p) p' (Ok v) X /\ good_id v
    | Ok (p', res) => carries r p (parts_delivered p) p' res X
    | Err _ => False end).
Proof.
  intros (Hc & Ht & Hto & _ & _) Hg. unfold send_body.
  destruct (String.eqb_spec (document_path (metadata r)) "") as [Hd|Hd].
  - eapply delivers_bind; [apply delivers_attempt, message_delivers| |intros e X []].
    { by rewrite o_chat_outgoing. } { unfold outgoing_of. rewrite Hd. by apply Ht. }
    intros a X s1 Ha%sends_all _. apply delivers_ret. rewrite app_nil_r. unfold carries, rest_of. rewrite Hd. cbn [String.eqb orb app].
    assert (String.eqb (o_text (outgoing_of r)) "" = false) as ->.
    { apply String.eqb_neq. unfold outgoing_of. rewrite Hd. by apply Ht. }
    destruct a as [mid|[text ra k| | |]]; cbn; try done; repeat split; try done. apply good_none_or_int.
  - rewrite Hto. cbn [negb].
    eapply delivers_bind with (R := fun d X => match d with
      | Ok (p1, Ok _) => parts_delivered p1 = parts_delivered p /\ document_delivered p1 = true /\ good_id (document_message_id p1) /\
          X = if document_delivered p then [] else [Document (document_of r)]
      | Ok (p1, Err (TelegramRateLimited _ _ k)) => p1 = p /\ document_delivered p = false /\ k = 0 /\ X = []
      | _ => False end).
    { destruct (document_delivered p) eqn:Edd; [by apply delivers_ret|].
      eapply delivers_bind with (R := fun a X => match a with Ok a => limited_or 0 [Document (document_of r)] a X | Err _ => False end).
      - apply delivers_attempt. unfold send_document. destruct (String.eqb_spec (d_chat (document_of r)) ""); [done|].
        by apply call_delivers.
      - intros a X s1 Ha _. apply delivers_ret. rewrite app_nil_r. destruct a as [mid|[text ra k| | |]]; cbn in *; try done.
        split; [done|]. split; [done|]. split; [apply good_none_or_int|done].
      - intros e X []. }
    2: intros e X [].
    intros [p1 [[]|e]] X s1 HR _.
    + destruct HR as (Ep & Edd & Hg1 & ->).
      assert (Hdoc : (if String.eqb (document_path (metadata r)) "" || document_delivered p then [] else [Document (document_of r)]) =
        if document_delivered p then [] else [Document (document_of r)]).
      { destruct (String.eqb_spec (document_path (metadata r)) ""); [done|]. done. }
      destruct (String.eqb_spec (o_text (outgoing_of r)) "") as [Et|Et].
      * apply delivers_ret. rewrite app_nil_r. split; [|done]. unfold carries, rest_of. rewrite Et, Hdoc. cbn [String.eqb].
        rewrite app_nil_r, Ep. repeat split; try done. by rewrite Edd.
      * eapply delivers_bind; [apply delivers_attempt, message_delivers; [by rewrite o_chat_outgoing|done]| |intros e X []].
        intros a Y s2 Ha%sends_all _. apply delivers_ret. rewrite app_nil_r. unfold carries, rest_of. rewrite Hdoc.
        destruct (String.eqb_spec (o_text (outgoing_of r)) ""); [done|]. rewrite Ep in *.
        destruct a as [mid|[text ra k| | |]]; cbn [fmap result_fmap parts_delivered document_delivered] in *; try done.
        -- repeat split; try done; [by rewrite Edd|by rewrite Ha].
        -- repeat split; try done; [by rewrite Edd|]. rewrite Edd, orb_true_r, ?Ep, Ha. cbn [app]. by rewrite app_assoc.
    + destruct e as [text ra k| | |]; try done. destruct HR as (-> & Edd & -> & ->). apply delivers_ret.
      unfold carries. repeat split; try done. cbn [app]. unfold rest_of. cbn [parts_delivered document_delivered].
      replace (Z.to_nat (Z.max (parts_delivered p) 0)) with (Z.to_nat (parts_delivered p)) by lia. done.
Qed.

Lemma retries_deliver n wait r : sendable r -> forall p last s, good_id (document_message_id p) ->
  (0 < n)%nat \/ last.2 <> None ->
  delivers (retries E n wait r p last) s (fun e X => match e with
    | Ok (Out v) => X = rest_of r p /\ good_id v
    | Ok (GaveUp p' _ (Some _)) => parts_delivered p <= parts_delivered p' /\
        (document_delivered p' = false -> document_delivered p = false) /\
        good_id (document_message_id p') /\ rest_of r p = X ++ rest_of r p'
    | _ => False end).
Proof.
  intros Hr. induction n as [|n IH]; intros p last s Hg Hn; cbn [retries].
  { apply delivers_ret. destruct last as [t [ra|]]; cbn in *; [done|]. destruct Hn as [Hn|Hn]; [lia|done]. }
  eapply delivers_bind; [apply (body_delivers wait r p s Hr Hg)| |intros e X []].
  intros [p1 [v|e]] X s1 HR _.
  { destruct HR as [(_ & _ & _ & HX) Hv]. apply delivers_ret. by rewrite app_nil_r. }
  destruct HR as (H1 & H2 & H3 & H4). destruct e as [text ra k| | |]; try done.
  destruct (negb wait).
  { apply delivers_ret. rewrite app_nil_r. split; [cbn; lia|]. by split. }
  eapply delivers_bind; [apply delivers_sleep| |by intros e Y [? _]].
  intros [] Y s2 [_ ->] _. eapply delivers_mono; [apply IH; [done|by right]|].
  intros [[v|p' te [ra'|]]|]; try done; intros Z.
  - intros [-> Hv]. split; [|done]. by rewrite H4.
  - intros (G1 & G2 & G3 & G4). cbn [parts_delivered document_delivered] in *. split; [lia|]. split; [auto|]. split; [done|].
    rewrite H4, G4. cbn [app]. by rewrite app_assoc.
Qed.

(** ** The store's part *)
Lemma stored_through {A} (m : M A) s : stored E m s = m (s.1, mkLocal (S (l_step s.2)) (l_log s.2)).
Proof. unfold stored, mbind, M_bind, ask. cbn. by rewrite (store_answers E HE). Qed.

Lemma record_delivers id r mid t l : t !! id = Some r ->
  (forall i m, answered r mid = Some (i, m) -> int_of_str i <> None) ->
  exists now l', _record_sent E RECORD_SENT_ATTEMPTS id mid (t, l) =
    (Ok tt, (<[id := with_message_id mid (with_status 1 (Some now) r)]> t, l')) /\ deliveries l' = deliveries l.
Proof.
  intros Ht Hi. unfold RECORD_SENT_ATTEMPTS. cbn [_record_sent]. unfold mbind at 1, M_bind at 1, attempt at 1.
  unfold mark_telegram_send_message_sent. rewrite stored_through. unfold mbind, M_bind, ask, read. cbn [fst snd l_step l_log].
  rewrite Ht. cbv zeta. destruct (answered r mid) as [[i m]|] eqn:Ea.
  - specialize (Hi i m eq_refl). destruct (int_of_str i) as [j|]; [|done]. cbn.
    eexists _, _. split; [reflexivity|]. unfold deliveries. cbn. rewrite List.filter_app. cbn. apply app_nil_r.
  - cbn. eexists _, _. split; reflexivity.
Qed.

Lemma get_set_ne k k' v d : k <> k' -> get (assoc_set k v d) k' = get d k'.
Proof. intros H. unfold get. by rewrite assoc_set_ne. Qed.
Lemma get_set_eq k v d : get (assoc_set k v d) k = v.
Proof. unfold get. by rewrite assoc_set_eq. Qed.

(** What a deferral writes is read back by the next send. *)
Definition deferred (text : string) (p : progress) (r : SendRow) : SendRow :=
  with_metadata (update_with (assoc_set "last_fail_text" (PStr text) (metadata r)) (resume_of p)) (with_status 0 (send_date r) r).

Lemma deferred_get text p r k : k ∉ ["last_fail_text"; "parts_delivered"; "document_delivered"; "document_message_id"] ->
  get (metadata (deferred text p r)) k = get (metadata r) k.
Proof.
  intros Hk. rewrite !list.elem_of_cons in Hk. assert (k <> "last_fail_text" /\ k <> "parts_delivered" /\ k <> "document_delivered" /\ k <> "document_message_id") as (? & ? & ? & ?).
  { repeat split; intros ->; apply Hk; auto. }
  unfold deferred, resume_of, update_with. cbn [metadata with_metadata].
  destruct (parts_delivered p =? 0), (document_delivered p); cbn [app fold_left fst snd]; by rewrite !get_set_ne.
Qed.
Lemma deferred_progress text p r p0 : stored_progress (metadata r) = Ok p0 -> good_id (document_message_id p0) ->
  parts_delivered p0 <= parts_delivered p -> (document_delivered p = false -> document_delivered p0 = false) ->
  good_id (document_message_id p) ->
  exists p', stored_progress (metadata (deferred text p r)) = Ok p' /\ good_id (document_message_id p') /\
    Z.to_nat (parts_delivered p') = Z.to_nat (parts_delivered p) /\ document_delivered p' = document_delivered p.
Proof.
  intros H0 Hg0 Hle Hdd Hg. unfold stored_progress in *.
  assert (Hparts : exists n, py_int (py_or (get (metadata (deferred text p r)) "parts_delivered") (PInt 0)) = n /\
    (if parts_delivered p =? 0 then n = py_int (py_or (get (metadata r) "parts_delivered") (PInt 0)) else n = Ok (parts_delivered p))).
  { eexists. split; [reflexivity|]. unfold deferred, resume_of, update_with. cbn [metadata with_metadata].
    destruct (Z.eqb_spec (parts_delivered p) 0) as [E0|E0]; destruct (document_delivered p); cbn [app fold_left fst snd].
    1, 2: by rewrite !get_set_ne by done.
    all: rewrite ?(get_set_ne "document_message_id"), ?(get_set_ne "document_delivered"), get_set_eq by done.
    all: unfold py_or, truthy; by apply Z.eqb_neq in E0; rewrite ?E0. }
  destruct Hparts as (n & -> & Hn).
  assert (Hdoc : get (metadata (deferred text p r)) "document_delivered" =
    if document_delivered p then PBool true else get (metadata r) "document_delivered").
  { unfold deferred, resume_of, update_with. cbn [metadata with_metadata].
    destruct (parts_delivered p =? 0), (document_delivered p); cbn [app fold_left fst snd];
      rewrite ?(get_set_ne "document_message_id"), ?get_set_eq by done; by rewrite ?get_set_ne by done. }
  assert (Hid : get (metadata (deferred text p r)) "document_message_id" =
    if document_delivered p then document_message_id p else get (metadata r) "document_message_id").
  { unfold deferred, resume_of, update_with. cbn [metadata with_metadata].
    destruct (parts_delivered p =? 0), (document_delivered p); cbn [app fold_left fst snd];
      rewrite ?get_set_eq by done; by rewrite ?get_set_ne by done. }
  rewrite Hdoc, Hid.
  assert (exists m, match n with Ok n => Ok n | Err OverflowError => Err Unreadable | Err _ => Ok 0 end = @Ok exn Z m /\
     Z.to_nat m = Z.to_nat (parts_delivered p)) as (m & -> & Hm).
  { destruct (Z.eqb_spec (parts_delivered p) 0) as [E0|E0]; subst n; [|by eexists].
    destruct (match py_int _ with Ok n => _ | Err _ => _ end) as [m|] eqn:Em; [|done].
    injection H0 as <-. cbn in Hle. exists m. split; [done|]. lia. }
  destruct (match py_int (py_or (get (metadata r) _) _) with Ok n => _ | Err _ => _ end) as [m0|]; [|done].
  injection H0 as <-. cbn in *. eexists. split; [reflexivity|]. cbn. split; [by destruct (document_delivered p)|].
  split; [done|]. destruct (document_delivered p); [done|]. by apply Hdd.
Qed.

Lemma rest_of_cong r r' p p' : outgoing_of r' = outgoing_of r -> document_of r' = document_of r ->
  document_path (metadata r') = document_path (metadata r) ->
  Z.to_nat (parts_delivered p') = Z.to_nat (parts_delivered p) -> document_delivered p' = document_delivered p ->
  rest_of r' p' = rest_of r p.
Proof. unfold rest_of. by intros -> -> -> -> ->. Qed.

Lemma deferred_still_to_send text p r p0 : sendable r -> stored_progress (metadata r) = Ok p0 ->
  parts_delivered p0 <= parts_delivered p -> (document_delivered p = false -> document_delivered p0 = false) ->
  good_id (document_message_id p) ->
  sendable (deferred text p r) /\ still_to_send (deferred text p r) = rest_of r p.
Proof.
  intros (Hc & Ht & Hto & (p1 & E1 & Hg1) & Ha) H0 Hle Hdd Hg. rewrite H0 in E1. injection E1 as <-.
  destruct (deferred_progress text p r p0 H0 Hg1 Hle Hdd Hg) as (p' & E' & Hg' & Hn & Hd).
  assert (Hk : forall k, bool_decide (k ∈ ["last_fail_text"; "parts_delivered"; "document_delivered"; "document_message_id"]) = false ->
    get (metadata (deferred text p r)) k = get (metadata r) k).
  { intros k ?%bool_decide_eq_false. by apply deferred_get. }
  assert (Hpath : document_path (metadata (deferred text p r)) = document_path (metadata r)).
  { unfold document_path. by rewrite Hk by done. }
  split.
  - split; [done|]. rewrite Hpath. split; [done|]. split; [unfold timeout_ok; by rewrite Hk by done|].
    split; [by exists p'|done].
  - unfold still_to_send. rewrite E'. apply rest_of_cong; try done.
    + unfold outgoing_of. rewrite Hpath. unfold reply_markup_from_metadata. by rewrite !Hk by done.
    + unfold document_of. by rewrite Hpath.
Qed.

(** One send of a pending row. *)
Lemma send_one_patient n wait id t l r : t !! id = Some r -> send_status r = 0 -> sendable r ->
  exists res t' l' r' X, send_one_message E n wait id (t, l) = (Ok res, (t', l')) /\ t' !! id = Some r' /\
    deliveries l' = deliveries l ++ X /\
    ((send_status r' = 1 /\ res = Sent /\ X = still_to_send r) \/
     (send_status r' = 0 /\ (exists ra, res = RateLimited ra) /\ sendable r' /\ still_to_send r = X ++ still_to_send r')).
Proof.
  intros Ht Hs Hr. unfold send_one_message, mbind at 1, M_bind at 1, fetch_telegram_send_message.
  rewrite stored_through. unfold read. cbn [fst snd]. rewrite Ht, Hs. cbn [Z.eqb negb].
  unfold mbind at 1, M_bind at 1, mark_telegram_send_message_processing. rewrite stored_through.
  unfold mbind at 1 2 3, M_bind at 1 2 3, ask, read, set_row, mret at 1, M_ret at 1. cbn [fst snd l_step l_log]. rewrite Ht, Hs. cbn [Z.eqb negb fst snd].
  set (r2 := with_status 2 _ r). set (l2 := mkLocal _ _). set (t2 := <[id := r2]> t).
  assert (Hr2 := Hr). destruct Hr2 as (_ & _ & _ & (p & Hp & Hg) & Hint).
  unfold mbind at 1, M_bind at 1, lift at 1. rewrite Hp. unfold mbind at 1, M_bind at 1.
  assert (still_to_send r = rest_of r p) as Hst by (unfold still_to_send; by rewrite Hp).
  destruct (retries_deliver (Z.to_nat (Z.max 1 n)) wait r Hr p ("", None) (t2, l2) Hg ltac:(left; lia)) as (e & l3 & X & -> & Hd & He).
  cbn [fst snd] in *. change (deliveries l2) with (deliveries l) in Hd.
  assert (t2 !! id = Some r2) as Ht2 by apply lookup_insert_eq.
  destruct e as [[v|p' text [ra|]]|]; try done.
  - destruct He as [-> Hv]. unfold mbind at 1, M_bind at 1, lift.
    assert (exists m, extract_sent_message_id v = Ok m) as [m ->] by (destruct Hv as [->|[m ->]]; cbn; eauto).
    unfold mbind, M_bind. destruct (record_delivers id r2 m t2 l3 Ht2) as (now & l4 & -> & Hd4); [apply Hint|].
    eexists _, _, _, _, _. split; [reflexivity|]. split; [apply lookup_insert_eq|]. rewrite Hd4. split; [exact Hd|]. left. by rewrite Hst.
  - destruct He as (H1 & H2 & H3 & H4). unfold mbind, M_bind, reset_telegram_send_message_pending.
    rewrite stored_through. unfold mbind, M_bind, read. cbn [fst snd]. rewrite Ht2. unfold set_row. cbn.
    eexists _, _, _, _, _. split; [reflexivity|]. split; [apply lookup_insert_eq|].
    split; [exact Hd|]. right. split; [done|]. split; [eauto|].
    assert (sendable r2 /\ stored_progress (metadata r2) = Ok p /\ rest_of r2 p' = rest_of r p') as (S1 & S2 & S3).
    { split; [exact Hr|]. split; [exact Hp|]. done. }
    destruct (deferred_still_to_send text p' r2 p S1 S2 H1 H2 H3) as [D1 D2].
    split; [exact D1|]. unfold deferred in D2. rewrite Hst, H4. cbn in *. by rewrite D2, S3.
Qed.
End Limits.

(** ** Again and again: the sends of one row, each by a process of its own *)
Fixpoint again (id : Z) (sends : list (Env * (Z * bool))) (t : table) : table * list event :=
  match sends with
  | [] => (t, [])
  | (E, (n, wait)) :: sends =>
      let '(_, (t, l)) := send_one_message E n wait id (t, fresh_local) in
      let '(t, out) := again id sends t in (t, deliveries l ++ out)
  end.

Lemma again_settled id sends t r : (forall E n, (E, n) ∈ sends -> patient E) -> t !! id = Some r -> send_status r <> 0 ->
  again id sends t = (t, []).
Proof.
  intros HE Ht Hs. induction sends as [|[E [n wait]] sends IH]; [done|]. cbn [again].
  unfold send_one_message, mbind at 1, M_bind at 1, fetch_telegram_send_message.
  rewrite stored_through by (eapply HE; by left). unfold read. cbn [fst snd]. rewrite Ht.
  apply Z.eqb_neq in Hs. rewrite Hs. cbn. rewrite IH; [done|]. intros E' n' H. eapply HE. by right.
Qed.

(** C15: As long as Telegram's only refusal is a rate limit and the store answers, however often
    a row is sent again, by whichever pass, its document and the parts of its text reach the
    chat once each and in order: what was delivered followed by what the row still has to send
    is what it had to send at first, and a row marked sent has delivered it all. *)
Theorem limits_cost_no_part id sends t r : (forall E n, (E, n) ∈ sends -> patient E) ->
  t !! id = Some r -> send_status r = 0 -> sendable r ->
  exists r', (again id sends t).1 !! id = Some r' /\
    ((send_status r' = 1 /\ (again id sends t).2 = still_to_send r) \/
     (send_status r' = 0 /\ sendable r' /\ (again id sends t).2 ++ still_to_send r' = still_to_send r)).
Proof.
  intros HE. revert t r. induction sends as [|[E [n wait]] sends IH]; intros t r Ht Hs Hr.
  { exists r. split; [done|]. right. done. }
  cbn [again]. destruct (send_one_patient E (HE E _ ltac:(by left)) n wait id t fresh_local r Ht Hs Hr)
    as (res & t1 & l1 & r1 & X & -> & Ht1 & Hd & Hcase).
  change (deliveries fresh_local) with (@nil event) in Hd. cbn [app] in Hd.
  destruct Hcase as [(Hs1 & _ & HX)|(Hs1 & _ & Hr1 & HX)].
  - rewrite (again_settled id sends t1 r1); [|intros E' n' H; eapply HE; by right|done|lia].
    exists r1. split; [done|]. left. split; [done|]. cbn. by rewrite app_nil_r, Hd.
  - destruct (IH ltac:(intros E' n' H; eapply HE; by right) t1 r1 Ht1 Hs1 Hr1) as (r' & Hr' & Hout).
    destruct (again id sends t1) as [t2 out]. cbn [fst snd] in *. exists r'. split; [done|].
    destruct Hout as [[H1 H2]|(H1 & H2 & H3)]; [left|right].
    + split; [done|]. by rewrite Hd, HX, H2.
    + split; [done|]. split; [done|]. by rewrite <-app_assoc, H3, Hd, HX.
Qed.

(** Two parts: the second is put off, and a later pass delivers it. *)
Definition two_parts : SendRow :=
  mkRow "2026-01-01T10:00:00Z" (Some "a") long_text 0 None None None None None None [].
Definition env_of (answers : nat -> answer) : Env :=
  {| ev_answer := answers; ev_store := fun _ => true; ev_utc := fun _ => "2026-01-01T10:00:00Z"; ev_clock := fun _ => 0 |}.
Definition two_passes : list (Env * (Z * bool)) :=
  [(env_of (fun k => if (k <=? 3)%nat then Delivered (Some 7) else TooMany "" (Some (seconds 1))), (3, false));
   (env_of (fun _ => Delivered (Some 8)), (3, false))].

Lemma limits_cost_no_part_witness : exists r',
  (again 1 two_passes {[1 := two_parts]}).1 !! 1 = Some r' /\ send_status r' = 1 /\
  (again 1 two_passes {[1 := two_parts]}).2 = still_to_send two_parts.
Proof.
  assert (forall E n, (E, n) ∈ two_passes -> patient E) as HE.
  { intros E n [[= -> ->]|[[= -> ->]|H%elem_of_nil]%list.elem_of_cons]%list.elem_of_cons; [..|done]; split; try done.
    intros k. cbn. by destruct (k <=? 3)%nat. }
  assert (sendable two_parts) as Hs.
  { split; [done|]. split; [done|]. split; [done|]. split; [|done]. eexists. split; [vm_compute; reflexivity|]. by left. }
  destruct (limits_cost_no_part 1 two_passes {[1 := two_parts]} two_parts HE (lookup_singleton_eq _ _) eq_refl Hs) as (r' & Hr & [[H1 H2]|[H1 _]]).
  - exact (ex_intro _ r' (conj Hr (conj H1 H2))).
  - exfalso. assert (send_status <$> (again 1 two_passes {[1 := two_parts]}).1 !! 1 = Some 1) as H by (vm_compute; reflexivity).
    rewrite Hr in H. cbn in H. congruence.
Defined.
