(* ===== verification/DeleteFiles.v ===== *)
(** * Deleting files by their full path ([common/deletefiles.py]), the host block of a
    request ([parse_host] of [common/hostcmd.py]) and what [shlex] and [lib/powershell.py]
    quote.

    The machine is an interface: it opens a connection and runs a command's text.  What the
    shell makes of the text is the machine's; [sh_word] reads the fragment of its language the
    commands are written in. *)

From S2P Require Import Prelude Py.

(** ** The host block *)
Definition WINDOWS : string := "windows".
Definition LINUX : string := "linux".
Definition DOCKER : string := "docker".
Definition K8S : string := "k8s".
Definition RUNTIMES : list string := [WINDOWS; LINUX; DOCKER; K8S].
Definition SSH : string := "ssh".
Definition WINRM : string := "winrm".
Definition ACCESSES : list string := [SSH; WINRM].

Record Host := mkHost {
  h_runtime : string; h_host : string; h_port : Z; h_username : string; h_password : string;
  h_key_file : string; h_container : string; h_pod : string; h_namespace : string;
  h_pod_container : string; h_sudo : bool; h_access : string; h_ssl : bool; h_winrm_auth : string }.
Definition this_machine : Host := mkHost LINUX "" 22 "" "" "" "" "" "default" "" false SSH false "negotiate".
Definition is_local (h : Host) : bool := String.eqb (h_host h) "".
Definition is_windows (h : Host) : bool := String.eqb (h_runtime h) WINDOWS.

Inductive host_error : Type :=
| HostNotObject | RuntimeUnknown (runtime : string) | AccessUnknown (access : string)
| PortNotInt (e : pyexn) | ContainerRequired | PodRequired.

(** [str(raw.get(key) or otherwise).strip()]. *)
Definition text_of (raw : pydict) (key otherwise : string) : string :=
  strip (str (py_or (get raw key) (PStr otherwise))).
Definition flag (raw : pydict) (key : string) : bool := truthy (get raw key).

Definition parse_host (raw : pyval) : result host_error Host :=
  match raw with
  | PNone | PDict [] => Ok this_machine
  | PDict d =>
      let runtime := lower (text_of d "runtime" LINUX) in
      if negb (bool_decide (runtime ∈ RUNTIMES)) then Err (RuntimeUnknown runtime)
      else
        let access := lower (strip (str (py_or (py_or (get d "access") (get d "method")) (PStr SSH)))) in
        let access := if String.eqb access "local" then SSH else access in
        if negb (bool_decide (access ∈ ACCESSES)) then Err (AccessUnknown access)
        else
          let ssl := flag d "ssl" in
          let default_port := if String.eqb access WINRM then if ssl then 5986 else 5985 else 22 in
          let auth := strip (str (py_or (py_or (get d "auth") (get d "winrm_auth")) (PStr "negotiate"))) in
          match py_int (py_or (get d "port") (PInt default_port)) with
          | Err e => Err (PortNotInt e)
          | Ok port =>
              let host := mkHost runtime (text_of d "host" "") port (text_of d "username" "")
                (str (py_or (get d "password") (PStr ""))) (text_of d "key_file" "")
                (text_of d "container" "") (text_of d "pod" "") (text_of d "namespace" "default")
                (text_of d "pod_container" "") (flag d "sudo") access ssl
                (if String.eqb auth "" then "negotiate" else auth) in
              if String.eqb runtime DOCKER && String.eqb (h_container host) "" then Err ContainerRequired
              else if String.eqb runtime K8S && String.eqb (h_pod host) "" then Err PodRequired
              else Ok host
          end
  | _ => Err HostNotObject
  end.

(** ** Quoting *)
Definition quote_char : ascii := chr 39.
Definition double_quote_char : ascii := chr 34.
Definition dq : string := String double_quote_char "".

(** [shlex.quote]. *)
Definition shell_safe (c : ascii) : bool := is_alnum c || bool_decide (c ∈ chars "_@%+=:,./-").
Definition escaped_quote : list ascii :=
  [quote_char; double_quote_char; quote_char; double_quote_char; quote_char].
Definition in_quotes (l : list ascii) : list ascii :=
  concat (map (fun c => if bool_decide (c = quote_char) then escaped_quote else [c]) l).
Definition shell_quote_chars (l : list ascii) : list ascii :=
  match l with
  | [] => [quote_char; quote_char]
  | _ => if forallb shell_safe l then l else quote_char :: in_quotes l ++ [quote_char]
  end.
Definition shell_quote (s : string) : string := text (shell_quote_chars (chars s)).

(** [_ps_quote]: the single quote and its four typographic forms (as UTF-8), each doubled. *)
Definition _SINGLE_QUOTES : list (list ascii) :=
  [[chr 39]; map chr [226; 128; 152]; map chr [226; 128; 153]; map chr [226; 128; 154]; map chr [226; 128; 155]].
(** [s.replace(old, old + old)]; [skip] counts what is left of an occurrence. *)
Fixpoint double_every (old : list ascii) (skip : nat) (l : list ascii) : list ascii :=
  match l with
  | [] => []
  | c :: rest =>
      match skip with
      | S skip => c :: double_every old skip rest
      | O => if is_prefix old l then old ++ c :: double_every old (length old - 1) rest
             else c :: double_every old 0 rest
      end
  end.
Definition _ps_quote (s : string) : string :=
  text (quote_char :: fold_left (fun l old => double_every old 0 l) _SINGLE_QUOTES (chars s) ++ [quote_char]).

(** ** The commands *)
Definition _posix_command (path : string) (dry_run : bool) : string :=
  let quoted := shell_quote path in
  let act := if dry_run then "echo " +:+ dq +:+ "WOULD $S" +:+ dq
    else "if rm -f " +:+ quoted +:+ " 2>/dev/null; then echo " +:+ dq +:+ "DELETED $S" +:+ dq
         +:+ "; else echo " +:+ dq +:+ "FAILED $S" +:+ dq +:+ "; fi" in
  "if [ -d " +:+ quoted +:+ " ]; then echo " +:+ dq +:+ "DIR 0" +:+ dq
  +:+ "; elif [ -e " +:+ quoted +:+ " ]; then S=$(stat -c %s " +:+ quoted
  +:+ " 2>/dev/null || echo 0); " +:+ act +:+ "; else echo " +:+ dq +:+ "MISSING 0" +:+ dq +:+ "; fi".
Definition _windows_command (path : string) (dry_run : bool) : string :=
  let quoted := _ps_quote path in
  let act := if dry_run then dq +:+ "WOULD $s" +:+ dq
    else "Remove-Item -LiteralPath " +:+ quoted +:+ " -Force -ErrorAction SilentlyContinue; "
         +:+ "if (Test-Path -LiteralPath " +:+ quoted +:+ ") { " +:+ dq +:+ "FAILED $s" +:+ dq
         +:+ " } else { " +:+ dq +:+ "DELETED $s" +:+ dq +:+ " }" in
  "if (Test-Path -LiteralPath " +:+ quoted +:+ " -PathType Container) { " +:+ dq +:+ "DIR 0" +:+ dq
  +:+ " } elseif (Test-Path -LiteralPath " +:+ quoted +:+ ") { $s = (Get-Item -LiteralPath " +:+ quoted
  +:+ ").Length; " +:+ act +:+ " } else { " +:+ dq +:+ "MISSING 0" +:+ dq +:+ " }".

(** ** The refusals, before anything is deleted *)
Inductive delete_error : Type :=
| BadHost (e : host_error) | PathsAreText | NoPaths | PathsNotIterable   (* a [TypeError] *)
| PathRequired | PathIsPattern (path : string) | PathNotAbsolute (path : string)
| PathHasDots (path : string) | PathOutside (path root : string)
| NoConnection (reason : string).

Definition WILDCARDS : list string := ["*"; "?"; "["].
Definition _is_absolute (path : string) (host : Host) : bool :=
  if is_windows host then
    startswith path "\\"
    || match chars path with
       | _ :: c1 :: c2 :: _ => bool_decide (c1 = ":"%char) && bool_decide (c2 ∈ chars "\/")
       | _ => false
       end
  else startswith path "/".

(** [re.split] on runs of separators; [in_run] while inside one. *)
Fixpoint re_split (sep : ascii -> bool) (in_run : bool) (l : list ascii) : list (list ascii) :=
  match l with
  | [] => [[]]
  | c :: l =>
      if sep c then if in_run then re_split sep true l else [] :: re_split sep true l
      else match re_split sep false l with
           | w :: ws => (c :: w) :: ws
           | [] => [[c]]
           end
  end.
Definition is_slash (c : ascii) : bool := bool_decide (c ∈ chars "\/").
Definition is_dots (part : list ascii) : bool := bool_decide (part = chars "." \/ part = chars "..").

Definition separator (host : Host) : ascii := if is_windows host then "\"%char else "/"%char.
Definition normalised (host : Host) (path : string) : string :=
  if is_windows host then lower (replace_char "/" "\" path) else path.
Definition _under (path root : string) (host : Host) : bool :=
  let sep := String (separator host) "" in
  startswith (normalised host path) (rstrip_chars sep (normalised host root) +:+ sep).

Definition _validated_path (value : pyval) (host : Host) (must_be_under : pyval) : result delete_error string :=
  let path := strip (str (py_or value (PStr ""))) in
  let root := strip (str (py_or must_be_under (PStr ""))) in
  if String.eqb path "" then Err PathRequired
  else if existsb (fun w => contains w path) WILDCARDS then Err (PathIsPattern path)
  else if negb (_is_absolute path host) then Err (PathNotAbsolute path)
  else if existsb is_dots (re_split is_slash false (chars path)) then Err (PathHasDots path)
  else if negb (String.eqb root "") && negb (_under path root host) then Err (PathOutside path root)
  else Ok path.

(** ** The machine, and one file *)
Inductive Answer : Type := Ran (stdout stderr : string) | NotRun (reason : string).
Class Machine (W : Type) := {
  open_session : Host -> W -> option string * W;     (* why there is no connection *)
  run : Host -> string -> W -> Answer * W }.

Definition DELETED : string := "deleted".
Definition NOT_FOUND : string := "not_found".
Definition SKIPPED : string := "skipped".
Definition FAILED : string := "failed".
Record Row := mkRow { r_path : string; r_status : string; r_size : Z; r_reason : string }.

(** [text.partition(" ")], without the separator. *)
Definition token_of (l : list ascii) : list ascii := take_while (fun c => negb (bool_decide (c = " "%char))) l.
Definition after_token (l : list ascii) : list ascii := drop (S (length (token_of l))) l.
Definition size_of (size_text : string) : Z :=
  match parse_digits (chars (strip size_text)) with Some n => n | None => 0 end.
Definition read_answer (path : string) (a : Answer) : Row :=
  match a with
  | NotRun reason => mkRow path FAILED 0 reason
  | Ran stdout stderr =>
      let out := chars (strip stdout) in
      let token := text (token_of out) in
      let size := size_of (text (after_token out)) in
      if String.eqb token "DELETED" then mkRow path DELETED size ""
      else if String.eqb token "WOULD" then mkRow path SKIPPED size "dry_run: not deleted"
      else if String.eqb token "MISSING" then mkRow path NOT_FOUND 0 "already gone"
      else if String.eqb token "DIR" then
        mkRow path FAILED 0 "path is a directory; this command deletes files only"
      else mkRow path FAILED 0
             (if String.eqb (strip stderr) "" then "unexpected output " +:+ repr_str (strip stdout)
              else strip stderr)
  end.
Definition command_for (host : Host) (path : string) (dry_run : bool) : string :=
  if is_windows host then _windows_command path dry_run else _posix_command path dry_run.

Section machine.
Context {W : Type} `{Machine W}.

Definition _delete_one (host : Host) (path : string) (dry_run : bool) (w : W) : Row * W :=
  let '(a, w) := run host (command_for host path dry_run) w in (read_answer path a, w).

Fixpoint delete_each (host : Host) (dry_run stop_on_error : bool) (paths : list string) (w : W)
    : list Row * W :=
  match paths with
  | [] => ([], w)
  | path :: rest =>
      let '(row, w) := _delete_one host path dry_run w in
      if stop_on_error && String.eqb (r_status row) FAILED then ([row], w)
      else let '(rows, w) := delete_each host dry_run stop_on_error rest w in (row :: rows, w)
  end.

(** ** The request *)
Record Deletion := mkDeletion {
  files : list Row; counts : list (string * Z); freed_bytes : Z; failed : list string;
  d_dry_run : bool; stopped_early : bool }.
Definition count_status (rows : list Row) (status : string) : Z :=
  Z.of_nat (length (List.filter (fun r => String.eqb (r_status r) status) rows)).
Definition _totals (rows : list Row) (dry_run stopped : bool) : Deletion :=
  mkDeletion rows (map (fun s => (s, count_status rows s)) [DELETED; NOT_FOUND; SKIPPED; FAILED])
    (foldr Z.add 0 (map r_size (List.filter (fun r => String.eqb (r_status r) DELETED) rows)))
    (map r_path (List.filter (fun r => String.eqb (r_status r) FAILED) rows)) dry_run stopped.

Fixpoint validated_paths (host : Host) (must_be_under : pyval) (raw : list pyval)
    : result delete_error (list string) :=
  match raw with
  | [] => Ok []
  | v :: raw => path ← _validated_path v host must_be_under;
                paths ← validated_paths host must_be_under raw; Ok (path :: paths)
  end.
(** [request["paths"]]: a text, or the items of a list. *)
Definition named_paths (raw : pyval) : result delete_error (list pyval) :=
  match raw with
  | PStr _ => Err PathsAreText
  | PList (v :: vs) => Ok (v :: vs)
  | PDict ((k, v) :: d) => Ok (map (fun p => PStr p.1) ((k, v) :: d))
  | v => Err (if truthy v then PathsNotIterable else NoPaths)
  end.
Definition checked (request : pydict) : result delete_error (Host * list string) :=
  match parse_host (get request "host") with
  | Err e => Err (BadHost e)
  | Ok host => raw ← named_paths (get request "paths");
               paths ← validated_paths host (get request "must_be_under") raw; Ok (host, paths)
  end.

Definition delete_files (request : pydict) (w : W) : result delete_error Deletion * W :=
  match checked request with
  | Err e => (Err e, w)
  | Ok (host, paths) =>
      let dry_run := flag request "dry_run" in
      let '(refused, w) := if is_local host then (None, w) else open_session host w in
      match refused with
      | Some reason => (Err (NoConnection reason), w)
      | None =>
          let '(rows, w) := delete_each host dry_run (flag request "stop_on_error") paths w in
          (Ok (_totals rows dry_run (length rows <? length paths)%nat), w)
      end
  end.

(** [delete_file]: one path, over a connection of its own. *)
Definition delete_file (request : pydict) (w : W) : result delete_error Deletion * W :=
  match parse_host (get request "host") with
  | Err e => (Err (BadHost e), w)
  | Ok host =>
      match _validated_path (get request "path") host (get request "must_be_under") with
      | Err e => (Err e, w)
      | Ok path =>
          let dry_run := flag request "dry_run" in
          let '(row, w) := _delete_one host path dry_run w in
          (Ok (_totals [row] dry_run false), w)
      end
  end.
End machine.

(** ** What the shell reads *)
(** One word of the POSIX shell up to a blank, and what follows it; [q] is the quote the reader
    is inside of.  [None] outside the fragment without expansions, globs and operators. *)
Definition is_blank (c : ascii) : bool := bool_decide (c = " "%char).
Definition shell_special (c : ascii) : bool := negb (shell_safe c).
Definition expands (c : ascii) : bool := bool_decide (c ∈ chars "$`\").
Fixpoint sh_word (q : option ascii) (l : list ascii) : option (list ascii * list ascii) :=
  match l, q with
  | [], None => Some ([], [])
  | [], Some _ => None
  | c :: rest, None =>
      if is_blank c then Some ([], l)
      else if bool_decide (c = quote_char) || bool_decide (c = double_quote_char) then sh_word (Some c) rest
      else if shell_special c then None
      else '(w, after) ← sh_word None rest; Some (c :: w, after)
  | c :: rest, Some d =>
      if bool_decide (c = d) then sh_word None rest
      else if bool_decide (d = double_quote_char) && expands c then None
      else '(w, after) ← sh_word q rest; Some (c :: w, after)
  end.

Lemma safe_not_special c : shell_safe c = true ->
  is_blank c = false /\ bool_decide (c = quote_char) = false
  /\ bool_decide (c = double_quote_char) = false /\ shell_special c = false.
Proof. destruct c as [[] [] [] [] [] [] [] []]; vm_compute; naive_solver. Qed.
Lemma sh_word_safe l rest : Forall (fun c => shell_safe c = true) l ->
  sh_word None (l ++ " "%char :: rest) = Some (l, " "%char :: rest).
Proof.
  induction 1 as [|c l Hc _ IH]; [done|].
  destruct (safe_not_special c Hc) as (H1 & H2 & H3 & H4).
  cbn [app sh_word]. rewrite H1, H2, H3, H4. cbn [orb]. rewrite IH. done.
Qed.
Lemma sh_word_single c rest : c <> quote_char ->
  sh_word (Some quote_char) (c :: rest)
  = '(w, after) ← sh_word (Some quote_char) rest; Some (c :: w, after).
Proof. intros H. cbn [sh_word]. by rewrite bool_decide_false by done. Qed.
Lemma sh_word_escaped rest :
  sh_word (Some quote_char) (escaped_quote ++ rest)
  = '(w, after) ← sh_word (Some quote_char) rest; Some (quote_char :: w, after).
Proof. reflexivity. Qed.
Lemma sh_word_quoted l rest :
  sh_word (Some quote_char) (in_quotes l ++ quote_char :: " "%char :: rest) = Some (l, " "%char :: rest).
Proof.
  induction l as [|c l IH]; [done|]. unfold in_quotes in *. cbn [map concat].
  case_bool_decide as Hc.
  - subst c. rewrite <-app_assoc, sh_word_escaped, IH. done.
  - rewrite <-app_assoc. cbn [app]. rewrite sh_word_single by done. rewrite IH. done.
Qed.
Lemma sh_word_quote_chars l rest :
  sh_word None (shell_quote_chars l ++ " "%char :: rest) = Some (l, " "%char :: rest).
Proof.
  unfold shell_quote_chars. destruct l as [|c l]; [done|].
  destruct (forallb shell_safe (c :: l)) eqn:E.
  - apply sh_word_safe. apply list.Forall_forall. intros x Hx. rewrite forallb_forall in E.
    by apply E, list_elem_of_In.
  - change (sh_word None ((quote_char :: ?x) ++ ?y)) with (sh_word (Some quote_char) (x ++ y)).
    rewrite <-app_assoc. cbn [app]. apply sh_word_quoted.
Qed.

(** The POSIX command names one path. *)
Lemma app_cancel {A} (p x y : list A) : p ++ x = p ++ y -> x = y.
Proof. apply (inj (app p)). Qed.
Lemma posix_head path dry : exists rest,
  chars (_posix_command path dry) = chars "if [ -d " ++ shell_quote_chars (chars path) ++ " "%char :: rest.
Proof.
  unfold _posix_command. rewrite !chars_app. unfold shell_quote. rewrite chars_text.
  eexists. reflexivity.
Qed.
Lemma posix_command_path p p' dry dry' : _posix_command p dry = _posix_command p' dry' -> p = p'.
Proof.
  intros H. destruct (posix_head p dry) as [r Hr], (posix_head p' dry') as [r' Hr'].
  rewrite H, Hr' in Hr. apply app_cancel in Hr.
  pose proof (sh_word_quote_chars (chars p) r) as H1. pose proof (sh_word_quote_chars (chars p') r') as H2.
  rewrite Hr in H2. rewrite H1 in H2. injection H2 as Hc _. by rewrite <-(text_chars p), Hc, text_chars.
Qed.
Lemma posix_command_dry p : _posix_command p true <> _posix_command p false.
Proof.
  intros H. apply (f_equal chars) in H. unfold _posix_command in H. rewrite !chars_app in H.
  rewrite <-!app_assoc in H. repeat apply app_cancel in H. discriminate H.
Qed.

(** ** What the fence is about: the names a path goes through *)
Fixpoint pieces (sep : ascii -> bool) (l : list ascii) : list (list ascii) :=
  match l with
  | [] => [[]]
  | c :: l =>
      if sep c then [] :: pieces sep l
      else match pieces sep l with w :: ws => (c :: w) :: ws | [] => [[c]] end
  end.
Definition named_part (part : list ascii) : bool := negb (bool_decide (part = [])).
Definition names (host : Host) (path : string) : list (list ascii) :=
  List.filter named_part (pieces (fun c => bool_decide (c = separator host)) (chars (normalised host path))).
(** Entering the names one by one: [.] stays, [..] goes back. *)
Definition enter (dirs : list (list ascii)) (part : list ascii) : list (list ascii) :=
  if bool_decide (part = chars ".") then dirs
  else if bool_decide (part = chars "..") then removelast dirs
  else dirs ++ [part].
Definition leads_to (host : Host) (path : string) : list (list ascii) :=
  fold_left enter (names host path) [].

Lemma pieces_cons sep l : exists w ws, pieces sep l = w :: ws.
Proof.
  induction l as [|c l (w & ws & IH)]; cbn; [by eexists _, _|].
  destruct (sep c); [by eexists _, _|]. rewrite IH. by eexists _, _.
Qed.
Lemma pieces_app sep a c b : sep c = true -> pieces sep (a ++ c :: b) = pieces sep a ++ pieces sep b.
Proof.
  intros Hc. induction a as [|x a IH]; cbn; [by rewrite Hc|].
  destruct (sep x); [by rewrite IH|]. rewrite IH.
  destruct (pieces_cons sep a) as (w & ws & ->). done.
Qed.
Lemma re_split_spec sep l :
  (exists w us ws, re_split sep false l = w :: us /\ pieces sep l = w :: ws
     /\ List.filter named_part us = List.filter named_part ws)
  /\ List.filter named_part (re_split sep true l) = List.filter named_part (pieces sep l).
Proof.
  induction l as [|c l [(w & us & ws & H1 & H2 & H3) H4]]; cbn.
  - split; [by exists [], [], []|done].
  - destruct (sep c).
    + split; [by exists [], (re_split sep true l), (pieces sep l)|exact H4].
    + rewrite H1, H2. split; [by exists (c :: w), us, ws|]. cbn. by rewrite H3.
Qed.
Lemma re_split_pieces sep l w : w <> [] -> w ∈ pieces sep l -> w ∈ re_split sep false l.
Proof.
  intros Hw. assert (Hn : named_part w = true) by (unfold named_part; by rewrite bool_decide_false).
  destruct (re_split_spec sep l) as [(h & us & ws & -> & -> & H) _].
  rewrite !list.elem_of_cons. intros [->|Hin]; [by left|right].
  assert (Hf : w ∈ List.filter named_part ws) by by apply elem_of_filter_bool.
  rewrite <-H in Hf. by apply elem_of_filter_bool in Hf as [? _].
Qed.
(** A piece that has no character of a finer set of separators is a piece for that set too. *)
Lemma pieces_finer (s1 s2 : ascii -> bool) l w :
  (forall c, s1 c = true -> s2 c = true) -> Forall (fun c => s2 c = false) w ->
  w ∈ pieces s1 l -> w ∈ pieces s2 l.
Proof.
  intros Hs. revert w.
  assert (H : forall w ws, pieces s1 l = w :: ws ->
    (Forall (fun c => s2 c = false) w -> exists us, pieces s2 l = w :: us)
    /\ forall v, Forall (fun c => s2 c = false) v -> v ∈ ws -> v ∈ tail (pieces s2 l)).
  { induction l as [|c l IH]; cbn; intros w ws.
    - intros [= <- <-]. split; [by exists []|by intros v _ ?%not_elem_of_nil].
    - destruct (pieces_cons s1 l) as (w1 & ws1 & E1). destruct (pieces_cons s2 l) as (w2 & ws2 & E2).
      rewrite E1, E2 in *. destruct (IH _ _ eq_refl) as [Ha Hb]. cbn in Hb.
      assert (Hc : forall v, Forall (fun c => s2 c = false) v -> v ∈ w1 :: ws1 -> v ∈ w2 :: ws2).
      { intros v Hv [->|Hin]%list.elem_of_cons; apply list.elem_of_cons; [|right; by apply Hb].
        destruct (Ha Hv) as [us [= -> _]]. by left. }
      destruct (s1 c) eqn:Hc1.
      + intros [= <- <-]. rewrite (Hs _ Hc1). split; [by eexists|]. exact Hc.
      + intros [= <- <-]. destruct (s2 c) eqn:Hc2.
        * split; [intros Hf; inversion Hf; congruence|]. intros v Hv Hin. cbn. apply Hc; [done|by right].
        * split; [|exact Hb]. intros Hf. inversion Hf as [|? ? _ Hf']; subst.
          destruct (Ha Hf') as [us [= -> _]]. by eexists. }
  intros w Hw. destruct (pieces_cons s1 l) as (w1 & ws1 & E). rewrite E. destruct (H _ _ E) as [Ha Hb].
  intros [->|Hin]%list.elem_of_cons; [destruct (Ha Hw) as [us ->]; by left|].
  specialize (Hb _ Hw Hin). destruct (pieces s2 l); [by apply not_elem_of_nil in Hb|by right].
Qed.

(** ** Accepted paths *)
Lemma is_prefix_app p l : is_prefix p l = true -> exists r, l = p ++ r.
Proof.
  revert l. induction p as [|a p IH]; intros [|b l]; cbn; [by eexists|by eexists|done|].
  intros [->%bool_decide_eq_true (r & ->)%IH]%andb_true_iff. by eexists.
Qed.
Lemma rstrip_split (sep : ascii) l : exists tail,
  l = reverse (drop_while (fun a => bool_decide (a ∈ [sep])) (reverse l)) ++ tail
  /\ Forall (fun a => a = sep) tail.
Proof.
  enough (H : forall r, exists tail,
    reverse r = reverse (drop_while (fun a => bool_decide (a ∈ [sep])) r) ++ tail
    /\ Forall (fun a => a = sep) tail).
  { destruct (H (reverse l)) as (tail & Ht). rewrite reverse_involutive in Ht. by exists tail. }
  induction r as [|a r (tail & H & Ht)]; [by exists []|]. cbn [drop_while].
  case_bool_decide as Ha.
  - apply list_elem_of_singleton in Ha as ->. exists (tail ++ [sep]). split.
    + rewrite reverse_cons, H, <-app_assoc. done.
    + apply list.Forall_app. by split; [|constructor].
  - exists []. by rewrite app_nil_r.
Qed.
Definition at_sep (sep c : ascii) : bool := bool_decide (c = sep).
Lemma names_of_seps sep tail : Forall (fun a => a = sep) tail ->
  List.filter named_part (pieces (at_sep sep) tail) = [].
Proof.
  induction 1 as [|a tail -> _ IH]; [done|]. cbn. unfold at_sep at 1. by rewrite bool_decide_true.
Qed.
Lemma names_rstrip sep l tail : Forall (fun a => a = sep) tail ->
  List.filter named_part (pieces (at_sep sep) (l ++ tail)) = List.filter named_part (pieces (at_sep sep) l).
Proof.
  intros Ht. destruct tail as [|a tail]; [by rewrite app_nil_r|]. inversion Ht as [|? ? -> Ht']; subst.
  rewrite pieces_app by (unfold at_sep; by rewrite bool_decide_true).
  by rewrite List.filter_app, (names_of_seps _ tail), app_nil_r.
Qed.

(** Inside a root, a path goes through the names of the root. *)
Lemma under_names host path root : _under path root host = true ->
  exists more, names host path = names host root ++ more.
Proof.
  unfold _under, startswith, rstrip_chars, names. rewrite chars_app, chars_text. cbn [chars].
  set (sep := separator host). set (l := chars (normalised host root)).
  destruct (rstrip_split sep l) as (tail & Hl & Ht). set (base := reverse _) in *.
  intros (r & H)%is_prefix_app. rewrite H, <-app_assoc. cbn [app].
  change (fun c => bool_decide (c = sep)) with (at_sep sep).
  rewrite pieces_app by (unfold at_sep; by rewrite bool_decide_true).
  rewrite List.filter_app. rewrite Hl, names_rstrip by done. by eexists.
Qed.

(** On a Windows host the pieces are those at either slash, in lower case. *)
Definition backslashed (c : ascii) : ascii := to_lower (if bool_decide (c = "/"%char) then "\"%char else c).
Lemma split_chars_cons c l : exists w ws, split_chars c l = w :: ws.
Proof.
  induction l as [|a l (w & ws & IH)]; cbn; [by eexists _, _|].
  case_bool_decide; [by eexists _, _|]. rewrite IH. by eexists _, _.
Qed.
Lemma chars_replace c d s :
  chars (replace_char c (String d "") s) = map (fun a => if bool_decide (a = c) then d else a) (chars s).
Proof.
  unfold replace_char, split. induction (chars s) as [|a l IH]; [done|]. cbn [split_chars map].
  destruct (split_chars_cons c l) as (w & ws & E). rewrite E in *. case_bool_decide as Ha.
  - cbn [map join]. rewrite !chars_app. cbn [chars app text]. by rewrite <-IH.
  - rewrite <-IH. cbn [map]. destruct ws as [|w' ws]; cbn [map join text]; [done|].
    by rewrite !chars_app.
Qed.
Lemma windows_chars path : chars (lower (replace_char "/" "\" path)) = map backslashed (chars path).
Proof. unfold lower. rewrite chars_text, chars_replace, map_map. done. Qed.
Lemma pieces_map sep f l : pieces sep (map f l) = map (map f) (pieces (fun c => sep (f c)) l).
Proof.
  induction l as [|c l IH]; [done|]. cbn. destruct (sep (f c)); cbn; [by rewrite IH|].
  rewrite IH. destruct (pieces_cons (fun c => sep (f c)) l) as (w & ws & ->). done.
Qed.
Lemma backslashed_slash c : at_sep "\" (backslashed c) = is_slash c.
Proof. destruct c as [[] [] [] [] [] [] [] []]; vm_compute; reflexivity. Qed.
Lemma backslashed_dot c : backslashed c = "."%char -> c = "."%char.
Proof. destruct c as [[] [] [] [] [] [] [] []]; vm_compute; congruence. Qed.
Lemma backslashed_dots w : is_dots (map backslashed w) = true -> is_dots w = true.
Proof.
  unfold is_dots. rewrite !bool_decide_eq_true. cbn [chars].
  destruct w as [|a [|b [|c w]]]; cbn; intros [H|H]; simplify_eq/=;
    repeat match goal with E : backslashed _ = _ |- _ => apply backslashed_dot in E end; subst; auto.
Qed.
Lemma pieces_ext s1 s2 l : (forall c, s1 c = s2 c) -> pieces s1 l = pieces s2 l.
Proof. intros H. induction l as [|c l IH]; cbn; [done|]. by rewrite H, IH. Qed.

Lemma dots_not_slash w : is_dots w = true -> w <> [] /\ Forall (fun c => is_slash c = false) w.
Proof.
  unfold is_dots. rewrite bool_decide_eq_true. intros [->| ->]; cbn [chars]; split; try done;
    repeat constructor.
Qed.
Lemma no_dots_in_names host path : existsb is_dots (re_split is_slash false (chars path)) = false ->
  Forall (fun w => is_dots w = false) (names host path).
Proof.
  intros H. apply list.Forall_forall. intros w Hw. apply not_true_is_false. intros Hd.
  apply elem_of_filter_bool in Hw as [Hw _].
  assert (Hv : exists v, is_dots v = true /\ v ∈ pieces is_slash (chars path)).
  { unfold normalised, separator in Hw. destruct (is_windows host).
    - rewrite windows_chars, pieces_map in Hw.
      apply list_elem_of_In, in_map_iff in Hw as (v & <- & Hv%list_elem_of_In).
      exists v. split; [by apply backslashed_dots|].
      by rewrite (pieces_ext _ is_slash) in Hv by apply backslashed_slash.
    - exists w. split; [done|]. apply (pieces_finer (at_sep "/")); [|by apply dots_not_slash|done].
      intros c ->%bool_decide_eq_true. done. }
  destruct Hv as (v & Hv & Hin). destruct (dots_not_slash v Hv) as [Hne _].
  apply re_split_pieces in Hin; [|done]. apply not_true_iff_false in H. apply H.
  apply existsb_exists. exists v. by rewrite <-list_elem_of_In.
Qed.
Lemma enter_names l acc : Forall (fun w => is_dots w = false) l -> fold_left enter l acc = acc ++ l.
Proof.
  intros H. revert acc. induction H as [|w l Hw _ IH]; intros acc; cbn; [by rewrite app_nil_r|].
  unfold is_dots in Hw. apply bool_decide_eq_false in Hw. rewrite IH. unfold enter.
  rewrite !bool_decide_false by tauto. by rewrite <-app_assoc.
Qed.

Definition root_text (must_be_under : pyval) : string := strip (str (py_or must_be_under (PStr ""))).
Definition inside (host : Host) (root path : string) : Prop :=
  exists more, leads_to host path = leads_to host root ++ more.
Lemma validated_path_ok value host root p : _validated_path value host root = Ok p ->
  p <> "" /\ _is_absolute p host = true /\ Forall (fun w => contains w p = false) WILDCARDS
  /\ (root_text root <> "" -> inside host (root_text root) p).
Proof.
  unfold _validated_path. fold (root_text root). set (path := strip _).
  destruct (String.eqb_spec path "") as [|Hne]; [done|].
  destruct (existsb _ WILDCARDS) eqn:Hwild; [done|].
  destruct (_is_absolute path host) eqn:Habs; [|done]. cbn [negb].
  destruct (existsb is_dots _) eqn:Hdots; [done|].
  destruct (negb _ && _) eqn:Hroot; [done|]. intros [= <-].
  split; [done|]. split; [done|]. split.
  { apply list.Forall_forall. intros w Hw. apply not_true_is_false. intros Hc.
    apply not_true_iff_false in Hwild. apply Hwild, existsb_exists. exists w.
    by rewrite <-list_elem_of_In. }
  intros Hr. rewrite (proj2 (String.eqb_neq _ _) Hr) in Hroot. cbn in Hroot.
  apply negb_false_iff, under_names in Hroot as (more & Hm). exists more.
  pose proof (no_dots_in_names host path Hdots) as Hd. unfold leads_to.
  rewrite (enter_names _ _ Hd). rewrite Hm in *. apply list.Forall_app in Hd as [Hd _].
  by rewrite (enter_names _ _ Hd).
Qed.

(** ** What a deletion does to the files of the machine *)
(** The names of the files of one machine.  A command, run there or elsewhere, removes no file
    but the one its path leads to, and a dry one none: what [rm -f] and [Remove-Item] document,
    where no symbolic link leads to a file by a second name. *)
Class Disk (W : Type) `{Machine W} := {
  there : W -> string -> Prop;
  open_keeps : forall host w q, there w q -> there (open_session host w).2 q;
  run_keeps : forall host w path dry_run q, there w q ->
    dry_run = true \/ leads_to host q <> leads_to host path ->
    there (run host (command_for host path dry_run) w).2 q }.

Section disk.
Context {W : Type} `{Disk W}.

Lemma read_answer_path path a : r_path (read_answer path a) = path.
Proof. unfold read_answer. by repeat case_match. Qed.
Lemma read_answer_status path a :
  r_status (read_answer path a) ∈ [DELETED; NOT_FOUND; SKIPPED; FAILED].
Proof. unfold read_answer. repeat case_match; cbn [r_status]; set_solver. Qed.

Lemma delete_each_keeps host dry stop paths w rows w' q :
  delete_each host dry stop paths w = (rows, w') -> there w q ->
  there w' q
  \/ dry = false /\ exists p, p ∈ map r_path rows /\ leads_to host q = leads_to host p.
Proof.
  revert w rows w'. induction paths as [|path paths IH]; intros w rows w'; cbn.
  { intros [= <- <-]. by left. }
  unfold _delete_one. destruct (run host (command_for host path dry) w) as [a w1] eqn:Hrun.
  intros Heq Hq.
  destruct (decide (dry = false /\ leads_to host q = leads_to host path)) as [[-> Hl]|Hno].
  - right. split; [done|]. exists path. split; [|done].
    apply list_elem_of_In. destruct (stop && _); [|destruct (delete_each _ _ _ _ w1)];
      injection Heq as <- <-; left; apply read_answer_path.
  - assert (Hq1 : there w1 q).
    { pose proof (run_keeps host w path dry q Hq) as Hk. rewrite Hrun in Hk. apply Hk.
      destruct dry; [by left|right; naive_solver]. }
    destruct (stop && _); [injection Heq as <- <-; by left|].
    destruct (delete_each _ _ _ _ w1) as [rows1 w2] eqn:He. injection Heq as <- <-.
    destruct (IH _ _ _ He Hq1) as [?|(? & p & Hp & ?)]; [by left|right].
    split; [done|]. exists p. split; [by right|done].
Qed.
Lemma delete_each_answers host dry stop paths w rows w' :
  delete_each host dry stop paths w = (rows, w') ->
  map r_path rows = take (length rows) paths
  /\ Forall (fun r => r_status r ∈ [DELETED; NOT_FOUND; SKIPPED; FAILED]) rows
  /\ (length rows = length paths
      \/ stop = true /\ exists before row, rows = before ++ [row] /\ r_status row = FAILED).
Proof.
  revert w rows w'. induction paths as [|path paths IH]; intros w rows w'; cbn.
  { intros [= <- <-]. auto. }
  unfold _delete_one. destruct (run host (command_for host path dry) w) as [a w1].
  pose proof (read_answer_status path a) as Hs. pose proof (read_answer_path path a) as Hp.
  destruct (stop && _) eqn:Hstop.
  - intros [= <- <-]. apply andb_true_iff in Hstop as [-> Hf%String.eqb_eq]. cbn. rewrite Hp.
    split; [done|]. split; [by constructor|]. right. split; [done|]. by exists [], (read_answer path a).
  - destruct (delete_each _ _ _ _ w1) as [rows1 w2] eqn:He. intros [= <- <-].
    destruct (IH _ _ _ He) as (Hm & Hf & Hl). cbn. rewrite Hp, Hm. split; [done|].
    split; [by constructor|]. destruct Hl as [->|(-> & before & row & -> & Hr)]; [by left|right].
    split; [done|]. by exists (read_answer path a :: before), row.
Qed.

Lemma validated_paths_ok host root raw paths : validated_paths host root raw = Ok paths ->
  Forall (fun p => exists v, v ∈ raw /\ _validated_path v host root = Ok p) paths.
Proof.
  revert paths. induction raw as [|v raw IH]; intros paths; cbn; [by intros [= <-]|].
  intros (p & Hp & (ps & Hps & [= <-])%result_bind_ok)%result_bind_ok. constructor.
  - exists v. split; [by left|done].
  - eapply list.Forall_impl; [by apply IH|]. cbn. intros ? (v' & ? & ?). exists v'. split; [by right|done].
Qed.

(** What a request may remove, as it is asked. *)
Definition may_go (request : pydict) (host : Host) (rows : list Row) (q : string) : Prop :=
  exists p, p ∈ map r_path rows /\ leads_to host q = leads_to host p
    /\ (exists raw v, named_paths (get request "paths") = Ok raw /\ v ∈ raw
        /\ _validated_path v host (get request "must_be_under") = Ok p)
    /\ (root_text (get request "must_be_under") <> "" ->
        inside host (root_text (get request "must_be_under")) q).
Lemma delete_files_keeps request w q :
  there w q ->
  there (delete_files request w).2 q
  \/ exists host d, parse_host (get request "host") = Ok host
       /\ (delete_files request w).1 = Ok d /\ flag request "dry_run" = false
       /\ may_go request host (files d) q.
Proof.
  intros Hq. unfold delete_files, checked.
  destruct (parse_host (get request "host")) as [host|e] eqn:Hhost; [|by left].
  destruct (named_paths (get request "paths")) as [raw|e] eqn:Hraw; [|by left]. rewrite bind_ok.
  destruct (validated_paths host _ raw) as [paths|e] eqn:Hv; [|by left]. rewrite bind_ok.
  pose proof (open_keeps host w q Hq) as Hopen.
  destruct (if is_local host then _ else _) as [[reason|] w1] eqn:Hsess.
  { left. cbn. destruct (is_local host); [by injection Hsess|]. by rewrite Hsess in Hopen. }
  assert (Hq1 : there w1 q).
  { destruct (is_local host); [by injection Hsess as <-|]. by rewrite Hsess in Hopen. }
  destruct (delete_each _ _ _ _ w1) as [rows w2] eqn:He.
  destruct (delete_each_keeps _ _ _ _ _ _ _ _ He Hq1) as [?|(Hdry & p & Hp & Hl)]; [by left|right].
  eexists host, _. split; [done|]. split; [done|]. split; [done|]. exists p. cbn [files]. split; [done|]. split; [done|].
  assert (Hin : p ∈ paths).
  { destruct (delete_each_answers _ _ _ _ _ _ _ He) as [Hm _]. rewrite Hm in Hp.
    apply elem_of_take in Hp as (i & Hi & _). by eapply list_elem_of_lookup_2. }
  apply validated_paths_ok in Hv. rewrite list.Forall_forall in Hv.
  destruct (Hv p Hin) as (v & Hvraw & Hval). split; [by exists raw, v|].
  intros Hr. destruct (validated_path_ok _ _ _ _ Hval) as (_ & _ & _ & Hi).
  destruct (Hi Hr) as (more & Hmore). exists more. by rewrite Hl.
Qed.
End disk.

(** A machine of files: it finds the one a POSIX command deletes by the command's text. *)
Definition named_by (host : Host) (command path : string) : bool :=
  negb (is_windows host) && String.eqb command (_posix_command path false).
#[export] Instance file_machine : Machine (list string) := {
  open_session host w := (None, w);
  run host command w :=
    if existsb (named_by host command) w
    then (Ran "DELETED 1" "", List.filter (fun p => negb (named_by host command p)) w)
    else (Ran "MISSING 0" "", w) }.
#[export] Program Instance file_disk : Disk (list string) := {
  there w q := q ∈ w }.
Next Obligation. done. Qed.
Next Obligation.
  intros host w path dry q Hq Hor. cbn. destruct (existsb _ w); [|done].
  apply elem_of_filter_bool. split; [done|]. apply negb_true_iff, not_true_is_false.
  unfold named_by, command_for. destruct (is_windows host); [done|]. cbn.
  intros Heq%String.eqb_eq. pose proof (posix_command_path _ _ _ _ Heq) as ->.
  destruct Hor as [->|?]; [by apply posix_command_dry in Heq|done].
Qed.

(** The POSIX shell reads a quoted path back as one word, the path itself, whatever
    characters it has. *)
Lemma quoted_path_is_one_word path rest :
  sh_word None (chars (shell_quote path +:+ " " +:+ rest)) = Some (chars path, chars (" " +:+ rest)).
Proof. unfold shell_quote. rewrite chars_app, chars_text. apply sh_word_quote_chars. Qed.

(** C34: A file that is gone after a deletion request was named in it, passed every refusal, and
    its names go through those of the fence; a refused or a dry request removes nothing. *)
Theorem a_deletion_stays_inside_its_fence {W} `{Disk W} request w q :
  there w q ->
  there (delete_files request w).2 q
  \/ exists host d, parse_host (get request "host") = Ok host
       /\ (delete_files request w).1 = Ok d /\ flag request "dry_run" = false
       /\ may_go request host (files d) q.
Proof. apply delete_files_keeps. Qed.
Definition fenced_request : pydict :=
  [("host", PDict [("runtime", PStr "linux"); ("host", PStr "db1"); ("username", PStr "dbops")]);
   ("paths", PList [PStr "/backup/db/a b.bak"; PStr "/backup/db/it's.bak"]);
   ("must_be_under", PStr "/backup/db/")].
Definition fenced_disk : list string := ["/backup/db/a b.bak"; "/backup/db/c.bak"; "/etc/passwd"].
Theorem fence_witness :
  let after := (delete_files fenced_request fenced_disk).2 in
  after = ["/backup/db/c.bak"; "/etc/passwd"]
  /\ (there after "/etc/passwd"
      \/ exists host d, parse_host (get fenced_request "host") = Ok host
           /\ (delete_files fenced_request fenced_disk).1 = Ok d
           /\ flag fenced_request "dry_run" = false /\ may_go fenced_request host (files d) "/etc/passwd").
Proof.
  split; [vm_compute; reflexivity|].
  assert (Hin : "/etc/passwd"%string ∈ fenced_disk) by (apply list_elem_of_In; right; right; left; reflexivity).
  exact (a_deletion_stays_inside_its_fence fenced_request fenced_disk "/etc/passwd" Hin).
Defined.
