(* ===== verification/BackupListing.v ===== *)
(** * Listing the backup files of an engine ([common/backupfiles/__init__.py]), and the one
    engine that asks an instance ([common/backupfiles/sqlserver.py]).

    What the instance answers is an argument: the files of the directory, the headers of each
    file, its clock.  The instants of one instance are on its clock, in microseconds.  A
    listing here is one without [after], [before] and [latest]. *)

From S2P Require Import Prelude Py PyTime BackupRetention.

Definition DIFF : string := "diff".
Definition LOG : string := "log".
Definition CONTROLFILE : string := "controlfile".
Definition KINDS : list string := [FULL; DIFF; LOG; CONTROLFILE].
Definition DEFAULT_KINDS : list string := [FULL; DIFF; LOG].

Inductive list_error : Type :=
| KindsAreText | KindsNotIterable | UnknownKinds (kinds : list string) | UnknownEngine (db_type : string)
| PathMissing | TargetNotObject | TargetHostMissing | CannotRead (path message : string).

(** ** The shape of a row *)
(** A finish time as an engine gives it: an instant, a text, or nothing. *)
Inductive engine_time : Type := At (t : Z) | Printed (text : string) | NoTime.
Definition time_text (v : engine_time) : string :=
  match v with
  | At t => replace_char " " "T" (stamp t)      (* [isoformat()], but for its fraction *)
  | Printed s => s
  | NoTime => ""
  end.
Definition _stamp (v : engine_time) : pyval :=
  let text := strip (time_text v) in
  if String.eqb text "" then PNone else PStr (str_take 19 (replace_char "T" " " text)).
Definition instant (v : engine_time) : option Z :=
  match v with
  | At t => Some t
  | _ => strptime (str_take 19 (replace_char "T" " " (strip (time_text v))))
  end.
Definition age_seconds (finished_at now : engine_time) : option Z :=
  match instant finished_at, instant now with
  | Some start, Some end_ => Some (Z.max 0 (whole_seconds (end_ - start)))
  | _, _ => None
  end.
Definition opt_int (n : option Z) : pyval := match n with Some n => PInt n | None => PNone end.
Definition row (path kind : string) (database : option string) (size : option Z)
    (finished_at : engine_time) (age : option Z) : BackupFile :=
  {| bf_path := PStr path; bf_finished_at := _stamp finished_at; bf_kind := PStr kind;
     bf_database_name := match database with Some d => PStr d | None => PNone end;
     bf_age_seconds := opt_int age; bf_size_bytes := opt_int size |}.

(** ** SQL Server *)
Record Head := mkHead { BackupType : pyval; DatabaseName : pyval; BackupFinishDate : engine_time }.
Record OnDisk := mkOnDisk { od_path : string; od_size : option Z }.
(** What the instance answers: its files, its clock, and what [RESTORE HEADERONLY] says of one:
    a row for each backup set the file holds, or the text of an error. *)
Record Instance_ := mkInstance {
  in_files : list OnDisk; in_now : engine_time; in_headers : string -> list Head + string }.

Definition _KIND : list (string * string) :=
  [("1", FULL); ("5", DIFF); ("2", LOG); ("D", FULL); ("I", DIFF); ("L", LOG)].
Definition _NOT_A_BACKUP : list string := ["3241"; "3242"; "3243"; "3254"].
Definition _BACKUP_SUFFIXES : list string := [".bak"; ".trn"].

(** [\((\d{3,5})\)] found all over a text. *)
Definition numbered_here (l : list ascii) : option (string * list ascii) :=
  l ← eat "(" l;
  let ds := take_while is_digit l in
  rest ← eat ")" (drop (length ds) l);
  if (3 <=? length ds)%nat && (length ds <=? 5)%nat then Some (text ds, rest) else None.
Fixpoint numbered (skip : nat) (l : list ascii) : list string :=
  match l with
  | [] => []
  | _ :: rest =>
      match skip with
      | S skip => numbered skip rest
      | O => match numbered_here l with
             | Some (n, _) => n :: numbered (String.length n + 1) rest
             | None => numbered 0 rest
             end
      end
  end.

Definition rows_of (now : engine_time) (item : OnDisk) (heads : list Head) : list BackupFile :=
  omap (fun head =>
    kind ← assoc (upper (strip (str (py_or (BackupType head) (PStr ""))))) _KIND;
    let name := str (py_or (DatabaseName head) (PStr "")) in
    Some (row (od_path item) kind (if String.eqb name "" then None else Some name)
            (match od_size item with Some 0 => None | n => n end)
            (match BackupFinishDate head with At t => At t | _ => NoTime end) (age_seconds (BackupFinishDate head) now))) heads.
Definition file_step (inst : Instance_) (acc : list BackupFile * list string) (item : OnDisk)
    : result list_error (list BackupFile * list string) :=
  match in_headers inst (od_path item) with
  | inl heads => Ok (acc.1 ++ rows_of (in_now inst) item heads, acc.2)
  | inr exc =>
      if existsb (fun n => bool_decide (n ∈ _NOT_A_BACKUP)) (numbered 0 (chars exc)) then
        if existsb (endswith (lower (od_path item))) _BACKUP_SUFFIXES
        then Ok (acc.1, acc.2 ++ [od_path item]) else Ok acc
      else Err (CannotRead (od_path item) exc)
  end.
(** The rows, and the files named like backups that are none. *)
Definition list_files (request : pydict) (inst : Instance_) : result list_error (list BackupFile * list string) :=
  if String.eqb (strip (str (py_or (get request "path") (PStr "")))) "" then Err PathMissing
  else match py_or (get request "target") (PDict []) with
  | PDict target =>
  if String.eqb (strip (str (py_or (get target "host") (PStr "")))) "" then Err TargetHostMissing
  else foldM (file_step inst) ([], []) (sort_by (fun a b => String.leb (od_path a) (od_path b)) (in_files inst))
  | _ => Err TargetNotObject
  end.

(** ** The listing of any engine *)
Definition finished_text (f : BackupFile) : string := str (py_or (bf_finished_at f) (PStr "")).
Definition by_finish (a b : BackupFile) : bool :=
  let x := finished_text a in let y := finished_text b in
  if String.eqb x y then String.leb (str (bf_path a)) (str (bf_path b)) else String.leb x y.
(** [sorted(set(kinds) - set(KINDS))] is what is refused. *)
Definition known_kinds (kinds : list string) : result list_error (list string) :=
  match List.filter (fun k => negb (bool_decide (k ∈ KINDS))) (remove_dups kinds) with
  | [] => Ok kinds
  | unknown => Err (UnknownKinds (sort_by String.leb unknown))
  end.
Definition wanted_kinds (request : pydict) : result list_error (list string) :=
  match py_or (get request "kinds") (PList (map PStr DEFAULT_KINDS)) with
  | PStr _ => Err KindsAreText
  | PList ks =>
      let kinds := map (fun k => lower (strip (str k))) ks in
      known_kinds kinds
  | PDict d => known_kinds (map (fun p => lower (strip p.1)) d)
  | _ => Err KindsNotIterable
  end.
Definition of_database (database : string) (f : BackupFile) : bool :=
  String.eqb (lower (str (py_or (bf_database_name f) (PStr "")))) (lower database).
Definition listed (request : pydict) (kinds : list string) (rows : list BackupFile) : list BackupFile :=
  let files := List.filter (fun f => bool_decide (str (bf_kind f) ∈ kinds)) rows in
  let database := strip (str (py_or (py_or (get request "database_name") (get request "database")) (PStr ""))) in
  let files := if String.eqb database "" then files else List.filter (of_database database) files in
  sort_by by_finish files.

(** The rows of the other two engines, which ask RMAN and the shell of the host, are given. *)
Record Engines := mkEngines { sqlserver : Instance_; oracle : list BackupFile; postgresql : list BackupFile }.
Definition engine_rows (request : pydict) (db_type : string) (engines : Engines)
    : result list_error (list BackupFile) :=
  if String.eqb db_type "sqlserver" then fst <$> list_files request (sqlserver engines)
  else if String.eqb db_type "oracle" then Ok (oracle engines)
  else if bool_decide (db_type ∈ ["postgresql"; "postgres"]) then Ok (postgresql engines)
  else Err (UnknownEngine db_type).
Definition list_backup_files (request : pydict) (engines : Engines) : result list_error (list BackupFile) :=
  let db_type := lower (strip (str (py_or (get request "db_type") (PStr "")))) in
  kinds ← wanted_kinds request;
  rows ← engine_rows request db_type engines;
  Ok (listed request kinds rows).

Lemma elem_of_listed request kinds rows f :
  f ∈ listed request kinds rows -> f ∈ rows /\ str (bf_kind f) ∈ kinds.
Proof.
  unfold listed. rewrite elem_of_sort_by. destruct (String.eqb _ ""); intros H.
  - apply elem_of_filter_bool in H as [? ?%bool_decide_eq_true]. done.
  - apply elem_of_filter_bool in H as [H _]. apply elem_of_filter_bool in H as [? ?%bool_decide_eq_true]. done.
Qed.
