(* ===== verification/Prune.v ===== *)
(** * Deleting a backup entry's obsolete files ([backup_restore/prune.py]), and the target of
    an entry ([resolve_ssh_target] of [backup_restore/backup.py]).

    The inventory and the secrets are data, as the loaders return them; a key's path is what
    [resolve_ssh_key] answers.  What is listed is the answer of the machine; what is deleted
    goes through [DeleteFiles].  A row of the store keeps its code, level and status, an event
    its phase and level. *)

From S2P Require Import Prelude Py PyTime CleanupRetention BackupRetention DeleteFiles.

Definition LISTABLE : list string := ["oracle"; "postgresql"; "postgres"].
Definition REPORT_ONLY : list string := ["postgresql"; "postgres"].
Definition SUPPORTED_BACKUP_ACCESS : list string := ["ssh"; "winrm"].

Record BackupJob := mkJob {
  backup_id : string; job : string; db_type : string; server_id : string; backup_dir : string;
  cleanup_retention : Z; retention : option Retention; active : bool;
  env : list (string * string); env_secrets : list (string * string) }.
Definition label (j : BackupJob) : string := backup_id j +:+ "/" +:+ job j.
Definition engine_of (j : BackupJob) : string := lower (strip (db_type j)).

Record BackupTarget := mkTarget {
  t_server_id : string; t_host : string; t_port : Z; t_username : string; container_name : string;
  key_file : option string; password_ref : option string; platform : string; access : string; ssl : bool }.

Inductive job_error : Type :=
| ServerNotFound | AccessDisabled | AccessUnsupported (method : string) | NoContainer | NoHost
| NoCredentialName | CredentialNoUser | CredentialNotFound (name : string) | SecretMissing (ref : string)
| NotListed (message : string) | RetentionRefused (e : retention_error) | NoPlan (e : plan_error)
| DeleteRefused (e : delete_error) | NotAllDeleted (d : Deletion) | JobPython (e : pyexn).

(** [str(record.get(key) or "").strip()]. *)
Definition field (record : pydict) (key : string) : string := strip (str (py_or (get record key) (PStr ""))).
Definition non_empty (s : string) : option string := if String.eqb s "" then None else Some s.
Definition as_dict (v : pyval) : result job_error pydict :=
  match v with PDict d => Ok d | _ => Err (JobPython AttributeError) end.
Definition int_or (v : pyval) (otherwise : Z) : result job_error Z :=
  match py_int (py_or v (PInt otherwise)) with Ok n => Ok n | Err e => Err (JobPython e) end.

Section estate.
Variable db_instances : list pydict.
Variable remote_credentials : list pydict.
Variable secrets : list (string * string).
Variable resolve_ssh_key : string -> string.

(** ** The target of an entry *)
Definition instance_of (server : string) : option pydict :=
  List.find (fun item => String.eqb (field item "server_id") server) db_instances.
Definition _default_access_port (method : string) (ssl : bool) : Z :=
  if String.eqb method "winrm" then if ssl then 5986 else 5985 else 22.

(** The first credential of the name, over the groups in order. *)
Fixpoint find_credential (name : string) (credentials : list pyval)
    : result job_error (option (string * option string)) :=
  match credentials with
  | [] => Ok None
  | c :: rest =>
      d ← as_dict c;
      if String.eqb (field d "credential_name") name then
        if String.eqb (field d "username") "" then Err CredentialNoUser
        else Ok (Some (field d "username", non_empty (field d "password_ref")))
      else find_credential name rest
  end.
Fixpoint find_in_groups (name : string) (groups : list pydict)
    : result job_error (string * option string) :=
  match groups with
  | [] => Err (CredentialNotFound name)
  | group :: rest =>
      match py_or (get group "credentials") (PList []) with
      | PList credentials =>
          found ← find_credential name credentials;
          match found with Some c => Ok c | None => find_in_groups name rest end
      | _ => Err (JobPython TypeError)
      end
  end.
Definition _lookup_remote_credential (name : string) : result job_error (string * option string) :=
  if String.eqb name "" then Err NoCredentialName else find_in_groups name remote_credentials.

Definition resolve_ssh_target (server : string) (require_container : bool) : result job_error BackupTarget :=
  match instance_of server with
  | None => Err ServerNotFound
  | Some instance =>
      cmd_access ← as_dict (py_or (get instance "cmd_access") (PDict []));
      if negb (flag cmd_access "enabled") then Err AccessDisabled
      else
        let method := lower (field cmd_access "method") in
        if negb (bool_decide (method ∈ SUPPORTED_BACKUP_ACCESS)) then Err (AccessUnsupported method)
        else
          let container_name := field instance "container_name" in
          let platform := lower (field instance "platform") in
          let platform := if String.eqb platform "" then "linux" else platform in
          let require_container := if String.eqb platform "windows" then false else require_container in
          if String.eqb container_name "" && require_container then Err NoContainer
          else
            let host := strip (str (py_or (py_or (get cmd_access "host") (get instance "ip")) (PStr ""))) in
            if String.eqb host "" then Err NoHost
            else
              '(username, password_ref) ← _lookup_remote_credential (field cmd_access "credential_name");
              let ssl := flag cmd_access "ssl" in
              port ← int_or (get cmd_access "port") (_default_access_port method ssl);
              Ok (mkTarget server host port username container_name
                    (if String.eqb method "ssh" then non_empty (field cmd_access "key_file") else None)
                    password_ref platform method ssl)
  end.
Definition resolve_backup_target (j : BackupJob) : result job_error BackupTarget :=
  resolve_ssh_target (server_id j) true.

(** ** The login of a SQL Server entry *)
Definition sql_login (j : BackupJob) : result job_error (option pydict) :=
  let ref := strip (default "" (assoc "MSSQL_PASSWORD" (env_secrets j))) in
  match (if String.eqb ref "" then None else assoc ref secrets) ≫= non_empty with
  | None => Ok None
  | Some password =>
      let instance := default [] (instance_of (server_id j)) in
      let address := field instance "ip" in
      if String.eqb address "" then Ok None
      else
        port ← int_or (get instance "port") 1433;
        let user := default "" (assoc "MSSQL_USER" (env j)) in
        Ok (Some [("host", PStr address); ("port", PInt port);
                  ("username", PStr (if String.eqb user "" then "sa" else user));
                  ("password", PStr password)])
  end.
Inductive skip_reason : Type := NoLogin | EngineNotListed (engine : string).
Definition not_listable (j : BackupJob) : result job_error (option skip_reason) :=
  let engine := engine_of j in
  if bool_decide (engine ∈ LISTABLE) then Ok None
  else if String.eqb engine "sqlserver" then
    login ← sql_login j; Ok (match login with Some _ => None | None => Some NoLogin end)
  else Ok (Some (EngineNotListed (if String.eqb engine "" then "unknown" else engine))).

(** ** The request *)
Definition _resolved_key_file (t : BackupTarget) : string :=
  match key_file t with Some f => resolve_ssh_key f | None => "" end.
Definition _ssh_password (t : BackupTarget) : result job_error string :=
  match key_file t, password_ref t with
  | None, Some ref =>
      match assoc ref secrets ≫= non_empty with
      | Some value => Ok value
      | None => Err (SecretMissing ref)
      end
  | _, _ => Ok ""
  end.
Definition retention_value (j : BackupJob) (retention_seconds : option Z) : pyval :=
  match retention_seconds, retention j with
  | Some n, _ => PInt n
  | None, Some r => if r_uniform r then PInt (cleanup_retention j) else as_config r
  | None, None => PInt (cleanup_retention j)
  end.
Definition host_block (t : BackupTarget) (password : string) : pydict :=
  let container := negb (String.eqb (container_name t) "") in
  [("runtime", PStr (if container then "docker" else "linux")); ("host", PStr (t_host t));
   ("port", PInt (t_port t)); ("username", PStr (t_username t)); ("container", PStr (container_name t));
   ("key_file", PStr (_resolved_key_file t)); ("password", PStr password); ("sudo", PBool container)].
Definition prune_job_request (j : BackupJob) (t : BackupTarget) (retention_seconds : option Z)
    (mode : string) (delete dry_run : bool) : result job_error pydict :=
  login ← (if String.eqb (engine_of j) "sqlserver" then sql_login j else Ok None);
  password ← _ssh_password t;
  Ok ((match login with Some l => [("target", PDict l)] | None => [] end) ++
      [("db_type", PStr (db_type j)); ("path", PStr (backup_dir j));
       ("cleanup_retention", retention_value j retention_seconds); ("mode", PStr mode);
       ("delete", PBool delete); ("dry_run", PBool dry_run); ("host", PDict (host_block t password))]).

(** ** One request *)
(** The command [list-backup-files]: its rows, or why it failed. *)
Class Lister (W : Type) := list_backup_files : pydict -> W -> result string (list BackupFile) * W.
Context {W : Type} `{Machine W, Lister W}.
(** The operator's wall clock. *)
Variable now : Z.

(** [common_cli.run("delete-files", request)]: a file that could not be deleted fails the
    command, and a command that failed raises. *)
Definition run_delete_files (request : pydict) (w : W) : result job_error Deletion * W :=
  match delete_files request w with
  | (Err e, w) => (Err (DeleteRefused e), w)
  | (Ok d, w) => match failed d with [] => (Ok d, w) | _ => (Err (NotAllDeleted d), w) end
  end.

Record PruneResult := mkResult { plan : Plan; deleted : option Deletion; refused : string }.
Definition plan_of (request : pydict) (files : list BackupFile) : result job_error Plan :=
  let engine := str (py_or (get request "db_type") (PStr "")) in
  match parse_per_type request "prune" (str (get request "db_type")) true with
  | Err e => Err (RetentionRefused e)
  | Ok per_type =>
      match parse request "prune" true with
      | Err e => Err (RetentionRefused e)
      | Ok secs =>
          match plan_retention files (PInt DEFAULT_RETENTION_DAYS) (str (get request "mode")) now
                  (Some secs) (default [] (windows_by_level per_type engine)) with
          | Err e => Err (NoPlan e)
          | Ok p => Ok p
          end
      end
  end.
Definition delete_request (request : pydict) (p : Plan) : pydict :=
  [("paths", PList (pl_obsolete_paths p)); ("host", get request "host");
   ("must_be_under", get request "path")].
Definition _prune_one (request : pydict) (w : W) : result job_error PruneResult * W :=
  match list_backup_files request w with
  | (Err message, w) => (Err (NotListed message), w)
  | (Ok files, w) =>
      match plan_of request files with
      | Err e => (Err e, w)
      | Ok p =>
          match flag request "delete", pl_obsolete_paths p with
          | false, _ | _, [] => (Ok (mkResult p None ""), w)
          | true, _ =>
              let refusal := if flag request "allow_mass_delete" then ""
                else mass_delete_refusal (Z.of_nat (length (pl_obsolete p))) (Z.of_nat (pl_total p)) in
              if negb (String.eqb refusal "") then (Ok (mkResult p None refusal), w)
              else match run_delete_files (delete_request request p) w with
                   | (Err e, w) => (Err e, w)
                   | (Ok d, w) => (Ok (mkResult p (Some d) ""), w)
                   end
          end
      end
  end.

(** ** The command *)
Record Options := mkOptions {
  o_backup_id : option string; o_job_name : option string; o_retention_seconds : option Z;
  o_mode : string; o_apply : bool; o_allow_mass_delete : bool }.
Inductive job_answer : Type :=
| Skipped (reason : skip_reason)
| Failed (e : job_error)
| Refused (reason : string)
| Done (path : string) (retention_days : Z) (obsolete deleted kept : Z) (report_only : bool).
Record JobRow := mkRow { jr_code : string; jr_level : string; jr_status : string }.
Record Event := mkEvent { ev_phase : string; ev_level : string; ev_label : string }.
Record World := mkWorld { machine : W; job_rows : list JobRow; events : list Event }.

Definition report_only (j : BackupJob) : bool := bool_decide (engine_of j ∈ REPORT_ONLY).
Definition prune_code (j : BackupJob) : string :=
  "backup_restore.prune_job." +:+ backup_id j +:+ "." +:+ job j.
Definition _record (j : BackupJob) (status level : string) (w : World) : World :=
  mkWorld (machine w) (job_rows w ++ [mkRow (prune_code j) level status])
    (events w ++ [mkEvent (if String.eqb status "DONE" then "END" else "ERROR") level (label j)]).
Definition started (j : BackupJob) (w : World) : World :=
  mkWorld (machine w) (job_rows w) (events w ++ [mkEvent "START" "logging" (label j)]).

(** The [try] block of a job. *)
Definition request_of (o : Options) (j : BackupJob) : result job_error pydict :=
  target ← resolve_backup_target j;
  request ← prune_job_request j target (o_retention_seconds o) (o_mode o)
              (o_apply o && negb (report_only j)) false;
  Ok (request ++ [("allow_mass_delete", PBool (o_allow_mass_delete o))]).
Definition attempt (o : Options) (j : BackupJob) (w : W) : result job_error PruneResult * W :=
  match request_of o j with Err e => (Err e, w) | Ok request => _prune_one request w end.
Definition deleted_count (r : PruneResult) : Z :=
  match deleted r with Some d => default 0 (assoc DELETED (counts d)) | None => 0 end.
Definition prune_job (o : Options) (j : BackupJob) (w : World) : result job_error job_answer * World :=
  match not_listable j with
  | Err e => (Err e, w)                        (* not caught: the command ends *)
  | Ok (Some reason) => (Ok (Skipped reason), w)
  | Ok None =>
      let w := started j w in
      let '(r, m) := attempt o j (machine w) in
      let w := mkWorld m (job_rows w) (events w) in
      match r with
      | Err e => (Ok (Failed e), _record j "ERROR" "error" w)
      | Ok r =>
          if negb (String.eqb (refused r) "") then (Ok (Refused (refused r)), _record j "ERROR" "error" w)
          else (Ok (Done (backup_dir j) (pl_retention_days (plan r)) (Z.of_nat (length (pl_obsolete (plan r))))
                      (deleted_count r) (Z.of_nat (length (pl_keep (plan r)))) (o_apply o && report_only j)),
                _record j "DONE" "logging" w)
      end
  end.

Inductive prune_error : Type :=
| Locked | NoEntry (backup_id : string) | NoJob (name : string) | Ended (e : job_error).
Definition selected (o : Options) (jobs : list BackupJob) : result prune_error (list BackupJob) :=
  let jobs := List.filter active jobs in
  let by_id := match o_backup_id o ≫= non_empty with
    | None => Ok jobs
    | Some id => match List.filter (fun j => String.eqb (backup_id j) id) jobs with
                 | [] => Err (NoEntry id) | found => Ok found end
    end in
  jobs ← by_id;
  match o_job_name o ≫= non_empty with
  | None => Ok jobs
  | Some name => match List.filter (fun j => String.eqb (job j) name) jobs with
                 | [] => Err (NoJob name) | found => Ok found end
  end.
Fixpoint prune_each (o : Options) (jobs : list BackupJob) (w : World)
    : result job_error (list (string * job_answer)) * World :=
  match jobs with
  | [] => (Ok [], w)
  | j :: jobs =>
      match prune_job o j w with
      | (Err e, w) => (Err e, w)
      | (Ok a, w) => match prune_each o jobs w with
                     | (Err e, w) => (Err e, w)
                     | (Ok l, w) => (Ok ((label j, a) :: l), w)
                     end
      end
  end.
Record Summary := mkSummary {
  configured : Z; pruned : Z; obsolete : Z; s_deleted : Z; s_failed : Z; skipped : Z;
  apply_ : bool; mode : string; jobs_ : list (string * job_answer) }.
Definition tally (l : list (string * job_answer)) (f : job_answer -> Z) : Z :=
  foldr (fun p n => f p.2 + n) 0 l.
Definition summary_of (o : Options) (jobs : list BackupJob) (l : list (string * job_answer)) : Summary :=
  mkSummary (Z.of_nat (length jobs))
    (tally l (fun a => match a with Done _ _ _ _ _ _ => 1 | _ => 0 end))
    (tally l (fun a => match a with Done _ _ n _ _ _ => n | _ => 0 end))
    (tally l (fun a => match a with Done _ _ _ n _ _ => n | _ => 0 end))
    (tally l (fun a => match a with Failed _ | Refused _ => 1 | _ => 0 end))
    (tally l (fun a => match a with Skipped _ => 1 | _ => 0 end))
    (o_apply o) (o_mode o) l.
(** [lockdown]: whether [refuse_if_locked] refuses. *)
Definition run_prune (lockdown : bool) (o : Options) (jobs : list BackupJob) (w : World)
    : result prune_error Summary * World :=
  if o_apply o && lockdown then (Err Locked, w)
  else match selected o jobs with
       | Err e => (Err e, w)
       | Ok jobs => match prune_each o jobs w with
                    | (Err e, w) => (Err (Ended e), w)
                    | (Ok l, w) => (Ok (summary_of o jobs l), w)
                    end
       end.
End estate.

(** ** What a prune removes *)
Class QuietLister (W : Type) `{Disk W, Lister W} :=
  listing_keeps : forall request w q, there w q -> there (list_backup_files request w).2 q.

(** A file that the request's plan condemns: it is named by an obsolete row of the listing, and
    inside the request's directory. *)
Definition condemned (now : Z) (request : pydict) (files : list BackupFile) (q : string) : Prop :=
  exists p r host path,
    plan_of now request files = Ok p /\ r ∈ pl_obsolete p
    /\ (flag request "allow_mass_delete" = true
        \/ mass_delete_refusal (Z.of_nat (length (pl_obsolete p))) (Z.of_nat (pl_total p)) = "")
    /\ parse_host (get request "host") = Ok host
    /\ _validated_path (bf_path (pr_file r)) host (get request "path") = Ok path
    /\ leads_to host q = leads_to host path
    /\ (root_text (get request "path") <> "" -> inside host (root_text (get request "path")) q).

Lemma plan_of_plan now request files p : plan_of now request files = Ok p ->
  exists days mode secs windows, plan_retention files days mode now secs windows = Ok p.
Proof.
  unfold plan_of. destruct (parse_per_type _ _ _ _) as [pt|]; [|done].
  destruct (parse _ _ _) as [secs|]; [|done]. destruct (plan_retention _ _ _ _ _ _) eqn:E; [|done].
  intros [= <-]. eauto.
Qed.

Section removal.
Context {W : Type} `{QuietLister W}.
Variable now : Z.

Lemma run_delete_files_world request w : (run_delete_files request w).2 = (delete_files request w).2.
Proof. unfold run_delete_files. destruct (delete_files request w) as [[d|e] w']; [|done]. by destruct (failed d). Qed.

Lemma prune_one_removes request w q : there w q ->
  there (_prune_one now request w).2 q
  \/ flag request "delete" = true
     /\ exists files, (list_backup_files request w).1 = Ok files /\ condemned now request files q.
Proof.
  intros Hq. pose proof (listing_keeps request w q Hq) as Hq1. unfold _prune_one.
  destruct (list_backup_files request w) as [[files|m] w1]; [|by left]. cbn [snd fst] in *.
  destruct (plan_of now request files) as [p|e] eqn:Hp; [|by left].
  destruct (flag request "delete") eqn:Hdel; [|by left].
  destruct (pl_obsolete_paths p) as [|v vs] eqn:Hpaths; [by left|].
  set (refusal := if flag request "allow_mass_delete" then _ else _).
  destruct (negb (String.eqb refusal "")) eqn:Href; [by left|].
  apply negb_false_iff, String.eqb_eq in Href.
  pose proof (delete_files_keeps (delete_request request p) w1 q Hq1) as Hd.
  pose proof (run_delete_files_world (delete_request request p) w1) as Hw.
  destruct (run_delete_files (delete_request request p) w1) as [[d|e] w2]; cbn [snd] in *; subst w2;
    (destruct Hd as [Hd|(host & d' & Hhost & _ & _ & path & _ & Hl & (raw & v' & Hraw & Hv' & Hval) & Hin)];
     [by left|right; split; [done|]; exists files; split; [done|]]).
  all: unfold delete_request, get in Hraw, Hval, Hin, Hhost; cbn in Hraw, Hval, Hin, Hhost;
    rewrite Hpaths in Hraw; cbn in Hraw; injection Hraw as <-; rewrite <-Hpaths in Hv';
    destruct (plan_of_plan _ _ _ _ Hp) as (days & md & secs & windows & Hplan);
    destruct (plan_shape _ _ _ _ _ _ _ Hplan) as (_ & _ & _ & _ & Hop); rewrite Hop in Hv';
    apply list_elem_of_fmap in Hv' as (r & -> & Hr); exists p, r, host, path;
    (split_and!; [done|done| |done|done|done|done]); unfold refusal in Href;
    destruct (flag request "allow_mass_delete"); auto.
Qed.
End removal.

Section prune.
Variable db_instances : list pydict.
Variable remote_credentials : list pydict.
Variable secrets : list (string * string).
Variable resolve_ssh_key : string -> string.
Context {W : Type} `{QuietLister W}.
Variable now : Z.

Abbreviation request_for := (request_of db_instances remote_credentials secrets resolve_ssh_key).
Abbreviation prune_a_job := (prune_job db_instances remote_credentials secrets resolve_ssh_key now).
Abbreviation prune_jobs := (prune_each db_instances remote_credentials secrets resolve_ssh_key now).
Abbreviation prune := (run_prune db_instances remote_credentials secrets resolve_ssh_key now).

Lemma request_for_fields o j request : request_for o j = Ok request ->
  flag request "delete" = o_apply o && negb (report_only j)
  /\ get request "path" = PStr (backup_dir j)
  /\ flag request "allow_mass_delete" = o_allow_mass_delete o.
Proof.
  unfold request_of. intros (t & _ & (r & Hr & [= <-])%result_bind_ok)%result_bind_ok.
  unfold prune_job_request in Hr.
  apply result_bind_ok in Hr as (login & _ & (pw & _ & [= <-])%result_bind_ok).
  unfold flag, get. by destruct login.
Qed.

(** Job [j], which may delete, condemns the file in the world [w]: the machine lists there files of
    which the job's plan condemns this one. *)
Definition condemned_in (o : Options) (j : BackupJob) (w : World) (q : string) : Prop :=
  o_apply o = true /\ active j = true /\ report_only j = false
  /\ exists request files, request_for o j = Ok request
       /\ (list_backup_files request (machine w)).1 = Ok files /\ condemned now request files q.
(** It is one of the selected jobs, in the world the run from [w] came to it in, after those of [before]. *)
Definition condemned_by (o : Options) (jobs : list BackupJob) (w : World) (j : BackupJob) (q : string) : Prop :=
  exists before after answers w1, selected o jobs = Ok (before ++ j :: after)
    /\ prune_jobs o before w = (Ok answers, w1) /\ condemned_in o j w1 q.

Lemma prune_job_removes o j w q : active j = true -> there (machine w) q ->
  there (machine (prune_a_job o j w).2) q \/ condemned_in o j w q.
Proof.
  intros Ha Hq. unfold prune_job. destruct (not_listable _ _ _) as [[reason|]|e]; [by left| |by left].
  cbn [machine started]. unfold attempt. destruct (request_of _ _ _ _ o j) as [request|e] eqn:Hreq; [|by left].
  destruct (prune_one_removes now request (machine w) q Hq) as [Hk|(Hdel & files & Hl & Hc)].
  - destruct (_prune_one now request (machine w)) as [[r|e] m]; [|by left].
    destruct (negb _); by left.
  - right. destruct (request_for_fields _ _ _ Hreq) as (Hd & _ & _). rewrite Hd in Hdel.
    apply andb_true_iff in Hdel as [? ?%negb_true_iff]. split_and!; try done. by exists request, files.
Qed.
Lemma prune_jobs_removes o jobs w q : Forall (fun j => active j = true) jobs -> there (machine w) q ->
  there (machine (prune_jobs o jobs w).2) q
  \/ exists before j after answers w1, jobs = before ++ j :: after /\ prune_jobs o before w = (Ok answers, w1) /\ condemned_in o j w1 q.
Proof.
  intros Ha. revert w. induction Ha as [|j jobs Ha _ IH]; intros w Hq; [by left|].
  destruct (prune_job_removes o j w q Ha Hq) as [Hk|Hc]; [|right; by exists [], j, jobs, [], w].
  cbn [prune_each]. destruct (prune_job _ _ _ _ _ o j w) as [[a|e] w1] eqn:Hj; [|by left]. cbn [snd] in Hk.
  destruct (IH w1 Hk) as [Hk2|(before & j' & after & answers & w2 & -> & Hb & Hc)].
  - destruct (prune_each _ _ _ _ _ o jobs w1) as [[l|e] w2]; by left.
  - right. exists (j :: before), j', after, ((label j, a) :: answers), w2. split; [done|]. split; [|done].
    cbn [prune_each]. by rewrite Hj, Hb.
Qed.
Lemma selected_jobs o jobs found : selected o jobs = Ok found ->
  Forall (fun j => j ∈ jobs /\ active j = true) found.
Proof.
  unfold selected. intros (l & Hl & Hf)%result_bind_ok.
  assert (Hsub : forall (P : BackupJob -> bool) l1, Forall (fun j => j ∈ jobs /\ active j = true) l1 ->
    Forall (fun j => j ∈ jobs /\ active j = true) (List.filter P l1)).
  { intros P l1. rewrite !list.Forall_forall. intros Hx x [? _]%elem_of_filter_bool. auto. }
  assert (Hact : Forall (fun j => j ∈ jobs /\ active j = true) (List.filter active jobs)).
  { apply list.Forall_forall. by intros x ?%elem_of_filter_bool. }
  assert (Hl' : Forall (fun j => j ∈ jobs /\ active j = true) l).
  { destruct (o_backup_id o ≫= non_empty) as [id|]; [|by injection Hl as <-].
    destruct (List.filter _ (List.filter active jobs)) eqn:E; [done|]. injection Hl as <-.
    rewrite <-E. by apply Hsub. }
  destruct (o_job_name o ≫= non_empty) as [name|]; [|by injection Hf as <-].
  destruct (List.filter _ l) eqn:E; [done|]. injection Hf as <-. rewrite <-E. by apply Hsub.
Qed.

(** The bound of a condemned file: its listed row is dated, and its database has a newer full
    backup in the plan's keep. *)
Lemma condemned_is_superseded request files q : condemned now request files q ->
  exists p r, plan_of now request files = Ok p /\ r ∈ pl_obsolete p /\ finished (pr_file r) <> ""
    /\ forall f, f ∈ files -> dated_full (database (pr_file r)) f ->
       exists g, g ∈ row_files (pl_keep p) /\ dated_full (database (pr_file r)) g
         /\ String.leb (finished f) (finished g) = true
         /\ str_lt (finished (pr_file r)) (finished g) = true.
Proof.
  intros (p & r & _ & _ & Hp & Hr & _). exists p, r. split_and!; [done|done| |].
  all: destruct (plan_of_plan _ _ _ _ Hp) as (days & md & secs & windows & Hplan);
    by destruct (newest_chain_kept _ _ _ _ _ _ _ r Hplan Hr).
Qed.

Lemma run_prune_removes lockdown o jobs w q : there (machine w) q ->
  there (machine (prune lockdown o jobs w).2) q
  \/ lockdown = false /\ exists j, j ∈ jobs /\ condemned_by o jobs w j q.
Proof.
  intros Hq. unfold run_prune. destruct (o_apply o && lockdown) eqn:Hlock; [by left|].
  destruct (selected o jobs) as [found|e] eqn:Hs; [|by left].
  pose proof (selected_jobs _ _ _ Hs) as Hf.
  assert (Hact : Forall (fun j => active j = true) found) by (eapply list.Forall_impl; [done|naive_solver]).
  destruct (prune_jobs_removes o found w q Hact Hq) as [Hk|(before & j & after & answers & w1 & -> & Hb & Hc)].
  - destruct (prune_each _ _ _ _ _ o found w) as [[l|e] w1]; by left.
  - right. split; [destruct Hc as [Ha _]; rewrite Ha in Hlock; done|]. exists j.
    split; [|by exists before, after, answers, w1].
    rewrite list.Forall_forall in Hf. apply Hf. apply elem_of_app. right. by left.
Qed.

(** ** What a prune reports *)
Definition answered (a : job_answer) : bool := match a with Skipped _ => false | _ => true end.
Definition rows_of (j : BackupJob) (a : job_answer) : list JobRow :=
  match a with
  | Skipped _ => []
  | Done _ _ _ _ _ _ => [mkRow (prune_code j) "logging" "DONE"]
  | _ => [mkRow (prune_code j) "error" "ERROR"]
  end.
Definition events_of (j : BackupJob) (a : job_answer) : list Event :=
  match a with
  | Skipped _ => []
  | Done _ _ _ _ _ _ => [mkEvent "START" "logging" (label j); mkEvent "END" "logging" (label j)]
  | _ => [mkEvent "START" "logging" (label j); mkEvent "ERROR" "error" (label j)]
  end.
Lemma prune_job_reports o j w a w' : prune_a_job o j w = (Ok a, w') ->
  job_rows w' = job_rows w ++ rows_of j a /\ events w' = events w ++ events_of j a.
Proof.
  unfold prune_job. destruct (not_listable _ _ _) as [[reason|]|e]; [| |done].
  { intros [= <- <-]. by rewrite !app_nil_r. }
  destruct (attempt _ _ _ _ _ o j _) as [[r|e] m]; [destruct (negb _)|]; intros [= <- <-]; cbn;
    by rewrite <-?app_assoc.
Qed.
Lemma prune_jobs_report o jobs w l w' : prune_jobs o jobs w = (Ok l, w') ->
  map fst l = map label jobs
  /\ job_rows w' = job_rows w ++ concat (zip_with rows_of jobs (map snd l))
  /\ events w' = events w ++ concat (zip_with events_of jobs (map snd l)).
Proof.
  revert w l. induction jobs as [|j jobs IH]; intros w l; cbn.
  { intros [= <- <-]. by rewrite !app_nil_r. }
  destruct (prune_job _ _ _ _ _ o j w) as [[a|e] w1] eqn:Hj; [|done].
  destruct (prune_each _ _ _ _ _ o jobs w1) as [[l1|e] w2] eqn:Hl; [|done]. intros [= <- <-].
  destruct (prune_job_reports _ _ _ _ _ Hj) as [Hr He]. destruct (IH _ _ Hl) as (Hm & Hr2 & He2).
  cbn. rewrite Hm, Hr2, He2, Hr, He. by rewrite <-!app_assoc.
Qed.

Lemma tally_counts l :
  tally l (fun a => match a with Done _ _ _ _ _ _ => 1 | _ => 0 end)
  + tally l (fun a => match a with Failed _ | Refused _ => 1 | _ => 0 end)
  + tally l (fun a => match a with Skipped _ => 1 | _ => 0 end) = Z.of_nat (length l).
Proof. unfold tally. induction l as [|[k []] l IH]; cbn [foldr snd length] in *; lia. Qed.
Lemma run_prune_reports lockdown o jobs w s w' found :
  prune lockdown o jobs w = (Ok s, w') -> selected o jobs = Ok found ->
  map fst (jobs_ s) = map label found
  /\ configured s = Z.of_nat (length found)
  /\ pruned s + s_failed s + skipped s = configured s
  /\ job_rows w' = job_rows w ++ concat (zip_with rows_of found (map snd (jobs_ s)))
  /\ events w' = events w ++ concat (zip_with events_of found (map snd (jobs_ s))).
Proof.
  unfold run_prune. destruct (o_apply o && lockdown); [done|]. intros Hrun Hs. rewrite Hs in Hrun.
  destruct (prune_each _ _ _ _ _ o found w) as [[l|e] w1] eqn:Hl; [|done]. injection Hrun as <- <-.
  destruct (prune_jobs_report _ _ _ _ _ Hl) as (Hm & Hr & He).
  assert (Hlen : length l = length found).
  { rewrite <-(length_map fst l), Hm. apply length_map. }
  cbn. split_and!; try done. rewrite tally_counts. by rewrite Hlen.
Qed.
End prune.
