(* ===== verification/PruneProofs.v ===== *)
(** * A prune at work: the theorems of [Prune] at concrete entries, and where the command does
    not do what it says. *)

From S2P Require Import Prelude Py PyTime CleanupRetention BackupRetention DeleteFiles Prune BackupListing.
From S2P Require Import Prune.

(** A lab: one Oracle host in a container, one SQL Server on Linux, one on Windows. *)
Definition lister_of (listing : list string -> list BackupFile) : Lister (list string) :=
  fun _ w => (Ok (listing w), w).
Definition quiet_lister listing : @QuietLister (list string) _ _ (lister_of listing).
Proof. intros request w q Hq. exact Hq. Defined.

Definition lab_host (server platform container : string) : pydict :=
  [("server_id", PStr server); ("ip", PStr "10.0.0.5"); ("platform", PStr platform);
   ("container_name", PStr container);
   ("cmd_access", PDict [("enabled", PBool true); ("method", PStr "ssh"); ("credential_name", PStr "ops")])].
Definition lab_instances : list pydict :=
  [lab_host "ora1" "linux" "oracle19"; lab_host "sql1" "linux" "mssql"; lab_host "sql2" "windows" ""].
Definition lab_credentials : list pydict :=
  [[("credentials", PList [PDict [("credential_name", PStr "ops"); ("username", PStr "dbops");
                                   ("password_ref", PStr "OPS")]])]].
Definition lab_secrets : list (string * string) := [("OPS", "s3cret"); ("SA", "s3cret")].
Definition lab_job (name engine server directory : string) (seconds : Z) : BackupJob :=
  mkJob "lab" name engine server directory seconds None true [] [("MSSQL_PASSWORD", "SA")].
Definition lab_options (apply : bool) : Options := mkOptions None None None "age" apply false.
Definition lab_now : Z := default 0 (strptime "2026-10-01 12:00:00").
Definition file_row (path kind stamp_text : string) : BackupFile :=
  row path kind None None (Printed stamp_text) (age_seconds (Printed stamp_text) (At lab_now)).
Definition lab_prune (listing : list string -> list BackupFile) (o : Options) (jobs : list BackupJob)
    (w : list string) :=
  @run_prune lab_instances lab_credentials lab_secrets (fun s => s) (list string) _ (lister_of listing)
    lab_now false o jobs (mkWorld w [] []).

Definition rman_listing (w : list string) : list BackupFile :=
  List.filter (fun f => bool_decide (str (bf_path f) ∈ w))
    [file_row "/backup/l0_1.bkp" "full" "2026-09-01 01:00:00"; file_row "/backup/arc_1.bkp" "log" "2026-09-02 01:00:00";
     file_row "/backup/l0_2.bkp" "full" "2026-09-10 01:00:00"; file_row "/backup/arc_2.bkp" "log" "2026-09-30 01:00:00"].
Definition rman_files : list string :=
  ["/backup/l0_1.bkp"; "/backup/arc_1.bkp"; "/backup/l0_2.bkp"; "/backup/arc_2.bkp"; "/backup/notes.txt"].
Definition rman_job : BackupJob := lab_job "rman" "oracle" "ora1" "/backup" 604800.

(** ** SQL Server *)
Definition engines_of (inst : Instance_) (w : list string) : Engines :=
  mkEngines (mkInstance (List.filter (fun f => bool_decide (od_path f ∈ w)) (in_files inst)) (in_now inst)
               (in_headers inst)) [] [].
Definition sql_lister (inst : Instance_) : Lister (list string) :=
  fun request w =>
    match BackupListing.list_backup_files request (engines_of inst w) with
    | Ok files => (Ok files, w)
    | Err _ => (Err "the instance refused", w)
    end.
Definition sql_prune (inst : Instance_) (o : Options) (jobs : list BackupJob) (w : list string) :=
  @run_prune lab_instances lab_credentials lab_secrets (fun s => s) (list string) _ (sql_lister inst)
    lab_now false o jobs (mkWorld w [] []).
Definition set_of (kind stamp_text : string) : Head :=
  mkHead (PInt (if String.eqb kind "D" then 1 else 2)) (PStr "sales")
    (match strptime stamp_text with Some t => At t | None => NoTime end).
Definition at_lab (files : list (string * list Head)) : Instance_ :=
  mkInstance (map (fun f => mkOnDisk f.1 (Some 4096)) files) (At lab_now)
    (fun path => inl (default [] (assoc path files))).

Definition rows_of_path (inst : Instance_) (path : string) : list BackupFile :=
  match in_headers inst path with
  | inl heads => BackupListing.rows_of (in_now inst) (mkOnDisk path (Some 4096)) heads
  | inr _ => []
  end.

(** A backup device that is appended to: two full backups in one file. *)
Definition appended : Instance_ :=
  at_lab [("/b/sales.bak", [set_of "D" "2026-09-01 01:00:00"; set_of "D" "2026-09-30 01:00:00"]);
          ("/b/sales.trn", [set_of "L" "2026-09-30 02:00:00"])].
Definition appended_files : list string := ["/b/sales.bak"; "/b/sales.trn"].
Definition sales_job : BackupJob := lab_job "sales" "sqlserver" "sql1" "/b" 604800.
Definition windows_backups : Instance_ :=
  at_lab [("D:\b\old.bak", [set_of "D" "2026-09-01 01:00:00"]); ("D:\b\new.bak", [set_of "D" "2026-09-30 01:00:00"])].
Definition windows_files : list string := ["D:\b\old.bak"; "D:\b\new.bak"].
Definition windows_job : BackupJob := lab_job "win" "sqlserver" "sql2" "D:\b" 604800.

(** ** What a prune removes *)
(** C11: Whatever a prune does, a file of the machine stays, or deletion was asked for without a
    lockdown, by an active entry of an engine that may delete; the file is one the plan calls
    obsolete on the listing of that entry as the run read it when it came to the job, after the
    jobs before it; it lies inside the entry's directory, and the mass-delete cap let it pass. *)
Theorem a_prune_removes_only_what_is_condemned db_instances remote_credentials secrets resolve_ssh_key
    {W} `{QuietLister W} now lockdown o jobs w q :
  there (machine w) q ->
  there (machine (run_prune db_instances remote_credentials secrets resolve_ssh_key now lockdown o jobs w).2) q
  \/ lockdown = false /\ exists j, j ∈ jobs
       /\ condemned_by db_instances remote_credentials secrets resolve_ssh_key now o jobs w j q.
Proof. intros Hq. by eapply run_prune_removes. Qed.
Theorem prune_witness :
  machine (lab_prune rman_listing (lab_options true) [rman_job] rman_files).2
    = ["/backup/l0_2.bkp"; "/backup/arc_2.bkp"; "/backup/notes.txt"]
  /\ match rman_files with
     | q :: _ =>
         @there (list string) _ _ (machine (lab_prune rman_listing (lab_options true) [rman_job] rman_files).2) q
         \/ false = false /\ exists j, j ∈ [rman_job]
              /\ @condemned_by lab_instances lab_credentials lab_secrets (fun s => s) (list string) _
                   (lister_of rman_listing) lab_now (lab_options true) [rman_job] (mkWorld rman_files [] []) j q
     | [] => False
     end.
Proof.
  split; [vm_compute; reflexivity|]. unfold rman_files, lab_prune.
  assert (Hin : "/backup/l0_1.bkp"%string ∈ rman_files) by (apply list_elem_of_In; left; reflexivity).
  exact (@a_prune_removes_only_what_is_condemned lab_instances lab_credentials lab_secrets (fun s => s)
           (list string) _ _ (lister_of rman_listing) (quiet_lister rman_listing) lab_now false
           (lab_options true) [rman_job] (mkWorld rman_files [] []) "/backup/l0_1.bkp" Hin).
Defined.

(** A prune that ends answers every selected job once, in order; pruned, failed and skipped
    add up to the jobs; each job that was not skipped wrote one row and sent one start and one
    end. *)
Lemma a_prune_reports_every_job db_instances remote_credentials secrets resolve_ssh_key
    {W} `{Machine W, Lister W} now lockdown o jobs w s w' found :
  run_prune db_instances remote_credentials secrets resolve_ssh_key now lockdown o jobs w = (Ok s, w') ->
  selected o jobs = Ok found ->
  map fst (jobs_ s) = map label found
  /\ configured s = Z.of_nat (length found)
  /\ pruned s + s_failed s + skipped s = configured s
  /\ job_rows w' = job_rows w ++ concat (zip_with rows_of found (map snd (jobs_ s)))
  /\ events w' = events w ++ concat (zip_with events_of found (map snd (jobs_ s))).
Proof. apply run_prune_reports. Qed.
Theorem reports_witness :
  exists s w', lab_prune rman_listing (lab_options true) [rman_job] rman_files = (Ok s, w')
    /\ map fst (jobs_ s) = map label [rman_job] /\ configured s = Z.of_nat 1
    /\ pruned s + s_failed s + skipped s = configured s
    /\ job_rows w' = [] ++ concat (zip_with Prune.rows_of [rman_job] (map snd (jobs_ s)))
    /\ events w' = [] ++ concat (zip_with events_of [rman_job] (map snd (jobs_ s))).
Proof.
  do 2 eexists. split; [vm_compute; reflexivity|].
  eapply (@a_prune_reports_every_job lab_instances lab_credentials lab_secrets (fun s => s) (list string) _
    (lister_of rman_listing) lab_now false (lab_options true) [rman_job] (mkWorld rman_files [] []));
    vm_compute; reflexivity.
Defined.

(** ** Where the command does not do what it says *)
(** A device that holds two full backups is listed as two files of one path; the older is
    obsolete, so the path is deleted, and the newest full of the database goes with it. *)
(** A SQL Server backup file that holds two backup sets is listed as two rows of one path;
    the older is obsolete, so the file is deleted, and the newest full backup, which the same
    plan keeps, goes with it. *)
Lemma an_appended_backup_loses_its_newest_full :
  machine (sql_prune appended (lab_options true) [sales_job] appended_files).2 = ["/b/sales.trn"]
  /\ exists p, plan_of lab_now [("db_type", PStr "sqlserver"); ("cleanup_retention", PInt 604800); ("mode", PStr "age")]
       (rows_of_path appended "/b/sales.bak") = Ok p
     /\ map (fun r => (bf_path (pr_file r), bf_finished_at (pr_file r))) (pl_keep p)
        = [(PStr "/b/sales.bak", PStr "2026-09-30 01:00:00")].
Proof. split; [vm_compute; reflexivity|]. eexists. split; vm_compute; reflexivity. Qed.

(** windows. *)
Lemma windows_entries_are_never_pruned :
  machine (sql_prune windows_backups (lab_options true) [windows_job] windows_files).2 = windows_files
  /\ jobs_ <$> (sql_prune windows_backups (lab_options true) [windows_job] windows_files).1
     = Ok [("lab/win", Failed (DeleteRefused (PathNotAbsolute "D:\b\old.bak")))].
Proof. vm_compute. done. Qed.

(** A retention of nothing is read as the default of fourteen days, not as no age gate. *)
Lemma stated_seconds n request : 0 <= n ->
  parse (("cleanup_retention", PInt n) :: request) "prune" true = Ok n
  /\ parse_per_type (("cleanup_retention", PInt n) :: request) "prune" (str (get (("cleanup_retention", PInt n) :: request) "db_type")) true = Ok (Build_Retention [] (Some n) true).
Proof.
  intros Hn. assert (Hp : parse (("cleanup_retention", PInt n) :: request) "prune" true = Ok n).
  { unfold parse. cbn. rewrite (proj2 (Z.ltb_ge n 0) Hn). f_equal. lia. }
  split; [done|]. unfold parse_per_type. rewrite Hp. done.
Qed.
Lemma zero_is_the_default_window files mode now : plan_retention files (PInt DEFAULT_RETENTION_DAYS) mode now (Some 0) []
  = plan_retention files (PInt DEFAULT_RETENTION_DAYS) mode now (Some 1209600) [].
Proof.
  unfold plan_retention. cbn [default from_option id].
  replace (_days (PInt DEFAULT_RETENTION_DAYS)) with (@Ok plan_error Z 14) by reflexivity.
  change (0 <=? 0) with true. change (1209600 <=? 0) with false.
  change (1209600 / 86400) with 14. cbn iota. rewrite !bind_ok.
  change (1209600 mod 86400 =? 0) with true. change (0 <? 0) with false. change (0 <? 1209600) with true.
  change (14 * 86400) with 1209600. cbn [orb]. reflexivity.
Qed.
(** zero. *)
Lemma zero_retention_is_fourteen_days now request files :
  plan_of now (("cleanup_retention", PInt 0) :: request) files
  = plan_of now (("cleanup_retention", PInt 1209600) :: request) files.
Proof. unfold plan_of. 
 destruct (stated_seconds 0 request ltac:(lia)) as [H1 H2].
 destruct (stated_seconds 1209600 request ltac:(lia)) as [H3 H4]. rewrite H1, H2, H3, H4.
 unfold windows_by_level. cbn [r_uniform default from_option]. rewrite zero_is_the_default_window. reflexivity.
Qed.
