(* ===== verification/WorkflowSteps.v ===== *)
(** * The steps of a Telegram workflow ([lib/workflow_steps.py]).

    A step is the dict of the command file; answers are the texts of the positions, from 1 on.
    A position is read as a whole number that is at least 1, which the command file states. *)

From S2P Require Import Prelude Py.

Definition CONTROL_BACK : string := "back".
Definition CONTROL_SKIP : string := "skip".
Definition CONTROL_CANCEL : string := "cancel".
Definition CONTROL_LABELS : list (string * string) :=
  [("back", CONTROL_BACK); ("⬅️ back", CONTROL_BACK); ("⬅ back", CONTROL_BACK);
   ("skip", CONTROL_SKIP); ("⏭️ skip", CONTROL_SKIP); ("⏭ skip", CONTROL_SKIP);
   ("cancel", CONTROL_CANCEL); ("🚫 cancel", CONTROL_CANCEL); ("❌ cancel", CONTROL_CANCEL)].
Definition BACK_LABEL : string := "⬅️ Back".
Definition SKIP_LABEL : string := "⏭️ Skip".
Definition CANCEL_LABEL : string := "🚫 Cancel".
Definition DEFAULT_SKIP_VALUE : string := "-".
Definition _SECRET_INPUT_TYPE : string := "secret".

(** ** Reading a step *)
Definition get_or (d : pydict) (key : string) (otherwise : pyval) : pyval := default otherwise (assoc key d).
(** [str(step.get("name") or "").strip()]. *)
Definition name_of (step : pydict) : string := strip (str (py_or (get step "name") (PStr ""))).
Definition position_of (step : pydict) : nat :=
  match py_int (get_or step "position" (PInt 1)) with Ok n => Z.to_nat n | Err _ => 1 end.
Definition slot_of (step : pydict) : nat := position_of step - 1.
Definition flag_or (step : pydict) (key : string) (otherwise : bool) : bool :=
  match assoc key step with Some v => truthy v | None => otherwise end.
Definition required (step : pydict) : bool := flag_or step "required" true.

Inductive Control : Type := Back | Skip | Cancel.
Definition control_of (kind : string) : Control :=
  if String.eqb kind CONTROL_BACK then Back else if String.eqb kind CONTROL_SKIP then Skip else Cancel.

Definition option_of (item : pyval) : option (string * string) :=
  match item with
  | PStr s => let value := strip s in if String.eqb value "" then None else Some (value, value)
  | PDict d =>
      let value := strip (str (get_or d "value" (PStr ""))) in
      if String.eqb value "" then None
      else Some (strip (str (py_or (get d "label") (PStr value))), value)
  | _ => None
  end.
(** Pairs of a label and a value. *)
Definition option_list (step : pydict) : list (string * string) :=
  match get step "options" with PList items => omap option_of items | _ => [] end.

Definition lstrip_char (c : ascii) (s : string) : string :=
  text (drop_while (fun a => bool_decide (a = c)) (chars s)).
Definition resolve_control (reply : string) (step : pydict) : option Control :=
  let candidate := lstrip_char "/" (lower (strip reply)) in
  if String.eqb candidate "" then None
  else
    kind ← assoc candidate CONTROL_LABELS;
    if existsb (fun o => String.eqb (lower (strip o.2)) candidate) (option_list step) then None
    else Some (control_of kind).

Definition is_secret (step : pydict) : bool :=
  truthy (get step "secret") || String.eqb (str (py_or (get step "input_type") (PStr ""))) _SECRET_INPUT_TYPE.
Definition is_skippable (step : pydict) : bool :=
  match get step "allow_skip" with PBool b => b | _ => negb (required step) end.
Definition is_asked_when_optional (step : pydict) : bool :=
  match get step "allow_skip" with PBool true => negb (required step) | _ => false end.
Definition skip_value (step : pydict) : string :=
  match get step "skip_value" with PNone => DEFAULT_SKIP_VALUE | v => str v end.
Definition accepts_free_text (step : pydict) : bool :=
  match get step "allow_text_input" with PBool b => b | _ => true end.

(** ** Answers *)
Definition arg (args : list string) (slot : nat) : string := default "" (args !! slot).
(** [while len(args) <= slot: args.append("")], then [args[slot] = value]. *)
Definition set_arg (args : list string) (slot : nat) (value : string) : list string :=
  <[slot := value]> (args ++ repeat "" (S slot - length args)).
(** [value] of a step: what its position holds, stripped. *)
Definition answer (args : list string) (step : pydict) : string := strip (arg args (slot_of step)).

Definition answers_step (args : list string) (answered : list (string * string)) (step : pydict) :=
  if String.eqb (name_of step) "" then answered else assoc_set (name_of step) (answer args step) answered.
Definition answers_by_name (steps : list pydict) (args : list string) : list (string * string) :=
  fold_left (answers_step args) steps [].

(** ** Branches *)
(** The parameter an [ask_when] rule reads. *)
Definition controlling (step : pydict) : option string :=
  match get step "ask_when" with
  | PDict rule => let name := strip (str (py_or (get rule "parameter") (PStr ""))) in
                  if String.eqb name "" then None else Some name
  | _ => None
  end.
Definition str_items (v : pyval) : option (list string) :=
  match v with PList l => Some (map str l) | _ => None end.
(** What the rule says of a value that is not blank. *)
Definition rule_holds (rule : pydict) (value : string) : bool :=
  if has_key rule "equals" then String.eqb value (str (get rule "equals"))
  else if has_key rule "not_equals" then negb (String.eqb value (str (get rule "not_equals")))
  else if has_key rule "in" then
    match str_items (get rule "in") with Some l => bool_decide (value ∈ l) | None => false end
  else if has_key rule "not_in" then
    match str_items (get rule "not_in") with Some l => negb (bool_decide (value ∈ l)) | None => false end
  else true.
Definition rule_of (step : pydict) : pydict := match get step "ask_when" with PDict rule => rule | _ => [] end.
Definition ask_when_holds (step : pydict) (answers : list (string * string)) : bool :=
  match controlling step with
  | None => true
  | Some name =>
      match assoc name answers with
      | None => false
      | Some value => if String.eqb (strip value) "" then false else rule_holds (rule_of step) (strip value)
      end
  end.

Definition clear_step (steps : list pydict) (cleared : list string) (step : pydict) : list string :=
  if (length cleared <? position_of step)%nat then cleared
  else if ask_when_holds step (answers_by_name steps cleared) then cleared
  else <[slot_of step := ""]> cleared.
Definition clear_unreachable_answers (steps : list pydict) (args : list string) : list string :=
  fold_left (clear_step steps) steps args.

(** ** What the operator is shown *)
Fixpoint pairs_of (labels : list string) : list (list string) :=
  match labels with
  | a :: b :: rest => [a; b] :: pairs_of rest
  | [a] => [[a]]
  | [] => []
  end.
Definition controls (step : pydict) (can_go_back : bool) : list string :=
  (if can_go_back then [BACK_LABEL] else []) ++ (if is_skippable step then [SKIP_LABEL] else [])
  ++ [CANCEL_LABEL].
Definition keyboard_for (step : pydict) (can_go_back : bool) : list (list string) :=
  (if is_secret step then [] else pairs_of (map fst (option_list step))) ++ [controls step can_go_back].
Definition control_hint (step : pydict) (can_go_back : bool) : string :=
  "Type " +:+ join " / " ((if can_go_back then ["back"] else [])
    ++ (if is_skippable step then ["skip"] else []) ++ ["cancel"]) +:+ " at any point.".

(** ** Answers as a store of slots *)
Lemma arg_set args slot value k : arg (set_arg args slot value) k = if decide (k = slot) then value else arg args k.
Proof.
  unfold arg, set_arg. case_decide as Hk.
  - subst k. rewrite list_lookup_insert_eq; [done|]. rewrite length_app, repeat_length. lia.
  - rewrite list_lookup_insert_ne by done. destruct (decide (k < length args)%nat) as [Hlt|Hge].
    + by rewrite lookup_app_l.
    + rewrite lookup_app_r by lia. rewrite (lookup_ge_None_2 args k) by lia.
      destruct (repeat "" (S slot - length args) !! (k - length args)%nat) as [x|] eqn:E; [|done].
      apply list_elem_of_lookup_2, list_elem_of_In, repeat_spec in E. by subst x.
Qed.
Lemma arg_insert args slot value k : (slot < length args)%nat ->
  arg (<[slot := value]> args) k = if decide (k = slot) then value else arg args k.
Proof.
  intros H. unfold arg. case_decide as Hk; [subst; by rewrite list_lookup_insert_eq|].
  by rewrite list_lookup_insert_ne.
Qed.
Lemma arg_clear args slot k : arg (<[slot := ""]> args) k = if decide (k = slot) then "" else arg args k.
Proof.
  destruct (decide (slot < length args)%nat) as [H|H]; [by apply arg_insert|].
  rewrite list_insert_ge by lia. case_decide as Hk; [|done]. subst k. unfold arg.
  by rewrite lookup_ge_None_2 by lia.
Qed.

(** ** Well-formed step lists *)
(** Names and positions are distinct, and a branch reads an earlier step. *)
Definition steps_wf (steps : list pydict) : Prop :=
  NoDup (map name_of steps) /\ NoDup (map slot_of steps)
  /\ Forall (fun s => name_of s <> "" /\ (0 < position_of s)%nat) steps.
(** The parameters a step's decisions read: all of them steps before it. *)
Definition reads_earlier (reads : pydict -> list string) (steps : list pydict) : Prop :=
  forall i s n, steps !! i = Some s -> n ∈ reads s ->
    exists j t, (j < i)%nat /\ steps !! j = Some t /\ name_of t = n.
Definition branch_reads (s : pydict) : list string := match controlling s with Some n => [n] | None => [] end.

Lemma answers_fold_other args n steps acc : n ∉ map name_of steps ->
  assoc n (fold_left (answers_step args) steps acc) = assoc n acc.
Proof.
  revert acc. induction steps as [|s steps IH]; intros acc; cbn [fold_left map]; [done|].
  intros [Hs Hn]%not_elem_of_cons. rewrite IH by done. unfold answers_step.
  destruct (String.eqb _ ""); [done|]. by rewrite assoc_set_ne.
Qed.
Lemma answers_fold args steps acc s : NoDup (map name_of steps) -> s ∈ steps -> name_of s <> "" ->
  assoc (name_of s) (fold_left (answers_step args) steps acc) = Some (answer args s).
Proof.
  revert acc. induction steps as [|t steps IH]; intros acc; cbn [fold_left map]; [by intros _ ?%not_elem_of_nil|].
  intros [Ht Hnd]%list.NoDup_cons [->|Hs]%list.elem_of_cons Hne; [|by apply IH].
  rewrite answers_fold_other by done. unfold answers_step.
  rewrite (proj2 (String.eqb_neq _ _) Hne). by rewrite assoc_set_eq.
Qed.
Lemma slot_inj steps i j s t : steps_wf steps -> steps !! i = Some s -> steps !! j = Some t ->
  slot_of s = slot_of t -> i = j.
Proof.
  intros (_ & Hnd & _) Hi Hj Heq.
  eapply (NoDup_lookup (map slot_of steps)); [done|by rewrite list_lookup_fmap, Hi|].
  change (map slot_of steps) with (slot_of <$> steps). by rewrite list_lookup_fmap, Hj, Heq.
Qed.

Section ordered.
Variable steps : list pydict.
Hypothesis Hwf : steps_wf steps.

Lemma answers_at args i s : steps !! i = Some s ->
  assoc (name_of s) (answers_by_name steps args) = Some (answer args s).
Proof using Hwf.
  destruct Hwf as (Hn & _ & Hp). intros Hi. apply answers_fold; [done|by eapply list_elem_of_lookup_2|].
  eapply Forall_lookup_1 in Hp; [|exact Hi]. by destruct Hp.
Qed.

Definition cond (args : list string) (s : pydict) : bool := ask_when_holds s (answers_by_name steps args).

Hypothesis Hbranch : reads_earlier branch_reads steps.

(** A branch is decided by the answers of the steps before it. *)
Lemma cond_agree args args' i s : steps !! i = Some s ->
  (forall j t, (j < i)%nat -> steps !! j = Some t -> answer args t = answer args' t) ->
  cond args s = cond args' s.
Proof using Hwf Hbranch.
  intros Hi Hag. unfold cond, ask_when_holds. destruct (controlling s) as [n|] eqn:Hc; [|done].
  destruct (Hbranch i s n Hi) as (j & t & Hj & Ht & <-).
  { unfold branch_reads. rewrite Hc. by left. }
  by rewrite !(answers_at _ j t Ht), (Hag j t Hj Ht).
Qed.

Lemma clear_step_arg args s k : (0 < position_of s)%nat ->
  arg (clear_step steps args s) k = if decide (k = slot_of s /\ cond args s = false) then "" else arg args k.
Proof.
  intros Hp. unfold clear_step. destruct (Nat.ltb_spec (length args) (position_of s)) as [Hlt|Hge].
  - case_decide as Hk; [|done]. destruct Hk as [-> _]. unfold arg, slot_of.
    by rewrite lookup_ge_None_2 by lia.
  - fold (cond args s). destruct (cond args s); [case_decide; naive_solver|].
    rewrite arg_clear. do 2 case_decide; naive_solver.
Qed.

Definition cleared_upto (args : list string) (i : nat) : list string :=
  fold_left (clear_step steps) (take i steps) args.
Lemma cleared_upto_S args i s : steps !! i = Some s ->
  cleared_upto args (S i) = clear_step steps (cleared_upto args i) s.
Proof. intros Hi. unfold cleared_upto. by rewrite (take_S_r _ _ s Hi), fold_left_app. Qed.
Lemma cleared_all args : clear_unreachable_answers steps args = cleared_upto args (length steps).
Proof. unfold cleared_upto. by rewrite firstn_all. Qed.

(** A step's slot is final once the step was looked at. *)
Lemma cleared_later args i j s : steps !! i = Some s -> (i < j)%nat -> (j <= length steps)%nat ->
  arg (cleared_upto args j) (slot_of s) = arg (cleared_upto args (S i)) (slot_of s).
Proof using Hwf.
  intros Hi Hij. induction Hij as [|j Hij IH]; intros Hj; [done|].
  destruct (lookup_lt_is_Some_2 steps j) as [t Ht]; [lia|].
  rewrite (cleared_upto_S _ _ _ Ht), clear_step_arg.
  - rewrite IH by lia. case_decide as Hd; [|done]. destruct Hd as [Hs _].
    pose proof (slot_inj _ _ _ _ _ Hwf Hi Ht Hs). lia.
  - destruct Hwf as (_ & _ & Hp). eapply Forall_lookup_1 in Hp; [|exact Ht]. by destruct Hp.
Qed.
Lemma cleared_before args i s k : steps !! i = Some s -> (k <= i)%nat ->
  arg (cleared_upto args k) (slot_of s) = arg args (slot_of s).
Proof using Hwf.
  intros Hi. induction k as [|k IH]; intros Hk; [done|].
  destruct (lookup_lt_is_Some_2 steps k) as [t Ht].
  { apply lookup_lt_Some in Hi. lia. }
  rewrite (cleared_upto_S _ _ _ Ht), clear_step_arg.
  - rewrite IH by lia. case_decide as Hd; [|done]. destruct Hd as [Hs _].
    pose proof (slot_inj _ _ _ _ _ Hwf Hi Ht Hs). lia.
  - destruct Hwf as (_ & _ & Hp). eapply Forall_lookup_1 in Hp; [|exact Ht]. by destruct Hp.
Qed.

(** What is left of the answers: those of the steps the answers themselves still reach. *)
Lemma cleared_is_reachable args i s : steps !! i = Some s ->
  arg (clear_unreachable_answers steps args) (slot_of s)
  = if cond (clear_unreachable_answers steps args) s then arg args (slot_of s) else "".
Proof using Hwf Hbranch.
  intros Hi. rewrite cleared_all. pose proof (lookup_lt_Some _ _ _ Hi) as Hlt.
  rewrite (cleared_later args i _ s Hi) by lia.
  assert (Hc : cond (cleared_upto args (length steps)) s = cond (cleared_upto args i) s).
  { apply (cond_agree _ _ i s Hi). intros j t Hj Ht. unfold answer.
    rewrite (cleared_later args j _ t Ht) by lia. by rewrite (cleared_later args j i t Ht) by lia. }
  rewrite Hc, (cleared_upto_S _ _ _ Hi), clear_step_arg.
  - rewrite (cleared_before args i s i Hi) by lia.
    case_decide as Hd; [destruct Hd as [_ ->]; done|].
    destruct (cond (cleared_upto args i) s) eqn:E; [done|]. by destruct Hd.
  - destruct Hwf as (_ & _ & Hp). eapply Forall_lookup_1 in Hp; [|exact Hi]. by destruct Hp.
Qed.
End ordered.
