(* ===== verification/StepWalk.v ===== *)
(** * Which question of a workflow comes next ([first_missing_prompt_parameter] of
    [telegram/command_conversation.py] and the rules it asks).

    What the configuration says is an argument: the parameters a SQL task declares, and
    whether every instance of an address is one without a database. *)

From S2P Require Import Prelude Py WorkflowSteps.

Section walk.
Variable declared_parameters : string -> list string.
Variable _target_has_no_database : string -> bool.

Definition all_digits (s : string) : bool :=
  negb (String.eqb s "") && forallb is_digit (chars s).
Definition sql_task_parameter_names (sql_id : string) : list string :=
  if all_digits (strip sql_id) then declared_parameters (strip sql_id) else [].

(** [next((item for item in parameters if str(item.get("name") or "") == name), None)]. *)
Definition step_named (steps : list pydict) (name : string) : option pydict :=
  List.find (fun s => String.eqb (str (py_or (get s "name") (PStr ""))) name) steps.

(** The rule under a key, when its condition is the one this build knows, and its parameter. *)
Definition rule_reads (step : pydict) (key condition otherwise : string) : option (pydict * string) :=
  match get step key with
  | PDict rule =>
      if String.eqb (str (py_or (get rule "condition") (PStr ""))) condition
      then Some (rule, strip (str (py_or (get rule "parameter") (PStr otherwise)))) else None
  | _ => None
  end.
Definition prompt_condition_holds (step : pydict) (steps : list pydict) (args : list string) : bool :=
  match rule_reads step "prompt_when" "sql_task_has_parameters" "sql_id" with
  | Some (_, name) =>
      match step_named steps name with
      | Some source => match sql_task_parameter_names (answer args source) with [] => false | _ => true end
      | None => false
      end
  | None => false
  end.
Definition skip_parameter_value (step : pydict) (steps : list pydict) (args : list string) : option string :=
  '(rule, name) ← rule_reads step "skip_when" "target_has_no_database" "";
  source ← step_named steps name;
  let target_ip := answer args source in
  if String.eqb target_ip "" || negb (_target_has_no_database target_ip) then None
  else Some (str (py_or (get rule "value") (PStr "-"))).

(** One turn of the loop: [None] when the step is to be asked. *)
Definition wanted (steps : list pydict) (args : list string) (step : pydict) : bool :=
  (required step || prompt_condition_holds step steps args || is_asked_when_optional step)
  && truthy (get step "prompt_text").
Definition pass (steps : list pydict) (args : list string) (step : pydict) : option (list string) :=
  if negb (ask_when_holds step (answers_by_name steps args)) then Some args
  else if wanted steps args step && String.eqb (answer args step) "" then
    value ← skip_parameter_value step steps args; Some (set_arg args (slot_of step) value)
  else Some args.
Fixpoint walk (steps rest : list pydict) (args : list string) : option pydict * list string :=
  match rest with
  | [] => (None, args)
  | step :: rest => match pass steps args step with
                    | None => (Some step, args)
                    | Some args => walk steps rest args
                    end
  end.
(** The next question, and the answers as the search leaves them. *)
Definition first_missing_prompt_parameter (steps : list pydict) (args : list string)
    : option pydict * list string :=
  walk steps steps (clear_unreachable_answers steps args).

(** ** The walk as a fold *)
Definition run_upto (steps : list pydict) (args : list string) (i : nat) : option (list string) :=
  fold_left (fun o s => a ← o; pass steps a s) (take i steps) (Some args).
Lemma run_upto_S steps args i s : steps !! i = Some s ->
  run_upto steps args (S i) = a ← run_upto steps args i; pass steps a s.
Proof. intros Hi. unfold run_upto. by rewrite (take_S_r _ _ s Hi), fold_left_app. Qed.
Lemma run_upto_le steps args i j : (i <= j)%nat -> (j <= length steps)%nat ->
  is_Some (run_upto steps args j) -> is_Some (run_upto steps args i).
Proof.
  intros Hij Hj. induction Hij as [|j Hij IH]; [done|]. intros Hs. apply IH; [lia|].
  destruct (lookup_lt_is_Some_2 steps j) as [t Ht]; [lia|]. rewrite (run_upto_S _ _ _ _ Ht) in Hs.
  destruct (run_upto steps args j); [by eexists|by destruct Hs].
Qed.
Lemma walk_run steps args i a : (i <= length steps)%nat -> run_upto steps args i = Some a ->
  match walk steps (drop i steps) a with
  | (Some s, a') => exists j, (i <= j)%nat /\ steps !! j = Some s /\ run_upto steps args j = Some a'
                      /\ pass steps a' s = None
  | (None, a') => run_upto steps args (length steps) = Some a'
  end.
Proof.
  remember (length steps - i)%nat as n eqn:Hn. revert i a Hn.
  induction n as [|n IH]; intros i a Hn Hi Hr.
  - rewrite drop_ge by lia. cbn. replace (length steps) with i by lia. done.
  - destruct (lookup_lt_is_Some_2 steps i) as [s Hs]; [lia|]. rewrite (drop_S _ _ _ Hs). cbn [walk].
    destruct (pass steps a s) as [a'|] eqn:Hp; [|by exists i].
    assert (Hr' : run_upto steps args (S i) = Some a') by (rewrite (run_upto_S _ _ _ _ Hs), Hr; exact Hp).
    specialize (IH (S i) a' ltac:(lia) ltac:(lia) Hr').
    destruct (walk steps (drop (S i) steps) a') as [[t|] a2]; [|done].
    destruct IH as (j & Hj & H). exists j. split; [lia|done].
Qed.
Lemma first_missing_run steps args :
  match first_missing_prompt_parameter steps args with
  | (Some s, a) => exists j, steps !! j = Some s
      /\ run_upto steps (clear_unreachable_answers steps args) j = Some a /\ pass steps a s = None
  | (None, a) => run_upto steps (clear_unreachable_answers steps args) (length steps) = Some a
  end.
Proof.
  pose proof (walk_run steps (clear_unreachable_answers steps args) 0 _ ltac:(lia) eq_refl) as H.
  rewrite drop_0 in H. unfold first_missing_prompt_parameter.
  destruct (walk steps steps _) as [[s|] a]; [|done]. destruct H as (j & _ & H). by exists j.
Qed.

(** ** An ordered list of steps *)
(** The parameters the decisions about a step read. *)
Definition reads (s : pydict) : list string :=
  branch_reads s
  ++ match rule_reads s "prompt_when" "sql_task_has_parameters" "sql_id" with Some (_, n) => [n] | None => [] end
  ++ match rule_reads s "skip_when" "target_has_no_database" "" with Some (_, n) => [n] | None => [] end.
Definition ordered (steps : list pydict) : Prop :=
  steps_wf steps /\ reads_earlier reads steps
  /\ Forall (fun s => str (py_or (get s "name") (PStr "")) = name_of s) steps.

Section ordered_steps.
Variable steps : list pydict.
Hypothesis Hord : ordered steps.

Lemma ordered_branch : reads_earlier branch_reads steps.
Proof using Hord.
  destruct Hord as (_ & Hr & _). intros i s n Hi Hn. eapply Hr; [done|].
  unfold reads. apply elem_of_app. by left.
Qed.
Lemma step_named_at j t : steps !! j = Some t -> step_named steps (name_of t) = Some t.
Proof using Hord.
  destruct Hord as ((Hnd & _ & _) & _ & Hraw). unfold step_named.
  clear Hord. revert j. induction steps as [|s l IH]; intros j Hj; [done|].
  inversion Hraw as [|? ? Hs Hraw']; subst. cbn [map] in Hnd.
  apply list.NoDup_cons in Hnd as [Hn Hnd]. cbn [List.find]. rewrite Hs.
  destruct j as [|j]; cbn in Hj.
  - injection Hj as ->. by rewrite String.eqb_refl.
  - destruct (String.eqb_spec (name_of s) (name_of t)) as [E|_]; [|by eapply IH].
    destruct Hn. rewrite E. apply list_elem_of_fmap. exists t. split; [done|by eapply list_elem_of_lookup_2].
Qed.
Abbreviation agree a a' i :=
  (forall j t, (j < i)%nat -> steps !! j = Some t -> answer a t = answer a' t).
Lemma source_agree a a' i s name t : steps !! i = Some s -> name ∈ reads s -> agree a a' i ->
  step_named steps name = Some t -> answer a t = answer a' t.
Proof using Hord.
  intros Hi Hn Hag Ht. destruct (proj1 (proj2 Hord) i s name Hi Hn) as (j & t' & Hj & Ht' & <-).
  rewrite (step_named_at j t' Ht') in Ht. injection Ht as <-. by eapply Hag.
Qed.
Lemma prompt_agree a a' i s : steps !! i = Some s -> agree a a' i ->
  prompt_condition_holds s steps a = prompt_condition_holds s steps a'.
Proof using Hord.
  intros Hi Hag. unfold prompt_condition_holds.
  destruct (rule_reads s "prompt_when" _ _) as [[rule name]|] eqn:Hr; [|done].
  destruct (step_named steps name) as [t|] eqn:Ht; [|done].
  rewrite (source_agree a a' i s name t); try done. unfold reads. rewrite Hr. apply elem_of_app. right. apply elem_of_app. left. by left.
Qed.
Lemma skip_agree a a' i s : steps !! i = Some s -> agree a a' i ->
  skip_parameter_value s steps a = skip_parameter_value s steps a'.
Proof using Hord.
  intros Hi Hag. unfold skip_parameter_value.
  destruct (rule_reads s "skip_when" _ _) as [[rule name]|] eqn:Hr; cbn; [|done].
  destruct (step_named steps name) as [t|] eqn:Ht; cbn; [|done].
  rewrite (source_agree a a' i s name t); try done. unfold reads. rewrite Hr. apply elem_of_app. right. apply elem_of_app. right. by left.
Qed.
Lemma branch_agree a a' i s : steps !! i = Some s -> agree a a' i -> cond steps a s = cond steps a' s.
Proof using Hord. intros Hi Hag. eapply cond_agree; [apply Hord|apply ordered_branch|done|done]. Qed.
Lemma wanted_agree a a' i s : steps !! i = Some s -> agree a a' i -> wanted steps a s = wanted steps a' s.
Proof using Hord. intros Hi Hag. unfold wanted. by rewrite (prompt_agree a a' i s). Qed.
(** ** A turn touches one slot, and fills it only when it was blank *)
Lemma pass_other a s a' k : pass steps a s = Some a' -> k <> slot_of s -> arg a' k = arg a k.
Proof using Type.
  unfold pass. intros Hp Hk. destruct (negb _); [by injection Hp as <-|].
  destruct (_ && _); [|by injection Hp as <-].
  destruct (skip_parameter_value s steps a) as [v|]; [|done]. injection Hp as <-.
  rewrite arg_set. by rewrite decide_False.
Qed.
Lemma pass_fill a s a' : pass steps a s = Some a' ->
  a' = a \/ cond steps a s = true /\ answer a s = "".
Proof using Type.
  unfold pass, cond. intros Hp. destruct (ask_when_holds _ _); cbn [negb] in Hp; [|left; by injection Hp].
  destruct (_ && _) eqn:E; [|left; by injection Hp].
  apply andb_true_iff in E as [_ E%String.eqb_eq]. by right.
Qed.
Lemma lookup_below i s k : steps !! i = Some s -> (k <= i)%nat -> (k < length steps)%nat.
Proof using Type. intros ?%lookup_lt_Some. lia. Qed.
Lemma run_step_Some args j b : (j < length steps)%nat -> run_upto steps args (S j) = Some b ->
  exists t a, steps !! j = Some t /\ run_upto steps args j = Some a /\ pass steps a t = Some b.
Proof using Type.
  intros Hj Hr. destruct (lookup_lt_is_Some_2 steps j Hj) as [t Ht]. rewrite (run_upto_S _ _ _ _ Ht) in Hr.
  destruct (run_upto steps args j) as [a|]; [|done]. by exists t, a.
Qed.
(** A step's slot keeps what the turn of the step left, and is not touched before. *)
Lemma run_keeps args i s a j b : steps !! i = Some s -> run_upto steps args (S i) = Some a ->
  (i < j)%nat -> (j <= length steps)%nat -> run_upto steps args j = Some b ->
  arg b (slot_of s) = arg a (slot_of s).
Proof using Hord.
  intros Hi Ha Hij. revert b. induction Hij as [|j Hij IH]; intros b Hj Hb; [congruence|].
  destruct (run_step_Some args j b) as (t & c & Ht & Hc & Hp); [lia|done|].
  rewrite (pass_other c t b); [by apply IH; [lia|]|done|].
  intros Heq. destruct Hord as (Hwf & _). pose proof (slot_inj _ _ _ _ _ Hwf Hi Ht Heq). lia.
Qed.
Lemma run_before args i s k a : steps !! i = Some s -> (k <= i)%nat -> run_upto steps args k = Some a ->
  arg a (slot_of s) = arg args (slot_of s).
Proof using Hord.
  intros Hi. revert a. induction k as [|k IH]; intros a Hk Ha; [by injection Ha as <-|].
  destruct (run_step_Some args k a) as (t & c & Ht & Hc & Hp); [by eapply lookup_below; [done|lia]|done|].
  rewrite (pass_other c t a); [by apply IH; [lia|]|done|].
  intros Heq. destruct Hord as (Hwf & _). pose proof (slot_inj _ _ _ _ _ Hwf Hi Ht Heq). lia.
Qed.
(** Before a later point, the slot is as the turn of its step left it. *)
Lemma run_agree args i j a b : (i <= j)%nat -> (j <= length steps)%nat ->
  run_upto steps args i = Some a -> run_upto steps args j = Some b ->
  forall k t, (k < i)%nat -> steps !! k = Some t -> arg a (slot_of t) = arg b (slot_of t).
Proof using Hord.
  intros Hij Hj Ha Hb k t Hk Ht.
  destruct (run_upto_le steps args (S k) i) as [c Hc]; [lia|lia|by eexists|].
  rewrite (run_keeps args k t c i a); try done; try lia. by rewrite (run_keeps args k t c j b); try done; lia.
Qed.

(** What the search leaves of a step that is not reached is blank. *)
Lemma unreached_is_blank args i a j s : (i <= length steps)%nat ->
  run_upto steps (clear_unreachable_answers steps args) i = Some a ->
  (j < i)%nat -> steps !! j = Some s -> cond steps a s = false -> arg a (slot_of s) = "".
Proof using Hord.
  set (C := clear_unreachable_answers steps args). intros Hi Ha Hj Hs Hc.
  destruct (run_upto_le steps C (S j) i) as [b Hb]; [lia|done|by eexists|].
  destruct (run_step_Some C j b) as (s' & c & Hs' & Hrc & Hp); [lia|done|].
  rewrite Hs in Hs'. injection Hs' as <-.
  rewrite (run_keeps C j s b i a) by (done || lia).
  assert (Hcc : cond steps c s = false).
  { rewrite <-Hc. apply (branch_agree c a j s Hs). intros k t Hk Ht. unfold answer. f_equal.
    by apply (run_agree C j i c a) with (k := k); try done; lia. }
  destruct (pass_fill _ _ _ Hp) as [->|[Hc' _]]; [|congruence].
  rewrite (run_before C j s j c) by (done || lia).
  unfold C. rewrite (cleared_is_reachable steps (proj1 Hord) ordered_branch args j s Hs). fold C.
  destruct (cond steps C s) eqn:HC; [|done].
  (* the answer the branch reads was there, so the search has not filled it *)
  exfalso. unfold cond, ask_when_holds in HC, Hcc. destruct (controlling s) as [n|] eqn:Hn; [|done].
  destruct (ordered_branch j s n Hs) as (k & t & Hk & Ht & <-).
  { unfold branch_reads. rewrite Hn. by left. }
  rewrite (answers_at steps (proj1 Hord) C k t Ht) in HC.
  rewrite (answers_at steps (proj1 Hord) c k t Ht) in Hcc.
  destruct (run_upto_le steps C (S k) j) as [d Hd]; [lia|lia|by eexists|].
  destruct (run_step_Some C k d) as (t' & e & Ht' & He & Hpe); [lia|done|].
  rewrite Ht in Ht'. injection Ht' as <-.
  assert (Heq : answer c t = answer C t).
  { unfold answer. f_equal. rewrite (run_keeps C k t d j c) by (done || lia).
    rewrite <-(run_before C k t k e) by (done || lia).
    destruct (pass_fill _ _ _ Hpe) as [->|[_ Hblank]]; [done|]. exfalso.
    unfold answer in HC, Hblank. rewrite <-(run_before C k t k e) in HC by (done || lia).
    rewrite Hblank in HC. done. }
  rewrite Heq in Hcc. congruence.
Qed.
Lemma pass_asked a s : pass steps a s = None -> cond steps a s = true.
Proof using Type. unfold pass, cond. by destruct (ask_when_holds _ _). Qed.
Lemma pass_answered a s : answer a s <> "" -> pass steps a s = Some a.
Proof using Type.
  intros Ha. unfold pass. destruct (negb _); [done|].
  by rewrite (proj2 (String.eqb_neq _ _) Ha), andb_false_r.
Qed.

(** After the answer to a question, the answers up to it are left alone by the cleaning. *)
Lemma answered_is_clean args i s a v j t :
  steps !! i = Some s -> run_upto steps (clear_unreachable_answers steps args) i = Some a ->
  pass steps a s = None -> (j <= i)%nat -> steps !! j = Some t ->
  arg (clear_unreachable_answers steps (set_arg a (slot_of s) v)) (slot_of t)
  = arg (set_arg a (slot_of s) v) (slot_of t).
Proof using Hord.
  intros Hi Ha Hp. set (a' := set_arg a (slot_of s) v). revert t.
  induction (lt_wf j) as [j _ IH]. intros t Hj Ht.
  rewrite (cleared_is_reachable steps (proj1 Hord) ordered_branch a' j t Ht).
  set (C2 := clear_unreachable_answers steps a') in *.
  assert (Hc : cond steps C2 t = cond steps a t).
  { apply (branch_agree C2 a j t Ht). intros k u Hk Hu. unfold answer. f_equal.
    rewrite (IH k Hk u ltac:(lia) Hu). unfold a'. rewrite arg_set, decide_False; [done|].
    intros Heq. pose proof (slot_inj _ _ _ _ _ (proj1 Hord) Hu Hi Heq). lia. }
  rewrite Hc. destruct (cond steps a t) eqn:Hct; [done|].
  destruct (decide (j = i)) as [->|Hne].
  { rewrite Hi in Ht. injection Ht as <-. apply pass_asked in Hp. congruence. }
  unfold a'. rewrite arg_set, decide_False.
  - symmetry. eapply (unreached_is_blank args i a j t); try done; [|lia].
    apply lookup_lt_Some in Hi. lia.
  - intros Heq. pose proof (slot_inj _ _ _ _ _ (proj1 Hord) Ht Hi Heq). lia.
Qed.

(** A turn that went through goes through again on answers that agree with what it left. *)
Lemma pass_again c c' b k t : steps !! k = Some t -> pass steps c t = Some c' -> agree b c k ->
  arg b (slot_of t) = arg c' (slot_of t) ->
  exists b', pass steps b t = Some b' /\ forall x, arg b' x = arg b x.
Proof using Hord.
  intros Ht Hp Hag Harg. unfold pass in Hp |- *.
  pose proof (branch_agree b c k t Ht Hag) as Hcond. unfold cond in Hcond. rewrite Hcond.
  destruct (negb _); [by exists b|].
  rewrite (wanted_agree b c k t Ht Hag), (skip_agree b c k t Ht Hag).
  destruct (wanted steps c t); cbn [andb] in *; [|by exists b].
  destruct (String.eqb_spec (answer b t) "") as [Hb|_]; [|by exists b].
  destruct (String.eqb_spec (answer c t) "") as [Hc|Hc].
  - destruct (skip_parameter_value t steps c) as [f|]; [|done]. injection Hp as <-.
    rewrite arg_set, decide_True in Harg by done. eexists. split; [reflexivity|]. intros x.
    rewrite arg_set. case_decide as Hx; [by subst x|done].
  - injection Hp as <-. destruct Hc. unfold answer in *. by rewrite <-Harg.
Qed.

(** The question after an answer is a later one. *)
Lemma next_is_later args s a v t a2 i j :
  first_missing_prompt_parameter steps args = (Some s, a) -> steps !! i = Some s -> strip v <> "" ->
  first_missing_prompt_parameter steps (set_arg a (slot_of s) v) = (Some t, a2) -> steps !! j = Some t ->
  (i < j)%nat.
Proof using Hord.
  intros H1 Hi Hv H2 Hj. pose proof (first_missing_run steps args) as R1. rewrite H1 in R1.
  destruct R1 as (i' & Hi' & Ha & Hpa).
  pose proof (slot_inj _ _ _ _ _ (proj1 Hord) Hi' Hi eq_refl) as ->.
  pose proof (first_missing_run steps (set_arg a (slot_of s) v)) as R2. rewrite H2 in R2.
  destruct R2 as (j' & Hj' & Ha2 & Hpa2).
  pose proof (slot_inj _ _ _ _ _ (proj1 Hord) Hj' Hj eq_refl) as ->.
  set (C := clear_unreachable_answers steps args) in *. set (a' := set_arg a (slot_of s) v) in *.
  set (C2 := clear_unreachable_answers steps a') in *.
  assert (Hlen : (S i <= length steps)%nat) by (apply lookup_lt_Some in Hi; lia).
  assert (Hother : forall k u, (k < i)%nat -> steps !! k = Some u -> arg a' (slot_of u) = arg a (slot_of u)).
  { intros k u Hk Hu. unfold a'. rewrite arg_set, decide_False; [done|].
    intros Heq. pose proof (slot_inj _ _ _ _ _ (proj1 Hord) Hu Hi Heq). lia. }
  assert (Hruns : forall k, (k <= S i)%nat -> exists b, run_upto steps C2 k = Some b
    /\ forall m u, (m <= i)%nat -> steps !! m = Some u -> arg b (slot_of u) = arg a' (slot_of u)).
  { induction k as [|k IH]; intros Hk.
    - exists C2. split; [done|]. intros m u Hm Hu. by apply (answered_is_clean args i s a v m u).
    - destruct IH as (b & Hb & Hab); [lia|].
      destruct (lookup_lt_is_Some_2 steps k) as [u Hu]; [lia|]. rewrite (run_upto_S _ _ _ _ Hu), Hb. cbn.
      destruct (decide (k = i)) as [->|Hne].
      + rewrite Hi in Hu. injection Hu as <-. rewrite pass_answered; [by exists b|].
        unfold answer. rewrite (Hab i s) by (done || lia). unfold a'. by rewrite arg_set, decide_True.
      + destruct (run_upto_le steps C (S k) i) as [c' Hc']; [lia|lia|by eexists|].
        destruct (run_step_Some C k c') as (u' & c & Hu' & Hc & Hp); [lia|done|].
        rewrite Hu in Hu'. injection Hu' as <-.
        destruct (pass_again c c' b k u Hu Hp) as (b' & Hb' & Heq).
        * intros m w Hm Hw. unfold answer. f_equal. rewrite (Hab m w), (Hother m w) by (done || lia).
          symmetry. by apply (run_agree C k i c a) with (k := m); try done; lia.
        * rewrite (Hab k u), (Hother k u) by (done || lia). apply (run_keeps C k u c' i a); (done || lia).
        * exists b'. split; [done|]. intros m w Hm Hw. rewrite Heq. by apply (Hab m w). }
  destruct (decide (i < j)%nat) as [|Hge]; [done|]. exfalso.
  destruct (Hruns (S j)) as (b & Hb & _); [lia|].
  rewrite (run_upto_S _ _ _ _ Hj), Ha2 in Hb. cbn in Hb. congruence.
Qed.

(** ** A conversation of answers *)
(** The questions asked when each is answered, without going back: [reply] gives the answer to
    a step, as it is stored. *)
Fixpoint asked (fuel : nat) (reply : pydict -> string) (args : list string) : list pydict :=
  match fuel with
  | O => []
  | S fuel => match first_missing_prompt_parameter steps args with
              | (None, _) => []
              | (Some s, a) => s :: asked fuel reply (set_arg a (slot_of s) (reply s))
              end
  end.
Lemma asked_at fuel reply args : Forall (fun s => s ∈ steps) (asked fuel reply args).
Proof using Type.
  revert args. induction fuel as [|fuel IH]; intros args; cbn; [constructor|].
  pose proof (first_missing_run steps args) as R.
  destruct (first_missing_prompt_parameter steps args) as [[s|] a]; [|constructor].
  destruct R as (j & Hj & _). constructor; [by eapply list_elem_of_lookup_2|apply IH].
Qed.
Lemma asked_in_order fuel reply args i s rest : (forall s, strip (reply s) <> "") ->
  asked fuel reply args = s :: rest -> steps !! i = Some s ->
  Forall (fun t => exists j, (i < j)%nat /\ steps !! j = Some t) rest /\ sublist rest (drop (S i) steps).
Proof using Hord.
  intros Hr. revert args i s rest. induction fuel as [|fuel IH]; intros args i s rest; cbn; [done|].
  destruct (first_missing_prompt_parameter steps args) as [[s'|] a] eqn:H1; [|done].
  intros [= -> <-] Hi. set (args2 := set_arg a (slot_of s) (reply s)).
  destruct (asked fuel reply args2) as [|t rest] eqn:Ha; [split; [constructor|apply sublist_nil_l]|].
  assert (Ht : t ∈ steps).
  { pose proof (asked_at fuel reply args2) as Hf. rewrite Ha in Hf. by inversion Hf. }
  apply list_elem_of_lookup in Ht as [j Hj].
  destruct (IH args2 j t rest Ha Hj) as [Hf Hs].
  assert (Hij : (i < j)%nat).
  { destruct fuel as [|fuel']; [done|]. cbn in Ha.
    destruct (first_missing_prompt_parameter steps args2) as [[t'|] a2] eqn:H2; [|done].
    injection Ha as -> _. by eapply (next_is_later args s a (reply s) t a2 i j). }
  split.
  - constructor; [by exists j|]. eapply list.Forall_impl; [exact Hf|]. intros u (k & Hk & Hu).
    exists k. split; [lia|done].
  - replace (drop (S i) steps) with (take (j - S i) (drop (S i) steps) ++ drop j steps).
    + rewrite (drop_S _ _ _ Hj). apply sublist_inserts_l. by apply sublist_skip.
    + rewrite <-(take_drop (j - S i) (drop (S i) steps)) at 2. f_equal. rewrite drop_drop. f_equal. lia.
Qed.
Lemma asked_sublist fuel reply args : (forall s, strip (reply s) <> "") ->
  sublist (asked fuel reply args) steps.
Proof using Hord.
  intros Hr. destruct (asked fuel reply args) as [|s rest] eqn:Ha; [apply sublist_nil_l|].
  assert (Hs : s ∈ steps).
  { pose proof (asked_at fuel reply args) as Hf. rewrite Ha in Hf. by inversion Hf. }
  apply list_elem_of_lookup in Hs as [i Hi].
  destruct (asked_in_order fuel reply args i s rest Hr Ha Hi) as [_ Hsub].
  rewrite <-(take_drop i steps), (drop_S _ _ _ Hi). apply sublist_inserts_l. by apply sublist_skip.
Qed.
End ordered_steps.
End walk.

(** ** Ordered lists, decided *)
Fixpoint reads_seen (reads : pydict -> list string) (seen : list string) (steps : list pydict) : bool :=
  match steps with
  | [] => true
  | s :: steps => forallb (fun n => bool_decide (n ∈ seen)) (reads s) && reads_seen reads (name_of s :: seen) steps
  end.
Lemma reads_seen_ok reads seen before steps :
  (forall n, n ∈ seen <-> n ∈ map name_of before) -> reads_seen reads seen steps = true ->
  forall i s n, steps !! i = Some s -> n ∈ reads s ->
    exists j t, (j < length before + i)%nat /\ (before ++ steps) !! j = Some t /\ name_of t = n.
Proof.
  revert seen before. induction steps as [|u steps IH]; intros seen before Hseen; cbn; [done|].
  intros [Hu Hr]%andb_true_iff [|i] s n Hi Hn.
  - injection Hi as ->. rewrite forallb_forall in Hu.
    apply list_elem_of_In, Hu, bool_decide_eq_true, Hseen, list_elem_of_fmap in Hn as (t & -> & Ht).
    apply list_elem_of_lookup in Ht as [j Hj]. exists j, t. pose proof (lookup_lt_Some _ _ _ Hj).
    split; [lia|]. by rewrite lookup_app_l.
  - destruct (IH (name_of u :: seen) (before ++ [u])) with (i := i) (s := s) (n := n) as (j & t & Hj & Ht & E);
      try done.
    + intros m. rewrite map_app, elem_of_app, list.elem_of_cons, Hseen. cbn. rewrite list_elem_of_singleton. tauto.
    + rewrite length_app in Hj. cbn in Hj. rewrite <-app_assoc in Ht. exists j, t. split; [lia|done].
Qed.
Definition ordered_list (steps : list pydict) : bool :=
  bool_decide (NoDup (map name_of steps)) && bool_decide (NoDup (map slot_of steps))
  && forallb (fun s => negb (String.eqb (name_of s) "") && (0 <? position_of s)%nat
                       && String.eqb (str (py_or (get s "name") (PStr ""))) (name_of s)) steps
  && reads_seen reads [] steps.
Lemma ordered_list_ok steps : ordered_list steps = true -> ordered steps.
Proof.
  intros [[[H1%bool_decide_eq_true H2%bool_decide_eq_true]%andb_true_iff H3]%andb_true_iff H4]%andb_true_iff.
  rewrite forallb_forall in H3.
  assert (Hf : Forall (fun s => name_of s <> "" /\ (0 < position_of s)%nat
      /\ str (py_or (get s "name") (PStr "")) = name_of s) steps).
  { apply list.Forall_forall. intros s Hs%list_elem_of_In. specialize (H3 s Hs).
    apply andb_true_iff in H3 as [[Hn%negb_true_iff%String.eqb_neq Hp%Nat.ltb_lt]%andb_true_iff He%String.eqb_eq].
    done. }
  split; [|split].
  - split; [done|]. split; [done|]. eapply list.Forall_impl; [exact Hf|]. naive_solver.
  - intros i s n Hi Hn. by apply (reads_seen_ok reads [] [] steps ltac:(done) H4 i s n).
  - eapply list.Forall_impl; [exact Hf|]. naive_solver.
Qed.

Section conversation.
Variable declared_parameters : string -> list string.
Variable _target_has_no_database : string -> bool.
Abbreviation next_question := (first_missing_prompt_parameter declared_parameters _target_has_no_database).

(** The answers when nothing is missing any more. *)
Fixpoint converse (steps : list pydict) (fuel : nat) (reply : pydict -> string) (args : list string)
    : option (list string) :=
  match fuel with
  | O => None
  | S fuel => match next_question steps args with
              | (None, a) => Some a
              | (Some s, a) => converse steps fuel reply (set_arg a (slot_of s) (reply s))
              end
  end.
Lemma converse_or_asked steps fuel reply args : converse steps fuel reply args = None ->
  length (asked declared_parameters _target_has_no_database steps fuel reply args) = fuel.
Proof.
  revert args. induction fuel as [|fuel IH]; intros args; cbn; [done|].
  destruct (next_question steps args) as [[s|] a]; [|done]. intros H. cbn. f_equal. by apply IH.
Qed.
End conversation.

(** C38: Over a step list whose branches read earlier steps, a conversation in which every
    answer says something asks some of the steps in their order, none twice, and has nothing
    left to ask after at most as many answers as there are steps. *)
Theorem a_conversation_asks_in_order_and_ends declared_parameters _target_has_no_database steps reply args :
  ordered steps -> (forall s, strip (reply s) <> "") ->
  sublist (asked declared_parameters _target_has_no_database steps (S (length steps)) reply args) steps
  /\ is_Some (converse declared_parameters _target_has_no_database steps (S (length steps)) reply args).
Proof.
  intros Hord Hr. pose proof (asked_sublist declared_parameters _target_has_no_database steps Hord
    (S (length steps)) reply args Hr) as Hs. split; [exact Hs|].
  destruct (converse _ _ steps (S (length steps)) reply args) eqn:Hc; [by eexists|].
  apply converse_or_asked in Hc. apply sublist_length in Hs. lia.
Qed.
Definition param (name : string) (position : Z) (more : pydict) : pydict :=
  [("name", PStr name); ("position", PInt position); ("prompt_text", PStr (name +:+ "?"))] ++ more.
Definition asked_when (parameter word value : string) : pydict :=
  [("ask_when", PDict [("parameter", PStr parameter); (word, PStr value)])].
Definition deploy_steps : list pydict :=
  [param "deploy_target" 1 [("options", PList [PStr "worker"; PStr "remote"])];
   param "remote_auth" 2 (asked_when "deploy_target" "not_equals" "worker");
   param "password" 4 (("secret", PBool true) :: asked_when "remote_auth" "equals" "password");
   param "key_file" 3 (asked_when "remote_auth" "equals" "key_file");
   param "confirm" 5 []].
Definition deploy_reply (s : pydict) : string :=
  if String.eqb (name_of s) "deploy_target" then "remote"
  else if String.eqb (name_of s) "remote_auth" then "key_file" else "yes".
Theorem conversation_witness :
  map name_of (asked (fun _ => []) (fun _ => false) deploy_steps 6 deploy_reply [])
    = ["deploy_target"; "remote_auth"; "key_file"; "confirm"]
  /\ sublist (asked (fun _ => []) (fun _ => false) deploy_steps 6 deploy_reply []) deploy_steps
  /\ is_Some (converse (fun _ => []) (fun _ => false) deploy_steps 6 deploy_reply []).
Proof.
  split; [vm_compute; reflexivity|].
  apply (a_conversation_asks_in_order_and_ends (fun _ => []) (fun _ => false) deploy_steps deploy_reply []).
  - apply ordered_list_ok. vm_compute. reflexivity.
  - intros s. unfold deploy_reply. repeat destruct (String.eqb _ _); done.
Defined.

(** Over such a list, clearing keeps the answer of a step exactly when the answers that are
    left still reach the step, and blanks every other. *)
Lemma answers_kept_are_those_reached steps args i s :
  ordered steps -> steps !! i = Some s ->
  arg (clear_unreachable_answers steps args) (slot_of s)
  = if ask_when_holds s (answers_by_name steps (clear_unreachable_answers steps args))
    then arg args (slot_of s) else "".
Proof. intros Hord Hi. exact (cleared_is_reachable steps (proj1 Hord) (ordered_branch steps Hord) args i s Hi). Qed.
(** A branch that was left: its password goes, the rest stays. *)
Theorem cleared_witness :
  clear_unreachable_answers deploy_steps ["remote"; "key_file"; "/k"; "hunter2"; "yes"]
    = ["remote"; "key_file"; "/k"; ""; "yes"]
  /\ match deploy_steps !! 2%nat with
     | Some s => arg (clear_unreachable_answers deploy_steps ["remote"; "key_file"; "/k"; "hunter2"; "yes"]) (slot_of s)
         = if ask_when_holds s (answers_by_name deploy_steps
               (clear_unreachable_answers deploy_steps ["remote"; "key_file"; "/k"; "hunter2"; "yes"]))
           then arg ["remote"; "key_file"; "/k"; "hunter2"; "yes"] (slot_of s) else ""
     | None => False
     end.
Proof.
  split; [vm_compute; reflexivity|].
  apply (answers_kept_are_those_reached deploy_steps ["remote"; "key_file"; "/k"; "hunter2"; "yes"] 2);
    [|reflexivity]. apply ordered_list_ok. vm_compute. reflexivity.
Defined.

(** A list whose branches are not in order: one pass leaves the password of a branch that is
    not reached any more. *)
Example unordered_list_keeps_an_answer :
  let steps := [param "password" 3 (asked_when "remote_auth" "equals" "password");
                param "remote_auth" 2 (asked_when "deploy_target" "not_equals" "worker");
                param "deploy_target" 1 []] in
  clear_unreachable_answers steps ["worker"; "password"; "hunter2"] = ["worker"; ""; "hunter2"].
Proof. vm_compute. reflexivity. Qed.
