(* ===== verification/Conversation.v ===== *)
(** * The conversation of a Telegram command ([telegram/command_conversation.py] and
    [process_pending_conversation_messages] of [telegram/command_processor.py]), over the
    conversation states and the step trail of [db/store_telegram.py].

    A connection block of the store is one step.  Times are left out of the rows, but for the
    claim of a state; a row's [created_at] grows with its id.  What a command does when it is
    run, the list of choices under a prompt, a downloaded file and [re.fullmatch] are
    arguments.  The text of a reply to a finished command is what [render_reply_text] gives. *)

From S2P Require Import Prelude Py WorkflowSteps StepWalk.

(** ** The store *)
Record StateData := mkData {
  d_args : list string; d_name : string; d_position : nat; d_history : list nat;
  d_files : list (nat * string); d_error : option string }.
Record State := mkState {
  state_id : Z; chat_id : string; user_id : string; command_id : Z; command_text : string;
  state_key : string; status : string; wait_after : Z; source : option Z; data : StateData;
  claimed_at : option string; consumed : option Z; note : string }.
Record Trail := mkTrail {
  run_key : string; t_chat : string; t_user : string; step_no : Z; parameter_name : string;
  parameter_position : nat; t_status : string; prompt : string; secret : bool; t_state : option Z;
  answer_text : option string; answer_kind : option string; answer_message : option Z }.
Record Message := mkMessage {
  telegram_message_id : Z; message_id : Z; m_chat : string; m_user : string; m_text : string;
  document : option string }.      (* the name of an attached file *)
(** A queued message: its keyboard, [Some []] takes the keyboard away. *)
Record Sent := mkSent {
  s_chat : string; s_type : string; s_text : string; s_reply_to : Z; s_keyboard : option (list (list string)) }.
Record Db := mkDb {
  states : list State; next_state : Z; trail : list Trail; messages : list Message; sent : list Sent;
  deleted : list (string * Z) }.

Definition set_states (l : list State) (d : Db) : Db :=
  mkDb l (next_state d) (trail d) (messages d) (sent d) (deleted d).
Definition set_trail (l : list Trail) (d : Db) : Db :=
  mkDb (states d) (next_state d) l (messages d) (sent d) (deleted d).
Definition queue_message (m : Sent) (d : Db) : Db :=
  mkDb (states d) (next_state d) (trail d) (messages d) (sent d ++ [m]) (deleted d).

Definition waiting (s : State) : bool := String.eqb (status s) "waiting".
Definition of_pair (chat user : string) (s : State) : bool :=
  String.eqb (chat_id s) chat && String.eqb (user_id s) user.
Definition with_status (st : string) (s : State) : State :=
  mkState (state_id s) (chat_id s) (user_id s) (command_id s) (command_text s) (state_key s) st
    (wait_after s) (source s) (data s) (claimed_at s) (consumed s) (note s).

Definition upsert_telegram_conversation_state (chat user : string) (command : Z) (text key : string)
    (after : Z) (src : option Z) (sd : StateData) (d : Db) : Db * Z :=
  let replaced s := if of_pair chat user s && waiting s then with_status "replaced" s else s in
  (mkDb (map replaced (states d)
         ++ [mkState (next_state d) chat user command text key "waiting" after src sd None None ""])
     (next_state d + 1) (trail d) (messages d) (sent d) (deleted d), next_state d).
Definition update_telegram_conversation_state (id : Z) (st : string) (sd : StateData)
    (consumed_id : option Z) (note_text : string) (d : Db) : Db :=
  set_states (map (fun s =>
    if state_id s =? id then
      mkState (state_id s) (chat_id s) (user_id s) (command_id s) (command_text s) (state_key s) st
        (wait_after s) (source s) sd (claimed_at s)
        (match consumed_id with Some i => Some i | None => consumed s end) note_text
    else s) (states d)) d.
Definition may_claim (id : Z) (stale_before : string) (s : State) : bool :=
  (state_id s =? id) && waiting s
  && match claimed_at s with None => true | Some t => str_lt t stale_before end.
Definition claim_telegram_conversation_state (id : Z) (at_ stale_before : string) (d : Db) : Db * bool :=
  (set_states (map (fun s =>
    if may_claim id stale_before s then
      mkState (state_id s) (chat_id s) (user_id s) (command_id s) (command_text s) (state_key s)
        (status s) (wait_after s) (source s) (data s) (Some at_) (consumed s) (note s)
    else s) (states d)) d,
   existsb (may_claim id stale_before) (states d)).
Definition fetch_waiting_telegram_conversation_states (limit : nat) (d : Db) : list State :=
  take limit (List.filter waiting (states d)).
(** [LIKE '/spbot%'], without regard to case. *)
Definition is_command (text : string) : bool := startswith (lower text) "/spbot".
Definition answers_state (chat user : string) (after : Z) (m : Message) : bool :=
  String.eqb (m_chat m) chat && String.eqb (m_user m) user && (after <? message_id m)
  && (negb (forallb (Ascii.eqb " ") (chars (m_text m))) || bool_decide (is_Some (document m)))
  && negb (is_command (m_text m)).
Definition earlier (best : option Message) (m : Message) : option Message :=
  match best with Some b => if message_id m <? message_id b then Some m else best | None => Some m end.
Definition fetch_next_telegram_message_for_state (chat user : string) (after : Z) (d : Db) : option Message :=
  fold_left earlier (List.filter (answers_state chat user after) (messages d)) None.
Definition redact_telegram_message (id : Z) (d : Db) : Db :=
  mkDb (states d) (next_state d) (trail d)
    (map (fun m => if telegram_message_id m =? id
                   then mkMessage (telegram_message_id m) (message_id m) (m_chat m) (m_user m) "***" (document m)
                   else m) (messages d)) (sent d) (deleted d).

Definition live (key : string) (t : Trail) : bool :=
  String.eqb (run_key t) key && String.eqb (t_status t) "active".
Definition close (st : string) (answer kind : option string) (message : option Z) (t : Trail) : Trail :=
  mkTrail (run_key t) (t_chat t) (t_user t) (step_no t) (parameter_name t) (parameter_position t) st
    (prompt t) (secret t) (t_state t) answer kind (match message with Some i => Some i | None => answer_message t end).
Definition abandon (t : Trail) : Trail := close "abandoned" (answer_text t) (answer_kind t) None t.
Definition last_step (key : string) (l : list Trail) : Z :=
  foldr Z.max 0 (map step_no (List.filter (fun t => String.eqb (run_key t) key) l)).
Definition start_telegram_workflow_step (key chat user name : string) (position : nat) (prompt_text : string)
    (is_secret_ : bool) (state : option Z) (d : Db) : Db :=
  let l := map (fun t => if live key t then abandon t else t) (trail d) in
  set_trail (l ++ [mkTrail key chat user (last_step key l + 1) name position "active" prompt_text is_secret_
                     state None None None]) d.
Definition finish_telegram_workflow_step (key st : string) (answer kind : option string) (message : option Z)
    (d : Db) : Db :=
  set_trail (map (fun t => if live key t then close st answer kind message t else t) (trail d)) d.

(** ** Commands *)
Record SupportCommand := mkCommand { cmd_id : Z; cmd_text : string; parameters : list pydict }.
Definition _parameter_at_position (c : SupportCommand) (position : nat) : option pydict :=
  List.find (fun p => (position_of p =? position)%nat) (parameters c).

Definition workflow_run_key (src : option Z) (id : Z) : string :=
  match src with
  | Some n => if n =? 0 then "state:" +:+ str_of_int id else "tcm:" +:+ str_of_int n
  | None => "state:" +:+ str_of_int id
  end.

(** ** Answers *)
Definition same_word (a b : string) : bool := String.eqb (lower a) (lower (strip b)).
Definition offers (step : pydict) (candidate : string) : bool :=
  existsb (fun o => same_word candidate o.1 || same_word candidate o.2) (option_list step).
Definition answer_kind_for (step : pydict) (value : string) : string :=
  if offers step (strip value) then "option" else "text".
Definition normalise_answer (step : pydict) (value : string) : string :=
  let candidate := strip value in
  match List.find (fun o => same_word candidate o.1 || same_word candidate o.2) (option_list step) with
  | Some o => o.2
  | None => candidate
  end.
Definition masked_answer (step : pydict) (value : string) : string :=
  if is_secret step then "*** (" +:+ str_of_int (Z.of_nat (str_len (strip value))) +:+ " chars)" else value.

Section conversation.
Variable declared_parameters : string -> list string.
Variable _target_has_no_database : string -> bool.
(** [re.fullmatch(pattern, text, IGNORECASE)]. *)
Variable fullmatch : string -> string -> bool.
(** The prompt with the choices of a command under it. *)
Variable render_prompt_text : pydict -> list pydict -> list string -> string.
(** The content of an attached file, or why it could not be read. *)
Variable download : pydict -> Message -> result string string.
(** Running the command: an error, or none; and the text of its reply. *)
Variable execute_command_action : SupportCommand -> list string -> Message -> option string.
Variable render_reply_text : SupportCommand -> list string -> option string -> string.

Abbreviation first_missing := (first_missing_prompt_parameter declared_parameters _target_has_no_database).

Definition answer_rejection (step : pydict) (value : string) : option string :=
  let candidate := strip value in
  if String.eqb candidate "" then
    Some "That answer was empty. Please answer the question, or use the buttons below."
  else if negb (accepts_free_text step) && negb (offers step candidate) then
    Some ("Please choose one of: " +:+ join ", " (map fst (option_list step)))
  else
    let pattern := str (py_or (get step "pattern") (PStr "")) in
    if String.eqb (str (py_or (get step "validator") (PStr ""))) "regex" && negb (String.eqb pattern "")
       && negb (fullmatch pattern (normalise_answer step candidate))
    then Some (str (py_or (get step "validation_error")
                 (PStr ("Invalid value for " +:+ str (get_or step "name" (PStr "this step")) +:+ "."))))
    else None.

(** ** Asking *)
Definition name_or_arg (step : pydict) : string := str (py_or (get step "name") (PStr "arg")).
Definition queue_step_prompt (c : SupportCommand) (step : pydict) (args : list string) (chat user : string)
    (reply_to : Z) (key : string) (history : list nat) (state : option Z) (d : Db) : Db :=
  let can_go_back := (1 <? length history)%nat in
  let prompt_text := render_prompt_text step (parameters c) args in
  let d := queue_message (mkSent chat "plain"
    (prompt_text +:+ String (chr 10) (String (chr 10) "") +:+ control_hint step can_go_back)
    reply_to (Some (keyboard_for step can_go_back))) d in
  start_telegram_workflow_step key chat user (name_or_arg step) (position_of step) prompt_text
    (is_secret step) state d.
Definition asking (step : pydict) (args : list string) (history : list nat) : StateData :=
  mkData args (name_or_arg step) (position_of step) history [] None.

Definition with_args (args : list string) (sd : StateData) : StateData :=
  mkData args (d_name sd) (d_position sd) (d_history sd) (d_files sd) (d_error sd).
Definition with_history (history : list nat) (sd : StateData) : StateData :=
  mkData (d_args sd) (d_name sd) (d_position sd) history (d_files sd) (d_error sd).
Definition moved_to (position : nat) (history : list nat) : list nat :=
  List.filter (fun p => negb (p =? position)%nat) history ++ [position].

(** Close the state, ask the next step, wait for its answer. *)
Definition _chain_next_conversation_parameter (s : State) (m : Message) (c : SupportCommand)
    (args : list string) (step : pydict) (sd : StateData) (d : Db) : Db :=
  let d := update_telegram_conversation_state (state_id s) "done" (with_args args sd)
             (Some (telegram_message_id m)) "chained to next parameter" d in
  let history := moved_to (position_of step) (d_history sd) in
  let d := queue_step_prompt c step args (chat_id s) (user_id s) (message_id m)
             (workflow_run_key (source s) (state_id s)) history (Some (state_id s)) d in
  (upsert_telegram_conversation_state (chat_id s) (user_id s) (cmd_id c) (cmd_text c) (name_or_arg step)
     (message_id m) (match source s with
                     | Some n => if n =? 0 then Some (state_id s) else Some n
                     | None => Some (state_id s)
                     end)
     (asking step args history) d).1.

Definition _reask_with_note (s : State) (m : Message) (c : SupportCommand) (args : list string)
    (sd : StateData) (step : pydict) (text key : string) (d : Db) : Db :=
  let d := finish_telegram_workflow_step key "rejected" None (Some "text") (Some (telegram_message_id m)) d in
  let d := queue_message (mkSent (chat_id s) "failed" text (message_id m) None) d in
  _chain_next_conversation_parameter s m c args step sd d.

(** ** Back, Skip, Cancel *)
Inductive outcome : Type := Cancelled | WentBack | Reasked | Skipped | SkippedLastStep (args : list string).
Definition apply_conversation_control (s : State) (m : Message) (c : SupportCommand) (args : list string)
    (sd : StateData) (step : pydict) (control : Control) (key : string) (d : Db) : outcome * Db :=
  let reask note := (Reasked, _reask_with_note s m c args sd step note key d) in
  match control with
  | Cancel =>
      let d := finish_telegram_workflow_step key "cancelled" None (Some "cancel") (Some (telegram_message_id m)) d in
      let d := update_telegram_conversation_state (state_id s) "cancelled" sd
                 (Some (telegram_message_id m)) "cancelled by the operator" d in
      (Cancelled, queue_message (mkSent (chat_id s) "plain"
         ("❌ " +:+ cmd_text c +:+ " cancelled. No changes were made.") (message_id m) (Some [])) d)
  | Back =>
      let previous := removelast (d_history sd) in
      match list.last previous with
      | None => reask "This is the first question - there is nothing to go back to."
      | Some target =>
          match _parameter_at_position c target with
          | None => reask "That step no longer exists in this command."
          | Some target_step =>
              let d := finish_telegram_workflow_step key "back" None (Some "back") (Some (telegram_message_id m)) d in
              let args := set_arg args (target - 1) "" in
              (WentBack, _chain_next_conversation_parameter s m c args target_step
                 (with_history (removelast previous) sd) d)
          end
      end
  | Skip =>
      if negb (is_skippable step) then reask "This step is required and cannot be skipped."
      else
        let args := set_arg args (slot_of step) (skip_value step) in
        let d := finish_telegram_workflow_step key "skipped" (Some (skip_value step)) (Some "skip")
                   (Some (telegram_message_id m)) d in
        match first_missing (parameters c) args with
        | (Some next, args) => (Skipped, _chain_next_conversation_parameter s m c args next sd d)
        | (None, args) => (SkippedLastStep args, d)
        end
  end.

(** [delete_message] is there, and [forget_secret_answer] deletes from the chat. *)
Variable can_delete : bool.
Definition forget_secret_answer (m : Message) (d : Db) : Db :=
  let d := redact_telegram_message (telegram_message_id m) d in
  if can_delete then mkDb (states d) (next_state d) (trail d) (messages d) (sent d)
                       (deleted d ++ [(m_chat m, message_id m)])
  else d.

(** ** One reply *)
(** The run is over: execute, answer, close the state. *)
Definition execute (s : State) (m : Message) (c : SupportCommand) (args : list string) (sd : StateData) (d : Db) : Db :=
  let failed := execute_command_action c args m in
  let text := render_reply_text c args failed in
  let d := if String.eqb text "" then d
    else queue_message (mkSent (chat_id s) (match failed with Some _ => "failed" | None => "success" end) text
                          (message_id m) (Some [])) d in
  update_telegram_conversation_state (state_id s) (match failed with Some _ => "error" | None => "done" end)
    (mkData args (d_name sd) (d_position sd) (d_history sd) (d_files sd) failed)
    (Some (telegram_message_id m)) (default "processed" failed) d.
(** What follows an answer: the next question, or the command. *)
Definition go_on (s : State) (m : Message) (c : SupportCommand) (args : list string) (sd : StateData) (d : Db) : Db :=
  match first_missing (parameters c) args with
  | (Some next, args) => _chain_next_conversation_parameter s m c args next sd d
  | (None, args) => execute s m c args sd d
  end.

(** [while len(args) < position: args.append("")]. *)
Definition padded (args : list string) (position : nat) : list string :=
  args ++ repeat "" (position - length args).
Definition file_wanted (step : option pydict) (value : string) (m : Message) : option pydict :=
  match step with
  | Some step => if flag_or step "accept_file" false && String.eqb value "" && bool_decide (is_Some (document m))
                 then Some step else None
  | None => None
  end.
Definition file_name (m : Message) : string :=
  match document m with Some name => if String.eqb name "" then "file" else name | None => "file" end.
Definition take_answer (s : State) (m : Message) (c : SupportCommand) (step : pydict) (value : string)
    (from_file : bool) (args : list string) (key : string) (d : Db) : Db :=
  let sd := data s in
  let d := if negb from_file && is_secret step then forget_secret_answer m d else d in
  match (if from_file then None else answer_rejection step value) with
  | Some rejection =>
      let d := finish_telegram_workflow_step key "rejected" (Some (masked_answer step value)) (Some "text")
                 (Some (telegram_message_id m)) d in
      let d := queue_message (mkSent (chat_id s) "failed" rejection (message_id m) None) d in
      _chain_next_conversation_parameter s m c args step sd d
  | None =>
      let stored := if from_file then value else normalise_answer step value in
      let args := set_arg args (d_position sd - 1) stored in
      let sd := if from_file
        then mkData (d_args sd) (d_name sd) (d_position sd) (d_history sd)
               (List.filter (fun f => negb (f.1 =? d_position sd)%nat) (d_files sd)
                ++ [(d_position sd, file_name m)]) (d_error sd)
        else sd in
      let d := finish_telegram_workflow_step key "answered" (Some (masked_answer step stored))
                 (Some (if from_file then "file" else answer_kind_for step value))
                 (Some (telegram_message_id m)) d in
      go_on s m c args sd d
  end.
Definition handle_reply (s : State) (m : Message) (c : SupportCommand) (d : Db) : Db :=
  let sd := data s in
  let args := padded (d_args sd) (d_position sd) in
  let value := strip (m_text m) in
  let awaited := _parameter_at_position c (d_position sd) in
  let step := default [] awaited in
  let key := workflow_run_key (source s) (state_id s) in
  match file_wanted awaited value m with
  | Some accepting =>
      match download accepting m with
      | Ok content => take_answer s m c step content true args key d
      | Err why =>
          let d := queue_message (mkSent (chat_id s) "failed" ("Could not read the attached file: " +:+ why)
                                    (message_id m) None) d in
          update_telegram_conversation_state (state_id s) "error" sd (Some (telegram_message_id m))
            "file download failed" d
      end
  | None =>
      match resolve_control value step with
      | Some control =>
          match apply_conversation_control s m c args sd step control key d with
          | (SkippedLastStep args, d) => go_on s m c args sd d
          | (_, d) => d
          end
      | None => take_answer s m c step value false args key d
      end
  end.

Variable commands : list SupportCommand.
Variables claim_at stale_before : string.
Definition process_state (s : State) (d : Db) : Db :=
  match fetch_next_telegram_message_for_state (chat_id s) (user_id s) (wait_after s) d with
  | None => d
  | Some m =>
      let '(d, mine) := claim_telegram_conversation_state (state_id s) claim_at stale_before d in
      if negb mine then d
      else match List.find (fun c => cmd_id c =? command_id s) commands with
           | None => update_telegram_conversation_state (state_id s) "error" (data s)
                       (Some (telegram_message_id m)) ("Command not found: " +:+ str_of_int (command_id s)) d
           | Some c => handle_reply s m c d
           end
  end.
Definition process_pending_conversation_messages (limit : nat) (d : Db) : Db :=
  fold_left (fun d s => process_state s d) (fetch_waiting_telegram_conversation_states limit d) d.

(** ** The first question of a run *)
(** What arrived on the command line is in the trail as answered. *)
Definition record_inline (c : SupportCommand) (args : list string) (chat user key : string) (message : Z)
    (d : Db) (step : pydict) : Db :=
  if String.eqb (str (py_or (get step "source") (PStr ""))) "flag" then d
  else if negb (ask_when_holds step (answers_by_name (parameters c) args)) then d
  else if String.eqb (answer args step) "" then d
  else finish_telegram_workflow_step key "answered" (Some (masked_answer step (answer args step)))
         (Some "inline") (Some message)
         (start_telegram_workflow_step key chat user (name_or_arg step) (position_of step) ""
            (is_secret step) None d).
Definition record_inline_answers (c : SupportCommand) (args : list string) (chat user key : string) (message : Z)
    (d : Db) : Db :=
  fold_left (record_inline c args chat user key message)
    (sort_by (fun a b => (position_of a <=? position_of b)%nat) (parameters c)) d.
Definition queue_missing_parameter_prompt (c : SupportCommand) (step : pydict) (args : list string)
    (chat user : string) (reply_to command_message message : Z) (d : Db) : Db :=
  let history := [position_of step] in
  let key := workflow_run_key (Some command_message) 0 in
  let d := record_inline_answers c args chat user key message d in
  let d := queue_step_prompt c step args chat user reply_to key history None d in
  (upsert_telegram_conversation_state chat user (cmd_id c) (cmd_text c) (name_or_arg step) reply_to
     (Some command_message) (asking step args history) d).1.
End conversation.
