(* ===== verification/ConversationProofs.v ===== *)
(** * What the conversations of the bot keep: one question at a time ([Conversation]). *)

From stdpp Require Import relations.
From S2P Require Import Prelude Py WorkflowSteps StepWalk Conversation.

(** ** The clients of the tables, one store call at a time *)
Inductive conv_step (d : Db) : Db -> Prop :=
| step_upsert chat user command text key after src sd :
    conv_step d (upsert_telegram_conversation_state chat user command text key after src sd d).1
| step_update id st sd consumed_id note_text : st <> "waiting" ->
    conv_step d (update_telegram_conversation_state id st sd consumed_id note_text d)
| step_claim id at_ stale : conv_step d (claim_telegram_conversation_state id at_ stale d).1
| step_start key chat user name position prompt_text is_secret_ state :
    conv_step d (start_telegram_workflow_step key chat user name position prompt_text is_secret_ state d)
| step_finish key st answer kind message : st <> "active" ->
    conv_step d (finish_telegram_workflow_step key st answer kind message d)
| step_queue m : conv_step d (queue_message m d)
| step_redact id : conv_step d (redact_telegram_message id d)
| step_delete chat id :
    conv_step d (mkDb (states d) (next_state d) (trail d) (messages d) (sent d) (deleted d ++ [(chat, id)]))
| step_message m : conv_step d (mkDb (states d) (next_state d) (trail d) (messages d ++ [m]) (sent d) (deleted d)).
Definition conv_steps : relation Db := rtc conv_step.
Create HintDb conv.
#[export] Hint Constructors conv_step : conv.
#[export] Hint Resolve rtc_once rtc_refl : conv.

(** ** The invariant of the tables *)
Definition pair_of (s : State) : string * string := (chat_id s, user_id s).
Definition active (t : Trail) : bool := String.eqb (t_status t) "active".
Definition waiting_pairs (l : list State) : list (string * string) := map pair_of (List.filter waiting l).
Definition live_runs (l : list Trail) : list string := map run_key (List.filter active l).
Definition numbers (l : list Trail) : list (string * Z) := map (fun t => (run_key t, step_no t)) l.
Record conv_ok (d : Db) : Prop := {
  ok_waiting : NoDup (waiting_pairs (states d));
  ok_ids : NoDup (map state_id (states d)) /\ Forall (fun s => state_id s < next_state d) (states d);
  ok_live : NoDup (live_runs (trail d));
  ok_numbers : NoDup (numbers (trail d)) }.

(** A map that keeps the key and may only take rows out of the filter. *)
Lemma map_filter_shrinks {A B} (g : A -> A) (p : A -> bool) (f : A -> B) l :
  (forall x, f (g x) = f x) -> (forall x, p (g x) = true -> p x = true) ->
  sublist (map f (List.filter p (map g l))) (map f (List.filter p l)).
Proof.
  intros Hf Hp. induction l as [|x l IH]; [constructor|]. cbn. specialize (Hp x).
  destruct (p (g x)); [rewrite Hp by done; cbn; rewrite Hf; by constructor|].
  destruct (p x); [by constructor|done].
Qed.
Lemma map_key {A B} (g : A -> A) (f : A -> B) l : (forall x, f (g x) = f x) -> map f (map g l) = map f l.
Proof. intros H. rewrite map_map. by apply map_ext. Qed.
Lemma filter_app_one {A} (p : A -> bool) l x :
  List.filter p (l ++ [x]) = List.filter p l ++ (if p x then [x] else []).
Proof. rewrite List.filter_app. cbn. by destruct (p x). Qed.
Lemma NoDup_app_one {A} (l : list A) x : NoDup l -> x ∉ l -> NoDup (l ++ [x]).
Proof.
  intros Hl Hx. apply list.NoDup_app. split; [done|]. split; [|apply NoDup_singleton].
  intros y Hy ->%list_elem_of_singleton. done.
Qed.
Lemma last_step_ge key l t : t ∈ l -> run_key t = key -> step_no t <= last_step key l.
Proof.
  intros Ht Hk. unfold last_step.
  assert (H : t ∈ List.filter (fun t => String.eqb (run_key t) key) l).
  { apply elem_of_filter_bool. split; [done|]. by apply String.eqb_eq. }
  revert H. generalize (List.filter (fun t => String.eqb (run_key t) key) l). intros l'.
  induction l' as [|u l' IH]; [by intros ?%not_elem_of_nil|].
  intros [->|H]%list.elem_of_cons; cbn; [lia|]. specialize (IH H). lia.
Qed.

Lemma upsert_ok chat user command text key after src sd d : conv_ok d ->
  conv_ok (upsert_telegram_conversation_state chat user command text key after src sd d).1.
Proof.
  intros [Hw [Hi Hlt] Hl Hn]. split; cbn; [| |done..].
  - unfold waiting_pairs. rewrite filter_app_one, map_app. cbn. apply NoDup_app_one.
    + eapply sublist_NoDup; [exact Hw|]. apply map_filter_shrinks.
      * intros s. by destruct (of_pair chat user s && waiting s).
      * intros s. by destruct (of_pair chat user s && waiting s).
    + intros (s & Hp & Hs)%list_elem_of_fmap. apply elem_of_filter_bool in Hs as [Hs Hws].
      apply list_elem_of_fmap in Hs as (s0 & -> & Hs0).
      destruct (of_pair chat user s0 && waiting s0) eqn:E; [done|]. rewrite Hws, andb_true_r in E.
      unfold pair_of, of_pair in *. injection Hp as -> ->. by rewrite !String.eqb_refl in E.
  - rewrite map_app, map_key by (intros s; by destruct (of_pair chat user s && waiting s)). cbn. split.
    + apply NoDup_app_one; [done|]. intros (s & Hid & Hs)%list_elem_of_fmap.
      rewrite list.Forall_forall in Hlt. specialize (Hlt s Hs). cbn in *. lia.
    + apply list.Forall_app. split; [|constructor; [cbn; apply Z.lt_succ_diag_r|constructor]].
      apply list.Forall_fmap. eapply list.Forall_impl; [exact Hlt|]. intros s Hs. cbn in *.
      destruct (of_pair chat user s && waiting s); cbn; lia.
Qed.
Lemma states_map_ok g d : conv_ok d -> (forall s, pair_of (g s) = pair_of s) ->
  (forall s, state_id (g s) = state_id s) -> (forall s, waiting (g s) = true -> waiting s = true) ->
  conv_ok (set_states (map g (states d)) d).
Proof.
  intros [Hw [Hi Hlt] Hl Hn] H1 H2 H3. split; cbn; [| |done..].
  - eapply sublist_NoDup; [exact Hw|]. by apply map_filter_shrinks.
  - rewrite map_key by done. split; [done|]. apply list.Forall_fmap.
    eapply list.Forall_impl; [exact Hlt|]. intros s ?. cbn. by rewrite H2.
Qed.
Lemma trail_map_ok g d : conv_ok d -> (forall t, run_key (g t) = run_key t) ->
  (forall t, step_no (g t) = step_no t) -> (forall t, active (g t) = true -> active t = true) ->
  conv_ok (set_trail (map g (trail d)) d).
Proof.
  intros [Hw Hi Hl Hn] H1 H2 H3. split; cbn; [done|done| |].
  - eapply sublist_NoDup; [exact Hl|]. by apply map_filter_shrinks.
  - unfold numbers. rewrite map_key; [done|]. intros t. by rewrite H1, H2.
Qed.
Lemma start_ok key chat user name position prompt_text is_secret_ state d : conv_ok d ->
  conv_ok (start_telegram_workflow_step key chat user name position prompt_text is_secret_ state d).
Proof.
  intros Hok. set (g t := if live key t then abandon t else t).
  assert (Hg : conv_ok (set_trail (map g (trail d)) d)).
  { apply trail_map_ok; [done|..]; intros t; unfold g; by destruct (live key t). }
  destruct Hg as [Hw Hi Hl Hn]. split; [done|done| |].
  - unfold start_telegram_workflow_step, live_runs in *. cbn in *. fold g.
    rewrite filter_app_one, map_app. cbn. apply NoDup_app_one; [done|].
    intros (t & Hk & Ht)%list_elem_of_fmap. apply elem_of_filter_bool in Ht as [Ht Ha].
    apply list_elem_of_fmap in Ht as (t0 & -> & Ht0). unfold g in *.
    destruct (live key t0) eqn:E; [done|]. unfold live, active in *.
    rewrite Ha, <-Hk, String.eqb_refl in E. done.
  - unfold start_telegram_workflow_step, numbers in *. cbn in *. fold g. rewrite map_app. cbn.
    apply NoDup_app_one; [done|]. intros (t & [= Hk Hs] & Ht)%list_elem_of_fmap.
    pose proof (last_step_ge key _ t Ht (eq_sym Hk)) as Hge. unfold g in *. lia.
Qed.
Lemma conv_step_ok d d' : conv_step d d' -> conv_ok d -> conv_ok d'.
Proof.
  intros Hstep Hok. destruct Hstep.
  - by apply upsert_ok.
  - apply states_map_ok; [done|..]; intros s; destruct (state_id s =? id); try done. cbn.
    intros Hw%String.eqb_eq. done.
  - apply states_map_ok; [done|..]; intros s; by destruct (may_claim id stale s).
  - by apply start_ok.
  - apply trail_map_ok; [done|..]; intros t; destruct (live key t); try done. cbn.
    intros Hw%String.eqb_eq. done.
  - by destruct Hok.
  - by destruct Hok.
  - by destruct Hok.
  - by destruct Hok.
Qed.
Lemma conv_steps_ok d d' : conv_steps d d' -> conv_ok d -> conv_ok d'.
Proof. induction 1; eauto using conv_step_ok. Qed.

(** ** Every operation is a sequence of store calls *)
Lemma and_upsert d d' chat user command text key after src sd : conv_steps d d' ->
  conv_steps d (upsert_telegram_conversation_state chat user command text key after src sd d').1.
Proof. intros. eapply rtc_r; eauto with conv. Qed.
Lemma and_update d d' id st sd consumed_id note_text : conv_steps d d' -> st <> "waiting" ->
  conv_steps d (update_telegram_conversation_state id st sd consumed_id note_text d').
Proof. intros. eapply rtc_r; eauto with conv. Qed.
Lemma and_start d d' key chat user name position prompt_text is_secret_ state : conv_steps d d' ->
  conv_steps d (start_telegram_workflow_step key chat user name position prompt_text is_secret_ state d').
Proof. intros. eapply rtc_r; eauto with conv. Qed.
Lemma and_finish d d' key st answer kind message : conv_steps d d' -> st <> "active" ->
  conv_steps d (finish_telegram_workflow_step key st answer kind message d').
Proof. intros. eapply rtc_r; eauto with conv. Qed.
Lemma and_queue d d' m : conv_steps d d' -> conv_steps d (queue_message m d').
Proof. intros. eapply rtc_r; eauto with conv. Qed.
#[export] Hint Resolve and_upsert and_update and_start and_finish and_queue : conv.
#[export] Hint Extern 1 (_ <> _) => discriminate : conv.

Section operations.
Variable declared_parameters : string -> list string.
Variable _target_has_no_database : string -> bool.
Variable fullmatch : string -> string -> bool.
Variable render_prompt_text : pydict -> list pydict -> list string -> string.
Variable download : pydict -> Message -> result string string.
Variable execute_command_action : SupportCommand -> list string -> Message -> option string.
Variable render_reply_text : SupportCommand -> list string -> option string -> string.
Variable can_delete : bool.
Variable commands : list SupportCommand.

Abbreviation chain := (_chain_next_conversation_parameter render_prompt_text).
Abbreviation reply_of := (handle_reply declared_parameters _target_has_no_database fullmatch render_prompt_text
  download execute_command_action render_reply_text can_delete).
Abbreviation process := (process_state declared_parameters _target_has_no_database fullmatch render_prompt_text
  download execute_command_action render_reply_text can_delete commands).
Abbreviation process_pending := (process_pending_conversation_messages declared_parameters _target_has_no_database
  fullmatch render_prompt_text download execute_command_action render_reply_text can_delete commands).
Abbreviation first_question := (queue_missing_parameter_prompt render_prompt_text).
Abbreviation next_of := (first_missing_prompt_parameter declared_parameters _target_has_no_database).

Lemma and_chain d d' s m c args step sd : conv_steps d d' -> conv_steps d (chain s m c args step sd d').
Proof. unfold _chain_next_conversation_parameter, queue_step_prompt. eauto with conv. Qed.
Hint Resolve and_chain : conv.
Lemma and_go_on d d' s m c args sd : conv_steps d d' ->
  conv_steps d (go_on declared_parameters _target_has_no_database render_prompt_text execute_command_action
                  render_reply_text s m c args sd d').
Proof.
  intros H. unfold go_on, execute. destruct (next_of (parameters c) args) as [[next|] args']; [eauto with conv|].
  destruct (execute_command_action c args' m); destruct (String.eqb _ ""); eauto with conv.
Qed.
Hint Resolve and_go_on : conv.
Lemma and_forget d d' m : conv_steps d d' -> conv_steps d (forget_secret_answer can_delete m d').
Proof.
  intros H. unfold forget_secret_answer.
  assert (conv_steps d (redact_telegram_message (telegram_message_id m) d')) by (eapply rtc_r; eauto with conv).
  destruct can_delete; [|done]. eapply rtc_r; eauto with conv.
Qed.
Hint Resolve and_forget : conv.
Lemma and_take_answer d d' s m c step value from_file args key : conv_steps d d' ->
  conv_steps d (take_answer declared_parameters _target_has_no_database fullmatch render_prompt_text
                  execute_command_action render_reply_text can_delete s m c step value from_file args key d').
Proof.
  intros H. unfold take_answer. destruct (negb from_file && is_secret step);
    (destruct (if from_file then None else answer_rejection fullmatch step value); eauto 8 with conv).
Qed.
Hint Resolve and_take_answer : conv.
Lemma and_control d d' s m c args sd step control key : conv_steps d d' ->
  conv_steps d (apply_conversation_control declared_parameters _target_has_no_database render_prompt_text
                  s m c args sd step control key d').2.
Proof.
  intros H. unfold apply_conversation_control, _reask_with_note. destruct control; cbn [snd].
  - destruct (list.last _) as [target|]; [|cbv zeta; cbn [snd]; eauto 8 with conv].
    destruct (_parameter_at_position c target); cbv zeta; cbn [snd]; eauto 8 with conv.
  - destruct (is_skippable step); cbn [negb]; [|cbv zeta; cbn [snd]; eauto 8 with conv].
    destruct (next_of (parameters c) _) as [[next|] args']; cbn [snd]; eauto 8 with conv.
  - eauto 8 with conv.
Qed.
Lemma and_reply d d' s m c : conv_steps d d' -> conv_steps d (reply_of s m c d').
Proof.
  intros H. unfold handle_reply. destruct (file_wanted _ _ m) as [accepting|].
  - destruct (download accepting m); cbv zeta; eauto with conv.
  - destruct (resolve_control _ _) as [control|]; [|eauto with conv].
    match goal with |- context [apply_conversation_control ?a ?b ?c ?d ?e ?f ?g ?h ?i ?j ?k ?l] =>
      pose proof (and_control _ _ d e f g h i j k H) as Hc end.
    destruct (apply_conversation_control _ _ _ _ _ _ _ _ _ _ _ _) as [[] d2]; cbn in Hc; eauto with conv.
Qed.
Lemma and_process d d' s at_ stale : conv_steps d d' -> conv_steps d (process at_ stale s d').
Proof.
  intros H. unfold process_state. destruct (fetch_next_telegram_message_for_state _ _ _ _) as [m|]; [|done].
  assert (conv_steps d (claim_telegram_conversation_state (state_id s) at_ stale d').1) as Hc
    by (eapply rtc_r; eauto with conv).
  unfold claim_telegram_conversation_state in *. destruct (existsb _ _); cbn in *; [|done].
  destruct (List.find _ commands) as [c|]; [by apply and_reply|eauto with conv].
Qed.
Lemma and_process_pending d d' at_ stale limit : conv_steps d d' -> conv_steps d (process_pending at_ stale limit d').
Proof.
  unfold process_pending_conversation_messages.
  generalize (fetch_waiting_telegram_conversation_states limit d'). intros l. revert d'.
  induction l as [|s l IH]; intros d' H; cbn; [done|]. by apply IH, and_process.
Qed.
Lemma and_first_question d d' c step args chat user reply_to source message : conv_steps d d' ->
  conv_steps d (first_question c step args chat user reply_to source message d').
Proof.
  intros H. unfold queue_missing_parameter_prompt, queue_step_prompt, record_inline_answers.
  assert (forall l key d1, conv_steps d d1 ->
      conv_steps d (fold_left (record_inline c args chat user key message) l d1)) as Hf.
  { induction l as [|p l IH]; intros key d1 H1; cbn; [done|]. apply IH. unfold record_inline.
    destruct (String.eqb _ "flag"); [done|]. destruct (negb _); [done|].
    destruct (String.eqb _ ""); eauto with conv. }
  eauto 8 with conv.
Qed.

(** What the bot does to the tables. *)
Inductive bot_step (d : Db) : Db -> Prop :=
| bot_hears m : bot_step d (mkDb (states d) (next_state d) (trail d) (messages d ++ [m]) (sent d) (deleted d))
| bot_asks c step args chat user reply_to source message :
    bot_step d (first_question c step args chat user reply_to source message d)
| bot_processes at_ stale limit : bot_step d (process_pending at_ stale limit d).
Lemma bot_step_steps d d' : bot_step d d' -> conv_steps d d'.
Proof.
  destruct 1; [apply rtc_once, step_message|by apply and_first_question|by apply and_process_pending].
Qed.
End operations.

(** ** One reply: what is left of the run *)
Definition open_states (s : State) (d : Db) : list State :=
  List.filter (fun s' => of_pair (chat_id s) (user_id s) s' && waiting s') (states d).
Definition live_steps (key : string) (d : Db) : list Trail := List.filter (live key) (trail d).
(** The row of the state that was answered. *)
Definition closed_row (s : State) (m : Message) (how : string) (d : Db) : Prop :=
  Forall (fun r => state_id r = state_id s -> status r = how /\ consumed r = Some (telegram_message_id m)) (states d)
  /\ Exists (fun r => state_id r = state_id s) (states d).

Lemma filter_none {A} (p : A -> bool) l : Forall (fun x => p x = false) l -> List.filter p l = [].
Proof. rewrite list.Forall_forall. apply filter_false. Qed.
Lemma upsert_opens s command text key after src sd d :
  exists w, open_states s (upsert_telegram_conversation_state (chat_id s) (user_id s) command text key after src sd d).1
            = [w] /\ wait_after w = after /\ source w = src /\ data w = sd /\ command_id w = command.
Proof.
  exists (mkState (next_state d) (chat_id s) (user_id s) command text key "waiting" after src sd None None "").
  split; [|done]. unfold open_states. cbn [fst states upsert_telegram_conversation_state]. rewrite filter_app_one.
  replace (of_pair (chat_id s) (user_id s) _ && waiting _) with true
    by (unfold of_pair; cbn; by rewrite !String.eqb_refl).
  rewrite filter_none; [done|]. apply list.Forall_fmap, list.Forall_forall. intros r _. cbn.
  destruct (of_pair (chat_id s) (user_id s) r && waiting r) eqn:E; [|done]. cbn. apply andb_false_r.
Qed.
Lemma start_is_live key chat user name position prompt_text is_secret_ state d :
  exists t, live_steps key (start_telegram_workflow_step key chat user name position prompt_text is_secret_ state d)
            = [t] /\ parameter_position t = position /\ prompt t = prompt_text.
Proof.
  eexists. split.
  - unfold live_steps, start_telegram_workflow_step. cbn [trail set_trail]. rewrite filter_app_one.
    match goal with |- context [if live key ?t then _ else _] => replace (live key t) with true
      by (unfold live; cbn; by rewrite String.eqb_refl) end.
    rewrite filter_none; [reflexivity|]. apply list.Forall_fmap, list.Forall_forall. intros t _. cbn.
    destruct (live key t) eqn:E; [|done]. unfold live. cbn. apply andb_false_r.
  - done.
Qed.
Lemma finish_leaves_none key st answer kind message d : st <> "active" ->
  live_steps key (finish_telegram_workflow_step key st answer kind message d) = [].
Proof.
  intros Hst. unfold live_steps. cbn. apply filter_none, list.Forall_fmap, list.Forall_forall. intros t _. cbn.
  destruct (live key t) eqn:E; [|done]. unfold live. cbn. rewrite (proj2 (String.eqb_neq _ _) Hst). apply andb_false_r.
Qed.

(** The row of [s] is in the table, and no other question of its user is open. *)
Definition its_row (s : State) (d : Db) : Prop :=
  Exists (fun r => state_id r = state_id s) (states d) /\ state_id s < next_state d
  /\ Forall (fun r => of_pair (chat_id s) (user_id s) r && waiting r = true -> state_id r = state_id s) (states d).
Lemma update_closes s m how sd note_text d : its_row s d ->
  closed_row s m how (update_telegram_conversation_state (state_id s) how sd (Some (telegram_message_id m)) note_text d).
Proof.
  intros (Hex & _ & _). split; cbn.
  - apply list.Forall_fmap, list.Forall_forall. intros r _. cbn. destruct (state_id r =? state_id s) eqn:E; cbn; [done|].
    apply Z.eqb_neq in E. done.
  - apply list.Exists_fmap. eapply list.Exists_impl; [exact Hex|]. intros r Hr. cbn. by rewrite Hr, Z.eqb_refl.
Qed.
Lemma update_leaves_none s how sd consumed_id note_text d : its_row s d -> how <> "waiting" ->
  open_states s (update_telegram_conversation_state (state_id s) how sd consumed_id note_text d) = [].
Proof.
  intros (_ & _ & Hone) Hhow. unfold open_states. cbn. apply filter_none, list.Forall_fmap.
  eapply list.Forall_impl; [exact Hone|]. intros r Hr. cbn in *. destruct (state_id r =? state_id s) eqn:E.
  - unfold waiting. cbn. rewrite (proj2 (String.eqb_neq _ _) Hhow). apply andb_false_r.
  - apply Z.eqb_neq in E. destruct (_ && _); [by destruct E; apply Hr|done].
Qed.
Lemma upsert_keeps_closed s m how chat user command text key after src sd d :
  closed_row s m how d -> how <> "waiting" -> state_id s <> next_state d ->
  closed_row s m how (upsert_telegram_conversation_state chat user command text key after src sd d).1.
Proof.
  intros [Hall Hex] Hhow Hid. split; cbn.
  - apply list.Forall_app. split; [|constructor; [cbn; congruence|constructor]].
    apply list.Forall_fmap. eapply list.Forall_impl; [exact Hall|]. intros r Hr. cbn.
    destruct (of_pair chat user r && waiting r) eqn:E; [|done]. cbn. intros Hi. destruct (Hr Hi) as [Hs _].
    apply andb_true_iff in E as [_ E%String.eqb_eq]. congruence.
  - apply list.Exists_app. left. apply list.Exists_fmap. eapply list.Exists_impl; [exact Hex|]. intros r Hr. cbn.
    by destruct (of_pair chat user r && waiting r).
Qed.

(** One question is open, and it waits for a later message. *)
Definition asked_next (s : State) (m : Message) (c : SupportCommand) (step : pydict) (args : list string)
    (history : list nat) (d : Db) : Prop :=
  exists w t text, open_states s d = [w] /\ wait_after w = message_id m /\ source w = source s
    /\ data w = asking step args history /\ command_id w = cmd_id c
    /\ live_steps (workflow_run_key (source w) (state_id w)) d = [t] /\ parameter_position t = position_of step
    /\ list.last (sent d) = Some (mkSent (chat_id s) "plain" text (message_id m)
                                    (Some (keyboard_for step (1 <? length history)%nat)))
    /\ closed_row s m "done" d.
(** No question is open, the run is closed. *)
Definition finished (s : State) (m : Message) (key : string) (d : Db) : Prop :=
  open_states s d = [] /\ live_steps key d = []
  /\ exists how, how ∈ ["done"; "error"; "cancelled"] /\ closed_row s m how d.
(** No question is open, but the trail of the run is as it was. *)
Definition given_up (s : State) (m : Message) (before d : Db) : Prop :=
  open_states s d = [] /\ closed_row s m "error" d /\ trail d = trail before.
(** A question that the run allows is open, or the run is closed as it allows. *)
Definition answered (asks : pydict -> list string -> list nat -> Prop) (ends : Db -> Prop)
    (s : State) (m : Message) (c : SupportCommand) (key : string) (d : Db) : Prop :=
  (exists step args history, asks step args history /\ asked_next s m c step args history d)
  \/ (finished s m key d /\ ends d).
(** What a reply means to its run: the same question again, the question of an earlier position,
    an answer for a slot, the end, or nothing that could be read. *)
Inductive Meaning : Type := Again | Return (position : nat) | Given (skipped : bool) (slot : nat) (value : string) | Stop | NotRead.
(** The answers of a run with one of them set. *)
Definition answers_with (before : list string) (slot : nat) (value : string) (args : list string) : Prop :=
  forall k, arg args k = if decide (k = slot) then value else arg before k.

Section replies.
Variable declared_parameters : string -> list string.
Variable _target_has_no_database : string -> bool.
Variable fullmatch : string -> string -> bool.
Variable render_prompt_text : pydict -> list pydict -> list string -> string.
Variable download : pydict -> Message -> result string string.
Variable execute_command_action : SupportCommand -> list string -> Message -> option string.
Variable render_reply_text : SupportCommand -> list string -> option string -> string.
Variable can_delete : bool.
Variable commands : list SupportCommand.

Abbreviation chain := (_chain_next_conversation_parameter render_prompt_text).
Abbreviation reply_of := (handle_reply declared_parameters _target_has_no_database fullmatch render_prompt_text
  download execute_command_action render_reply_text can_delete).
Abbreviation process := (process_state declared_parameters _target_has_no_database fullmatch render_prompt_text
  download execute_command_action render_reply_text can_delete commands).
Abbreviation next_of := (first_missing_prompt_parameter declared_parameters _target_has_no_database).

(** A run is keyed by the command message it started with. *)
Definition started_by_message (s : State) : Prop := exists n, source s = Some n /\ n <> 0.
Abbreviation key_of s := (workflow_run_key (source s) (state_id s)).

Definition meant (s : State) (m : Message) (c : SupportCommand) : Meaning :=
  let sd := data s in
  let awaited := _parameter_at_position c (d_position sd) in
  let step := default [] awaited in
  let value := strip (m_text m) in
  match file_wanted awaited value m with
  | Some accepting => match download accepting m with
                      | Ok content => Given false (d_position sd - 1) content
                      | Err _ => NotRead
                      end
  | None =>
      match resolve_control value step with
      | Some Cancel => Stop
      | Some Skip => if is_skippable step then Given true (slot_of step) (skip_value step) else Again
      | Some Back => match p ← list.last (removelast (d_history sd)); _ ← _parameter_at_position c p; Some p with
                     | Some p => Return p
                     | None => Again
                     end
      | None => match answer_rejection fullmatch step value with
                | Some _ => Again
                | None => Given false (d_position sd - 1) (normalise_answer step value)
                end
      end
  end.
(** The search for a question, done again when the last step was skipped. *)
Definition searched (skipped : bool) (c : SupportCommand) (given : list string) : option pydict * list string :=
  match next_of (parameters c) given with
  | (None, full) => if skipped then next_of (parameters c) full else (None, full)
  | found => found
  end.
(** The next question after a reply, the answers and the history it is asked with. *)
Definition question (s : State) (m : Message) (c : SupportCommand) (step : pydict) (args : list string)
    (history : list nat) : Prop :=
  let sd := data s in
  match meant s m c with
  | Again => step = default [] (_parameter_at_position c (d_position sd))
             /\ (forall k, arg args k = arg (d_args sd) k) /\ history = moved_to (position_of step) (d_history sd)
  | Return p => _parameter_at_position c p = Some step /\ answers_with (d_args sd) (p - 1) "" args
             /\ history = moved_to p (removelast (removelast (d_history sd)))
  | Given skipped slot value =>
      (exists given, answers_with (d_args sd) slot value given /\ searched skipped c given = (Some step, args))
      /\ history = moved_to (position_of step) (d_history sd)
  | Stop | NotRead => False
  end.
(** The command ran with these answers: how the run is closed, and what is said of it. *)
Definition executed (s : State) (m : Message) (c : SupportCommand) (args : list string) (d : Db) : Prop :=
  let failed := execute_command_action c args m in
  let text := render_reply_text c args failed in
  closed_row s m (match failed with Some _ => "error" | None => "done" end) d
  /\ (text <> "" -> list.last (sent d) = Some (mkSent (chat_id s) (match failed with Some _ => "failed" | None => "success" end)
                                               text (message_id m) (Some []))).
Definition conclusion (s : State) (m : Message) (c : SupportCommand) (d : Db) : Prop :=
  match meant s m c with
  | Given skipped slot value => exists given args, answers_with (d_args (data s)) slot value given
                                  /\ searched skipped c given = (None, args) /\ executed s m c args d
  | Stop => closed_row s m "cancelled" d
  | _ => False
  end.

Lemma arg_padded args position slot : arg (padded args position) slot = arg args slot.
Proof.
  unfold arg, padded. destruct (decide (slot < length args)%nat) as [Hlt|Hge]; [by rewrite lookup_app_l|].
  rewrite lookup_app_r, (lookup_ge_None_2 args slot) by lia.
  destruct (repeat "" _ !! _) as [x|] eqn:E; [|done]. cbn.
  by apply list_elem_of_lookup_2, list_elem_of_In, repeat_spec in E.
Qed.
Lemma chain_asks s m c args step sd d : its_row s d -> started_by_message s ->
  asked_next s m c step args (moved_to (position_of step) (d_history sd)) (chain s m c args step sd d).
Proof.
  intros Hrow (n & Hsrc & Hn). pose proof (proj2 (Z.eqb_neq n 0) Hn) as Hz.
  unfold _chain_next_conversation_parameter, queue_step_prompt. rewrite Hsrc. cbn [workflow_run_key]. rewrite Hz.
  set (history := moved_to _ _).
  match goal with |- asked_next _ _ _ _ _ _ (upsert_telegram_conversation_state _ _ ?command ?text ?key ?after ?src ?sd' ?d1).1 =>
    destruct (upsert_opens s command text key after src sd' d1) as (w & Hw & Ha & Hs & Hd & Hc) end.
  match goal with |- context [start_telegram_workflow_step ?k ?chat ?user ?name ?p ?text ?sec ?st ?d1] =>
    destruct (start_is_live k chat user name p text sec st d1) as (t & Ht & Hp & _) end.
  exists w, t. eexists. split_and!; try done.
  - by rewrite Hs, Hsrc.
  - rewrite Hs. cbn. by rewrite Hz.
  - cbn. by rewrite last_snoc.
  - apply upsert_keeps_closed; [by apply update_closes|done|destruct Hrow as (_ & ? & _); cbn; lia].
Qed.
Lemma chain_answered (Q : pydict -> list string -> list nat -> Prop) (F : Db -> Prop) s m c args step sd key d : its_row s d -> started_by_message s ->
  Q step args (moved_to (position_of step) (d_history sd)) -> answered Q F s m c key (chain s m c args step sd d).
Proof. intros. left. do 3 eexists. split; [done|]. by apply chain_asks. Qed.
Lemma execute_finishes s m c args sd key d : its_row s d -> live_steps key d = [] ->
  let d' := execute execute_command_action render_reply_text s m c args sd d in
  finished s m key d' /\ executed s m c args d'.
Proof.
  intros Hrow Hlive. cbv zeta. unfold execute, executed. set (failed := execute_command_action c args m).
  set (text := render_reply_text c args failed). set (d1 := if String.eqb _ "" then d else _).
  assert (Hrow1 : its_row s d1) by (unfold d1; by destruct (String.eqb _ "")).
  assert (Hlive1 : live_steps key d1 = []) by (unfold d1; by destruct (String.eqb _ "")).
  split; [split|split].
  - apply update_leaves_none; [done|by destruct failed].
  - split; [done|]. eexists. split; [|by apply update_closes]. destruct failed; set_solver.
  - by apply update_closes.
  - intros Ht%String.eqb_neq. cbn. unfold d1. rewrite Ht. cbn. apply last_snoc.
Qed.
Lemma go_on_answers (Q : pydict -> list string -> list nat -> Prop) (F : Db -> Prop) s m c args sd key d :
  its_row s d -> started_by_message s -> live_steps key d = [] ->
  (forall step args', next_of (parameters c) args = (Some step, args') -> Q step args' (moved_to (position_of step) (d_history sd))) ->
  (forall args' d', next_of (parameters c) args = (None, args') -> executed s m c args' d' -> F d') ->
  answered Q F s m c key (go_on declared_parameters _target_has_no_database render_prompt_text execute_command_action
                        render_reply_text s m c args sd d).
Proof.
  intros Hrow Hsrc Hlive HQ HF. unfold go_on. destruct (next_of (parameters c) args) as [[next|] args'].
  - apply chain_answered; [done..|by apply HQ].
  - right. destruct (execute_finishes s m c args' sd key d Hrow Hlive) as [H1 H2]. split; [done|by eapply HF].
Qed.
(** An answer, or the same question again. *)
Definition taken (fate : option string) (s : State) (step : pydict) (stored : string) (Q : pydict -> list string -> list nat -> Prop)
    (F : Db -> Prop) (m : Message) (c : SupportCommand) (args : list string) : Prop :=
  match fate with
  | Some _ => Q step args (moved_to (position_of step) (d_history (data s)))
  | None =>
      (forall next args', next_of (parameters c) (set_arg args (d_position (data s) - 1) stored) = (Some next, args') ->
         Q next args' (moved_to (position_of next) (d_history (data s))))
      /\ (forall args' d', next_of (parameters c) (set_arg args (d_position (data s) - 1) stored) = (None, args') ->
         executed s m c args' d' -> F d')
  end.
Lemma take_answer_answers Q F s m c step value (from_file : bool) args key d : its_row s d -> started_by_message s ->
  taken (if from_file then None else answer_rejection fullmatch step value) s step
    (if from_file then value else normalise_answer step value) Q F m c args ->
  answered Q F s m c key (take_answer declared_parameters _target_has_no_database fullmatch render_prompt_text
                        execute_command_action render_reply_text can_delete s m c step value from_file args key d).
Proof.
  intros Hrow Hsrc Htaken. unfold take_answer. set (d1 := if negb from_file && is_secret step then _ else d).
  assert (Hrow1 : its_row s d1).
  { unfold d1. destruct (negb from_file && is_secret step); [|done]. unfold forget_secret_answer.
    by destruct can_delete. }
  unfold taken in Htaken. destruct (if from_file then None else answer_rejection fullmatch step value) as [rejection|].
  - by apply chain_answered.
  - destruct Htaken. apply go_on_answers; [done|done|by apply finish_leaves_none|by destruct from_file..].
Qed.
Lemma padded_answers args position slot value : answers_with args slot value (set_arg (padded args position) slot value).
Proof. intros k. rewrite arg_set. case_decide; [done|apply arg_padded]. Qed.
Lemma given_taken s m c step stored : meant s m c = Given false (d_position (data s) - 1) stored ->
  taken None s step stored (question s m c) (conclusion s m c) m c (padded (d_args (data s)) (d_position (data s))).
Proof.
  intros Hm. split; unfold question, conclusion; rewrite Hm.
  - intros next args' Hn. split; [|done]. eexists. split; [apply padded_answers|]. unfold searched. by rewrite Hn.
  - intros args' d' Hn He. eexists _, _. split; [apply padded_answers|]. unfold searched. by rewrite Hn.
Qed.
Lemma asked_again s m c sd step : meant s m c = Again -> d_history sd = d_history (data s) ->
  step = default [] (_parameter_at_position c (d_position (data s))) ->
  question s m c step (padded (d_args (data s)) (d_position (data s))) (moved_to (position_of step) (d_history sd)).
Proof. intros Hm Hh ->. unfold question. rewrite Hm, Hh. split; [done|]. split; [|done]. intros k. apply arg_padded. Qed.
(** The file of the answer could not be read. *)
Definition unreadable (s : State) (m : Message) (c : SupportCommand) : Prop :=
  exists step why, file_wanted (_parameter_at_position c (d_position (data s))) (strip (m_text m)) m = Some step
    /\ download step m = Err why.
(** A control answers the reply, or leaves a run whose last step was skipped. *)
Lemma control_answers s m c control key d : its_row s d -> started_by_message s ->
  let step := default [] (_parameter_at_position c (d_position (data s))) in
  file_wanted (_parameter_at_position c (d_position (data s))) (strip (m_text m)) m = None ->
  resolve_control (strip (m_text m)) step = Some control ->
  match apply_conversation_control declared_parameters _target_has_no_database render_prompt_text
          s m c (padded (d_args (data s)) (d_position (data s))) (data s) step control key d with
  | (SkippedLastStep args, d') => its_row s d' /\ live_steps key d' = []
      /\ exists (slot : nat) (value : string) (given : list string), meant s m c = Given true slot value /\ answers_with (d_args (data s)) slot value given
           /\ next_of (parameters c) given = (None, args)
  | (_, d') => answered (question s m c) (conclusion s m c) s m c key d'
  end.
Proof.
  intros Hrow Hsrc step Hf Hc. unfold apply_conversation_control.
  assert (Hmeant : meant s m c = match control with
    | Cancel => Stop
    | Skip => if is_skippable step then Given true (slot_of step) (skip_value step) else Again
    | Back => match p ← list.last (removelast (d_history (data s))); _ ← _parameter_at_position c p; Some p with
              | Some p => Return p | None => Again end
    end) by (unfold meant; cbv zeta; fold step; by rewrite Hf, Hc; destruct control).
  destruct control.
  - destruct (list.last _) as [target|]; [|by apply chain_answered; [..|apply asked_again]]. cbn in Hmeant.
    destruct (_parameter_at_position c target) as [target_step|] eqn:Ht; [|by apply chain_answered; [..|apply asked_again]].
    apply chain_answered; [done..|]. unfold question. rewrite Hmeant. split; [done|]. split; [apply padded_answers|].
    apply find_some in Ht as [_ E%Nat.eqb_eq]. by rewrite E.
  - destruct (is_skippable step); cbn [negb]; [|by apply chain_answered; [..|apply asked_again]].
    destruct (next_of (parameters c) _) as [[next|] args'] eqn:Hn.
    + apply chain_answered; [done..|]. unfold question. rewrite Hmeant. split; [|done].
      eexists. split; [apply padded_answers|]. unfold searched. by rewrite Hn.
    + split; [done|]. split; [by apply finish_leaves_none|]. do 3 eexists. split; [done|]. split; [apply padded_answers|done].
  - right. split.
    + split; [by apply update_leaves_none|]. split; [by apply finish_leaves_none|].
      exists "cancelled". split; [set_solver|]. by apply (update_closes s m "cancelled" (data s) _ _).
    + unfold conclusion. rewrite Hmeant. by apply (update_closes s m "cancelled" (data s) _ _).
Qed.
Lemma reply_answers s m c d : its_row s d -> started_by_message s ->
  answered (question s m c) (conclusion s m c) s m c (key_of s) (reply_of s m c d)
  \/ given_up s m d (reply_of s m c d) /\ unreadable s m c.
Proof.
  intros Hrow Hsrc. unfold handle_reply. cbv zeta.
  destruct (file_wanted (_parameter_at_position c _) (strip (m_text m)) m) as [accepting|] eqn:Hf.
  - destruct (download accepting m) as [content|why] eqn:Hdl.
    + left. apply take_answer_answers; [done..|]. apply given_taken. unfold meant. cbv zeta. by rewrite Hf, Hdl.
    + right. split; [|by exists accepting, why]. split; [by apply update_leaves_none|].
      split; [by apply update_closes|done].
  - left. destruct (resolve_control _ _) as [control|] eqn:Hc.
    + pose proof (control_answers s m c control (key_of s) d Hrow Hsrc Hf Hc) as Ha.
      destruct (apply_conversation_control _ _ _ _ _ _ _ _ _ _ _ _) as [[] d2]; try done.
      destruct Ha as (Hrow2 & Hlive & slot & value & given & Hm & Hg & Hn). apply go_on_answers; try done;
        unfold question, conclusion; rewrite Hm.
      * intros step args' Hn'. split; [|done]. exists given. split; [done|]. unfold searched. by rewrite Hn.
      * intros args' d' Hn' He. exists given, args'. split; [done|]. split; [|done]. unfold searched. by rewrite Hn.
    + apply take_answer_answers; [done..|].
      destruct (answer_rejection fullmatch _ _) as [why|] eqn:Hr; [apply asked_again; [|done..]|apply given_taken];
        unfold meant; cbv zeta; by rewrite Hf, Hc, Hr.
Qed.
Lemma claim_keeps_row s id at_ stale d : its_row s d -> its_row s (claim_telegram_conversation_state id at_ stale d).1.
Proof.
  intros (Hex & Hlt & Hone). split; [|split; [done|]]; cbn.
  - apply list.Exists_fmap. eapply list.Exists_impl; [exact Hex|]. intros r Hr. cbn. by destruct (may_claim id stale r).
  - apply list.Forall_fmap. eapply list.Forall_impl; [exact Hone|]. intros r Hr. cbn.
    by destruct (may_claim id stale r).
Qed.
Lemma waiting_row s d : conv_ok d -> s ∈ states d -> waiting s = true -> its_row s d.
Proof.
  intros [Hw [Hi Hlt] _ _] Hs Hws. split; [|split].
  - apply list.Exists_exists. by exists s.
  - rewrite list.Forall_forall in Hlt. by apply Hlt.
  - apply list.Forall_forall. intros r Hr [Hp Hwr]%andb_true_iff. f_equal.
    unfold waiting_pairs in Hw. unfold of_pair in Hp. apply andb_true_iff in Hp as [E1%String.eqb_eq E2%String.eqb_eq].
    assert (Hin : r ∈ List.filter waiting (states d) /\ s ∈ List.filter waiting (states d))
      by (split; by apply elem_of_filter_bool).
    destruct Hin as [[i Hri]%list_elem_of_lookup [j Hsj]%list_elem_of_lookup].
    assert (i = j) as ->; [|congruence].
    change (map pair_of (List.filter waiting (states d))) with (pair_of <$> List.filter waiting (states d)) in Hw.
    apply (NoDup_lookup (pair_of <$> List.filter waiting (states d)) i j (pair_of s) Hw);
      rewrite list_lookup_fmap; [rewrite Hri|rewrite Hsj]; [|done]. cbn. unfold pair_of. congruence.
Qed.

(** C17: A reply that is claimed either leaves one open question of its user, which waits for a
    later message, has one live step of the trail and its keyboard as the last message sent, and
    is stored with the history and answers the reply leaves: all of the run's when the question
    is asked again, the step gone back to emptied, or the answer in its slot and the next
    question found from all of them; or closes the run with no question and no live step,
    cancelled or with the command run on those answers; or, only when the attached file cannot
    be read or the command is gone, closes it as an error with the trail left as it was. *)
Theorem a_reply_ends_the_run_or_asks_one_question claim_at stale_before s m d :
  conv_ok d -> s ∈ states d -> may_claim (state_id s) stale_before s = true -> started_by_message s ->
  fetch_next_telegram_message_for_state (chat_id s) (user_id s) (wait_after s) d = Some m ->
  let d' := process claim_at stale_before s d in
  match List.find (fun c => cmd_id c =? command_id s) commands with
  | Some c => (exists step args history, question s m c step args history /\ asked_next s m c step args history d')
              \/ (finished s m (workflow_run_key (source s) (state_id s)) d' /\ conclusion s m c d')
              \/ given_up s m d d' /\ unreadable s m c
  | None => given_up s m d d'
  end.
Proof.
  intros Hok Hs Hclaim Hsrc Hm. cbv zeta. unfold process_state. rewrite Hm.
  assert (Hws : waiting s = true).
  { unfold may_claim in Hclaim. rewrite !andb_true_iff in Hclaim. naive_solver. }
  pose proof (claim_keeps_row s (state_id s) claim_at stale_before d (waiting_row s d Hok Hs Hws)) as Hrow.
  assert (Hmine : (claim_telegram_conversation_state (state_id s) claim_at stale_before d).2 = true)
    by (apply existsb_exists; exists s; by rewrite <-list_elem_of_In).
  assert (Htrail : trail (claim_telegram_conversation_state (state_id s) claim_at stale_before d).1 = trail d) by done.
  destruct (claim_telegram_conversation_state (state_id s) claim_at stale_before d) as [d1 mine].
  cbn in Hrow, Hmine, Htrail. subst mine. cbn [negb]. destruct (List.find _ commands) as [c|].
  - destruct (reply_answers s m c d1 Hrow Hsrc) as [[H|H]|[(H1 & H2 & H3) H]]; [by left|by right; left|].
    right; right. split; [|done]. split; [done|]. split; [done|]. by rewrite H3.
  - split; [by apply update_leaves_none|]. split; [by apply update_closes|done].
Qed.

(** The step before, as it was asked, with nothing in it. *)
Lemma back_goes_back s m c d h p q target : its_row s d -> started_by_message s ->
  file_wanted (_parameter_at_position c (d_position (data s))) (strip (m_text m)) m = None ->
  resolve_control (strip (m_text m)) (default [] (_parameter_at_position c (d_position (data s)))) = Some Back ->
  d_history (data s) = h ++ [p; q] -> p ∉ h -> _parameter_at_position c p = Some target ->
  let args := set_arg (padded (d_args (data s)) (d_position (data s))) (p - 1) "" in
  asked_next s m c target args (h ++ [p]) (reply_of s m c d).
Proof.
  intros Hrow Hsrc Hf Hback Hh Hp Ht. cbv zeta. unfold handle_reply. cbv zeta. rewrite Hf, Hback.
  unfold apply_conversation_control. rewrite Hh.
  assert (H1 : removelast (h ++ [p; q]) = h ++ [p]).
  { change [p; q] with ([p] ++ [q]). by rewrite app_assoc, removelast_last. }
  rewrite H1, last_snoc, Ht, removelast_last.
  assert (Hpos : position_of target = p) by (apply find_some in Ht as [_ E]; by apply Nat.eqb_eq in E).
  replace (h ++ [p]) with (moved_to (position_of target) h).
  - by apply (chain_asks s m c _ target (with_history h (data s))).
  - unfold moved_to. rewrite Hpos. f_equal. rewrite <-(app_nil_r h) at 2. clear -Hp.
    induction h as [|x h IH]; [done|]. apply not_elem_of_cons in Hp as [Hx Hp]. cbn.
    rewrite (proj2 (Nat.eqb_neq x p)) by done. cbn. f_equal. rewrite app_nil_r in *. by apply IH.
Qed.
(** Back asks the previous question of the history again, with its answer blank, every
    other answer as it was and the history without the step that was left. *)
Lemma back_returns_to_the_question_before s m c d h p q target : conv_ok d -> s ∈ states d ->
  waiting s = true -> started_by_message s ->
  file_wanted (_parameter_at_position c (d_position (data s))) (strip (m_text m)) m = None ->
  resolve_control (strip (m_text m)) (default [] (_parameter_at_position c (d_position (data s)))) = Some Back ->
  d_history (data s) = h ++ [p; q] -> NoDup (h ++ [p; q]) -> _parameter_at_position c p = Some target ->
  exists args, asked_next s m c target args (h ++ [p]) (reply_of s m c d) /\ answer args target = ""
    /\ forall slot, slot <> slot_of target -> arg args slot = arg (d_args (data s)) slot.
Proof.
  intros Hok Hs Hws Hsrc Hf Hback Hh Hnd Ht.
  assert (Hp : p ∉ h).
  { apply list.NoDup_app in Hnd as (_ & Hnd & _). intros Hin. by apply (Hnd p Hin); left. }
  assert (Hpos : position_of target = p) by (apply find_some in Ht as [_ E]; by apply Nat.eqb_eq in E).
  eexists. split; [by apply (back_goes_back s m c d h p q target (waiting_row s d Hok Hs Hws))|].
  unfold answer, slot_of. rewrite Hpos. split.
  - by rewrite arg_set, decide_True.
  - intros slot Hslot. rewrite arg_set, decide_False by done. by rewrite arg_padded.
Qed.
End replies.

(** ** At every moment *)
Lemma one_of_key {A B} (f : A -> B) (p q : A -> bool) k l : NoDup (map f (List.filter q l)) ->
  (forall x, p x = true -> q x = true /\ f x = k) -> (length (List.filter p l) <= 1)%nat.
Proof.
  intros Hnd Hp. induction l as [|x l IH]; cbn in *; [lia|].
  destruct (p x) eqn:E.
  - destruct (Hp x E) as [Hq Hk]. rewrite Hq in Hnd. cbn in Hnd. apply list.NoDup_cons in Hnd as [Hx _].
    assert (List.filter p l = []) as ->; [|cbn; lia]. apply filter_none, list.Forall_forall. intros y Hy.
    destruct (p y) eqn:Ey; [|done]. destruct (Hp y Ey) as [Hqy Hky]. destruct Hx.
    apply list_elem_of_fmap. exists y. split; [congruence|]. by apply elem_of_filter_bool.
  - apply IH. destruct (q x); [by apply list.NoDup_cons in Hnd as [_ ?]|done].
Qed.
Definition no_rows : Db := mkDb [] 1 [] [] [] [].
Lemma no_rows_ok : conv_ok no_rows.
Proof. repeat split; cbn; constructor. Qed.

(** C30: From an empty store, whatever messages arrive, whatever commands ask and however often
    replies are processed: one user of a chat has at most one waiting state, a run has at most
    one live step, and state ids and step numbers of a run are never given twice. *)
Theorem the_bot_waits_for_one_answer declared_parameters _target_has_no_database fullmatch render_prompt_text
    download execute_command_action render_reply_text can_delete commands d :
  rtc (bot_step declared_parameters _target_has_no_database fullmatch render_prompt_text download
         execute_command_action render_reply_text can_delete commands) no_rows d ->
  (forall chat user, (length (List.filter (fun s => of_pair chat user s && waiting s) (states d)) <= 1)%nat)
  /\ (forall key, (length (live_steps key d) <= 1)%nat)
  /\ NoDup (map state_id (states d)) /\ NoDup (map (fun t => (run_key t, step_no t)) (trail d)).
Proof.
  intros Hr. assert (conv_steps no_rows d) as Hsteps.
  { induction Hr as [d|d1 d2 d3 H _ IH]; [apply rtc_refl|]. etrans; [by eapply bot_step_steps|done]. }
  destruct (conv_steps_ok _ _ Hsteps no_rows_ok) as [Hw [Hi _] Hl Hn]. split; [|split; [|done]].
  - intros chat user. eapply (one_of_key pair_of _ waiting (chat, user)); [exact Hw|].
    intros s [[E1%String.eqb_eq E2%String.eqb_eq]%andb_true_iff Hs]%andb_true_iff. split; [done|].
    unfold pair_of. congruence.
  - intros key. eapply (one_of_key run_key _ active key); [exact Hl|].
    intros t [E%String.eqb_eq Ha]%andb_true_iff. done.
Qed.

(** ** A run of the bot *)
Definition deploy : SupportCommand := mkCommand 7 "/SPBot deploy" deploy_steps.
Definition says (id : Z) (word : string) : Message := mkMessage id id "chat" "user" word None.
Definition hear (m : Message) (d : Db) : Db :=
  mkDb (states d) (next_state d) (trail d) (messages d ++ [m]) (sent d) (deleted d).
Definition demo_prompt (step : pydict) (_ : list pydict) (_ : list string) : string := name_of step +:+ "?".
Definition demo_reply (_ : SupportCommand) (args : list string) (_ : option string) : string := join " " args.
Abbreviation demo_step := (bot_step (fun _ => []) (fun _ => false) (fun _ _ => true) demo_prompt
  (fun _ _ => Err "gone") (fun _ _ _ => None) demo_reply true [deploy]).
Abbreviation demo_process := (process_pending_conversation_messages (fun _ => []) (fun _ => false) (fun _ _ => true)
  demo_prompt (fun _ _ => Err "gone") (fun _ _ _ => None) demo_reply true [deploy] "12:00" "11:50" 20).
Definition demo_asked : Db :=
  queue_missing_parameter_prompt demo_prompt deploy (default [] (head deploy_steps)) [] "chat" "user" 1 5 5 no_rows.
Definition demo_second : Db := demo_process (hear (says 2 "remote") demo_asked).
Definition demo_back : Db := hear (says 3 "/back") demo_second.
Lemma demo_reached : rtc demo_step no_rows demo_back.
Proof.
  eapply rtc_l; [apply bot_asks|]. eapply rtc_l; [apply (bot_hears _ _ _ _ _ _ _ _ _ _ (says 2 "remote"))|].
  eapply rtc_l; [apply (bot_processes _ _ _ _ _ _ _ _ _ _ "12:00" "11:50" 20)|].
  apply rtc_once, (bot_hears _ _ _ _ _ _ _ _ _ _ (says 3 "/back")).
Qed.
Lemma demo_back_ok : conv_ok demo_back.
Proof.
  refine (conv_steps_ok no_rows demo_back _ no_rows_ok). pose proof demo_reached as Hr. revert Hr.
  generalize no_rows, demo_back. induction 1 as [|d1 d2 d3 H _ IH]; [apply rtc_refl|].
  etrans; [by eapply bot_step_steps|done].
Qed.
(** The state the second question left. *)
Definition demo_state : State :=
  default (mkState 0 "" "" 0 "" "" "" 0 None (mkData [] "" 0 [] [] None) None None "")
    (list.last (states demo_back)).

Theorem once_witness :
  (forall chat user, (length (List.filter (fun s => of_pair chat user s && waiting s) (states demo_back)) <= 1)%nat)
  /\ (forall key, (length (live_steps key demo_back) <= 1)%nat)
  /\ NoDup (map state_id (states demo_back)) /\ NoDup (map (fun t => (run_key t, step_no t)) (trail demo_back)).
Proof.
  apply (the_bot_waits_for_one_answer (fun _ => []) (fun _ => false) (fun _ _ => true) demo_prompt
    (fun _ _ => Err "gone") (fun _ _ _ => None) demo_reply true [deploy]). apply demo_reached.
Defined.
Lemma demo_state_in : demo_state ∈ states demo_back.
Proof. apply (list_elem_of_lookup_2 _ 1). vm_compute. reflexivity. Qed.
Lemma demo_state_started : started_by_message demo_state.
Proof. exists 5. split; [vm_compute; reflexivity|done]. Qed.

Theorem answered_witness :
  meant (fun _ _ => true) (fun _ _ => Err "gone") demo_state (says 3 "/back") deploy = Return 1
  /\ exists step args history,
    question (fun _ => []) (fun _ => false) (fun _ _ => true) (fun _ _ => Err "gone") demo_state (says 3 "/back") deploy
      step args history
    /\ asked_next demo_state (says 3 "/back") deploy step args history
         (process_state (fun _ => []) (fun _ => false) (fun _ _ => true) demo_prompt (fun _ _ => Err "gone")
            (fun _ _ _ => None) demo_reply true [deploy] "12:00" "11:50" demo_state demo_back).
Proof.
  assert (Hm : meant (fun _ _ => true) (fun _ _ => Err "gone") demo_state (says 3 "/back") deploy = Return 1)
    by (vm_compute; reflexivity).
  split; [exact Hm|].
  assert (Hc : may_claim (state_id demo_state) "11:50" demo_state = true) by (vm_compute; reflexivity).
  assert (Hf : fetch_next_telegram_message_for_state (chat_id demo_state) (user_id demo_state) (wait_after demo_state) demo_back
               = Some (says 3 "/back")) by (vm_compute; reflexivity).
  destruct (a_reply_ends_the_run_or_asks_one_question (fun _ => []) (fun _ => false) (fun _ _ => true) demo_prompt
    (fun _ _ => Err "gone") (fun _ _ _ => None) demo_reply true [deploy] "12:00" "11:50" demo_state
    (says 3 "/back") demo_back demo_back_ok demo_state_in Hc demo_state_started Hf) as [H|[[_ H]|[_ H]]]; [exact H| |].
  - unfold conclusion in H. rewrite Hm in H. destruct H.
  - destruct H as (step & why & H & _). revert H. unfold file_wanted. destruct (_parameter_at_position _ _); [|discriminate].
    rewrite bool_decide_false by (intros [x Hx]; discriminate Hx). rewrite andb_false_r. discriminate.
Defined.
Theorem back_witness :
  match head deploy_steps with
  | Some target => exists args, asked_next demo_state (says 3 "/back") deploy target args [1%nat]
      (handle_reply (fun _ => []) (fun _ => false) (fun _ _ => true) demo_prompt (fun _ _ => Err "gone")
         (fun _ _ _ => None) demo_reply true demo_state (says 3 "/back") deploy demo_back)
      /\ answer args target = "" /\ forall slot, slot <> slot_of target -> arg args slot = arg (d_args (data demo_state)) slot
  | None => False
  end.
Proof.
  apply (back_returns_to_the_question_before (fun _ => []) (fun _ => false) (fun _ _ => true) demo_prompt
    (fun _ _ => Err "gone") (fun _ _ _ => None) demo_reply true demo_state (says 3 "/back") deploy demo_back [] 1 2);
    try (vm_compute; reflexivity); [exact demo_back_ok|exact demo_state_in|exact demo_state_started|].
  apply (bool_decide_unpack _). vm_compute. exact I.
Defined.
