(* ===== verification/BackupSchedule.v ===== *)
(** * Scheduling the backups ([backup_restore/schedule.py]; [run_backup] and
    [stop_backup_run] of [backup_restore/backup.py]), over the run rows of [Store].

    A pass of [run_backup] is not alone on the store: before each of its calls the store may
    change ([others]), and time goes on ([clock]).  What a backup, its catalogue, its scrub and
    its checks answered is an argument ([Outcome]), and so are the texts of messages.  Events
    and log lines are left out. *)

From S2P Require Import Prelude Py PyTime TimeWindow RunClaim Store.

Definition BACKUP_JOB_PREFIX : string := "backup_restore.backup_job".
Definition RESTORE_JOB_PREFIX : string := "backup_restore.restore_job".
Definition OFFLOAD_JOB_PREFIX : string := "backup_restore.offload_job".
Definition DEFAULT_REPEAT_SECONDS : Z := 300.
Definition backup_job_code (backup_id job : string) : string :=
  BACKUP_JOB_PREFIX +:+ "." +:+ backup_id +:+ "." +:+ job.
Definition restore_job_code (restore_id : string) : string := RESTORE_JOB_PREFIX +:+ "." +:+ restore_id.
Definition offload_job_code (backup_id : string) : string := OFFLOAD_JOB_PREFIX +:+ "." +:+ backup_id.

(** ** The rules *)
Definition due_defaults (w : TimeWindow) : DueDefaults :=
  {| dd_retry := tw_repeat_interval w; dd_timeout := None; dd_repeat := Some DEFAULT_REPEAT_SECONDS;
     dd_running_blocks := true |}.
Definition is_due (code : string) (w : TimeWindow) (latest_runs : string -> option JobRow) (now : Z)
    (local_now : wall) : bool :=
  is_time_window_open (Some w) local_now
  && dv_due (due_from_row (Some w) (row_dict <$> latest_runs code) now None (due_defaults w)).
Definition job_run_started_since (code since : string) (d : Db) : bool :=
  existsb (fun r => String.eqb (jr_job_code r) code
                    && match jr_started_at r with Some t => negb (str_lt t since) | None => false end) (db_runs d).
Definition taken_since (code since : string) (d : Db) : bool := job_run_started_since code since d.
Definition is_running_job (code : string) (latest_runs : string -> option JobRow) : bool :=
  match latest_runs code with
  | Some r => String.eqb (lower (strip (jr_status r))) "running"
  | None => false
  end.

(** [job_code LIKE prefix%]: an underscore stands for any character, case does not matter. *)
Fixpoint like_prefix (p l : list ascii) : bool :=
  match p, l with
  | [], _ => true
  | a :: p, b :: l => (bool_decide (a = "_"%char) || bool_decide (to_lower a = to_lower b)) && like_prefix p l
  | _, [] => false
  end.
Definition running_with_prefix (prefix : string) (d : Db) : list JobRow :=
  List.filter (fun r => like_prefix (chars prefix) (chars (jr_job_code r))) (fetch_running_job_runs d).

(** ** Starting and finishing a run *)
Definition start_item (p : Process) (code message started_at : string) (metadata : pydict) : JobRun :=
  {| it_job_code := code; it_level := "logging"; it_status := "RUNNING"; it_message := message;
     it_started_at := Some started_at; it_finished_at := None; it_duration_ms := None; it_error_text := None;
     it_host_name := ps_host p; it_claim_key := Some code; it_metadata := metadata |}.
Definition start_run (p : Process) (code message : string) (metadata : pydict) (now : Z) (d : Db)
    : result store_error (Db * Z) :=
  insert_job_run p now (start_item p code message (iso_text now) metadata) d.
Definition finish_run (log_id : Z) (status message : string) (duration_ms : option Z) (error_text : option string)
    (metadata : pydict) (now : Z) (d : Db) : result store_error (Db * bool) :=
  update_job_run log_id
    {| up_finished_at := Some (iso_text now); up_level := if String.eqb status "done" then "logging" else "error";
       up_status := upper status; up_message := message; up_duration_ms := duration_ms;
       up_error_text := error_text; up_metadata := metadata |} false d.

(** ** Reaping *)
Section reaper.
(** The process that looks, and what it reads of the pids of its host. *)
Variable me : Process.
Variable is_pid_alive : Z -> bool.

(** What is asked about a row once its age is known. *)
Definition question (row : JobRow) (limit elapsed : Z) : result pyexn ReapQuestion :=
  let host := row_host (Some (row_dict row)) in
  '(pid, owner_host) ← claim_owner (Some (jr_metadata row)) host;
  Ok {| rq_metadata := Some (jr_metadata row); rq_this_host := ps_host me; rq_elapsed := seconds elapsed;
        rq_timeout := limit;
        rq_pid_alive := match pid with
                        | Some n => if String.eqb owner_host (ps_host me) then Some (is_pid_alive n) else None
                        | None => None
                        end;
        rq_foreign_grace := FOREIGN_HOST_GRACE_SECONDS; rq_this_node := ps_node me; rq_host_fallback := host |}.
(** The elapsed seconds and the sentence, for a row that may be closed. *)
Definition verdict_of (timeouts : string -> option Z) (now : Z) (row : JobRow) : result pyexn (option (Z * Z * string)) :=
  match timeouts (jr_job_code row) with
  | None | Some 0 => Ok None
  | Some limit =>
      match run_anchor (Some (row_dict row)) with
      | None => Ok None
      | Some started =>
          let elapsed := whole_seconds (now - started) in
          q ← question row limit elapsed;
          v ← reap_verdict q false;
          Ok (if rv_reap v then Some (elapsed, limit, rv_reason v) else None)
      end
  end.
Definition timeout_update (row : JobRow) (elapsed limit : Z) (message : string) (now : Z) : RunUpdate :=
  {| up_finished_at := Some (iso_text now); up_level := "error"; up_status := "TIMEOUT"; up_message := message;
     up_duration_ms := Some (elapsed * 1000); up_error_text := Some message;
     up_metadata := update_dict (jr_metadata row)
       [("timeout_seconds", PInt limit); ("elapsed_seconds", PInt elapsed); ("reaped_by", PStr (ps_host me))] |}.
End reaper.

(** [f"{key}={value}"] of the id a job code embeds. *)
Definition suffix_of (prefix code : string) : string := text (drop (S (str_len prefix)) (chars code)).
(** [s.rsplit(".", 1)[0]]. *)
Definition before_last_dot (s : string) : string :=
  match removelast (split "." s) with [] => s | parts => join "." parts end.
Definition _run_label (code : string) : string :=
  if startswith code OFFLOAD_JOB_PREFIX then "backup_id=" +:+ suffix_of OFFLOAD_JOB_PREFIX code
  else if startswith code BACKUP_JOB_PREFIX then "backup_id=" +:+ before_last_dot (suffix_of BACKUP_JOB_PREFIX code)
  else "restore_id=" +:+ suffix_of RESTORE_JOB_PREFIX code.
Definition timeout_message (code reason : string) (elapsed limit : Z) : string :=
  _run_label code +:+ " timed out: " +:+ reason +:+ ", after " +:+ str_of_int elapsed +:+ "s (timeout="
  +:+ str_of_int limit +:+ "s). The run died without reporting — process killed, container restarted, or host rebooted.".

(** ** A pass *)
Inductive pass_error : Type :=
| StoreFailed (e : store_error)
| PythonFailed (e : pyexn)
| NoBackupEntry (backup_id : string)
| NoBackupJob (job : string).
Record ScheduledJob := mkJob {
  sj_backup_id : string; sj_job : string; sj_server_id : string; sj_window : TimeWindow; sj_active : bool;
  sj_scrub_files : bool }.
Definition job_code (j : ScheduledJob) : string := backup_job_code (sj_backup_id j) (sj_job j).
Definition label (j : ScheduledJob) : string := sj_backup_id j +:+ "/" +:+ sj_job j.

(** What one rolling scrub found. *)
Record Scrub := mkScrub { sc_changed : nat; sc_gone : nat; sc_unreadable : nat }.
(** What running a job and looking after it answered. *)
Record Outcome := mkOutcome {
  oc_status : string; oc_exit_code : option Z; oc_duration_ms : option Z; oc_error_text : option string;
  oc_unverified : result string (list string);     (* of the catalogue, or why it was not written *)
  oc_scrub : Scrub; oc_markers : list string; oc_anomalies : list string;
  oc_message : string; oc_metadata : pydict }.

Definition joined_error (o : Outcome) (why : string) : string :=
  join " " (List.filter (fun s => negb (String.eqb s ""))
              [default "" (oc_error_text o); "the backup catalog could not be written: " +:+ why]).
(** The status of the run once the catalogue was asked, and its error. *)
Definition recorded (o : Outcome) : string * option string :=
  let done := String.eqb (oc_status o) "done" in
  match oc_unverified o with
  | Ok unverified =>
      if done && negb (bool_decide (unverified = [])) then
        ("error", Some ("written but not verified: " +:+ join ", " (take 10 unverified)))
      else (oc_status o, oc_error_text o)
  | Err why => (if done then "error" else oc_status o, Some (joined_error o why))
  end.
Definition scrubbed (j : ScheduledJob) (o : Outcome) : option Scrub :=
  if String.eqb (recorded o).1 "done" && sj_scrub_files j then Some (oc_scrub o) else None.
Definition markers (o : Outcome) : list string :=
  if String.eqb (recorded o).1 "done" then oc_markers o else [].
Definition raised_to (level worse : string) : string := if String.eqb level "logging" then worse else level.
Definition level_of (j : ScheduledJob) (o : Outcome) : string :=
  let level := if String.eqb (recorded o).1 "done" then "logging" else "error" in
  let level := if bool_decide (markers o = []) then level else "critical" in
  let level := if bool_decide (oc_anomalies o = []) then level else raised_to level "warning" in
  match scrubbed j o with
  | Some s =>
      let lost := (0 <? sc_changed s + sc_gone s)%nat in
      if lost then "critical" else if (0 <? sc_unreadable s)%nat then raised_to level "warning" else level
  | None => level
  end.

Record Summary := mkSummary {
  configured : nat; due : nat; timed_out : list string; ran : nat; succeeded : nat; failed : nat; skipped : nat;
  taken_by_another_run : list string; already_running : list string; jobs_ : list (string * string) }.
Definition fresh_summary (configured due : nat) (timed_out : list string) : Summary :=
  mkSummary configured due timed_out 0 0 0 (configured - due) [] [] [].
Definition skip_taken (l : string) (s : Summary) : Summary :=
  mkSummary (configured s) (due s) (timed_out s) (ran s) (succeeded s) (failed s) (S (skipped s))
    (taken_by_another_run s ++ [l]) (already_running s) (jobs_ s).
Definition skip_running (l : string) (s : Summary) : Summary :=
  mkSummary (configured s) (due s) (timed_out s) (ran s) (succeeded s) (failed s) (S (skipped s))
    (taken_by_another_run s) (already_running s ++ [l]) (jobs_ s).
Definition count_run (l status : string) (s : Summary) : Summary :=
  let ok := String.eqb status "done" in
  mkSummary (configured s) (due s) (timed_out s) (S (ran s)) (if ok then S (succeeded s) else succeeded s)
    (if ok then failed s else S (failed s)) (skipped s) (taken_by_another_run s) (already_running s)
    (jobs_ s ++ [(l, status)]).
Definition dry_job (l : string) (s : Summary) : Summary :=
  mkSummary (configured s) (due s) (timed_out s) (ran s) (succeeded s) (failed s) (skipped s)
    (taken_by_another_run s) (already_running s) (jobs_ s ++ [(l, "dry-run")]).

(** A pass, its calls of the store counted. *)
Record Pass := mkPass { calls : nat; store : Db }.
Definition M (A : Type) : Type := Pass -> result pass_error A * Pass.
#[export] Instance M_ret : MRet M := fun A a s => (Ok a, s).
#[export] Instance M_bind : MBind M := fun A B f m s =>
  match m s with (Ok a, s) => f a s | (Err e, s) => (Err e, s) end.
Definition raise {A} (e : pass_error) : M A := fun s => (Err e, s).
Fixpoint each {A S} (f : S -> A -> M S) (l : list A) (acc : S) : M S :=
  match l with [] => mret acc | x :: l => acc ← f acc x; each f l acc end.

Section pass.
Variable clock : nat -> Z.
Variable others : nat -> Db -> Db.
Variable me : Process.
Variable is_pid_alive : nat -> Z -> bool.
Variable local_now : wall.

(** One call of the store; the error is the caller's to catch. *)
Definition attempt {A} (f : Z -> Db -> result store_error (Db * A)) : M (result store_error A) := fun s =>
  let d := others (calls s) (store s) in
  match f (clock (calls s)) d with
  | Ok (d, a) => (Ok (Ok a), mkPass (S (calls s)) d)
  | Err e => (Ok (Err e), mkPass (S (calls s)) d)
  end.
Definition call {A} (f : Z -> Db -> result store_error (Db * A)) : M A :=
  r ← attempt f; match r with Ok a => mret a | Err e => raise (StoreFailed e) end.
Definition read {A} (f : Db -> A) : M A := call (fun _ d => Ok (d, f d)).
Definition tick : M nat := fun s => (Ok (calls s), s).
Definition lift {A} (r : result pyexn A) : M A := match r with Ok a => mret a | Err e => raise (PythonFailed e) end.

Definition reap_row (timeouts : string -> option Z) (now : Z) (reaped : list string) (row : JobRow)
    : M (list string) :=
  t ← tick;
  v ← lift (verdict_of me (is_pid_alive t) timeouts now row);
  match v with
  | None => mret reaped
  | Some (elapsed, limit, reason) =>
      let message := timeout_message (jr_job_code row) reason elapsed limit in
      closed ← call (fun at_ => update_job_run (jr_log_id row) (timeout_update me row elapsed limit message at_) true);
      mret (if closed : bool then reaped ++ [jr_job_code row] else reaped)
  end.
Definition reap_prefix (timeouts : string -> option Z) (now : Z) (reaped : list string) (prefix : string)
    : M (list string) :=
  rows ← read (running_with_prefix prefix);
  each (reap_row timeouts now) rows reaped.
Definition reap_stale_runs (timeouts : string -> option Z) : M (list string) :=
  t ← tick;
  each (reap_prefix timeouts (clock t)) [BACKUP_JOB_PREFIX; RESTORE_JOB_PREFIX; OFFLOAD_JOB_PREFIX] [].

Definition select_due_backup_jobs (jobs : list ScheduledJob) (latest_runs : string -> option JobRow) (now : Z)
    : list ScheduledJob :=
  List.filter (fun j => sj_active j && is_due (job_code j) (sj_window j) latest_runs now local_now) jobs.
Definition named (wanted : option string) (value : string) : bool :=
  match wanted with Some w => String.eqb w "" || String.eqb value w | None => true end.
Definition asked_for (wanted : option string) : bool :=
  match wanted with Some w => negb (String.eqb w "") | None => false end.
Definition selected (backup_id job_name : option string) (jobs : list ScheduledJob) : result pass_error (list ScheduledJob) :=
  let jobs := List.filter (fun j => named backup_id (sj_backup_id j)) jobs in
  if asked_for backup_id && bool_decide (jobs = []) then Err (NoBackupEntry (default "" backup_id))
  else
    let jobs := List.filter (fun j => named job_name (sj_job j)) jobs in
    if asked_for job_name && bool_decide (jobs = []) then Err (NoBackupJob (default "" job_name)) else Ok jobs.

(** [_stopped_by_operator]. *)
Definition stopped_by_operator (log_id : Z) (d : Db) : bool :=
  match List.find (fun r => jr_log_id r =? log_id) (db_runs d) with
  | Some r => truthy (get (jr_metadata r) "stopped_by_operator")
  | None => false
  end.

(** Running the job whose row has this id. *)
Variable run_job_script : ScheduledJob -> Z -> Outcome.
Definition job_metadata (j : ScheduledJob) : pydict :=
  [("backup_id", PStr (sj_backup_id j)); ("job", PStr (sj_job j)); ("server_id", PStr (sj_server_id j))].
Definition final_update (j : ScheduledJob) (o : Outcome) (now : Z) : RunUpdate :=
  {| up_finished_at := Some (iso_text now); up_level := level_of j o; up_status := upper (recorded o).1;
     up_message := oc_message o; up_duration_ms := oc_duration_ms o; up_error_text := (recorded o).2;
     up_metadata := update_dict (job_metadata j) (oc_metadata o) |}.
(** The status the run is counted under. *)
Definition close_run (j : ScheduledJob) (log_id : Z) (o : Outcome) : M string :=
  stopped ← read (stopped_by_operator log_id);
  if stopped : bool then mret "stopped"
  else _ ← call (fun now => update_job_run log_id (final_update j o now) false); mret (recorded o).1.
Definition claim_and_run (s : Summary) (j : ScheduledJob) : M Summary :=
  claimed ← attempt (start_run me (job_code j) ("Backup " +:+ label j +:+ " started.") (job_metadata j));
  match claimed with
  | Err (RunAlreadyClaimed _ _) => mret (skip_running (label j) s)
  | Err e => raise (StoreFailed e)
  | Ok log_id =>
      status ← close_run j log_id (run_job_script j log_id);
      mret (count_run (label j) status s)
  end.
Definition run_one (dry_run force : bool) (listed_at : string) (s : Summary) (j : ScheduledJob) : M Summary :=
  if dry_run then mret (dry_job (label j) s)
  else
    taken ← (if force then mret false else read (taken_since (job_code j) listed_at));
    if taken : bool then mret (skip_taken (label j) s) else claim_and_run s j.
Definition timeouts_of (jobs : list ScheduledJob) (code : string) : option Z :=
  match List.find (fun j => String.eqb (job_code j) code) jobs with Some j => tw_timeout (sj_window j) | None => None end.
(** What is due, and running it. *)
Definition due_jobs (force : bool) (jobs : list ScheduledJob) (latest_runs : string -> option JobRow) (now : Z)
    : list ScheduledJob :=
  if force then List.filter (fun j => sj_active j && negb (is_running_job (job_code j) latest_runs)) jobs
  else select_due_backup_jobs jobs latest_runs now.
Definition run_due (jobs : list ScheduledJob) (dry_run force : bool) (stale : list string) : M Summary :=
  t ← tick;
  latest_runs ← read fetch_latest_job_runs_by_job_code;
  t' ← tick;
  let due := due_jobs force jobs latest_runs (clock t') in
  each (run_one dry_run force (iso_text (clock t))) due (fresh_summary (length jobs) (length due) stale).
Definition run_backup (jobs : list ScheduledJob) (backup_id job_name : option string) (dry_run force : bool) : M Summary :=
  jobs ← (match selected backup_id job_name jobs with Ok l => mret l | Err e => raise e end);
  stale ← reap_stale_runs (timeouts_of jobs);
  run_due jobs dry_run force stale.
End pass.

(** ** Stopping a run *)
Definition tag_char (a : ascii) : ascii :=
  if is_alnum a || bool_decide (a ∈ chars "_.-") then a else "_"%char.
Definition run_tag (backup_id : string) (job_run_id : Z) : string :=
  str_last 100 (text (map tag_char (chars (backup_id +:+ "_" +:+ str_of_int job_run_id)))).
(** What [backup-stop] answered for a tag: everything of the run is gone, why not, and the rest. *)
Record StopAnswer := mkStop { sa_stopped : bool; sa_error : string; sa_ended : string; sa_details : pydict }.
Definition stop_message (j : ScheduledJob) (a : StopAnswer) : string :=
  if sa_stopped a then "Backup " +:+ label j +:+ " stopped by the operator - " +:+ sa_ended a +:+ "."
  else "Backup " +:+ label j +:+ " stop asked by the operator - " +:+ sa_ended a +:+ ", NOT fully stopped: "
       +:+ (if String.eqb (sa_error a) "" then "something of the run is still there" else sa_error a).
Definition stop_update (j : ScheduledJob) (row : JobRow) (a : StopAnswer) (now : Z) : RunUpdate :=
  {| up_finished_at := Some (iso_text now); up_level := "error"; up_status := "ERROR"; up_message := stop_message j a;
     up_duration_ms := None;
     up_error_text := if sa_stopped a then None
                      else Some (str_take 2000 (if String.eqb (sa_error a) "" then stop_message j a else sa_error a));
     up_metadata := update_dict (jr_metadata row)
       [("run_tag", PStr (run_tag (sj_backup_id j) (jr_log_id row)));
        ("stopped_by_operator", PDict (("at", PStr (iso_text now)) :: ("stopped", PBool (sa_stopped a)) :: sa_details a))] |}.
Record Stop := mkStopped { st_job : string; st_log_id : Z; st_stopped : bool; st_row_closed : bool }.

Section stopping.
Variable clock : nat -> Z.
Variable others : nat -> Db -> Db.
Variable backup_stop : string -> StopAnswer.
Definition stop_row (j : ScheduledJob) (stops : list Stop) (row : JobRow) : M (list Stop) :=
  let a := backup_stop (run_tag (sj_backup_id j) (jr_log_id row)) in
  closed ← call clock others (fun now => update_job_run (jr_log_id row) (stop_update j row a now) true);
  mret (stops ++ [mkStopped (sj_job j) (jr_log_id row) (sa_stopped a) closed]).
Definition stop_job (stops : list Stop) (j : ScheduledJob) : M (list Stop) :=
  rows ← read clock others (fun d => List.filter (fun r => String.eqb (jr_job_code r) (job_code j)) (fetch_running_job_runs d));
  each (stop_row j) rows stops.
Definition stop_backup_run (jobs : list ScheduledJob) (backup_id : string) : M (list Stop) :=
  match List.filter (fun j => String.eqb (sj_backup_id j) backup_id) jobs with
  | [] => raise (NoBackupEntry backup_id)
  | jobs => each stop_job jobs []
  end.
End stopping.
