(* ===== verification/BackupScheduleProofs.v ===== *)
(** * What a pass over the backups does to the run rows ([BackupSchedule]). *)

From stdpp Require Import relations.
From S2P Require Import Prelude Py PyTime TimeWindow RunClaim Store RunRequests BackupSchedule.

(** ** Small facts of the store *)
Definition running (r : JobRow) : bool := is_running (jr_status r).
Definition stop_mark (r : JobRow) : bool := truthy (get (jr_metadata r) "stopped_by_operator").
(** The store's invariant, and a row that carries a stop is closed. *)
Definition pass_ok (d : Db) : Prop :=
  store_ok d /\ Forall (fun r => stop_mark r = true -> running r = false) (db_runs d).
(** No row that was closed, or gone, is running again. *)
Definition stays_closed (d d' : Db) : Prop :=
  db_next_log d <= db_next_log d'
  /\ forall r', r' ∈ db_runs d' -> running r' = true -> jr_log_id r' < db_next_log d ->
       exists r, r ∈ db_runs d /\ jr_log_id r = jr_log_id r' /\ running r = true.
#[export] Instance stays_closed_preorder : PreOrder stays_closed.
Proof.
  split; [intros d; split; [lia|eauto]|]. intros d1 d2 d3 [H1 H2] [H3 H4]. split; [lia|].
  intros r3 Hr3 Hrun Hid. destruct (H4 r3 Hr3 Hrun) as (r2 & Hr2 & E2 & Hrun2); [lia|].
  destruct (H2 r2 Hr2 Hrun2) as (r1 & Hr1 & E1 & Hrun1); [lia|]. exists r1. split; [done|]. split; [congruence|done].
Qed.
Definition closed_in (id : Z) (d : Db) : Prop := Forall (fun r => jr_log_id r = id -> running r = false) (db_runs d).
Lemma closed_stays id d d' : closed_in id d -> stays_closed d d' -> id < db_next_log d -> closed_in id d'.
Proof.
  intros Hc [_ Hs] Hid. apply list.Forall_forall. intros r' Hr' E. apply not_true_iff_false. intros Hrun.
  destruct (Hs r' Hr' Hrun) as (r & Hr & Er & Hr1); [lia|]. unfold closed_in in Hc.
  rewrite list.Forall_forall in Hc. rewrite (Hc r Hr) in Hr1; [done|congruence].
Qed.

Lemma strip_keeps_head a l : is_space a = false -> strip (text (a :: l)) <> "".
Proof.
  intros Ha. unfold strip. rewrite chars_text. unfold trim. cbn [drop_while]. rewrite Ha.
  rewrite reverse_cons. intros H.
  assert (Hd : drop_while is_space (reverse l ++ [a]) <> []).
  { generalize (reverse l). clear -Ha. induction l as [|b l IH]; cbn; [by rewrite Ha|].
    destruct (is_space b); [done|discriminate]. }
  destruct (drop_while is_space (reverse l ++ [a])) as [|b k]; [done|]. rewrite reverse_cons in H.
  by destruct (reverse k).
Qed.
Lemma job_code_claimed j : exists k, clean_key (Some (job_code j)) = Some k.
Proof.
  unfold clean_key. cbn [default from_option id].
  destruct (String.eqb_spec (strip (job_code j)) "") as [E|_]; [|by eexists].
  exfalso. revert E. change (job_code j) with
    (String "b" ("ackup_restore.backup_job" +:+ "." +:+ sj_backup_id j +:+ "." +:+ sj_job j)).
  rewrite <-(text_chars (String "b" _)). by apply strip_keeps_head.
Qed.

(** Closing a row can break nothing but its checks. *)
Lemma claims_of_closed (f : JobRow -> JobRow) l : (forall r, claim_of (f r) = None \/ claim_of (f r) = claim_of r) ->
  sublist (claims (map f l)) (claims l).
Proof.
  intros H. induction l as [|r l IH]; [constructor|]. cbn.
  destruct (H r) as [->| ->]; destruct (claim_of r); cbn; try done; by constructor.
Qed.
Lemma close_total log_id u only d : NoDup (claims (db_runs d)) -> row_checks (up_level u) (up_duration_ms u) = true ->
  is_running (up_status u) = false -> exists d' b, update_job_run log_id u only d = Ok (d', b).
Proof.
  intros Hnd Hchk Hst. unfold update_job_run. rewrite Hchk, andb_false_r.
  match goal with |- context [claims_unique ?l] => assert (claims_unique l = true) as -> end; [|by do 2 eexists].
  apply bool_decide_eq_true_2.
  eapply sublist_NoDup; [exact Hnd|]. apply claims_of_closed. intros r. destruct (_ && _); [left|by right].
  unfold claim_of. change (jr_status (write_row u r)) with (up_status u). rewrite Hst.
  by destruct (jr_claim_key _).
Qed.
Lemma update_rows log_id u only d d' b : update_job_run log_id u only d = Ok (d', b) ->
  db_runs d' = map (fun r => if (jr_log_id r =? log_id) && (negb only || running r) then write_row u r else r) (db_runs d)
  /\ db_next_log d' = db_next_log d.
Proof.
  unfold update_job_run. destruct (_ && negb _); [done|]. destruct (claims_unique _); [|done].
  by intros [= <- _].
Qed.
Lemma closing_stays log_id u only d d' b : update_job_run log_id u only d = Ok (d', b) ->
  is_running (up_status u) = false -> stays_closed d d'.
Proof.
  intros [Hr Hn]%update_rows Hst. split; [by rewrite Hn|]. rewrite Hr.
  intros r' (r & -> & Hin)%list_elem_of_fmap Hrun Hid. destruct (_ && _).
  - change (is_running (up_status u) = true) in Hrun. congruence.
  - by exists r.
Qed.
Lemma closing_closes log_id u d d' b : update_job_run log_id u false d = Ok (d', b) ->
  is_running (up_status u) = false -> closed_in log_id d'.
Proof.
  intros [Hr _]%update_rows Hst. unfold closed_in. rewrite Hr. apply list.Forall_fmap, list.Forall_forall.
  intros r _. cbn. destruct (jr_log_id r =? log_id) eqn:E; cbn; [done|]. intros E'. by apply Z.eqb_neq in E.
Qed.
Lemma closing_ok log_id u only d d' b : update_job_run log_id u only d = Ok (d', b) ->
  is_running (up_status u) = false -> pass_ok d -> pass_ok d'.
Proof.
  intros H Hst [Hs Hm]. split; [by eapply update_run_store_ok|]. apply update_rows in H as [-> _].
  apply list.Forall_fmap. eapply list.Forall_impl; [exact Hm|]. intros r Hr. cbn. by destruct (_ && _).
Qed.

(** Starting a run: its row with the claim of the process, or the claim of another run. *)
Definition started_row (p : Process) (code key message : string) (metadata : pydict) (now : Z) (d : Db) : JobRow :=
  {| jr_log_id := db_next_log d; jr_created_at := iso_text now; jr_started_at := Some (iso_text now);
     jr_finished_at := None; jr_job_code := code; jr_level := "logging"; jr_status := "RUNNING";
     jr_message := message; jr_duration_ms := None; jr_error_text := None; jr_host_name := ps_host p;
     jr_claim_key := Some key;
     jr_metadata := update_dict metadata
       (claim_fields (ps_pid p) (ps_host p) (ps_node p) (ps_start_marker p (ps_pid p))) |}.
Lemma running_word : String.eqb (lower (strip "RUNNING")) "running" = true.
Proof. vm_compute. reflexivity. Qed.
Lemma start_run_eq p code key message metadata now d : clean_key (Some code) = Some key -> assoc "pid" metadata = None ->
  let rows := db_runs d ++ [started_row p code key message metadata now d] in
  start_run p code message metadata now d
  = if claims_unique rows then
      Ok (Build_Db rows (db_next_log d + 1) (db_requests d) (db_next_request d) (db_runs_history d)
            (db_requests_history d), db_next_log d)
    else Err (RunAlreadyClaimed code (ps_host p)).
Proof.
  intros Hk Hpid. cbv zeta. unfold start_run, insert_job_run. cbv zeta. unfold start_item.
  cbn [it_claim_key it_status it_host_name it_metadata it_level it_duration_ms it_job_code it_message it_started_at
       it_finished_at it_error_text]. rewrite Hk, running_word. cbn [andb]. unfold _claim_pid. rewrite Hpid.
  replace (if String.eqb (ps_host p) "" then ps_host p else ps_host p) with (ps_host p) by by destruct (String.eqb _ _).
  cbn [mbind result_bind]. change (row_checks "logging" None) with true. cbn [negb]. reflexivity.
Qed.
Lemma start_job p j message now d : pass_ok d ->
  match start_run p (job_code j) message (job_metadata j) now d with
  | Ok (d', id) => id = db_next_log d /\ pass_ok d' /\ stays_closed d d' /\ db_next_log d' = id + 1
  | Err e => exists code host, e = RunAlreadyClaimed code host
  end.
Proof.
  intros [Hs Hm]. destruct (job_code_claimed j) as [k Hk].
  assert (Heq := start_run_eq p (job_code j) k message (job_metadata j) now d Hk eq_refl). cbv zeta in Heq.
  destruct (start_run p (job_code j) message (job_metadata j) now d) as [[d' id]|e] eqn:H.
  - assert (Hs' : store_ok d') by (by eapply insert_run_store_ok).
    destruct (claims_unique _); [|done]. injection Heq as -> ->. split; [done|]. split; [split; [done|]|].
    + cbn. apply list.Forall_app. split; [done|]. constructor; [|constructor]. unfold stop_mark, started_row, claim_fields.
      cbn [jr_metadata].
      destruct (String.eqb (strip (ps_node p)) ""), (String.eqb (strip (ps_start_marker p (ps_pid p))) ""); done.
    + split; [|done]. split; [cbn; lia|]. cbn.
      intros r' [Hin| ->%list_elem_of_singleton]%elem_of_app Hrun Hlt; [by exists r'|cbn in Hlt; lia].
  - destruct (claims_unique _); [done|]. injection Heq as ->. by do 2 eexists.
Qed.

(** ** One job of a pass *)
Lemma level_of_known j o : level_of j o ∈ LEVELS.
Proof.
  unfold level_of, raised_to, LEVELS. destruct (scrubbed j o); repeat case_match; set_solver.
Qed.
(** What a backup may answer: a duration is not negative, and no status is that of a running row. *)
Definition fair (o : Outcome) : Prop :=
  match oc_duration_ms o with Some n => 0 <= n | None => True end /\ is_running (upper (recorded o).1) = false.
Definition answers_job (run_job_script : ScheduledJob -> Z -> Outcome) (due : list ScheduledJob) (id : Z)
    (entry : string * string) : Prop :=
  exists j, j ∈ due /\ entry.1 = label j
    /\ (entry.2 = (recorded (run_job_script j id)).1 \/ entry.2 = "stopped").

Section pass.
Variable clock : nat -> Z.
Variable others : nat -> Db -> Db.
Variable me : Process.
Variable local_now : wall.
Variable run_job_script : ScheduledJob -> Z -> Outcome.
Abbreviation run_one := (run_one clock others me run_job_script).

(** The other clients keep the store, and open no row again. *)
Hypothesis Hothers : forall n d, pass_ok d -> pass_ok (others n d) /\ stays_closed d (others n d).
Hypothesis Hfair : forall j id, fair (run_job_script j id).

Lemma close_run_ends j id p : pass_ok (store p) -> id < db_next_log (store p) ->
  exists st p', close_run clock others j id (run_job_script j id) p = (Ok st, p')
    /\ pass_ok (store p') /\ stays_closed (store p) (store p') /\ closed_in id (store p')
    /\ (st = (recorded (run_job_script j id)).1 \/ st = "stopped").
Proof using Hothers Hfair.
  intros Hok Hid. destruct (Hothers (calls p) _ Hok) as [Hok1 Hs1]. set (d1 := others (calls p) (store p)) in *.
  set (o := run_job_script j id). destruct (Hfair j id) as [Hdur Hrun]. fold o in Hdur, Hrun.
  unfold close_run, read, call, attempt. unfold mbind, M_bind at 1. unfold mbind, M_bind, mret, M_ret.
  cbn [calls store]. fold d1. destruct (stopped_by_operator id d1) eqn:Hst.
  - do 2 eexists. split; [reflexivity|]. cbn [store]. split; [done|]. split; [done|]. split; [|by right].
    unfold stopped_by_operator in Hst. destruct (List.find _ (db_runs d1)) as [r|] eqn:Hf; [|done].
    apply find_some in Hf as [Hr%list_elem_of_In E%Z.eqb_eq]. destruct Hok1 as [(Hnd & _) Hm].
    apply list.Forall_forall. intros r' Hr' E'.
    assert (r' = r) as -> by (eapply (NoDup_map_inj jr_log_id); [exact Hnd|done|done|congruence]).
    rewrite list.Forall_forall in Hm. by apply Hm.
  - cbn [calls store]. destruct (Hothers (S (calls p)) _ Hok1) as [Hok2 Hs2].
    set (d2 := others (S (calls p)) d1) in *.
    destruct (close_total id (final_update j o (clock (S (calls p)))) false d2) as (d3 & b & H).
    { apply Hok2. }
    { unfold row_checks. rewrite bool_decide_eq_true_2 by apply level_of_known. cbn.
      destruct (oc_duration_ms o); [by apply Z.leb_le|done]. }
    { exact Hrun. }
    rewrite H. do 2 eexists. split; [reflexivity|]. cbn [store].
    split; [by eapply closing_ok|]. split; [|split; [by eapply closing_closes|by left]].
    etrans; [exact Hs1|]. etrans; [exact Hs2|]. by eapply closing_stays.
Qed.

Definition one_of (s s' : Summary) (j : ScheduledJob) (d d' : Db) : Prop :=
  s' = skip_taken (label j) s \/ s' = skip_running (label j) s
  \/ exists id st, s' = count_run (label j) st s /\ db_next_log d <= id < db_next_log d' /\ closed_in id d'
       /\ (st = (recorded (run_job_script j id)).1 \/ st = "stopped").
Lemma claim_and_run_ends s j p : pass_ok (store p) ->
  exists s' p', claim_and_run clock others me run_job_script s j p = (Ok s', p')
    /\ pass_ok (store p') /\ stays_closed (store p) (store p') /\ one_of s s' j (store p) (store p').
Proof using Hothers Hfair.
  intros Hok. destruct (Hothers (calls p) _ Hok) as [Hok1 Hs1]. set (d1 := others (calls p) (store p)) in *.
  unfold claim_and_run. unfold mbind at 1, M_bind at 1. unfold attempt at 1. fold d1.
  pose proof (start_job me j ("Backup " +:+ label j +:+ " started.") (clock (calls p)) d1 Hok1) as Hstart.
  destruct (start_run me (job_code j) _ _ _ d1) as [[d2 id]|e].
  - destruct Hstart as (-> & Hok2 & Hs2 & Hn). cbn [mbind].
    destruct (close_run_ends j (db_next_log d1) (mkPass (S (calls p)) d2) Hok2) as (st & p' & H & Hok3 & Hs3 & Hc & Hst);
      [cbn [store]; lia|]. unfold mbind, M_bind. rewrite H. do 2 eexists. split; [reflexivity|]. split; [done|].
    split; [etrans; [exact Hs1|]; etrans; [exact Hs2|exact Hs3]|].
    right; right. do 2 eexists. split; [reflexivity|]. split; [|done].
    destruct Hs1 as [? _], Hs3 as [? _]. cbn [store] in *. lia.
  - destruct Hstart as (code & host & ->). do 2 eexists. split; [reflexivity|]. split; [done|]. split; [done|].
    by right; left.
Qed.
Lemma run_one_ends force listed_at s j p : pass_ok (store p) ->
  exists s' p', run_one false force listed_at s j p = (Ok s', p')
    /\ pass_ok (store p') /\ stays_closed (store p) (store p') /\ one_of s s' j (store p) (store p').
Proof using Hothers Hfair.
  intros Hok. unfold BackupSchedule.run_one. cbv iota.
  destruct force.
  - exact (claim_and_run_ends s j p Hok).
  - destruct (Hothers (calls p) _ Hok) as [Hok1 Hs1].
    unfold mbind at 1, M_bind at 1. unfold read, call, attempt at 1. unfold mbind at 1, M_bind at 1.
    cbn [mret M_ret]. destruct (taken_since (job_code j) listed_at (others (calls p) (store p))).
    + do 2 eexists. split; [reflexivity|]. cbn [store]. split; [done|]. split; [done|]. by left.
    + destruct (claim_and_run_ends s j (mkPass (S (calls p)) (others (calls p) (store p))) Hok1)
        as (s' & p' & H & H2 & H3 & H4). exists s', p'. split; [exact H|]. split; [done|].
      cbn [store] in *. split; [by etrans|]. destruct H4 as [->|[->|(id & st & -> & Hid & Hc)]]; [by left|by right; left|].
      right; right. exists id, st. split; [done|]. split; [|done]. destruct Hs1 as [? _]. lia.
Qed.

(** ** A whole pass *)
Record accounted (due : list ScheduledJob) (s s' : Summary) (d d' : Db) (ids : list Z) : Prop := {
  ac_configured : configured s' = configured s /\ BackupSchedule.due s' = BackupSchedule.due s;
  ac_ran : ran s' = (ran s + length ids)%nat;
  ac_verdicts : (succeeded s' + failed s' = succeeded s + failed s + length ids)%nat;
  ac_skipped : (skipped s' + length ids = skipped s + length due)%nat;
  ac_each : exists taken claimed entries,
    taken_by_another_run s' = taken_by_another_run s ++ taken
    /\ already_running s' = already_running s ++ claimed /\ jobs_ s' = jobs_ s ++ entries
    /\ map fst entries ++ taken ++ claimed ≡ₚ map label due
    /\ Forall2 (answers_job run_job_script due) ids entries;
  ac_ids : NoDup ids /\ Forall (fun i => db_next_log d <= i < db_next_log d' /\ closed_in i d') ids }.
Lemma accounted_nil s d d' : accounted [] s s d d' [].
Proof.
  split; try done; try lia; [|split; constructor].
  exists [], [], []. rewrite !app_nil_r. repeat split; done.
Qed.
Lemma answers_more due due' id entry : (forall j, j ∈ due -> j ∈ due') ->
  answers_job run_job_script due id entry -> answers_job run_job_script due' id entry.
Proof using Type. intros H (j & Hj & ?). exists j. split; [by apply H|done]. Qed.
Lemma accounted_cons j l s s1 s2 d d1 d2 ids :
  one_of s s1 j d d1 -> stays_closed d d1 -> stays_closed d1 d2 -> accounted l s1 s2 d1 d2 ids ->
  exists ids', accounted (j :: l) s s2 d d2 ids'.
Proof using Type.
  intros Hone Hd1 Hd2 [[Hc1 Hc2] Hr Hv Hk (t & c & e & Ht & Hc & He & Hp & Ha) [Hnd Hids]].
  assert (Ha' : Forall2 (answers_job run_job_script (j :: l)) ids e).
  { eapply Forall2_impl; [|exact Ha]. intros i x. apply answers_more. intros y Hy. by right. }
  assert (Hids' : Forall (fun i => db_next_log d <= i < db_next_log d2 /\ closed_in i d2) ids).
  { eapply list.Forall_impl; [exact Hids|]. intros i [Hi ?]. destruct Hd1 as [? _]. split; [lia|done]. }
  destruct Hone as [->|[->|(id & st & -> & Hid & Hcl & Hst)]]; cbn in *.
  - exists ids. split; cbn; try done; try lia. exists (label j :: t), c, e. rewrite Ht, <-app_assoc.
    split_and!; try done. rewrite <-Hp. symmetry. apply Permutation_middle.
  - exists ids. split; cbn; try done; try lia. exists t, (label j :: c), e. rewrite Hc, <-app_assoc.
    split_and!; try done. rewrite <-Hp, !app_assoc. symmetry. apply Permutation_middle.
  - exists (id :: ids). split; cbn; try done; try lia.
    + destruct (String.eqb st "done"); lia.
    + exists t, c, ((label j, st) :: e). rewrite He, <-app_assoc. split_and!; try done; [by rewrite <-Hp|].
      constructor; [|done]. exists j. split; [by left|]. done.
    + split.
      * constructor; [|done]. intros Hin. rewrite list.Forall_forall in Hids. specialize (Hids id Hin). lia.
      * constructor; [|done]. split; [destruct Hd2 as [? _]; lia|]. eapply closed_stays; [exact Hcl|exact Hd2|lia].
Qed.
Lemma each_ends force listed_at l s p : pass_ok (store p) ->
  exists s' p' ids, each (run_one false force listed_at) l s p = (Ok s', p')
    /\ pass_ok (store p') /\ stays_closed (store p) (store p') /\ accounted l s s' (store p) (store p') ids.
Proof using Hothers Hfair.
  revert s p. induction l as [|j l IH]; intros s p Hok.
  - exists s, p, []. split; [done|]. split; [done|]. split; [done|apply accounted_nil].
  - destruct (run_one_ends force listed_at s j p Hok) as (s1 & p1 & H1 & Hok1 & Hs1 & Hone).
    destruct (IH s1 p1 Hok1) as (s2 & p2 & ids & H2 & Hok2 & Hs2 & Hacc).
    destruct (accounted_cons j l s s1 s2 _ _ _ ids Hone Hs1 Hs2 Hacc) as [ids' Hacc'].
    exists s2, p2, ids'. cbn [each]. unfold mbind, M_bind. rewrite H1, H2. split; [done|]. split; [done|].
    split; [by etrans|done].
Qed.
Lemma due_jobs_fewer force jobs latest now : (length (due_jobs local_now force jobs latest now) <= length jobs)%nat.
Proof. unfold due_jobs, select_due_backup_jobs. destruct force; apply filter_length_le. Qed.

(** C32: With other processes changing the store before every call of it, a pass over the due
    jobs ends: each due job is answered once, as run, taken by another run or already running;
    ran and skipped add up to the jobs, succeeded and failed to those that ran; and the row of
    each run that the pass started is closed. *)
Theorem a_backup_pass_answers_every_due_job jobs force stale p : pass_ok (store p) ->
  let due := due_jobs local_now force jobs
    (fetch_latest_job_runs_by_job_code (others (calls p) (store p))) (clock (S (calls p))) in
  exists s p' ids, run_due clock others me local_now run_job_script jobs false force stale p = (Ok s, p')
    /\ pass_ok (store p') /\ ran s = length ids /\ (succeeded s + failed s = ran s)%nat
    /\ (ran s + skipped s = length jobs)%nat
    /\ map fst (jobs_ s) ++ taken_by_another_run s ++ already_running s ≡ₚ map label due
    /\ Forall2 (answers_job run_job_script due) ids (jobs_ s)
    /\ NoDup ids /\ Forall (fun i => db_next_log (store p) <= i /\ closed_in i (store p')) ids.
Proof using Hothers Hfair.
  intros Hok. cbv zeta. destruct (Hothers (calls p) _ Hok) as [Hok1 Hs1].
  set (due := due_jobs _ _ _ _ _).
  destruct (each_ends force (iso_text (clock (calls p))) due (fresh_summary (length jobs) (length due) stale)
    (mkPass (S (calls p)) (others (calls p) (store p))) Hok1) as (s & p' & ids & H & Hok' & Hs' & Hacc).
  destruct Hacc as [_ Hr Hv Hk (t & c & e & Ht & Hc & He & Hp & Ha) [Hnd Hids]]. cbn in Hr, Hv, Hk, Ht, Hc, He.
  exists s, p', ids. split; [exact H|].
  pose proof (due_jobs_fewer force jobs (fetch_latest_job_runs_by_job_code (others (calls p) (store p)))
    (clock (S (calls p)))) as Hle. fold due in Hle.
  split; [done|]. split; [done|]. split; [lia|]. split; [lia|]. split; [by rewrite Ht, Hc, He|].
  split; [by rewrite He|]. split; [done|]. eapply list.Forall_impl; [exact Hids|]. intros i [Hi ?].
  destruct Hs1 as [? _]. cbn [store] in *. split; [lia|done].
Qed.
End pass.

(** ** A pass that another process overtakes *)
Definition worker (host : string) (pid : Z) : Process := Build_Process host pid "" (fun _ => "").
Definition nightly (id : string) : ScheduledJob := mkJob id "full" "srv-1" empty_window true false.
Definition fine : Outcome := mkOutcome "done" (Some 0) (Some 1200) None (Ok []) (mkScrub 0 0 0) [] [] "finished: done" [].
Definition evening (n : nat) : Z := seconds (ymd2ord 2026 9 21 * 86400 + 72000 + Z.of_nat n).
(** While the first job runs, another process starts the second. *)
Definition overtaken (n : nat) (d : Db) : Db :=
  match n with
  | 3%nat => match start_run (worker "node-1" 42) (job_code (nightly "crm")) "Backup crm/full started."
                     (job_metadata (nightly "crm")) (evening 3) d with
             | Ok (d', _) => d'
             | Err _ => d
             end
  | _ => d
  end.
Lemma overtaken_ok n d : pass_ok d -> pass_ok (overtaken n d) /\ stays_closed d (overtaken n d).
Proof.
  intros Hok. destruct n as [|[|[|[|n]]]]; cbn [overtaken]; try (split; [exact Hok|reflexivity]).
  pose proof (start_job (worker "node-1" 42) (nightly "crm") "Backup crm/full started." (evening 3) d Hok) as H.
  destruct (start_run _ _ _ _ _ d) as [[d' id]|e]; [by destruct H as (_ & ? & ? & _)|by split].
Qed.
Lemma no_runs_ok : pass_ok empty_db.
Proof. split; [exact empty_store_ok|constructor]. Qed.
Definition evening_pass : result pass_error Summary * Pass :=
  run_due evening overtaken (worker "node-1" 41) (Build_wall 2026 9 21 20 0) (fun _ _ => fine)
    [nightly "erp"; nightly "crm"] false false [] (mkPass 0 empty_db).
Theorem accounted_witness :
  match evening_pass with
  | (Ok s, p') => jobs_ s = [("erp/full", "done")] /\ taken_by_another_run s = ["crm/full"]
      /\ closed_in 1 (store p') /\ length (fetch_running_job_runs (store p')) = 1%nat
  | _ => False
  end
  /\ exists s p' ids, evening_pass = (Ok s, p')
    /\ pass_ok (store p') /\ ran s = length ids /\ (succeeded s + failed s = ran s)%nat
    /\ (ran s + skipped s = 2)%nat
    /\ map fst (jobs_ s) ++ taken_by_another_run s ++ already_running s ≡ₚ ["erp/full"; "crm/full"]
    /\ Forall2 (answers_job (fun _ _ => fine) [nightly "erp"; nightly "crm"]) ids (jobs_ s)
    /\ NoDup ids /\ Forall (fun i => 1 <= i /\ closed_in i (store p')) ids.
Proof.
  split; [vm_compute; split_and!; try reflexivity; repeat constructor; discriminate|].
  assert (Hfair : forall (j : ScheduledJob) (id : Z), fair fine) by (intros _ _; split; vm_compute; congruence).
  assert (Hdue : due_jobs (Build_wall 2026 9 21 20 0) false [nightly "erp"; nightly "crm"]
      (fetch_latest_job_runs_by_job_code (overtaken 0 empty_db)) (evening 1) = [nightly "erp"; nightly "crm"])
    by (vm_compute; reflexivity).
  pose proof (a_backup_pass_answers_every_due_job evening overtaken (worker "node-1" 41)
    (Build_wall 2026 9 21 20 0) (fun _ _ => fine) overtaken_ok Hfair [nightly "erp"; nightly "crm"] false []
    (mkPass 0 empty_db) no_runs_ok) as H.
  cbv zeta in H. cbn [calls store] in H. rewrite Hdue in H. exact H.
Defined.

(** ** What a run is called *)
Definition clean_scrub (j : ScheduledJob) (o : Outcome) : Prop :=
  sj_scrub_files j = true -> sc_changed (oc_scrub o) = 0%nat /\ sc_gone (oc_scrub o) = 0%nat /\ sc_unreadable (oc_scrub o) = 0%nat.
Definition attacked (j : ScheduledJob) (o : Outcome) : Prop :=
  oc_markers o <> [] \/ (sj_scrub_files j = true /\ (0 < sc_changed (oc_scrub o) + sc_gone (oc_scrub o))%nat).
Lemma recorded_done o : (recorded o).1 = "done" <-> oc_status o = "done" /\ oc_unverified o = Ok [].
Proof.
  unfold recorded. destruct (oc_unverified o) as [l|why]; destruct (String.eqb_spec (oc_status o) "done") as [E|E]; cbn.
  - rewrite E. destruct l; cbn; split; try done; intros [_ H]; done.
  - naive_solver.
  - split; [done|]. by intros [_ ?].
  - naive_solver.
Qed.
(** green. *)
Lemma a_green_run_is_verified_and_recorded j o :
  ((recorded o).1 = "done" <-> oc_status o = "done" /\ oc_unverified o = Ok [])
  /\ (level_of j o = "logging" <->
      (recorded o).1 = "done" /\ oc_markers o = [] /\ oc_anomalies o = [] /\ clean_scrub j o)
  /\ (level_of j o = "critical" <-> (recorded o).1 = "done" /\ attacked j o)
  /\ ((recorded o).1 <> "done" -> level_of j o = "error").
Proof.
  split; [apply recorded_done|]. unfold level_of, scrubbed, markers, raised_to, clean_scrub, attacked.
  destruct (String.eqb_spec (recorded o).1 "done") as [E|E]; cbn [andb].
  - destruct (oc_scrub o) as [ch gone un]. cbn [sc_changed sc_gone sc_unreadable].
    destruct (oc_markers o), (oc_anomalies o), (sj_scrub_files j);
      repeat (case_bool_decide || case_match || cbn); simplify_eq;
      repeat match goal with H : (_ <? _)%nat = true |- _ => apply Nat.ltb_lt in H | H : (_ <? _)%nat = false |- _ => apply Nat.ltb_ge in H end;
      split_and!; naive_solver lia.
  - split; [|split; [|]]; repeat (case_bool_decide || cbn); naive_solver.
Qed.
