(* ===== verification/BackupRuns.v ===== *)
(** * Two runs of one backup job ([BackupSchedule], [RunClaim], [Store]).

    The processes that run units of work over one store, one store call at a time: a run
    starts with its row, and ends or dies; reapers and stops read rows, and close them later;
    the archive takes rows by their age, of runs that go on too; every other client of the
    store does what it likes with the rows of other runs. *)

From stdpp Require Import relations.
From S2P Require Import Prelude Py PyTime TimeWindow RunClaim Store RunRequests BackupSchedule BackupScheduleProofs.

(** Why a run that goes on has lost its row. *)
Inductive loss : Type := ByReaper (host : string) | ByStop | ByArchive (cutoff : string).
(** A run that goes on: when it began is what its row was created with. *)
Record Exec := mkExec { ex_process : Process; ex_code : string; ex_log : Z; ex_began : string; ex_lost : option loss }.
Definition ex_host (e : Exec) : string := ps_host (ex_process e).
Record World := mkWorld { w_db : Db; w_live : list Exec; w_reads : list JobRow }.

Definition lose (id : Z) (why : loss) (closed : bool) (e : Exec) : Exec :=
  if closed && (ex_log e =? id) then
    mkExec (ex_process e) (ex_code e) (ex_log e) (ex_began e) (match ex_lost e with None => Some why | l => l end)
  else e.
(** An archive with this cutoff has left [d]. *)
Definition lose_archived (cutoff : string) (d : Db) (e : Exec) : Exec :=
  lose (ex_log e) (ByArchive cutoff) (negb (existsb (fun r => jr_log_id r =? ex_log e) (db_runs d))) e.
Definition others_run (id : Z) (l : list Exec) : list Exec := List.filter (fun e => negb (ex_log e =? id)) l.

Inductive run_step (w : World) : World -> Prop :=
| run_starts p code message metadata now d id :
    clean_key (Some code) = Some code -> assoc "pid" metadata = None -> ps_host p <> "" ->
    start_run p code message metadata now (w_db w) = Ok (d, id) ->
    run_step w (mkWorld d (w_live w ++ [mkExec p code id (iso_text now) None]) (w_reads w))
| run_dies e : e ∈ w_live w -> run_step w (mkWorld (w_db w) (others_run (ex_log e) (w_live w)) (w_reads w))
| run_ends e u d b : e ∈ w_live w -> is_running (up_status u) = false ->
    update_job_run (ex_log e) u false (w_db w) = Ok (d, b) ->
    run_step w (mkWorld d (others_run (ex_log e) (w_live w)) (w_reads w))
| rows_read prefix : run_step w (mkWorld (w_db w) (w_live w) (w_reads w ++ running_with_prefix prefix (w_db w)))
(** A reaper is told the truth about the pid of a run of its own host. *)
| row_reaped me is_pid_alive timeouts now at_ row elapsed limit reason message d closed :
    row ∈ w_reads w ->
    (forall e, e ∈ w_live w -> ex_log e = jr_log_id row -> ex_host e = ps_host me ->
       is_pid_alive (ps_pid (ex_process e)) = true) ->
    verdict_of me is_pid_alive timeouts now row = Ok (Some (elapsed, limit, reason)) ->
    update_job_run (jr_log_id row) (timeout_update me row elapsed limit message at_) true (w_db w) = Ok (d, closed) ->
    run_step w (mkWorld d (map (lose (jr_log_id row) (ByReaper (ps_host me)) closed) (w_live w)) (w_reads w))
(** A stop that says it stopped the run has stopped it. *)
| row_stopped j row a now d closed :
    row ∈ w_reads w -> (sa_stopped a = true -> Forall (fun e => ex_log e <> jr_log_id row) (w_live w)) ->
    update_job_run (jr_log_id row) (stop_update j row a now) true (w_db w) = Ok (d, closed) ->
    run_step w (mkWorld d (map (lose (jr_log_id row) ByStop closed) (w_live w)) (w_reads w))
| rows_archived now days size max_batches d n :
    archive_old_job_runs now days size max_batches (w_db w) = Some (d, n) ->
    run_step w (mkWorld d (map (lose_archived (iso_text (now - seconds (days * 86400))) d) (w_live w)) (w_reads w))
| other_client d : store_step (w_db w) d ->
    (forall e r, e ∈ w_live w -> jr_log_id r = ex_log e -> (r ∈ db_runs (w_db w) <-> r ∈ db_runs d)) ->
    run_step w (mkWorld d (w_live w) (w_reads w)).

(** ** The invariant *)
Definition names (e : Exec) (r : JobRow) : Prop :=
  forall host_fallback, claim_owner (Some (jr_metadata r)) host_fallback = Ok (Some (ps_pid (ex_process e)), ex_host e).
Definition loss_ok (e : Exec) (l : loss) : Prop :=
  match l with
  | ByReaper host => host <> ex_host e
  | ByStop => True
  | ByArchive cutoff => str_lt (ex_began e) cutoff = true
  end.
Record held (d : Db) (reads : list JobRow) (e : Exec) : Prop := {
  he_host : ex_host e <> "";
  he_known : ex_log e < db_next_log d;
  he_row : forall r, r ∈ db_runs d -> jr_log_id r = ex_log e ->
             (running r = true -> names e r) /\ jr_created_at r = ex_began e
             /\ (ex_lost e = None -> claim_of r = Some (ex_code e, ex_host e));
  he_there : ex_lost e = None -> exists r, r ∈ db_runs d /\ jr_log_id r = ex_log e;
  he_reads : forall r, r ∈ reads -> jr_log_id r = ex_log e -> names e r;
  he_lost : forall l, ex_lost e = Some l -> loss_ok e l }.
Record live_ok (w : World) : Prop := {
  lo_store : store_ok (w_db w);
  lo_ids : NoDup (map ex_log (w_live w));
  lo_reads : Forall (fun r => jr_log_id r < db_next_log (w_db w)) (w_reads w);
  lo_held : Forall (held (w_db w) (w_reads w)) (w_live w) }.

Lemma row_unique d r r' : store_ok d -> r ∈ db_runs d -> r' ∈ db_runs d -> jr_log_id r = jr_log_id r' -> r = r'.
Proof. intros (Hnd & _). by apply (NoDup_map_inj jr_log_id). Qed.
Lemma row_known d r : store_ok d -> r ∈ db_runs d -> jr_log_id r < db_next_log d.
Proof. intros (_ & H & _). rewrite list.Forall_forall in H. apply H. Qed.

(** The row of a run that has just started names its process. *)
Lemma update_dict_other d e k : k ∉ map fst e -> assoc k (update_dict d e) = assoc k d.
Proof.
  unfold update_dict. revert d. induction e as [|[k' v'] e IH]; intros d; cbn [fold_left map]; [done|].
  intros [H1 H2]%not_elem_of_cons. rewrite IH by done. by apply assoc_set_ne.
Qed.
Lemma update_dict_get d e k v : assoc k e = Some v -> NoDup (map fst e) -> assoc k (update_dict d e) = Some v.
Proof.
  revert d. induction e as [|[k' v'] e IH]; intros d; cbn [assoc map]; [done|].
  intros Hk [Hn Hnd]%list.NoDup_cons. unfold update_dict. cbn [fold_left fst snd]. fold (update_dict (assoc_set k' v' d) e).
  destruct (String.eqb_spec k k') as [->|Hne].
  - injection Hk as ->. rewrite update_dict_other by done. apply assoc_set_eq.
  - by apply IH.
Qed.
Lemma claim_fields_assoc pid host node started :
  assoc PID_FIELD (claim_fields pid host node started) = Some (PInt pid)
  /\ assoc HOST_FIELD (claim_fields pid host node started) = Some (PStr host)
  /\ NoDup (map fst (claim_fields pid host node started)).
Proof.
  unfold claim_fields. destruct (String.eqb (strip node) ""), (String.eqb (strip started) "");
    (split; [done|split; [done|]]); apply (bool_decide_unpack _); vm_compute; done.
Qed.
Lemma started_row_names p code key message metadata now d lost :
  names (mkExec p code (db_next_log d) (iso_text now) lost) (started_row p code key message metadata now d).
Proof.
  intros host_fallback. unfold claim_owner, text_of, get. cbn [default from_option id jr_metadata started_row].
  destruct (claim_fields_assoc (ps_pid p) (ps_host p) (ps_node p) (ps_start_marker p (ps_pid p))) as (Hp & Hh & Hnd).
  rewrite (update_dict_get _ _ _ _ Hh Hnd). cbn [default from_option id]. rewrite str_or_empty.
  cbn [first_owner]. unfold get. rewrite (update_dict_get _ _ _ _ Hp Hnd). done.
Qed.

(** ** It holds at every moment *)
Lemma held_same d d' reads e : (forall r, jr_log_id r = ex_log e -> (r ∈ db_runs d <-> r ∈ db_runs d')) ->
  db_next_log d <= db_next_log d' -> held d reads e -> held d' reads e.
Proof.
  intros Hsame Hnext [H1 H2 H3 H4 H5 H6]. split; [done|lia| | |done|done].
  - intros r Hr Hid. apply H3; [by apply Hsame|done].
  - intros (r & Hr & Hid)%H4. exists r. split; [by apply Hsame|done].
Qed.
Lemma others_run_ok id w : live_ok w ->
  NoDup (map ex_log (others_run id (w_live w)))
  /\ (forall e, e ∈ others_run id (w_live w) -> e ∈ w_live w /\ ex_log e <> id).
Proof.
  intros [_ Hnd _ _]. split; [eapply sublist_NoDup; [exact Hnd|apply map_filter_sublist]|].
  intros e [He Hne]%elem_of_filter_bool. split; [done|]. by apply negb_true_iff, Z.eqb_neq in Hne.
Qed.
Lemma update_other id u only d d' b r : update_job_run id u only d = Ok (d', b) -> jr_log_id r <> id ->
  r ∈ db_runs d <-> r ∈ db_runs d'.
Proof.
  intros [-> _]%update_rows Hne. rewrite list_elem_of_fmap. split.
  - intros Hr. exists r. split; [|done]. by rewrite (proj2 (Z.eqb_neq _ _) Hne).
  - intros (r0 & -> & Hr). destruct (_ && _) eqn:E; [|done]. apply andb_true_iff in E as [E%Z.eqb_eq _]. by destruct Hne.
Qed.
Lemma start_held w p code message metadata now d id : live_ok w ->
  clean_key (Some code) = Some code -> assoc "pid" metadata = None -> ps_host p <> "" ->
  start_run p code message metadata now (w_db w) = Ok (d, id) ->
  live_ok (mkWorld d (w_live w ++ [mkExec p code id (iso_text now) None]) (w_reads w)).
Proof.
  intros [Hst Hnd Hrd Hh] Hk Hpid Hhost H. assert (Hst' : store_ok d) by (by eapply insert_run_store_ok).
  rewrite (start_run_eq p code code message metadata now _ Hk Hpid) in H.
  destruct (claims_unique _); [|done]. injection H as <- <-.
  set (row := started_row p code code message metadata now (w_db w)) in *.
  assert (Hnew : forall e, e ∈ w_live w -> ex_log e < db_next_log (w_db w)).
  { intros e He. rewrite list.Forall_forall in Hh. by destruct (Hh e He). }
  split; cbn [w_db w_live w_reads db_next_log]; [done| | |].
  - rewrite map_app. cbn. apply list.NoDup_app. split; [done|]. split; [|apply NoDup_singleton].
    intros x (e & -> & He)%list_elem_of_fmap Hx%list_elem_of_singleton. specialize (Hnew e He). lia.
  - eapply list.Forall_impl; [exact Hrd|]. intros r ?. cbn in *. lia.
  - apply list.Forall_app. split; [|constructor; [|constructor]].
    + apply list.Forall_forall. intros e He. rewrite list.Forall_forall in Hh. apply (held_same (w_db w)); [|cbn; lia|by apply Hh].
      intros r Hid. cbn. rewrite elem_of_app, list_elem_of_singleton. split; [by left|]. intros [?| ->]; [done|].
      specialize (Hnew e He). cbn in Hid. lia.
    + split; cbn [ex_host ex_process ex_lost ex_log]; [done|cbn; lia| | | |done].
      * intros r [Hr|Hr%list_elem_of_singleton]%elem_of_app Hid; [pose proof (row_known _ _ Hst Hr); lia|]. subst r.
        split; [intros _; apply started_row_names|done].
      * intros _. exists row. split; [cbn; apply elem_of_app; right; by left|done].
      * intros r Hr Hid. rewrite list.Forall_forall in Hrd. specialize (Hrd r Hr). cbn in *. lia.
Qed.
(** Closing a row for good, whoever does it: a run that goes on has lost it. *)
Lemma lose_held w id u d closed why : live_ok w -> is_running (up_status u) = false ->
  update_job_run id u true (w_db w) = Ok (d, closed) ->
  (forall e, e ∈ w_live w -> ex_log e = id -> loss_ok e why) ->
  live_ok (mkWorld d (map (lose id why closed) (w_live w)) (w_reads w)).
Proof.
  intros [Hst Hnd Hrd Hh] Hrun H Hwhy. pose proof (update_rows _ _ _ _ _ _ H) as [Hrows Hnext].
  assert (Hlog : forall e, ex_log (lose id why closed e) = ex_log e) by (intros e; unfold lose; by destruct (_ && _)).
  assert (Hb : closed = existsb (fun r => (jr_log_id r =? id) && (negb true || running r)) (db_runs (w_db w))).
  { unfold update_job_run in H. destruct (_ && negb _); [done|]. destruct (claims_unique _); [|done]. by injection H. }
  split; cbn [w_db w_live w_reads].
  - by eapply update_run_store_ok.
  - rewrite map_map. by rewrite (map_ext _ ex_log Hlog).
  - by rewrite Hnext.
  - apply list.Forall_fmap. apply list.Forall_forall. intros e He. cbn.
    rewrite list.Forall_forall in Hh. pose proof (Hh e He) as Hhe. unfold lose.
    destruct (ex_log e =? id) eqn:E; [apply Z.eqb_eq in E|]; rewrite ?andb_false_r, ?andb_true_r.
    2: { apply Z.eqb_neq in E. apply (held_same (w_db w)); [|by rewrite Hnext|exact Hhe]. intros r Hid. eapply update_other; [exact H|].
         by rewrite Hid. }
    assert (Hone : forall r', r' ∈ db_runs d -> jr_log_id r' = id -> exists r, r ∈ db_runs (w_db w) /\ jr_log_id r = id
      /\ r' = if running r then write_row u r else r).
    { intros r' Hr' Hid'. rewrite Hrows in Hr'. apply list_elem_of_fmap in Hr' as (r & -> & Hr). exists r. split; [done|].
      assert (Hid : jr_log_id r = id) by (by destruct (_ && _)). by rewrite Hid, Z.eqb_refl. }
    destruct Hhe as [H1 H2 H3 H4 H5 H6]. destruct closed.
    + split; cbn [ex_host ex_process ex_log ex_began ex_lost]; [done|by rewrite Hnext| | |done|].
      * intros r' Hr' Hid'. rewrite E in Hid'. destruct (Hone r' Hr' Hid') as (r & Hr & Hid & ->).
        destruct (H3 r Hr ltac:(congruence)) as (Hn & Hb' & Hc). destruct (running r) eqn:Er.
        -- split; [change (is_running (up_status u) = true -> names e (write_row u r)); congruence|].
           split; [done|]. by destruct (ex_lost e).
        -- split; [congruence|]. split; [done|]. by destruct (ex_lost e).
      * by destruct (ex_lost e).
      * intros l Hl. destruct (ex_lost e) as [l0|] eqn:El; [by apply H6|]. injection Hl as <-.
        exact (Hwhy e He E).
    + apply (held_same (w_db w)); [|by rewrite Hnext|by split]. intros r Hid.
      assert (Hnone : forall x, x ∈ db_runs (w_db w) -> jr_log_id x = id -> running x = false).
      { intros x Hx Hxid. apply not_true_iff_false. intros Hrx. symmetry in Hb. rewrite <-not_true_iff_false in Hb.
        apply Hb, existsb_exists. exists x. split; [by apply list_elem_of_In|]. by rewrite Hxid, Z.eqb_refl, Hrx. }
      split.
      * intros Hr. rewrite Hrows. apply list_elem_of_fmap. exists r. split; [|done].
        rewrite (Hnone r Hr) by congruence. by rewrite andb_false_r.
      * intros Hr. destruct (Hone r Hr ltac:(congruence)) as (x & Hx & Hxid & ->). by rewrite (Hnone x Hx Hxid).
Qed.
(** What the archive takes is lost to the run. *)
Lemma archive_takes now days size mb d d' n : store_ok d -> archive_old_job_runs now days size mb d = Some (d', n) ->
  forall r, r ∈ db_runs d -> r ∈ db_runs d' \/ str_lt (jr_created_at r) (iso_text (now - seconds (days * 86400))) = true.
Proof.
  intros (Hnd & _) H r Hr. unfold archive_old_job_runs in H. destruct (_ <=? _); [simplify_eq; by left|].
  destruct (archive_loop_moves _ _ _ _ _ _ _ _ _ H Hnd) as (out & outq & (Hp & _ & _ & _ & Hold & _) & _).
  rewrite <-Hp in Hr. apply elem_of_app in Hr as [?|Hout]; [by left|right]. rewrite list.Forall_forall in Hold. by apply Hold.
Qed.
Lemma archive_adds_none now days size mb d d' n r : store_ok d -> archive_old_job_runs now days size mb d = Some (d', n) ->
  r ∈ db_runs d' -> r ∈ db_runs d.
Proof.
  intros (Hnd & _) H Hr. unfold archive_old_job_runs in H. destruct (_ <=? _); [by simplify_eq|].
  destruct (archive_loop_moves _ _ _ _ _ _ _ _ _ H Hnd) as (out & outq & (Hp & _) & _).
  rewrite <-Hp. apply elem_of_app. by left.
Qed.
(** A reaper does not close the row of a run that goes on beside it. *)
Lemma reaper_is_elsewhere w me is_pid_alive timeouts now row v e : live_ok w -> row ∈ w_reads w -> e ∈ w_live w ->
  ex_log e = jr_log_id row -> verdict_of me is_pid_alive timeouts now row = Ok (Some v) ->
  (ex_host e = ps_host me -> is_pid_alive (ps_pid (ex_process e)) = true) -> ps_host me <> ex_host e.
Proof.
  intros [_ _ _ Hh] Hrow He Hid Hv Htrue Hsame. rewrite list.Forall_forall in Hh.
  destruct (Hh e He) as [Hhost _ _ _ Hreads _]. specialize (Hreads row Hrow (eq_sym Hid)).
  unfold verdict_of in Hv. destruct (timeouts (jr_job_code row)) as [limit|]; [|done].
  destruct (decide (limit = 0)) as [->|Hl]; [done|].
  assert (Hv' : match run_anchor (Some (row_dict row)) with
      | Some started => q ← question me is_pid_alive row limit (whole_seconds (now - started));
          v ← reap_verdict q false;
          Ok (if rv_reap v then Some (whole_seconds (now - started), limit, rv_reason v) else None)
      | None => Ok None end = Ok (Some v)) by by destruct limit.
  clear Hv. destruct (run_anchor _) as [started|]; [|done]. unfold question in Hv'.
  rewrite Hreads, bind_ok in Hv'. cbn [fst snd] in Hv'. rewrite bind_ok in Hv'.
  match type of Hv' with context [reap_verdict ?q false] => set (q0 := q) in Hv' end.
  destruct (reap_verdict q0 false) as [vd|] eqn:Hvd; [|done]. rewrite bind_ok in Hv'.
  destruct (rv_reap vd) eqn:Hreap; [|done].
  pose proof (reap_verdict_table q0 false (Some (ps_pid (ex_process e))) (ex_host e) vd (Hreads _) Hvd) as [Htab _].
  apply Htab in Hreap as [Hm|[? _]]; [|done]. unfold owner_of in Hm.
  rewrite decide_False in Hm by done. rewrite decide_True in Hm by (cbn; congruence). cbn in Hm.
  rewrite Hsame, String.eqb_refl, Htrue in Hm by congruence. done.
Qed.
(** No client takes log ids back. *)
Lemma store_step_next d d' : store_step d d' -> db_next_log d <= db_next_log d'.
Proof.
  assert (Hw : forall l d1 d2, write_requests l d1 = Ok d2 -> db_next_log d1 <= db_next_log d2)
    by (intros l d1 d2 [-> _]%write_requests_ok; done).
  assert (Hf : forall A l (d1 : Db) (f : Db -> Db * A) x, f <$> write_requests l d1 = Ok x ->
      (forall d2, (f d2).1 = d2) -> db_next_log d1 <= db_next_log x.1).
  { intros A l d1 f x (d2 & H & ->)%fmap_ok Hfst. rewrite Hfst. by eapply Hw. }
  assert (Hins : forall now app by_ src note d1 x, insert_request now app by_ src note d1 = Ok x ->
      db_next_log d1 <= db_next_log x.1).
  { intros now app by_ src note d1 x. unfold insert_request. case_bool_decide; intros; by simplify_eq. }
  destruct 1 as [p now item i H|i u only b H|now days size mb n H|now app by_ src note a H
    |now app by_ src note a H|now i actor b H|now i o H|now ttl app o H|now i s note H|now i j H|i note H
    |now ttl n H|now n H].
  - apply insert_claim_exclusive in H as (_ & r & _ & _ & _ & H & _). lia.
  - apply update_keeps_ids in H as (_ & _ & H & _). lia.
  - unfold archive_old_job_runs in H. destruct (_ <=? _); [by simplify_eq|]. apply archive_loop_next in H as [H _]. lia.
  - by apply Hins in H.
  - unfold request_run in H. destruct (String.eqb _ ""); [done|]. destruct (pending_for _ d); [by simplify_eq|].
    destruct (insert_request _ _ _ _ _ d) as [x|] eqn:E; [|done]. simplify_eq. by apply Hins in E.
  - unfold cancel_request in H. destruct (List.find _ _); [|by simplify_eq].
    destruct (has_status _ _); [|by simplify_eq]. by apply Hf in H.
  - by apply Hf in H.
  - unfold claim, claim_seen in H. destruct (pending_for _ d); [|by simplify_eq].
    destruct (str_lt _ _); [|by apply Hf in H]. unfold _finish in H. by apply Hf in H.
  - by eapply Hw.
  - unfold mark_started in H. destruct (_ && _); [done|]. by eapply Hw.
  - by eapply Hw.
  - by apply Hf in H.
  - by apply Hf in H.
Qed.
Lemma lose_archived_same cutoff d e : let e' := lose_archived cutoff d e in
  ex_process e' = ex_process e /\ ex_code e' = ex_code e /\ ex_log e' = ex_log e /\ ex_began e' = ex_began e.
Proof. unfold lose_archived, lose. by destruct (_ && _). Qed.
Lemma lose_archived_lost cutoff d e :
  (ex_lost (lose_archived cutoff d e) = ex_lost e /\ (ex_lost e = None -> exists r, r ∈ db_runs d /\ jr_log_id r = ex_log e))
  \/ ex_lost e = None /\ ex_lost (lose_archived cutoff d e) = Some (ByArchive cutoff) /\ forall r, r ∈ db_runs d -> jr_log_id r <> ex_log e.
Proof.
  unfold lose_archived, lose. rewrite Z.eqb_refl, andb_true_r.
  destruct (existsb _ (db_runs d)) eqn:E; cbn [negb ex_lost].
  - left. split; [done|]. intros _. apply existsb_exists in E as (r & Hr%list_elem_of_In & Hid%Z.eqb_eq). by exists r.
  - destruct (ex_lost e) eqn:El; [by left|right]. split; [done|]. split; [done|]. intros r Hr Hid.
    rewrite <-not_true_iff_false in E. apply E, existsb_exists. exists r. split; [by apply list_elem_of_In|by apply Z.eqb_eq].
Qed.
Lemma archive_held w now days size mb d n : live_ok w -> archive_old_job_runs now days size mb (w_db w) = Some (d, n) ->
  live_ok (mkWorld d (map (lose_archived (iso_text (now - seconds (days * 86400))) d) (w_live w)) (w_reads w)).
Proof.
  intros [Hst Hnd Hrd Hh] H. set (cutoff := iso_text _).
  assert (Hstep : store_step (w_db w) d) by by eapply step_archive.
  pose proof (store_step_next _ _ Hstep) as Hnext. split; cbn [w_db w_live w_reads].
  - by eapply store_step_ok.
  - rewrite map_map. rewrite (map_ext _ ex_log); [done|]. intros e. by destruct (lose_archived_same cutoff d e) as (_ & _ & ? & _).
  - eapply list.Forall_impl; [exact Hrd|]. intros r ?. cbn in *. lia.
  - apply list.Forall_fmap. apply list.Forall_forall. intros e He. cbn. rewrite list.Forall_forall in Hh.
    destruct (Hh e He) as [H1 H2 H3 H4 H5 H6]. destruct (lose_archived_same cutoff d e) as (Ep & Ec & Eg & Eb).
    pose proof (lose_archived_lost cutoff d e) as Hl. set (e' := lose_archived cutoff d e) in *.
    assert (Eh : ex_host e' = ex_host e) by (unfold ex_host; by rewrite Ep).
    assert (Hnames : forall r, names e' r <-> names e r) by (intros r; unfold names; by rewrite Ep, Eh).
    split; [by rewrite Eh|rewrite Eg; lia| | | |].
    + intros r Hr Hid. rewrite Eg in Hid. pose proof (archive_adds_none _ _ _ _ _ _ _ r Hst H Hr) as Hr0.
      destruct (H3 r Hr0 Hid) as (Hn & Hb & Hc). rewrite Hnames, Eb, Ec, Eh. split; [done|]. split; [done|].
      destruct Hl as [[-> _]|(Hl1 & _ & Hno)]; [done|]. by destruct (Hno r Hr Hid).
    + rewrite Eg. destruct Hl as [[-> Hl]|(_ & -> & _)]; [done|discriminate].
    + intros r. rewrite Eg, Hnames. apply H5.
    + intros l Hlost. destruct Hl as [[Hl _]|(Hl1 & Hl & Hno)].
      * rewrite Hl in Hlost. specialize (H6 l Hlost). unfold loss_ok in *. by rewrite Eh, Eb.
      * rewrite Hl in Hlost. injection Hlost as <-. cbn. rewrite Eb. destruct (H4 Hl1) as (r & Hr & Hid).
        destruct (H3 r Hr Hid) as (_ & <- & _).
        destruct (archive_takes _ _ _ _ _ _ _ Hst H r Hr) as [Hin|?]; [|done]. by destruct (Hno r Hin).
Qed.
Lemma run_step_ok w w' : run_step w w' -> live_ok w -> live_ok w'.
Proof.
  intros Hstep Hok. pose proof Hok as [Hst Hnd Hrd Hh].
  destruct Hstep as [p code message metadata now d id Hk Hpid Hhost H|e He|e u d b He Hrun H|prefix
    |me is_pid_alive timeouts now at_ row elapsed limit reason message d closed Hrow Htrue Hv H
    |j row a now d closed Hrow Hstop H|now days size mb d n H|d H Hkeep].
  - by eapply start_held.
  - destruct (others_run_ok (ex_log e) w Hok) as [H1 H2]. split; [done|done|done|].
    apply list.Forall_forall. intros x [Hx _]%H2. rewrite list.Forall_forall in Hh. by apply Hh.
  - destruct (others_run_ok (ex_log e) w Hok) as [H1 H2]. pose proof (update_rows _ _ _ _ _ _ H) as [_ Hnext].
    split; cbn; [by eapply update_run_store_ok|done|by rewrite Hnext|].
    apply list.Forall_forall. intros x [Hx Hne]%H2. rewrite list.Forall_forall in Hh.
    apply (held_same (w_db w)); [|by rewrite Hnext|by apply Hh]. intros r Hid. eapply update_other; [exact H|congruence].
  - assert (Hread : forall r, r ∈ running_with_prefix prefix (w_db w) -> r ∈ db_runs (w_db w) /\ running r = true).
    { intros r [Hr _]%elem_of_filter_bool. by apply elem_of_filter_bool in Hr. }
    split; cbn; [done|done| |].
    + apply list.Forall_app. split; [done|]. apply list.Forall_forall. intros r [Hr _]%Hread. by apply row_known.
    + eapply list.Forall_impl; [exact Hh|]. intros e [H1 H2 H3 H4 H5 H6]. split; try done.
      intros r' [Hr'|[Hr' Hrun]%Hread]%elem_of_app Hid'; [by apply H5|]. by apply (H3 r' Hr' Hid').
  - eapply lose_held; [done| |exact H|]; [done|]. intros e He Hid. cbn.
    eapply reaper_is_elsewhere; [exact Hok|exact Hrow|exact He|exact Hid|exact Hv|]. by apply Htrue.
  - by eapply lose_held; [done| |exact H|].
  - by eapply archive_held.
  - split; cbn; [by eapply store_step_ok|done| |].
    + pose proof (store_step_next _ _ H) as Hn. eapply list.Forall_impl; [exact Hrd|]. intros r ?. cbn in *. lia.
    + apply list.Forall_forall. intros e He. rewrite list.Forall_forall in Hh.
      apply (held_same (w_db w)); [|by apply store_step_next|by apply Hh]. intros r. by apply Hkeep.
Qed.

Lemma live_ok_always d0 w : store_ok d0 -> rtc run_step (mkWorld d0 [] []) w -> live_ok w.
Proof.
  intros Hst Hr. assert (live_ok (mkWorld d0 [] [])) as H0 by (split; try done; constructor).
  revert H0. generalize dependent (mkWorld d0 [] []). induction 1; eauto using run_step_ok.
Qed.
Lemma same_claim_same_row l r1 r2 k : NoDup (claims l) -> r1 ∈ l -> r2 ∈ l -> claim_of r1 = Some k -> claim_of r2 = Some k -> r1 = r2.
Proof.
  intros Hnd. induction l as [|x l IH]; [by intros ?%not_elem_of_nil|]. cbn in Hnd.
  assert (Hin : forall r, r ∈ l -> claim_of r = Some k -> k ∈ claims l).
  { intros r Hr Hk. unfold claims. apply list_elem_of_omap. by exists r. }
  intros [->|H1]%list.elem_of_cons [->|H2]%list.elem_of_cons Hk1 Hk2; [done| | |].
  - rewrite Hk1 in Hnd. apply list.NoDup_cons in Hnd as [Hn _]. by destruct Hn; apply (Hin r2).
  - rewrite Hk2 in Hnd. apply list.NoDup_cons in Hnd as [Hn _]. by destruct Hn; apply (Hin r1).
  - apply IH; try done. destruct (claim_of x); [by apply list.NoDup_cons in Hnd as [_ ?]|done].
Qed.

(** C6: Runs, reapers, stops, the archive and other clients change the store, one call at a
    time, where other clients leave the row of a run that goes on as it is: when two runs of one
    job go on at once on one host, one of them lost its row to a stop that did not stop it, to a
    reaper of another host, or to an archive whose cutoff is later than its start. *)
Theorem two_runs_of_a_job_need_a_lost_claim d0 w e1 e2 : store_ok d0 -> rtc run_step (mkWorld d0 [] []) w ->
  e1 ∈ w_live w -> e2 ∈ w_live w -> ex_log e1 <> ex_log e2 ->
  ex_code e1 = ex_code e2 -> ex_host e1 = ex_host e2 ->
  exists e, (e = e1 \/ e = e2)
    /\ (ex_lost e = Some ByStop \/ (exists host, ex_lost e = Some (ByReaper host) /\ host <> ex_host e)
        \/ exists cutoff, ex_lost e = Some (ByArchive cutoff) /\ str_lt (ex_began e) cutoff = true).
Proof.
  intros Hst Hr H1 H2 Hne Hcode Hhost. destruct (live_ok_always d0 w Hst Hr) as [Hok _ _ Hh].
  rewrite list.Forall_forall in Hh. pose proof (Hh e1 H1) as [_ _ Hr1 Ht1 _ Hl1]. pose proof (Hh e2 H2) as [_ _ Hr2 Ht2 _ Hl2].
  destruct (ex_lost e1) as [l1|] eqn:E1; [exists e1; split; [by left|]; rewrite E1; specialize (Hl1 l1 eq_refl); destruct l1; eauto|].
  destruct (ex_lost e2) as [l2|] eqn:E2; [exists e2; split; [by right|]; rewrite E2; specialize (Hl2 l2 eq_refl); destruct l2; eauto|].
  destruct (Ht1 eq_refl) as (r1 & Hin1 & Hid1), (Ht2 eq_refl) as (r2 & Hin2 & Hid2).
  exfalso. apply Hne. rewrite <-Hid1, <-Hid2. f_equal. destruct Hok as (_ & _ & Hnd & _).
  eapply (same_claim_same_row _ _ _ _ Hnd Hin1 Hin2); [by apply Hr1|]. rewrite Hcode, Hhost. by apply Hr2.
Qed.

(** ** A stop that did not stop *)
Definition erp : ScheduledJob := nightly "erp".
Definition still_there : StopAnswer := mkStop false "session 61 is still rolling back" "1 process(es), 0 session(s) ended" [].
Definition begin_run (p : Process) (n : nat) (d : Db) : result store_error (Db * Z) :=
  start_run p (job_code erp) "Backup erp/full started." (job_metadata erp) (evening n) d.
Definition after {A} (r : result store_error (Db * A)) : Db := match r with Ok (d, _) => d | Err _ => empty_db end.
Definition first_running : Db := after (begin_run (worker "node-1" 41) 0 empty_db).
Definition asked_to_stop : result pass_error (list Stop) * Pass :=
  stop_backup_run evening (fun _ d => d) (fun _ => still_there) [erp] "erp" (mkPass 0 first_running).
(** The row the stop reads and closes. *)
Definition stop_read : JobRow :=
  default (started_row (worker "" 0) "" "" "" [] 0 empty_db) (head (fetch_running_job_runs first_running)).

(** While a backup runs, its job is refused a second run; after a stop that answered it did
    not stop it, the row is closed all the same and the second run starts. *)
Lemma a_stop_that_failed_frees_the_claim :
  begin_run (worker "node-1" 42) 1 first_running = Err (RunAlreadyClaimed (job_code erp) "node-1")
  /\ match asked_to_stop with
     | (Ok [st], p) => st_stopped st = false /\ st_row_closed st = true
         /\ exists d id, begin_run (worker "node-1" 42) 2 (store p) = Ok (d, id)
     | _ => False
     end.
Proof.
  split; [vm_compute; reflexivity|]. vm_compute. split; [done|]. split; [done|]. do 2 eexists. reflexivity.
Qed.

(** The archive takes rows by their age: a backup that goes on when its row is old enough has no
    claim any more, and a second run of its job starts. *)
Lemma an_archived_run_frees_its_claim :
  match archive_old_job_runs (evening 0 + seconds (16 * 86400)) 15 20000 None first_running with
  | Some (d, n) => n = 1%nat /\ exists d' id, begin_run (worker "node-1" 42) 2 d = Ok (d', id)
  | None => False
  end.
Proof. vm_compute. split; [done|]. do 2 eexists. reflexivity. Qed.

Definition both_running : World :=
  let d1 := after (update_job_run 1 (stop_update erp stop_read still_there (evening 1)) true first_running) in
  mkWorld (after (begin_run (worker "node-1" 42) 2 d1))
    [mkExec (worker "node-1" 41) (job_code erp) 1 (iso_text (evening 0)) (Some ByStop); mkExec (worker "node-1" 42) (job_code erp) 2 (iso_text (evening 2)) None]
    [stop_read].
Lemma both_running_reached : rtc run_step (mkWorld empty_db [] []) both_running.
Proof.
  eapply rtc_l.
  { apply (run_starts _ (worker "node-1" 41) (job_code erp) "Backup erp/full started." (job_metadata erp) (evening 0)
      first_running 1); [vm_compute; reflexivity|done|done|vm_compute; reflexivity]. }
  eapply rtc_l; [apply (rows_read _ BACKUP_JOB_PREFIX)|].
  eapply rtc_l.
  { apply (row_stopped _ erp stop_read still_there (evening 1)
      (after (update_job_run 1 (stop_update erp stop_read still_there (evening 1)) true first_running)) true).
    - apply (list_elem_of_lookup_2 _ 0). vm_compute. reflexivity.
    - discriminate.
    - vm_compute. reflexivity. }
  eapply rtc_l.
  { apply (run_starts _ (worker "node-1" 42) (job_code erp) "Backup erp/full started." (job_metadata erp) (evening 2)
      (w_db both_running) 2); [vm_compute; reflexivity|done|done|vm_compute; reflexivity]. }
  match goal with |- rtc _ ?a ?b => replace a with b by (vm_compute; reflexivity) end. apply rtc_refl.
Qed.
Theorem two_witness :
  exists e, (e = mkExec (worker "node-1" 41) (job_code erp) 1 (iso_text (evening 0)) (Some ByStop) \/ e = mkExec (worker "node-1" 42) (job_code erp) 2 (iso_text (evening 2)) None)
    /\ (ex_lost e = Some ByStop \/ (exists host, ex_lost e = Some (ByReaper host) /\ host <> ex_host e)
        \/ exists cutoff, ex_lost e = Some (ByArchive cutoff) /\ str_lt (ex_began e) cutoff = true).
Proof.
  apply (two_runs_of_a_job_need_a_lost_claim empty_db both_running); [exact empty_store_ok|exact both_running_reached|..].
  - by left.
  - by right; left.
  - discriminate.
  - reflexivity.
  - reflexivity.
Defined.

(** ** Another host's run *)
Lemma running_verdict_due w row now started limit d :
  run_anchor row = Some started -> _row_status row = "running" -> tw_repeat_interval w <> Some MANUAL_ONLY ->
  tw_timeout w = Some limit -> limit <> 0 -> started + seconds limit <= now -> dd_running_blocks d = true ->
  dv_due (explain_due (due_rule (Some w) row d) now) = true.
Proof.
  intros Hanchor Hst Hrep Hlim Hl0 Hnow Hblocks. unfold explain_due.
  assert (Hstatus : due_status (due_rule (Some w) row d) = "running").
  { unfold due_status, due_rule. cbn [dr_last_status]. rewrite Hst. vm_compute. reflexivity. }
  rewrite Hstatus. cbn [dr_repeat dr_last_run dr_running_blocks due_rule default]. rewrite Hanchor, Hblocks.
  rewrite bool_decide_false by done.
  replace (bool_decide ("running" ∈ ERROR_STATUSES)) with false by (vm_compute; reflexivity).
  rewrite (bool_decide_true ("running" = "running")) by done. cbn [andb].
  assert (Hdue : forall elapsed, dv_due (_elapsed_verdict started elapsed (due_stale_grace (due_rule (Some w) row d)) now
      "running within timeout") = true).
  { intros elapsed. unfold _elapsed_verdict, due_stale_grace, due_rule. cbn [dr_timeout dr_timeout_disabled default from_option id].
    rewrite Hlim. rewrite bool_decide_false by congruence. cbn [or_else default from_option id].
    by rewrite (proj2 (Z.leb_le _ _) Hnow). }
  cbv zeta. case_bool_decide; apply Hdue.
Qed.

(** The run of another host, past its timeout but within the grace of another host's run. *)
Record overdue (me : Process) (r : JobRow) (limit started now : Z) : Prop := {
  od_running : jr_status r = "RUNNING";
  od_anchor : run_anchor (Some (row_dict r)) = Some started;
  od_owner : exists pid host, claim_owner (Some (jr_metadata r)) (row_host (Some (row_dict r))) = Ok (Some pid, host)
    /\ host <> "" /\ host <> ps_host me;
  od_node : claim_node (Some (jr_metadata r)) <> ps_node me;
  od_limit : 0 < limit;
  od_age : started + seconds limit <= now < started + seconds (limit + FOREIGN_HOST_GRACE_SECONDS) }.
Lemma overdue_is_left me alive timeouts r limit started now : overdue me r limit started now ->
  timeouts (jr_job_code r) = Some limit -> verdict_of me alive timeouts now r = Ok None.
Proof.
  intros [_ Hanchor (pid & host & Ho & Hh & Hme) Hnode Hl [Hold Hyoung]] Ht. unfold verdict_of. rewrite Ht.
  destruct limit as [|l|l]; [lia| |lia]. rewrite Hanchor. unfold question. rewrite Ho, bind_ok.
  cbn [fst snd]. rewrite bind_ok.
  match goal with |- context [reap_verdict ?q false] => set (q0 := q) end.
  destruct (reap_verdict q0 false) as [v|e] eqn:Hv.
  2: { unfold reap_verdict, _owner_verdict in Hv. change (rq_metadata q0) with (Some (jr_metadata r)) in Hv.
       change (rq_host_fallback q0) with (row_host (Some (row_dict r))) in Hv. rewrite Ho, bind_ok in Hv. done. }
  rewrite bind_ok. destruct (rv_reap v) eqn:Hreap; [|done]. exfalso.
  pose proof (reap_verdict_table q0 false (Some pid) host v Ho Hv) as [Htab _].
  apply Htab in Hreap as [Hm|[? _]]; [|done]. unfold owner_of in Hm.
  rewrite decide_False in Hm by done. rewrite decide_False in Hm by done.
  rewrite decide_False in Hm by (intros [_ ?]; done). destruct Hm as [_ Hm]. cbn in Hm.
  rewrite Z.max_l in Hm by lia. unfold seconds, whole_seconds, usec in *.
  assert (Z.quot (now - started) 1000000 < Z.pos l + FOREIGN_HOST_GRACE_SECONDS); [|lia].
  apply Z.quot_lt_upper_bound; lia.
Qed.

(** A run of another host that is past its timeout but within the hour another host is
    given is not reaped, yet its job is due, and starts a second time on this host beside it;
    only a forced pass sees that it runs. *)
Lemma a_foreign_run_is_due_before_it_is_reaped me alive timeouts j latest_runs now local_now r limit started d :
  overdue me r limit started now -> jr_job_code r = job_code j -> latest_runs (job_code j) = Some r ->
  timeouts (job_code j) = Some limit -> tw_timeout (sj_window j) = Some limit ->
  tw_repeat_interval (sj_window j) <> Some MANUAL_ONLY -> is_time_window_open (Some (sj_window j)) local_now = true ->
  NoDup (claims (db_runs d)) -> Forall (fun x => forall k, claim_of x <> Some (k, ps_host me)) (db_runs d) -> r ∈ db_runs d ->
  verdict_of me alive timeouts now r = Ok None
  /\ is_due (job_code j) (sj_window j) latest_runs now local_now = true
  /\ is_running_job (job_code j) latest_runs = true
  /\ exists d', start_run me (job_code j) ("Backup " +:+ label j +:+ " started.") (job_metadata j) now d = Ok (d', db_next_log d)
       /\ r ∈ db_runs d'.
Proof.
  intros Hod Hcode Hlat Htime Hlim Hrep Hopen Hnd Hfree Hr. pose proof Hod as [Hst Hanchor _ _ Hl [Hold _]].
  split; [by eapply overdue_is_left; [|rewrite Hcode]|]. split; [|split].
  - unfold is_due. rewrite Hopen, Hlat. cbn [andb]. unfold due_from_row. change (String.eqb "" "") with true. cbv iota.
    eapply running_verdict_due; try done; [|lia]. unfold _row_status, row_dict. cbn [fmap option_fmap option_map assoc].
    vm_compute (String.eqb _ _). cbv iota. rewrite Hst. vm_compute. reflexivity.
  - unfold is_running_job. rewrite Hlat, Hst. apply running_word.
  - destruct (job_code_claimed j) as [k Hk]. rewrite (start_run_eq me (job_code j) k _ (job_metadata j) now d Hk eq_refl).
    match goal with |- context [claims_unique ?l] => assert (claims_unique l = true) as -> end.
    2: { eexists. split; [reflexivity|]. cbn. apply elem_of_app. by left. }
    apply bool_decide_eq_true_2. rewrite claims_app. apply list.NoDup_app. split; [done|].
    split; [|apply NoDup_singleton]. intros x Hx Hx'%list_elem_of_singleton. subst x.
    apply list_elem_of_omap in Hx as (y & Hy & E). rewrite list.Forall_forall in Hfree. by apply (Hfree y Hy k).
Qed.
Definition half_hour : TimeWindow :=
  Build_TimeWindow None None None None None None None None None None (Some 86400) None (Some 1800) None.
Definition erp_timed : ScheduledJob := mkJob "erp" "full" "srv-1" half_hour true false.
Definition other_node : Process := Build_Process "node-2" 77 "n2" (fun _ => "").
Lemma erp_overdue : overdue other_node stop_read 1800 (evening 0) (evening 0 + seconds 2000).
Proof.
  split; try (vm_compute; reflexivity); try (vm_compute; split; congruence); try (vm_compute; congruence).
  exists 41, "node-1". split; [vm_compute; reflexivity|done].
Qed.
Theorem foreign_witness :
  verdict_of other_node (fun _ => false) (fun _ => Some 1800) (evening 0 + seconds 2000) stop_read = Ok None
  /\ is_due (job_code erp_timed) half_hour (fetch_latest_job_runs_by_job_code first_running)
       (evening 0 + seconds 2000) (Build_wall 2026 9 21 20 33) = true
  /\ is_running_job (job_code erp_timed) (fetch_latest_job_runs_by_job_code first_running) = true
  /\ exists d', start_run other_node (job_code erp_timed) "Backup erp/full started." (job_metadata erp_timed)
       (evening 0 + seconds 2000) first_running = Ok (d', 2) /\ stop_read ∈ db_runs d'.
Proof.
  apply (a_foreign_run_is_due_before_it_is_reaped other_node (fun _ => false) (fun _ => Some 1800) erp_timed
    (fetch_latest_job_runs_by_job_code first_running) (evening 0 + seconds 2000) (Build_wall 2026 9 21 20 33)
    stop_read 1800 (evening 0) first_running erp_overdue); try (vm_compute; reflexivity); try discriminate.
  - apply (bool_decide_unpack _). vm_compute. exact I.
  - constructor; [intros k; vm_compute; congruence|constructor].
  - apply (list_elem_of_lookup_2 _ 0). vm_compute. reflexivity.
Defined.

(** ** A job without a timeout *)
(** No reaper looks at its rows, and the row of a run that died keeps the claim of its host. *)
Lemma no_timeout_is_never_reaped me alive timeouts now r :
  timeouts (jr_job_code r) = None \/ timeouts (jr_job_code r) = Some 0 -> verdict_of me alive timeouts now r = Ok None.
Proof. unfold verdict_of. by intros [->| ->]. Qed.
Lemma held_claim_refuses me j now d r k : NoDup (claims (db_runs d)) -> r ∈ db_runs d ->
  clean_key (Some (job_code j)) = Some k -> claim_of r = Some (k, ps_host me) ->
  start_run me (job_code j) ("Backup " +:+ label j +:+ " started.") (job_metadata j) now d
  = Err (RunAlreadyClaimed (job_code j) (ps_host me)).
Proof.
  intros Hnd Hr Hk Hc. rewrite (start_run_eq me (job_code j) k _ (job_metadata j) now d Hk eq_refl).
  match goal with |- context [claims_unique ?l] => assert (claims_unique l = false) as -> end; [|done].
  apply bool_decide_eq_false_2. rewrite claims_app. intros (_ & Hd & _)%list.NoDup_app.
  apply (Hd (k, ps_host me)); [|by left]. unfold claims. apply list_elem_of_omap. by exists r.
Qed.
