(* ===== verification/SqlText.v ===== *)
(** * SQL text that values are bound into ([lib/sql_text.py]).

    A text is the list of its characters; what a scanner has read lies before it, the nearest
    character first.  Letters and digits are those of ASCII. *)

From S2P Require Import Prelude Py.

Inductive sql_error : Type :=
| BadName (name : string) | BadType (name type : string) | MissingParameter (name : string)
| NotAnObject | NamedTwice (name : string) | NotScalar (name : string)
| StyleUnknown (engine style : string) | QuestionMark | UnsafeDefine (name marker : string).

(** ** Words *)
Definition is_name_start (a : ascii) : bool := is_alpha a || bool_decide (a = "_"%char).
Definition is_word (a : ascii) : bool := is_alnum a || bool_decide (a = "_"%char).
Definition is_name_char (a : ascii) : bool := is_word a || bool_decide (a ∈ chars "$#").
(** [_SQL_IDENTIFIER_RE]: a letter or underscore, then at most 63 of letters, digits, underscores. *)
Definition is_identifier (s : string) : bool :=
  match chars s with
  | a :: l => is_name_start a && forallb is_word l && (length l <=? 63)%nat
  | [] => false
  end.

(** ** Code, comments and quoted text *)
Inductive kind : Type := Code | Comment | Quoted.
(** The length up to the first place of [sub], and past it. *)
Fixpoint find_end (sub l : list ascii) : option nat :=
  if is_prefix sub l then Some (length sub)
  else match l with [] => None | _ :: l => S <$> find_end sub l end.
Definition until (sub l : list ascii) : nat := default (length l) (find_end sub l).
(** The length of a quoted text after its opening quote; a doubled quote, and with
    [backslash] an escaped character, do not end it. *)
Fixpoint quoted_length (backslash : bool) (q : ascii) (l : list ascii) : nat :=
  match l with
  | [] => O
  | a :: l =>
      if backslash && bool_decide (a = "\"%char) then
        match l with [] => 1%nat | _ :: l => S (S (quoted_length backslash q l)) end
      else if bool_decide (a = q) then
        match l with
        | b :: l => if bool_decide (b = q) then S (S (quoted_length backslash q l)) else 1%nat
        | [] => 1%nat
        end
      else S (quoted_length backslash q l)
  end.
Definition _word_before (more : string) (before : list ascii) : bool :=
  match before with a :: _ => is_alnum a || bool_decide (a ∈ chars more) | [] => false end.
Definition escapes (more : string) (before : list ascii) : bool :=
  match before with a :: before => bool_decide (a ∈ chars "eE") && negb (_word_before more before) | [] => false end.
(** [_DOLLAR_TAG_RE] at a dollar: the length of [$tag$]. *)
Definition dollar_tag (l : list ascii) : option nat :=
  match l with
  | d :: l =>
      let name := match l with a :: _ => if is_name_start a then take_while is_word l else [] | [] => [] end in
      match drop (length name) l with
      | e :: _ => if bool_decide (d = "$"%char) && bool_decide (e = "$"%char) then Some (S (S (length name))) else None
      | [] => None
      end
  | [] => None
  end.
Definition dollar_quoted (l : list ascii) : option nat :=
  n ← dollar_tag l; Some (n + until (take n l) (drop n l))%nat.
Definition closing_quote (open : ascii) : ascii :=
  match assoc (String open "") [("[", "]"); ("(", ")"); ("{", "}"); ("<", ">")] with
  | Some (String c _) => c
  | _ => open
  end.
Definition quote : ascii := "'"%char.
(** [q'[ ... ]'] of Oracle, at the letter. *)
Definition q_quoted (before l : list ascii) : option nat :=
  match l with
  | a :: b :: c :: rest =>
      if bool_decide (a ∈ chars "qQ") && bool_decide (b = quote)
         && (negb (_word_before "_$#" before)
             || match before with x :: before => bool_decide (x ∈ chars "nN") && negb (_word_before "_$#" before) | [] => false end)
      then Some (3 + until [closing_quote c; quote] rest)%nat
      else None
  | _ => None
  end.
(** A comment or quoted text that starts here, and its length. *)
Definition piece_at (engine : string) (before l : list ascii) : option (kind * nat) :=
  if is_prefix (chars "--") l then
    Some (Comment, match find_end [chr 10] l with Some n => pred n | None => length l end)
  else if is_prefix (chars "/*") l then Some (Comment, 2 + until (chars "*/") (drop 2 l))%nat
  else match (if String.eqb engine "oracle" then q_quoted before l else None) with
  | Some n => Some (Quoted, n)
  | None =>
      match l with
      | a :: rest =>
          if bool_decide (a = quote) || bool_decide (a = chr 34) then
            Some (Quoted, S (quoted_length (bool_decide (a = quote) && String.eqb engine "postgresql" && escapes "_$#" before) a rest))
          else if String.eqb engine "postgresql" && bool_decide (a = "$"%char) && negb (_word_before "_$#" before) then
            (fun n => (Quoted, n)) <$> dollar_quoted l
          else None
      | [] => None
      end
  end.
Definition flush (code : list ascii) : list (kind * list ascii) := if bool_decide (code = []) then [] else [(Code, reverse code)].
Fixpoint pieces (fuel : nat) (engine : string) (before code l : list ascii) : list (kind * list ascii) :=
  match fuel, l with
  | S fuel, a :: rest =>
      match piece_at engine before l with
      | Some (k, n) => flush code ++ (k, take n l) :: pieces fuel engine (reverse (take n l) ++ before) [] (drop n l)
      | None => pieces fuel engine (a :: before) (a :: code) rest
      end
  | _, _ => flush code
  end.
Definition engine_name (db_type : string) : string := lower (strip db_type).
Definition _code_pieces (sql db_type : string) : list (kind * list ascii) :=
  pieces (length (chars sql)) (engine_name db_type) [] [] (chars sql).

(** ** Names to bind *)
(** A chunk of code as its characters and the names of [:name]. *)
Inductive token : Type := Char (a : ascii) | Bind (name : list ascii).
Definition binds_after (prev : option ascii) : bool :=
  match prev with Some p => negb (is_word p || bool_decide (p ∈ chars ":$#")) | None => true end.
Fixpoint tokens (fuel : nat) (prev : option ascii) (l : list ascii) : list token :=
  match fuel, l with
  | S fuel, a :: rest =>
      let name := match rest with b :: _ => if is_name_start b then take_while is_name_char rest else [] | [] => [] end in
      if bool_decide (a = ":"%char) && binds_after prev && negb (bool_decide (name = [])) then
        Bind name :: tokens fuel (list.last name) (drop (length name) rest)
      else Char a :: tokens fuel (Some a) rest
  | _, _ => []
  end.
Definition chunk_tokens (l : list ascii) : list token := tokens (length l) None l.
Definition bound_name (t : token) : option string := match t with Bind n => Some (lower (text n)) | Char _ => None end.
Definition named_placeholders (sql db_type : string) : list string :=
  mjoin (map (fun p => match p.1 with Code => omap bound_name (chunk_tokens p.2) | _ => [] end) (_code_pieces sql db_type)).

(** ** Binding values *)
Definition style_known (engine style : string) : bool :=
  bool_decide ((engine, style) ∈ [("oracle", "numeric"); ("postgresql", "format"); ("postgresql", "qmark")]).
Definition index_of (name : string) (l : list string) : nat :=
  match list_find (eq name) l with Some (i, _) => i | None => length l end.
Definition placeholder (sign : string) (n : nat) : list ascii := chars (sign +:+ str_of_int (Z.of_nat n)).
Definition sign_of (engine : string) : string := if String.eqb engine "postgresql" then "$" else ":".
Definition double_percent (l : list ascii) : list ascii :=
  mjoin (map (fun a => if bool_decide (a = "%"%char) then [a; a] else [a]) l).
Definition has_char (a : ascii) (l : list ascii) : bool := bool_decide (a ∈ l).

Section binding.
(** Values are moved, and never looked at. *)
Context {V : Type}.
Definition lowered (values : list (string * V)) : list (string * V) :=
  fold_left (fun d p => assoc_set (lower p.1) p.2 d) values [].
(** What was bound so far, and the names PostgreSQL has numbered. *)
Record Bound := mkBound { bound : list V; numbered : list string }.
(** [_write]. *)
Definition write (engine : string) (wanted : list (string * V)) (b : Bound) (name : list ascii) : list ascii * Bound :=
  let key := lower (text name) in
  match assoc key wanted with
  | None => (":"%char :: name, b)
  | Some value =>
      if String.eqb engine "postgresql" then
        if bool_decide (key ∈ numbered b) then (placeholder (sign_of engine) (S (index_of key (numbered b))), b)
        else (placeholder (sign_of engine) (S (length (numbered b))), mkBound (bound b ++ [value]) (numbered b ++ [key]))
      else (placeholder (sign_of engine) (S (length (bound b))), mkBound (bound b ++ [value]) (numbered b))
  end.
Fixpoint write_tokens (engine : string) (wanted : list (string * V)) (b : Bound) (l : list token) : list ascii * Bound :=
  match l with
  | [] => ([], b)
  | Char a :: l => let (out, b) := write_tokens engine wanted b l in (a :: out, b)
  | Bind name :: l =>
      let (here, b) := write engine wanted b name in
      let (out, b) := write_tokens engine wanted b l in (here ++ out, b)
  end.
Definition write_chunk (engine style : string) (wanted : list (string * V)) (b : Bound) (k : kind) (chunk : list ascii)
    : result sql_error (list ascii * Bound) :=
  match k with
  | Quoted => Ok (chunk, b)
  | _ =>
      if String.eqb style "qmark" && has_char "?" chunk && negb (is_prefix (chars "--") chunk) then Err QuestionMark
      else
        let chunk := if String.eqb style "format" then double_percent chunk else chunk in
        Ok (match k with Code => write_tokens engine wanted b (chunk_tokens chunk) | _ => (chunk, b) end)
  end.
Fixpoint write_pieces (engine style : string) (wanted : list (string * V)) (b : Bound)
    (l : list (kind * list ascii)) : result sql_error (list ascii * Bound) :=
  match l with
  | [] => Ok ([], b)
  | (k, chunk) :: l =>
      '(here, b) ← write_chunk engine style wanted b k chunk;
      '(out, b) ← write_pieces engine style wanted b l;
      Ok (here ++ out, b)
  end.
Definition binds_any (wanted : list (string * V)) (sql db_type : string) : bool :=
  existsb (fun n => match assoc n wanted with Some _ => true | None => false end) (named_placeholders sql db_type).
Definition bind_named_values (statement : string) (values : list (string * V)) (db_type style : string)
    : result sql_error (string * list V) :=
  let engine := engine_name db_type in
  let wanted := lowered values in
  if negb (binds_any wanted statement engine) then Ok (statement, [])
  else if negb (style_known engine style) then Err (StyleUnknown engine style)
  else
    '(out, b) ← write_pieces engine style wanted (mkBound [] []) (_code_pieces statement engine);
    Ok (text out, bound b).
End binding.
Arguments Bound : clear implicits.

(** ** [DECLARE] lines *)
Definition SQL_PARAMETER_TYPES : list string :=
  ["bit"; "tinyint"; "smallint"; "int"; "bigint"; "decimal"; "numeric"; "float"; "real"; "money"; "date"; "time";
   "datetime"; "datetime2"; "smalldatetime"; "char"; "varchar"; "nchar"; "nvarchar"; "uniqueidentifier"].
Fixpoint drop_spaces (l : list ascii) : list ascii :=
  match l with a :: l' => if is_space a then drop_spaces l' else l | [] => [] end.
(** [_SQL_TYPE_RE]: a word, and after it nothing or a size in brackets. *)
Definition size_digits (l : list ascii) : option (list ascii) :=
  match take_while is_digit l with [] => None | ds => Some (drop (length ds) l) end.
Definition size_word (l : list ascii) : option (list ascii) :=
  if is_prefix (chars "max") (map to_lower l) then Some (drop 3 l) else size_digits l.
Definition close_bracket (l : list ascii) : bool :=
  match drop_spaces l with [c] => bool_decide (c = ")"%char) | _ => false end.
Definition is_sql_type (s : string) : bool :=
  let l := chars s in
  let word := take_while is_word l in
  negb (bool_decide (word = []))
  && match drop (length word) l with
     | [] => true
     | o :: l =>
         bool_decide (o = "("%char)
         && match size_word (drop_spaces l) with
            | Some l => close_bracket l
                || match drop_spaces l with
                   | c :: l => bool_decide (c = ","%char)
                       && match size_digits (drop_spaces l) with Some l => close_bracket l | None => false end
                   | [] => false
                   end
            | None => false
            end
     end.
Definition before_bracket (s : string) : string := text (take_while (fun a => negb (bool_decide (a = "("%char))) (chars s)).
Definition parameter_name_of (p : pydict) : string := strip (str (py_or (get p "name") (PStr ""))).
Definition declared_type (p : pydict) : string := strip (str (py_or (get p "type") (PStr "nvarchar(4000)"))).
(** The value of a parameter: the one that was given, its default, or none. *)
Definition given (values : list (string * pyval)) (name : string) : option pyval :=
  v ← assoc name values; if String.eqb (strip (str v)) "" then None else Some v.
Definition value_for (p : pydict) (name : string) (values : list (string * pyval)) : result sql_error pyval :=
  match given values name with
  | Some v => Ok v
  | None => match assoc "default" p with
            | Some v => Ok v
            | None => if truthy (default (PBool false) (assoc "required" p)) then Err (MissingParameter name) else Ok PNone
            end
  end.
Definition declare_line (p : pydict) : string :=
  "DECLARE @" +:+ parameter_name_of p +:+ " " +:+ declared_type p +:+ " = ?;".
Definition declared (values : list (string * pyval)) (p : pydict) : result sql_error (string * pyval) :=
  let name := parameter_name_of p in
  if negb (is_identifier name) then Err (BadName name)
  else if negb (bool_decide (lower (strip (before_bracket (declared_type p))) ∈ SQL_PARAMETER_TYPES))
          || negb (is_sql_type (declared_type p)) then Err (BadType name (declared_type p))
  else v ← value_for p name values; Ok (declare_line p, v).
Definition new_line : string := String (chr 10) "".
Fixpoint declared_all (parameters : list pydict) (values : list (string * pyval)) : result sql_error (list (string * pyval)) :=
  match parameters with
  | [] => Ok []
  | p :: rest => d ← declared values p; ds ← declared_all rest values; Ok (d :: ds)
  end.
Definition build_parameter_prelude (parameters : list pydict) (values : list (string * pyval))
    : result sql_error (string * list pyval) :=
  ds ← declared_all parameters values;
  Ok (match ds with [] => "" | _ => join new_line (map fst ds) +:+ new_line end, map snd ds).

(** ** SQL*Plus substitution *)
Definition _UNSAFE_IN_DEFINE : list string :=
  [String quote ""; String (chr 34) ""; ";"; "--"; "/*"; "*/"; new_line; String (chr 13) ""; "&"].
Definition check_sqlplus_define_value (name value : string) : result sql_error unit :=
  match List.find (fun marker => contains marker value) _UNSAFE_IN_DEFINE with
  | Some marker => Err (UnsafeDefine name marker)
  | None => Ok tt
  end.
Definition is_blank (a : ascii) : bool := bool_decide (a = " "%char) || bool_decide (a = chr 9).
Definition skip_blanks (l : list ascii) : list ascii := drop (length (take_while is_blank l)) l.
(** One or more blanks, and what follows. *)
Definition after_blanks (l : list ascii) : option (list ascii) :=
  match take_while is_blank l with [] => None | bs => Some (drop (length bs) l) end.
Definition starts_with_word (w : string) (l : list ascii) : bool := is_prefix (chars w) (map to_lower l).
(** [_DEFINE_LINE] on one line: the name and the value it states. *)
Definition define_line (line : list ascii) : option (list ascii * list ascii) :=
  let l := skip_blanks line in
  l ← (if starts_with_word "def" l then Some (drop 3 l) else None);
  l ← (match (if starts_with_word "ine" l then after_blanks (drop 3 l) else None) with
       | Some l => Some l
       | None => after_blanks l
       end);
  match l with
  | a :: _ =>
      if is_name_start a then
        let name := take_while is_name_char l in
        let l := skip_blanks (drop (length name) l) in
        Some (name, match l with e :: l' => if bool_decide (e = "="%char) then skip_blanks l' else l | [] => l end)
      else None
  | [] => None
  end.
Definition lines (sql : list ascii) : list (list ascii) := split_chars (chr 10) sql.
Definition unquote (value : string) : string :=
  match chars value with
  | q :: rest =>
      if (bool_decide (q = quote) || bool_decide (q = chr 34)) && bool_decide (list.last rest = Some q)
      then text (removelast rest) else value
  | [] => value
  end.
(** The name and value of each [DEFINE] line. *)
Definition stated (line : list ascii) : option (string * string) :=
  d ← define_line line;
  Some (upper (text d.1), unquote (strip (rstrip_chars ";" (strip (text d.2))))).
Definition without_defines (sql : list ascii) : list ascii :=
  chars (join new_line (map (fun l => match define_line l with Some _ => "" | None => text l end) (lines sql))).
(** A name as the pattern it is: a dollar in it is the end of the text. *)
Fixpoint match_name (name l : list ascii) : option (list ascii) :=
  match name with
  | [] => Some l
  | c :: name =>
      if bool_decide (c = "$"%char) then
        if bool_decide (l = []) || bool_decide (l = [chr 10]) then match_name name l else None
      else match l with
           | a :: l => if bool_decide (to_lower a = to_lower c) then match_name name l else None
           | [] => None
           end
  end.
Definition word_follows (l : list ascii) : bool := match l with a :: _ => is_name_char a | [] => false end.
(** The marker at the front of a text, with a dot after it unless a word follows the dot. *)
Definition match_marker (marker name l : list ascii) : option (list ascii) :=
  if is_prefix marker l then
    l ← match_name name (drop (length marker) l);
    match l with
    | a :: l' => if bool_decide (a = "."%char) && negb (word_follows l') then Some l'
                 else if word_follows l then None else Some l
    | [] => Some []
    end
  else None.
Fixpoint substitute (fuel : nat) (marker name value l : list ascii) : list ascii :=
  match fuel, l with
  | S fuel, a :: rest =>
      match match_marker marker name l with
      | Some after => value ++ substitute fuel marker name value after
      | None => a :: substitute fuel marker name value rest
      end
  | _, _ => l
  end.
Definition substitute_all (marker : string) (values : list (string * string)) (body : list ascii) : list ascii :=
  fold_left (fun body p => substitute (length body) (chars marker) (chars p.1) (chars p.2) body) values body.
Definition define_values (sql : list ascii) (overrides : list (string * string)) : list (string * string) :=
  let defined := fold_left (fun d p => assoc_set p.1 p.2 d) (omap stated (lines sql)) [] in
  fold_left (fun d p => assoc_set (upper p.1) p.2 d) overrides defined.
Definition expand_sqlplus_defines (sql_text : string) (overrides : list (string * string)) : string :=
  let sql := chars sql_text in
  match define_values sql overrides with
  | [] => sql_text
  | values => strip (text (substitute_all "&" values (substitute_all "&&" values (without_defines sql))))
  end.

(** ** The statements of a PostgreSQL script *)
(** The length of a comment after its opening, which may hold others. *)
Fixpoint nested_length (depth : nat) (l : list ascii) : nat :=
  match depth, l with
  | O, _ | _, [] => O
  | S d, a :: rest =>
      match rest with
      | b :: l =>
          if bool_decide (a = "/"%char) && bool_decide (b = "*"%char) then S (S (nested_length (S depth) l))
          else if bool_decide (a = "*"%char) && bool_decide (b = "/"%char) then S (S (nested_length d l))
          else S (nested_length depth rest)
      | [] => 1%nat
      end
  end.
(** A construct that starts here: its length, and whether it is code. *)
Definition construct_at (before l : list ascii) : option (nat * bool) :=
  if is_prefix (chars "--") l then
    Some (match find_end [chr 10] l with Some n => pred n | None => length l end, false)
  else if is_prefix (chars "/*") l then Some (2 + nested_length 1 (drop 2 l), false)%nat
  else match l with
  | a :: rest =>
      if bool_decide (a = quote) then Some (S (quoted_length (escapes "_$" before) a rest), true)
      else if bool_decide (a = chr 34) then Some (S (quoted_length false a rest), true)
      else if bool_decide (a = "$"%char) && negb (_word_before "_$" before) then (fun n => (n, true)) <$> dollar_quoted l
      else None
  | [] => None
  end.
(** The parts between the semicolons that end a statement, each with whether it holds code. *)
Fixpoint parts (fuel : nat) (before buf : list ascii) (has_code : bool) (l : list ascii) : list (list ascii * bool) :=
  match fuel, l with
  | S fuel, a :: rest =>
      match construct_at before l with
      | Some (n, code) =>
          parts fuel (reverse (take n l) ++ before) (reverse (take n l) ++ buf) (has_code || code) (drop n l)
      | None =>
          if bool_decide (a = ";"%char) then (reverse buf, has_code) :: parts fuel (a :: before) [] false rest
          else parts fuel (a :: before) (a :: buf) (has_code || negb (is_space a)) rest
      end
  | _, _ => [(reverse buf, has_code)]
  end.
Definition split_postgresql_statements (sql_text : string) : list string :=
  map (fun p => strip (text p.1)) (List.filter snd (parts (length (chars sql_text)) [] [] false (chars sql_text))).
