(* ===== verification/SqlTextProofs.v ===== *)
(** * Facts about SQL texts: what is bound, what is written, and what is cut. *)

From S2P Require Import Prelude Py SqlText.

Lemma mjoin_cons {A} (x : list A) xs : mjoin (x :: xs) = x ++ mjoin xs.
Proof. done. Qed.

Lemma omap_all {A B} (f : A -> option B) l : Forall (fun x => is_Some (f x)) l -> Forall2 (fun x y => f x = Some y) l (omap f l).
Proof. induction 1 as [|x l [y Hy] _ IH]; [constructor|]. cbn. rewrite Hy. by constructor. Qed.

(** ** Pieces *)
Lemma find_end_pos sub l n : (0 < length sub)%nat -> find_end sub l = Some n -> (0 < n)%nat.
Proof.
  revert n. induction l as [|a l IH]; intros n Hs; cbn [find_end]; (destruct (is_prefix sub _); [intros [= <-]; lia|]).
  - done.
  - intros (m & ? & ->)%fmap_Some. lia.
Qed.
Lemma line_comment_length (l : list ascii) n : is_prefix (chars "--") l = true ->
  match find_end [chr 10] l with Some n => pred n | None => length l end = n -> (0 < n)%nat.
Proof.
  destruct l as [|a [|b l]]; try done; [cbn; rewrite andb_false_r; done|].
  cbn [is_prefix chars]. intros (Ha%bool_decide_eq_true & Hb)%andb_prop. subst a.
  cbn [find_end is_prefix length]. replace (bool_decide (chr 10 = "-"%char)) with false by reflexivity. cbn [andb].
  destruct (bool_decide (chr 10 = b) && true) eqn:E.
  - cbn [is_prefix] in Hb. apply andb_prop in Hb as [Hb _]. apply andb_prop in E as [E _].
    apply bool_decide_eq_true in Hb, E. subst b. done.
  - by destruct (find_end [chr 10] l) as [m|]; intros <-; apply Nat.lt_0_succ.
Qed.
Lemma dollar_quoted_pos l n : dollar_quoted l = Some n -> (0 < n)%nat.
Proof.
  unfold dollar_quoted. destruct (dollar_tag l) as [m|] eqn:E; [|done]. intros [= <-].
  unfold dollar_tag in E. destruct l as [|d l]; [done|]. cbv zeta in E.
  destruct (drop _ l) as [|e ?]; [done|]. destruct (_ && _); [|done]. injection E as <-. lia.
Qed.
Lemma piece_at_pos engine before l k n : piece_at engine before l = Some (k, n) -> (0 < n)%nat.
Proof.
  unfold piece_at. destruct (is_prefix (chars "--") l) eqn:E1.
  { intros [= _ H]. by eapply line_comment_length. }
  destruct (is_prefix (chars "/*") l) eqn:E2; [intros [= _ <-]; lia|].
  destruct (if String.eqb engine "oracle" then q_quoted before l else None) as [m|] eqn:E3.
  { intros [= _ <-]. destruct (String.eqb engine "oracle"); [|done].
    destruct l as [|a [|b [|c rest]]]; try done. cbn [q_quoted] in E3. destruct (_ && _); [|done]. injection E3 as <-. lia. }
  destruct l as [|a rest]; [done|]. destruct (_ || _); [intros [= _ <-]; lia|]. destruct (_ && _); [|done].
  intros (m & H & [= _ <-])%fmap_Some. by eapply dollar_quoted_pos.
Qed.
Lemma flush_join code : mjoin (map snd (flush code)) = reverse code.
Proof. unfold flush. case_bool_decide as H; [by subst|]. cbn. by rewrite app_nil_r. Qed.
Lemma pieces_join engine fuel before code l : (length l <= fuel)%nat ->
  mjoin (map snd (pieces fuel engine before code l)) = reverse code ++ l.
Proof.
  revert before code l. induction fuel as [|fuel IH]; intros before code [|a rest] Hl; cbn [length] in Hl; try lia;
    cbn [pieces]; rewrite ?flush_join, ?app_nil_r; try done.
  destruct (piece_at engine before (a :: rest)) as [[k n]|] eqn:E.
  - apply piece_at_pos in E. rewrite map_app, join_app, flush_join. cbn [map mjoin list_join snd].
    rewrite IH by (rewrite length_drop; cbn [length]; lia). rewrite reverse_nil, app_nil_l. f_equal. apply take_drop.
  - rewrite IH by lia. by rewrite reverse_cons, <-app_assoc.
Qed.
Lemma pieces_nonempty engine fuel before code l : Forall (fun p => p.2 <> []) (pieces fuel engine before code l).
Proof.
  assert (Hf : forall code, Forall (fun p => p.2 <> []) (flush code)).
  { intros c. unfold flush. case_bool_decide as H; constructor; [|done]. cbn. intros E%(f_equal reverse). by rewrite reverse_involutive in E. }
  revert before code l. induction fuel as [|fuel IH]; intros before code [|a rest]; cbn [pieces]; try apply Hf.
  destruct (piece_at engine before (a :: rest)) as [[k n]|] eqn:E; [|apply IH].
  apply piece_at_pos in E. apply Forall_app; split; [apply Hf|]. constructor; [|apply IH]. destruct n; [lia|done].
Qed.

(** ** Binding, with two passes *)
(** A statement as its characters and the names it binds; text in quotes and comments binds none. *)
Definition escaped (style : string) (l : list ascii) : list ascii := if String.eqb style "format" then double_percent l else l.
Definition piece_tokens (style : string) (p : kind * list ascii) : list token :=
  match p.1 with Code => chunk_tokens (escaped style p.2) | Comment => map Char (escaped style p.2) | Quoted => map Char p.2 end.
Definition statement_tokens (statement engine style : string) : list token :=
  mjoin (map (piece_tokens style) (_code_pieces statement engine)).
(** A question mark that the driver would read as a placeholder. *)
Definition question_mark (style : string) (p : kind * list ascii) : bool :=
  match p.1 with Quoted => false | _ => String.eqb style "qmark" && has_char "?" p.2 && negb (is_prefix (chars "--") p.2) end.
Definition says {V} (wanted : list (string * V)) (name : string) : bool :=
  match assoc name wanted with Some _ => true | None => false end.
(** The names a statement binds, each time it says one. *)
Definition occurrences {V} (wanted : list (string * V)) (statement engine : string) : list string :=
  List.filter (says wanted) (named_placeholders statement engine).
Definition add_name (l : list string) (name : string) : list string := if bool_decide (name ∈ l) then l else l ++ [name].
(** PostgreSQL gets one value per name, Oracle one per time a name is said. *)
Definition bound_order (engine : string) (occ : list string) : list string :=
  if String.eqb engine "postgresql" then fold_left add_name occ [] else occ.
Fixpoint written {V} (engine : string) (wanted : list (string * V)) (order : list string) (i : nat) (l : list token) : list ascii :=
  match l with
  | [] => []
  | Char a :: l => a :: written engine wanted order i l
  | Bind name :: l =>
      let key := lower (text name) in
      if says wanted key
      then placeholder (sign_of engine) (S (if String.eqb engine "postgresql" then index_of key order else i))
           ++ written engine wanted order (S i) l
      else (":"%char :: name) ++ written engine wanted order i l
  end.
Definition bind_in_two_passes {V} (statement : string) (values : list (string * V)) (db_type style : string)
    : result sql_error (string * list V) :=
  let engine := engine_name db_type in
  let wanted := lowered values in
  let occ := occurrences wanted statement engine in
  if bool_decide (occ = []) then Ok (statement, [])
  else if negb (style_known engine style) then Err (StyleUnknown engine style)
  else if existsb (question_mark style) (_code_pieces statement engine) then Err QuestionMark
  else
    let order := bound_order engine occ in
    Ok (text (written engine wanted order 0 (statement_tokens statement engine style)), omap (fun name => assoc name wanted) order).
Arguments String.eqb : simpl never.

Section two_passes.
Context {V : Type} (engine : string) (wanted : list (string * V)).
Lemma write_tokens_app b l l' : write_tokens engine wanted b (l ++ l') =
  (let (out, b) := write_tokens engine wanted b l in let (out', b) := write_tokens engine wanted b l' in (out ++ out', b)).
Proof.
  revert b. induction l as [|[a|name] l IH]; intros b; cbn [write_tokens app].
  - by destruct (write_tokens engine wanted b l').
  - rewrite IH. destruct (write_tokens engine wanted b l) as [o b']. by destruct (write_tokens engine wanted b' l').
  - destruct (write engine wanted b name) as [h b0]. rewrite IH. destruct (write_tokens engine wanted b0 l) as [o b'].
    destruct (write_tokens engine wanted b' l'). by rewrite app_assoc.
Qed.
Lemma write_chars b l : write_tokens engine wanted b (map Char l) = (l, b).
Proof. induction l as [|a l IH]; cbn [map write_tokens]; [done|]. by rewrite IH. Qed.
Lemma write_chunk_eq style b p : write_chunk engine style wanted b p.1 p.2 =
  if question_mark style p then Err QuestionMark else Ok (write_tokens engine wanted b (piece_tokens style p)).
Proof.
  destruct p as [[] chunk]; unfold write_chunk, question_mark, piece_tokens, escaped; cbn [fst snd]; rewrite ?write_chars; done.
Qed.
Lemma write_pieces_eq style b l : write_pieces engine style wanted b l =
  if existsb (question_mark style) l then Err QuestionMark
  else Ok (write_tokens engine wanted b (mjoin (map (piece_tokens style) l))).
Proof.
  revert b. induction l as [|[k chunk] l IH]; intros b; cbn [write_pieces existsb map]; [done|].
  pose proof (write_chunk_eq style b (k, chunk)) as E. cbn [fst snd] in E. rewrite E. clear E. destruct (question_mark style (k, chunk)); [done|]. cbn [orb].
  cbn [mjoin list_join]. rewrite write_tokens_app. destruct (write_tokens engine wanted b _) as [o b']. cbn [mbind result_bind].
  rewrite IH. destruct (existsb _ l); [done|]. cbn [mbind result_bind]. destruct (write_tokens engine wanted b' _). done.
Qed.
Definition occ_of (l : list token) : list string := List.filter (says wanted) (omap bound_name l).
Lemma occ_of_bind name l : occ_of (Bind name :: l) =
  if says wanted (lower (text name)) then lower (text name) :: occ_of l else occ_of l.
Proof. done. Qed.
Lemma index_of_app key acc more : key ∈ acc -> index_of key (acc ++ more) = index_of key acc.
Proof.
  intros H. unfold index_of. destruct (list_find_elem_of (eq key) acc key H eq_refl) as [[i x] E].
  by rewrite (list_find_app_l _ _ more _ _ E), E.
Qed.
Lemma index_of_snoc key acc : key ∉ acc -> index_of key (acc ++ [key]) = length acc.
Proof.
  intros H. unfold index_of. rewrite list_find_app_r by (apply list_find_None, list.Forall_forall; intros x Hx <-; done).
  cbn. rewrite decide_True by done. cbn. lia.
Qed.
Lemma fold_add_name acc occ : exists more, fold_left add_name occ acc = acc ++ more.
Proof.
  revert acc. induction occ as [|k occ IH]; intros acc; [exists []; by rewrite app_nil_r|]. cbn [fold_left].
  destruct (IH (add_name acc k)) as [more E]. rewrite E. unfold add_name. case_bool_decide; [by exists more|].
  exists (k :: more). by rewrite <-app_assoc.
Qed.
Lemma says_assoc name v : assoc name wanted = Some v -> says wanted name = true.
Proof. intros H. unfold says. by rewrite H. Qed.
Lemma written_order order order' i l : String.eqb engine "postgresql" = false ->
  written engine wanted order i l = written engine wanted order' i l.
Proof.
  intros He. revert i. induction l as [|[a|name] l IH]; intros i; cbn [written]; rewrite ?He, ?(IH i), ?(IH (S i)); done.
Qed.
Lemma write_oracle b l : String.eqb engine "postgresql" = false ->
  write_tokens engine wanted b l =
  (written engine wanted [] (length (bound b)) l, mkBound (bound b ++ omap (fun k => assoc k wanted) (occ_of l)) (numbered b)).
Proof.
  intros He. revert b. induction l as [|[a|name] l IH]; intros b; cbn [write_tokens written]; rewrite ?He.
  - destruct b. cbn. by rewrite app_nil_r.
  - by rewrite IH.
  - unfold write. rewrite He, occ_of_bind. unfold says. destruct (assoc (lower (text name)) wanted) as [v|] eqn:E.
    + rewrite IH. cbn [bound numbered]. rewrite length_app. cbn [length]. rewrite Nat.add_1_r.
      f_equal. cbn [omap list_omap]. rewrite E, <-app_assoc. done.
    + by rewrite IH.
Qed.
Lemma write_postgresql b l order : String.eqb engine "postgresql" = true ->
  order = fold_left add_name (occ_of l) (numbered b) -> bound b = omap (fun k => assoc k wanted) (numbered b) -> forall i,
  write_tokens engine wanted b l =
  (written engine wanted order i l, mkBound (omap (fun k => assoc k wanted) order) order).
Proof.
  intros He. revert b. induction l as [|[a|name] l IH]; intros b Ho Hb i; cbn [write_tokens written]; rewrite ?He.
  - destruct b as [bs ns]. cbn in *. by subst.
  - by rewrite (IH _ Ho Hb i).
  - unfold write. rewrite He, occ_of_bind in *. unfold says in *. destruct (assoc (lower (text name)) wanted) as [v|] eqn:E.
    + cbn [fold_left] in Ho. unfold add_name at 2 in Ho. case_bool_decide as Hin.
      * rewrite (IH _ Ho Hb (S i)). destruct (fold_add_name (numbered b) (occ_of l)) as [more Hm].
        replace (index_of (lower (text name)) order) with (index_of (lower (text name)) (numbered b)); [done|].
        by rewrite Ho, Hm, index_of_app.
      * rewrite (IH (mkBound (bound b ++ [v]) (numbered b ++ [lower (text name)])) Ho) with (i := S i)
          by (cbn [bound numbered]; rewrite omap_app, Hb; cbn; by rewrite E).
        destruct (fold_add_name (numbered b ++ [lower (text name)]) (occ_of l)) as [more Hm].
        replace (index_of (lower (text name)) order) with (length (numbered b)); [done|].
        rewrite Ho, Hm, index_of_app, index_of_snoc by set_solver. done.
    + by rewrite (IH _ Ho Hb i).
Qed.
End two_passes.

(** *** Doubling a percent sign changes no name *)
Lemma double_cons a l : double_percent (a :: l) = (if bool_decide (a = "%"%char) then [a; a] else [a]) ++ double_percent l.
Proof. done. Qed.
Lemma take_while_double p l : p "%"%char = false ->
  take_while p (double_percent l) = take_while p l /\
  drop (length (take_while p l)) (double_percent l) = double_percent (drop (length (take_while p l)) l).
Proof.
  intros Hp. unfold double_percent. induction l as [|a l [IH1 IH2]]; [done|]. cbn [map take_while mjoin list_join].
  case_bool_decide as Ha; cbn [app take_while]; [subst a; rewrite Hp; cbn [take_while length drop map mjoin list_join]; by rewrite bool_decide_eq_true_2|].
  destruct (p a); cbn [length drop]; [split; [by f_equal|exact IH2]|]. cbn [map mjoin list_join]. by rewrite bool_decide_eq_false_2.
Qed.
Lemma tokens_step fuel prev a rest : tokens (S fuel) prev (a :: rest) =
  (let name := match rest with b :: _ => if is_name_start b then take_while is_name_char rest else [] | [] => [] end in
   if bool_decide (a = ":"%char) && binds_after prev && negb (bool_decide (name = [])) then
     Bind name :: tokens fuel (list.last name) (drop (length name) rest)
   else Char a :: tokens fuel (Some a) rest).
Proof. done. Qed.
Definition name_at (rest : list ascii) : list ascii :=
  match rest with b :: _ => if is_name_start b then take_while is_name_char rest else [] | [] => [] end.
Lemma name_at_double rest : name_at (double_percent rest) = name_at rest /\
  drop (length (name_at rest)) (double_percent rest) = double_percent (drop (length (name_at rest)) rest).
Proof.
  pose proof (take_while_double is_name_char rest eq_refl) as [E1 E2]. unfold name_at.
  destruct rest as [|b rest]; [done|]. unfold double_percent in *. cbn [map mjoin list_join] in *.
  case_bool_decide as Hb; [by subst b|]. cbn [app] in *. destruct (is_name_start b); [by rewrite E1, E2|].
  split; [done|]. cbn [length drop map mjoin list_join]. by rewrite bool_decide_eq_false_2.
Qed.
Lemma double_percent_length l : (length l <= length (double_percent l))%nat.
Proof.
  induction l as [|a l IH]; [done|]. rewrite double_cons, length_app. destruct (bool_decide _); cbn [length]; lia.
Qed.
Lemma names_double fuel fuel' prev prev' l : (length l <= fuel)%nat -> (length (double_percent l) <= fuel')%nat ->
  binds_after prev' = binds_after prev ->
  omap bound_name (tokens fuel' prev' (double_percent l)) = omap bound_name (tokens fuel prev l).
Proof.
  revert fuel' prev prev' l. induction fuel as [|fuel IH]; intros fuel' prev prev' [|a rest] Hl Hl' Hp; cbn [length] in Hl; try lia;
    try (by destruct fuel').
  rewrite (tokens_step fuel). fold (name_at rest). cbv zeta.
  rewrite double_cons in *. case_bool_decide as Ha; cbn [app length] in *.
  - subst a. destruct fuel' as [|[|fuel']]; try lia. rewrite !tokens_step. cbv zeta.
    replace (bool_decide ("%"%char = ":"%char)) with false by reflexivity. cbn [andb omap list_omap bound_name].
    apply IH; [lia|lia|done].
  - destruct fuel' as [|fuel']; [lia|]. rewrite tokens_step. fold (name_at (double_percent rest)). cbv zeta.
    destruct (name_at_double rest) as [-> ->]. rewrite Hp. destruct (_ && _ && _); cbn [omap list_omap bound_name].
    + f_equal. apply IH; [rewrite length_drop; lia| |done].
      rewrite <-(proj2 (name_at_double rest)), length_drop. lia.
    + apply IH; [lia|lia|done].
Qed.
Lemma chunk_names_escaped style l : omap bound_name (chunk_tokens (escaped style l)) = omap bound_name (chunk_tokens l).
Proof. unfold escaped, chunk_tokens. destruct (String.eqb _ _); [|done]. by apply names_double. Qed.
Lemma statement_names statement engine style :
  omap bound_name (statement_tokens statement engine style) = named_placeholders statement engine.
Proof.
  unfold statement_tokens, named_placeholders. induction (_code_pieces statement engine) as [|[k l] ps IH]; [done|].
  rewrite !map_cons, !mjoin_cons, omap_app, IH. f_equal.
  assert (Hc : forall l, omap bound_name (map Char l) = []) by (intros l'; by induction l').
  destruct k; [exact (chunk_names_escaped style l)|exact (Hc (escaped style l))|exact (Hc l)].
Qed.
Lemma binds_any_iff {V} (wanted : list (string * V)) sql db :
  binds_any wanted sql db = negb (bool_decide (occurrences wanted sql db = [])).
Proof.
  unfold binds_any, occurrences. fold (says wanted). induction (named_placeholders sql db) as [|n l IH]; [done|].
  cbn [existsb List.filter]. fold (says wanted n). by destruct (says wanted n).
Qed.

Lemma named_values_eq {V} statement (values : list (string * V)) db_type style :
  bind_named_values statement values db_type style = bind_in_two_passes statement values db_type style.
Proof.
  unfold bind_named_values, bind_in_two_passes. rewrite binds_any_iff.
  set (engine := engine_name db_type). set (wanted := lowered values). set (occ := occurrences wanted statement engine).
  destruct (bool_decide (occ = [])); [done|]. cbn [negb]. destruct (style_known engine style) eqn:Es; [|done]. cbn [negb].
  rewrite write_pieces_eq. fold (statement_tokens statement engine style). destruct (existsb _ _); [done|]. cbn [mbind result_bind].
  assert (Ho : occ_of wanted (statement_tokens statement engine style) = occ) by (unfold occ_of; by rewrite statement_names).
  unfold bound_order. destruct (String.eqb engine "postgresql") eqn:He.
  - by rewrite (write_postgresql engine wanted (mkBound [] []) _ (fold_left add_name occ []) He) with (i := O); rewrite ?Ho.
  - rewrite write_oracle by done. cbn [bound app length]. rewrite Ho.
    by rewrite (written_order engine wanted [] occ) by done.
Qed.

(** C24: Binding by name, done in one pass over the text with two growing lists, is the two
    passes that first collect the placeholders named_placeholders finds and then write a number
    for each: per name on PostgreSQL, per occurrence on Oracle, with everything else kept. *)
Theorem named_values_are_bound_in_two_passes {V} statement (values : list (string * V)) db_type style :
  bind_named_values statement values db_type style = bind_in_two_passes statement values db_type style.
Proof. apply named_values_eq. Qed.

Lemma elem_of_fold_add_name occ acc name : name ∈ fold_left add_name occ acc <-> name ∈ acc \/ name ∈ occ.
Proof.
  revert acc. induction occ as [|k occ IH]; intros acc; cbn [fold_left]; [set_solver|].
  rewrite IH. unfold add_name. case_bool_decide; set_solver.
Qed.
Lemma fold_add_name_NoDup occ acc : NoDup acc -> NoDup (fold_left add_name occ acc).
Proof.
  revert acc. induction occ as [|k occ IH]; intros acc H; cbn [fold_left]; [done|]. apply IH. unfold add_name.
  case_bool_decide; [done|]. apply list.NoDup_app. split_and!; [done| |apply NoDup_singleton]. set_solver.
Qed.
Lemma elem_of_bound_order engine occ name : name ∈ bound_order engine occ <-> name ∈ occ.
Proof. unfold bound_order. destruct (String.eqb _ _); [|done]. rewrite elem_of_fold_add_name. set_solver. Qed.

(** ** Values are moved, and never read *)
Definition map_values {V W} (f : V -> W) (d : list (string * V)) : list (string * W) := map (fun p => (p.1, f p.2)) d.
Lemma assoc_map_values {V W} (f : V -> W) k d : assoc k (map_values f d) = f <$> assoc k d.
Proof. induction d as [|[k' v] d IH]; [done|]. cbn [map_values map assoc fst snd]. by destruct (String.eqb k k'). Qed.
Lemma assoc_set_map_values {V W} (f : V -> W) k v d : assoc_set k (f v) (map_values f d) = map_values f (assoc_set k v d).
Proof.
  induction d as [|[k' v'] d IH]; [done|]. cbn [map_values map assoc_set fst snd]. destruct (String.eqb k k'); [done|].
  cbn [map fst snd]. f_equal. exact IH.
Qed.
Lemma lowered_map_values {V W} (f : V -> W) d : lowered (map_values f d) = map_values f (lowered d).
Proof.
  unfold lowered. change (@nil (string * W)) with (map_values f []). generalize (@nil (string * V)).
  induction d as [|[k v] d IH]; intros acc; [done|]. cbn [map_values map fold_left fst snd]. rewrite assoc_set_map_values. apply IH.
Qed.
Lemma says_map_values {V W} (f : V -> W) d k : says (map_values f d) k = says d k.
Proof. unfold says. rewrite assoc_map_values. by destruct (assoc k d). Qed.
Lemma written_map_values {V W} (f : V -> W) engine d order i l :
  written engine (map_values f d) order i l = written engine d order i l.
Proof.
  revert i. induction l as [|[a|name] l IH]; intros i; cbn [written]; [done|by rewrite IH|].
  rewrite says_map_values, !IH. done.
Qed.

Lemma bind_map_values {V W} (f : V -> W) statement values db_type style :
  bind_named_values statement (map_values f values) db_type style =
  match bind_named_values statement values db_type style with
  | Ok (out, bs) => Ok (out, map f bs)
  | Err e => Err e
  end.
Proof.
  assert (E : forall X (vs : list (string * X)), bind_named_values statement vs db_type style = bind_in_two_passes statement vs db_type style)
    by (intros; apply named_values_eq).
  rewrite !E. unfold bind_in_two_passes. rewrite lowered_map_values.
  assert (Ho : occurrences (map_values f (lowered values)) statement (engine_name db_type) = occurrences (lowered values) statement (engine_name db_type)).
  { unfold occurrences. apply filter_ext. intros n. apply says_map_values. }
  rewrite Ho. destruct (bool_decide _); [done|]. destruct (negb _); [done|]. destruct (existsb _ _); [done|].
  rewrite written_map_values. do 2 f_equal. induction (bound_order _ _) as [|k l IH]; [done|].
  cbn [omap list_omap]. rewrite assoc_map_values. destruct (assoc k (lowered values)); cbn [map fmap option_fmap option_map]; [by f_equal|exact IH].
Qed.

(** word. *)
Lemma values_never_reach_the_statement {V W} (f : V -> W) statement values db_type style :
  bind_named_values statement (map_values f values) db_type style =
  match bind_named_values statement values db_type style with
  | Ok (out, bs) => Ok (out, map f bs)
  | Err e => Err e
  end.
Proof. apply bind_map_values. Qed.

(** word. *)
Lemma a_placeholder_stands_for_its_value {V} statement (values : list (string * V)) db_type style out bs :
  bind_named_values statement values db_type style = Ok (out, bs) ->
  let engine := engine_name db_type in
  let occ := occurrences (lowered values) statement engine in
  let order := bound_order engine occ in
  length bs = length order
  /\ (forall i name, order !! i = Some name -> exists v, bs !! i = Some v /\ assoc name (lowered values) = Some v)
  /\ (forall name, name ∈ order <-> name ∈ occ)
  /\ (engine = "postgresql" -> NoDup order)
  /\ (bs = [] -> out = statement).
Proof.
  rewrite named_values_eq. unfold bind_in_two_passes. cbv zeta.
  set (engine := engine_name db_type). set (wanted := lowered values). set (occ := occurrences wanted statement engine).
  assert (Hs : Forall (fun k => says wanted k = true) (bound_order engine occ)).
  { apply list.Forall_forall. intros k Hk%elem_of_bound_order. by apply elem_of_filter_bool in Hk as [_ Hk]. }
  intros H. assert (Hbs : bs = omap (fun k => assoc k wanted) (bound_order engine occ) /\ (bs = [] -> out = statement)).
  { case_bool_decide as Ho; [injection H as <- <-; rewrite Ho; split; [unfold bound_order; by destruct (String.eqb _ _)|done]|].
    destruct (negb _); [done|]. destruct (existsb _ _); [done|]. injection H as <- <-. split; [done|].
    intros E. exfalso. apply Ho. destruct occ as [|k occ'] eqn:Hocc; [done|]. exfalso.
    assert (Hk : k ∈ bound_order engine (k :: occ')) by (apply (proj2 (elem_of_bound_order _ _ _)), list.elem_of_cons; by left).
    pose proof Hs as Hs'. rewrite list.Forall_forall in Hs'. specialize (Hs' _ Hk). unfold says in Hs'.
    destruct (assoc k wanted) as [v|] eqn:Ev; [|done].
    assert (Hv : v ∈ omap (fun k => assoc k wanted) (bound_order engine (k :: occ'))) by (apply list_elem_of_omap; eauto).
    rewrite E in Hv. by apply not_elem_of_nil in Hv. }
  destruct Hbs as [-> Hn].
  assert (Hl : Forall2 (fun k v => assoc k wanted = Some v) (bound_order engine occ) (omap (fun k => assoc k wanted) (bound_order engine occ))).
  { apply omap_all. eapply list.Forall_impl; [exact Hs|]. intros k. unfold says. destruct (assoc k wanted); [by eexists|done]. }
  split_and!; [symmetry; by eapply Forall2_length| |intros name; apply elem_of_bound_order| |done].
  - intros i k Hk. destruct (Forall2_lookup_l _ _ _ _ _ Hl Hk) as (v & ? & ?). eauto.
  - intros He. unfold bound_order. rewrite He, String.eqb_refl. apply fold_add_name_NoDup. constructor.
Qed.

(** ** The lines that declare parameters *)
Definition type_char (a : ascii) : bool := is_word a || is_space a || bool_decide (a ∈ chars "(),").
Definition occurs (a : ascii) (l : list ascii) : nat := length (List.filter (fun b => bool_decide (a = b)) l).
Lemma occurs_app a l l' : occurs a (l ++ l') = (occurs a l + occurs a l')%nat.
Proof. unfold occurs. by rewrite List.filter_app, length_app. Qed.
Lemma occurs_cons a b l : occurs a (b :: l) = ((if bool_decide (a = b) then 1 else 0) + occurs a l)%nat.
Proof. unfold occurs. cbn [List.filter]. by destruct (bool_decide (a = b)). Qed.
Lemma occurs_none a l : a ∉ l -> occurs a l = O.
Proof. intros H. unfold occurs. rewrite filter_false; [done|]. intros x Hx. apply bool_decide_eq_false. by intros ->. Qed.
Lemma take_while_all {A} (p : A -> bool) l : Forall (fun a => p a = true) (take_while p l).
Proof. induction l as [|a l IH]; [constructor|]. cbn. destruct (p a) eqn:E; by constructor. Qed.
Lemma take_while_drop {A} (p : A -> bool) l : l = take_while p l ++ drop (length (take_while p l)) l.
Proof. induction l as [|a l IH]; [done|]. cbn. destruct (p a); [cbn; by f_equal|done]. Qed.
Lemma take_while_Forall {A} (p : A -> bool) (P : A -> Prop) l : (forall a, p a = true -> P a) ->
  Forall P (drop (length (take_while p l)) l) -> Forall P l.
Proof.
  intros HP H. rewrite (take_while_drop p l). apply Forall_app; split; [|done].
  eapply list.Forall_impl; [apply take_while_all|]. exact HP.
Qed.
Definition safe (a : ascii) : Prop := type_char a = true.
Lemma drop_spaces_safe l : Forall safe (drop_spaces l) -> Forall safe l.
Proof.
  induction l as [|a l IH]; [done|]. cbn. destruct (is_space a) eqn:E; [|done]. intros H. constructor; [|by apply IH].
  unfold safe, type_char. by rewrite E, orb_true_r.
Qed.
Lemma word_safe a : is_word a = true -> safe a.
Proof. intros H. unfold safe, type_char. by rewrite H. Qed.
Lemma digit_safe a : is_digit a = true -> safe a.
Proof. intros H. apply word_safe. unfold is_word, is_alnum. by rewrite H, orb_true_r. Qed.
Lemma close_bracket_safe l : close_bracket l = true -> Forall safe l.
Proof.
  unfold close_bracket. intros H. apply drop_spaces_safe. destruct (drop_spaces l) as [|c [|]]; try done.
  apply bool_decide_eq_true in H. subst c. by constructor.
Qed.
Lemma size_digits_safe l l' : size_digits l = Some l' -> Forall safe l' -> Forall safe l.
Proof.
  unfold size_digits. destruct (take_while is_digit l) as [|d ds] eqn:E; [done|]. intros [= <-] H.
  apply (take_while_Forall is_digit); [apply digit_safe|]. by rewrite E.
Qed.
Lemma to_lower_safe a b : to_lower a = b -> is_lower b = true -> safe a.
Proof.
  unfold to_lower. intros H Hb. apply word_safe. unfold is_word, is_alnum, is_alpha.
  destruct (is_upper a); [done|]. by rewrite H, Hb.
Qed.
Lemma size_word_safe l l' : size_word l = Some l' -> Forall safe l' -> Forall safe l.
Proof.
  unfold size_word. destruct (is_prefix _ _) eqn:E; [|apply size_digits_safe]. intros [= <-] H.
  destruct l as [|a [|b [|c l]]]; try (exfalso; cbn in E; rewrite ?andb_false_r in E; done). cbn [drop] in H.
  cbn [map is_prefix chars] in E. repeat (apply andb_prop in E as [?%bool_decide_eq_true E]).
  repeat constructor; [..|done]; by eapply to_lower_safe.
Qed.
Lemma sql_type_safe s : is_sql_type s = true -> Forall safe (chars s).
Proof.
  unfold is_sql_type. cbv zeta. intros [_ H]%andb_prop. apply (take_while_Forall is_word); [apply word_safe|].
  destruct (drop _ _) as [|o l]; [done|]. apply andb_prop in H as [->%bool_decide_eq_true H]. constructor; [done|].
  apply drop_spaces_safe. destruct (size_word (drop_spaces l)) as [l1|] eqn:E; [|done]. eapply size_word_safe; [exact E|].
  apply orb_prop in H as [H|H]; [by apply close_bracket_safe|]. apply drop_spaces_safe.
  destruct (drop_spaces l1) as [|c l2]; [done|]. apply andb_prop in H as [->%bool_decide_eq_true H]. constructor; [done|].
  apply drop_spaces_safe. destruct (size_digits (drop_spaces l2)) as [l3|] eqn:E3; [|done].
  eapply size_digits_safe; [exact E3|]. by apply close_bracket_safe.
Qed.
Lemma identifier_safe s : is_identifier s = true -> Forall safe (chars s).
Proof.
  unfold is_identifier. destruct (chars s) as [|a l]; [done|]. intros [[Ha Hl]%andb_prop _]%andb_prop. constructor.
  - apply word_safe. unfold is_name_start, is_word, is_alnum in *. apply orb_prop in Ha as [->| ->]; by rewrite ?orb_true_r.
  - eapply list.Forall_impl; [|apply word_safe]. apply list.Forall_forall. rewrite forallb_forall in Hl.
    intros x Hx. apply Hl. by apply list_elem_of_In.
Qed.
Lemma safe_no_mark l : Forall safe l -> occurs "?" l = O.
Proof. intros H. apply occurs_none. intros Hq. rewrite list.Forall_forall in H. specialize (H _ Hq). done. Qed.
Lemma declared_all_ok ps vs ds : declared_all ps vs = Ok ds -> Forall2 (fun p d => declared vs p = Ok d) ps ds.
Proof.
  revert ds. induction ps as [|p ps IH]; intros ds; cbn [declared_all]; [intros [= <-]; constructor|].
  intros (d & Hd & (ds' & Hds & [= <-])%result_bind_ok)%result_bind_ok. constructor; [done|by apply IH].
Qed.
Lemma declared_ok vs p line v : declared vs p = Ok (line, v) ->
  is_identifier (parameter_name_of p) = true
  /\ lower (strip (before_bracket (declared_type p))) ∈ SQL_PARAMETER_TYPES
  /\ is_sql_type (declared_type p) = true /\ line = declare_line p /\ value_for p (parameter_name_of p) vs = Ok v.
Proof.
  unfold declared. destruct (is_identifier _); [|done]. cbn [negb]. case_bool_decide; [|done].
  destruct (is_sql_type _); [|done]. cbn [negb orb]. by intros (v' & Hv & [= <- <-])%result_bind_ok.
Qed.
Lemma join_lines_chars (l : list string) : l <> [] ->
  chars (join new_line l +:+ new_line) = mjoin (map (fun s => chars s ++ [chr 10]) l).
Proof.
  induction l as [|s l IH]; [done|]. intros _. destruct l as [|t l]; [cbn; by rewrite chars_app, app_nil_r|].
  rewrite map_cons, mjoin_cons, <-IH by done. cbn [join]. rewrite !chars_app, <-!app_assoc. done.
Qed.

(** word. *)
Lemma a_prelude_binds_one_value_per_line parameters values prelude bs :
  build_parameter_prelude parameters values = Ok (prelude, bs) ->
  Forall2 (fun p v => value_for p (parameter_name_of p) values = Ok v) parameters bs
  /\ Forall (fun p => is_identifier (parameter_name_of p) = true
       /\ lower (strip (before_bracket (declared_type p))) ∈ SQL_PARAMETER_TYPES
       /\ Forall (fun a => type_char a = true) (chars (declared_type p))) parameters
  /\ chars prelude = mjoin (map (fun p => chars (declare_line p) ++ [chr 10]) parameters)
  /\ occurs "?" (chars prelude) = length bs.
Proof.
  intros (ds & Hds%declared_all_ok & [= <- <-])%result_bind_ok.
  assert (Ht : chars (match ds with [] => "" | _ => join new_line (map fst ds) +:+ new_line end) =
               mjoin (map (fun p => chars (declare_line p) ++ [chr 10]) parameters)).
  { trans (mjoin (map (fun s => chars s ++ [chr 10]) (map fst ds))).
    - destruct ds as [|d ds]; [done|]. by apply join_lines_chars.
    - f_equal. induction Hds as [|p [line v] ps ds (_ & _ & _ & -> & _)%declared_ok _ IH]; [done|]. cbn [map fst]. by f_equal. }
  assert (Hall : Forall (fun p => is_identifier (parameter_name_of p) = true
       /\ lower (strip (before_bracket (declared_type p))) ∈ SQL_PARAMETER_TYPES
       /\ Forall safe (chars (declared_type p))) parameters).
  { clear Ht. induction Hds as [|p [line v] ps ds Hd _ IH]; [apply List.Forall_nil|]. constructor; [|done].
    apply declared_ok in Hd as (? & ? & ?%sql_type_safe & _). done. }
  split_and!; [|exact Hall|exact Ht|].
  - clear Ht Hall. induction Hds as [|p [line v] ps ds Hd _ IH]; [apply Forall2_nil_2|]. constructor; [|done]. by apply declared_ok in Hd as (_ & _ & _ & _ & ?).
  - rewrite Ht, length_map, <-(Forall2_length Hds). clear Ht Hds.
    induction Hall as [|p ps (Hi & _ & Hs) _ IH]; [done|]. rewrite map_cons, mjoin_cons, occurs_app, IH.
    unfold declare_line. rewrite !chars_app, !occurs_app, (safe_no_mark _ Hs), (safe_no_mark _ (identifier_safe _ Hi)). done.
Qed.

(** ** Values pasted into the text *)
(** The characters that a checked value cannot bring. *)
Definition unsafe_chars : list ascii := [quote; chr 34; ";"%char; chr 10; chr 13; "&"%char].
Lemma infix_one a l : is_infix [a] l = bool_decide (a ∈ l).
Proof.
  induction l as [|b l IH]; [done|]. cbn [is_infix is_prefix]. rewrite IH, andb_true_r.
  destruct (bool_decide_reflect (a = b)) as [->|H]; cbn [orb].
  - symmetry. apply bool_decide_eq_true. set_solver.
  - apply bool_decide_ext. set_solver.
Qed.
Lemma checked_value name v a : check_sqlplus_define_value name v = Ok tt -> a ∈ unsafe_chars -> a ∉ chars v.
Proof.
  unfold check_sqlplus_define_value. destruct (List.find _ _) eqn:E; [done|]. intros _ Ha Hv.
  assert (Hm : String a "" ∈ _UNSAFE_IN_DEFINE) by (unfold unsafe_chars in Ha; unfold _UNSAFE_IN_DEFINE, new_line; set_solver).
  pose proof (List.find_none _ _ E (String a "") (proj1 (list_elem_of_In _ _) Hm)) as H. unfold contains in H. cbn [chars] in H.
  rewrite infix_one in H. by apply bool_decide_eq_false in H.
Qed.
Lemma match_name_suffix name l l' : match_name name l = Some l' -> exists pre, l = pre ++ l'.
Proof.
  revert l. induction name as [|c name IH]; intros l; cbn [match_name]; [intros [= ->]; by exists []|].
  case_bool_decide; [case_match; [apply IH|done]|]. destruct l as [|a l]; [done|]. case_bool_decide; [|done].
  intros (pre & ->)%IH. by exists (a :: pre).
Qed.
Lemma match_marker_suffix marker name l l' : match_marker marker name l = Some l' -> exists pre, l = pre ++ l'.
Proof.
  unfold match_marker. destruct (is_prefix marker l); [|done]. destruct (match_name name _) as [m|] eqn:E; [|done].
  cbn [mbind option_bind]. apply match_name_suffix in E as [pre E]. intros H.
  assert (exists p, m = p ++ l') as [p Hp].
  { destruct m as [|a m]; [injection H as <-; by exists []|]. destruct (_ && _); [injection H as <-; by exists [a]|].
    destruct (word_follows _); [done|]. injection H as <-. by exists []. }
  exists (take (length marker) l ++ pre ++ p). by rewrite <-!app_assoc, <-Hp, <-E, take_drop.
Qed.
Lemma substitute_occurs a fuel marker name value l : occurs a value = O ->
  (occurs a (substitute fuel marker name value l) <= occurs a l)%nat.
Proof.
  intros Hv. revert l. induction fuel as [|fuel IH]; intros [|b l]; cbn [substitute]; try done.
  destruct (match_marker marker name (b :: l)) as [after|] eqn:E.
  - apply match_marker_suffix in E as [pre ->]. rewrite !occurs_app, Hv. specialize (IH after). lia.
  - rewrite !occurs_cons. specialize (IH l). lia.
Qed.
Lemma substitute_all_occurs a marker values l : Forall (fun p => occurs a (chars p.2) = O) values ->
  (occurs a (substitute_all marker values l) <= occurs a l)%nat.
Proof.
  intros H. revert l. unfold substitute_all. induction H as [|p ps Hp _ IH]; intros l; [done|]. cbn [fold_left].
  etrans; [apply IH|]. by apply substitute_occurs.
Qed.
Lemma drop_while_occurs a p l : (occurs a (drop_while p l) <= occurs a l)%nat.
Proof. induction l as [|b l IH]; [done|]. cbn [drop_while]. destruct (p b); [rewrite occurs_cons; lia|done]. Qed.
Lemma occurs_reverse a l : occurs a (reverse l) = occurs a l.
Proof. induction l as [|b l IH]; [done|]. rewrite reverse_cons, occurs_app, IH, !occurs_cons. cbn. lia. Qed.
Lemma strip_occurs a s : (occurs a (chars (strip s)) <= occurs a (chars s))%nat.
Proof.
  unfold strip, trim. rewrite chars_text, occurs_reverse. etrans; [apply drop_while_occurs|].
  rewrite occurs_reverse. apply drop_while_occurs.
Qed.
Lemma split_chars_some c l : exists w ws, split_chars c l = w :: ws.
Proof. induction l as [|a l (w & ws & E)]; cbn [split_chars]; [eauto|]. rewrite E. case_bool_decide; eauto. Qed.
Lemma join_lines l : chars (join new_line (map text (lines l))) = l.
Proof.
  unfold lines. induction l as [|a l IH]; [done|]. cbn [split_chars].
  destruct (split_chars_some (chr 10) l) as (w & ws & E). rewrite E in *. case_bool_decide as Ha.
  - subst a. cbn [map join] in *. rewrite !chars_app. cbn [text chars app]. f_equal. exact IH.
  - cbn [map join text] in *. destruct ws; cbn [map] in *; [cbn [chars]; by f_equal|].
    change (String a (text w) +:+ new_line +:+ join new_line (text l0 :: map text ws))
      with (String a (text w +:+ new_line +:+ join new_line (text l0 :: map text ws))). cbn [chars]. by f_equal.
Qed.
Lemma omap_none {A B} (f : A -> option B) l : Forall (fun x => f x = None) l -> omap f l = [].
Proof. induction 1 as [|x l H _ IH]; [done|]. cbn. by rewrite H. Qed.
Lemma without_no_defines l : Forall (fun line => define_line line = None) (lines l) -> without_defines l = l.
Proof.
  intros H. unfold without_defines. trans (chars (join new_line (map text (lines l)))); [|apply join_lines].
  do 2 f_equal. induction H as [|x xs Hx _ IH]; [done|]. cbn [map]. by rewrite Hx, IH.
Qed.
Lemma define_values_safe a sql overrides : Forall (fun line => define_line line = None) (lines sql) ->
  Forall (fun p => occurs a (chars p.2) = O) overrides -> Forall (fun p => occurs a (chars p.2) = O) (define_values sql overrides).
Proof.
  intros Hd Ho. unfold define_values. rewrite (omap_none stated).
  2: { eapply list.Forall_impl; [exact Hd|]. intros line H. unfold stated. by rewrite H. }
  cbn [fold_left]. assert (H : Forall (fun p : string * string => occurs a (chars p.2) = O) []) by constructor.
  revert H. generalize (@nil (string * string)). induction Ho as [|p ps Hp _ IH]; intros d Hd'; [done|].
  cbn [fold_left]. apply IH. by apply assoc_set_Forall.
Qed.

Lemma checked_define_occurs sql_text overrides a : a ∈ unsafe_chars ->
  Forall (fun p => check_sqlplus_define_value p.1 p.2 = Ok tt) overrides ->
  Forall (fun line => define_line line = None) (lines (chars sql_text)) ->
  (occurs a (chars (expand_sqlplus_defines sql_text overrides)) <= occurs a (chars sql_text))%nat.
Proof.
  intros Ha Ho Hd. assert (Hv : Forall (fun p => occurs a (chars p.2) = O) overrides).
  { eapply list.Forall_impl; [exact Ho|]. intros p Hp. apply occurs_none. exact (checked_value _ _ _ Hp Ha). }
  pose proof (define_values_safe a _ _ Hd Hv) as Hs. unfold expand_sqlplus_defines.
  destruct (define_values (chars sql_text) overrides) as [|v vs]; [done|].
  etrans; [apply strip_occurs|]. rewrite chars_text, (without_no_defines _ Hd).
  etrans; [by apply substitute_all_occurs|]. by apply substitute_all_occurs.
Qed.

(** word. *)
Lemma a_checked_define_adds_no_mark sql_text overrides a : a ∈ unsafe_chars ->
  Forall (fun p => check_sqlplus_define_value p.1 p.2 = Ok tt) overrides ->
  Forall (fun line => define_line line = None) (lines (chars sql_text)) ->
  (occurs a (chars (expand_sqlplus_defines sql_text overrides)) <= occurs a (chars sql_text))%nat.
Proof. apply checked_define_occurs. Qed.
(** A value without any of them may still change the statement: a condition that is always true,
    or a comment that the text and the value make together. *)
Example a_checked_value_widens_the_statement :
  check_sqlplus_define_value "n" "0 or 1=1" = Ok tt /\ check_sqlplus_define_value "n" "-1" = Ok tt
  /\ expand_sqlplus_defines "delete from t where id = &n" [("n", "0 or 1=1")] = "delete from t where id = 0 or 1=1"
  /\ expand_sqlplus_defines "update t set x = 9-&n where id = 5" [("n", "-1")] = "update t set x = 9--1 where id = 5"
  /\ map fst (_code_pieces "update t set x = 9--1 where id = 5" "oracle") = [Code; Comment].
Proof. by vm_compute. Qed.
(** The dot after a name stays when a word follows it, and a dollar in a stated name is never found. *)
Example a_marker_not_as_written :
  expand_sqlplus_defines "select * from &own.jobs" [("own", "hr")] = "select * from hr.jobs"
  /\ expand_sqlplus_defines "select * from &own..jobs" [("own", "hr")] = "select * from hr.jobs"
  /\ expand_sqlplus_defines "select &a$b" [("a$b", "1")] = "select &a$b".
Proof. by vm_compute. Qed.

(** ** The statements of a script *)
Definition is_comment (l : list ascii) : Prop :=
  (is_prefix (chars "--") l = true /\ chr 10 ∉ l) \/ is_prefix (chars "/*") l = true.
(** White space and comments, and nothing else. *)
Definition only_comments (l : list ascii) : Prop :=
  exists chunks, l = mjoin chunks /\ Forall (fun c => is_comment c \/ exists a, c = [a] /\ is_space a = true) chunks.
Lemma only_comments_app l l' : only_comments l -> only_comments l' -> only_comments (l ++ l').
Proof. intros (cs & -> & H) (cs' & -> & H'). exists (cs ++ cs'). rewrite join_app. split; [done|by apply Forall_app]. Qed.
Lemma is_prefix_take p n l : is_prefix p l = true -> (length p <= n)%nat -> is_prefix p (take n l) = true.
Proof.
  revert n l. induction p as [|a p IH]; intros n [|b l]; cbn [is_prefix length]; try done.
  intros [Ha Hp]%andb_prop Hn. destruct n as [|n]; [lia|]. cbn [take is_prefix]. rewrite Ha. apply IH; [done|lia].
Qed.
Lemma find_end_one a l n : find_end [a] l = Some n -> a ∉ take (pred n) l.
Proof.
  revert n. induction l as [|b l IH]; intros n; cbn [find_end is_prefix]; [done|]. rewrite andb_true_r.
  destruct (bool_decide_reflect (a = b)) as [->|Hb]; [intros [= <-]; apply not_elem_of_nil|].
  intros (m & Hm & ->)%fmap_Some. assert (0 < m)%nat by (eapply find_end_pos; [|exact Hm]; cbn; lia).
  specialize (IH _ Hm). destruct m as [|m]; [lia|]. cbn [pred take] in *. set_solver.
Qed.
Lemma find_end_none a l : find_end [a] l = None -> a ∉ l.
Proof.
  induction l as [|b l IH]; cbn [find_end is_prefix]; [intros _; apply not_elem_of_nil|]. rewrite andb_true_r.
  destruct (bool_decide_reflect (a = b)) as [->|Hb]; [done|]. intros H%fmap_None. specialize (IH H). set_solver.
Qed.
Lemma line_comment_long l n : is_prefix (chars "--") l = true ->
  match find_end [chr 10] l with Some n => pred n | None => length l end = n -> (2 <= n)%nat /\ chr 10 ∉ take n l.
Proof.
  intros Hp Hn. split.
  - pose proof (line_comment_length l n Hp Hn). destruct n as [|[|n]]; [lia| |lia]. exfalso.
    destruct l as [|a [|b l]]; try done; cbn [is_prefix chars] in Hp; [by rewrite andb_false_r in Hp|].
    apply andb_prop in Hp as [<-%bool_decide_eq_true [<-%bool_decide_eq_true _]%andb_prop].
    cbn [find_end is_prefix length] in Hn. replace (bool_decide (chr 10 = "-"%char)) with false in Hn by reflexivity. cbn [andb] in Hn.
    destruct (find_end [chr 10] l) as [m|] eqn:E; cbn [fmap option_fmap option_map pred] in Hn; [|lia].
    apply find_end_pos in E; [lia|cbn; lia].
  - destruct (find_end [chr 10] l) as [m|] eqn:E; subst n; [by apply find_end_one|].
    rewrite take_ge by done. by apply find_end_none.
Qed.
Lemma construct_at_pos before l n code : construct_at before l = Some (n, code) -> (0 < n)%nat.
Proof.
  unfold construct_at. destruct (is_prefix (chars "--") l) eqn:E1.
  { intros [= Hn _]. by eapply line_comment_length. }
  destruct (is_prefix (chars "/*") l); [intros [= <- _]; lia|]. destruct l as [|a rest]; [done|].
  destruct (bool_decide (a = quote)); [intros [= <- _]; lia|]. destruct (bool_decide (a = chr 34)); [intros [= <- _]; lia|].
  destruct (_ && _); [|done]. intros (m & H & [= <- _])%fmap_Some. by eapply dollar_quoted_pos.
Qed.
Lemma construct_comment before l n : construct_at before l = Some (n, false) -> is_comment (take n l).
Proof.
  unfold construct_at. destruct (is_prefix (chars "--") l) eqn:E1.
  { intros [= Hn]. apply line_comment_long in Hn as [H1 H2]; [|done]. left. split; [|done]. by apply is_prefix_take. }
  destruct (is_prefix (chars "/*") l) eqn:E2; [intros [= <-]; right; apply is_prefix_take; [done|cbn; lia]|].
  destruct l as [|a rest]; [done|]. destruct (bool_decide (a = quote)); [done|]. destruct (bool_decide (a = chr 34)); [done|].
  destruct (_ && _); [|done]. by intros (m & _ & ?)%fmap_Some.
Qed.
Fixpoint with_semicolons (l : list (list ascii)) : list ascii :=
  match l with [] => [] | [x] => x | x :: l => x ++ ";"%char :: with_semicolons l end.
Lemma parts_nonempty fuel before buf has l : parts fuel before buf has l <> [].
Proof.
  revert before buf has l. induction fuel as [|fuel IH]; intros before buf has [|a rest]; cbn [parts]; try done.
  destruct (construct_at _ _) as [[n code]|]; [apply IH|]. destruct (bool_decide _); [done|apply IH].
Qed.
Lemma parts_join fuel before buf has l : (length l <= fuel)%nat ->
  with_semicolons (map fst (parts fuel before buf has l)) = reverse buf ++ l.
Proof.
  revert before buf has l. induction fuel as [|fuel IH]; intros before buf has [|a rest] Hl; cbn [length] in Hl; try lia;
    cbn [parts]; try (cbn; by rewrite app_nil_r).
  destruct (construct_at before (a :: rest)) as [[n code]|] eqn:E.
  - apply construct_at_pos in E. rewrite IH by (rewrite length_drop; cbn [length]; lia).
    rewrite reverse_app, reverse_involutive, <-app_assoc. f_equal. apply take_drop.
  - case_bool_decide as Ha.
    + subst a. cbn [map fst]. pose proof (IH (";"%char :: before) [] false rest ltac:(lia)) as H.
      pose proof (parts_nonempty fuel (";"%char :: before) [] false rest) as Hn.
      destruct (parts fuel _ [] false rest) as [|p ps]; [done|]. cbn [map] in *. change (reverse buf ++ ";"%char :: with_semicolons (p.1 :: map fst ps) = reverse buf ++ ";"%char :: rest). by rewrite H.
    + rewrite IH by lia. by rewrite reverse_cons, <-app_assoc.
Qed.
Lemma parts_dropped fuel before buf has l : (has = false -> only_comments (reverse buf)) ->
  Forall (fun p => p.2 = false -> only_comments p.1) (parts fuel before buf has l).
Proof.
  revert before buf has l. induction fuel as [|fuel IH]; intros before buf has [|a rest] H; cbn [parts]; try (by repeat constructor).
  destruct (construct_at before (a :: rest)) as [[n code]|] eqn:E.
  - apply IH. intros [-> ->]%orb_false_iff. rewrite reverse_app, reverse_involutive. apply only_comments_app; [by apply H|].
    exists [take n (a :: rest)]. cbn. rewrite app_nil_r. split; [done|]. apply list.Forall_singleton. left. by eapply construct_comment.
  - case_bool_decide.
    + constructor; [exact H|]. apply IH. intros _. by exists [].
    + apply IH. intros [-> Ha%negb_false_iff]%orb_false_iff. rewrite reverse_cons. apply only_comments_app; [by apply H|].
      exists [[a]]. split; [done|]. apply list.Forall_singleton. right. eauto.
Qed.

(** A PostgreSQL script is the parts of its split joined by semicolons; the statements are
    the parts with code, stripped, and a part left out is white space and comments only. *)
Lemma a_script_is_its_statements sql_text : exists ps : list (list ascii * bool),
  with_semicolons (map fst ps) = chars sql_text
  /\ split_postgresql_statements sql_text = map (fun p => strip (text p.1)) (List.filter snd ps)
  /\ Forall (fun p => p.2 = false -> only_comments p.1) ps.
Proof.
  exists (parts (length (chars sql_text)) [] [] false (chars sql_text)).
  split_and!; [by rewrite parts_join|reflexivity|]. apply parts_dropped. intros _. by exists [].
Qed.

(** word. *)
Lemma pieces_are_the_text sql db_type :
  mjoin (map snd (_code_pieces sql db_type)) = chars sql /\ Forall (fun p => p.2 <> []) (_code_pieces sql db_type).
Proof. split; [by apply pieces_join|apply pieces_nonempty]. Qed.

(** ** At concrete texts *)
(** A comment in a comment ends at the first end for the binder, and at the last for the split. *)
Example a_name_in_a_nested_comment_is_bound :
  named_placeholders "select 1 /* a /* b */ :c */" "postgresql" = ["c"]
  /\ split_postgresql_statements "/* a /* b */ select 1; */ select 2" = ["/* a /* b */ select 1; */ select 2"].
Proof. by vm_compute. Qed.
Lemma stands_witness : exists out bs,
  bind_named_values "select :a, x::int, ':b' from t where d = :B or :A is null -- :c" [("A", PInt 4); ("b", PNone)] "PostgreSQL" "format" = Ok (out, bs)
  /\ out = "select $1, x::int, ':b' from t where d = $2 or $1 is null -- :c" /\ bs !! 1%nat = Some PNone.
Proof.
  eexists _, _. split_and!; [vm_compute; reflexivity|done|].
  pose proof (a_placeholder_stands_for_its_value "select :a, x::int, ':b' from t where d = :B or :A is null -- :c"
    [("A", PInt 4); ("b", PNone)] "PostgreSQL" "format" _ _ ltac:(vm_compute; reflexivity)) as H. cbv zeta in H.
  destruct H as (_ & H & _). destruct (H 1%nat "b" ltac:(vm_compute; reflexivity)) as (v & Hv & E).
  rewrite Hv. vm_compute in E. by injection E as <-.
Defined.
Lemma prelude_witness : occurs "?" (chars ("DECLARE @day date = ?;" +:+ new_line +:+ "DECLARE @n decimal( 9 ,2) = ?;" +:+ new_line)) = 2%nat.
Proof.
  apply (a_prelude_binds_one_value_per_line
    [[("name", PStr " day"); ("type", PStr "date"); ("required", PBool true)]; [("name", PStr "n"); ("type", PStr "decimal( 9 ,2)"); ("default", PInt 3)]]
    [("day", PStr "2026-01-02' or 1=1"); ("n", PStr " ")] _ [PStr "2026-01-02' or 1=1"; PInt 3]). vm_compute. reflexivity.
Defined.
Lemma define_witness :
  (occurs quote (chars (expand_sqlplus_defines "select '&JOB_NO' from &&t..x where c = '&job_no.'" [("job_no", "A 12"); ("T", "hr")])) <= 4)%nat.
Proof.
  apply (a_checked_define_adds_no_mark "select '&JOB_NO' from &&t..x where c = '&job_no.'" [("job_no", "A 12"); ("T", "hr")] quote);
    [set_solver|repeat constructor|]. vm_compute. repeat constructor.
Defined.
