(* ===== verification/SqlScript.v ===== *)
(** * What else is done to a script before it is sent ([lib/sql_text.py]).

    Named values as they arrive, the settings written into a [DECLARE], an Oracle batch as its
    driver takes it, and a login's password.  Texts are read line by line where the pattern is
    anchored to a line. *)

From Stdlib Require Import SpecFloat.
From S2P Require Import Prelude Py SqlText.

(** ** Values by name *)
Definition is_scalar (v : pyval) : bool := match v with PList _ | PDict _ => false | _ => true end.
Definition add_named (values : pydict) (p : string * pyval) : result sql_error pydict :=
  let key := strip p.1 in
  if negb (is_identifier key) then Err (BadName key)
  else if has_key values (lower key) then Err (NamedTwice (lower key))
  else if negb (is_scalar p.2) then Err (NotScalar key)
  else Ok (assoc_set (lower key) p.2 values).
Definition check_named_values (raw : pyval) : result sql_error pydict :=
  if blank raw then Ok []
  else match raw with PDict d => foldM add_named [] d | _ => Err NotAnObject end.

(** The [&name] and [&&name] markers of a script. *)
Fixpoint markers (fuel : nat) (l : list ascii) : list string :=
  match fuel, l with
  | S fuel, a :: rest =>
      if bool_decide (a = "&"%char) then
        let rest' := match rest with b :: r => if bool_decide (b = "&"%char) then r else rest | [] => [] end in
        match rest' with
        | b :: _ =>
            if is_name_start b then
              let name := take_while is_name_char rest' in
              lower (text name) :: markers fuel (drop (length name) rest')
            else markers fuel rest
        | [] => markers fuel rest
        end
      else markers fuel rest
  | _, _ => []
  end.
Definition sqlplus_substitution_names (sql_text : string) : list string := markers (length (chars sql_text)) (chars sql_text).

(** ** Settings *)
Inductive setting_error : Type := SettingName (key : string) | NotANumber (key : string) | TooLarge (key : string) | DeclaredTimes (key : string) (n : nat).
Definition float_integral (f : spec_float) : bool :=
  match f with
  | S754_zero _ => true
  | S754_finite _ m e => (0 <=? e) || (Z.pos m mod 2 ^ (- e) =? 0)
  | _ => false
  end.
(** An integer that no double is near. *)
Definition float_overflows (n : Z) : bool := 2 ^ 1024 - 2 ^ 970 <=? Z.abs n.
Definition setting_number (key : string) (v : pyval) : result setting_error string :=
  match v with
  | PInt n => if float_overflows n then Err (TooLarge key) else Ok (str_of_int n)
  | PFloat f => Ok (if float_integral f then match int_of_float f with Ok n => str_of_int n | Err _ => "" end else repr_float f)
  | _ => Err (NotANumber key)
  end.
Definition word_then (w : list ascii) (l : list ascii) : option (list ascii) :=
  if is_prefix (map to_lower w) (map to_lower l) then Some (drop (length w) l) else None.
Definition char_then (c : ascii) (l : list ascii) : option (list ascii) :=
  match l with a :: l => if bool_decide (a = c) then Some l else None | [] => None end.
Definition declares_char (a : ascii) : bool := is_alnum a || bool_decide (a ∈ chars "(), ") || bool_decide (a = chr 9).
Definition number_char (a : ascii) : bool := is_digit a || bool_decide (a = "."%char).
(** The text after [DECLARE @name <type> =]. *)
Definition after_head (key l : list ascii) : option (list ascii) :=
  l ← word_then (chars "declare") (skip_blanks l);
  l ← after_blanks l;
  l ← char_then "@" l;
  l ← word_then key l;
  l ← after_blanks l;
  match l with
  | a :: _ => if is_alpha a then l ← char_then "=" (drop (length (take_while declares_char l)) l); Some (skip_blanks l) else None
  | [] => None
  end.
(** The number at the front, when a semicolon follows it. *)
Definition number_at (l : list ascii) : option (list ascii) :=
  let digits := match l with a :: l' => if bool_decide (a = "-"%char) then l' else l | [] => [] end in
  match digits with
  | d :: _ =>
      if is_digit d then
        let value := take (length l - length digits + length (take_while number_char digits)) l in
        match skip_blanks (drop (length value) l) with
        | s :: _ => if bool_decide (s = ";"%char) then Some value else None
        | [] => None
        end
      else None
  | [] => None
  end.
(** [_SQL_SETTING_DECLARE] on one line: its head, its number, and the rest. *)
Definition setting_line (key line : list ascii) : option (list ascii * list ascii * list ascii) :=
  l ← after_head key line;
  value ← number_at l;
  Some (take (length line - length l) line, value, drop (length value) l).
Definition fill_line (key number line : list ascii) : list ascii :=
  match setting_line key line with Some (head, _, rest) => head ++ number ++ rest | None => line end.
Definition declared_times (key : list ascii) (sql : list (list ascii)) : nat := length (omap (setting_line key) sql).
Definition apply_setting (sql : list (list ascii)) (p : string * pyval) : result setting_error (list (list ascii)) :=
  let (key, value) := p in
  if negb (is_identifier key) then Err (SettingName key)
  else
    number ← setting_number key value;
    if (declared_times (chars key) sql =? 1)%nat then Ok (map (fill_line (chars key) (chars number)) sql)
    else Err (DeclaredTimes key (declared_times (chars key) sql)).
Definition apply_sql_settings (sql_text : string) (settings : list (string * pyval)) : result setting_error string :=
  ls ← foldM apply_setting (lines (chars sql_text)) settings; Ok (join new_line (map text ls)).

(** ** An Oracle batch *)
Definition rstrip (s : string) : string := text (reverse (drop_while is_space (reverse (chars s)))).
Definition lstrip (l : list ascii) : list ascii := drop_while is_space l.
Definition is_line_break (a : ascii) : bool := between 10 (code a) 13 || between 28 (code a) 30.
(** [s.splitlines()] *)
Fixpoint splitlines (cur l : list ascii) : list (list ascii) :=
  match l with
  | [] => match cur with [] => [] | _ => [reverse cur] end
  | a :: l =>
      if is_line_break a then
        reverse cur :: match l with
                       | b :: l' => if bool_decide (a = chr 13) && bool_decide (b = chr 10) then splitlines [] l' else splitlines [] l
                       | [] => []
                       end
      else splitlines (a :: cur) l
  end.
Fixpoint skip_comments (fuel : nat) (l : list ascii) : list ascii :=
  let rest := lstrip l in
  match fuel with
  | O => rest
  | S fuel =>
      if is_prefix (chars "--") rest then
        match find_end [chr 10] rest with None => [] | Some n => skip_comments fuel (drop n rest) end
      else if is_prefix (chars "/*") rest then
        match find_end (chars "*/") rest with None => [] | Some n => skip_comments fuel (drop n rest) end
      else rest
  end.
Definition _after_leading_comments (t : string) : list ascii := skip_comments (length (chars t)) (chars t).
Definition spaces_then (l : list ascii) : option (list ascii) :=
  match take_while is_space l with [] => None | ws => Some (drop (length ws) l) end.
(** An optional group, and the white space after it. *)
Definition optional (m : list ascii -> option (list ascii)) (l : list ascii) : list ascii :=
  default l (l' ← m l; spaces_then l').
Definition or_replace (l : list ascii) : option (list ascii) :=
  l ← word_then (chars "or") l; l ← spaces_then l; word_then (chars "replace") l.
Definition editionable (l : list ascii) : option (list ascii) :=
  word_then (chars "editionable") (default l (word_then (chars "non") l)).
Definition ends_word (l : list ascii) : bool := match l with a :: _ => negb (is_word a) | [] => true end.
Definition word_of (words : list string) (l : list ascii) : bool :=
  existsb (fun w => match word_then (chars w) l with Some l => ends_word l | None => false end) words.
Definition is_plsql_block (sql_text : string) : bool :=
  let l := _after_leading_comments sql_text in
  word_of ["begin"; "declare"] l
  || match (l ← word_then (chars "create") l; spaces_then l) with
     | Some l => word_of ["procedure"; "function"; "package"; "trigger"; "type"; "library"] (optional editionable (optional or_replace l))
     | None => false
     end.
Definition without_slash (t : string) : string :=
  let ls := splitlines [] (chars t) in
  match list.last ls with
  | Some l => if String.eqb (strip (text l)) "/" then rstrip (join new_line (map text (removelast ls))) else t
  | None => t
  end.
Definition oracle_statement (batch : string) : string :=
  let t := without_slash (rstrip batch) in
  if is_plsql_block t then t else rstrip (rstrip_chars ";" t).

(** ** The password of a login *)
Inductive password_error : Type := NodeKey (ref : string) | RefNotFound (ref : string).
Definition _NODE_KEYS : list string := ["DBABRAIN_SECRET_KEY"; "DBABRAIN_KEY_BASE64"; "TELEGRAM_BOT_TOKEN"].
(** [getenv]: the environment variable, empty when it is not set. *)
Definition resolve_password (getenv : string -> string) (credential : pydict) (secrets : list (string * string))
    : result password_error string :=
  let field k := str (default (PStr "") (assoc k credential)) in
  let ref := strip (field "password_ref") in
  if String.eqb ref "" then Ok (field "password")
  else if bool_decide (upper ref ∈ _NODE_KEYS) || endswith (upper ref) "BOT_TOKEN" then Err (NodeKey ref)
  else
    let env_value := strip (getenv ref) in
    if negb (String.eqb env_value "") then Ok env_value
    else match assoc ref secrets with Some v => Ok v | None => Err (RefNotFound ref) end.
