(* ===== verification/SqlScriptProofs.v ===== *)
(** * Facts about scripts: a setting is one number, an Oracle batch ends once, names are kept apart. *)

From Stdlib Require Import SpecFloat.
From S2P Require Import Prelude Py SqlText SqlTextProofs SqlScript.

(** ** The head of a [DECLARE] *)
Definition stops (p : ascii -> bool) (l : list ascii) : Prop := match l with a :: _ => p a = false | [] => True end.
Definition blanks (l : list ascii) : Prop := Forall (fun a => is_blank a = true) l.
Lemma take_while_app p (l l' : list ascii) : Forall (fun a => p a = true) l -> stops p l' -> take_while p (l ++ l') = l.
Proof.
  induction 1 as [|a l Ha _ IH]; intros Hs; cbn.
  - destruct l' as [|b l']; [done|]. cbn in *. by rewrite Hs.
  - rewrite Ha. f_equal. by apply IH.
Qed.
Lemma drop_take_while p (l l' : list ascii) : Forall (fun a => p a = true) l -> stops p l' ->
  drop (length (take_while p (l ++ l'))) (l ++ l') = l'.
Proof. intros H Hs. rewrite take_while_app by done. apply drop_app_length. Qed.
Lemma take_while_stops p (l : list ascii) : stops p (drop (length (take_while p l)) l).
Proof. induction l as [|a l IH]; [done|]. cbn. destruct (p a) eqn:E; cbn; [exact IH|exact E]. Qed.
Lemma skip_blanks_app b l : blanks b -> stops is_blank l -> skip_blanks (b ++ l) = l.
Proof. apply drop_take_while. Qed.
Lemma skip_blanks_inv l l' : skip_blanks l = l' -> exists b, l = b ++ l' /\ blanks b /\ stops is_blank l'.
Proof.
  intros <-. exists (take_while is_blank l). split_and!; [apply take_while_drop|apply take_while_all|apply take_while_stops].
Qed.
Lemma after_blanks_app b l : b <> [] -> blanks b -> stops is_blank l -> after_blanks (b ++ l) = Some l.
Proof.
  intros Hb H Hs. unfold after_blanks. rewrite take_while_app by done. destruct b; [done|]. f_equal. apply (drop_app_length (a :: b) l).
Qed.
Lemma after_blanks_inv l l' : after_blanks l = Some l' -> exists b, l = b ++ l' /\ b <> [] /\ blanks b /\ stops is_blank l'.
Proof.
  unfold after_blanks. destruct (take_while is_blank l) as [|a bs] eqn:E; [done|]. intros [= <-]. exists (a :: bs).
  change (S (length bs)) with (length (a :: bs)). rewrite <-E.
  split_and!; [apply take_while_drop|by rewrite E|apply take_while_all|apply take_while_stops].
Qed.
Definition same_word (w k : list ascii) : Prop := map to_lower w = map to_lower k.
Lemma is_prefix_inv p l : is_prefix p l = true -> exists r, l = p ++ r.
Proof.
  revert l. induction p as [|a p IH]; intros l; [by exists l|]. destruct l as [|b l]; [done|]. cbn [is_prefix].
  intros [->%bool_decide_eq_true (r & ->)%IH]%andb_prop. by exists r.
Qed.
Lemma is_prefix_self p l : is_prefix p (p ++ l) = true.
Proof. induction p as [|a p IH]; [done|]. cbn. rewrite IH. by rewrite bool_decide_eq_true_2. Qed.
Lemma word_then_app w k l : same_word w k -> word_then w (k ++ l) = Some l.
Proof.
  intros H. unfold word_then. rewrite map_app, H, is_prefix_self. f_equal.
  replace (length w) with (length k); [apply drop_app_length|]. apply (f_equal length) in H. rewrite !length_map in H. done.
Qed.
Lemma word_then_inv w l l' : word_then w l = Some l' -> exists k, l = k ++ l' /\ same_word w k.
Proof.
  unfold word_then. destruct (is_prefix _ _) eqn:E; [|done]. intros [= <-]. apply is_prefix_inv in E as [r E].
  exists (take (length w) l). split; [by rewrite take_drop|]. unfold same_word.
  rewrite <-firstn_map, E, <-(length_map to_lower w). symmetry. apply take_app_length.
Qed.
Lemma char_then_inv c l l' : char_then c l = Some l' -> l = c :: l'.
Proof. unfold char_then. destruct l as [|a l]; [done|]. case_bool_decide as H; [|done]. intros [= <-]. by rewrite H. Qed.
Lemma char_then_cons c l : char_then c (c :: l) = Some l.
Proof. unfold char_then. by rewrite bool_decide_eq_true_2. Qed.
(** What [after_head] reads. *)
Definition head_shape (key h : list ascii) : Prop := exists b1 w b2 k b3 t ty b4,
  h = b1 ++ w ++ b2 ++ "@"%char :: k ++ b3 ++ (t :: ty) ++ "="%char :: b4
  /\ blanks b1 /\ same_word (chars "declare") w /\ b2 <> [] /\ blanks b2 /\ same_word key k /\ b3 <> [] /\ blanks b3
  /\ is_alpha t = true /\ Forall (fun a => declares_char a = true) ty /\ blanks b4.
Lemma alpha_not_blank a : is_alpha a = true -> is_blank a = false.
Proof. destruct a as [[] [] [] [] [] [] [] []]; vm_compute; done. Qed.
Lemma alpha_declares a : is_alpha a = true -> declares_char a = true.
Proof. unfold declares_char, is_alnum. by intros ->. Qed.
Lemma lower_d a : to_lower a = "d"%char -> is_blank a = false.
Proof. destruct a as [[] [] [] [] [] [] [] []]; vm_compute; done. Qed.
Lemma after_head_inv key l s : after_head key l = Some s -> exists h, l = h ++ s /\ head_shape key h /\ stops is_blank s.
Proof.
  unfold after_head. intros (l1 & H1 & (l2 & H2 & (l3 & H3 & (l4 & H4 & (l5 & H5 & H)%bind_Some)%bind_Some)%bind_Some)%bind_Some)%bind_Some.
  destruct (skip_blanks_inv l _ eq_refl) as (b1 & E0 & Hb1 & _). apply word_then_inv in H1 as (w & E1 & Hw).
  apply after_blanks_inv in H2 as (b2 & -> & Hb2 & Hb2' & _). apply char_then_inv in H3 as ->.
  apply word_then_inv in H4 as (k & -> & Hk). apply after_blanks_inv in H5 as (b3 & -> & Hb3 & Hb3' & _).
  destruct l5 as [|t l5]; [done|]. destruct (is_alpha t) eqn:Ht; [|done]. apply bind_Some in H as (l6 & H6 & [= H]).
  apply char_then_inv in H6. cbn [take_while] in H6. rewrite (alpha_declares t Ht) in H6. cbn [length drop] in H6.
  apply skip_blanks_inv in H as (b4 & -> & Hb4 & Hs). rewrite E1 in E0.
  exists (b1 ++ w ++ b2 ++ "@"%char :: k ++ b3 ++ (t :: take_while declares_char l5) ++ "="%char :: b4).
  split_and!; [|do 8 eexists; split_and!; try reflexivity; try done; apply take_while_all|done].
  rewrite E0, (take_while_drop declares_char l5) at 1. rewrite H6.
  repeat (rewrite <-app_assoc || rewrite <-app_comm_cons). done.
Qed.
Lemma after_head_app key h s : head_shape key h -> stops is_blank s -> after_head key (h ++ s) = Some s.
Proof.
  intros (b1 & w & b2 & k & b3 & t & ty & b4 & -> & Hb1 & Hw & Hb2 & Hb2' & Hk & Hb3 & Hb3' & Ht & Hty & Hb4) Hs.
  unfold after_head. repeat (rewrite <-app_assoc || rewrite <-app_comm_cons).
  rewrite skip_blanks_app; [|done|].
  2: { destruct w as [|a w]; [done|]. unfold same_word in Hw. cbn in Hw. injection Hw as Ha _. cbn. by apply lower_d. }
  rewrite word_then_app by done. cbn [mbind option_bind]. rewrite after_blanks_app by done. cbn [mbind option_bind].
  rewrite char_then_cons. cbn [mbind option_bind]. rewrite word_then_app by done. cbn [mbind option_bind].
  rewrite after_blanks_app; [|done|done|by apply alpha_not_blank]. cbn [mbind option_bind]. rewrite Ht.
  change (t :: ty ++ "="%char :: b4 ++ s) with ((t :: ty) ++ "="%char :: b4 ++ s).
  rewrite drop_take_while; [|by constructor; [apply alpha_declares|]|done]. rewrite char_then_cons. cbn [mbind option_bind].
  by rewrite skip_blanks_app.
Qed.

(** ** A number in its place *)
Definition numeric (l : list ascii) : Prop := exists sign d ds, l = sign ++ d :: ds
  /\ (sign = [] \/ sign = ["-"%char]) /\ is_digit d = true /\ Forall (fun a => number_char a = true) ds.
Definition rest_shape (rest : list ascii) : Prop := exists b post, rest = b ++ ";"%char :: post /\ blanks b.
Lemma digit_not_minus d : is_digit d = true -> d <> "-"%char /\ is_blank d = false /\ number_char d = true.
Proof. intros H. split_and!; [by intros ->| |unfold number_char; by rewrite H]. revert H. destruct d as [[] [] [] [] [] [] [] []]; vm_compute; done. Qed.
Lemma rest_stops rest : rest_shape rest -> stops number_char rest.
Proof.
  intros (b & post & -> & Hb). destruct Hb as [|a b Ha _]; [done|]. cbn. revert Ha. destruct a as [[] [] [] [] [] [] [] []]; vm_compute; done.
Qed.
Lemma number_at_app v rest : numeric v -> rest_shape rest -> number_at (v ++ rest) = Some v.
Proof.
  intros (sign & d & ds & -> & Hs & Hd & Hds) Hr. destruct (digit_not_minus d Hd) as (Hm & _ & Hn).
  assert (Hv : take_while number_char (d :: ds ++ rest) = d :: ds)
    by (apply (take_while_app number_char (d :: ds) rest); [by constructor|by apply rest_stops]).
  destruct Hr as (b & post & -> & Hb).
  assert (Hk : skip_blanks (b ++ ";"%char :: post) = ";"%char :: post) by (by apply skip_blanks_app).
  unfold number_at. destruct Hs as [-> | ->]; cbn [app].
  - rewrite bool_decide_eq_false_2 by done. cbv zeta. rewrite Hd, Hv, Nat.sub_diag. cbn [Nat.add].
    change (d :: ds ++ b ++ ";"%char :: post) with ((d :: ds) ++ b ++ ";"%char :: post).
    by rewrite take_app_length, drop_app_length, Hk.
  - cbn [bool_decide]. rewrite bool_decide_eq_true_2 by done. cbv zeta. rewrite Hd, Hv.
    replace (length ("-"%char :: d :: ds ++ b ++ ";"%char :: post) - length (d :: ds ++ b ++ ";"%char :: post) + length (d :: ds))%nat
      with (length ("-"%char :: d :: ds)) by (cbn [length]; lia).
    change ("-"%char :: d :: ds ++ b ++ ";"%char :: post) with (("-"%char :: d :: ds) ++ b ++ ";"%char :: post).
    by rewrite take_app_length, drop_app_length, Hk.
Qed.
Lemma number_at_inv l v : number_at l = Some v -> exists rest, l = v ++ rest /\ numeric v /\ rest_shape rest.
Proof.
  unfold number_at. cbv zeta. set (digits := match l with a :: l' => if bool_decide (a = "-"%char) then l' else l | [] => [] end).
  assert (Hl : exists sign, l = sign ++ digits /\ (sign = [] \/ sign = ["-"%char])).
  { subst digits. destruct l as [|a l]; [by exists []; auto|]. case_bool_decide as H; [rewrite H; exists ["-"%char]; auto|exists []; auto]. }
  destruct Hl as (sign & Hl & Hsign). destruct digits as [|d ds]; [done|]. destruct (is_digit d) eqn:Hd; [|done].
  destruct (digit_not_minus d Hd) as (_ & _ & Hn).
  assert (Hv : take (length l - length (d :: ds) + length (take_while number_char (d :: ds))) l = sign ++ take_while number_char (d :: ds)).
  { rewrite Hl, length_app. replace (length sign + length (d :: ds) - length (d :: ds))%nat with (length sign) by lia.
    rewrite take_app_add. f_equal. rewrite (take_while_drop number_char (d :: ds)) at 2. apply take_app_length. }
  rewrite Hv. set (value := sign ++ _). assert (Hd' : l = value ++ drop (length value) l).
  { assert (E : value = take (length value) l). { rewrite Hl. unfold value. rewrite length_app, take_app_add. f_equal.
      rewrite (take_while_drop number_char (d :: ds)) at 3. by rewrite take_app_length. }
    rewrite E at 1. by rewrite take_drop. }
  destruct (skip_blanks _) as [|s post] eqn:Es; [done|]. case_bool_decide as H; [|done]. intros [= <-].
  exists (drop (length value) l). apply skip_blanks_inv in Es as (b & Eb & Hb & _). subst s. split_and!; [exact Hd'| |by exists b, post].
  exists sign, d, (take_while number_char ds). cbn [take_while] in value. unfold value. rewrite Hn. split_and!; [done|done|done|apply take_while_all].
Qed.
Lemma setting_line_app key head v rest : head_shape key head -> numeric v -> rest_shape rest ->
  setting_line key (head ++ v ++ rest) = Some (head, v, rest).
Proof.
  intros Hh Hv Hr. unfold setting_line. rewrite after_head_app; [|done|].
  2: { destruct Hv as (sign & d & ds & -> & [-> | ->] & Hd & _); [|done]. cbn. by apply digit_not_minus. }
  cbn [mbind option_bind]. rewrite number_at_app by done. cbn [mbind option_bind]. rewrite drop_app_length. do 3 f_equal.
  rewrite length_app. replace (_ - _)%nat with (length head) by lia. apply take_app_length.
Qed.
Lemma setting_line_inv key line head v rest : setting_line key line = Some (head, v, rest) ->
  line = head ++ v ++ rest /\ head_shape key head /\ numeric v /\ rest_shape rest.
Proof.
  unfold setting_line. intros (l & Hl & (v' & Hv & [= <- <- <-])%bind_Some)%bind_Some.
  apply after_head_inv in Hl as (h & -> & Hh & _). apply number_at_inv in Hv as (rest & -> & Hn & Hr).
  rewrite !length_app. replace (_ - _)%nat with (length h) by lia. by rewrite take_app_length, drop_app_length.
Qed.

(** ** Settings *)
Lemma omap_one {A B} (f : A -> option B) l : length (omap f l) = 1%nat ->
  exists pre x y post, l = pre ++ x :: post /\ f x = Some y /\ Forall (fun z => f z = None) pre /\ Forall (fun z => f z = None) post.
Proof.
  induction l as [|z l IH]; [done|]. cbn [omap list_omap]. destruct (f z) as [y|] eqn:E; cbn [length].
  - intros [= H]. exists [], z, y, l. split_and!; [done|done|constructor|]. clear IH E. induction l as [|w l IH]; [constructor|].
    cbn [omap list_omap] in H. destruct (f w) eqn:E; [done|]. constructor; [done|]. by apply IH.
  - intros (pre & x & y & post & -> & Hx & Hp & Hq)%IH. exists (z :: pre), x, y, post. split_and!; [done|done|by constructor|done].
Qed.
Lemma fill_none key number ls : Forall (fun l => setting_line key l = None) ls -> map (fill_line key number) ls = ls.
Proof. induction 1 as [|l ls Hl _ IH]; [done|]. cbn [map]. rewrite IH. f_equal. unfold fill_line. by rewrite Hl. Qed.
Lemma int_numeric n : numeric (chars (str_of_int n)).
Proof.
  assert (Hpos : forall m, 0 <= m -> exists d ds, chars (str_of_int m) = d :: ds /\ is_digit d = true /\ Forall (fun a => number_char a = true) ds).
  { intros m Hm. destruct (str_of_nonneg_digits m Hm) as (l & E & Hn & Hl & _). rewrite E. destruct l as [|d ds]; [done|].
    inversion Hl as [|? ? Hd Hds]; subst. exists d, ds. split_and!; [done|done|]. eapply list.Forall_impl; [exact Hds|].
    intros a Ha. apply digit_not_minus in Ha as (_ & _ & ?). done. }
  destruct (decide (0 <= n)) as [Hn|Hn].
  - destruct (Hpos n Hn) as (d & ds & E & ? & ?). exists [], d, ds. rewrite E. auto.
  - destruct (Hpos (- n) ltac:(lia)) as (d & ds & E & ? & ?). exists ["-"%char], d, ds. split_and!; [|auto|done|done].
    cbn [app]. rewrite <-E. destruct n; [lia|lia|done].
Qed.
Definition read_setting (key : string) (sql : list (list ascii)) : list (list ascii) :=
  map (fun s => s.1.2) (omap (setting_line (chars key)) sql).

(** Applying a setting changes the number of the one line that declares it and nothing
    else; read back, the line has that number. *)
Lemma a_setting_is_one_number sql_text key value out :
  apply_sql_settings sql_text [(key, value)] = Ok out ->
  exists number pre head old rest post,
    setting_number key value = Ok number
    /\ lines (chars sql_text) = pre ++ (head ++ old ++ rest) :: post
    /\ out = join new_line (map text (pre ++ (head ++ chars number ++ rest) :: post))
    /\ read_setting key (lines (chars sql_text)) = [old] /\ numeric old
    /\ (numeric (chars number) -> read_setting key (pre ++ (head ++ chars number ++ rest) :: post) = [chars number])
    /\ (forall n, value = PInt n -> number = str_of_int n /\ numeric (chars number)).
Proof.
  unfold apply_sql_settings. intros (ls & (ls' & H & [= ->])%result_bind_ok & [= <-])%result_bind_ok. unfold apply_setting in H.
  destruct (is_identifier key); [|done]. cbn [negb] in H. apply result_bind_ok in H as (number & Hn & H).
  destruct (declared_times _ _ =? 1)%nat eqn:E1; [|done]. injection H as <-. apply Nat.eqb_eq in E1.
  destruct (omap_one _ _ E1) as (pre & line & [[head old] rest] & post & El & Es & Hpre & Hpost).
  destruct (setting_line_inv _ _ _ _ _ Es) as (-> & Hh & Hv & Hr).
  exists number, pre, head, old, rest, post. split_and!; [done|done| | |done| |].
  - rewrite El, map_app, map_cons, !fill_none by done. unfold fill_line. by rewrite Es.
  - unfold read_setting. rewrite El, omap_app. cbn [omap list_omap]. by rewrite Es, !omap_none by done.
  - intros Hnum. unfold read_setting. rewrite omap_app. cbn [omap list_omap].
    by rewrite (setting_line_app _ _ _ _ Hh Hnum Hr), !omap_none by done.
  - intros n ->. cbn in Hn. destruct (float_overflows n); [done|]. injection Hn as <-. split; [done|]. apply int_numeric.
Qed.
(** Not a number is a number, so it is written. *)
Example not_a_number_is_written : apply_sql_settings "DECLARE @a float = 5;" [("a", PFloat S754_nan)] = Ok "DECLARE @a float = nan;".
Proof. by vm_compute. Qed.

(** ** Values by name *)
Lemma add_named_inv values p values' : add_named values p = Ok values' ->
  is_identifier (strip p.1) = true /\ is_scalar p.2 = true /\ (lower (strip p.1) ∉ map fst values)
  /\ values' = values ++ [(lower (strip p.1), p.2)].
Proof.
  unfold add_named. destruct (is_identifier _); [|done]. cbn [negb]. destruct (has_key values (lower (strip p.1))) eqn:E; [done|].
  destruct (is_scalar p.2); [|done]. cbn [negb]. intros [= <-]. assert (Hk : lower (strip p.1) ∉ map fst values).
  { intros Hin. unfold has_key in E. destruct (assoc _ values) eqn:Ea; [done|]. clear E. induction values as [|[k v] vs IH]; [by apply not_elem_of_nil in Hin|].
    cbn [assoc map fst] in *. revert Ea. destruct (String.eqb_spec (lower (strip p.1)) k) as [E|Hne]; [done|]. intros Ea. apply IH; [done|set_solver]. }
  split_and!; [done|done|done|]. by apply assoc_set_fresh.
Qed.
Lemma foldM_add_named d values values' : foldM add_named values d = Ok values' ->
  NoDup (map fst values) -> NoDup (map fst values') /\ exists more, values' = values ++ more /\
  Forall2 (fun p q => is_identifier (strip p.1) = true /\ is_scalar p.2 = true /\ q = (lower (strip p.1), p.2)) d more.
Proof.
  revert values. induction d as [|p d IH]; intros values; cbn [foldM].
  - intros [= <-] H. split; [done|]. exists []. rewrite app_nil_r. by split.
  - intros (v1 & (Hi & Hs & Hf & ->)%add_named_inv & H)%result_bind_ok Hnd. destruct (IH _ H) as (H1 & more & -> & H2).
    + rewrite map_app. apply list.NoDup_app. split_and!; [done| |apply NoDup_singleton]. set_solver.
    + split; [done|]. exists ((lower (strip p.1), p.2) :: more). split; [by rewrite <-app_assoc|]. by constructor.
Qed.

(** word. *)
Lemma named_values_keep_their_names d values : check_named_values (PDict d) = Ok values ->
  NoDup (map fst values)
  /\ Forall2 (fun p q => is_identifier (strip p.1) = true /\ is_scalar p.2 = true /\ q = (lower (strip p.1), p.2)) d values.
Proof.
  unfold check_named_values. cbn [blank]. intros H. destruct (foldM_add_named _ _ _ H) as (H1 & more & E & H2); [constructor|]. by subst.
Qed.
(** Two semicolons with white space between leave one, and Oracle refuses it. *)
Example a_second_semicolon_is_sent : oracle_statement "select 1 from dual; ;" = "select 1 from dual;".
Proof. by vm_compute. Qed.

(** ** At concrete texts *)
Definition a_script : string := "-- limits" +:+ new_line +:+ "  DECLARE @skip_above decimal(10, 2) =  500000 ; -- rows" +:+ new_line.
Lemma setting_witness : exists old, read_setting "skip_above" (lines (chars a_script)) = [old] /\ old = chars "500000".
Proof.
  destruct (a_setting_is_one_number a_script "skip_above" (PInt (-7)) _ ltac:(vm_compute; reflexivity))
    as (number & pre & head & old & rest & post & _ & _ & _ & Hold & _).
  exists old. split; [exact Hold|]. vm_compute in Hold. by injection Hold as <-.
Defined.
Lemma named_witness : NoDup (map fst [("a", PInt 1); ("b", PNone)]).
Proof. apply (named_values_keep_their_names [(" A", PInt 1); ("b", PNone)]). vm_compute. reflexivity. Defined.
