(* ===== verification/SqlTask.v ===== *)
(** * What a SQL task runs with: parameters, plan, and the statements that are sent.

    [sql_tasks/runner_parameters.py], [sql_tasks/runner_plan.py], the request of
    [sql_tasks/runner_execute.py] and, of [common/sql_run.py], how a request becomes the
    statements of a cursor with the values bound to each. *)

From Stdlib Require Import SpecFloat.
From S2P Require Import Prelude Py SqlText SqlScript.

Inductive task_error : Type :=
| Sql (e : sql_error) | UnknownParameters (names : list string) | ParameterRequired (name : string)
| TooManyValues (given left_ : nat) | NoClosingQuotation | NoEscapedCharacter
| UnsupportedEngine (db_type : string) | NoSql | TwoBindings | NotNamed (engine : string) | Unread (names : list string)
| BridgeBinds.
Definition lift {A} (m : result sql_error A) : result task_error A :=
  match m with Ok a => Ok a | Err e => Err (Sql e) end.

(** ** Parameters *)
(** The declared parameters by lower-case name. *)
Definition declared_by_name (parameters : list pydict) : list (string * pydict) :=
  fold_left (fun d p => assoc_set (lower (parameter_name_of p)) p d) parameters [].
Definition supplied_by_name {V} (f : pyval -> V) (values : pydict) : list (string * V) :=
  fold_left (fun d p => assoc_set (lower (strip p.1)) (f p.2) d) values [].
Definition unknown_names {V} (supplied : list (string * V)) (declared : list (string * pydict)) : list string :=
  List.filter (fun n => match assoc n declared with Some _ => false | None => true end) (map fst supplied).
Definition refuse_unknown {V} (supplied : list (string * V)) (declared : list (string * pydict)) : result task_error unit :=
  raise_when (negb (bool_decide (unknown_names supplied declared = [])) && negb (bool_decide (declared = [])))
    (UnknownParameters (unknown_names supplied declared)).
Definition is_blank_text (s : string) : bool := String.eqb (strip s) "".
Definition define_value (supplied : list (string * string)) (p : string * pydict) : result task_error (option string) :=
  let (name, parameter) := p in
  let given := default "" (assoc name supplied) in
  if negb (is_blank_text given) then Ok (Some given)
  else if negb (is_blank_text (str (py_or (get parameter "default") (PStr "")))) then Ok (Some (str (get parameter "default")))
  else if truthy (default (PBool false) (assoc "required" parameter)) then Err (ParameterRequired name)
  else Ok None.
Definition add_define (supplied : list (string * string)) (values : list (string * string)) (p : string * pydict)
    : result task_error (list (string * string)) :=
  v ← define_value supplied p;
  match v with
  | Some v => _ ← lift (check_sqlplus_define_value p.1 v); Ok (assoc_set p.1 v values)
  | None => Ok values
  end.
Definition legacy_define_values (parameters : list pydict) (parameter_values : pydict) : result task_error (list (string * string)) :=
  let declared := declared_by_name parameters in
  let supplied := supplied_by_name str parameter_values in
  _ ← refuse_unknown supplied declared;
  foldM (add_define supplied) [] declared.
Definition named_value (supplied : pydict) (p : string * pydict) : result task_error pyval :=
  let (name, parameter) := p in
  let given := default PNone (assoc name supplied) in
  if negb (is_none given) && negb (is_blank_text (str given)) then Ok given
  else match assoc "default" parameter with
       | Some v => Ok v
       | None => if truthy (default (PBool false) (assoc "required" parameter)) then Err (ParameterRequired name) else Ok PNone
       end.
Definition text_of (v : pyval) : string := match v with PNone => "" | _ => str v end.
Definition add_value (bound_here substituted_here : list string) (supplied : pydict)
    (s : list (string * string) * pydict) (p : string * pydict) : result task_error (list (string * string) * pydict) :=
  let (defines, named) := s in
  value ← named_value supplied p;
  let named := if bool_decide (p.1 ∈ bound_here) then assoc_set p.1 value named else named in
  if bool_decide (p.1 ∈ substituted_here) && negb (is_blank_text (text_of value)) then
    _ ← lift (check_sqlplus_define_value p.1 (str value)); Ok (assoc_set p.1 (str value) defines, named)
  else Ok (defines, named).
Definition named_parameter_values (parameters : list pydict) (parameter_values : pydict) (sql_text db_type : string)
    : result task_error (list (string * string) * pydict) :=
  let declared := declared_by_name parameters in
  let supplied := supplied_by_name id parameter_values in
  _ ← refuse_unknown supplied declared;
  let substituted_here := if String.eqb db_type "oracle" then sqlplus_substitution_names sql_text else [] in
  foldM (add_value (named_placeholders sql_text db_type) substituted_here supplied) ([], []) declared.

(** *** As they are typed *)
(** [shlex.split] of the standard library: quotes of both kinds, and the backslash. *)
Definition is_shlex_space (a : ascii) : bool := bool_decide (a ∈ [" "%char; chr 9; chr 13; chr 10]).
Inductive shlex_state : Type := Between | Inside | InQuote (q : ascii) | Escaped (after : option ascii).
Definition word_out (quoted : bool) (token : list ascii) : list string :=
  if quoted || negb (bool_decide (token = [])) then [text (reverse token)] else [].
Fixpoint shlex (st : shlex_state) (quoted : bool) (token l : list ascii) : result task_error (list string) :=
  match l with
  | [] => match st with
          | InQuote _ => Err NoClosingQuotation
          | Escaped _ => Err NoEscapedCharacter
          | _ => Ok (word_out quoted token)
          end
  | a :: l =>
      let opens := bool_decide (a = quote) || bool_decide (a = chr 34) in
      match st with
      | Between =>
          if is_shlex_space a then shlex Between false [] l
          else if bool_decide (a = "\"%char) then shlex (Escaped None) false [] l
          else if opens then shlex (InQuote a) true [] l
          else shlex Inside false [a] l
      | Inside =>
          if is_shlex_space a then
            ws ← shlex Between false [] l; Ok (word_out quoted token ++ ws)
          else if opens then shlex (InQuote a) true token l
          else if bool_decide (a = "\"%char) then shlex (Escaped None) quoted token l
          else shlex Inside quoted (a :: token) l
      | InQuote q =>
          if bool_decide (a = q) then shlex Inside quoted token l
          else if bool_decide (a = "\"%char) && bool_decide (q = chr 34) then shlex (Escaped (Some q)) quoted token l
          else shlex (InQuote q) quoted (a :: token) l
      | Escaped None => shlex Inside quoted (a :: token) l
      | Escaped (Some q) =>
          shlex (InQuote q) quoted (if bool_decide (a = "\"%char) || bool_decide (a = q) then a :: token else a :: "\"%char :: token) l
      end
  end.
Definition POSITIONAL_PARAMETERS_KEY : string := "=positional=".
(** [s.partition("=")]; nothing when there is no such character. *)
Fixpoint partition_eq (l : list ascii) : option (list ascii * list ascii) :=
  match l with
  | [] => None
  | a :: l => if bool_decide (a = "="%char) then Some ([], l)
              else match partition_eq l with Some (x, y) => Some (a :: x, y) | None => None end
  end.
Definition parse_pair (s : pydict * list pyval) (pair : string) : pydict * list pyval :=
  if String.eqb (strip pair) "-" then s
  else match partition_eq (chars pair) with
       | Some (name, value) =>
           if String.eqb (strip (text name)) "" then (s.1, s.2 ++ [PStr pair])
           else (assoc_set (strip (text name)) (PStr (text value)) s.1, s.2)
       | None => (s.1, s.2 ++ [PStr pair])
       end.
(** The values without a name are kept as the list that the JSON text under their key holds. *)
Definition parse_parameter_arguments (pairs : list string) (joined : string) : result task_error pydict :=
  more ← (if is_blank_text joined then Ok [] else shlex Between false [] (chars joined));
  let '(values, positional) := fold_left parse_pair (pairs ++ more) ([], []) in
  Ok (match positional with [] => values | _ => assoc_set POSITIONAL_PARAMETERS_KEY (PList positional) values end).
Definition without_key (k : string) (d : pydict) : pydict := List.filter (fun p => negb (String.eqb p.1 k)) d.
Definition declared_names (parameters : list pydict) : list string :=
  List.filter (fun n => negb (String.eqb n "")) (map parameter_name_of parameters).
Definition bind_parameter_values (parameters : list pydict) (parameter_values : pydict) : result task_error pydict :=
  let values := without_key POSITIONAL_PARAMETERS_KEY parameter_values in
  match get parameter_values POSITIONAL_PARAMETERS_KEY with
  | PList (v :: vs) =>
      let positional := v :: vs in
      let unfilled := List.filter (fun n => negb (has_key values n)) (declared_names parameters) in
      if (length unfilled <? length positional)%nat then Err (TooManyValues (length positional) (length unfilled))
      else Ok (fold_left (fun d p => assoc_set p.1 p.2 d) (zip unfilled positional) values)
  | _ => Ok values
  end.

(** ** The plan *)
Record ExecutionStep := mkStep {
  file_no : nat; total : nat; sql_path : string; configured_name : string; batch_label : string; parameter_values : pydict }.
Definition step_label (path_name : string -> string) (s : ExecutionStep) : string :=
  let base := "[" +:+ str_of_int (Z.of_nat (file_no s)) +:+ "/" +:+ str_of_int (Z.of_nat (total s)) +:+ "] " +:+ path_name (sql_path s) in
  if String.eqb (batch_label s) "" then base else base +:+ " " +:+ batch_label s.
Definition name_of (names : list string) (index : nat) (path : string) : string := default path (names !! index).
Section plan.
Context (sql_paths configured_names final_paths final_names : list string) (base : pydict) (payloads : option (list string)) (payload_parameter : string).
Definition chunks : list (option string) := match payloads with Some ps => map Some ps | None => [None] end.
Definition plan_total : nat := (length sql_paths * length chunks + length final_paths)%nat.
Definition step_values (payload : option string) : pydict :=
  match payload with
  | Some p => if String.eqb payload_parameter "" then base else assoc_set payload_parameter (PStr p) base
  | None => base
  end.
Definition chunk_label (batch_no : nat) (payload : option string) : string :=
  match payload with
  | Some _ => "[batch " +:+ str_of_int (Z.of_nat batch_no) +:+ "/" +:+ str_of_int (Z.of_nat (length chunks)) +:+ "]"
  | None => ""
  end.
(** The steps of one chunk, numbered from [no]. *)
Fixpoint chunk_steps (no index : nat) (paths : list string) (label : string) (values : pydict) (names : list string) : list ExecutionStep :=
  match paths with
  | [] => []
  | path :: paths =>
      mkStep no plan_total path (name_of names index path) label values :: chunk_steps (S no) (S index) paths label values names
  end.
Fixpoint batch_steps (no batch_no : nat) (l : list (option string)) : list ExecutionStep :=
  match l with
  | [] => []
  | payload :: l =>
      chunk_steps no 0 sql_paths (chunk_label batch_no payload) (step_values payload) configured_names
      ++ batch_steps (length sql_paths + no) (S batch_no) l
  end.
Definition build_execution_plan : list ExecutionStep :=
  batch_steps 1 1 chunks
  ++ chunk_steps (S (length sql_paths * length chunks)) 0 final_paths (match payloads with Some _ => "[final]" | None => "" end) base final_names.
End plan.

(** ** The request *)
Definition db_type_aliases : list (string * string) :=
  [("mssql", "sqlserver"); ("sql_server", "sqlserver"); ("sqlsvr", "sqlserver"); ("postgres", "postgresql");
   ("pgsql", "postgresql"); ("pg", "postgresql"); ("mariadb", "mysql"); ("oracle-xe", "oracle"); ("oraclexe", "oracle")].
Definition normalize_db_type (db_type : string) : string :=
  let value := lower (strip db_type) in default value (assoc value db_type_aliases).
Definition is_legacy (sql_access : pyval) : bool :=
  match sql_access with
  | PDict d => bool_decide (lower (strip (str (py_or (get d "method") (PStr "direct")))) ∈ ["api"; "subprocess"])
  | _ => false
  end.
Definition NAMED_BIND_DB_TYPES : list string := ["oracle"; "postgresql"].
Definition SQL_TASK_DB_TYPES : list string := ["sqlserver"; "oracle"; "postgresql"].
Record Request := mkRequest { define : list (string * string); named_params : pydict; prelude : string; params : list pyval }.
Definition task_request (parameters : list pydict) (legacy : bool) (db_type sql_text : string) (values : pydict) : result task_error Request :=
  let engine := normalize_db_type db_type in
  if negb (bool_decide (engine ∈ SQL_TASK_DB_TYPES)) then Err (UnsupportedEngine db_type)
  else if legacy then d ← legacy_define_values parameters values; Ok (mkRequest d [] "" [])
  else if bool_decide (engine ∈ NAMED_BIND_DB_TYPES) then
    '(d, named) ← named_parameter_values parameters values sql_text engine; Ok (mkRequest d named "" [])
  else '(p, bs) ← lift (build_parameter_prelude parameters values); Ok (mkRequest [] [] p bs).

(** ** The statements *)
Fixpoint go_batches (current : list string) (l : list string) : list string :=
  let batch := strip (join new_line (reverse current)) in
  let here := if String.eqb batch "" then [] else [batch] in
  match l with
  | [] => here
  | line :: l => if String.eqb (upper (strip line)) "GO" then here ++ go_batches [] l else go_batches (line :: current) l
  end.
Definition split_sql_batches (sql_text : string) : list string := go_batches [] (map text (splitlines [] (chars sql_text))).
Definition split_batches_for (sql_text engine : string) (statements : bool) : list string :=
  let batches := split_sql_batches sql_text in
  if String.eqb engine "oracle" then map oracle_statement batches
  else if String.eqb engine "postgresql" && statements then mjoin (map split_postgresql_statements batches)
  else batches.
Definition check_named_params (sql_text engine : string) (named : pydict) : result task_error unit :=
  match named with
  | [] => Ok tt
  | _ =>
      if negb (bool_decide (engine ∈ NAMED_BIND_DB_TYPES)) then Err (NotNamed engine)
      else
        let said := named_placeholders sql_text engine in
        let unread := List.filter (fun n => negb (bool_decide (n ∈ said))) (map fst named) in
        raise_when (negb (bool_decide (unread = []))) (Unread unread)
  end.
(** [parameter_style]: pg8000's is what this process set it to. *)
Definition parameter_style (pg_style engine : string) : string :=
  if String.eqb engine "oracle" then "numeric" else pg_style.
(** One statement with the values its cursor is given. *)
Definition statement_of (pg_style engine : string) (p : string) (bound : list pyval) (named : pydict) (batch : string)
    : result sql_error (string * list pyval) :=
  let statement := p +:+ batch in
  match named with
  | [] => Ok (statement, bound)
  | _ => bind_named_values statement named engine (parameter_style pg_style engine)
  end.
(** The statements that reach the cursor, and what stopped them; the cursor itself may stop them sooner. *)
Fixpoint send (f : string -> result sql_error (string * list pyval)) (batches : list string)
    : list (string * list pyval) * option sql_error :=
  match batches with
  | [] => ([], None)
  | b :: bs =>
      if is_blank_text b then send f bs
      else match f b with
           | Ok s => let (sent, e) := send f bs in (s :: sent, e)
           | Err e => ([], Some e)
           end
  end.
(** [SqlRunRequest.from_json] on the text and the values, and [execute_capture] on what it gives. *)
Definition run_statements (pg_style engine : string) (legacy : bool) (sql_text : string) (r : Request)
    : result task_error (list (string * list pyval) * option sql_error) :=
  let sql := strip sql_text in
  if String.eqb sql "" then Err NoSql
  else
    let sql := expand_sqlplus_defines sql (define r) in
    named ← lift (check_named_values (PDict (named_params r)));
    if negb (bool_decide (named = [])) && (negb (bool_decide (params r = [])) || negb (String.eqb (prelude r) "")) then Err TwoBindings
    else if legacy then
      if negb (bool_decide (params r = [])) || negb (String.eqb (prelude r) "") || negb (bool_decide (named = [])) then Err BridgeBinds
      else Ok ([(sql, [])], None)
    else
      _ ← check_named_params sql engine named;
      Ok (send (statement_of pg_style engine (prelude r) (params r) named) (split_batches_for sql engine (bool_decide (params r = [])))).
(** A file of a task on its target. *)
Definition task_statements (pg_style : string) (parameters : list pydict) (legacy : bool) (db_type sql_text : string) (values : pydict)
    : result task_error (list (string * list pyval) * option sql_error) :=
  r ← task_request parameters legacy db_type sql_text values;
  run_statements pg_style (normalize_db_type db_type) legacy sql_text r.
