(* ===== verification/SqlTaskProofs.v ===== *)
(** * Facts about the run of a SQL task: what an operator types, where it goes, and in what order. *)

From Stdlib Require Import SpecFloat.
From S2P Require Import Prelude Py SqlText SqlTextProofs SqlScript SqlScriptProofs SqlTask.

(** ** Values that differ only in what was typed *)
Definition typed (v : pyval) : Prop := exists s, v = PStr s /\ is_blank_text s = false.
Definition alike (v w : pyval) : Prop := v = w \/ (typed v /\ typed w).
Definition same_shape (d e : pydict) : Prop := Forall2 (fun p q => p.1 = q.1 /\ alike p.2 q.2) d e.
(** Results that agree up to a relation; errors agree. *)
Definition agree {E A} (R : A -> A -> Prop) (m n : result E A) : Prop :=
  match m, n with Ok a, Ok b => R a b | Err e, Err e' => e = e' | _, _ => False end.
Lemma agree_refl {E A} (R : A -> A -> Prop) (m : result E A) : (forall a, R a a) -> agree R m m.
Proof. intros H. destruct m; cbn; auto. Qed.
Lemma agree_bind {E A B} (R : A -> A -> Prop) (S : B -> B -> Prop) (m n : result E A) (f g : A -> result E B) :
  agree R m n -> (forall a b, R a b -> agree S (f a) (g b)) -> agree S (m ≫= f) (n ≫= g).
Proof. destruct m, n; cbn; intros H Hf; subst; try done. by apply Hf. Qed.
Lemma agree_lift {A} (R : A -> A -> Prop) m n : agree R m n -> agree R (lift m) (lift n).
Proof. destruct m, n; cbn; intros H; by subst. Qed.
Lemma agree_foldM {E S A} (R : S -> S -> Prop) (f g : S -> A -> result E S) l s t :
  R s t -> (forall s t a, R s t -> agree R (f s a) (g t a)) -> agree R (foldM f s l) (foldM g t l).
Proof.
  intros H Hf. revert s t H. induction l as [|a l IH]; intros s t H; [exact H|]. cbn [foldM].
  apply (agree_bind R); [by apply Hf|]. intros. by apply IH.
Qed.
Lemma alike_blank v w : alike v w -> is_blank_text (str v) = is_blank_text (str w).
Proof. intros [->|[(s & -> & Hs) (t & -> & Ht)]]; [done|]. cbn. by rewrite Hs, Ht. Qed.
Lemma alike_none v w : alike v w -> is_none v = is_none w.
Proof. by intros [->|[(s & -> & Hs) (t & -> & Ht)]]. Qed.
Lemma alike_scalar v w : alike v w -> is_scalar v = is_scalar w.
Proof. by intros [->|[(s & -> & Hs) (t & -> & Ht)]]. Qed.
Lemma alike_refl v : alike v v.
Proof. by left. Qed.
Lemma same_shape_keys d e : same_shape d e -> map fst d = map fst e.
Proof. induction 1 as [|p q d e [Hk _] _ IH]; [done|]. cbn. by rewrite Hk, IH. Qed.
Lemma same_shape_assoc k d e : same_shape d e ->
  match assoc k d, assoc k e with Some v, Some w => alike v w | None, None => True | _, _ => False end.
Proof.
  induction 1 as [|[k1 v] [k2 w] d e [Hk Hv] _ IH]; [done|]. cbn in Hk, Hv. subst k2. cbn [assoc].
  by destruct (String.eqb k k1).
Qed.
Lemma same_shape_set k v w d e : same_shape d e -> alike v w -> same_shape (assoc_set k v d) (assoc_set k w e).
Proof.
  intros H Hv. induction H as [|[k1 x] [k2 y] d e [Hk Hx] Hde IH]; [constructor; [done|apply Forall2_nil_2]|]. cbn in Hk, Hx. subst k2. cbn [assoc_set].
  destruct (String.eqb k k1); by constructor.
Qed.
Lemma same_shape_set_fold (f : string -> string) l m d e : same_shape l m -> same_shape d e ->
  same_shape (fold_left (fun d p => assoc_set (f p.1) p.2 d) l d) (fold_left (fun d p => assoc_set (f p.1) p.2 d) m e).
Proof.
  intros H. revert d e. induction H as [|p q l m [Hk Hv] _ IH]; intros d e Hde; [done|]. cbn [fold_left]. apply IH.
  rewrite Hk. by apply same_shape_set.
Qed.

(** *** Requests *)
Section requests.
Context (values values' : pydict) (Hvs : same_shape values values').
Lemma value_for_alike p name : agree alike (value_for p name values) (value_for p name values').
Proof.
  unfold value_for, given. pose proof (same_shape_assoc name _ _ Hvs) as H.
  destruct (assoc name values) as [v|], (assoc name values') as [w|]; try done; cbn [mbind option_bind].
  - apply alike_blank in H as Hb. unfold is_blank_text in Hb. rewrite Hb. clear Hb. destruct (String.eqb (strip (str w)) ""); [|exact H].
    apply agree_refl, alike_refl.
  - apply agree_refl, alike_refl.
Qed.
Lemma declared_all_alike parameters : agree (Forall2 (fun d e => d.1 = e.1 /\ alike d.2 e.2)) (declared_all parameters values) (declared_all parameters values').
Proof.
  induction parameters as [|p ps IH]; cbn [declared_all]; [constructor|].
  apply (agree_bind (fun d e : string * pyval => d.1 = e.1 /\ alike d.2 e.2)).
  - unfold declared. destruct (negb (is_identifier _)); [done|]. destruct (_ || _); [done|].
    eapply agree_bind; [apply value_for_alike|]. by intros.
  - intros d e Hd. eapply agree_bind; [exact IH|]. intros ds es Hds. by constructor.
Qed.
Lemma prelude_alike parameters : agree (fun x y => x.1 = y.1 /\ Forall2 alike x.2 y.2)
  (build_parameter_prelude parameters values) (build_parameter_prelude parameters values').
Proof.
  unfold build_parameter_prelude. eapply agree_bind; [apply declared_all_alike|]. intros ds es H. cbn.
  assert (Hf : map fst ds = map fst es) by (induction H as [|d e ds es [Hd _] _ IH]; [done|]; cbn; by rewrite Hd, IH).
  split; [rewrite Hf; by destruct H|]. clear Hf. induction H as [|d e ds es [_ Hd] _ IH]; [apply Forall2_nil_2|]. by constructor.
Qed.
Lemma supplied_alike : same_shape (supplied_by_name id values) (supplied_by_name id values').
Proof. unfold supplied_by_name. by apply (same_shape_set_fold (fun k => lower (strip k))); [|constructor]. Qed.
Lemma named_value_alike p : agree alike (named_value (supplied_by_name id values) p) (named_value (supplied_by_name id values') p).
Proof.
  destruct p as [name parameter]. unfold named_value.
  pose proof (same_shape_assoc name _ _ supplied_alike) as H.
  assert (Hg : alike (default PNone (assoc name (supplied_by_name id values))) (default PNone (assoc name (supplied_by_name id values')))).
  { destruct (assoc name _), (assoc name _); try done. apply alike_refl. }
  cbv zeta. rewrite (alike_none _ _ Hg), (alike_blank _ _ Hg). destruct (_ && _); [exact Hg|]. apply agree_refl, alike_refl.
Qed.
Lemma named_values_alike parameters sql db_type : (if String.eqb db_type "oracle" then sqlplus_substitution_names sql else []) = [] ->
  agree (fun x y => x.1 = [] /\ y.1 = [] /\ same_shape x.2 y.2)
    (named_parameter_values parameters values sql db_type) (named_parameter_values parameters values' sql db_type).
Proof.
  intros Hs. unfold named_parameter_values. cbv zeta. rewrite Hs.
  assert (Hu : refuse_unknown (supplied_by_name id values) (declared_by_name parameters) = refuse_unknown (supplied_by_name id values') (declared_by_name parameters)).
  { unfold refuse_unknown, unknown_names. by rewrite (same_shape_keys _ _ supplied_alike). }
  rewrite Hu. eapply (agree_bind (fun _ _ => True)); [by apply agree_refl|]. intros _ _ _.
  apply agree_foldM; [by split_and!; [..|constructor]|]. intros [d n] [d' n'] p (Hd & Hd' & Hn). cbn in Hd, Hd', Hn. subst d d'. unfold add_value.
  eapply agree_bind; [apply named_value_alike|]. intros v w Hv. rewrite (bool_decide_eq_false_2 (p.1 ∈ [])) by apply not_elem_of_nil.
  cbn. split_and!; [done|done|]. case_bool_decide; [by apply same_shape_set|done].
Qed.
Definition same_request (r r' : Request) : Prop :=
  define r = [] /\ define r' = [] /\ same_shape (named_params r) (named_params r') /\ prelude r = prelude r' /\ Forall2 alike (params r) (params r').
Lemma task_request_alike parameters db_type sql : (normalize_db_type db_type = "oracle" -> sqlplus_substitution_names sql = []) ->
  agree same_request (task_request parameters false db_type sql values) (task_request parameters false db_type sql values').
Proof.
  intros Hs. unfold task_request. cbv zeta. destruct (negb _); [done|]. case_bool_decide as He.
  - eapply agree_bind; [apply named_values_alike; destruct (String.eqb_spec (normalize_db_type db_type) "oracle") as [E|E]; auto|].
    intros [d n] [d' n'] (Hd & Hd' & Hn). cbn in Hd, Hd', Hn. subst. cbn. repeat split; [exact Hn|constructor].
  - eapply agree_bind; [apply agree_lift, prelude_alike|]. intros [p bs] [p' bs'] [Hp Hb]. cbn in *. subst.
    split_and!; [done|done|constructor|done|done].
Qed.
End requests.

(** *** Statements *)
Lemma add_named_alike d e p q : same_shape d e -> p.1 = q.1 -> alike p.2 q.2 -> agree same_shape (add_named d p) (add_named e q).
Proof.
  intros H Hk Hv. unfold add_named. rewrite Hk, (alike_scalar _ _ Hv). destruct (negb (is_identifier _)); [done|].
  assert (has_key d (lower (strip q.1)) = has_key e (lower (strip q.1))) as ->.
  { unfold has_key. pose proof (same_shape_assoc (lower (strip q.1)) _ _ H) as Ha. by destruct (assoc _ d), (assoc _ e). }
  destruct (has_key _ _); [done|]. destruct (negb _); [done|]. by apply same_shape_set.
Qed.
Lemma check_named_alike d e : same_shape d e -> agree same_shape (check_named_values (PDict d)) (check_named_values (PDict e)).
Proof.
  intros H. unfold check_named_values. cbn [blank]. assert (Hn : same_shape [] []) by constructor.
  revert Hn. generalize (@nil (string * pyval)) at 1 3. generalize (@nil (string * pyval)).
  induction H as [|p q d e [Hk Hv] _ IH]; intros d0 e0 H0; [exact H0|]. cbn [foldM].
  eapply agree_bind; [by apply add_named_alike|]. intros. by apply IH.
Qed.
Lemma erase_values d e : same_shape d e -> map_values (fun _ : pyval => tt) d = map_values (fun _ : pyval => tt) e.
Proof. induction 1 as [|p q d e [Hk _] _ IH]; [done|]. unfold map_values in *. cbn. by rewrite Hk, IH. Qed.
Definition same_texts {A} (x y : string * A) : Prop := x.1 = y.1.
Lemma bind_alike statement d e engine style : same_shape d e ->
  agree same_texts (bind_named_values statement d engine style) (bind_named_values statement e engine style).
Proof.
  intros H%erase_values. pose proof (bind_map_values (fun _ : pyval => tt) statement d engine style) as Hd.
  rewrite H, bind_map_values in Hd. destruct (bind_named_values statement e _ _) as [[o' b']|x], (bind_named_values statement d _ _) as [[o b]|y];
    cbn; try congruence. unfold same_texts. cbn. congruence.
Qed.
Definition texts {A} (m : list (string * A) * option sql_error) : list string * option sql_error := (map fst m.1, m.2).
Lemma send_alike f g l : (forall b, agree same_texts (f b) (g b)) -> texts (send f l) = texts (send g l).
Proof.
  intros H. induction l as [|b l IH]; [done|]. cbn [send]. destruct (is_blank_text b); [done|]. specialize (H b).
  destruct (f b) as [[s v]|e], (g b) as [[s' v']|e']; cbn in H; try done; [|by subst].
  unfold same_texts in H. cbn in H. subst s'. destruct (send f l), (send g l). unfold texts in *. cbn in *. injection IH as -> ->. done.
Qed.
Lemma run_statements_alike pg_style engine sql r r' : same_request r r' ->
  agree (fun x y => texts x = texts y) (run_statements pg_style engine false sql r) (run_statements pg_style engine false sql r').
Proof.
  intros (Hd & Hd' & Hn & Hp & Hb). unfold run_statements. cbv zeta. destruct (String.eqb (strip sql) ""); [done|].
  rewrite Hd, Hd', Hp. eapply agree_bind; [by apply agree_lift, check_named_alike|]. intros d e Hde.
  assert (Hb0 : bool_decide (params r = []) = bool_decide (params r' = [])) by (by destruct Hb).
  assert (Hde0 : bool_decide (d = []) = bool_decide (e = [])) by (by destruct Hde).
  rewrite Hb0, Hde0. destruct (_ && _); [done|].
  assert (Hc : check_named_params (expand_sqlplus_defines (strip sql) []) engine d = check_named_params (expand_sqlplus_defines (strip sql) []) engine e).
  { unfold check_named_params. rewrite (same_shape_keys _ _ Hde). by destruct Hde. }
  rewrite Hc. eapply (agree_bind (fun _ _ => True)); [by apply agree_refl|]. intros _ _ _. cbn. apply send_alike.
  intros b. unfold statement_of. cbv zeta. rewrite <-Hp. pose proof (bind_alike (prelude r +:+ b) _ _ engine (parameter_style pg_style engine) Hde) as H.
  destruct Hde; [done|exact H].
Qed.

Definition values_of (names typed_texts : list string) : pydict := zip names (map PStr typed_texts).
Lemma values_of_shape names ts ts' : length ts = length ts' ->
  Forall (fun t => is_blank_text t = false) ts -> Forall (fun t => is_blank_text t = false) ts' ->
  same_shape (values_of names ts) (values_of names ts').
Proof.
  intros Hl H H'. revert names ts' Hl H'. induction H as [|t ts Ht _ IH]; intros [|n names] [|t' ts'] Hl H'; try done; try constructor.
  - split; [done|]. right. inversion H'; subst. split; eexists; eauto.
  - apply IH; [by injection Hl|by inversion H'].
Qed.
(** C8: A SQL task on a direct connection sends the same statements, and fails with the same
    error, whatever text is typed for its parameters, on SQL Server, on PostgreSQL, and on
    Oracle when the script has no substitution marker; the values are only bound. *)
Theorem what_is_typed_never_becomes_sql pg_style parameters db_type sql names ts ts' :
  length ts = length ts' -> Forall (fun t => is_blank_text t = false) ts -> Forall (fun t => is_blank_text t = false) ts' ->
  (normalize_db_type db_type = "oracle" -> sqlplus_substitution_names sql = []) ->
  match task_statements pg_style parameters false db_type sql (values_of names ts),
        task_statements pg_style parameters false db_type sql (values_of names ts') with
  | Ok (sent, e), Ok (sent', e') => map fst sent = map fst sent' /\ e = e'
  | Err e, Err e' => e = e'
  | _, _ => False
  end.
Proof.
  intros Hl Ht Ht' Hs. pose proof (values_of_shape names ts ts' Hl Ht Ht') as Hv.
  pose proof (agree_bind _ _ _ _ _ _ (task_request_alike _ _ Hv parameters db_type sql Hs)
    (fun r r' => run_statements_alike pg_style (normalize_db_type db_type) sql r r')) as H.
  unfold task_statements. destruct (task_request _ _ _ _ _ ≫= _) as [[s e]|x], (task_request _ _ _ _ (values_of names ts') ≫= _) as [[s' e']|x'];
    cbn in H; try done. by injection H as -> ->.
Qed.

(** ** Values that are pasted *)
Definition checked (defines : list (string * string)) : Prop := Forall (fun p => check_sqlplus_define_value p.1 p.2 = Ok tt) defines.
Lemma checked_set name v defines : lift (check_sqlplus_define_value name v) = Ok tt -> checked defines -> checked (assoc_set name v defines).
Proof. intros H Hd. apply assoc_set_Forall; [done|]. cbn. destruct (check_sqlplus_define_value name v) as [[]|]; done. Qed.
Lemma legacy_checked parameters values defines : legacy_define_values parameters values = Ok defines -> checked defines.
Proof.
  unfold legacy_define_values. cbv zeta. intros (_ & _ & H)%result_bind_ok.
  refine (foldM_inv checked _ _ _ _ _ _ H); [clear H|constructor]. intros d p d' Hd. unfold add_define.
  intros ([v|] & _ & H)%result_bind_ok; [|by injection H as <-]. apply result_bind_ok in H as ([] & Hc & [= <-]). by apply checked_set.
Qed.
Lemma named_checked parameters values sql db_type defines named : named_parameter_values parameters values sql db_type = Ok (defines, named) -> checked defines.
Proof.
  unfold named_parameter_values. cbv zeta. intros (_ & _ & H)%result_bind_ok.
  refine (foldM_inv (fun s => checked s.1) _ _ _ _ _ _ H); [clear H|constructor]. intros [d n] p [d' n'] Hd. unfold add_value.
  intros (v & _ & H)%result_bind_ok. destruct (_ && _); [|by injection H as <- <-].
  apply result_bind_ok in H as ([] & Hc & [= <- <-]). by apply checked_set.
Qed.
Lemma request_checked parameters legacy db_type sql values r : task_request parameters legacy db_type sql values = Ok r -> checked (define r).
Proof.
  unfold task_request. cbv zeta. destruct (negb _); [done|]. destruct legacy.
  - intros (d & Hd & [= <-])%result_bind_ok. by eapply legacy_checked.
  - case_bool_decide.
    + intros ([d n] & Hd & [= <-])%result_bind_ok. by eapply named_checked.
    + intros ([p bs] & _ & [= <-])%result_bind_ok. constructor.
Qed.
(** Whatever the transport, the values a task pastes into a script without DEFINE lines
    bring no quote, semicolon, line break or marker. *)
Lemma a_pasted_value_ends_no_text parameters legacy db_type sql values r a :
  task_request parameters legacy db_type sql values = Ok r -> a ∈ unsafe_chars ->
  Forall (fun line => define_line line = None) (lines (chars (strip sql))) ->
  (occurs a (chars (expand_sqlplus_defines (strip sql) (define r))) <= occurs a (chars sql))%nat.
Proof.
  intros Hr%request_checked Ha Hd. etrans; [by apply checked_define_occurs|]. apply strip_occurs.
Qed.

(** ** Names that are not declared *)
Lemma supplied_keys {V} (f : pyval -> V) values name :
  name ∈ map fst (supplied_by_name f values) <-> name ∈ map (fun p => lower (strip p.1)) values.
Proof.
  unfold supplied_by_name. trans (name ∈ map fst (@nil (string * V)) \/ name ∈ map (fun p => lower (strip p.1)) values); [|set_solver].
  generalize (@nil (string * V)). induction values as [|p vs IH]; intros d; cbn [fold_left map]; [set_solver|].
  rewrite IH, elem_assoc_set_keys. set_solver.
Qed.
Lemma refused {V} (f : pyval -> V) values name declared : name ∈ map (fun p => lower (strip p.1)) values ->
  assoc name declared = None -> declared <> [] ->
  exists names, refuse_unknown (supplied_by_name f values) declared = Err (UnknownParameters names) /\ name ∈ names.
Proof.
  intros Hn Ha Hd. exists (unknown_names (supplied_by_name f values) declared).
  assert (Hin : name ∈ unknown_names (supplied_by_name f values) declared).
  { apply elem_of_filter_bool. rewrite Ha. split; [by apply supplied_keys|done]. }
  split; [|done]. unfold refuse_unknown. rewrite (bool_decide_eq_false_2 (declared = [])) by done.
  rewrite bool_decide_eq_false_2; [done|]. intros E. rewrite E in Hin. by apply not_elem_of_nil in Hin.
Qed.
Lemma assoc_without_key {V} k name (d : list (string * V)) : k <> name -> assoc k (List.filter (fun p => negb (String.eqb p.1 name)) d) = assoc k d.
Proof.
  intros Hne. induction d as [|[k' v] d IH]; [done|]. cbn [List.filter fst assoc].
  destruct (String.eqb_spec k' name) as [->|]; cbn [negb assoc]; [|by rewrite IH].
  destruct (String.eqb_spec k name); [done|exact IH].
Qed.
(** A task that declares nothing refuses nothing. *)
Lemma nothing_refused {V} (supplied : list (string * V)) : refuse_unknown supplied [] = Ok tt.
Proof. unfold refuse_unknown. by rewrite andb_false_r. Qed.
Lemma nothing_declared_legacy values : legacy_define_values [] values = Ok [].
Proof. unfold legacy_define_values. cbv zeta. by rewrite nothing_refused. Qed.
Lemma nothing_declared_named values sql engine : named_parameter_values [] values sql engine = Ok ([], []).
Proof. unfold named_parameter_values. cbv zeta. by rewrite nothing_refused. Qed.
Lemma some_declared parameters : parameters <> [] -> declared_by_name parameters <> [].
Proof.
  assert (Hin : forall ps d name, name ∈ map fst d -> name ∈ map fst (fold_left (fun d p => assoc_set (lower (parameter_name_of p)) p d) ps d)).
  { induction ps as [|p ps IH]; intros d name Hn; [done|]. apply IH, elem_assoc_set_keys. by right. }
  destruct parameters as [|p ps]; [done|]. intros _ E. unfold declared_by_name in E. cbn [fold_left] in E.
  specialize (Hin ps (assoc_set (lower (parameter_name_of p)) p []) (lower (parameter_name_of p))).
  rewrite E in Hin. apply (not_elem_of_nil (lower (parameter_name_of p))), Hin, elem_assoc_set_keys. by left.
Qed.
(** C39: A value for a name that the task does not declare is refused by name on the bridge, on
    Oracle and on PostgreSQL, when the task declares anything; when it declares nothing, and on
    SQL Server, where the name is also compared with its case, the task runs as if the value had
    not been given. *)
Theorem an_undeclared_name_is_refused_but_on_sql_server parameters legacy db_type sql values name :
  normalize_db_type db_type ∈ SQL_TASK_DB_TYPES -> name ∈ map fst values ->
  (forall p, p ∈ parameters -> parameter_name_of p <> name) ->
  if (legacy || bool_decide (normalize_db_type db_type ∈ NAMED_BIND_DB_TYPES)) && negb (bool_decide (parameters = [])) then
    assoc (lower (strip name)) (declared_by_name parameters) = None ->
    exists names, task_request parameters legacy db_type sql values = Err (UnknownParameters names) /\ lower (strip name) ∈ names
  else task_request parameters legacy db_type sql values = task_request parameters legacy db_type sql (without_key name values).
Proof.
  intros He Hn Hp. unfold task_request. cbv zeta. rewrite (bool_decide_eq_true_2 _ He). cbn [negb].
  assert (Hn' : lower (strip name) ∈ map (fun p => lower (strip p.1)) values).
  { apply list_elem_of_fmap in Hn as (p & -> & Hp'). apply list_elem_of_fmap. by exists p. }
  destruct (bool_decide (parameters = [])) eqn:Hnone; cbn [negb]; rewrite ?andb_false_r, ?andb_true_r.
  { apply bool_decide_eq_true in Hnone as ->. destruct legacy; [by rewrite !nothing_declared_legacy|].
    destruct (bool_decide _); [by rewrite !nothing_declared_named|done]. }
  apply bool_decide_eq_false in Hnone. pose proof (some_declared _ Hnone) as Hd.
  destruct legacy; [|destruct (bool_decide (normalize_db_type db_type ∈ NAMED_BIND_DB_TYPES))]; cbn [orb].
  - intros Ha. destruct (refused str _ _ _ Hn' Ha Hd) as (ns & H & ?). exists ns. split; [|done].
    unfold legacy_define_values. cbv zeta. by rewrite H.
  - intros Ha. destruct (refused id _ _ _ Hn' Ha Hd) as (ns & H & ?). exists ns. split; [|done].
    unfold named_parameter_values. cbv zeta. by rewrite H.
  - do 2 f_equal. unfold build_parameter_prelude. f_equal. clear He Hn Hn' Hnone Hd. revert Hp.
    induction parameters as [|p ps IH]; intros Hp; [done|]. cbn [declared_all]. rewrite IH by (intros; apply Hp; by right).
    assert (declared values p = declared (without_key name values) p) as ->; [|done].
    unfold declared, value_for, given. unfold without_key. by rewrite assoc_without_key by (apply Hp; by left).
Qed.

(** ** Values without a name *)
Lemma NoDup_filter_bool {A} (p : A -> bool) l : NoDup l -> NoDup (List.filter p l).
Proof.
  induction 1 as [|x l Hx _ IH]; [constructor|]. cbn [List.filter]. destruct (p x); [|done]. constructor; [|done].
  by intros [? _]%elem_of_filter_bool.
Qed.
Lemma fold_zip_assoc {V} (ns : list string) (vs : list V) d : NoDup ns ->
  (forall k, k ∉ ns -> assoc k (fold_left (fun d p => assoc_set p.1 p.2 d) (zip ns vs) d) = assoc k d)
  /\ (forall i n v, ns !! i = Some n -> vs !! i = Some v -> assoc n (fold_left (fun d p => assoc_set p.1 p.2 d) (zip ns vs) d) = Some v).
Proof.
  revert vs d. induction ns as [|n ns IH]; intros vs d Hn; [done|]. apply list.NoDup_cons in Hn as [Hni Hn].
  destruct vs as [|v vs]; [done|]. cbn [zip zip_with fold_left fst snd]. destruct (IH vs (assoc_set n v d) Hn) as [IH1 IH2]. split.
  - intros k Hk. rewrite IH1 by set_solver. apply assoc_set_ne. set_solver.
  - intros [|i] m w Hm Hw; cbn in Hm, Hw; [injection Hm as <-; injection Hw as <-|by eapply IH2].
    rewrite IH1 by done. apply assoc_set_eq.
Qed.
(** word. *)
Lemma bare_values_fill_what_is_left parameters values positional :
  assoc POSITIONAL_PARAMETERS_KEY values = Some (PList positional) -> NoDup (declared_names parameters) ->
  let named := without_key POSITIONAL_PARAMETERS_KEY values in
  let unfilled := List.filter (fun n => negb (has_key named n)) (declared_names parameters) in
  ((length unfilled < length positional)%nat /\ bind_parameter_values parameters values = Err (TooManyValues (length positional) (length unfilled)))
  \/ ((length positional <= length unfilled)%nat /\ exists out, bind_parameter_values parameters values = Ok out
      /\ (forall i n v, unfilled !! i = Some n -> positional !! i = Some v -> assoc n out = Some v)
      /\ (forall n v, assoc n named = Some v -> assoc n out = Some v)).
Proof.
  intros Hp Hn. cbv zeta. unfold bind_parameter_values, get. rewrite Hp. cbn [default from_option id].
  set (named := without_key _ _). set (unfilled := List.filter _ _).
  assert (Hu : NoDup unfilled) by (by apply NoDup_filter_bool).
  assert (Hd : forall n v, assoc n named = Some v -> n ∉ unfilled).
  { intros n v Ha Hin. apply elem_of_filter_bool in Hin as [_ Hin]. unfold has_key in Hin. by rewrite Ha in Hin. }
  destruct positional as [|v vs]; [right; split; [cbn; lia|]; exists named; by split_and!|].
  destruct (Nat.ltb_spec (length unfilled) (length (v :: vs))); [by left|]. right. split; [done|]. eexists. split; [done|].
  destruct (fold_zip_assoc unfilled (v :: vs) named Hu) as [H1 H2]. split; [exact H2|].
  intros n w Hw. rewrite H1; [done|]. by eapply Hd.
Qed.
(** A name is compared as it is typed here, and without its case later: the value that was named is lost. *)
Definition two_parameters : list pydict := [[("name", PStr "job_no")]; [("name", PStr "day"); ("default", PStr "today")]].
Example a_named_value_is_overwritten :
  (values ← parse_parameter_arguments ["Job_No=17"; "2026-01-02"] ""; values ← bind_parameter_values two_parameters values;
   named_parameter_values two_parameters values "select :job_no, :day" "postgresql")
  = Ok ([], [("job_no", PStr "2026-01-02"); ("day", PStr "today")]).
Proof. by vm_compute. Qed.
(** On SQL Server a name in another case is not the name, and the default is taken. *)
Example a_default_is_taken_instead :
  task_request [[("name", PStr "day"); ("type", PStr "date"); ("default", PStr "2026-01-01")]] false "mssql" "select @day" [("Day", PStr "2026-05-05")]
  = Ok (mkRequest [] [] ("DECLARE @day date = ?;" +:+ new_line) [PStr "2026-01-01"]).
Proof. by vm_compute. Qed.
Example words_as_a_shell_reads_them :
  parse_parameter_arguments ["-"] ("note='a b'\ c" +:+ " x=" +:+ text [chr 34] +:+ "p=" +:+ text ["\"%char; chr 34; chr 34] +:+ " 7")
  = Ok [("note", PStr "a b c"); ("x", PStr ("p=" +:+ text [chr 34])); (POSITIONAL_PARAMETERS_KEY, PList [PStr "7"])].
Proof. by vm_compute. Qed.

(** ** The plan *)
Section plan.
Context (sql_paths configured_names final_paths final_names : list string) (base : pydict) (payloads : option (list string)) (payload_parameter : string).
Let plan := build_execution_plan sql_paths configured_names final_paths final_names base payloads payload_parameter.
Let tot := plan_total sql_paths final_paths payloads.
Lemma chunk_steps_no no index paths label values names :
  map file_no (chunk_steps sql_paths final_paths payloads no index paths label values names) = seq no (length paths).
Proof. revert no index. induction paths as [|p ps IH]; intros no index; [done|]. cbn. by rewrite IH. Qed.
Lemma chunk_steps_run no index paths label values names :
  map (fun s => (sql_path s, parameter_values s)) (chunk_steps sql_paths final_paths payloads no index paths label values names) = map (fun p => (p, values)) paths.
Proof. revert no index. induction paths as [|p ps IH]; intros no index; [done|]. cbn. by rewrite IH. Qed.
Lemma chunk_steps_all no index paths label values names :
  Forall (fun s => total s = tot /\ batch_label s = label) (chunk_steps sql_paths final_paths payloads no index paths label values names).
Proof. revert no index. induction paths as [|p ps IH]; intros no index; [constructor|]. cbn. by constructor. Qed.
Lemma batch_steps_no no batch_no l :
  map file_no (batch_steps sql_paths configured_names final_paths base payloads payload_parameter no batch_no l) = seq no (length sql_paths * length l).
Proof.
  revert no batch_no. induction l as [|c l IH]; intros no batch_no; cbn [batch_steps length]; [by rewrite Nat.mul_0_r|].
  rewrite map_app, chunk_steps_no, IH, Nat.mul_succ_r, (Nat.add_comm (_ * _)), seq_app. do 2 f_equal. lia.
Qed.
Lemma batch_steps_run no batch_no l :
  map (fun s => (sql_path s, parameter_values s)) (batch_steps sql_paths configured_names final_paths base payloads payload_parameter no batch_no l)
  = mjoin (map (fun c => map (fun p => (p, step_values base payload_parameter c)) sql_paths) l).
Proof.
  revert no batch_no. induction l as [|c l IH]; intros no batch_no; [done|]. cbn [batch_steps map]. rewrite mjoin_cons, map_app, chunk_steps_run, IH. done.
Qed.
Lemma batch_steps_all no batch_no l :
  Forall (fun s => total s = tot) (batch_steps sql_paths configured_names final_paths base payloads payload_parameter no batch_no l).
Proof.
  revert no batch_no. induction l as [|c l IH]; intros no batch_no; [constructor|]. cbn [batch_steps]. apply Forall_app. split; [|apply IH].
  eapply list.Forall_impl; [apply chunk_steps_all|]. by intros s [? _].
Qed.
(** word. *)
Lemma a_plan_runs_every_file_for_each_batch :
  map file_no plan = seq 1 tot /\ Forall (fun s => total s = tot) plan
  /\ map (fun s => (sql_path s, parameter_values s)) plan
     = mjoin (map (fun c => map (fun p => (p, step_values base payload_parameter c)) sql_paths) (chunks payloads))
       ++ map (fun p => (p, base)) final_paths.
Proof.
  unfold plan, build_execution_plan. split_and!.
  - rewrite map_app, batch_steps_no, chunk_steps_no. unfold tot, plan_total. by rewrite seq_app.
  - apply Forall_app. split; [apply batch_steps_all|]. eapply list.Forall_impl; [apply chunk_steps_all|]. by intros s [? _].
  - by rewrite map_app, batch_steps_run, chunk_steps_run.
Qed.
End plan.

(** ** At concrete tasks *)
Lemma typed_witness : map fst (match task_statements "format" two_parameters false "pg" "select :job_no; select ':day', :day" (values_of ["job_no"; "DAY"] ["x' or 1=1"; "; drop table t"])
    with Ok (sent, _) => sent | Err _ => [] end) = ["select $1"; "select ':day', $1"].
Proof.
  pose proof (what_is_typed_never_becomes_sql "format" two_parameters "pg" "select :job_no; select ':day', :day" ["job_no"; "DAY"]
    ["x' or 1=1"; "; drop table t"] ["a"; "b"] eq_refl ltac:(repeat constructor) ltac:(repeat constructor) ltac:(by vm_compute)) as H.
  destruct (task_statements _ _ _ _ _ _) as [[sent e]|] eqn:E in H; [|vm_compute in E; done].
  rewrite E. vm_compute in H. destruct H as [H _]. exact H.
Defined.
Lemma pasted_witness : (occurs ";" (chars (expand_sqlplus_defines "select '&job_no' from &t" [("job_no", "17"); ("day", "today")])) <= 0)%nat.
Proof.
  apply (a_pasted_value_ends_no_text two_parameters true "oracle" "select '&job_no' from &t" [("Job_No", PStr "17")] (mkRequest [("job_no", "17"); ("day", "today")] [] "" []) ";");
    [vm_compute; reflexivity|set_solver|]. vm_compute. repeat constructor.
Defined.
Lemma undeclared_witness :
  task_request two_parameters true "oracle" "select &job_no" [("jobno", PStr "1")] = Err (UnknownParameters ["jobno"])
  /\ task_request two_parameters false "sqlserver" "select 1" [("jobno", PStr "1")] = task_request two_parameters false "sqlserver" "select 1" [].
Proof.
  assert (Hp : forall p, p ∈ two_parameters -> parameter_name_of p <> "jobno").
  { intros p [->|[->|Hp]%list.elem_of_cons]%list.elem_of_cons; [done|done|]. by apply not_elem_of_nil in Hp. }
  split.
  - destruct (an_undeclared_name_is_refused_but_on_sql_server two_parameters true "oracle" "select &job_no" [("jobno", PStr "1")] "jobno"
      ltac:(set_solver) ltac:(set_solver) Hp eq_refl) as (ns & _ & _). vm_compute. reflexivity.
  - exact (an_undeclared_name_is_refused_but_on_sql_server two_parameters false "sqlserver" "select 1" [("jobno", PStr "1")] "jobno"
      ltac:(set_solver) ltac:(set_solver) Hp).
Defined.
Lemma bare_witness : exists out, bind_parameter_values two_parameters [("day", PStr "d"); (POSITIONAL_PARAMETERS_KEY, PList [PInt 5])] = Ok out
  /\ assoc "job_no" out = Some (PInt 5) /\ assoc "day" out = Some (PStr "d").
Proof.
  assert (Hn : NoDup (declared_names two_parameters)) by (by apply (bool_decide_unpack _)).
  destruct (bare_values_fill_what_is_left two_parameters [("day", PStr "d"); (POSITIONAL_PARAMETERS_KEY, PList [PInt 5])] [PInt 5] eq_refl Hn) as [[H _]|(_ & out & Ho & H1 & H2)].
  - vm_compute in H. lia.
  - exists out. split; [exact Ho|]. split; [by apply (H1 0%nat)|by apply H2].
Defined.
