(* ===== verification/SqlRuns.v ===== *)
(** * Runs of SQL tasks ([db/store_sql_runs.py], [sql_tasks/runner.py]).

    The rows of [sql_runs] with their claim index, and the scan, the forced run and the sweep of
    overdue rows.  A scan is not alone: before each of its calls the table may change ([others]),
    time goes on ([clock]), and the store may not answer ([down]).  Running the files of a task is
    an argument ([work]), and so is whether a message could be queued ([queue]) and what stopping
    a process answered ([stop_process]).  Texts of messages, log lines and files are left out;
    a duration is exact here, where the code's doubles may give a millisecond less. *)

From S2P Require Import Prelude Py PyTime TimeWindow RunClaim Store.

(** ** The table *)
Record SqlRow := {
  sr_id : Z; sr_run_key : string; sr_sql_id : Z; sr_sql_code : string; sr_target_no : Z; sr_status : string;
  sr_level : string; sr_message : string; sr_started_at : option string; sr_finished_at : option string;
  sr_duration_ms : option Z; sr_row_count : option Z; sr_error_text : option string; sr_host_name : string;
  sr_metadata : pydict }.
Record SqlDb := mkSqlDb { sql_runs : list SqlRow; next_sql_id : Z }.
Definition sql_claim_of (r : SqlRow) : option (string * string) :=
  if is_running (sr_status r) then Some (sr_run_key r, sr_host_name r) else None.
Definition sql_claims (l : list SqlRow) : list (string * string) := omap sql_claim_of l.
Definition sql_claims_unique (l : list SqlRow) : bool := bool_decide (NoDup (sql_claims l)).
Record SqlRun := {
  in_run_key : string; in_sql_id : Z; in_sql_code : string; in_target_no : Z; in_status : string; in_level : string;
  in_message : string; in_started_at : option string; in_metadata : pydict }.
Definition insert_sql_run (p : Process) (item : SqlRun) (d : SqlDb) : result store_error (SqlDb * Z) :=
  let running := String.eqb (lower (strip (in_status item))) "running" in
  let host := str (py_or (get (in_metadata item) "host_name") (PStr (ps_host p))) in
  metadata ← (if running then
      pid ← _claim_pid p (in_metadata item);
      Ok (update_dict (in_metadata item) (claim_fields pid host (ps_node p) (ps_start_marker p pid)))
    else Ok (in_metadata item));
  let row := {| sr_id := next_sql_id d; sr_run_key := in_run_key item; sr_sql_id := in_sql_id item; sr_sql_code := in_sql_code item;
    sr_target_no := in_target_no item; sr_status := in_status item; sr_level := in_level item; sr_message := in_message item;
    sr_started_at := in_started_at item; sr_finished_at := None; sr_duration_ms := None; sr_row_count := None;
    sr_error_text := None; sr_host_name := host; sr_metadata := metadata |} in
  let rows := sql_runs d ++ [row] in
  if negb (row_checks (in_level item) None) then Err CheckViolation
  else if sql_claims_unique rows then Ok (mkSqlDb rows (next_sql_id d + 1), next_sql_id d)
  else if running then Err (RunAlreadyClaimed (in_run_key item) host)
  else Err (UniqueViolation "ux_sql_runs_claim").
Record SqlUpdate := {
  su_status : string; su_level : string; su_message : string; su_finished_at : option string; su_duration_ms : option Z;
  su_row_count : option Z; su_error_text : option string; su_metadata : pydict }.
Definition write_sql_row (u : SqlUpdate) (r : SqlRow) : SqlRow :=
  {| sr_id := sr_id r; sr_run_key := sr_run_key r; sr_sql_id := sr_sql_id r; sr_sql_code := sr_sql_code r;
     sr_target_no := sr_target_no r; sr_status := su_status u; sr_level := su_level u; sr_message := su_message u;
     sr_started_at := sr_started_at r; sr_finished_at := su_finished_at u; sr_duration_ms := su_duration_ms u;
     sr_row_count := su_row_count u; sr_error_text := su_error_text u; sr_host_name := sr_host_name r;
     sr_metadata := su_metadata u |}.
Definition update_hits (id : Z) (only_if_status : option string) (r : SqlRow) : bool :=
  (sr_id r =? id) && match only_if_status with Some s => String.eqb (sr_status r) s | None => true end.
Definition update_sql_run (id : Z) (u : SqlUpdate) (only_if_status : option string) (d : SqlDb) : result store_error (SqlDb * bool) :=
  let hit := update_hits id only_if_status in
  let rows := map (fun r => if hit r then write_sql_row u r else r) (sql_runs d) in
  if existsb hit (sql_runs d) && negb (row_checks (su_level u) (su_duration_ms u)) then Err CheckViolation
  else if sql_claims_unique rows then Ok (mkSqlDb rows (next_sql_id d), existsb hit (sql_runs d))
  else Err (UniqueViolation "ux_sql_runs_claim").
(** The row of the largest id, among those that count. *)
Definition newer_sql (best : option SqlRow) (r : SqlRow) : option SqlRow :=
  match best with Some b => if sr_id b <? sr_id r then Some r else best | None => Some r end.
Definition latest_of (counts : SqlRow -> bool) (d : SqlDb) (run_key : string) : option SqlRow :=
  fold_left newer_sql (List.filter (fun r => String.eqb (sr_run_key r) run_key && counts r) (sql_runs d)) None.
Definition fetch_latest_done_or_running_sql_runs_by_run_key : SqlDb -> string -> option SqlRow :=
  latest_of (fun r => bool_decide (sr_status r ∈ ["done"; "running"])).
Definition fetch_latest_sql_runs_by_run_key : SqlDb -> string -> option SqlRow := latest_of (fun _ => true).
Definition sql_run_started_since (run_key since : string) (d : SqlDb) : bool :=
  existsb (fun r => String.eqb (sr_run_key r) run_key
                    && match sr_started_at r with Some t => negb (str_lt t since) | None => false end) (sql_runs d).
Definition fetch_running_sql_runs (d : SqlDb) : list SqlRow := List.filter (fun r => String.eqb (sr_status r) "running") (sql_runs d).
Definition sql_row_dict (r : SqlRow) : pydict :=
  [("sql_run_id", PInt (sr_id r)); ("run_key", PStr (sr_run_key r)); ("status", PStr (sr_status r));
   ("started_at", text_or_null (sr_started_at r)); ("finished_at", text_or_null (sr_finished_at r));
   ("host_name", PStr (sr_host_name r)); ("metadata_json", PDict (sr_metadata r))].

(** ** Tasks *)
Record SqlCommand := mkCommand { sc_id : Z; sc_code : string; sc_db_type : string; sc_active : bool }.
Record SqlTarget := mkTarget {
  tg_sql_id : Z; tg_no : Z; tg_server_id : string; tg_db_type : string; tg_service_name : string; tg_instance_name : string;
  tg_credential_name : string; tg_database_name : option string; tg_window : TimeWindow; tg_active : bool;
  tg_logging_on_run : bool; tg_alert_on_error : bool }.
Definition DEFAULT_SQL_TIMEOUT_SECONDS : Z := 1800.
Definition timeout_seconds (t : SqlTarget) : Z :=
  match tw_timeout (tg_window t) with Some 0 | None => DEFAULT_SQL_TIMEOUT_SECONDS | Some n => n end.
Definition manual_only (t : SqlTarget) : bool := bool_decide (tw_repeat_interval (tg_window t) = Some MANUAL_ONLY).
Definition run_key (t : SqlTarget) : string :=
  join "|" [str_of_int (tg_sql_id t); str_of_int (tg_no t); tg_server_id t; tg_db_type t; tg_service_name t; tg_instance_name t;
            default "" (tg_database_name t); tg_credential_name t].
Definition command_of (commands : list SqlCommand) (id : Z) : option SqlCommand := List.find (fun c => sc_id c =? id) commands.
Definition sql_due_defaults (w : TimeWindow) : DueDefaults :=
  {| dd_retry := tw_repeat_interval w; dd_timeout := None; dd_repeat := Some 300; dd_running_blocks := true |}.
Definition latest_running (latest : option SqlRow) : bool :=
  match latest with Some r => String.eqb (lower (sr_status r)) "running" | None => false end.
Definition target_due (commands : list SqlCommand) (latest_runs latest_any_runs : string -> option SqlRow) (now : Z) (local_now : wall)
    (t : SqlTarget) : option (SqlCommand * SqlTarget) :=
  if negb (tg_active t) || manual_only t || negb (is_time_window_open (Some (tg_window t)) local_now) then None
  else match command_of commands (tg_sql_id t) with
  | None => None
  | Some c =>
      if negb (sc_active c) || negb (String.eqb (lower (sc_db_type c)) (lower (tg_db_type t))) then None
      else
        let latest := latest_runs (run_key t) in
        if latest_running latest then None
        else
          let recent := match latest_any_runs (run_key t) with Some r => Some r | None => latest end in
          if dv_due (due_from_row (Some (tg_window t)) (sql_row_dict <$> recent) now None (sql_due_defaults (tg_window t)))
          then Some (c, t) else None
  end.
Definition due_sql_tasks (commands : list SqlCommand) (targets : list SqlTarget) (latest_runs latest_any_runs : string -> option SqlRow)
    (now : Z) (local_now : wall) : list (SqlCommand * SqlTarget) :=
  omap (target_due commands latest_runs latest_any_runs now local_now) targets.

(** ** A pass over the store *)
Inductive run_error : Type :=
| StoreFailed (e : store_error) | StoreDown | TaskFailed (why : string) | NotQueued (why : string) | PythonFailed (e : pyexn)
| NeedsForce | NoSuchCommand (id : Z) | NoTargets (id : Z).
(** What a pass did, in order. *)
Inductive Act : Type :=
| Claimed (id : Z) | Closed (id : Z) (status : string) (landed : bool) | Queued (id : Z) (status : string)
| Stopped (pid : Z) (gone : bool) | Untouched (pid : Z).
Record Pass := mkPass { calls : nat; table : SqlDb; acts : list Act }.
Definition M (A : Type) : Type := Pass -> result run_error A * Pass.
#[export] Instance M_ret : MRet M := fun A a s => (Ok a, s).
#[export] Instance M_bind : MBind M := fun A B f m s => match m s with (Ok a, s) => f a s | (Err e, s) => (Err e, s) end.
Definition raise {A} (e : run_error) : M A := fun s => (Err e, s).
Definition catch {A} (m : M A) (h : run_error -> M A) : M A := fun s => match m s with (Err e, s) => h e s | r => r end.
Definition act (a : Act) : M unit := fun s => (Ok tt, mkPass (calls s) (table s) (acts s ++ [a])).
Definition tick : M nat := fun s => (Ok (calls s), s).
Definition lift {A} (r : result pyexn A) : M A := match r with Ok a => mret a | Err e => raise (PythonFailed e) end.
Fixpoint each {A S} (f : S -> A -> M S) (l : list A) (acc : S) : M S :=
  match l with [] => mret acc | x :: l => acc ← f acc x; each f l acc end.

Record Report := mkReport { rp_row_count : Z; rp_warnings : nat }.
Record SqlScanResult := mkScan { due_count : nat; success_count : nat; error_count : nat; skipped_count : nat }.

Section runner.
Variable clock : nat -> Z.
Variable others : nat -> SqlDb -> SqlDb.
Variable down : nat -> bool.
Variable queue : nat -> result string unit.
Variable me : Process.
Variable is_pid_alive : nat -> Z -> bool.
Variable stop_process : nat -> Z -> string -> bool.
(** [str(exc)] of what the store raises. *)
Variable exception_text : run_error -> string.
(** Running the files of a task, for the row with this id. *)
Variable work : SqlCommand -> SqlTarget -> Z -> result string Report.

(** One call of the store. *)
Definition call {A} (f : Z -> SqlDb -> result store_error (SqlDb * A)) : M A := fun s =>
  let d := others (calls s) (table s) in
  if down (calls s) then (Err StoreDown, mkPass (S (calls s)) d (acts s))
  else match f (clock (calls s)) d with
  | Ok (d, a) => (Ok a, mkPass (S (calls s)) d (acts s))
  | Err e => (Err (StoreFailed e), mkPass (S (calls s)) d (acts s))
  end.
Definition read {A} (f : SqlDb -> A) : M A := call (fun _ d => Ok (d, f d)).
(** A message is a row of another table: queueing it can fail like any call. *)
Definition enqueue (id : Z) (status : string) : M unit := fun s =>
  match queue (calls s) with
  | Ok _ => act (Queued id status) (mkPass (S (calls s)) (table s) (acts s))
  | Err why => (Err (NotQueued why), mkPass (S (calls s)) (table s) (acts s))
  end.
Definition when (b : bool) (m : M unit) : M unit := if b then m else mret tt.

(** *** One task *)
Definition start_metadata : pydict := [("host_name", PStr (ps_host me))].
Definition started_item (c : SqlCommand) (t : SqlTarget) (started : Z) : SqlRun :=
  {| in_run_key := run_key t; in_sql_id := sc_id c; in_sql_code := sc_code c; in_target_no := tg_no t; in_status := "running";
     in_level := "logging"; in_message := "SQL task " +:+ sc_code c +:+ " started."; in_started_at := Some (iso_text started);
     in_metadata := start_metadata |}.
Definition duration_of (started finished : Z) : Z := Z.quot (finished - started) 1000.
Definition done_update (c : SqlCommand) (started finished : Z) (r : Report) : SqlUpdate :=
  {| su_status := "done"; su_level := if (rp_warnings r =? 0)%nat then "logging" else "warning";
     su_message := "SQL task " +:+ sc_code c +:+ " finished."; su_finished_at := Some (iso_text finished);
     su_duration_ms := Some (duration_of started finished); su_row_count := Some (rp_row_count r); su_error_text := None;
     su_metadata := start_metadata |}.
Definition error_update (c : SqlCommand) (started finished : Z) (why : string) : SqlUpdate :=
  {| su_status := "error"; su_level := "error"; su_message := "SQL task " +:+ sc_code c +:+ " failed.";
     su_finished_at := Some (iso_text finished); su_duration_ms := Some (duration_of started finished); su_row_count := None;
     su_error_text := Some why; su_metadata := start_metadata |}.
Definition close (id : Z) (u : Z -> SqlUpdate) (only_if_status : option string) : M bool :=
  landed ← call (fun now => update_sql_run id (u now) only_if_status);
  _ ← act (Closed id (su_status (u 0)) landed); mret landed.
Definition why_failed (e : run_error) : string :=
  match e with TaskFailed why | NotQueued why => why | _ => exception_text e end.
(** The [try] of [run_one_sql_task], and its handler. *)
Definition finish_task (c : SqlCommand) (t : SqlTarget) (started id : Z) : M bool :=
  match work c t id with
  | Ok r =>
      _ ← close id (fun now => done_update c started now r) None;
      _ ← when (tg_logging_on_run t) (enqueue id "done"); mret true
  | Err why => raise (TaskFailed why)
  end.
Definition task_failed (c : SqlCommand) (t : SqlTarget) (started id : Z) (e : run_error) : M bool :=
  _ ← close id (fun now => error_update c started now (why_failed e)) None;
  _ ← when (tg_alert_on_error t) (enqueue id "error"); mret false.
Definition run_one_sql_task (c : SqlCommand) (t : SqlTarget) : M bool :=
  n ← tick;
  let started := clock n in
  id ← call (fun _ => insert_sql_run me (started_item c t started));
  _ ← act (Claimed id);
  _ ← when (tg_logging_on_run t) (enqueue id "running");
  catch (finish_task c t started id) (task_failed c t started id).

(** *** Rows past their timeout *)
Definition _left_by_this_node (row : SqlRow) : result pyexn bool :=
  let node := claim_node (Some (sr_metadata row)) in
  if negb (String.eqb node "") then Ok (String.eqb node (ps_node me))
  else '(_, host) ← claim_owner (Some (sr_metadata row)) (row_host (Some (sql_row_dict row)));
       Ok (negb (String.eqb host "") && String.eqb host (ps_host me)).
(** The last target of the list for this row. *)
Definition target_of (targets : list SqlTarget) (row : SqlRow) : option SqlTarget :=
  List.find (fun t => (tg_sql_id t =? sr_sql_id row) && (tg_no t =? sr_target_no row)) (reverse targets).
Definition stale_question (n : nat) (row : SqlRow) (timeout elapsed : Z) : result pyexn (ReapQuestion * (option Z * string)) :=
  let host := row_host (Some (sql_row_dict row)) in
  '(pid, owner_host) ← claim_owner (Some (sr_metadata row)) host;
  Ok ({| rq_metadata := Some (sr_metadata row); rq_this_host := ps_host me; rq_elapsed := elapsed; rq_timeout := timeout;
         rq_pid_alive := match pid with
                         | Some p => if String.eqb owner_host (ps_host me) then Some (is_pid_alive n p) else None
                         | None => None
                         end;
         rq_foreign_grace := FOREIGN_HOST_GRACE_SECONDS; rq_this_node := ps_node me; rq_host_fallback := host |}, (pid, owner_host)).
(** Is the process that has this number now the one that claimed, and not the one that asks? *)
Definition is_the_claimant (pid : Z) (started : string) : bool :=
  negb (String.eqb started "") && String.eqb (ps_start_marker me pid) started && negb (pid =? ps_pid me).
Definition stop_process_and_children (pid : Z) (started : string) : M unit :=
  n ← tick;
  if negb (is_pid_alive n pid) then mret tt
  else if is_the_claimant pid started then act (Stopped pid (stop_process n pid started))
  else act (Untouched pid).
(** [stop_overdue_owner]: only a process of this host. *)
Definition stop_overdue_owner (pid : option Z) (owner_host started : string) : M unit :=
  match pid with
  | None => mret tt
  | Some p =>
      if negb (String.eqb owner_host (ps_host me)) then mret tt
      else stop_process_and_children p started
  end.
Definition stale_update (row : SqlRow) (timed_out : bool) (reason : string) (now : Z) : SqlUpdate :=
  let message := "SQL task " +:+ sr_sql_code row +:+ (if timed_out then " error by timeout: " else " stale running: ") +:+ reason in
  {| su_status := "error"; su_level := "error"; su_message := message; su_finished_at := Some (iso_text now);
     su_duration_ms := None; su_row_count := None; su_error_text := Some message;
     su_metadata := ("stale_running", PBool true) :: (if timed_out then [("timed_out", PBool true)] else []) |}.
Definition judge (commands : list SqlCommand) (targets : list SqlTarget) (n : nat) (now : Z) (row : SqlRow)
    : result pyexn (option (ReapVerdict * (option Z * string))) :=
  if negb (String.eqb (lower (sr_status row)) "running") then Ok None
  else
    left_ ← match command_of commands (sr_sql_id row) with Some _ => Ok true | None => _left_by_this_node row end;
    if negb left_ then Ok None
    else match run_anchor (Some (sql_row_dict row)) with
    | None => Ok None
    | Some started =>
        let timeout := match target_of targets row with Some t => timeout_seconds t | None => DEFAULT_SQL_TIMEOUT_SECONDS end in
        '(q, owner) ← stale_question n row timeout (now - started);
        v ← reap_verdict q true;
        Ok (if rv_reap v then Some (v, owner) else None)
    end.
Definition mark_stale_row (commands : list SqlCommand) (targets : list SqlTarget) (now : Z) (_ : unit) (row : SqlRow) : M unit :=
  n ← tick;
  found ← lift (judge commands targets n now row);
  match found with
  | None => mret tt
  | Some (v, (pid, owner_host)) =>
      _ ← (if rv_timed_out v then stop_overdue_owner pid owner_host (claim_started (Some (sr_metadata row))) else mret tt);
      closed ← close (sr_id row) (stale_update row (rv_timed_out v) (rv_reason v)) (Some "running");
      let alerts := match target_of targets row with Some t => tg_alert_on_error t | None => false end in
      when (closed && alerts) (enqueue (sr_id row) "error")
  end.
Definition mark_stale_running_sql_runs (commands : list SqlCommand) (targets : list SqlTarget) (rows : list SqlRow) : M unit :=
  n ← tick; each (mark_stale_row commands targets (clock n)) rows tt.

(** *** The scan *)
Definition count_skipped (s : SqlScanResult) := mkScan (due_count s) (success_count s) (error_count s) (S (skipped_count s)).
Definition count_success (s : SqlScanResult) := mkScan (due_count s) (S (success_count s)) (error_count s) (skipped_count s).
Definition count_error (s : SqlScanResult) := mkScan (due_count s) (success_count s) (S (error_count s)) (skipped_count s).
Definition count_run (s : SqlScanResult) (success : bool) := if success then count_success s else count_error s.
(** A claim that was refused, a store that is down, and every other exception. *)
Definition scan_caught (s : SqlScanResult) (e : run_error) : M SqlScanResult :=
  match e with
  | StoreFailed (RunAlreadyClaimed _ _) => mret (count_skipped s)
  | StoreDown => raise e
  | _ => mret (count_error s)
  end.
Definition scan_one (dry_run : bool) (listed_at : string) (s : SqlScanResult) (p : SqlCommand * SqlTarget) : M SqlScanResult :=
  if dry_run then mret s
  else
    taken ← read (sql_run_started_since (run_key p.2) listed_at);
    if taken : bool then mret (count_skipped s)
    else catch (success ← run_one_sql_task p.1 p.2; mret (count_run s success)) (scan_caught s).
Definition run_scheduler_scan (commands : list SqlCommand) (targets : list SqlTarget) (local_now : wall) (dry_run : bool) : M SqlScanResult :=
  running ← read fetch_running_sql_runs;
  _ ← mark_stale_running_sql_runs commands targets running;
  n ← tick;
  let listed_at := iso_text (clock n) in
  latest_runs ← read fetch_latest_done_or_running_sql_runs_by_run_key;
  latest_any_runs ← read fetch_latest_sql_runs_by_run_key;
  n ← tick;
  let due := due_sql_tasks commands targets latest_runs latest_any_runs (clock n) local_now in
  each (scan_one dry_run listed_at) due (mkScan (length due) 0 0 0).

(** *** A forced run *)
Definition forced_one (c : SqlCommand) (dry_run : bool) (s : SqlScanResult) (t : SqlTarget) : M SqlScanResult :=
  if dry_run then mret s else success ← run_one_sql_task c t; mret (count_run s success).
Definition run_sql_id_tasks (commands : list SqlCommand) (targets : list SqlTarget) (sql_id : Z) (force dry_run : bool) : M SqlScanResult :=
  if negb force then raise NeedsForce
  else match command_of commands sql_id with
  | None => raise (NoSuchCommand sql_id)
  | Some c =>
      let selected := List.filter (fun t => (tg_sql_id t =? sql_id) && String.eqb (lower (tg_db_type t)) (lower (sc_db_type c))) targets in
      match selected with
      | [] => raise (NoTargets sql_id)
      | _ =>
          _ ← (if dry_run then mret tt
               else running ← read fetch_running_sql_runs;
                    mark_stale_running_sql_runs commands targets (List.filter (fun r => sr_sql_id r =? sql_id) running));
          each (forced_one c dry_run) selected (mkScan (length selected) 0 0 0)
      end
  end.
End runner.

(** ** Closing a row by hand *)
Inductive close_answer : Type := NotConfirmed | ReasonRequired | NotRunning | ClosedByHand (closed : bool).
Definition by_hand_update (row : SqlRow) (reason message : string) (now : Z) : SqlUpdate :=
  {| su_status := "error"; su_level := "error"; su_message := message; su_finished_at := Some (iso_text now);
     su_duration_ms := None; su_row_count := None; su_error_text := Some message;
     su_metadata := [("stale_running", PBool true); ("closed_by", PStr "operator"); ("close_reason", PStr (strip reason))] |}.
Definition close_orphaned_run (clock : nat -> Z) (others : nat -> SqlDb -> SqlDb) (down : nat -> bool) (message_of : SqlRow -> string)
    (id : Z) (reason confirm : string) : M close_answer :=
  if negb (String.eqb (lower (strip confirm)) "yes") then mret NotConfirmed
  else if String.eqb (strip reason) "" then mret ReasonRequired
  else
    rows ← read clock others down fetch_running_sql_runs;
    match List.find (fun r => sr_id r =? id) rows with
    | None => mret NotRunning
    | Some row =>
        closed ← close clock others down id (by_hand_update row reason (message_of row)) (Some "running");
        mret (ClosedByHand closed)
    end.
