(* ===== verification/SqlRunsProofs.v ===== *)
(** * Facts about the runs of SQL tasks: claims, the scan, the sweep, and what goes wrong. *)

From stdpp Require Import relations.
From S2P Require Import Prelude Py PyTime TimeWindow RunClaim Store SqlRuns.

(** ** The table stays well-formed *)
Definition table_ok (d : SqlDb) : Prop :=
  NoDup (map sr_id (sql_runs d)) /\ Forall (fun r => sr_id r < next_sql_id d) (sql_runs d) /\ NoDup (sql_claims (sql_runs d)).
Lemma sql_claims_app l l' : sql_claims (l ++ l') = sql_claims l ++ sql_claims l'.
Proof. apply omap_app. Qed.
Lemma insert_table_ok p item d d' id : table_ok d -> insert_sql_run p item d = Ok (d', id) ->
  table_ok d' /\ id = next_sql_id d /\ next_sql_id d' = next_sql_id d + 1
  /\ exists r, sql_runs d' = sql_runs d ++ [r] /\ sr_id r = id /\ sr_status r = in_status item /\ sr_run_key r = in_run_key item.
Proof.
  intros (H1 & H2 & H3) H. unfold insert_sql_run in H. cbv zeta in H. apply result_bind_ok in H as (m & _ & H).
  destruct (negb _); [done|]. destruct (sql_claims_unique _) eqn:E; [|by destruct (String.eqb _ _)]. injection H as <- <-.
  apply bool_decide_eq_true in E. split; [|split_and!; [done|done|by eexists]]. split_and!; [| |exact E]; cbn [sql_runs next_sql_id].
  - rewrite map_app. apply list.NoDup_app. split_and!; [done| |apply NoDup_singleton].
    intros x (r & -> & Hr)%list_elem_of_fmap Hx%list_elem_of_singleton. rewrite list.Forall_forall in H2. specialize (H2 r Hr). cbn in Hx. lia.
  - apply list.Forall_app. split; [|by constructor; [cbn; lia|constructor]]. eapply list.Forall_impl; [exact H2|]. cbn. lia.
Qed.
Lemma update_table_rows id u only d d' b : update_sql_run id u only d = Ok (d', b) ->
  sql_runs d' = map (fun r => if update_hits id only r then write_sql_row u r else r) (sql_runs d)
  /\ next_sql_id d' = next_sql_id d /\ b = existsb (update_hits id only) (sql_runs d) /\ NoDup (sql_claims (sql_runs d')).
Proof.
  unfold update_sql_run. cbv zeta. destruct (_ && _); [done|]. destruct (sql_claims_unique _) eqn:E; [|done]. intros [= <- <-].
  apply bool_decide_eq_true in E. done.
Qed.
Lemma update_table_ok id u only d d' b : table_ok d -> update_sql_run id u only d = Ok (d', b) -> table_ok d'.
Proof.
  intros (H1 & H2 & H3) (Hr & Hn & _ & Hc)%update_table_rows. split_and!; [| |exact Hc]; rewrite Hr.
  - rewrite map_map. erewrite map_ext; [exact H1|]. intros r. cbn. by destruct (update_hits id only r).
  - rewrite Hn. apply list.Forall_fmap. eapply list.Forall_impl; [exact H2|]. intros r. cbn. by destruct (update_hits id only r).
Qed.
(** A row that takes another status than running frees a claim, so it is never refused by the index. *)
Lemma closing_frees l f : (forall r, sql_claim_of (f r) = sql_claim_of r \/ sql_claim_of (f r) = None) -> NoDup (sql_claims l) ->
  NoDup (sql_claims (map f l)).
Proof.
  intros Hf H. eapply sublist_NoDup; [exact H|]. clear H. induction l as [|r l IH]; [constructor|].
  unfold sql_claims in *. cbn [map omap list_omap]. destruct (Hf r) as [-> | ->]; destruct (sql_claim_of r); try exact IH; by constructor.
Qed.
Lemma close_lands id u only d : NoDup (sql_claims (sql_runs d)) -> is_running (su_status u) = false -> row_checks (su_level u) (su_duration_ms u) = true ->
  exists d', update_sql_run id u only d = Ok (d', existsb (update_hits id only) (sql_runs d)).
Proof.
  intros H Hs Hc. unfold update_sql_run. cbv zeta. rewrite Hc. cbn [negb]. rewrite andb_false_r. eexists.
  unfold sql_claims_unique. rewrite bool_decide_eq_true_2; [done|]. apply closing_frees; [|done]. intros r.
  destruct (update_hits id only r); [|by left]. right. unfold sql_claim_of. cbn [sr_status write_sql_row]. by rewrite Hs.
Qed.

(** ** A claim *)
Definition held (key host : string) (d : SqlDb) : Prop := (key, host) ∈ sql_claims (sql_runs d).
Lemma claim_refused p c t started d : held (run_key t) (ps_host p) d -> ps_host p <> "" ->
  insert_sql_run p (started_item p c t started) d = Err (RunAlreadyClaimed (run_key t) (ps_host p)).
Proof.
  intros H Hh. unfold insert_sql_run. cbv zeta.
  assert (Hhost : str (py_or (get (in_metadata (started_item p c t started)) "host_name") (PStr (ps_host p))) = ps_host p).
  { cbn. unfold py_or, truthy. destruct (String.eqb (ps_host p) "") eqn:E; [by apply String.eqb_eq in E|]. done. }
  rewrite Hhost. change (String.eqb (lower (strip (in_status (started_item p c t started)))) "running") with true. cbv iota.
  change (_claim_pid p (in_metadata (started_item p c t started))) with (Ok (E := store_error) (ps_pid p)). cbn [mbind result_bind].
  change (negb (row_checks (in_level (started_item p c t started)) None)) with false. cbv iota.
  unfold sql_claims_unique. rewrite bool_decide_eq_false_2; [done|]. rewrite sql_claims_app. intros (_ & Hd & _)%list.NoDup_app.
  apply (Hd _ H). unfold sql_claims. cbn. by left.
Qed.

(** ** The scan *)
Section runner.
Context (clock : nat -> Z) (others : nat -> SqlDb -> SqlDb) (down : nat -> bool) (queue : nat -> result string unit) (me : Process)
  (is_pid_alive : nat -> Z -> bool) (stop_process : nat -> Z -> string -> bool) (exception_text : run_error -> string)
  (work : SqlCommand -> SqlTarget -> Z -> result string Report).
Notation run_one := (run_one_sql_task clock others down queue me exception_text work).
Notation scan_task := (scan_one clock others down queue me exception_text work).
Notation store_call := (call clock others down).

(** Every computation goes forward, and says when the store was down. *)
Definition forward {A} (m : M A) : Prop := forall s, (calls s <= calls (m s).2)%nat /\
  ((m s).1 = Err StoreDown -> exists n, (calls s <= n < calls (m s).2)%nat /\ down n = true).
Lemma forward_ret {A} (a : A) : forward (mret a).
Proof. intros s. cbn. split; [lia|done]. Qed.
Lemma forward_raise {A} e : e <> StoreDown -> forward (raise e : M A).
Proof. intros H s. cbn. split; [lia|congruence]. Qed.
Lemma forward_bind {A B} (m : M A) (f : A -> M B) : forward m -> (forall a, forward (f a)) -> forward (m ≫= f).
Proof.
  intros Hm Hf s. unfold mbind, M_bind. specialize (Hm s). destruct (m s) as [[a|e] s'] eqn:E; cbn in Hm |- *;
    [|split; [apply Hm|intros [= ->]; by apply Hm]].
  destruct Hm as [Hm _]. destruct (Hf a s') as [H1 H2]. split; [lia|]. intros H. destruct (H2 H) as (n & ? & ?). exists n. split; [lia|done].
Qed.
Lemma forward_catch {A} (m : M A) h : forward m -> (forall e, forward (h e)) -> forward (catch m h).
Proof.
  intros Hm Hh s. unfold catch. specialize (Hm s). destruct (m s) as [[a|e] s'] eqn:E; cbn in Hm |- *; [split; [apply Hm|done]|].
  destruct Hm as [Hm _]. destruct (Hh e s') as [H1 H2]. split; [lia|]. intros H. destruct (H2 H) as (n & ? & ?). exists n. split; [lia|done].
Qed.
Lemma forward_act a : forward (act a).
Proof. intros s. cbn. split; [lia|done]. Qed.
Lemma forward_tick : forward tick.
Proof. intros s. cbn. split; [lia|done]. Qed.
Lemma forward_call {A} (f : Z -> SqlDb -> result store_error (SqlDb * A)) : forward (store_call f).
Proof.
  intros s. unfold call. destruct (down (calls s)) eqn:E; cbn; [split; [lia|]; intros _; exists (calls s); split; [lia|done]|].
  destruct (f _ _) as [[d a]|e]; cbn; (split; [lia|done]).
Qed.
Lemma forward_enqueue id st : forward (enqueue queue id st).
Proof. intros s. unfold enqueue. destruct (queue (calls s)); cbn; (split; [lia|done]). Qed.
Lemma forward_when b m : forward m -> forward (when b m).
Proof. intros H. destruct b; [exact H|apply forward_ret]. Qed.
Lemma forward_close id u only : forward (close clock others down id u only).
Proof. apply forward_bind; [apply forward_call|]. intros b. apply forward_bind; [apply forward_act|]. intros _. apply forward_ret. Qed.
Lemma forward_run_one c t : forward (run_one c t).
Proof.
  apply forward_bind; [apply forward_tick|]. intros n. apply forward_bind; [apply forward_call|]. intros id.
  apply forward_bind; [apply forward_act|]. intros _. apply forward_bind; [apply forward_when, forward_enqueue|]. intros _.
  apply forward_catch; [|intros e; apply forward_bind; [apply forward_close|]; intros _; apply forward_bind;
    [apply forward_when, forward_enqueue|]; intros _; apply forward_ret].
  unfold finish_task. destruct (work c t id); [|by apply forward_raise].
  apply forward_bind; [apply forward_close|]. intros _. apply forward_bind; [apply forward_when, forward_enqueue|]. intros _. apply forward_ret.
Qed.

Definition answered (s : SqlScanResult) : nat := (success_count s + error_count s + skipped_count s)%nat.
Lemma scan_one_answers listed acc p s :
  match scan_task false listed acc p s with
  | (Ok r, s') => due_count r = due_count acc /\ answered r = S (answered acc) /\ (calls s <= calls s')%nat
  | (Err e, s') => e = StoreDown /\ exists n, (calls s <= n < calls s')%nat /\ down n = true
  end.
Proof.
  unfold scan_one. unfold mbind at 1, M_bind at 1. unfold read.
  pose proof (forward_call (fun (_ : Z) d => Ok (d, sql_run_started_since (run_key p.2) listed d)) s) as [H1 H2].
  unfold call in *. destruct (down (calls s)) eqn:Ed; cbn in *; [split; [done|]; apply H2; done|].
  destruct (sql_run_started_since _ _ _) eqn:Et; cbn; [unfold answered; cbn; split_and!; lia|].
  unfold catch, mbind, M_bind. set (s0 := mkPass _ _ _).
  pose proof (forward_run_one p.1 p.2 s0) as [F1 F2]. destruct (run_one p.1 p.2 s0) as [[b|e] s'] eqn:E; cbn in *.
  - destruct b; cbn; unfold answered; cbn; split_and!; lia.
  - unfold scan_caught. destruct e as [e| | | | | | |]; try (cbn; unfold answered; cbn; split_and!; lia).
    + destruct e; cbn; unfold answered; cbn; split_and!; lia.
    + cbn. split; [done|]. destruct (F2 eq_refl) as (n & ? & ?). exists n. split; [lia|done].
Qed.
Lemma scan_answers listed due acc s :
  match each (scan_task false listed) due acc s with
  | (Ok r, s') => due_count r = due_count acc /\ answered r = (answered acc + length due)%nat
  | (Err e, s') => e = StoreDown /\ exists n, (calls s <= n < calls s')%nat /\ down n = true
  end.
Proof.
  revert acc s. induction due as [|p due IH]; intros acc s; [cbn; split; [done|lia]|]. cbn [each]. unfold mbind, M_bind.
  pose proof (scan_one_answers listed acc p s) as H. destruct (scan_task false listed acc p s) as [[r|e] s']; [|exact H].
  destruct H as (H1 & H2 & H3). specialize (IH r s'). destruct (each _ due r s') as [[r'|e] s''].
  - rewrite H1, H2 in IH. destruct IH as [-> ->]. split; [done|]. cbn. lia.
  - destruct IH as [-> (n & ? & ?)]. split; [done|]. exists n. split; [lia|done].
Qed.
(** C29: Whatever others do to the table and whatever a task raises, a scan counts each due task
    once, as success, error or skipped; it stops early only when the store did not answer one of
    its calls. *)
Theorem a_scan_answers_every_due_task listed due s :
  match each (scan_one clock others down queue me exception_text work false listed) due (mkScan (length due) 0 0 0) s with
  | (Ok r, _) => due_count r = length due /\ (success_count r + error_count r + skipped_count r)%nat = length due
  | (Err e, s') => e = StoreDown /\ exists n, (calls s <= n < calls s')%nat /\ down n = true
  end.
Proof.
  pose proof (scan_answers listed due (mkScan (length due) 0 0 0) s) as H. destruct (each _ _ _ s) as [[r|e] s']; [|exact H].
  exact H.
Qed.

(** A run that is asked for stops at the first target that is running. *)
Definition busy (t : SqlTarget) (s : Pass) : Prop :=
  held (run_key t) (ps_host me) (others (calls s) (table s)) /\ ps_host me <> "" /\ down (calls s) = false.
Lemma run_one_refused c t s : busy t s ->
  run_one c t s = (Err (StoreFailed (RunAlreadyClaimed (run_key t) (ps_host me))), mkPass (S (calls s)) (others (calls s) (table s)) (acts s)).
Proof.
  intros (Hh & Hm & Hd). unfold run_one_sql_task, tick, call. unfold mbind, M_bind. rewrite Hd.
  by rewrite (claim_refused _ _ _ _ _ Hh Hm).
Qed.
(** word. *)
Lemma a_forced_run_drops_the_targets_behind_a_running_one c t rest acc s listed : busy t s ->
  each (forced_one clock others down queue me exception_text work c false) (t :: rest) acc s
  = (Err (StoreFailed (RunAlreadyClaimed (run_key t) (ps_host me))), mkPass (S (calls s)) (others (calls s) (table s)) (acts s))
  /\ (sql_run_started_since (run_key t) listed (others (calls s) (table s)) = false ->
      let s1 := mkPass (S (calls s)) (others (calls s) (table s)) (acts s) in
      busy t s1 ->
      each (scan_one clock others down queue me exception_text work false listed) ((c, t) :: map (pair c) rest) acc s
      = each (scan_one clock others down queue me exception_text work false listed) (map (pair c) rest) (count_skipped acc)
          (mkPass (S (calls s1)) (others (calls s1) (table s1)) (acts s))).
Proof.
  intros H. split.
  - cbn [each]. unfold mbind at 1, M_bind at 1.
    assert (forced_one clock others down queue me exception_text work c false acc t s
      = (Err (StoreFailed (RunAlreadyClaimed (run_key t) (ps_host me))), mkPass (S (calls s)) (others (calls s) (table s)) (acts s))) as ->; [|done].
    unfold forced_one, mbind, M_bind. cbv beta iota. by rewrite (run_one_refused _ _ _ H).
  - intros Hs s1 Hb. cbn [each map]. unfold mbind at 1, M_bind at 1.
    assert (scan_task false listed acc (c, t) s = (Ok (count_skipped acc), mkPass (S (calls s1)) (others (calls s1) (table s1)) (acts s))) as ->; [|done].
    destruct H as (_ & _ & Hd). unfold scan_one, read, call, catch, mbind, M_bind. cbn [fst snd]. rewrite Hd, Hs. fold s1.
    by rewrite (run_one_refused _ _ _ Hb).
Qed.
End runner.

(** ** What a scan leaves behind *)
Section alone.
Context (clock : nat -> Z) (queue : nat -> result string unit) (me : Process) (exception_text : run_error -> string)
  (work : SqlCommand -> SqlTarget -> Z -> result string Report).
Definition nobody (_ : nat) (d : SqlDb) : SqlDb := d.
Definition up (_ : nat) : bool := false.
Notation run_one := (run_one_sql_task clock nobody up queue me exception_text work).
Definition row_in (d : SqlDb) (id : Z) (status : string) : Prop := exists r, r ∈ sql_runs d /\ sr_id r = id /\ sr_status r = status.
Definition at_id (d : SqlDb) (id : Z) : Prop := NoDup (sql_claims (sql_runs d)) /\ existsb (update_hits id None) (sql_runs d) = true.
Lemma close_alone id u s : at_id (table s) id -> is_running (su_status (u (clock (calls s)))) = false ->
  su_status (u (clock (calls s))) = su_status (u 0) ->
  row_checks (su_level (u (clock (calls s)))) (su_duration_ms (u (clock (calls s)))) = true ->
  exists d, close clock nobody up id u None s = (Ok true, mkPass (S (calls s)) d (acts s ++ [Closed id (su_status (u 0)) true]))
    /\ at_id d id /\ row_in d id (su_status (u 0)).
Proof.
  intros [Hn Hh] Hs Hs0 Hc. unfold close, call, act, mbind, M_bind, up, nobody.
  destruct (close_lands id (u (clock (calls s))) None (table s) Hn Hs Hc) as [d E]. rewrite E, Hh.
  pose proof (update_table_rows _ _ _ _ _ _ E) as (Hr & Hx & _ & Hc'). exists d. split; [done|].
  apply existsb_exists in Hh as (r & Hr0%list_elem_of_In & Hhit).
  assert (Hin : write_sql_row (u (clock (calls s))) r ∈ sql_runs d).
  { rewrite Hr. apply list_elem_of_fmap. exists r. by rewrite Hhit. }
  assert (Hid : sr_id r = id) by (apply andb_prop in Hhit as [Hhit _]; by apply Z.eqb_eq in Hhit).
  split; [split; [done|]|].
  - apply existsb_exists. eexists. split; [by apply list_elem_of_In|]. unfold update_hits. cbn. by rewrite Hid, Z.eqb_refl.
  - eexists. split_and!; [exact Hin|done|]. cbn. by rewrite Hs0.
Qed.
Lemma close_refused id u only s : existsb (update_hits id only) (sql_runs (table s)) = true ->
  row_checks (su_level (u (clock (calls s)))) (su_duration_ms (u (clock (calls s)))) = false ->
  close clock nobody up id u only s = (Err (StoreFailed CheckViolation), mkPass (S (calls s)) (table s) (acts s)).
Proof.
  intros Hh Hc. unfold close, call, mbind, M_bind, up, nobody, update_sql_run. cbv zeta. by rewrite Hh, Hc.
Qed.
(** The first part of a run: its row, and the message that it has started. *)
Lemma run_one_starts c t s d1 id : insert_sql_run me (started_item me c t (clock (calls s))) (table s) = Ok (d1, id) ->
  tg_logging_on_run t = true -> queue (S (calls s)) = Ok tt ->
  run_one c t s = catch (finish_task clock nobody up queue me work c t (clock (calls s)) id)
    (task_failed clock nobody up queue me exception_text c t (clock (calls s)) id)
    (mkPass (S (S (calls s))) d1 (acts s ++ [Claimed id; Queued id "running"])).
Proof.
  intros Hi Hl Hq. unfold run_one_sql_task, mbind, M_bind, tick, call, act, up, nobody, enqueue. cbn [calls table acts].
  rewrite Hi, Hl. cbn [when calls table acts]. rewrite Hq. unfold act. cbn [calls table acts]. by rewrite <-app_assoc.
Qed.
Lemma inserted c t started s d1 id : table_ok (table s) -> insert_sql_run me (started_item me c t started) (table s) = Ok (d1, id) ->
  at_id d1 id /\ row_in d1 id "running".
Proof.
  intros Hok H. destruct (insert_table_ok _ _ _ _ _ Hok H) as ((_ & _ & Hc) & Hid & _ & r & Hr & Hri & Hst & _).
  split; [split; [done|]|].
  - rewrite Hr, existsb_app. apply orb_true_iff. right. cbn. unfold update_hits. rewrite Hri, Z.eqb_refl. done.
  - exists r. rewrite Hr. split_and!; [apply elem_of_app; right; by left|done|done].
Qed.
Lemma duration_ok started x : started <= x -> (0 <=? duration_of started x) = true.
Proof. intros Hx. apply Z.leb_le. unfold duration_of. apply Z.quot_pos; lia. Qed.
Lemma done_checks c started x r : started <= x -> row_checks (su_level (done_update me c started x r)) (su_duration_ms (done_update me c started x r)) = true.
Proof. intros Hx. unfold row_checks. cbn. rewrite duration_ok by done. rewrite andb_true_r. by destruct (_ =? _)%nat. Qed.
Lemma error_checks c started x why : started <= x -> row_checks (su_level (error_update me c started x why)) (su_duration_ms (error_update me c started x why)) = true.
Proof. intros Hx. unfold row_checks. cbn. by rewrite duration_ok. Qed.

(** word. *)
Lemma a_done_run_is_recorded_as_failed c t s d1 id r why : table_ok (table s) ->
  insert_sql_run me (started_item me c t (clock (calls s))) (table s) = Ok (d1, id) ->
  work c t id = Ok r -> tg_logging_on_run t = true -> tg_alert_on_error t = false ->
  queue (S (calls s)) = Ok tt -> queue (3 + calls s)%nat = Err why ->
  clock (calls s) <= clock (2 + calls s)%nat -> clock (calls s) <= clock (4 + calls s)%nat ->
  exists s', run_one_sql_task clock nobody up queue me exception_text work c t s = (Ok false, s')
    /\ acts s' = acts s ++ [Claimed id; Queued id "running"; Closed id "done" true; Closed id "error" true] /\ row_in (table s') id "error".
Proof.
  intros Hok Hi Hw Hl Ha Hq Hq' H2 H4. destruct (inserted c t _ s d1 id Hok Hi) as (Hat & _).
  rewrite (run_one_starts c t s d1 id Hi Hl Hq). set (s1 := mkPass _ d1 _).
  destruct (close_alone id (fun now => done_update me c (clock (calls s)) now r) s1 Hat eq_refl eq_refl (done_checks _ _ _ _ H2)) as (d2 & E2 & Hat2 & _).
  set (s2 := mkPass (S (calls s1)) d2 _) in E2. set (s3 := mkPass (S (calls s2)) d2 (acts s2)).
  assert (F : finish_task clock nobody up queue me work c t (clock (calls s)) id s1 = (Err (NotQueued why), s3)).
  { unfold finish_task. rewrite Hw. unfold mbind, M_bind. rewrite E2, Hl. cbn [when]. unfold enqueue.
    assert (Hq3 : queue (calls s2) = Err why) by exact Hq'. by rewrite Hq3. }
  unfold catch. rewrite F. unfold task_failed, mbind, M_bind.
  destruct (close_alone id (fun now => error_update me c (clock (calls s)) now (why_failed exception_text (NotQueued why))) s3 Hat2 eq_refl eq_refl
    (error_checks _ _ _ _ H4)) as (d3 & E3 & _ & Hrow).
  rewrite E3, Ha. eexists. split; [reflexivity|]. split; [|exact Hrow]. cbn. by rewrite <-!app_assoc.
Qed.

(** Two ways to leave a row running with its claim, while its process goes on to the next task. *)
(** When the message that a run has started cannot be queued, or the clock is set back by a
    millisecond or more while it runs, the task raises, the scan counts an error and goes on,
    and the row stays running with its claim. *)
Lemma a_run_that_ends_may_keep_its_claim c t s d1 id : table_ok (table s) ->
  insert_sql_run me (started_item me c t (clock (calls s))) (table s) = Ok (d1, id) -> tg_logging_on_run t = true ->
  (exists why, queue (S (calls s)) = Err why)
  \/ (queue (S (calls s)) = Ok tt /\ (exists r, work c t id = Ok r) /\ clock (2 + calls s)%nat <= clock (calls s) - 1000 /\ clock (3 + calls s)%nat <= clock (calls s) - 1000) ->
  exists e s', run_one_sql_task clock nobody up queue me exception_text work c t s = (Err e, s')
    /\ row_in (table s') id "running" /\ (forall acc, scan_caught acc e s' = (Ok (count_error acc), s')).
Proof.
  intros Hok Hi Hl Hcase. destruct (inserted c t _ s d1 id Hok Hi) as ([Hn Hh] & Hr). destruct Hcase as [[why Hq]|(Hq & [r Hw] & H2 & H3)].
  - unfold run_one_sql_task, mbind, M_bind, tick, call, act, up, nobody, enqueue. cbn [calls table acts].
    rewrite Hi, Hl. cbn [when calls table acts]. rewrite Hq. eexists _, _. split; [reflexivity|]. by split.
  - rewrite (run_one_starts c t s d1 id Hi Hl Hq). set (s1 := mkPass _ d1 _).
    assert (Hd : forall x, x <= clock (calls s) - 1000 -> (0 <=? duration_of (clock (calls s)) x) = false).
    { intros x Hx. apply Z.leb_gt. unfold duration_of. assert (Z.quot (x - clock (calls s)) 1000 <= Z.quot (-1000) 1000) by (apply Z.quot_le_mono; lia).
      change (Z.quot (-1000) 1000) with (-1) in *. lia. }
    assert (E1 : close clock nobody up id (fun now => done_update me c (clock (calls s)) now r) None s1 = (Err (StoreFailed CheckViolation), mkPass (S (calls s1)) d1 (acts s1))).
    { apply close_refused; [done|]. unfold row_checks. cbn [su_duration_ms done_update]. by rewrite (Hd (clock (calls s1)) H2), andb_false_r. }
    set (s2 := mkPass (S (calls s1)) d1 (acts s1)) in E1.
    assert (E2 : close clock nobody up id (fun now => error_update me c (clock (calls s)) now (why_failed exception_text (StoreFailed CheckViolation))) None s2
      = (Err (StoreFailed CheckViolation), mkPass (S (calls s2)) d1 (acts s2))).
    { apply close_refused; [done|]. unfold row_checks. cbn [su_duration_ms error_update]. by rewrite (Hd (clock (calls s2)) H3), andb_false_r. }
    unfold catch, finish_task. rewrite Hw. unfold mbind, M_bind. rewrite E1. unfold task_failed, mbind, M_bind. rewrite E2.
    eexists _, _. split; [reflexivity|]. by split.
Qed.
End alone.

(** ** The sweep *)
Section sweep.
Context (clock : nat -> Z) (others : nat -> SqlDb -> SqlDb) (down : nat -> bool) (queue : nat -> result string unit) (me : Process)
  (is_pid_alive : nat -> Z -> bool) (stop_process : nat -> Z -> string -> bool) (commands : list SqlCommand) (targets : list SqlTarget).
End sweep.

(** ** Many sweeps at once *)
(** The table, and the runs that were reported as dead, by every process there is. *)
Record Fleet := mkFleet { fl_table : SqlDb; fl_reported : list Z }.
Inductive fleet_step (w : Fleet) : Fleet -> Prop :=
| fleet_starts p item d id : in_status item = "running" -> insert_sql_run p item (fl_table w) = Ok (d, id) ->
    fleet_step w (mkFleet d (fl_reported w))
| fleet_ends id u d b : is_running (su_status u) = false -> update_sql_run id u None (fl_table w) = Ok (d, b) ->
    fleet_step w (mkFleet d (fl_reported w))
(** A sweep that read the row at some time, and judged it since. *)
| fleet_sweeps row timed_out reason now d closed :
    update_sql_run (sr_id row) (stale_update row timed_out reason now) (Some "running") (fl_table w) = Ok (d, closed) ->
    fleet_step w (mkFleet d (if closed then fl_reported w ++ [sr_id row] else fl_reported w)).
Definition fleet_ok (w : Fleet) : Prop :=
  table_ok (fl_table w) /\ NoDup (fl_reported w)
  /\ Forall (fun id => id < next_sql_id (fl_table w) /\ forall r, r ∈ sql_runs (fl_table w) -> sr_id r = id -> sr_status r <> "running") (fl_reported w).
Lemma reported_kept id u only d d' b reported : update_sql_run id u only d = Ok (d', b) -> su_status u <> "running" ->
  Forall (fun id => id < next_sql_id d /\ forall r, r ∈ sql_runs d -> sr_id r = id -> sr_status r <> "running") reported ->
  Forall (fun id => id < next_sql_id d' /\ forall r, r ∈ sql_runs d' -> sr_id r = id -> sr_status r <> "running") reported.
Proof.
  intros (Hr & Hn & _)%update_table_rows Hu H. eapply list.Forall_impl; [exact H|]. intros i [Hi Hrows]. rewrite Hn, Hr. split; [done|].
  intros r' (r & -> & Hin)%list_elem_of_fmap Hid. destruct (update_hits id only r); [exact Hu|]. by apply Hrows.
Qed.
Lemma fleet_step_ok w w' : fleet_step w w' -> fleet_ok w -> fleet_ok w'.
Proof.
  intros Hs (Ht & Hnd & Hrep). destruct Hs as [p item d id Hst H|id u d b Hu H|row to reason now d closed H]; unfold fleet_ok; cbn [fl_table fl_reported].
  - destruct (insert_table_ok _ _ _ _ _ Ht H) as (Ht' & Hid & Hn & r & Hr & Hri & _). split_and!; [done|done|].
    eapply list.Forall_impl; [exact Hrep|]. intros i [Hi Hrows]. split; [lia|]. intros r' Hin Hid'. rewrite Hr in Hin.
    apply elem_of_app in Hin as [Hin| ->%list_elem_of_singleton]; [by apply Hrows|]. lia.
  - split_and!; [by eapply update_table_ok|done|]. eapply reported_kept; [exact H| |exact Hrep]. by intros E; rewrite E in Hu.
  - pose proof (update_table_ok _ _ _ _ _ _ Ht H) as Ht'.
    pose proof (reported_kept _ _ _ _ _ _ _ H ltac:(done) Hrep) as Hrep'. destruct closed; [|done].
    pose proof (update_table_rows _ _ _ _ _ _ H) as (Hr & Hn & Hb & _). symmetry in Hb. apply existsb_exists in Hb as (r & Hin%list_elem_of_In & Hhit).
    apply andb_prop in Hhit as [Hid%Z.eqb_eq Hrun%String.eqb_eq].
    assert (Hnew : sr_id row ∉ fl_reported w).
    { intros Hx. rewrite list.Forall_forall in Hrep. destruct (Hrep _ Hx) as [_ Hno]. by apply (Hno r). }
    split_and!; [done|apply list.NoDup_app; split_and!; [done| |apply NoDup_singleton]; set_solver|].
    apply list.Forall_app. split; [done|]. constructor; [|constructor]. split.
    + rewrite Hn. destruct Ht as (_ & Hlt & _). rewrite list.Forall_forall in Hlt. rewrite <-Hid. by apply Hlt.
    + intros r' Hr' Hid'. rewrite Hr in Hr'. apply list_elem_of_fmap in Hr' as (r0 & -> & Hin0).
      destruct (update_hits (sr_id row) (Some "running") r0) eqn:Eh; [done|]. intros Hs. unfold update_hits in Eh.
      by rewrite Hid', Hs, Z.eqb_refl in Eh.
Qed.
(** C31: However many sweeps, runs and hosts work on one table in any order, no dead run is
    reported twice, no two running rows claim one target on one host, and a row that was
    reported is never running again. *)
Theorem a_dead_run_is_reported_once w w' : fleet_ok w -> rtc fleet_step w w' ->
  NoDup (fl_reported w') /\ NoDup (sql_claims (sql_runs (fl_table w')))
  /\ (forall id r, id ∈ fl_reported w' -> r ∈ sql_runs (fl_table w') -> sr_id r = id -> sr_status r <> "running").
Proof.
  intros Hok Hs. assert (Hw : fleet_ok w') by (induction Hs as [|x y z Hxy _ IH]; [done|]; apply IH; by eapply fleet_step_ok).
  destruct Hw as ((_ & _ & Hc) & Hnd & Hrep). split_and!; [done|done|]. intros id r Hid. rewrite list.Forall_forall in Hrep. by apply Hrep.
Qed.

(** ** At concrete tasks *)
Definition node_1 : Process := Build_Process "node-1" 41 "n1" (fun _ => "boot+17").
Definition hourly : TimeWindow := Build_TimeWindow None None None None None None None None None None (Some 3600) None (Some 600) None.
Definition load_orders : SqlCommand := mkCommand 28 "SQL028" "sqlserver" true.
Definition on_server (server : string) : SqlTarget := mkTarget 28 1 server "sqlserver" "" "" "loader" None hourly true true true.
Definition empty_table : SqlDb := mkSqlDb [] 1.
Lemma empty_table_ok : table_ok empty_table.
Proof. split_and!; [constructor|constructor|constructor]. Qed.
(** An instant of an evening, [s] seconds later. *)
Definition at_second (s : Z) : Z := seconds (ymd2ord 2026 9 21 * 86400 + 72000 + s).
Definition after_insert (t : SqlTarget) (d : SqlDb) : SqlDb :=
  match insert_sql_run node_1 (started_item node_1 load_orders t (at_second 0)) d with Ok (d, _) => d | Err _ => d end.
Definition running_table : SqlDb := after_insert (on_server "srv-1") empty_table.
Definition ok_work (_ : SqlCommand) (_ : SqlTarget) (_ : Z) : result string Report := Ok (mkReport 7 0).
Definition queue_ok (_ : nat) : result string unit := Ok tt.
Definition no_text (_ : run_error) : string := "".
Lemma forced_witness :
  (each (forced_one (fun _ => at_second 1) nobody up queue_ok node_1 no_text ok_work load_orders false) [on_server "srv-1"; on_server "srv-2"]
     (mkScan 2 0 0 0) (mkPass 0 running_table [])).1
  = Err (StoreFailed (RunAlreadyClaimed "28|1|srv-1|sqlserver||||loader" "node-1")).
Proof.
  assert (Hb : busy nobody up node_1 (on_server "srv-1") (mkPass 0 running_table [])).
  { split_and!; [|done|done]. unfold held. vm_compute. left. }
  by rewrite (proj1 (a_forced_run_drops_the_targets_behind_a_running_one (fun _ => at_second 1) nobody up queue_ok node_1 no_text ok_work
    load_orders (on_server "srv-1") [on_server "srv-2"] (mkScan 2 0 0 0) (mkPass 0 running_table []) "" Hb)).
Defined.
Definition quiet (t : SqlTarget) : SqlTarget :=
  mkTarget (tg_sql_id t) (tg_no t) (tg_server_id t) (tg_db_type t) (tg_service_name t) (tg_instance_name t) (tg_credential_name t)
    (tg_database_name t) (tg_window t) (tg_active t) true false.
Definition queue_full_at (k n : nat) : result string unit := if (n =? k)%nat then Err "database is locked" else Ok tt.
Lemma recorded_witness : exists s', run_one_sql_task (fun n => at_second (Z.of_nat n)) nobody up (queue_full_at 3) node_1 no_text ok_work
    load_orders (quiet (on_server "srv-1")) (mkPass 0 empty_table []) = (Ok false, s') /\ row_in (table s') 1 "error".
Proof.
  destruct (a_done_run_is_recorded_as_failed (fun n => at_second (Z.of_nat n)) (queue_full_at 3) node_1 no_text ok_work load_orders
    (quiet (on_server "srv-1")) (mkPass 0 empty_table []) running_table 1 (mkReport 7 0) "database is locked" empty_table_ok
    ltac:(vm_compute; reflexivity) eq_refl eq_refl eq_refl eq_refl eq_refl ltac:(vm_compute; congruence) ltac:(vm_compute; congruence))
    as (s' & H & _ & Hr).
  exists s'. by split.
Defined.
Lemma keeps_witness : exists e s', run_one_sql_task (fun n => at_second (if (n =? 0)%nat then 5 else 0)) nobody up queue_ok node_1 no_text ok_work
    load_orders (on_server "srv-1") (mkPass 0 empty_table []) = (Err e, s') /\ row_in (table s') 1 "running".
Proof.
  destruct (a_run_that_ends_may_keep_its_claim (fun n => at_second (if (n =? 0)%nat then 5 else 0)) queue_ok node_1 no_text ok_work load_orders
    (on_server "srv-1") (mkPass 0 empty_table []) (match insert_sql_run node_1 (started_item node_1 load_orders (on_server "srv-1") (at_second 5)) empty_table with Ok (d, _) => d | Err _ => empty_table end)
    1 empty_table_ok ltac:(vm_compute; reflexivity) eq_refl) as (e & s' & H & Hr & _).
  - right. split; [done|]. split; [by eexists|]. split; vm_compute; congruence.
  - exists e, s'. by split.
Defined.
Definition running_row : SqlRow := match sql_runs running_table with r :: _ => r
  | [] => Build_SqlRow 0 "" 0 "" 0 "" "" "" None None None None None "" [] end.
Lemma reported_witness : exists w', rtc fleet_step (mkFleet running_table []) w' /\ fl_reported w' = [1] /\ NoDup (fl_reported w').
Proof.
  set (u := stale_update running_row true "700s is past its timeout of 600s" (at_second 700)).
  set (d1 := match update_sql_run 1 u (Some "running") running_table with Ok (d, _) => d | Err _ => empty_table end).
  assert (Hs : rtc fleet_step (mkFleet running_table []) (mkFleet d1 [1])).
  { eapply rtc_l; [apply (fleet_sweeps _ running_row true "700s is past its timeout of 600s" (at_second 700) d1 true); vm_compute; reflexivity|].
    eapply rtc_l; [apply (fleet_sweeps _ running_row true "701s is past its timeout of 600s" (at_second 701) d1 false); vm_compute; reflexivity|].
    apply rtc_refl. }
  exists (mkFleet d1 [1]). split; [exact Hs|]. split; [done|].
  apply (a_dead_run_is_reported_once (mkFleet running_table []) (mkFleet d1 [1])); [|exact Hs].
  split_and!; [|constructor|constructor]. unfold table_ok. split_and!; [apply (bool_decide_unpack _); vm_compute; done
    |constructor; [vm_compute; done|constructor]|apply (bool_decide_unpack _); vm_compute; done].
Defined.
