(* ===== verification/SqlTable.v ===== *)
(** * Tables of a store, as the statements of [db/backup_catalog.py] see them.

    A row is the dict a query returns: a text, an integer or NULL ([PNone]) by column.  A schema
    states its columns with their defaults, the CHECKs, the unique indexes and the parents of the
    CREATE TABLE statement.  INSERT and UPDATE hold a row to all of them, or change nothing.
    Texts compare by bytes, as in SQLite and a "C" collation. *)

From S2P Require Import Prelude Py.

(** ** Schemas *)
Inductive column_default := NoDefault | Value (v : pyval) | Now.
Record Column := mkColumn { c_name : string; c_not_null : bool; c_default : column_default }.
Definition required (name : string) : Column := mkColumn name true NoDefault.
Definition nullable (name : string) : Column := mkColumn name false NoDefault.
Definition with_default (name : string) (v : pyval) : Column := mkColumn name true (Value v).
Definition stamped (name : string) : Column := mkColumn name true Now.

Record Unique := mkUnique { u_name : string; u_columns : list string; u_where : pydict -> bool }.
Record Parent := mkParent { p_name : string; p_column : string; p_table : string }.
Record Schema := mkSchema {
  t_name : string; t_key : string; t_columns : list Column;
  t_checks : list (string * (pydict -> bool)); t_unique : list Unique; t_parents : list Parent;
  t_first : list string (* the columns its trigger keeps *) }.

Definition is_null (r : pydict) (column : string) : bool := is_none (get r column).
(** [column IN (...)]: NULL passes a CHECK. *)
Definition one_of (column : string) (allowed : list string) (r : pydict) : bool :=
  match get r column with PNone => true | PStr s => bool_decide (s ∈ allowed) | _ => false end.
Definition at_least (column : string) (low : Z) (r : pydict) : bool :=
  match get r column with PNone => true | PInt n => low <=? n | _ => false end.
Definition at_most (column : string) (high : Z) (r : pydict) : bool :=
  match get r column with PNone => true | PInt n => n <=? high | _ => false end.
Definition has_length (column : string) (n : nat) (r : pydict) : bool :=
  match get r column with PNone => true | PStr s => (str_len s =? n)%nat | _ => false end.
Definition is_flag (column : string) (r : pydict) : bool :=
  match get r column with PNone => true | PInt n => (n =? 0) || (n =? 1) | _ => false end.

(** What an index compares: NULL is equal to nothing. *)
Definition cell (v : pyval) : option (Z + string) :=
  match v with PInt n => Some (inl n) | PStr s => Some (inr s) | _ => None end.
Definition same_cell (v w : pyval) : bool :=
  match cell v with Some c => bool_decide (cell w = Some c) | None => false end.
Definition key_of (u : Unique) (r : pydict) : option (list (Z + string)) :=
  if u_where u r then mapM (fun c => cell (get r c)) (u_columns u) else None.
Definition keys_of (u : Unique) (l : list pydict) : list (list (Z + string)) := omap (key_of u) l.

(** ** Tables *)
Record Table := mkTable { rows : list pydict; next : Z }.
Definition Catalog : Type := list (string * Table).
Definition table (name : string) (c : Catalog) : Table := default (mkTable [] 1) (assoc name c).
Definition rows_of (name : string) (c : Catalog) : list pydict := rows (table name c).

Inductive catalog_error : Type :=
| NoSuchColumns (names : list string) | MissingFields (names : list string) | NotOneOf (name : string)
| NeverRewritten (column : string) | SetByTheBackup | NoFile (id : Z) | NotNamed (columns : list string)
| NeverVerified | NotYetVerified | NoRetryStated | NoSuchSide
| Integrity (constraint : string).

Definition id_of (s : Schema) (r : pydict) : Z := match get r (t_key s) with PInt n => n | _ => 0 end.
Definition is_row (s : Schema) (id : Z) (r : pydict) : bool := id_of s r =? id.
Definition find_row (s : Schema) (id : Z) (c : Catalog) : option pydict :=
  List.find (is_row s id) (rows_of (t_name s) c).

(** ** The constraints of a row *)
Definition held (v : bool) (constraint : string) : result catalog_error unit :=
  if v then Ok tt else Err (Integrity constraint).
Definition parent_there (c : Catalog) (key : string -> string) (r : pydict) (p : Parent) : bool :=
  is_null r (p_column p)
  || existsb (fun x => same_cell (get x (key (p_table p))) (get r (p_column p))) (rows_of (p_table p) c).
Definition columns_filled (s : Schema) (r : pydict) : bool :=
  forallb (fun col => negb (c_not_null col && is_null r (c_name col))) (t_columns s).
Definition row_holds (s : Schema) (r : pydict) : bool :=
  columns_filled s r && forallb (fun k => k.2 r) (t_checks s).
Definition indexes_hold (s : Schema) (l : list pydict) : bool :=
  forallb (fun u => bool_decide (NoDup (keys_of u l))) (t_unique s).
(** The name an error gives is that of the first constraint that does not hold. *)
Definition broken_by (s : Schema) (key : string -> string) (c : Catalog) (r : pydict) (l : list pydict)
    : result catalog_error unit :=
  foldM (fun _ col => held (negb (c_not_null col && is_null r (c_name col))) (c_name col)) tt (t_columns s)
  ≫= fun _ => foldM (fun _ k => held (k.2 r) k.1) tt (t_checks s)
  ≫= fun _ => foldM (fun _ u => held (bool_decide (NoDup (keys_of u l))) (u_name u)) tt (t_unique s)
  ≫= fun _ => foldM (fun _ p => held (parent_there c key r p) (p_name p)) tt (t_parents s).

(** ** [_insert] and [_update] *)
Definition given (values : pydict) : pydict := List.filter (fun p => negb (is_none p.2)) values.
Definition filled (now : string) (values : pydict) (col : Column) : pyval :=
  match assoc (c_name col) values with
  | Some v => v
  | None => match c_default col with NoDefault => PNone | Value v => v | Now => PStr now end
  end.
Definition new_row (s : Schema) (now : string) (id : Z) (values : pydict) : pydict :=
  (t_key s, PInt id) :: map (fun col => (c_name col, filled now (given values) col)) (t_columns s).

Section statements.
Variable key : string -> string.   (* the primary key of a table *)

Definition _insert (s : Schema) (now : string) (values : pydict) (c : Catalog)
    : result catalog_error (Catalog * Z) :=
  let t := table (t_name s) c in
  let r := new_row s now (next t) values in
  let l := rows t ++ [r] in
  _ ← broken_by s key (assoc_set (t_name s) (mkTable l (next t + 1)) c) r l;
  Ok (assoc_set (t_name s) (mkTable l (next t + 1)) c, next t).

Definition assign (values : pydict) (r : pydict) : pydict :=
  fold_left (fun r p => assoc_set p.1 p.2 r) values r.
(** The trigger: a column it keeps may be filled, never changed. *)
Definition changed (old new : pydict) (column : string) : bool :=
  negb (is_null old column) && negb (same_cell (get old column) (get new column)).
Definition sql_update (s : Schema) (id : Z) (values : pydict) (c : Catalog) : result catalog_error Catalog :=
  match find_row s id c with
  | None => Ok c
  | Some old =>
      let new := assign values old in
      let l := map (fun r => if is_row s id r then new else r) (rows_of (t_name s) c) in
      let c' := assoc_set (t_name s) (mkTable l (next (table (t_name s) c))) c in
      _ ← foldM (fun _ column => if changed old new column then Err (Integrity ("trg_" +:+ t_name s +:+ "_first_checksum"))
                                  else Ok tt) tt (t_first s);
      _ ← broken_by s key c' new l;
      Ok c'
  end.
(** [values[name] != stored], of values a driver takes and returns. *)
Definition same_value (v w : pyval) : bool :=
  match v, w with PNone, PNone => true | _, _ => same_cell v w end.
Definition _refuse_rewrite (s : Schema) (id : Z) (values : pydict) (c : Catalog) : result catalog_error unit :=
  match find_row s id c with
  | None => Ok tt
  | Some r =>
      foldM (fun _ name =>
        match assoc name values with
        | None => Ok tt
        | Some v => if negb (is_null r name) && negb (same_value v (get r name))
                    then Err (NeverRewritten name) else Ok tt
        end) tt (t_first s)
  end.
Definition _update (s : Schema) (id : Z) (values : pydict) (c : Catalog) : result catalog_error Catalog :=
  match values with
  | [] => Ok c
  | _ => _ ← _refuse_rewrite s id values c; sql_update s id values c
  end.
End statements.

(** ** What a query reads *)
Fixpoint coalesce (l : list pyval) : pyval :=
  match l with [] => PNone | v :: l => if is_none v then coalesce l else v end.
Definition text_of_cell (v : pyval) : string := match v with PStr s => s | _ => "" end.
(** [column = 'text']: unknown, so not taken, of a NULL. *)
Definition equals (r : pydict) (column wanted : string) : bool :=
  match get r column with PStr s => String.eqb s wanted | _ => false end.
Definition among (r : pydict) (column : string) (allowed : list string) : bool :=
  match get r column with PStr s => bool_decide (s ∈ allowed) | _ => false end.
Definition before (v w : pyval) : bool :=
  match v, w with PStr a, PStr b => str_lt a b | _, _ => false end.
Definition limited {A} (limit : Z) (l : list A) : list A := if limit <? 0 then l else take (Z.to_nat limit) l.
(** MAX and MIN of texts: NULLs do not count, and there may be none. *)
Definition max_text (best v : pyval) : pyval :=
  match best, v with
  | PStr a, PStr b => PStr (str_max a b) | PNone, PStr b => PStr b | _, _ => best end.
Definition max_of (l : list pyval) : pyval := fold_left max_text l PNone.
Definition min_text (best v : pyval) : pyval :=
  match best, v with
  | PStr a, PStr b => if str_lt b a then v else best | PNone, PStr b => v | _, _ => best end.
Definition min_of (l : list pyval) : pyval := fold_left min_text l PNone.
Definition id_leb (s : Schema) (a b : pydict) : bool := id_of s a <=? id_of s b.
Definition id_geb (s : Schema) (a b : pydict) : bool := id_of s b <=? id_of s a.

(** ** What a table keeps *)
Definition rows_ok (s : Schema) (key : string -> string) (c : Catalog) : Prop :=
  let t := table (t_name s) c in
  NoDup (map (id_of s) (rows t))
  /\ Forall (fun r => 0 < id_of s r < next t /\ row_holds s r = true
                      /\ Forall (fun p => parent_there c key r p = true) (t_parents s)) (rows t)
  /\ indexes_hold s (rows t) = true /\ 0 < next t.
