(* ===== verification/SqlTableProofs.v ===== *)
(** * What the statements of a store keep ([SqlTable]).

    A catalog whose constraints hold is left with them by every INSERT and UPDATE; no statement
    removes a row, and none changes a value the trigger of its table keeps. *)

From S2P Require Import Prelude Py SqlTable.

(** ** Reading rows *)
Lemma same_cell_eq v w : same_cell v w = true -> v = w.
Proof. unfold same_cell. destruct v, w; cbn; try done; rewrite ?bool_decide_eq_true; naive_solver. Qed.
Lemma same_cell_true v w c : cell v = Some c -> cell w = Some c -> same_cell v w = true.
Proof. unfold same_cell. intros -> ->. by apply bool_decide_eq_true. Qed.
Lemma same_cell_refl v c : cell v = Some c -> same_cell v v = true.
Proof. intros H. by apply (same_cell_true _ _ c). Qed.
Lemma get_assoc_set_eq k v (r : pydict) : get (assoc_set k v r) k = v.
Proof. unfold get. by rewrite assoc_set_eq. Qed.
Lemma get_assoc_set_ne k k' v (r : pydict) : k <> k' -> get (assoc_set k v r) k' = get r k'.
Proof. unfold get. intros. by rewrite assoc_set_ne. Qed.

Lemma assign_other values r k : k ∉ map fst values -> get (assign values r) k = get r k.
Proof.
  revert r. induction values as [|[k' v] values IH]; intros r; cbn [map fst]; [done|].
  intros [Hne Hk]%not_elem_of_cons. change (get (assign values (assoc_set k' v r)) k = get r k).
  rewrite IH by done. by rewrite get_assoc_set_ne.
Qed.
Lemma assign_id s values r : t_key s ∉ map fst values -> id_of s (assign values r) = id_of s r.
Proof. intros H. unfold id_of. by rewrite assign_other. Qed.

(** ** Tables of a catalog *)
Lemma table_set_eq name t c : table name (assoc_set name t c) = t.
Proof. unfold table. by rewrite assoc_set_eq. Qed.
Lemma table_set_ne name name' t c : name <> name' -> table name' (assoc_set name t c) = table name' c.
Proof. intros. unfold table. by rewrite assoc_set_ne. Qed.
Lemma rows_set_eq name l n c : rows_of name (assoc_set name (mkTable l n) c) = l.
Proof. unfold rows_of. by rewrite table_set_eq. Qed.
Lemma rows_set_ne name name' t c : name <> name' -> rows_of name' (assoc_set name t c) = rows_of name' c.
Proof. intros. unfold rows_of. by rewrite table_set_ne. Qed.

Lemma held_ok b k u : held b k = Ok u <-> b = true.
Proof. destruct u, b; cbn; naive_solver. Qed.
Lemma forallb_Forall {A} (p : A -> bool) l : forallb p l = true <-> Forall (fun x => p x = true) l.
Proof. rewrite forallb_forall, list.Forall_forall. by setoid_rewrite list_elem_of_In. Qed.
Lemma broken_by_ok s key c r l u : broken_by s key c r l = Ok u ->
  row_holds s r = true /\ indexes_hold s l = true /\ Forall (fun p => parent_there c key r p = true) (t_parents s).
Proof.
  unfold broken_by. rewrite !result_seq_ok, !foldM_checks. intros (Hc & Hk & Hu & Hp).
  setoid_rewrite held_ok in Hc. setoid_rewrite held_ok in Hk. setoid_rewrite held_ok in Hu. setoid_rewrite held_ok in Hp.
  unfold row_holds, columns_filled, indexes_hold. rewrite andb_true_iff, !forallb_Forall. naive_solver.
Qed.

Lemma is_row_iff s id r : is_row s id r = true <-> id_of s r = id.
Proof. unfold is_row. apply Z.eqb_eq. Qed.
Lemma find_row_some s id c r : find_row s id c = Some r -> r ∈ rows_of (t_name s) c /\ id_of s r = id.
Proof. unfold find_row. intros [Hin His]%find_some. rewrite list_elem_of_In. by apply is_row_iff in His. Qed.
Lemma find_row_id s c r : NoDup (map (id_of s) (rows_of (t_name s) c)) -> r ∈ rows_of (t_name s) c ->
  find_row s (id_of s r) c = Some r.
Proof.
  intros Hnd Hr. unfold find_row. destruct (List.find _ _) as [r'|] eqn:Hf.
  - apply find_some in Hf as [Hin His%is_row_iff]. f_equal.
    apply (NoDup_map_inj (id_of s) (rows_of (t_name s) c)); [done|by apply list_elem_of_In|done|done].
  - apply find_none with (x := r) in Hf; [|by apply list_elem_of_In].
    unfold is_row in Hf. by rewrite Z.eqb_refl in Hf.
Qed.
Lemma find_app_some {A} (p : A -> bool) l l' x : List.find p l = Some x -> List.find p (l ++ l') = Some x.
Proof. induction l as [|y l IH]; cbn; [done|]. by destruct (p y). Qed.

Section catalogs.
Variable schemas : list Schema.
Variable key : string -> string.
Hypothesis names_differ : NoDup (map t_name schemas).
Hypothesis keys_stated : Forall (fun s => key (t_name s) = t_key s) schemas.
Hypothesis parents_stated :
  Forall (fun s => Forall (fun p => p_table p ∈ map t_name schemas) (t_parents s)) schemas.

(** Whatever statement reaches the store: an INSERT, or an UPDATE of one row that leaves its
    primary key alone. *)
Inductive statement : Catalog -> Catalog -> Prop :=
| St_insert s now values c c' id : s ∈ schemas -> _insert key s now values c = Ok (c', id) -> statement c c'
| St_update s id values c c' : s ∈ schemas -> t_key s ∉ map fst values ->
    sql_update key s id values c = Ok c' -> statement c c'.
Definition catalog_ok (c : Catalog) : Prop := Forall (fun s => rows_ok s key c) schemas.

Lemma ok_rows c s : catalog_ok c -> s ∈ schemas -> rows_ok s key c.
Proof. unfold catalog_ok. rewrite list.Forall_forall. auto. Qed.
Lemma ok_ids c s : catalog_ok c -> s ∈ schemas -> NoDup (map (id_of s) (rows_of (t_name s) c)).
Proof. intros Hok Hs. by apply (ok_rows c s). Qed.
(** Rows are not removed, and keep their id. *)
Definition ids_kept (c c' : Catalog) : Prop :=
  forall s x, s ∈ schemas -> x ∈ rows_of (t_name s) c -> exists x', x' ∈ rows_of (t_name s) c' /\ get x' (t_key s) = get x (t_key s).

Lemma same_schema s s' : s ∈ schemas -> s' ∈ schemas -> t_name s = t_name s' -> s = s'.
Proof using names_differ. intros. by apply (NoDup_map_inj t_name schemas). Qed.
Lemma key_stated s : s ∈ schemas -> key (t_name s) = t_key s.
Proof using keys_stated. intros Hs. rewrite list.Forall_forall in keys_stated. auto. Qed.

Lemma parent_stays c c' r p : parent_there c key r p = true ->
  (forall x, x ∈ rows_of (p_table p) c -> exists x', x' ∈ rows_of (p_table p) c' /\ get x' (key (p_table p)) = get x (key (p_table p))) ->
  parent_there c' key r p = true.
Proof.
  unfold parent_there. intros [->|(x & Hx & Heq)%existsb_exists]%orb_true_iff Hk; [done|].
  destruct (Hk x) as (x' & Hx' & Hg); [by apply list_elem_of_In|]. apply orb_true_iff. right.
  apply existsb_exists. exists x'. split; [by apply list_elem_of_In|]. by rewrite Hg.
Qed.

Lemma new_row_id s now id values : id_of s (new_row s now id values) = id.
Proof. unfold id_of, get, new_row. cbn. by rewrite String.eqb_refl. Qed.
Lemma insert_inv s now values c c' id : _insert key s now values c = Ok (c', id) ->
  let r := new_row s now id values in
  id = next (table (t_name s) c)
  /\ c' = assoc_set (t_name s) (mkTable (rows_of (t_name s) c ++ [r]) (id + 1)) c
  /\ row_holds s r = true /\ indexes_hold s (rows_of (t_name s) c ++ [r]) = true
  /\ Forall (fun p => parent_there c' key r p = true) (t_parents s).
Proof.
  unfold _insert. intros (? & Hb & [= <- <-])%result_bind_ok. cbn.
  apply broken_by_ok in Hb as (? & ? & ?). by repeat split.
Qed.
Lemma update_inv s id values c c' old : find_row s id c = Some old -> sql_update key s id values c = Ok c' ->
  let new := assign values old in
  let l := map (fun r => if is_row s id r then new else r) (rows_of (t_name s) c) in
  c' = assoc_set (t_name s) (mkTable l (next (table (t_name s) c))) c
  /\ row_holds s new = true /\ indexes_hold s l = true
  /\ Forall (fun p => parent_there c' key new p = true) (t_parents s)
  /\ Forall (fun col => changed old new col = false) (t_first s).
Proof.
  unfold sql_update. intros -> ([] & Ht & (? & Hb & [= <-])%result_bind_ok)%result_bind_ok. cbn zeta.
  apply broken_by_ok in Hb as (? & ? & ?). repeat split; try done.
  apply foldM_checks in Ht. eapply list.Forall_impl; [exact Ht|]. intros col. cbn. by destruct (changed _ _ _).
Qed.
Lemma sql_update_cases s id values c c' : sql_update key s id values c = Ok c' ->
  c' = c \/ exists old, find_row s id c = Some old.
Proof. unfold sql_update. destruct (find_row s id c) as [old|]; [by eauto|]. intros [= <-]. by left. Qed.

Lemma statement_ids c c' : catalog_ok c -> statement c c' -> ids_kept c c'.
Proof using names_differ.
  intros Hok Hst s' x Hs' Hx. inversion Hst as [s now values c0 c0' id Hs Hi|s id values c0 c0' Hs Hk Hu]; subst.
  - apply insert_inv in Hi as (_ & -> & _). exists x. split; [|done].
    destruct (decide (t_name s = t_name s')) as [Heq|Hne]; [|by rewrite rows_set_ne].
    rewrite <-Heq in Hx |- *. rewrite rows_set_eq. apply elem_of_app. by left.
  - destruct (sql_update_cases _ _ _ _ _ Hu) as [->|(old & Ho)]; [by exists x|].
    pose proof (update_inv _ _ _ _ _ _ Ho Hu) as (-> & _).
    destruct (decide (t_name s = t_name s')) as [Heq|Hne]; [|exists x; split; [by rewrite rows_set_ne|done]].
    pose proof (same_schema _ _ Hs Hs' Heq) as <-. rewrite rows_set_eq.
    exists (if is_row s id x then assign values old else x). split; [apply list_elem_of_fmap; by exists x|].
    destruct (is_row s id x) eqn:Hr; [|done]. apply is_row_iff in Hr. apply find_row_some in Ho as [Hin Ho].
    assert (x = old) as -> by (apply (NoDup_map_inj (id_of s) (rows_of (t_name s) c)); [by apply ok_ids|done|done|congruence]).
    by rewrite assign_other.
Qed.

Lemma parents_stay c c' s r : ids_kept c c' -> s ∈ schemas ->
  Forall (fun p => parent_there c key r p = true) (t_parents s) ->
  Forall (fun p => parent_there c' key r p = true) (t_parents s).
Proof using keys_stated parents_stated.
  intros Hids Hs. rewrite !list.Forall_forall. intros Hp p Hin. eapply parent_stays; [by apply Hp|]. intros x Hx.
  rewrite list.Forall_forall in parents_stated. specialize (parents_stated s Hs).
  rewrite list.Forall_forall in parents_stated. specialize (parents_stated p Hin).
  apply list_elem_of_fmap in parents_stated as (s' & Heq & Hs'). rewrite Heq in Hx |- *. rewrite key_stated by done.
  by apply Hids.
Qed.
Lemma ids_replaced s id new l : (forall r, r ∈ l -> id_of s r = id -> id_of s new = id) ->
  map (id_of s) (map (fun r => if is_row s id r then new else r) l) = map (id_of s) l.
Proof.
  intros Hn. rewrite map_map. apply map_ext_in. intros r Hr%list_elem_of_In. destruct (is_row s id r) eqn:E; [|done].
  apply is_row_iff in E. rewrite (Hn r Hr E). done.
Qed.

(** Every constraint of every table holds after a statement that held before it. *)
Lemma statement_ok c c' : catalog_ok c -> statement c c' -> catalog_ok c'.
Proof using names_differ keys_stated parents_stated.
  intros Hok Hst. pose proof (statement_ids c c' Hok Hst) as Hids.
  apply list.Forall_forall. intros s' Hs'. pose proof (ok_rows _ _ Hok Hs') as (Hnd & Hall & Hix & Hpos).
  assert (Hold : forall n, next (table (t_name s') c) <= n -> Forall (fun r => 0 < id_of s' r < n /\ row_holds s' r = true
            /\ Forall (fun p => parent_there c' key r p = true) (t_parents s')) (rows (table (t_name s') c))).
  { intros n Hn. eapply list.Forall_impl; [exact Hall|]. cbn. intros r (Hid & Hh & Hp). split; [lia|]. split; [done|].
    by apply (parents_stay c). }
  inversion Hst as [s now values c0 c0' id Hs Hi|s id values c0 c0' Hs Hk Hu]; subst.
  - apply insert_inv in Hi as (Hid & -> & Hh & Hi & Hp). set (r := new_row s now id values) in *.
    destruct (decide (t_name s = t_name s')) as [Heq|Hne].
    + pose proof (same_schema _ _ Hs Hs' Heq) as <-. unfold rows_ok. rewrite table_set_eq. cbn [rows next].
      assert (Hr : id_of s r = id) by apply new_row_id. rewrite <-Hid in *.
      repeat split; [|apply Forall_app; split|done|lia].
      * rewrite map_app. apply list.NoDup_app. split; [done|]. split; [|apply NoDup_singleton].
        intros i (x & -> & Hx)%list_elem_of_fmap. cbn. rewrite Hr, list_elem_of_singleton.
        rewrite list.Forall_forall in Hall. destruct (Hall x Hx) as (? & _). lia.
      * apply Hold. lia.
      * constructor; [|constructor]. rewrite Hr. repeat split; [lia|lia|done|done].
    + unfold rows_ok. rewrite table_set_ne by done. repeat split; [done| |done|done]. by apply Hold.
  - destruct (sql_update_cases _ _ _ _ _ Hu) as [->|(old & Ho)]; [by apply ok_rows|].
    pose proof (update_inv _ _ _ _ _ _ Ho Hu) as (Hc & Hh & Hi & Hp & _). apply find_row_some in Ho as [Hin Hid].
    destruct (decide (t_name s = t_name s')) as [Heq|Hne].
    + pose proof (same_schema _ _ Hs Hs' Heq) as <-. unfold rows_ok. rewrite Hc, table_set_eq. cbn [rows next].
      pose proof (assign_id s values old Hk) as Hnew.
      repeat split; [| |done|done].
      * rewrite ids_replaced; [done|]. intros. congruence.
      * rewrite <-Hc. apply list.Forall_forall. intros x (y & -> & Hy)%list_elem_of_fmap.
        pose proof (Hold _ (Z.le_refl _)) as Hf. rewrite list.Forall_forall in Hf.
        destruct (is_row s id y); [|by apply Hf].
        destruct (Hf old Hin) as (Hb & _). rewrite Hnew. split; [exact Hb|]. by split.
    + unfold rows_ok. rewrite Hc, table_set_ne by done. rewrite <-Hc. repeat split; [done| |done|done]. by apply Hold.
Qed.

(** A row a statement leaves is found by its id, with every value its trigger keeps. *)
Lemma statement_keeps c c' s id r : catalog_ok c -> statement c c' -> s ∈ schemas -> find_row s id c = Some r ->
  exists r', find_row s id c' = Some r' /\ forall col, col ∈ t_first s -> is_null r col = false -> get r' col = get r col.
Proof using names_differ keys_stated parents_stated.
  intros Hok Hst Hs Hr. pose proof (statement_ok c c' Hok Hst) as Hok'.
  inversion Hst as [s' now values c0 c0' id' Hs' Hi|s' id' values c0 c0' Hs' Hk Hu]; subst.
  - apply insert_inv in Hi as (_ & -> & _). exists r. split; [|done]. unfold find_row.
    destruct (decide (t_name s' = t_name s)) as [Heq|Hne]; [|by rewrite rows_set_ne].
    rewrite Heq, rows_set_eq. by apply find_app_some.
  - destruct (sql_update_cases _ _ _ _ _ Hu) as [->|(old & Ho)]; [by exists r|].
    pose proof (update_inv _ _ _ _ _ _ Ho Hu) as (Hc & _ & _ & _ & Hf).
    destruct (decide (t_name s' = t_name s)) as [Heq|Hne].
    + pose proof (same_schema _ _ Hs' Hs Heq) as ->.
      apply find_row_some in Hr as [Hin <-]. apply find_row_some in Ho as [Hino Hid].
      exists (if is_row s id' r then assign values old else r). split.
      * assert (Hid' : id_of s (if is_row s id' r then assign values old else r) = id_of s r).
        { destruct (is_row s id' r) eqn:E; [|done]. apply is_row_iff in E. rewrite assign_id by done. congruence. }
        rewrite <-Hid'. apply find_row_id; [by apply ok_ids|]. rewrite Hc, rows_set_eq. apply list_elem_of_fmap. by exists r.
      * intros col Hcol Hnn. destruct (is_row s id' r) eqn:E; [|done]. apply is_row_iff in E.
        assert (r = old) as -> by (apply (NoDup_map_inj (id_of s) (rows_of (t_name s) c)); [by apply ok_ids|done|done|congruence]).
        rewrite list.Forall_forall in Hf. specialize (Hf col Hcol). unfold changed in Hf. rewrite Hnn in Hf.
        apply negb_false_iff, same_cell_eq in Hf. done.
    + exists r. split; [|done]. rewrite Hc. unfold find_row. by rewrite rows_set_ne.
Qed.

Lemma statements_ok c c' : rtc statement c c' -> catalog_ok c -> catalog_ok c'.
Proof using names_differ keys_stated parents_stated. induction 1; [done|]. eauto using statement_ok. Qed.
Lemma statements_keep c c' s id r : rtc statement c c' -> catalog_ok c -> s ∈ schemas -> find_row s id c = Some r ->
  exists r', find_row s id c' = Some r' /\ forall col, col ∈ t_first s -> is_null r col = false -> get r' col = get r col.
Proof using names_differ keys_stated parents_stated.
  intros H. revert r. induction H as [c|c c1 c' H1 _ IH]; intros r Hok Hs Hr; [by exists r|].
  destruct (statement_keeps _ _ _ _ _ Hok H1 Hs Hr) as (r1 & Hr1 & Hk1).
  destruct (IH r1 (statement_ok _ _ Hok H1) Hs Hr1) as (r' & Hr' & Hk'). exists r'. split; [done|].
  intros col Hcol Hnn. rewrite Hk'; [by apply Hk1|done|]. unfold is_null. by rewrite Hk1.
Qed.
End catalogs.
