(* ===== verification/BackupCatalog.v ===== *)
(** * The backup catalog ([db/backup_catalog.py], the words of [lib/integrity.py]).

    Six tables: the runs of backups, the files they wrote, the later checks of those files, the
    runs of restores and copies, their files, and each attempt of a copy.  A method that writes is
    one transaction: a function of the catalog that gives its new state, or the error after which
    nothing changed.  The clock is an argument, as a text; [sha256] is what [hashlib] answers. *)

From S2P Require Import Prelude Py Integrity SqlTable.

(** ** Words *)
Definition ENGINES : list string := ["sqlserver"; "postgresql"; "oracle"; "mysql"].
Definition BACKUP_LEVELS : list string := ["full"; "diff"; "log"].
Definition FILE_TYPES : list string :=
  ["FULL"; "DIFF"; "LOG"; "FULL_BASE"; "INCR_BASE"; "MANIFEST"; "WAL"; "RMAN_L0"; "RMAN_L1"; "ARCHIVELOG";
   "CONTROLFILE"; "SPFILE"; "CERT"].
Definition BACKUP_RUN_STATUSES : list string := ["RUNNING"; "DONE"; "ERROR"].
Definition ENGINE_VERIFY_RESULTS : list string := ["passed"; "failed"; "not_run"].
Definition BACKUP_FILE_VERDICTS : list string := ["ok"; "verify_failed"; "hash_failed"; "size_failed"].
Definition BACKUP_FILE_STATES : list string := ["present"; "pruned"; "missing"; "mismatch"].
Definition BASELINES : list string := ["backup"; "backfill"].
Definition CHECK_RESULTS : list string := ["match"; "mismatch"; "missing"].
Definition CHECKED_BY : list string := ["scrub"; "restore"; "copy_only"; "vault"; "av_scan"; "backfill"; "offload"].
Definition CHECK_LOCATIONS : list string := ["source"; "vault"; "repository"].
Definition ACTION_OFFLOAD : string := "offload".
Definition RUN_ACTIONS : list string := RESTORE_ACTIONS ++ [ACTION_OFFLOAD].
Definition OFFLOAD_STATES : list string := ["pending"; "verified"; "failed"; "quarantined"; "expired"].
Definition RESTORE_PHASES : list string :=
  ["planning"; "copying"; "verified"; "restoring"; "verifying_db"; "copied"; "done"; "refused"; "error"].
Definition AV_SCAN_STATUSES : list string := ["clean"; "infected"; "error"; "skipped"].
Definition AV_SCAN_COLUMNS : list string :=
  ["av_scan_status"; "av_scanned_at"; "av_scan_tool"; "av_scan_tool_version"; "av_scan_signature_version";
   "av_scan_server_id"; "av_scan_result_text"].
Definition OFFLOAD_COLUMNS : list string :=
  ["offload_state"; "offload_server_id"; "offload_path"; "offload_run_id"; "offload_attempted_at";
   "offload_verified_at"; "offload_error"; "source_deleted_at"; "offload_expired_at"].
Definition full_types : list string :=
  map fst (List.filter (fun p => String.eqb p.2 "full") LEVEL_OF_FILE_TYPE).
Definition directories : list string := map fst HASHED_MEMBER.

(** ** Schemas *)
Definition fk (s column parent : string) : Parent := mkParent s column parent.
Definition _checksum (column : string) : string * (pydict -> bool) := (column, has_length column 64).
Definition listed (column : string) (allowed : list string) : string * (pydict -> bool) :=
  (column, one_of column allowed).
Definition av_columns : list Column := map nullable AV_SCAN_COLUMNS.
Definition always (r : pydict) : bool := true.

Definition backup_runs : Schema := {|
  t_name := "backup_runs"; t_key := "backup_run_id";
  t_columns := [required "backup_id"; nullable "job_run_id"; required "server_id"; required "engine";
    nullable "level"; with_default "node_host" (PStr ""); with_default "app_version" (PStr ""); required "started_at";
    nullable "ended_at"; with_default "status" (PStr "RUNNING"); with_default "files_count" (PInt 0);
    with_default "bytes_total" (PInt 0); nullable "engine_verify"; with_default "engine_verify_text" (PStr "");
    with_default "error_text" (PStr ""); nullable "retention_json"; nullable "pitr_reach_seconds"; stamped "created_at"];
  t_checks := [listed "engine" ENGINES; listed "level" BACKUP_LEVELS; listed "status" BACKUP_RUN_STATUSES;
    ("files_count", at_least "files_count" 0); ("bytes_total", at_least "bytes_total" 0);
    listed "engine_verify" ENGINE_VERIFY_RESULTS];
  t_unique := [mkUnique "uq_backup_runs" ["backup_id"; "started_at"] always];
  t_parents := []; t_first := [] |}.

(** The repository copy, as the table holds it: what [verified] names, when a source may be gone,
    what an expired copy was. *)
Definition names_its_copy (r : pydict) : bool :=
  forallb (fun c => negb (is_null r c)) ["offload_server_id"; "offload_path"; "offload_run_id"; "offload_verified_at"].
Definition ck_verified (r : pydict) : bool := negb (equals r "offload_state" "verified") || names_its_copy r.
Definition ck_source_deleted (r : pydict) : bool :=
  is_null r "source_deleted_at"
  || ((is_null r "offload_state" || among r "offload_state" ["verified"; "expired"])
      && negb (is_null r "offload_verified_at")).
Definition ck_expired (r : pydict) : bool :=
  negb (equals r "offload_state" "expired")
  || (negb (is_null r "offload_expired_at") && negb (is_null r "offload_verified_at")).
Definition ck_hashed (r : pydict) : bool :=
  negb (is_null r "checksum_after_backup") || equals r "verdict" "hash_failed".
Definition ck_sized (r : pydict) : bool :=
  negb (is_null r "size_bytes") || among r "verdict" ["hash_failed"; "size_failed"].
Definition not_pruned (r : pydict) : bool := negb (equals r "state" "pruned").

Definition backup_files : Schema := {|
  t_name := "backup_files"; t_key := "file_id";
  t_columns := [nullable "backup_run_id"; with_default "backup_id" (PStr ""); nullable "job_run_id"; required "server_id";
    with_default "database_name" (PStr ""); required "engine"; required "file_name"; required "file_type";
    required "file_path"; with_default "file_folder" (PStr ""); with_default "host_path" (PStr "");
    with_default "container_name" (PStr ""); nullable "backup_started_at"; nullable "backup_ended_at";
    nullable "size_bytes"; nullable "mtime_utc"; with_default "checksum_algo" (PStr SHA256);
    nullable "checksum_after_backup"; nullable "engine_verify"; with_default "engine_verify_text" (PStr "");
    nullable "chain_parent_file_id"; nullable "chain_position"; with_default "engine_meta_json" (PStr "{}");
    nullable "encrypted"; with_default "cert_thumbprint" (PStr ""); required "verdict"; with_default "state" (PStr "present");
    nullable "on_disk"; nullable "checksum_matches"; nullable "checksum_last_check"; nullable "last_checked_at";
    nullable "last_check_result"; with_default "baseline" (PStr "backup")] ++ av_columns ++
   [nullable "last_restore_run_id"; nullable "row_hash"; nullable "pruned_by"; nullable "last_restore_at";
    nullable "last_restore_action"; nullable "last_restore_target_server_id"; nullable "last_restore_result";
    nullable "last_restore_verdict"; nullable "offload_state"; nullable "offload_server_id"; nullable "offload_path";
    nullable "offload_run_id"; nullable "offload_attempted_at"; nullable "offload_verified_at";
    with_default "offload_error" (PStr ""); nullable "source_deleted_at"; nullable "offload_expired_at";
    stamped "created_at"; stamped "updated_at"];
  t_checks := [listed "engine" ENGINES; listed "file_type" FILE_TYPES; ("size_bytes", at_least "size_bytes" 0);
    listed "checksum_algo" ALGORITHMS; _checksum "checksum_after_backup"; listed "engine_verify" ENGINE_VERIFY_RESULTS;
    ("chain_position", at_least "chain_position" 1); ("encrypted", is_flag "encrypted");
    listed "verdict" BACKUP_FILE_VERDICTS; listed "state" BACKUP_FILE_STATES; ("on_disk", is_flag "on_disk");
    ("checksum_matches", is_flag "checksum_matches"); _checksum "checksum_last_check";
    listed "last_check_result" CHECK_RESULTS; listed "baseline" BASELINES; listed "av_scan_status" AV_SCAN_STATUSES;
    listed "last_restore_action" RESTORE_ACTIONS; listed "last_restore_result" RESTORE_PHASES;
    listed "last_restore_verdict" RUN_FILE_VERDICTS;
    ("ck_backup_files_hashed", ck_hashed); ("ck_backup_files_sized", ck_sized);
    ("ck_backup_files_offload_state", one_of "offload_state" OFFLOAD_STATES);
    ("ck_backup_files_offload_verified", ck_verified);
    ("ck_backup_files_source_deleted_after_copy", ck_source_deleted);
    ("ck_backup_files_offload_expired", ck_expired)];
  t_unique := [mkUnique "ux_backup_files_path" ["server_id"; "file_path"] not_pruned];
  t_parents := [fk "fk_backup_files_run" "backup_run_id" "backup_runs";
                fk "fk_backup_files_chain_parent" "chain_parent_file_id" "backup_files"];
  t_first := ["checksum_after_backup"; "size_bytes"] |}.

Definition backup_file_checks : Schema := {|
  t_name := "backup_file_checks"; t_key := "check_id";
  t_columns := [required "file_id"; required "server_id"; with_default "database_name" (PStr ""); required "file_name";
    required "file_type"; required "file_path"; required "checked_at"; required "checked_by";
    with_default "by_run_id" (PStr ""); with_default "location" (PStr "source"); with_default "checksum_algo" (PStr SHA256);
    nullable "checksum_after_backup"; nullable "checksum_now"; nullable "size_now"; nullable "result"] ++ av_columns ++
   [stamped "created_at"];
  t_checks := [listed "file_type" FILE_TYPES; listed "checksum_algo" ALGORITHMS; _checksum "checksum_after_backup";
    _checksum "checksum_now"; ("size_now", at_least "size_now" 0); listed "result" CHECK_RESULTS;
    listed "av_scan_status" AV_SCAN_STATUSES;
    ("ck_backup_file_checks_result", fun r => negb (is_null r "result") || equals r "checked_by" "av_scan");
    ("ck_backup_file_checks_checked_by", one_of "checked_by" CHECKED_BY);
    ("ck_backup_file_checks_location", one_of "location" CHECK_LOCATIONS)];
  t_unique := [mkUnique "uq_backup_file_checks" ["file_id"; "checked_at"; "location"; "checked_by"] always];
  t_parents := [fk "fk_backup_file_checks_file" "file_id" "backup_files"]; t_first := [] |}.

Definition restore_runs : Schema := {|
  t_name := "restore_runs"; t_key := "restore_run_id";
  t_columns := [required "action"; with_default "restore_id" (PStr ""); nullable "job_run_id"; required "source_server_id";
    required "target_server_id"; with_default "target_folder" (PStr ""); with_default "point_in_time" (PStr "LATEST");
    nullable "tier"; with_default "node_host" (PStr ""); with_default "app_version" (PStr ""); required "started_at";
    nullable "ended_at"; with_default "phase" (PStr "planning"); with_default "chain_files" (PInt 0);
    with_default "files_matched" (PInt 0); with_default "files_recopied" (PInt 0); required "copy_max_retry";
    with_default "refused_reason" (PStr ""); nullable "databases_ok"; nullable "databases_failed";
    with_default "error_text" (PStr ""); stamped "created_at"];
  t_checks := [listed "phase" RESTORE_PHASES; ("chain_files", at_least "chain_files" 0);
    ("files_matched", at_least "files_matched" 0); ("files_recopied", at_least "files_recopied" 0);
    ("copy_max_retry", fun r => at_least "copy_max_retry" 0 r && at_most "copy_max_retry" MAX_COPY_MAX_RETRY r);
    ("ck_restore_runs_action", one_of "action" RUN_ACTIONS)];
  t_unique := [mkUnique "uq_restore_runs" ["restore_id"; "source_server_id"; "target_server_id"; "started_at"] always];
  t_parents := []; t_first := [] |}.

Definition ck_source (r : pydict) : bool :=
  negb (is_null r "checksum_source_before_copy") || equals r "verdict" "source_missing"
  || (equals r "verdict" "match" && negb (is_null r "checksum_after_backup")).
Definition held_to (r : pydict) : pyval :=
  coalesce [get r "checksum_source_before_copy"; get r "checksum_after_backup"].
Definition ck_proven (r : pydict) : bool :=
  negb (among r "verdict" PROVEN_VERDICTS)
  || (negb (is_null r "checksum_target_after_copy")
      && (is_none (held_to r) || same_cell (get r "checksum_target_after_copy") (held_to r))).
Definition ck_size (r : pydict) : bool :=
  negb (among r "verdict" PROVEN_VERDICTS) || is_null r "size_target_bytes" || is_null r "size_source_bytes"
  || same_cell (get r "size_target_bytes") (get r "size_source_bytes").
Definition ck_attempts (r : pydict) : bool :=
  match get r "copy_attempts", get r "copy_max_retry" with PInt a, PInt m => a <=? m + 1 | _, _ => true end.

Definition restore_run_files : Schema := {|
  t_name := "restore_run_files"; t_key := "run_file_id";
  t_columns := [required "restore_run_id"; nullable "file_id"; required "source_server_id"; required "target_server_id";
    with_default "database_name" (PStr ""); with_default "engine" (PStr ""); required "file_name"; required "file_type";
    required "source_path"; required "target_path"; with_default "source_host_path" (PStr "");
    with_default "target_host_path" (PStr ""); nullable "backup_taken_at"; nullable "chain_position";
    nullable "source_on_disk"; nullable "source_checksum_matches"; nullable "source_checked_at";
    nullable "target_on_disk"; nullable "target_checksum_matches"; nullable "target_checked_at";
    nullable "size_source_bytes"; nullable "size_target_bytes"; with_default "checksum_algo" (PStr SHA256);
    nullable "checksum_after_backup"; nullable "checksum_source_before_copy"; nullable "checksum_target_before_copy";
    nullable "checksum_target_after_copy"; with_default "copy_attempts" (PInt 0); required "copy_max_retry";
    nullable "copy_started_at"; nullable "copy_ended_at"; with_default "verdict" (PStr "copying")] ++ av_columns ++
   [stamped "created_at"; stamped "updated_at"];
  t_checks := [("engine", fun r => equals r "engine" "" || one_of "engine" ENGINES r); listed "file_type" FILE_TYPES;
    ("chain_position", at_least "chain_position" 1); ("source_on_disk", is_flag "source_on_disk");
    ("source_checksum_matches", is_flag "source_checksum_matches"); ("target_on_disk", is_flag "target_on_disk");
    ("target_checksum_matches", is_flag "target_checksum_matches"); ("size_source_bytes", at_least "size_source_bytes" 0);
    ("size_target_bytes", at_least "size_target_bytes" 0); listed "checksum_algo" ALGORITHMS;
    _checksum "checksum_after_backup"; _checksum "checksum_source_before_copy";
    _checksum "checksum_target_before_copy"; _checksum "checksum_target_after_copy";
    ("copy_attempts", at_least "copy_attempts" 0);
    ("copy_max_retry", fun r => at_least "copy_max_retry" 0 r && at_most "copy_max_retry" MAX_COPY_MAX_RETRY r);
    listed "verdict" RUN_FILE_VERDICTS; listed "av_scan_status" AV_SCAN_STATUSES;
    ("ck_restore_run_files_source", ck_source); ("ck_restore_run_files_proven", ck_proven);
    ("ck_restore_run_files_attempts", ck_attempts); ("ck_restore_run_files_size", ck_size)];
  t_unique := [mkUnique "uq_restore_run_files" ["restore_run_id"; "source_path"] always];
  t_parents := [fk "fk_restore_run_files_run" "restore_run_id" "restore_runs";
                fk "fk_restore_run_files_file" "file_id" "backup_files"];
  t_first := ["checksum_after_backup"; "checksum_source_before_copy"; "checksum_target_before_copy";
              "checksum_target_after_copy"; "size_source_bytes"] |}.

Definition ck_match (r : pydict) : bool :=
  negb (equals r "result" "match") || is_null r "checksum_target_after_copy"
  || is_null r "checksum_source_before_copy"
  || same_cell (get r "checksum_target_after_copy") (get r "checksum_source_before_copy").
Definition copy_attempts : Schema := {|
  t_name := "copy_attempts"; t_key := "attempt_id";
  t_columns := [required "run_file_id"; required "attempt_no"; required "source_server_id"; required "target_server_id";
    required "file_name"; required "file_type"; required "source_path"; required "target_path";
    with_default "source_host_path" (PStr ""); with_default "target_host_path" (PStr ""); required "started_at";
    nullable "ended_at"; nullable "bytes_copied"; with_default "copy_engine" (PStr "");
    required "checksum_source_before_copy"; nullable "checksum_target_after_copy"; nullable "size_target_after_copy";
    required "result"; with_default "error_text" (PStr ""); stamped "created_at"];
  t_checks := [("attempt_no", fun r => at_least "attempt_no" 1 r && at_most "attempt_no" (MAX_COPY_MAX_RETRY + 1) r);
    listed "file_type" FILE_TYPES; ("bytes_copied", at_least "bytes_copied" 0);
    _checksum "checksum_source_before_copy"; _checksum "checksum_target_after_copy";
    ("size_target_after_copy", at_least "size_target_after_copy" 0); listed "result" ATTEMPT_RESULTS;
    ("ck_copy_attempts_match", ck_match)];
  t_unique := [mkUnique "uq_copy_attempts" ["run_file_id"; "attempt_no"] always];
  t_parents := [fk "fk_copy_attempts_run_file" "run_file_id" "restore_run_files"]; t_first := [] |}.

Definition TABLES : list Schema :=
  [backup_runs; backup_files; backup_file_checks; restore_runs; restore_run_files; copy_attempts].
Definition key (name : string) : string :=
  match List.find (fun s => String.eqb (t_name s) name) TABLES with Some s => t_key s | None => "" end.
Definition insert : Schema -> string -> pydict -> Catalog -> result catalog_error (Catalog * Z) := _insert key.
Definition update : Schema -> Z -> pydict -> Catalog -> result catalog_error Catalog := _update key.

(** ** What a writer may say *)
Definition _COLUMNS (s : Schema) : list string :=
  let n := t_name s in
  if String.eqb n "backup_runs" then
    ["backup_id"; "job_run_id"; "server_id"; "engine"; "level"; "node_host"; "app_version"; "started_at"; "ended_at";
     "status"; "files_count"; "bytes_total"; "engine_verify"; "engine_verify_text"; "error_text"; "retention_json";
     "pitr_reach_seconds"]
  else if String.eqb n "backup_files" then
    ["backup_run_id"; "backup_id"; "job_run_id"; "server_id"; "database_name"; "engine"; "file_name"; "file_type";
     "file_path"; "file_folder"; "host_path"; "container_name"; "backup_started_at"; "backup_ended_at"; "size_bytes";
     "mtime_utc"; "checksum_algo"; "checksum_after_backup"; "engine_verify"; "engine_verify_text";
     "chain_parent_file_id"; "chain_position"; "engine_meta_json"; "encrypted"; "cert_thumbprint"; "verdict"; "state";
     "on_disk"; "checksum_matches"; "checksum_last_check"; "last_checked_at"; "last_check_result"; "baseline";
     "pruned_by"] ++ AV_SCAN_COLUMNS ++ OFFLOAD_COLUMNS
  else if String.eqb n "backup_file_checks" then
    ["file_id"; "server_id"; "database_name"; "file_name"; "file_type"; "file_path"; "checked_at"; "checked_by";
     "by_run_id"; "location"; "checksum_algo"; "checksum_after_backup"; "checksum_now"; "size_now"; "result"]
    ++ AV_SCAN_COLUMNS
  else if String.eqb n "restore_runs" then
    ["action"; "restore_id"; "job_run_id"; "source_server_id"; "target_server_id"; "target_folder"; "point_in_time";
     "tier"; "node_host"; "app_version"; "started_at"; "ended_at"; "phase"; "chain_files"; "files_matched";
     "files_recopied"; "copy_max_retry"; "refused_reason"; "databases_ok"; "databases_failed"; "error_text"]
  else if String.eqb n "restore_run_files" then
    ["restore_run_id"; "file_id"; "source_server_id"; "target_server_id"; "database_name"; "engine"; "file_name";
     "file_type"; "source_path"; "target_path"; "source_host_path"; "target_host_path"; "backup_taken_at";
     "chain_position"; "source_on_disk"; "source_checksum_matches"; "source_checked_at"; "target_on_disk";
     "target_checksum_matches"; "target_checked_at"; "size_source_bytes"; "size_target_bytes"; "checksum_algo";
     "checksum_after_backup"; "checksum_source_before_copy"; "checksum_target_before_copy";
     "checksum_target_after_copy"; "copy_attempts"; "copy_max_retry"; "copy_started_at"; "copy_ended_at"; "verdict"]
    ++ AV_SCAN_COLUMNS
  else
    ["run_file_id"; "attempt_no"; "source_server_id"; "target_server_id"; "file_name"; "file_type"; "source_path";
     "target_path"; "source_host_path"; "target_host_path"; "started_at"; "ended_at"; "bytes_copied"; "copy_engine";
     "checksum_source_before_copy"; "checksum_target_after_copy"; "size_target_after_copy"; "result"; "error_text"].
Definition _known (s : Schema) (values : pydict) : result catalog_error pydict :=
  match sort_by String.leb (List.filter (fun n => negb (bool_decide (n ∈ _COLUMNS s))) (map fst values)) with
  | [] => Ok values
  | unknown => Err (NoSuchColumns unknown)
  end.
Definition _require (values : pydict) (names : list string) : result catalog_error unit :=
  match List.filter (fun n => blank (get values n)) names with
  | [] => Ok tt
  | missing => Err (MissingFields missing)
  end.
Definition _one_of (values : pydict) (name : string) (allowed : list string) : result catalog_error unit :=
  raise_when (negb (one_of name allowed values)) (NotOneOf name).
(** [{**defaults, **values}]. *)
Definition over (defaults values : pydict) : pydict := fold_left (fun d p => assoc_set p.1 p.2 d) values defaults.
Definition column (r : pydict) (c : string) : pyval := get r c.
Definition text_in (r : pydict) (c : string) : string := str (py_or (get r c) (PStr "")).
Definition null_or {A} (f : A -> pyval) (o : option A) : pyval := match o with Some a => f a | None => PNone end.

(** ** The chain of rows *)
Definition CHAIN_FIELDS : list string :=
  ["backup_id"; "server_id"; "database_name"; "engine"; "file_name"; "file_type"; "file_path"; "size_bytes";
   "checksum_after_backup"; "backup_started_at"; "backup_ended_at"; "baseline"].
(** [json.dumps] of a text: printable ASCII but the quote and the backslash is itself. *)
Definition json_char (a : ascii) : list ascii :=
  if bool_decide (a = chr 34) then [chr 92; chr 34]
  else if bool_decide (a = chr 92) then [chr 92; chr 92]
  else if bool_decide (a = chr 10) then chars "\n"
  else if bool_decide (a = chr 13) then chars "\r"
  else if bool_decide (a = chr 9) then chars "\t"
  else if bool_decide (a = chr 8) then chars "\b"
  else if bool_decide (a = chr 12) then chars "\f"
  else if between 32 (code a) 126 then [a]
  else chars "\u00" ++ [hex_digit (code a / 16); hex_digit (code a mod 16)].
Definition json_text (s : string) : list ascii := chr 34 :: mjoin (map json_char (chars s)) ++ [chr 34].
Definition json_value (v : option string) : list ascii :=
  match v with Some s => json_text s | None => chars "null" end.
Definition json_members (l : list (string * option string)) : list (list ascii) :=
  map (fun p => json_text p.1 ++ chars ": " ++ json_value p.2) l.
Fixpoint json_join (l : list (list ascii)) : list ascii :=
  match l with [] => [] | [x] => x | x :: l => x ++ chars ", " ++ json_join l end.
Definition as_text (v : pyval) : option string := if is_none v then None else Some (str v).
Definition chain_record (values : pydict) : list (string * option string) :=
  map (fun n => (n, as_text (get values n))) CHAIN_FIELDS.
(** What is hashed: the previous hash and the fields, the keys in order. *)
Definition chain_text (values : pydict) (previous : option string) : string :=
  let fields := sort_by (fun a b => String.leb a.1 b.1) (chain_record values) in
  text (chars "[" ++ json_text (default "" previous) ++ chars ", {" ++ json_join (json_members fields) ++ chars "}]").

Section catalog.
Variable sha256 : string -> string.   (* [hashlib.sha256(...).hexdigest()] of an ASCII text *)

Definition row_hash (values : pydict) (previous : option string) : string := sha256 (chain_text values previous).
Definition hash_text (r : pydict) : option string :=
  match get r "row_hash" with PStr s => Some s | _ => None end.
Definition file_id (r : pydict) : Z := id_of backup_files r.
Definition entry_is (backup_id : string) (r : pydict) : bool := String.eqb (text_in r "backup_id") backup_id.
(** The newest hashed row of the entry before [id]. *)
Definition previous_hash (backup_id : string) (id : Z) (c : Catalog) : option string :=
  match sort_by (id_geb backup_files) (List.filter (fun r =>
          entry_is backup_id r && negb (is_null r "row_hash") && (file_id r <? id)) (rows_of "backup_files" c)) with
  | r :: _ => hash_text r
  | [] => None
  end.
Definition _insert_chained (now : string) (values : pydict) (c : Catalog) : result catalog_error (Catalog * Z) :=
  '(c, id) ← insert backup_files now values c;
  match find_row backup_files id c with
  | None => Err (NoFile id)
  | Some stored =>
      let h := row_hash stored (previous_hash (text_in stored "backup_id") id c) in
      c ← sql_update key backup_files id [("row_hash", PStr h)] c;
      Ok (c, id)
  end.

(** ** The rules of the repository copy *)
Definition _hold_offload (id : Z) (values : pydict) (c : Catalog) : result catalog_error unit :=
  match find_row backup_files id c with
  | None => Err (NoFile id)
  | Some r =>
      let merged := over r values in
      let missing := List.filter (fun n => blank (get merged n))
        ["offload_server_id"; "offload_path"; "offload_run_id"; "offload_verified_at"] in
      _ ← raise_when (equals merged "offload_state" "verified" && negb (bool_decide (missing = []))) (NotNamed missing);
      _ ← raise_when (equals merged "offload_state" "expired"
            && negb (truthy (get merged "offload_expired_at") && truthy (get merged "offload_verified_at"))) NeverVerified;
      raise_when (truthy (get merged "source_deleted_at")
            && negb (among merged "offload_state" ["verified"; "expired"] && truthy (get merged "offload_verified_at")))
        NotYetVerified
  end.

(** ** Marks of use *)
Definition mark_of (run file : pydict) (now : string) : pydict :=
  [("last_restore_run_id", get run "restore_run_id"); ("last_restore_at", get run "started_at");
   ("last_restore_action", get run "action"); ("last_restore_target_server_id", get run "target_server_id");
   ("last_restore_result", get run "phase"); ("last_restore_verdict", get file "verdict"); ("updated_at", PStr now)].
Definition moves_forward (run_id : Z) (r : pydict) : bool :=
  match get r "last_restore_run_id" with PNone => true | PInt n => n <=? run_id | _ => false end.
Definition mark_one (now : string) (c : Catalog) (rf : pydict) : result catalog_error Catalog :=
  match get rf "file_id", get rf "restore_run_id" with
  | PInt file, PInt run_id =>
      match find_row restore_runs run_id c, find_row backup_files file c with
      | Some run, Some r =>
          if negb (equals run "action" ACTION_OFFLOAD) && moves_forward run_id r
          then sql_update key backup_files file (mark_of run rf now) c else Ok c
      | _, _ => Ok c
      end
  | _, _ => Ok c
  end.
Definition _mark_used (now : string) (which : pydict -> bool) (c : Catalog) : result catalog_error Catalog :=
  foldM (mark_one now) c (List.filter which (rows_of "restore_run_files" c)).

(** ** The backup side *)
Definition start_backup_run (now : string) (values : pydict) (c : Catalog) : result catalog_error (Catalog * Z) :=
  values ← _known backup_runs (over [("started_at", PStr now)] values);
  _ ← _require values ["backup_id"; "server_id"; "engine"];
  _ ← _one_of values "engine" ENGINES;
  _ ← _one_of values "level" BACKUP_LEVELS;
  insert backup_runs now values c.
Definition finish_backup_run (now : string) (id : Z) (status : string) (values : pydict) (c : Catalog)
    : result catalog_error Catalog :=
  _ ← _one_of [("status", PStr status)] "status" BACKUP_RUN_STATUSES;
  values ← _known backup_runs (over [("ended_at", PStr now); ("status", PStr status)] values);
  _ ← _one_of values "engine_verify" ENGINE_VERIFY_RESULTS;
  update backup_runs id values c.

Definition check_file (values : pydict) : result catalog_error unit :=
  _ ← _require values ["server_id"; "engine"; "file_name"; "file_type"; "file_path"; "verdict"];
  _ ← _one_of values "file_type" FILE_TYPES;
  _one_of values "verdict" BACKUP_FILE_VERDICTS.
Definition depends (values : pydict) : bool :=
  match get values "file_type" with
  | PStr t => bool_decide (assoc t LEVEL_OF_FILE_TYPE ∈ [Some "diff"; Some "log"])
  | _ => false
  end.
(** The newest full of the database that is there. *)
Definition parent_of (values : pydict) (c : Catalog) : option Z :=
  match sort_by (id_geb backup_files) (List.filter (fun r =>
          same_cell (get values "server_id") (get r "server_id")
          && equals r "database_name" (text_in values "database_name")
          && among r "file_type" full_types && equals r "state" "present") (rows_of "backup_files" c)) with
  | r :: _ => Some (file_id r)
  | [] => None
  end.
Definition linked (run_id : Z) (values : pydict) (c : Catalog) : pydict :=
  let values := assoc_set "backup_run_id" (PInt run_id) values in
  if depends values && is_none (get values "chain_parent_file_id")
  then match parent_of values c with
       | Some p => assoc_set "chain_parent_file_id" (PInt p) values
       | None => values
       end
  else values.
Definition record_backup (now : string) (run : pydict) (files : list pydict) (c : Catalog)
    : result catalog_error (Catalog * Z) :=
  run ← _known backup_runs run;
  _ ← _require run ["backup_id"; "server_id"; "engine"; "started_at"; "status"];
  _ ← _one_of run "engine" ENGINES;
  _ ← _one_of run "level" BACKUP_LEVELS;
  _ ← _one_of run "status" BACKUP_RUN_STATUSES;
  _ ← foldM (fun _ f => _ ← _known backup_files f; Ok tt) tt files;
  _ ← foldM (fun _ f => check_file f) tt files;
  '(c, id) ← insert backup_runs now run c;
  c ← foldM (fun c f => '(c, _) ← _insert_chained now (linked id f c) c; Ok c) c files;
  Ok (c, id).
Definition record_backup_file (now : string) (values : pydict) (c : Catalog) : result catalog_error (Catalog * Z) :=
  values ← _known backup_files values;
  _ ← check_file values;
  _ ← _one_of values "av_scan_status" AV_SCAN_STATUSES;
  _insert_chained now values c.

Definition set_backup_file (now : string) (id : Z) (values : pydict) (c : Catalog) : result catalog_error Catalog :=
  values ← _known backup_files values;
  _ ← raise_when (has_key values "checksum_after_backup") SetByTheBackup;
  _ ← _one_of values "state" BACKUP_FILE_STATES;
  _ ← _one_of values "av_scan_status" AV_SCAN_STATUSES;
  _ ← _one_of values "offload_state" OFFLOAD_STATES;
  _ ← (if has_key values "source_deleted_at" || has_key values "offload_state"
       then _hold_offload id values c else Ok tt);
  update backup_files id (over values [("updated_at", PStr now)]) c.

(** The latest-check columns a check of the file on its server sets. *)
Definition latest_of (values : pydict) (stored : option pydict) : pydict :=
  match get values "result" with
  | PStr result =>
      if negb (String.eqb result "") && equals (over [("location", PStr "source")] values) "location" "source" then
        [("checksum_last_check", get values "checksum_now"); ("last_checked_at", get values "checked_at");
         ("last_check_result", PStr result); ("on_disk", PInt (if String.eqb result "missing" then 0 else 1));
         ("checksum_matches", if String.eqb result "match" then PInt 1
                              else if String.eqb result "mismatch" then PInt 0 else PNone)]
        ++ (if match stored with Some r => equals r "state" "pruned" | None => false end then []
            else [("state", PStr (if String.eqb result "match" then "present" else result))])
      else []
  | _ => []
  end.
Definition scan_of (values : pydict) : pydict :=
  if equals values "checked_by" "av_scan" then map (fun n => (n, get values n)) AV_SCAN_COLUMNS else [].
(** [moment] is the time of the check to the microsecond. *)
Definition record_file_check (now moment : string) (values : pydict) (c : Catalog)
    : result catalog_error (Catalog * Z) :=
  values ← _known backup_file_checks (over [("checked_at", PStr moment)] values);
  _ ← _require values ["file_id"; "server_id"; "file_name"; "file_type"; "file_path"; "checked_by"];
  _ ← _one_of values "checked_by" CHECKED_BY;
  _ ← _one_of values "result" CHECK_RESULTS;
  '(c, check_id) ← insert backup_file_checks now values c;
  let id := match get values "file_id" with PInt n => n | _ => 0 end in
  let latest := latest_of values (find_row backup_files id c) ++ scan_of values in
  c ← match latest with
      | [] => Ok c
      | _ => update backup_files id (over latest [("updated_at", PStr now)]) c
      end;
  Ok (c, check_id).
(** What a file found now is, held to what the catalog stored. *)
Definition found_now (checksum_now : option string) : option string :=
  match checksum_now with Some s => if String.eqb s "" then None else Some (lower s) | None => None end.
Definition verdict_of (stored : pyval) (now : option string) : string :=
  match now with
  | None => "missing"
  | Some h => if truthy stored && same_cell (PStr h) stored then "match" else "mismatch"
  end.
Definition check_backup_file (now moment : string) (id : Z) (checksum_now : option string) (size_now : option Z)
    (checked_by by_run_id location : string) (c : Catalog) : result catalog_error (Catalog * string) :=
  match find_row backup_files id c with
  | None => Err (NoFile id)
  | Some r =>
      let stored := get r "checksum_after_backup" in
      let found := found_now checksum_now in
      let result := verdict_of stored found in
      '(c, _) ← record_file_check now moment
        [("file_id", PInt id); ("server_id", get r "server_id"); ("database_name", get r "database_name");
         ("file_name", get r "file_name"); ("file_type", get r "file_type"); ("file_path", get r "file_path");
         ("checked_at", PStr moment); ("checked_by", PStr checked_by); ("by_run_id", PStr by_run_id);
         ("location", PStr location); ("checksum_after_backup", stored); ("checksum_now", null_or PStr found);
         ("size_now", null_or PInt size_now); ("result", PStr result)] c;
      Ok (c, result)
  end.

(** ** The restore side *)
Definition start_restore_run (now : string) (values : pydict) (c : Catalog) : result catalog_error (Catalog * Z) :=
  values ← _known restore_runs (over [("started_at", PStr now)] values);
  _ ← _require values ["action"; "source_server_id"; "target_server_id"];
  _ ← raise_when (is_none (get values "copy_max_retry")) NoRetryStated;
  _ ← _one_of values "action" RUN_ACTIONS;
  _ ← _one_of values "phase" RESTORE_PHASES;
  insert restore_runs now values c.
Definition run_of (id : Z) (rf : pydict) : bool := same_cell (PInt id) (get rf "restore_run_id").
Definition set_restore_run (now : string) (id : Z) (values : pydict) (c : Catalog) : result catalog_error Catalog :=
  values ← _known restore_runs values;
  _ ← _one_of values "phase" RESTORE_PHASES;
  c ← update restore_runs id values c;
  _mark_used now (run_of id) c.
Definition add_run_file (now : string) (values : pydict) (c : Catalog) : result catalog_error (Catalog * Z) :=
  values ← _known restore_run_files values;
  _ ← _require values ["restore_run_id"; "source_server_id"; "target_server_id"; "file_name"; "file_type";
                       "source_path"; "target_path"];
  _ ← raise_when (is_none (get values "copy_max_retry")) NoRetryStated;
  _ ← _one_of values "file_type" FILE_TYPES;
  _ ← _one_of values "verdict" RUN_FILE_VERDICTS;
  '(c, id) ← insert restore_run_files now values c;
  c ← _mark_used now (is_row restore_run_files id) c;
  Ok (c, id).
Definition set_run_file (now : string) (id : Z) (values : pydict) (c : Catalog) : result catalog_error Catalog :=
  values ← _known restore_run_files values;
  _ ← _one_of values "verdict" RUN_FILE_VERDICTS;
  _ ← _one_of values "av_scan_status" AV_SCAN_STATUSES;
  c ← update restore_run_files id (over values [("updated_at", PStr now)]) c;
  _mark_used now (is_row restore_run_files id) c.
Definition check_run_file (now : string) (id : Z) (side : string) (checksum_now : option string) (c : Catalog)
    : result catalog_error (Catalog * string) :=
  _ ← raise_when (negb (bool_decide (side ∈ ["source"; "target"]))) NoSuchSide;
  match find_row restore_run_files id c with
  | None => Err (NoFile id)
  | Some r =>
      let stored := py_or (get r "checksum_after_backup") (get r "checksum_source_before_copy") in
      let result := verdict_of stored (found_now checksum_now) in
      c ← set_run_file now id
        [(side +:+ "_on_disk", PInt (if String.eqb result "missing" then 0 else 1));
         (side +:+ "_checksum_matches", if String.eqb result "match" then PInt 1
                                        else if String.eqb result "mismatch" then PInt 0 else PNone);
         (side +:+ "_checked_at", PStr now)] c;
      Ok (c, result)
  end.
Definition record_copy_attempt (now : string) (values : pydict) (c : Catalog) : result catalog_error (Catalog * Z) :=
  values ← _known copy_attempts (over [("started_at", PStr now)] values);
  _ ← _require values ["run_file_id"; "attempt_no"; "source_server_id"; "target_server_id"; "file_name"; "file_type";
                       "source_path"; "target_path"; "checksum_source_before_copy"; "result"];
  _ ← _one_of values "file_type" FILE_TYPES;
  _ ← _one_of values "result" ATTEMPT_RESULTS;
  insert copy_attempts now values c.

(** ** What is read *)
Definition files_in (c : Catalog) : list pydict := rows_of "backup_files" c.
(** [COALESCE(backup_ended_at, created_at)]. *)
Definition ended (r : pydict) : pyval := coalesce [get r "backup_ended_at"; get r "created_at"].
Definition of_entry (backup_id : string) (r : pydict) : bool := equals r "backup_id" backup_id.
(** Rows by a text, then by id. *)
Definition by_text (f : pydict -> pyval) (rank : pydict -> Z) (a b : pydict) : bool :=
  let x := text_of_cell (f a) in let y := text_of_cell (f b) in
  if str_lt x y then true else if str_lt y x then false
  else if rank a <? rank b then true else if rank b <? rank a then false
  else id_leb backup_files a b.
Definition no_rank (r : pydict) : Z := 0.
Definition full_first (r : pydict) : Z := if among r "file_type" full_types then 0 else 1.

Definition to_offload (backup_id retry_before : string) (r : pydict) : bool :=
  of_entry backup_id r && equals r "state" "present" && equals r "verdict" "ok"
  && (is_null r "offload_state" || equals r "offload_state" "pending"
      || (equals r "offload_state" "failed"
          && (String.eqb retry_before ""
              || str_lt (text_of_cell (coalesce [get r "offload_attempted_at"; PStr ""])) retry_before))).
Definition files_to_offload (backup_id : string) (limit : Z) (retry_before : string) (c : Catalog) : list pydict :=
  limited limit (sort_by (by_text ended full_first) (List.filter (to_offload backup_id retry_before) (files_in c))).

(** The start of the run that wrote a file, or what the file says of itself. *)
Definition chain_start (c : Catalog) (r : pydict) : pyval :=
  let run := match get r "backup_run_id" with PInt n => find_row backup_runs n c | _ => None end in
  coalesce [match run with Some x => get x "started_at" | None => PNone end;
            get r "backup_started_at"; get r "backup_ended_at"; get r "created_at"].
Definition full_of (r f : pydict) : bool :=
  same_cell (get f "backup_id") (get r "backup_id") && same_cell (get f "database_name") (get r "database_name")
  && equals f "state" "present" && equals f "verdict" "ok" && among f "file_type" full_types.
Definition chain_floor (c : Catalog) (r : pydict) : pyval :=
  max_of (map (chain_start c) (List.filter (full_of r) (files_in c))).
Definition databases_of (backup_id : string) (c : Catalog) : list string :=
  remove_dups (map (fun r => text_in r "database_name") (List.filter (of_entry backup_id) (files_in c))).
Definition newest_full_per_database (backup_id : string) (c : Catalog) : list (string * pyval) :=
  map (fun d => (d, chain_floor c [("backup_id", PStr backup_id); ("database_name", PStr d)])) (databases_of backup_id c).
Definition repository_copies (backup_id : string) (c : Catalog) : list pydict :=
  map (fun r => r ++ [("chain_start", chain_start c r)])
    (sort_by (by_text ended no_rank) (List.filter (fun r =>
       of_entry backup_id r && equals r "offload_state" "verified") (files_in c))).
Definition has_repository_copy_before (backup_id moment : string) (c : Catalog) : bool :=
  existsb (fun r => of_entry backup_id r && equals r "offload_state" "verified" && before (ended r) (PStr moment)) (files_in c).
Definition releasable (backup_id : string) (c : Catalog) (r : pydict) : bool :=
  of_entry backup_id r && equals r "state" "present" && equals r "offload_state" "verified"
  && is_null r "source_deleted_at" && negb (among r "file_type" directories) && before (ended r) (chain_floor c r).
Definition files_to_release (backup_id : string) (limit : Z) (c : Catalog) : list pydict :=
  limited limit (sort_by (by_text ended no_rank) (List.filter (releasable backup_id c) (files_in c))).
Definition checked_longest_ago (a b : pydict) : bool :=
  let rank r := if is_null r "last_checked_at" then 0 else 1 in
  if rank a <? rank b then true else if rank b <? rank a then false
  else by_text (fun r => get r "last_checked_at") no_rank a b.
Definition files_to_check (server_id backup_id : string) (limit : Z) (c : Catalog) : list pydict :=
  limited limit (sort_by checked_longest_ago (List.filter (fun r =>
    not_pruned r && (String.eqb server_id "" || equals r "server_id" server_id)
    && (String.eqb backup_id "" || equals r "backup_id" backup_id)) (files_in c))).
Definition oldest_kept_base (server_id : string) (c : Catalog) : option string :=
  match min_of (map (fun r => coalesce [get r "backup_started_at"; get r "backup_ended_at"; get r "created_at"])
           (List.filter (fun r => equals r "server_id" server_id && equals r "file_type" "FULL_BASE"
                                  && equals r "state" "present") (files_in c))) with
  | PStr s => if String.eqb s "" then None else Some s
  | _ => None
  end.
Definition first_signal (backup_id : string) (c : Catalog) : option string :=
  match min_of (map (fun x => get x "checked_at") (List.filter (fun x =>
           among x "result" ["mismatch"; "missing"]
           && existsb (fun r => of_entry backup_id r && same_cell (get r "file_id") (get x "file_id")) (files_in c))
           (rows_of "backup_file_checks" c))) with
  | PStr s => if String.eqb s "" then None else Some s
  | _ => None
  end.
Definition earlier_sizes (backup_id database_name file_type : string) (before_run : option Z) (limit : Z) (c : Catalog)
    : list Z :=
  omap (fun r => match get r "size_bytes" with PInt n => Some n | _ => None end)
    (limited limit (sort_by (id_geb backup_files) (List.filter (fun r =>
      of_entry backup_id r && equals r "database_name" database_name && equals r "file_type" file_type
      && negb (is_null r "size_bytes")
      && match before_run, get r "backup_run_id" with
         | None, _ | _, PNone => true | Some n, PInt m => m <? n | _, _ => false end) (files_in c)))).
(** The newest row of each name; chunks of four hundred names give the same rows. *)
Definition stored_files (server_id : string) (file_names : list string) (c : Catalog) : list (string * pydict) :=
  fold_left (fun found r =>
      let name := text_in r "file_name" in
      match assoc name found with Some _ => found | None => found ++ [(name, r)] end)
    (sort_by (id_geb backup_files) (List.filter (fun r =>
       equals r "server_id" server_id && among r "file_name" file_names && not_pruned r
       && negb (is_null r "checksum_after_backup")) (files_in c))) [].
Definition last_file_name (backup_id file_type : string) (c : Catalog) : string :=
  text_of_cell (max_of (map (fun r => get r "file_name") (List.filter (fun r =>
    of_entry backup_id r && equals r "file_type" file_type) (files_in c)))).

(** ** Verifying the chain of rows *)
Inductive break := NoHash (file_id : Z) | NotWritten (file_id : Z).
Record entry_state := mkState { n_rows : nat; chained : nat; before_chain : nat; broken_at : option break;
                                previous : option string }.
Definition fresh : entry_state := mkState 0 0 0 None None.
(** [previous.get(entry)]: no hash yet, or the last one that held. *)
Definition walk_row (s : entry_state) (r : pydict) : entry_state :=
  let n := S (n_rows s) in
  match broken_at s with
  | Some b => mkState n (chained s) (before_chain s) (Some b) (previous s)
  | None =>
      match get r "row_hash" with
      | PStr h =>
          if String.eqb h "" then
            match previous s with
            | Some _ => mkState n (chained s) (before_chain s) (Some (NoHash (file_id r))) (previous s)
            | None => mkState n (chained s) (S (before_chain s)) None None
            end
          else if String.eqb (row_hash r (previous s)) h then mkState n (S (chained s)) (before_chain s) None (Some h)
          else mkState n (chained s) (before_chain s) (Some (NotWritten (file_id r))) (previous s)
      | _ =>
          match previous s with
          | Some _ => mkState n (chained s) (before_chain s) (Some (NoHash (file_id r))) (previous s)
          | None => mkState n (chained s) (S (before_chain s)) None None
          end
      end
  end.
Definition walk (states : list (string * entry_state)) (r : pydict) : list (string * entry_state) :=
  let entry := text_in r "backup_id" in
  assoc_set entry (walk_row (default fresh (assoc entry states)) r) states.
Definition by_entry (a b : pydict) : bool :=
  let x := text_in a "backup_id" in let y := text_in b "backup_id" in
  if str_lt x y then true else if str_lt y x then false else id_leb backup_files a b.
Definition verify_row_chain (backup_id : string) (c : Catalog) : list (string * entry_state) * nat :=
  let rows := sort_by by_entry (List.filter (fun r =>
    String.eqb backup_id "" || equals r "backup_id" backup_id) (files_in c)) in
  let states := fold_left walk rows [] in
  (sort_by (fun a b => String.leb a.1 b.1) states,
   length (List.filter (fun p => match broken_at p.2 with Some _ => true | None => false end) states)).
End catalog.
