(* ===== verification/BackupCatalogProofs.v ===== *)
(** * What the backup catalog keeps ([BackupCatalog]).

    Each method of the store is a sequence of statements ([step_statements]), and each method but
    a rewriting [set_backup_file] leaves what is hashed alone ([safe_step_writes]).  So the
    constraints of the tables hold after any methods, a first checksum stays, and the chain of
    rows an entry wrote verifies; and the newest hash of a chain binds every row of it. *)

From S2P Require Import Prelude Py Integrity SqlTable SqlTableProofs BackupCatalog.

(** ** The schemas *)
Ltac in_tables := apply list_elem_of_In; unfold TABLES; repeat (first [left; reflexivity | right]).
Ltac other_table := let H := fresh in intros H; apply (f_equal t_name) in H; discriminate H.
Lemma names_differ : NoDup (map t_name TABLES).
Proof. apply (bool_decide_unpack _). by vm_compute. Qed.
Lemma keys_stated : Forall (fun s => key (t_name s) = t_key s) TABLES.
Proof. by repeat constructor. Qed.
Lemma parents_stated : Forall (fun s => Forall (fun p => p_table p ∈ map t_name TABLES) (t_parents s)) TABLES.
Proof.
  assert (H : (forallb (fun s => (forallb (fun p => bool_decide (p_table p ∈ map t_name TABLES)) (t_parents s))) TABLES) = true)
    by by vm_compute.
  apply forallb_Forall in H. eapply list.Forall_impl; [exact H|]. cbn beta. intros s Hs%forallb_Forall.
  eapply list.Forall_impl; [exact Hs|]. cbn beta. by intros p Hp%bool_decide_eq_true.
Qed.
Lemma keys_not_written : Forall (fun s => (t_key s ∉ _COLUMNS s) /\ "updated_at" <> t_key s) TABLES.
Proof.
  assert (H : forallb (fun s => bool_decide (t_key s ∉ _COLUMNS s) && bool_decide ("updated_at" <> t_key s)) TABLES = true)
    by by vm_compute.
  apply forallb_Forall in H. eapply list.Forall_impl; [exact H|]. cbn beta.
  intros s [?%bool_decide_eq_true ?%bool_decide_eq_true]%andb_true_iff. done.
Qed.
Abbreviation statement := (statement TABLES key).
Abbreviation catalog_ok := (catalog_ok TABLES key).

Lemma known_ok s values out : _known s values = Ok out -> out = values /\ Forall (fun p => p.1 ∈ _COLUMNS s) values.
Proof.
  unfold _known. destruct (sort_by _ _) as [|n l] eqn:Hs; [|done]. intros [= <-]. split; [done|].
  apply list.Forall_forall. intros p Hp. destruct (decide (p.1 ∈ _COLUMNS s)) as [|Hn]; [done|].
  assert (p.1 ∈ sort_by String.leb (List.filter (fun n => negb (bool_decide (n ∈ _COLUMNS s))) (map fst values))) as Hin.
  { apply elem_of_sort_by, elem_of_filter_bool. split; [apply list_elem_of_fmap; by exists p|].
    by apply negb_true_iff, bool_decide_eq_false. }
  rewrite Hs in Hin. by apply not_elem_of_nil in Hin.
Qed.
Lemma over_keys k d values : k ∈ map fst (over d values) -> k ∈ map fst d \/ k ∈ map fst values.
Proof.
  revert d. induction values as [|[k' v] values IH]; intros d; [by left|].
  intros [[->|H]%elem_assoc_set_keys|H]%(IH (assoc_set k' v d)); [right; by left|by left|right; by right].
Qed.
Definition fits (s : Schema) (values : pydict) : Prop := Forall (fun k => k ∈ "updated_at" :: _COLUMNS s) (map fst values).
Lemma known_fits s values out : _known s values = Ok out -> out = values /\ fits s values.
Proof.
  intros [-> H]%known_ok. split; [done|]. apply list.Forall_forall. intros k (p & -> & Hp)%list_elem_of_fmap.
  rewrite list.Forall_forall in H. right. by apply H.
Qed.
Lemma fits_key s values : s ∈ TABLES -> fits s values -> t_key s ∉ map fst values.
Proof.
  intros Hs Hf Hk. pose proof keys_not_written as H. rewrite list.Forall_forall in H. destruct (H s Hs) as [Hn Hu].
  unfold fits in Hf. rewrite list.Forall_forall in Hf. apply Hf in Hk as [?|?]%list.elem_of_cons; congruence.
Qed.
Lemma fits_over s d values : fits s d -> fits s values -> fits s (over d values).
Proof.
  unfold fits. rewrite !list.Forall_forall. intros Hd Hv k [?|?]%over_keys; auto.
Qed.
Lemma fits_stamp s now : fits s [("updated_at", PStr now)].
Proof. repeat constructor. Qed.

(** ** What the methods send *)
(** The fields a row's hash covers, and the hash. *)
Definition RECORD : list string := "row_hash" :: CHAIN_FIELDS.
Definition apart (values : pydict) : Prop := Forall (fun k => k ∉ RECORD) (map fst values).
(** A statement that leaves what is hashed alone. *)
Inductive quiet : Catalog -> Catalog -> Prop :=
| Quiet_insert s now values c c' id : s ∈ TABLES -> s <> backup_files -> insert s now values c = Ok (c', id) -> quiet c c'
| Quiet_update s id values c c' : s ∈ TABLES -> t_key s ∉ map fst values -> (s = backup_files -> apart values) ->
    sql_update key s id values c = Ok c' -> quiet c c'.
Lemma quiet_statement c c' : quiet c c' -> statement c c'.
Proof. intros [s now values ? ? id Hs _ Hi|s id values ? ? Hs Hk _ Hu]; [by eapply St_insert|by eapply St_update]. Qed.

Lemma update_sql s id values c c' : update s id values c = Ok c' -> c' = c \/ sql_update key s id values c = Ok c'.
Proof.
  unfold update, _update. destruct values; [intros [= <-]; by left|]. intros [_ H]%result_seq_ok. by right.
Qed.
Lemma update_quiet s id values c c' : s ∈ TABLES -> fits s values -> (s = backup_files -> apart values) ->
  update s id values c = Ok c' -> rtc quiet c c'.
Proof.
  intros Hs Hf Ha [->|Hu]%update_sql; [done|]. apply rtc_once. eapply Quiet_update; [done|by apply fits_key|done|done].
Qed.
Lemma insert_quiet s now values c c' id : s ∈ TABLES -> s <> backup_files -> insert s now values c = Ok (c', id) ->
  rtc quiet c c'.
Proof. intros. apply rtc_once. by eapply Quiet_insert. Qed.
Lemma apart_dec values : bool_decide (Forall (fun k => k ∉ RECORD) (map fst values)) = true -> apart values.
Proof. by intros H%bool_decide_eq_true. Qed.
Lemma mark_quiet now c rf c' : mark_one now c rf = Ok c' -> rtc quiet c c'.
Proof.
  unfold mark_one. repeat (case_match; try (intros [= <-]; done)). intros Hu. apply rtc_once.
  eapply (Quiet_update backup_files); [in_tables| | |exact Hu].
  - cbn. by apply (bool_decide_unpack _); vm_compute.
  - intros _. apply apart_dec. by vm_compute.
Qed.
Lemma marks_quiet now which c c' : _mark_used now which c = Ok c' -> rtc quiet c c'.
Proof.
  unfold _mark_used. generalize (List.filter which (rows_of "restore_run_files" c)). intros l. revert c.
  induction l as [|rf l IH]; intros c; cbn; [by intros [= <-]|].
  destruct (mark_one now c rf) as [c1|e] eqn:Hm; [|done]. intros H. etransitivity; [by eapply mark_quiet|by apply IH].
Qed.

(** A method is a sequence of quiet statements and of rows written with their hash. *)
Section methods.
Variable sha256 : string -> string.
Inductive write (c c' : Catalog) : Prop :=
| Write_quiet : quiet c c' -> write c c'
| Write_row now values id : _insert_chained sha256 now values c = Ok (c', id) -> write c c'.
Lemma quiet_writes c c' : rtc quiet c c' -> rtc write c c'.
Proof. apply rtc_subrel. intros ? ?. apply Write_quiet. Qed.
Lemma write_row now values c c' id : _insert_chained sha256 now values c = Ok (c', id) -> rtc write c c'.
Proof. intros. apply rtc_once. by eapply Write_row. Qed.
Lemma write_statements c c' : write c c' -> rtc statement c c'.
Proof.
  intros [H|now values id H]; [by apply rtc_once, quiet_statement|].
  unfold _insert_chained in H. apply result_bind_ok in H as ([c1 i] & Hi & H).
  assert (Hs : backup_files ∈ TABLES) by in_tables.
  eapply rtc_l; [by eapply (St_insert _ _ backup_files)|].
  destruct (find_row backup_files i c1) as [r|]; [|done]. apply result_bind_ok in H as (c2 & Hu & [= -> _]).
  eapply rtc_once, (St_update _ _ backup_files); [done| |exact Hu].
  by apply not_elem_of_cons; split; [|apply not_elem_of_nil].
Qed.

(** The methods of the store.  [allowed] limits what [set_backup_file] is given. *)
Inductive catalog_step (allowed : pydict -> Prop) : Catalog -> Catalog -> Prop :=
| Step_start_backup now values c c' id : start_backup_run now values c = Ok (c', id) -> catalog_step allowed c c'
| Step_finish_backup now id status values c c' : finish_backup_run now id status values c = Ok c' -> catalog_step allowed c c'
| Step_record now run files c c' id : record_backup sha256 now run files c = Ok (c', id) -> catalog_step allowed c c'
| Step_record_file now values c c' id : record_backup_file sha256 now values c = Ok (c', id) -> catalog_step allowed c c'
| Step_set_file now id values c c' : allowed values -> set_backup_file now id values c = Ok c' -> catalog_step allowed c c'
| Step_record_check now moment values c c' id : record_file_check now moment values c = Ok (c', id) -> catalog_step allowed c c'
| Step_check_file now moment id sum size who by_run where_ c c' answer :
    check_backup_file now moment id sum size who by_run where_ c = Ok (c', answer) -> catalog_step allowed c c'
| Step_start_restore now values c c' id : start_restore_run now values c = Ok (c', id) -> catalog_step allowed c c'
| Step_set_restore now id values c c' : set_restore_run now id values c = Ok c' -> catalog_step allowed c c'
| Step_add_run_file now values c c' id : add_run_file now values c = Ok (c', id) -> catalog_step allowed c c'
| Step_set_run_file now id values c c' : set_run_file now id values c = Ok c' -> catalog_step allowed c c'
| Step_check_run_file now id side sum c c' answer :
    check_run_file now id side sum c = Ok (c', answer) -> catalog_step allowed c c'
| Step_attempt now values c c' id : record_copy_attempt now values c = Ok (c', id) -> catalog_step allowed c c'.

Ltac steps := repeat match goal with
  | H : (_ ≫= _) = Ok _ |- _ => apply result_bind_ok in H as (? & ? & H)
  | H : _known _ _ = Ok _ |- _ => apply known_fits in H as [-> ?]
  | x : (Catalog * _)%type |- _ => destruct x
  | H : Ok _ = Ok _ |- _ => injection H; clear H; intros; subst
  end.
Lemma insert_chained_writes now values c c' id : _insert_chained sha256 now values c = Ok (c', id) -> rtc write c c'.
Proof. apply write_row. Qed.
Lemma set_run_file_quiet now id values c c' : set_run_file now id values c = Ok c' -> rtc quiet c c'.
Proof.
  unfold set_run_file. intros H. steps. etransitivity; [|by eapply marks_quiet].
  eapply (update_quiet restore_run_files); [in_tables| |other_table|eassumption]. apply fits_over; [done|apply fits_stamp].
Qed.
Lemma latest_keys values stored : Forall (fun k => k ∈ ["checksum_last_check"; "last_checked_at"; "last_check_result";
    "on_disk"; "checksum_matches"; "state"]) (map fst (latest_of values stored)).
Proof.
  unfold latest_of. repeat case_match; cbn [map fst app]; repeat constructor;
    (apply (bool_decide_unpack _); by vm_compute).
Qed.
Lemma scan_keys values : Forall (fun k => k ∈ AV_SCAN_COLUMNS) (map fst (scan_of values)).
Proof.
  unfold scan_of. case_match; [|constructor]. rewrite map_map. apply list.Forall_forall.
  intros k (n & -> & Hn)%list_elem_of_fmap. exact Hn.
Qed.
Lemma check_values_keys values stored :
  Forall (fun k => k ∈ ["checksum_last_check"; "last_checked_at"; "last_check_result"; "on_disk"; "checksum_matches"; "state"]
                         ++ AV_SCAN_COLUMNS) (map fst (latest_of values stored ++ scan_of values)).
Proof.
  rewrite map_app. apply Forall_app. split; eapply list.Forall_impl; [apply latest_keys| |apply scan_keys|];
    cbn beta; intros k Hk; apply elem_of_app; tauto.
Qed.
Lemma check_columns : Forall (fun k => (k ∈ _COLUMNS backup_files) /\ (k ∉ RECORD))
  (["checksum_last_check"; "last_checked_at"; "last_check_result"; "on_disk"; "checksum_matches"; "state"] ++ AV_SCAN_COLUMNS).
Proof. apply (bool_decide_unpack _). by vm_compute. Qed.
Lemma check_values_fit values stored :
  fits backup_files (latest_of values stored ++ scan_of values) /\ apart (latest_of values stored ++ scan_of values).
Proof.
  pose proof (check_values_keys values stored) as H. pose proof check_columns as Hc. rewrite list.Forall_forall in Hc.
  split; (eapply list.Forall_impl; [exact H|]); cbn beta; intros k Hk; destruct (Hc k Hk); [by right|done].
Qed.
Lemma apart_over d values : apart d -> apart values -> apart (over d values).
Proof. unfold apart. rewrite !list.Forall_forall. intros Hd Hv k [?|?]%over_keys; auto. Qed.
Lemma apart_stamp now : apart [("updated_at", PStr now)].
Proof. apply apart_dec. by vm_compute. Qed.
Lemma latest_update_quiet latest now id c c' : fits backup_files latest -> apart latest ->
  match latest with [] => Ok c | _ => update backup_files id (over latest [("updated_at", PStr now)]) c end = Ok c' ->
  rtc quiet c c'.
Proof.
  intros Hf Ha. destruct latest as [|p latest]; [by intros [= <-]|]. intros Hu.
  eapply (update_quiet backup_files); [in_tables| | |exact Hu].
  - apply fits_over; [done|apply fits_stamp].
  - intros _. apply apart_over; [done|apply apart_stamp].
Qed.
Lemma record_check_quiet now moment values c c' id : record_file_check now moment values c = Ok (c', id) -> rtc quiet c c'.
Proof.
  unfold record_file_check. intros H. steps.
  etransitivity; [eapply (insert_quiet backup_file_checks); [in_tables|other_table|eassumption]|].
  eapply latest_update_quiet; [| |eassumption]; apply check_values_fit.
Qed.
Lemma add_run_file_quiet now values c c' id : add_run_file now values c = Ok (c', id) -> rtc quiet c c'.
Proof.
  unfold add_run_file. intros H. steps.
  etransitivity; [eapply (insert_quiet restore_run_files); [in_tables|other_table|eassumption]|by eapply marks_quiet].
Qed.
Lemma record_files_write now run_id files c c' :
  foldM (fun c f => '(c, _) ← _insert_chained sha256 now (linked run_id f c) c; Ok c) c files = Ok c' -> rtc write c c'.
Proof.
  revert c. induction files as [|f files IH]; intros c; cbn [foldM]; [by intros [= <-]|].
  destruct (_ ≫= _) as [c1|e] eqn:Hf; [|done]. intros H. steps. etransitivity; [by eapply write_row|by apply IH].
Qed.
Lemma set_file_quiet now id values c c' : apart values -> set_backup_file now id values c = Ok c' -> rtc quiet c c'.
Proof.
  unfold set_backup_file. intros Ha H. steps.
  eapply (update_quiet backup_files); [in_tables| | |exact H].
  - apply fits_over; [done|apply fits_stamp].
  - intros _. apply apart_over; [done|apply apart_stamp].
Qed.
Lemma set_file_statements now id values c c' : set_backup_file now id values c = Ok c' -> rtc statement c c'.
Proof.
  unfold set_backup_file. intros H. steps. apply update_sql in H as [->|H]; [done|].
  apply rtc_once. eapply (St_update _ _ backup_files); [in_tables| |exact H].
  apply fits_key; [in_tables|]. apply fits_over; [done|apply fits_stamp].
Qed.
Lemma other_steps_write P c c' : catalog_step P c c' -> rtc write c c' \/
  exists now id values, P values /\ set_backup_file now id values c = Ok c'.
Proof.
  intros [now values ? ? id H|now id st values ? ? H|now run files ? ? id H|now values ? ? id H|now id values ? ? HP H
    |now moment values ? ? id H|now moment id sum size who by_run where_ ? ? answer H|now values ? ? id H|now id values ? ? H
    |now values ? ? id H|now id values ? ? H|now id side sum ? ? answer H|now values ? ? id H].
  5: { right. eauto. }
  all: left.
  - unfold start_backup_run in H. steps. apply quiet_writes. by eapply (insert_quiet backup_runs); [in_tables|other_table|].
  - unfold finish_backup_run in H. steps. apply quiet_writes.
    by eapply (update_quiet backup_runs); [in_tables| |other_table|].
  - unfold record_backup in H. steps.
    etransitivity; [apply quiet_writes; eapply (insert_quiet backup_runs); [in_tables|other_table|eassumption]|].
    by eapply record_files_write.
  - unfold record_backup_file in H. steps. by eapply write_row.
  - apply quiet_writes. by eapply record_check_quiet.
  - unfold check_backup_file in H. case_match; [|done]. steps. apply quiet_writes. by eapply record_check_quiet.
  - unfold start_restore_run in H. steps. apply quiet_writes. by eapply (insert_quiet restore_runs); [in_tables|other_table|].
  - unfold set_restore_run in H. steps. apply quiet_writes. etransitivity; [|by eapply marks_quiet].
    by eapply (update_quiet restore_runs); [in_tables| |other_table|].
  - apply quiet_writes. by eapply add_run_file_quiet.
  - apply quiet_writes. by eapply set_run_file_quiet.
  - unfold check_run_file in H. steps. case_match; [|done]. steps. apply quiet_writes. by eapply set_run_file_quiet.
  - unfold record_copy_attempt in H. steps. apply quiet_writes. by eapply (insert_quiet copy_attempts); [in_tables|other_table|].
Qed.
Lemma writes_statements c c' : rtc write c c' -> rtc statement c c'.
Proof. induction 1; [done|]. etransitivity; [by apply write_statements|done]. Qed.
Lemma step_statements P c c' : catalog_step P c c' -> rtc statement c c'.
Proof.
  intros [H|(now & id & values & _ & H)]%other_steps_write; [by apply writes_statements|by eapply set_file_statements].
Qed.
Lemma safe_step_writes c c' : catalog_step apart c c' -> rtc write c c'.
Proof.
  intros [H|(now & id & values & Ha & H)]%other_steps_write; [done|]. apply quiet_writes. by eapply set_file_quiet.
Qed.

(** ** The chain of rows *)
Hypothesis digest_not_empty : forall s, sha256 s <> "".
Definition entry_rows (entry : string) (l : list pydict) : list pydict := List.filter (entry_is entry) l.
(** Each row carries the hash of what it records and of the hash before it. *)
Fixpoint chained_rows (prev : option string) (l : list pydict) : Prop :=
  match l with
  | [] => True
  | r :: l => get r "row_hash" = PStr (row_hash sha256 r prev) /\ chained_rows (Some (row_hash sha256 r prev)) l
  end.
Fixpoint last_hash (prev : option string) (l : list pydict) : option string :=
  match l with [] => prev | r :: l => last_hash (Some (row_hash sha256 r prev)) l end.
Definition same_record (r r' : pydict) : Prop := forall k, k ∈ RECORD -> get r' k = get r k.

Lemma same_record_hash r r' p : same_record r r' -> row_hash sha256 r' p = row_hash sha256 r p.
Proof.
  intros H. unfold row_hash, chain_text. assert (chain_record r' = chain_record r) as ->; [|done].
  apply map_ext_in. intros n Hn%list_elem_of_In. rewrite H; [done|by right].
Qed.
Lemma same_record_entry r r' e : same_record r r' -> entry_is e r' = entry_is e r.
Proof. intros H. unfold entry_is, text_in. rewrite H; [done|]. by apply (bool_decide_unpack _); vm_compute. Qed.
Lemma chained_app p l r : chained_rows p (l ++ [r]) <->
  chained_rows p l /\ get r "row_hash" = PStr (row_hash sha256 r (last_hash p l)).
Proof. revert p. induction l as [|x l IH]; intros p; cbn; [tauto|]. rewrite IH. tauto. Qed.
Lemma filter_map_swap {A} (q : A -> bool) (f : A -> A) l : (forall x, x ∈ l -> q (f x) = q x) ->
  List.filter q (map f l) = map f (List.filter q l).
Proof.
  induction l as [|x l IH]; intros H; cbn; [done|]. rewrite (H x) by left. rewrite IH by (intros; apply H; by right).
  by destruct (q x).
Qed.
Lemma chained_map f p l : (forall r, r ∈ l -> same_record r (f r)) -> chained_rows p l -> chained_rows p (map f l).
Proof.
  revert p. induction l as [|r l IH]; intros p Hf; cbn; [done|]. intros [Hh Hl].
  rewrite (same_record_hash r (f r)) by (apply Hf; left). split; [|apply IH; [|done]; intros; apply Hf; by right].
  rewrite (Hf r) by (try left; done). done.
Qed.
Lemma last_hash_get p l r : chained_rows p (l ++ [r]) -> hash_text r = last_hash p (l ++ [r]).
Proof.
  intros [Hl Hr]%chained_app. unfold hash_text. rewrite Hr. clear Hr Hl. revert p.
  induction l as [|x l IH]; intros p; cbn; [done|]. by rewrite IH.
Qed.

Definition ascending (l : list pydict) : Prop := StronglySorted (fun a b => file_id a < file_id b) l.
Definition chain_ok (c : Catalog) : Prop :=
  ascending (files_in c) /\ forall e, chained_rows None (entry_rows e (files_in c)).

Lemma insert_last x l : Forall (fun y => file_id x < file_id y) l ->
  insert_sorted (id_geb backup_files) x (reverse l) = reverse (x :: l).
Proof.
  intros H. rewrite reverse_cons. apply Forall_reverse in H.
  induction H as [|y m Hy Hm IH]; [done|]. cbn [insert_sorted app].
  assert (id_geb backup_files x y = false) as ->; [|by rewrite IH].
  unfold id_geb. unfold file_id in Hy. lia.
Qed.
Lemma sort_descending l : ascending l -> sort_by (id_geb backup_files) l = reverse l.
Proof.
  induction 1 as [|x l Hl IH Hx]; [done|]. cbn [sort_by foldr]. change (foldr _ [] l) with (sort_by (id_geb backup_files) l).
  rewrite IH. by apply insert_last.
Qed.
Lemma ascending_filter q l : ascending l -> ascending (List.filter q l).
Proof.
  induction 1 as [|x l Hl IH Hx]; [constructor|]. cbn. destruct (q x); [|done]. constructor; [done|].
  rewrite list.Forall_forall in Hx |- *. intros y [? _]%elem_of_filter_bool. by apply Hx.
Qed.
Lemma ascending_map f l : (forall r, r ∈ l -> file_id (f r) = file_id r) -> ascending l -> ascending (map f l).
Proof.
  intros Hf. induction 1 as [|x l Hl IH Hx]; [constructor|]. cbn. constructor; [apply IH; intros; apply Hf; by right|].
  rewrite list.Forall_forall in Hx |- *. intros y (z & -> & Hz)%list_elem_of_fmap.
  rewrite !Hf by (try left; by right). by apply Hx.
Qed.

Lemma files_table : t_name backup_files = "backup_files". Proof. done. Qed.
Lemma table_statement c c' : catalog_ok c -> statement c c' -> catalog_ok c'.
Proof. apply statement_ok; [apply names_differ|apply keys_stated|apply parents_stated]. Qed.
Lemma assign_same_record values r : apart values -> same_record r (assign values r).
Proof.
  intros Ha k Hk. apply assign_other. intros Hin. unfold apart in Ha. rewrite list.Forall_forall in Ha. by apply (Ha k).
Qed.
Lemma ascending_inj l x y : ascending l -> x ∈ l -> y ∈ l -> file_id x = file_id y -> x = y.
Proof.
  intros Ha. apply NoDup_map_inj. induction Ha as [|z l Hl IH Hz]; [constructor|]. cbn. constructor; [|done].
  intros (w & Heq & Hw)%list_elem_of_fmap. rewrite list.Forall_forall in Hz. specialize (Hz w Hw). cbn in Hz. lia.
Qed.
(** An update that replaces one row by one with the same record keeps the chain. *)
Lemma chain_replaced c c' f : files_in c' = map f (files_in c) ->
  (forall r, r ∈ files_in c -> file_id (f r) = file_id r /\ same_record r (f r)) -> chain_ok c -> chain_ok c'.
Proof.
  intros Hc Hf [Hasc Hch]. unfold chain_ok. rewrite Hc. split.
  - apply ascending_map; [|done]. intros r Hr. by apply Hf.
  - intros e. unfold entry_rows. rewrite filter_map_swap.
    + apply chained_map; [|apply Hch]. intros r [Hr _]%elem_of_filter_bool. by apply Hf.
    + intros r Hr. apply same_record_entry. by apply Hf.
Qed.
Lemma quiet_chain c c' : quiet c c' -> chain_ok c -> chain_ok c'.
Proof.
  intros Hq Hok. pose proof Hok as [Hasc _].
  inversion Hq as [s now values c0 c0' id Hs Hne Hi|s id values c0 c0' Hs Hk Ha Hu]; subst.
  - assert (files_in c' = files_in c) as Heq; [|by unfold chain_ok; rewrite Heq].
    pose proof (insert_inv _ _ _ _ _ _ _ Hi) as (_ & -> & _). unfold files_in. apply rows_set_ne.
    intros Hn. apply Hne. apply (same_schema TABLES names_differ); [done|in_tables|done].
  - destruct (sql_update_cases _ _ _ _ _ _ Hu) as [->|(old & Ho)]; [done|].
    pose proof (update_inv _ _ _ _ _ _ _ Ho Hu) as (Hc & _). apply find_row_some in Ho as [Hin Hid].
    destruct (decide (t_name s = "backup_files")) as [Hn|Hn].
    + assert (s = backup_files) as -> by (apply (same_schema TABLES names_differ); [done|in_tables|done]).
      eapply chain_replaced; [unfold files_in; rewrite Hc; apply rows_set_eq| |done].
      intros r Hr. cbn beta. destruct (is_row backup_files id r) eqn:E; [|done]. apply is_row_iff in E.
      assert (r = old) as -> by (apply (ascending_inj (files_in c)); [done|done|done|unfold file_id; congruence]).
      split; [by apply assign_id|]. apply assign_same_record. auto.
    + assert (files_in c' = files_in c) as Heq; [|by unfold chain_ok; rewrite Heq].
      unfold files_in. rewrite Hc. by apply rows_set_ne.
Qed.

Lemma filter_app_bool {A} (q : A -> bool) l l' : List.filter q (l ++ l') = List.filter q l ++ List.filter q l'.
Proof. apply List.filter_app. Qed.
Lemma chained_hashed p l r : chained_rows p l -> r ∈ l -> is_null r "row_hash" = false.
Proof.
  revert p. induction l as [|x l IH]; intros p; cbn; [by intros _ ?%not_elem_of_nil|].
  intros [Hx Hl] [->|Hr]%list.elem_of_cons; [unfold is_null; by rewrite Hx|by eapply IH].
Qed.
(** The previous hash is that of the last row of the entry. *)
Lemma previous_is_last e id c l r0 : files_in c = l ++ [r0] -> file_id r0 = id -> Forall (fun r => file_id r < id) l ->
  ascending l -> chained_rows None (entry_rows e l) -> previous_hash e id c = last_hash None (entry_rows e l).
Proof.
  intros Hc Hid Hlt Hasc Hch. unfold previous_hash. change (rows_of "backup_files" c) with (files_in c). rewrite Hc.
  rewrite filter_app_bool. cbn [List.filter]. rewrite Hid, Z.ltb_irrefl, andb_false_r, app_nil_r.
  assert (List.filter (fun r => entry_is e r && negb (is_null r "row_hash") && (file_id r <? id)) l = entry_rows e l) as ->.
  { apply List.filter_ext_in. intros r Hr%list_elem_of_In. destruct (entry_is e r) eqn:He; [|done]. cbn.
    rewrite (chained_hashed None (entry_rows e l)) by (done || by apply elem_of_filter_bool). cbn.
    rewrite list.Forall_forall in Hlt. apply Z.ltb_lt, Hlt, Hr. }
  rewrite sort_descending by by apply ascending_filter.
  destruct (entry_rows e l) as [|x m _] eqn:Hl using rev_ind; [done|]. rewrite reverse_snoc. eapply last_hash_get. exact Hch.
Qed.
Lemma ascending_snoc l r : ascending l -> Forall (fun x => file_id x < file_id r) l -> ascending (l ++ [r]).
Proof.
  induction 1 as [|x l Hl IH Hx]; cbn; [by repeat constructor|]. intros [Hr Hlr]%list.Forall_cons. constructor; [by apply IH|].
  apply Forall_app. split; [done|]. by repeat constructor.
Qed.
Lemma row_chain now values c c' id : catalog_ok c -> _insert_chained sha256 now values c = Ok (c', id) ->
  chain_ok c -> chain_ok c'.
Proof.
  intros Hok H [Hasc Hch]. unfold _insert_chained in H. apply result_bind_ok in H as ([c1 i] & Hi & H).
  assert (Hb : backup_files ∈ TABLES) by in_tables.
  pose proof (table_statement c c1 Hok (St_insert _ _ _ _ _ _ _ _ Hb Hi)) as Hok1.
  pose proof (insert_inv _ _ _ _ _ _ _ Hi) as (Hid & Hc1 & _). set (r0 := new_row backup_files now i values) in *.
  assert (Hf1 : files_in c1 = files_in c ++ [r0]) by (unfold files_in; rewrite Hc1; apply rows_set_eq).
  assert (Hr0 : file_id r0 = i) by apply new_row_id.
  assert (Hlt : Forall (fun r => file_id r < i) (files_in c)).
  { pose proof (ok_rows _ _ _ _ Hok Hb) as (_ & Hall & _). eapply list.Forall_impl; [exact Hall|]. cbn beta.
    intros r ((_ & ?) & _). rewrite Hid. done. }
  assert (Hfind : find_row backup_files i c1 = Some r0).
  { rewrite <-Hr0. apply find_row_id; [by apply (ok_ids TABLES key)|]. change (rows_of _ c1) with (files_in c1). rewrite Hf1.
    apply elem_of_app. right. by left. }
  rewrite Hfind in H. apply result_bind_ok in H as (? & Hu & [= -> <-]).
  pose proof (update_inv _ _ _ _ _ _ _ Hfind Hu) as (Hc & _).
  set (h := row_hash sha256 r0 (previous_hash (text_in r0 "backup_id") i c1)) in *.
  set (r1 := assign [("row_hash", PStr h)] r0) in *.
  assert (Hk : forall k, k <> "row_hash" -> get r1 k = get r0 k).
  { intros k Hne. apply assign_other. cbn. rewrite list_elem_of_singleton. congruence. }
  assert (Hr1 : file_id r1 = i) by (rewrite <-Hr0; apply assign_id; cbn; by rewrite list_elem_of_singleton).
  assert (Hf2 : files_in c' = files_in c ++ [r1]).
  { unfold files_in. rewrite Hc. change (t_name backup_files) with "backup_files". rewrite rows_set_eq.
    change (rows_of "backup_files" c1) with (files_in c1). rewrite Hf1, map_app. cbn [map]. f_equal.
    - etransitivity; [apply map_ext_in|apply map_id]. intros r Hr%list_elem_of_In. cbn beta.
      rewrite list.Forall_forall in Hlt. specialize (Hlt r Hr). unfold is_row. unfold file_id in Hlt.
      destruct (id_of backup_files r =? i) eqn:E; [lia|done].
    - unfold is_row. unfold file_id in Hr0. by rewrite Hr0, Z.eqb_refl. }
  unfold chain_ok. rewrite Hf2. split.
  - apply ascending_snoc; [done|]. by rewrite Hr1.
  - intros e. unfold entry_rows. rewrite filter_app_bool. cbn [List.filter]. destruct (entry_is e r1) eqn:He; [|rewrite app_nil_r; apply Hch].
    apply chained_app. split; [apply Hch|]. unfold entry_is in He. apply String.eqb_eq in He.
    assert (Ht : text_in r0 "backup_id" = e) by (rewrite <-He; unfold text_in; by rewrite Hk).
    assert (row_hash sha256 r1 (last_hash None (List.filter (entry_is e) (files_in c))) = h) as ->.
    + unfold h. rewrite Ht, (previous_is_last e i c1 (files_in c) r0) by (done || apply Hch).
      unfold row_hash, chain_text. assert (chain_record r1 = chain_record r0) as ->; [|done].
      apply map_ext_in. intros n Hn%list_elem_of_In. rewrite Hk; [done|]. intros ->. revert Hn.
      by apply (bool_decide_unpack _); vm_compute.
    + apply get_assoc_set_eq.
Qed.
Lemma write_chain c c' : catalog_ok c -> write c c' -> chain_ok c -> chain_ok c'.
Proof. intros Hok [H|now values id H]; [by apply quiet_chain|by eapply row_chain]. Qed.
Lemma statements_catalog c c' : rtc statement c c' -> catalog_ok c -> catalog_ok c'.
Proof. apply statements_ok; [apply names_differ|apply keys_stated|apply parents_stated]. Qed.
Lemma writes_chain c c' : rtc write c c' -> catalog_ok c -> chain_ok c -> chain_ok c'.
Proof.
  induction 1 as [|c c1 c' H1 _ IH]; [done|]. intros Hok Hch. apply IH; [|by eapply write_chain].
  eapply statements_catalog; [by apply write_statements|done].
Qed.
Lemma steps_statements P c c' : rtc (catalog_step P) c c' -> rtc statement c c'.
Proof. induction 1; [done|]. etransitivity; [by eapply step_statements|done]. Qed.
Lemma safe_steps_chain c c' : rtc (catalog_step apart) c c' -> catalog_ok c -> chain_ok c -> chain_ok c'.
Proof.
  intros H. apply writes_chain. induction H; [done|]. etransitivity; [by apply safe_step_writes|done].
Qed.

(** ** Walking a chain *)
Definition hashes_there (prev : option string) : Prop := match prev with Some h => h <> "" | None => True end.
Lemma walk_written n k b prev r : get r "row_hash" = PStr (row_hash sha256 r prev) ->
  walk_row sha256 (mkState n k b None prev) r = mkState (S n) (S k) b None (Some (row_hash sha256 r prev)).
Proof using digest_not_empty.
  intros Hh. unfold walk_row. cbn [broken_at n_rows chained before_chain previous]. rewrite Hh.
  assert (String.eqb (row_hash sha256 r prev) "" = false) as -> by (apply String.eqb_neq, digest_not_empty).
  by rewrite String.eqb_refl.
Qed.
Lemma walk_chained l prev n k b : chained_rows prev l ->
  fold_left (walk_row sha256) l (mkState n k b None prev)
  = mkState (n + length l) (k + length l) b None (last_hash prev l).
Proof using digest_not_empty.
  revert prev n k. induction l as [|r l IH]; intros prev n k; cbn [chained_rows fold_left length last_hash].
  - intros _. f_equal; lia.
  - intros [Hh Hl]. rewrite walk_written, IH by done. f_equal; lia.
Qed.
Lemma assoc_walk e rows states : assoc e (fold_left (walk sha256) rows states)
  = match entry_rows e rows with
    | [] => assoc e states
    | l => Some (fold_left (walk_row sha256) l (default fresh (assoc e states)))
    end.
Proof.
  revert states. induction rows as [|r rows IH]; intros states; [done|]. cbn [fold_left]. rewrite IH.
  assert (Hw : assoc e (walk sha256 states r)
    = if entry_is e r then Some (walk_row sha256 (default fresh (assoc e states)) r) else assoc e states).
  { unfold walk, entry_is. destruct (String.eqb_spec (text_in r "backup_id") e) as [->|Hne]; [by rewrite assoc_set_eq|].
    by rewrite assoc_set_ne. }
  rewrite Hw. unfold entry_rows. cbn [List.filter].
  destruct (entry_is e r), (List.filter (entry_is e) rows); done.
Qed.
Lemma walk_keys rows states : NoDup (map fst states) -> NoDup (map fst (fold_left (walk sha256) rows states)).
Proof.
  revert states. induction rows as [|r rows IH]; intros states H; [done|]. apply IH. by apply assoc_set_NoDup.
Qed.

Lemma str_lt_total x y : str_lt x y = false -> str_lt y x = false -> x = y.
Proof.
  unfold str_lt. rewrite !negb_false_iff. intros Hyx Hxy. by apply String.leb_antisym.
Qed.
Lemma by_entry_id e a b : text_in a "backup_id" = e -> text_in b "backup_id" = e ->
  by_entry a b = id_leb backup_files a b.
Proof.
  intros Ha Hb. unfold by_entry. rewrite Ha, Hb. unfold str_lt. by rewrite leb_refl.
Qed.
Lemma assoc_perm {A} (l l' : list (string * A)) k : l ≡ₚ l' -> NoDup (map fst l) -> assoc k l = assoc k l'.
Proof.
  intros Hp Hnd. assert (Hnd' : NoDup (map fst l')) by by rewrite <-Hp.
  apply option_eq. intros v. rewrite !assoc_elem by done. by rewrite Hp.
Qed.
Lemma str_lt_trans a b d : str_lt a b = true -> str_lt b d = true -> str_lt a d = true.
Proof.
  rewrite !str_lt_not_leb. intros H1 H2. destruct (String.leb d a) eqn:E; [|done].
  rewrite (leb_trans b d a) in H1; [done| |done]. by apply leb_false.
Qed.
Lemma str_lt_irrefl a : str_lt a a = false.
Proof. unfold str_lt. by rewrite leb_refl. Qed.
Lemma by_entry_iff a b : by_entry a b = true <->
  str_lt (text_in a "backup_id") (text_in b "backup_id") = true
  \/ text_in a "backup_id" = text_in b "backup_id" /\ file_id a <= file_id b.
Proof.
  unfold by_entry, id_leb, file_id. destruct (str_lt _ _) eqn:E1; [naive_solver|].
  destruct (str_lt (text_in b _) _) eqn:E2.
  - split; [done|]. intros [?|[He _]]; [done|]. rewrite He, str_lt_irrefl in E2. done.
  - rewrite Z.leb_le. pose proof (str_lt_total _ _ E1 E2). naive_solver.
Qed.
Lemma by_entry_total a b : by_entry a b = true \/ by_entry b a = true.
Proof.
  rewrite !by_entry_iff. destruct (str_lt (text_in a _) (text_in b _)) eqn:E1; [by left; left|].
  destruct (str_lt (text_in b _) (text_in a _)) eqn:E2; [by right; left|].
  pose proof (str_lt_total _ _ E1 E2) as He. destruct (Z.le_ge_cases (file_id a) (file_id b)); [left|right]; right; by split.
Qed.
Lemma by_entry_trans a b d : by_entry a b = true -> by_entry b d = true -> by_entry a d = true.
Proof.
  rewrite !by_entry_iff. intros [H1|[H1 L1]] [H2|[H2 L2]].
  - left. by eapply str_lt_trans.
  - left. by rewrite <-H2.
  - left. by rewrite H1.
  - right. split; [congruence|lia].
Qed.
Lemma entry_rows_in_order e w l : ascending l -> (forall r, entry_is e r = true -> w r = true) ->
  entry_rows e (sort_by by_entry (List.filter w l)) = entry_rows e l.
Proof.
  intros Ha Hw. unfold entry_rows. rewrite filter_sort_by by (apply by_entry_total || apply by_entry_trans).
  assert (List.filter (entry_is e) (List.filter w l) = List.filter (entry_is e) l) as ->.
  { clear Ha. induction l as [|r l IH]; cbn; [done|]. destruct (w r) eqn:E; cbn; rewrite IH; [done|].
    destruct (entry_is e r) eqn:E2; [|done]. by rewrite (Hw r E2) in E. }
  apply sort_by_id. pose proof (ascending_filter (entry_is e) l Ha) as Hf.
  assert (Hall : Forall (fun r => text_in r "backup_id" = e) (List.filter (entry_is e) l)).
  { apply list.Forall_forall. intros r [_ He]%elem_of_filter_bool. by apply String.eqb_eq. }
  induction Hf as [|r m Hm IH Hr]; [constructor|]. apply list.Forall_cons in Hall as [Hre Hall]. constructor; [by apply IH|].
  rewrite list.Forall_forall in Hr, Hall |- *. intros x Hx. apply by_entry_iff. right. rewrite (Hall x Hx). split; [done|].
  specialize (Hr x Hx). cbn in Hr. lia.
Qed.
Definition whole (rows : list pydict) : entry_state := mkState (length rows) (length rows) 0 None (last_hash None rows).
Lemma verify_states c :
  let states := fold_left (walk sha256) (sort_by by_entry (List.filter (fun _ => true) (files_in c))) [] in
  verify_row_chain sha256 "" c = (sort_by (fun a b => String.leb a.1 b.1) states,
    length (List.filter (fun p => match broken_at p.2 with Some _ => true | None => false end) states)).
Proof. done. Qed.
Lemma states_of_entry e c : ascending (files_in c) ->
  assoc e (verify_row_chain sha256 "" c).1
  = match entry_rows e (files_in c) with [] => None | l => Some (fold_left (walk_row sha256) l fresh) end.
Proof.
  intros Ha. rewrite verify_states. cbn [fst]. set (states := fold_left _ _ []).
  assert (Hnd : NoDup (map fst states)) by apply walk_keys, NoDup_nil_2.
  rewrite (assoc_perm _ states) by (rewrite ?sort_by_perm; done).
  unfold states. rewrite assoc_walk, entry_rows_in_order by done. by destruct (entry_rows e (files_in c)).
Qed.
Lemma verified e c : chain_ok c -> assoc e (verify_row_chain sha256 "" c).1
  = match entry_rows e (files_in c) with [] => None | l => Some (whole l) end.
Proof using digest_not_empty.
  intros [Ha Hch]. rewrite states_of_entry by done. specialize (Hch e).
  destruct (entry_rows e (files_in c)) as [|r l]; [done|]. f_equal. apply (walk_chained _ None 0 0 0 Hch).
Qed.
Lemma none_broken c : chain_ok c -> (verify_row_chain sha256 "" c).2 = 0%nat.
Proof using digest_not_empty.
  intros Hok. rewrite verify_states. cbn [snd]. set (states := fold_left _ _ []).
  rewrite filter_false; [done|]. intros [e st] Hin. cbn.
  assert (Hnd : NoDup (map fst states)) by apply walk_keys, NoDup_nil_2.
  apply (assoc_elem states e st Hnd) in Hin. pose proof (verified e c Hok) as Hv. rewrite verify_states in Hv. cbn [fst] in Hv.
  fold states in Hv. rewrite (assoc_perm _ states), Hin in Hv by (rewrite ?sort_by_perm; done).
  destruct (entry_rows e (files_in c)); [done|]. by injection Hv as ->.
Qed.

(** ** What one hash binds *)
Definition hex_value (a : ascii) : Z := if is_digit a then code a - 48 else code a - 87.
Definition read_json_char (l : list ascii) : option (ascii * list ascii) :=
  match l with
  | a :: b :: l' =>
      if bool_decide (a = chr 92) then
        if bool_decide (b = "n"%char) then Some (chr 10, l')
        else if bool_decide (b = "r"%char) then Some (chr 13, l')
        else if bool_decide (b = "t"%char) then Some (chr 9, l')
        else if bool_decide (b = "b"%char) then Some (chr 8, l')
        else if bool_decide (b = "f"%char) then Some (chr 12, l')
        else if bool_decide (b = "u"%char) then
          match l' with
          | _ :: _ :: h :: k :: l'' => Some (chr (16 * hex_value h + hex_value k), l'')
          | _ => None
          end
        else Some (b, l')
      else Some (a, b :: l')
  | _ => None
  end.
Lemma read_json a b x : read_json_char (json_char a ++ b :: x) = Some (a, b :: x).
Proof. destruct a as [[] [] [] [] [] [] [] []]; reflexivity. Qed.
Lemma json_char_no_quote a : exists h t, json_char a = h :: t /\ h <> chr 34.
Proof. destruct a as [[] [] [] [] [] [] [] []]; eexists _, _; (split; [reflexivity|discriminate]). Qed.
Lemma json_char_inj a b x y : json_char a ++ x = json_char b ++ y -> x <> [] -> y <> [] -> a = b /\ x = y.
Proof.
  intros H Hx Hy. destruct x as [|c x], y as [|d y]; [done|done|done|].
  pose proof (read_json a c x) as H1. rewrite H, read_json in H1. by injection H1 as -> -> ->.
Qed.
Lemma json_chars_inj s s' x y :
  mjoin (map json_char s) ++ chr 34 :: x = mjoin (map json_char s') ++ chr 34 :: y -> s = s' /\ x = y.
Proof.
  revert s'. induction s as [|a s IH]; intros [|b s'].
  - intros [= ->]. done.
  - cbn. destruct (json_char_no_quote b) as (h & t & -> & Hh). cbn. intros [= Ha _]. by destruct Hh.
  - cbn. destruct (json_char_no_quote a) as (h & t & -> & Hh). cbn. intros [= Ha _]. by destruct Hh.
  - cbn. rewrite <-!app_assoc. intros H.
    apply json_char_inj in H as [-> H]; [|by intros [_ ?]%app_eq_nil..]. by apply IH in H as [-> ->].
Qed.
Lemma json_text_inj s s' x y : json_text s ++ x = json_text s' ++ y -> s = s' /\ x = y.
Proof.
  unfold json_text. cbn [app]. intros [= H]. rewrite <-!app_assoc in H. apply json_chars_inj in H as [H ->].
  split; [|done]. by rewrite <-(text_chars s), H, text_chars.
Qed.
Lemma json_value_inj v v' x y : json_value v ++ x = json_value v' ++ y -> v = v' /\ x = y.
Proof.
  destruct v as [s|], v' as [s'|]; cbn [json_value].
  - intros [-> ->]%json_text_inj. done.
  - by intros [= ?].
  - by intros [= ?].
  - intros H%app_inv_head. done.
Qed.
Lemma json_member_inj k v v' x y :
  (json_text k ++ chars ": " ++ json_value v) ++ x = (json_text k ++ chars ": " ++ json_value v') ++ y -> v = v' /\ x = y.
Proof. rewrite <-!app_assoc. intros H%app_inv_head%app_inv_head. by apply json_value_inj. Qed.
Lemma json_join_inj l l' x y : map fst l = map fst l' ->
  json_join (json_members l) ++ x = json_join (json_members l') ++ y -> l = l' /\ x = y.
Proof.
  revert l' x y. induction l as [|[k v] l IH]; intros [|[k' v'] l'] x y; cbn [map fst]; [by intros _ ?|done|done|].
  intros [= <- Hk]. destruct l as [|p l], l' as [|p' l']; try done.
  - intros H%json_member_inj. naive_solver.
  - change (json_members ((k, v) :: p :: l)) with ((json_text k ++ chars ": " ++ json_value v) :: json_members (p :: l)).
    change (json_members ((k, v') :: p' :: l')) with ((json_text k ++ chars ": " ++ json_value v') :: json_members (p' :: l')).
    assert (forall m q ms, json_join (m :: json_members (q :: ms)) = m ++ chars ", " ++ json_join (json_members (q :: ms))) as Hj by done.
    rewrite !Hj. intros H.
    rewrite <-(app_assoc _ (chars ", " ++ json_join (json_members (p :: l))) x) in H.
    rewrite <-(app_assoc _ (chars ", " ++ json_join (json_members (p' :: l'))) y) in H.
    apply json_member_inj in H as [-> H]. rewrite <-!(app_assoc (chars ", ")) in H. apply app_inv_head in H.
    apply (IH (p' :: l') x y Hk) in H as [-> ->]. done.
Qed.
Definition SORTED_FIELDS : list string := sort_by String.leb CHAIN_FIELDS.
Lemma sorted_record values : sort_by (fun a b : string * option string => String.leb a.1 b.1) (chain_record values)
  = map (fun n => (n, as_text (get values n))) SORTED_FIELDS.
Proof. reflexivity. Qed.
(** The text that is hashed says the hash before it and every field. *)
Lemma chain_text_inj r r' p p' : chain_text r p = chain_text r' p' ->
  default "" p = default "" p' /\ chain_record r = chain_record r'.
Proof.
  unfold chain_text. rewrite !sorted_record. intros H%(f_equal chars). rewrite !chars_text in H.
  apply app_inv_head in H. apply json_text_inj in H as [Hp H]. split; [done|]. apply app_inv_head in H.
  apply json_join_inj in H as [H _]; [|by rewrite !map_map].
  apply map_ext_in. intros n Hn.
  assert (Hs : n ∈ SORTED_FIELDS) by (unfold SORTED_FIELDS; rewrite elem_of_sort_by; by apply list_elem_of_In).
  clear Hn. revert H Hs. generalize SORTED_FIELDS. intros l. induction l as [|m l IH]; cbn; [by intros _ ?%not_elem_of_nil|].
  intros [= Hm Hl] [->|Hs]%list.elem_of_cons; [by rewrite Hm|by apply IH].
Qed.

(** A walk that finds no break, over rows that all have a hash, went along a chain. *)
Lemma walk_broken_stays l s b : broken_at s = Some b -> broken_at (fold_left (walk_row sha256) l s) = Some b.
Proof.
  revert s. induction l as [|r l IH]; intros s H; [done|]. apply IH. unfold walk_row. by rewrite H.
Qed.
Lemma walk_row_before s r : (before_chain s <= before_chain (walk_row sha256 s r))%nat.
Proof. unfold walk_row. repeat (case_match; cbn); lia. Qed.
Lemma walk_before l s : (before_chain s <= before_chain (fold_left (walk_row sha256) l s))%nat.
Proof.
  revert s. induction l as [|r l IH]; intros s; cbn [fold_left]; [done|]. etransitivity; [apply walk_row_before|apply IH].
Qed.
Lemma walk_row_cases n k b prev r : let s := walk_row sha256 (mkState n k b None prev) r in
  (exists why, broken_at s = Some why) \/ before_chain s = S b
  \/ get r "row_hash" = PStr (row_hash sha256 r prev)
     /\ s = mkState (S n) (S k) b None (Some (row_hash sha256 r prev)).
Proof.
  cbn zeta. unfold walk_row. cbn [broken_at n_rows chained before_chain previous].
  destruct (get r "row_hash") as [| | | |h| |] eqn:Hh; try (destruct prev; cbn; eauto; fail).
  destruct (String.eqb h "") eqn:E; [destruct prev; cbn; eauto|].
  destruct (String.eqb_spec (row_hash sha256 r prev) h) as [<-|]; cbn; eauto.
Qed.
Lemma walk_unbroken l n k b prev : let st := fold_left (walk_row sha256) l (mkState n k b None prev) in
  broken_at st = None -> before_chain st = b -> chained_rows prev l /\ previous st = last_hash prev l.
Proof.
  cbn zeta. revert n k prev. induction l as [|r l IH]; intros n k prev; cbn [fold_left chained_rows last_hash]; [done|].
  destruct (walk_row_cases n k b prev r) as [(why & Hw)|[Hb|[Hh ->]]].
  - by rewrite (walk_broken_stays _ _ _ Hw).
  - intros _ Hst. pose proof (walk_before l (walk_row sha256 (mkState n k b None prev) r)). lia.
  - intros H1 H2. destruct (IH _ _ _ H1 H2). done.
Qed.
Lemma last_hash_app p l r : last_hash p (l ++ [r]) = Some (row_hash sha256 r (last_hash p l)).
Proof. revert p. induction l as [|x l IH]; intros p; cbn; [done|]. apply IH. Qed.
(** The texts a chain hashes, one for each row: its fields and the hash before it. *)
Fixpoint hashed_texts (p : option string) (l : list pydict) : list string :=
  match l with [] => [] | r :: l => chain_text r p :: hashed_texts (Some (row_hash sha256 r p)) l end.
Lemma hashed_texts_app p l r : hashed_texts p (l ++ [r]) = hashed_texts p l ++ [chain_text r (last_hash p l)].
Proof. revert p. induction l as [|x l IH]; intros p; cbn; [done|]. by rewrite IH. Qed.
(** Two of the texts that were hashed, one in each chain, differ and have one digest. *)
Definition clash (l l' : list pydict) : Prop :=
  exists x y, x ∈ hashed_texts None l /\ y ∈ hashed_texts None l' /\ x <> y /\ sha256 x = sha256 y.
Lemma clash_app l l' r r' : clash l l' -> clash (l ++ [r]) (l' ++ [r']).
Proof.
  intros (x & y & Hx & Hy & H). exists x, y. rewrite !hashed_texts_app, !list.elem_of_app. naive_solver.
Qed.
Lemma clash_last l l' r r' : chain_text r (last_hash None l) <> chain_text r' (last_hash None l') ->
  sha256 (chain_text r (last_hash None l)) = sha256 (chain_text r' (last_hash None l')) -> clash (l ++ [r]) (l' ++ [r']).
Proof.
  intros Hne Heq. eexists _, _. rewrite !hashed_texts_app, !list.elem_of_app.
  split; [by right; apply list_elem_of_singleton|]. split; [by right; apply list_elem_of_singleton|done].
Qed.
Lemma hash_binds l l' : chained_rows None l -> chained_rows None l' -> last_hash None l = last_hash None l' ->
  map chain_record l = map chain_record l' \/ clash l l'.
Proof using digest_not_empty.
  revert l'. induction l as [|r l IH] using rev_ind; intros l' Hl Hl' Heq.
  - destruct l' as [|r' l' _] using rev_ind; [by left|]. by rewrite last_hash_app in Heq.
  - destruct l' as [|r' l' _] using rev_ind; [by rewrite last_hash_app in Heq|].
    rewrite !last_hash_app in Heq. injection Heq as Heq. unfold row_hash in Heq.
    destruct (decide (chain_text r (last_hash None l) = chain_text r' (last_hash None l'))) as [Ht|Hne]; [|by right; apply clash_last].
    apply chain_text_inj in Ht as [Hp Hr]. apply chained_app in Hl as [Hl _]. apply chained_app in Hl' as [Hl' _].
    destruct (IH l' Hl Hl') as [Hm|?]; [|left|by right; apply clash_app].
    + destruct l as [|x l _] using rev_ind; destruct l' as [|x' l' _] using rev_ind; rewrite ?last_hash_app in *; cbn in Hp.
      * done.
      * by destruct (digest_not_empty _ (eq_sym Hp)).
      * by destruct (digest_not_empty _ Hp).
      * by rewrite Hp.
    + rewrite !map_app, Hm. cbn [map]. by rewrite Hr.
Qed.
Definition rows_of_entry (e : string) (c : Catalog) : list pydict :=
  entry_rows e (sort_by by_entry (files_in c)).
Lemma entry_state_of e c st : assoc e (verify_row_chain sha256 "" c).1 = Some st -> broken_at st = None -> before_chain st = 0%nat ->
  chained_rows None (rows_of_entry e c) /\ previous st = last_hash None (rows_of_entry e c).
Proof.
  rewrite verify_states. cbn [fst]. set (states := fold_left _ _ []).
  assert (Hnd : NoDup (map fst states)) by apply walk_keys, NoDup_nil_2.
  rewrite (assoc_perm _ states) by (rewrite ?sort_by_perm; done).
  unfold states. rewrite assoc_walk. rewrite filter_true by done. fold (rows_of_entry e c).
  destruct (rows_of_entry e c) as [|r l] eqn:Hl; [done|]. rewrite <-Hl. intros [= <-].
  intros H1 H2. by apply (walk_unbroken _ 0 0 0 None).
Qed.
End methods.

(** ** What the catalog keeps *)
Lemma empty_ok : catalog_ok [].
Proof. unfold catalog_ok. repeat constructor; cbn; try apply NoDup_nil_2; done. Qed.
Lemma empty_chain sha256 : chain_ok sha256 [].
Proof. split; [constructor|done]. Qed.
Lemma files_row c r : catalog_ok c -> r ∈ files_in c -> row_holds backup_files r = true.
Proof.
  intros Hok Hr. pose proof (ok_rows _ _ _ backup_files Hok ltac:(in_tables)) as (_ & Hall & _).
  rewrite list.Forall_forall in Hall. by apply Hall.
Qed.
Lemma row_check s r name check : row_holds s r = true -> (name, check) ∈ t_checks s -> check r = true.
Proof.
  unfold row_holds. intros [_ H%forallb_Forall]%andb_true_iff Hin. rewrite list.Forall_forall in H.
  exact (H (name, check) Hin).
Qed.
Ltac in_checks := apply list_elem_of_In; cbn; repeat (first [left; reflexivity | right]).

(** What the tables themselves hold every row to. *)
Definition source_gone_after_copy (r : pydict) : Prop :=
  is_null r "source_deleted_at" = false ->
  is_null r "offload_verified_at" = false /\ (is_null r "offload_state" = true \/ among r "offload_state" ["verified"; "expired"] = true).
Definition proven_by_bytes (f : pydict) : Prop :=
  among f "verdict" PROVEN_VERDICTS = true ->
  is_null f "checksum_target_after_copy" = false
  /\ if is_null f "checksum_source_before_copy"
     then get f "verdict" = PStr "match" /\ get f "checksum_target_after_copy" = get f "checksum_after_backup"
     else get f "checksum_target_after_copy" = get f "checksum_source_before_copy".
Definition one_file_a_path (c : Catalog) : Prop :=
  forall r r', r ∈ files_in c -> r' ∈ files_in c -> not_pruned r = true -> not_pruned r' = true ->
    same_cell (get r "server_id") (get r' "server_id") = true -> same_cell (get r "file_path") (get r' "file_path") = true ->
    file_id r = file_id r'.
Lemma ok_source c r : catalog_ok c -> r ∈ files_in c -> source_gone_after_copy r.
Proof.
  intros Hok Hr Hs. assert (Hc : ck_source_deleted r = true).
  { apply (row_check backup_files r "ck_backup_files_source_deleted_after_copy"); [by apply (files_row c)|in_checks]. }
  unfold ck_source_deleted in Hc. rewrite Hs in Hc. apply andb_true_iff in Hc as [Ho Hv%negb_true_iff].
  apply orb_true_iff in Ho. done.
Qed.
Lemma run_file_row c f : catalog_ok c -> f ∈ rows_of "restore_run_files" c -> row_holds restore_run_files f = true.
Proof.
  intros Hok Hr. pose proof (ok_rows _ _ _ restore_run_files Hok ltac:(in_tables)) as (_ & Hall & _).
  rewrite list.Forall_forall in Hall. by apply Hall.
Qed.
Lemma equals_PStr r column s : equals r column s = true -> get r column = PStr s.
Proof. unfold equals. destruct (get r column); try done. by intros ->%String.eqb_eq. Qed.
(** The two constraints together: the target is not NULL, nor is what it is held to. *)
Lemma proven_row f : ck_source f = true -> ck_proven f = true -> proven_by_bytes f.
Proof.
  intros Hs Hc Hp. unfold ck_proven in Hc. rewrite Hp in Hc. apply andb_true_iff in Hc as [Ht%negb_true_iff Hc].
  split; [done|]. unfold ck_source in Hs. unfold held_to in Hc.
  destruct (is_null f "checksum_source_before_copy") eqn:E; cbn [negb orb] in Hs.
  - apply orb_true_iff in Hs as [Hs%equals_PStr|[Hv%equals_PStr Hb%negb_true_iff]%andb_true_iff].
    { unfold among in Hp. by rewrite Hs in Hp. }
    split; [done|]. apply same_cell_eq. revert Hc. unfold is_null in E, Hb. cbn [SqlTable.coalesce]. rewrite E, Hb, Hb. done.
  - apply same_cell_eq. revert Hc. unfold is_null in E. cbn [SqlTable.coalesce]. rewrite !E. done.
Qed.
Lemma ok_proven c f : catalog_ok c -> f ∈ rows_of "restore_run_files" c -> proven_by_bytes f.
Proof.
  intros Hok Hf Hp. pose proof (run_file_row c f Hok Hf) as Hrow.
  assert (Hc : ck_proven f = true) by (apply (row_check restore_run_files f "ck_restore_run_files_proven"); [done|in_checks]).
  assert (Hs : ck_source f = true) by (apply (row_check restore_run_files f "ck_restore_run_files_source"); [done|in_checks]).
  by apply proven_row.
Qed.
Lemma NoDup_omap_inj {A B} (f : A -> option B) l x y b : NoDup (omap f l) -> x ∈ l -> y ∈ l ->
  f x = Some b -> f y = Some b -> x = y.
Proof.
  induction l as [|z l IH]; cbn; [by intros _ ?%not_elem_of_nil|].
  intros Hnd [->|Hx]%list.elem_of_cons [->|Hy]%list.elem_of_cons Hfx Hfy; [done| | |].
  - rewrite Hfx in Hnd. apply list.NoDup_cons in Hnd as [Hn _]. destruct Hn. apply list_elem_of_omap. by exists y.
  - rewrite Hfy in Hnd. apply list.NoDup_cons in Hnd as [Hn _]. destruct Hn. apply list_elem_of_omap. by exists x.
  - apply IH; try done. destruct (f z); [by apply list.NoDup_cons in Hnd as [_ ?]|done].
Qed.
Lemma same_cell_some v w : same_cell v w = true -> exists k, cell v = Some k /\ cell w = Some k.
Proof. unfold same_cell. destruct (cell v) as [k|]; [|done]. intros H%bool_decide_eq_true. by exists k. Qed.
Lemma ok_paths c : catalog_ok c -> one_file_a_path c.
Proof.
  intros Hok r r' Hr Hr' Hp Hp' (k1 & H1 & H1')%same_cell_some (k2 & H2 & H2')%same_cell_some.
  pose proof (ok_rows _ _ _ backup_files Hok ltac:(in_tables)) as (_ & _ & Hix & _).
  unfold indexes_hold in Hix. cbn [t_unique backup_files forallb] in Hix. rewrite andb_true_r in Hix.
  apply bool_decide_eq_true in Hix. f_equal. eapply (NoDup_omap_inj _ _ r r' [k1; k2] Hix Hr Hr');
    unfold key_of; cbn [u_where u_columns]; [rewrite Hp|rewrite Hp']; cbn; by rewrite ?H1, ?H2, ?H1', ?H2'.
Qed.

Lemma kept_by_steps sha256 P c c' s id r : rtc (catalog_step sha256 P) c c' -> catalog_ok c -> s ∈ TABLES ->
  find_row s id c = Some r ->
  exists r', find_row s id c' = Some r' /\ forall col, col ∈ t_first s -> is_null r col = false -> get r' col = get r col.
Proof.
  intros H. apply (statements_keep TABLES key names_differ keys_stated parents_stated). by eapply steps_statements.
Qed.
Lemma ok_after sha256 P c c' : rtc (catalog_step sha256 P) c c' -> catalog_ok c -> catalog_ok c'.
Proof. intros H. apply statements_catalog. by eapply steps_statements. Qed.

(** C4: However the methods of the catalog follow one another, ids stay unique, every constraint
    of the six tables holds, no row disappears, and a first checksum or size, once there, is
    never another nor NULL. *)
Theorem first_evidence_is_never_rewritten sha256 P c c' s id r :
  catalog_ok c -> rtc (catalog_step sha256 P) c c' -> s ∈ TABLES -> find_row s id c = Some r ->
  catalog_ok c' /\ exists r', find_row s id c' = Some r'
    /\ forall column, column ∈ t_first s -> is_null r column = false -> get r' column = get r column.
Proof. intros Hok H Hs Hr. split; [by eapply ok_after|by eapply kept_by_steps]. Qed.

(** C20: In every catalog its methods reach: a row whose source is gone names when its copy was
    verified, and its copy is still verified, expired or of no state; a file called match,
    copied or recopied has a hash of the target, which is the one its source had before the
    copy, or, only for a match whose source was not read again, the one its backup recorded; and
    a server has at most one file that is not pruned at a path. *)
Theorem what_the_catalog_says_is_held sha256 P c c' :
  catalog_ok c -> rtc (catalog_step sha256 P) c c' ->
  (forall r, r ∈ files_in c' -> source_gone_after_copy r)
  /\ (forall f, f ∈ rows_of "restore_run_files" c' -> proven_by_bytes f)
  /\ one_file_a_path c'.
Proof.
  intros Hok H. pose proof (ok_after _ _ _ _ H Hok) as Hok'.
  split; [|split]; intros; [by eapply ok_source|by eapply ok_proven|by apply ok_paths].
Qed.

(** C23: Whatever is recorded, checked, released or used, as long as set_backup_file is given no
    field a row's hash covers, verify_row_chain finds no break, and counts every row of each
    entry as chained. *)
Theorem an_untouched_chain_holds sha256 c c' : (forall s, sha256 s <> "") ->
  catalog_ok c -> chain_ok sha256 c -> rtc (catalog_step sha256 apart) c c' ->
  (verify_row_chain sha256 "" c').2 = 0%nat
  /\ forall e r, r ∈ files_in c' -> text_in r "backup_id" = e ->
       exists st, assoc e (verify_row_chain sha256 "" c').1 = Some st
         /\ broken_at st = None /\ before_chain st = 0%nat /\ chained st = length (entry_rows e (files_in c')).
Proof.
  intros Hd Hok Hch H. pose proof (safe_steps_chain _ _ _ H Hok Hch) as Hch'. split; [by apply none_broken|].
  intros e r Hr He. exists (whole sha256 (entry_rows e (files_in c'))). rewrite verified by done. split; [|done].
  assert (Hin : r ∈ entry_rows e (files_in c')) by (apply elem_of_filter_bool; split; [done|by apply String.eqb_eq]).
  destruct (entry_rows e (files_in c')); [by apply not_elem_of_nil in Hin|done].
Qed.

(** C13: Two catalogs whose chains of an entry hold from the first row and end in the same hash
    have the same records of that entry, in number, order and content, or else one of the texts
    hashed for a row of the first chain and one of the texts hashed for a row of the second are
    different and have one SHA-256 digest. *)
Theorem the_newest_hash_binds_the_chain sha256 e c c' st st' : (forall s, sha256 s <> "") ->
  assoc e (verify_row_chain sha256 "" c).1 = Some st -> broken_at st = None -> before_chain st = 0%nat ->
  assoc e (verify_row_chain sha256 "" c').1 = Some st' -> broken_at st' = None -> before_chain st' = 0%nat ->
  previous st = previous st' ->
  map chain_record (rows_of_entry e c) = map chain_record (rows_of_entry e c')
  \/ exists x y, x ∈ hashed_texts sha256 None (rows_of_entry e c) /\ y ∈ hashed_texts sha256 None (rows_of_entry e c')
       /\ x <> y /\ sha256 x = sha256 y.
Proof.
  intros Hd H1 H2 H3 H1' H2' H3' Hp.
  destruct (entry_state_of sha256 e c st H1 H2 H3) as [Hc Hl], (entry_state_of sha256 e c' st' H1' H2' H3') as [Hc' Hl'].
  apply hash_binds; [done|done|done|congruence].
Qed.

(** ** A small catalog *)
Definition lab_hash (s : string) : string := "h" +:+ s.
Lemma lab_hash_not_empty s : lab_hash s <> "".
Proof. done. Qed.
Definition digest_of (a : ascii) : string := text (repeat a 64).
Definition lab_run : pydict :=
  [("backup_id", PStr "sales"); ("server_id", PStr "srv1"); ("engine", PStr "sqlserver"); ("level", PStr "full");
   ("started_at", PStr "2026-10-20T01:00:00Z"); ("ended_at", PStr "2026-10-20T01:10:00Z"); ("status", PStr "DONE")].
Definition lab_file (name file_type ended_at : string) (size : pyval) (verdict : string) (sum : ascii) : pydict :=
  [("backup_id", PStr "sales"); ("server_id", PStr "srv1"); ("database_name", PStr "SALES"); ("engine", PStr "sqlserver");
   ("file_name", PStr name); ("file_type", PStr file_type); ("file_path", PStr ("/b/" +:+ name));
   ("backup_ended_at", PStr ended_at); ("size_bytes", size); ("checksum_after_backup", PStr (digest_of sum));
   ("verdict", PStr verdict)].
Definition catalog_of {A} (r : result catalog_error (Catalog * A)) : Catalog := match r with Ok (c, _) => c | Err _ => [] end.
Definition only_catalog (r : result catalog_error Catalog) : Catalog := match r with Ok c => c | Err _ => [] end.
Definition lab_files : list pydict :=
  [lab_file "f1.bak" "FULL" "2026-10-20T01:10:00Z" (PInt 1000) "ok" "a";
   lab_file "d1.bak" "DIFF" "2026-10-20T01:10:00Z" (PInt 10) "ok" "b"].
Definition lab_written : Catalog :=
  catalog_of (record_backup lab_hash "2026-10-20T01:10:05Z" lab_run lab_files []).
Definition verified_values : pydict :=
  [("offload_state", PStr "verified"); ("offload_server_id", PStr "repo"); ("offload_path", PStr "/r/srv1/f1.bak");
   ("offload_run_id", PInt 7); ("offload_verified_at", PStr "2026-10-20T02:00:00Z")].
Definition released_values : pydict :=
  [("state", PStr "pruned"); ("on_disk", PInt 0); ("source_deleted_at", PStr "2026-10-20T03:00:00Z")].
Definition lab_verified : Catalog :=
  only_catalog (set_backup_file "2026-10-20T02:00:00Z" 1 verified_values lab_written).
Definition lab_released : Catalog :=
  only_catalog (set_backup_file "2026-10-20T03:00:00Z" 1 released_values lab_verified).
Definition row_1 (c : Catalog) : pydict := default [] (find_row backup_files 1 c).
Lemma lab_writes : record_backup lab_hash "2026-10-20T01:10:05Z" lab_run lab_files [] = Ok (lab_written, 1).
Proof. vm_compute. reflexivity. Qed.
Lemma lab_verifies : set_backup_file "2026-10-20T02:00:00Z" 1 verified_values lab_written = Ok lab_verified.
Proof. vm_compute. reflexivity. Qed.
Lemma lab_releases : set_backup_file "2026-10-20T03:00:00Z" 1 released_values lab_verified = Ok lab_released.
Proof. vm_compute. reflexivity. Qed.
Lemma lab_first : rtc (catalog_step lab_hash apart) [] lab_written.
Proof. eapply rtc_l; [exact (Step_record lab_hash apart _ _ _ _ _ _ lab_writes)|constructor]. Qed.
Lemma lab_later : rtc (catalog_step lab_hash apart) lab_written lab_released.
Proof.
  eapply rtc_l; [refine (Step_set_file lab_hash apart _ _ _ _ _ _ lab_verifies); apply apart_dec; by vm_compute|].
  eapply rtc_l; [refine (Step_set_file lab_hash apart _ _ _ _ _ _ lab_releases); apply apart_dec; by vm_compute|constructor].
Qed.
Lemma lab_steps : rtc (catalog_step lab_hash apart) [] lab_released.
Proof. etransitivity; [exact lab_first|exact lab_later]. Qed.
Lemma lab_written_ok : catalog_ok lab_written.
Proof. exact (ok_after lab_hash apart [] lab_written lab_first empty_ok). Qed.
Lemma lab_row_1 : find_row backup_files 1 lab_written = Some (row_1 lab_written).
Proof. vm_compute. reflexivity. Qed.
Lemma lab_row_1_later : find_row backup_files 1 lab_released = Some (row_1 lab_released).
Proof. vm_compute. reflexivity. Qed.
(** A source is not released before its copy is verified. *)
Example release_before_copy_refused :
  set_backup_file "2026-10-20T03:00:00Z" 1 released_values lab_written = Err NotYetVerified.
Proof. vm_compute. reflexivity. Qed.
(** A size may be filled in later: the store takes it, and the chain reads as edited. *)
Definition unsized : Catalog :=
  catalog_of (record_backup_file lab_hash "2026-10-20T01:10:05Z"
    (lab_file "base" "FULL_BASE" "2026-10-20T01:10:00Z" PNone "size_failed" "a") []).
Lemma a_size_filled_in_reads_as_an_edit :
  (verify_row_chain lab_hash "" unsized).2 = 0%nat
  /\ exists c, set_backup_file "2026-10-21T01:00:00Z" 1 [("size_bytes", PInt 4096)] unsized = Ok c
       /\ (verify_row_chain lab_hash "" c).2 = 1%nat.
Proof. split; [by vm_compute|]. eexists. split; [vm_compute; reflexivity|by vm_compute]. Qed.
(** Rows taken off the end of a chain leave a chain: only a newest hash kept elsewhere shows it. *)
Definition cut_short : Catalog :=
  assoc_set "backup_files" (mkTable (take 1 (files_in lab_written)) 2) lab_written.
Lemma a_chain_cut_short_still_holds :
  (verify_row_chain lab_hash "" cut_short).2 = 0%nat /\ (verify_row_chain lab_hash "" lab_written).2 = 0%nat.
Proof. split; by vm_compute. Qed.

Theorem evidence_witness : get (row_1 lab_written) "checksum_after_backup" = PStr (digest_of "a")
  /\ exists r', find_row backup_files 1 lab_released = Some r'
       /\ get r' "checksum_after_backup" = PStr (digest_of "a").
Proof.
  split; [vm_compute; reflexivity|].
  assert (Hs : backup_files ∈ TABLES) by in_tables.
  destruct (first_evidence_is_never_rewritten lab_hash apart lab_written lab_released backup_files 1 (row_1 lab_written)
              lab_written_ok lab_later Hs lab_row_1) as (_ & r' & Hr' & Hk).
  exists r'. split; [exact Hr'|]. rewrite (Hk "checksum_after_backup").
    + vm_compute. reflexivity.
    + apply list_elem_of_In. left. reflexivity.
    + vm_compute. reflexivity.
Defined.
Theorem held_witness : exists r, r ∈ files_in lab_released /\ is_null r "source_deleted_at" = false /\ source_gone_after_copy r.
Proof.
  pose proof (what_the_catalog_says_is_held lab_hash apart [] lab_released empty_ok lab_steps) as [H _].
  exists (row_1 lab_released). pose proof (proj1 (find_row_some backup_files 1 lab_released (row_1 lab_released) lab_row_1_later)) as Hin.
  split; [exact Hin|]. split; [vm_compute; reflexivity|]. exact (H _ Hin).
Defined.
Theorem untouched_witness : (verify_row_chain lab_hash "" lab_released).2 = 0%nat
  /\ length (entry_rows "sales" (files_in lab_released)) = 2%nat.
Proof.
  split; [|vm_compute; reflexivity].
  exact (proj1 (an_untouched_chain_holds lab_hash [] lab_released lab_hash_not_empty empty_ok (empty_chain lab_hash) lab_steps)).
Defined.
Definition state_of (c : Catalog) : entry_state := default fresh (assoc "sales" (verify_row_chain lab_hash "" c).1).
Theorem binds_witness : map chain_record (rows_of_entry "sales" lab_written) = map chain_record (rows_of_entry "sales" lab_released).
Proof.
  assert (Hw : forall c, c = lab_written \/ c = lab_released ->
    assoc "sales" (verify_row_chain lab_hash "" c).1 = Some (state_of c) /\ broken_at (state_of c) = None /\ before_chain (state_of c) = 0%nat)
    by (intros c [->| ->]; vm_compute; done).
  destruct (Hw lab_written (or_introl eq_refl)) as (H1 & H2 & H3), (Hw lab_released (or_intror eq_refl)) as (H1' & H2' & H3').
  assert (Hp : previous (state_of lab_written) = previous (state_of lab_released)) by (vm_compute; reflexivity).
  destruct (the_newest_hash_binds_the_chain lab_hash "sales" lab_written lab_released _ _ lab_hash_not_empty H1 H2 H3 H1' H2' H3' Hp)
    as [H|(x & y & _ & _ & Hne & Heq)]; [exact H|].
  destruct Hne. exact (f_equal (fun s => match s with String _ s => s | "" => "" end) Heq).
Defined.
