(* ===== verification/OffloadConfig.v ===== *)
(** * What an entry states of its repository copy ([lib/offload.py]).

    The fields of a backup entry, read into a record and written back; the side of a restore
    entry; and the fields [upgrade-config] writes into entries that state none.  An error keeps
    what it is about. *)

From S2P Require Import Prelude Py Integrity.

Definition SCANNERS : list string := ["none"; "clamav"].
Definition RESTORE_FROM : list string := ["server"; "repository"].
Definition STATED_RESTORE_FROM : string := "server".
Definition OFFLOAD_FIELDS : pydict :=
  [("offload_enabled", PBool false); ("offload_server_id", PStr ""); ("offload_folder", PStr "");
   ("offload_copy_max_retry", PInt 3); ("offload_scan", PStr "none"); ("offload_delete_source", PBool false);
   ("offload_source_share", PStr ""); ("offload_source_username", PStr ""); ("offload_source_password_ref", PStr "");
   ("offload_retention_full", PInt 0); ("offload_retention_diff", PInt 0); ("offload_retention_log", PInt 0);
   ("offload_files_per_pass", PInt 100); ("offload_copy_retry_interval_seconds", PInt 30);
   ("offload_retry_interval_seconds", PInt 3600); ("offload_run_timeout_seconds", PInt 86400);
   ("offload_copy_timeout_seconds", PInt 86400); ("offload_hash_timeout_seconds", PInt 21600);
   ("offload_stall_seconds", PInt 300)].
Definition RUN_FIELD_RANGES : list (string * (Z * option Z)) :=
  [("offload_files_per_pass", (1, Some 10000)); ("offload_copy_retry_interval_seconds", (0, Some 3600));
   ("offload_retry_interval_seconds", (0, None)); ("offload_run_timeout_seconds", (60, None));
   ("offload_copy_timeout_seconds", (60, None)); ("offload_hash_timeout_seconds", (60, None));
   ("offload_stall_seconds", (10, Some 86400))].
Definition RETENTION_FIELD_OF_LEVEL : list (string * string) :=
  [("full", "offload_retention_full"); ("diff", "offload_retention_diff"); ("log", "offload_retention_log")].

Record BackupOffload := mkOffload {
  enabled : bool; server_id : string; folder : string; copy_max_retry : Z; scan : string; delete_source : bool;
  source_share : string; source_username : string; source_password_ref : string;
  retention_full : Z; retention_diff : Z; retention_log : Z;
  files_per_pass : Z; copy_retry_interval_seconds : Z; retry_interval_seconds : Z; run_timeout_seconds : Z;
  copy_timeout_seconds : Z; hash_timeout_seconds : Z; stall_seconds : Z }.

(** A file with no level belongs to the full it travels with. *)
Definition level_of (file_type : string) : option string := assoc (upper file_type) LEVEL_OF_FILE_TYPE.
Definition retention_of (o : BackupOffload) (file_type : string) : Z :=
  match default "full" (level_of file_type) with
  | "full" => retention_full o
  | "diff" => retention_diff o
  | _ => retention_log o
  end.

Definition as_record (o : BackupOffload) : pydict :=
  [("offload_enabled", PBool (enabled o)); ("offload_server_id", PStr (server_id o)); ("offload_folder", PStr (folder o));
   ("offload_copy_max_retry", PInt (copy_max_retry o)); ("offload_scan", PStr (scan o));
   ("offload_delete_source", PBool (delete_source o)); ("offload_source_share", PStr (source_share o));
   ("offload_source_username", PStr (source_username o)); ("offload_source_password_ref", PStr (source_password_ref o));
   ("offload_retention_full", PInt (retention_full o)); ("offload_retention_diff", PInt (retention_diff o));
   ("offload_retention_log", PInt (retention_log o)); ("offload_files_per_pass", PInt (files_per_pass o));
   ("offload_copy_retry_interval_seconds", PInt (copy_retry_interval_seconds o));
   ("offload_retry_interval_seconds", PInt (retry_interval_seconds o));
   ("offload_run_timeout_seconds", PInt (run_timeout_seconds o));
   ("offload_copy_timeout_seconds", PInt (copy_timeout_seconds o));
   ("offload_hash_timeout_seconds", PInt (hash_timeout_seconds o)); ("offload_stall_seconds", PInt (stall_seconds o))].

Inductive offload_error : Type :=
| HalfStated (missing : list string) | NotTrueOrFalse (name : string) | NotText (name : string)
| NotInRange (name : string) | UnknownScanner | RepositoryUnnamed (empty : list string) | ShareWithoutLogin
| OracleOwnsItsPieces | DeletesWithoutACopy | OffloadUnstated | UnknownSide | SideUnstated.

Definition flag (raw : pydict) (name : string) : result offload_error bool :=
  match get raw name with PBool b => Ok b | _ => Err (NotTrueOrFalse name) end.
Definition words (raw : pydict) (name : string) : result offload_error string :=
  match get raw name with PStr s => Ok (strip s) | _ => Err (NotText name) end.
(** A whole number, which a [bool] is not. *)
Definition whole (raw : pydict) (name : string) (low : Z) (high : option Z) : result offload_error Z :=
  match get raw name with
  | PInt n => if (low <=? n) && match high with Some h => n <=? h | None => true end then Ok n else Err (NotInRange name)
  | _ => Err (NotInRange name)
  end.
Definition run_value (raw : pydict) (name : string) : result offload_error Z :=
  match assoc name RUN_FIELD_RANGES with
  | Some (low, high) => whole raw name low high
  | None => Err (NotInRange name)
  end.
(** What the fields may not say together. *)
Definition consistent (db_type : string) (o : BackupOffload) : result offload_error unit :=
  let empty := map fst (List.filter (fun p => String.eqb p.2 "")
    [("offload_server_id", server_id o); ("offload_folder", folder o)]) in
  _ ← raise_when (enabled o && negb (bool_decide (empty = []))) (RepositoryUnnamed empty);
  _ ← raise_when (enabled o && negb (String.eqb (source_share o) "")
        && (String.eqb (source_username o) "" || String.eqb (source_password_ref o) "")) ShareWithoutLogin;
  _ ← raise_when (delete_source o && String.eqb (lower (strip db_type)) "oracle") OracleOwnsItsPieces;
  raise_when (delete_source o && negb (enabled o)) DeletesWithoutACopy.
Definition parse_backup_offload (raw : pydict) (db_type : string) : result offload_error (option BackupOffload) :=
  let names := map fst OFFLOAD_FIELDS in
  match List.filter (has_key raw) names, List.filter (fun n => negb (has_key raw n)) names with
  | [], _ => Ok None
  | _, (_ :: _) as missing => Err (HalfStated missing)
  | _, [] =>
      retry ← whole raw "offload_copy_max_retry" 0 (Some MAX_COPY_MAX_RETRY);
      full ← whole raw "offload_retention_full" 0 None;
      diff ← whole raw "offload_retention_diff" 0 None;
      log ← whole raw "offload_retention_log" 0 None;
      per_pass ← run_value raw "offload_files_per_pass";
      pause ← run_value raw "offload_copy_retry_interval_seconds";
      again ← run_value raw "offload_retry_interval_seconds";
      run_timeout ← run_value raw "offload_run_timeout_seconds";
      copy_timeout ← run_value raw "offload_copy_timeout_seconds";
      hash_timeout ← run_value raw "offload_hash_timeout_seconds";
      stall ← run_value raw "offload_stall_seconds";
      scan ← words raw "offload_scan";
      _ ← raise_when (negb (bool_decide (lower scan ∈ SCANNERS))) UnknownScanner;
      on ← flag raw "offload_enabled";
      server ← words raw "offload_server_id";
      folder ← words raw "offload_folder";
      delete ← flag raw "offload_delete_source";
      share ← words raw "offload_source_share";
      username ← words raw "offload_source_username";
      password_ref ← words raw "offload_source_password_ref";
      let o := mkOffload on server folder retry (lower scan) delete share username password_ref full diff log
                 per_pass pause again run_timeout copy_timeout hash_timeout stall in
      _ ← consistent db_type o;
      Ok (Some o)
  end.
Definition require_backup_offload (o : option BackupOffload) : result offload_error BackupOffload :=
  match o with Some o => Ok o | None => Err OffloadUnstated end.

Definition parse_restore_from (entry : pydict) : result offload_error (option string) :=
  match get entry "restore_from" with
  | PNone => Ok None
  | PStr s => let v := lower (strip s) in if bool_decide (v ∈ RESTORE_FROM) then Ok (Some v) else Err UnknownSide
  | _ => Err UnknownSide
  end.
Definition require_restore_from (v : option string) : result offload_error string :=
  match v with Some s => Ok s | None => Err SideUnstated end.

(** ** [state_offload] *)
Record offload_change := mkOffloadChange { at_entry : string; field : string; added : Z }.
Definition entry_label (id_field list_field : string) (index : nat) (entry : pydict) : string :=
  str (py_or (get entry id_field) (PStr (list_field +:+ "[" +:+ str_of_int (Z.of_nat index) +:+ "]"))).
Definition unstated (entry : pydict) : list (string * pyval) :=
  List.filter (fun p => negb (has_key entry p.1)) OFFLOAD_FIELDS.
Definition state_backup (index : nat) (entry : pydict) : pydict * list offload_change :=
  match unstated entry with
  | [] => (entry, [])
  | missing =>
      let entry' := fold_left (fun e p => assoc_set p.1 p.2 e) missing entry in
      (entry', [mkOffloadChange (entry_label "backup_id" "backups" index entry') "offload_*" (Z.of_nat (length missing))])
  end.
Definition state_restore (index : nat) (entry : pydict) : pydict * list offload_change :=
  if has_key entry "restore_from" then (entry, [])
  else let entry' := assoc_set "restore_from" (PStr STATED_RESTORE_FROM) entry in
       (entry', [mkOffloadChange (entry_label "restore_id" "restores" index entry') "restore_from" 1]).
Fixpoint state_each (body : nat -> pydict -> pydict * list offload_change) (index : nat) (entries : list pyval)
    : list pyval * list offload_change :=
  match entries with
  | [] => ([], [])
  | v :: rest =>
      let '(v, changes) := match v with
        | PDict entry => let '(entry, changes) := body index entry in (PDict entry, changes)
        | _ => (v, [])
        end in
      let '(rest, more) := state_each body (S index) rest in (v :: rest, changes ++ more)
  end.
Definition state_list (name : string) (body : nat -> pydict -> pydict * list offload_change) (section : pydict)
    : pydict * list offload_change :=
  match get section name with
  | PList entries => let '(entries, changes) := state_each body 0 entries in
                     (assoc_set name (PList entries) section, changes)
  | _ => (section, [])
  end.
Definition state_offload (document : pyval) : pyval * list offload_change :=
  match document with
  | PDict doc =>
      match get doc "backup_restore" with
      | PDict section =>
          let '(section, backups) := state_list "backups" state_backup section in
          let '(section, restores) := state_list "restores" state_restore section in
          (PDict (assoc_set "backup_restore" (PDict section) doc), backups ++ restores)
      | _ => (document, [])
      end
  | _ => (document, [])
  end.

(** ** What is read is well formed, and written back reads the same *)
Definition in_range (range : Z * option Z) (n : Z) : bool :=
  (range.1 <=? n) && match range.2 with Some h => n <=? h | None => true end.
Record offload_ok (db_type : string) (o : BackupOffload) : Prop := {
  ok_retry : 0 <= copy_max_retry o <= MAX_COPY_MAX_RETRY;
  ok_retentions : 0 <= retention_full o /\ 0 <= retention_diff o /\ 0 <= retention_log o;
  ok_run : Forall (fun p => in_range p.1 p.2 = true)
    (zip (map snd RUN_FIELD_RANGES)
       [files_per_pass o; copy_retry_interval_seconds o; retry_interval_seconds o; run_timeout_seconds o;
        copy_timeout_seconds o; hash_timeout_seconds o; stall_seconds o]);
  ok_scan : scan o ∈ SCANNERS;
  ok_words : Forall (fun s => strip s = s) [server_id o; folder o; source_share o; source_username o; source_password_ref o];
  ok_named : enabled o = true -> server_id o <> "" /\ folder o <> "";
  ok_login : enabled o = true -> source_share o <> "" -> source_username o <> "" /\ source_password_ref o <> "";
  ok_delete : delete_source o = true -> enabled o = true /\ lower (strip db_type) <> "oracle" }.
