(* ===== verification/OffloadConfigProofs.v ===== *)
(** * An offload that is read is an offload that can be written ([lib/offload.py]).

    Proofs over [OffloadConfig]: what is read is within its ranges and consistent, the record
    written for it reads back to the same offload, and an upgraded entry runs as it ran. *)

From S2P Require Import Prelude Py Integrity OffloadConfig.

Lemma raise_when_seq {E A} b (e : E) (m : result E A) v : (raise_when b e ≫= fun _ => m) = Ok v <-> b = false /\ m = Ok v.
Proof. destruct b; cbn; naive_solver. Qed.
Lemma whole_ok raw name low high n : whole raw name low high = Ok n ->
  get raw name = PInt n /\ low <= n /\ match high with Some h => n <= h | None => True end.
Proof.
  unfold whole. destruct (get raw name); try done. destruct (_ && _) eqn:E; [|done]. intros [= ->].
  apply andb_true_iff in E as [E1 E2]. split; [done|]. split; [lia|]. destruct high; [lia|done].
Qed.
Lemma words_ok raw name s : words raw name = Ok s -> exists t, get raw name = PStr t /\ s = strip t.
Proof. unfold words. destruct (get raw name); try done. intros [= <-]. eauto. Qed.
Lemma flag_ok raw name b : flag raw name = Ok b -> get raw name = PBool b.
Proof. unfold flag. by destruct (get raw name); intros [= <-]. Qed.
Lemma consistent_ok db_type o u : consistent db_type o = Ok u ->
  (enabled o = true -> server_id o <> "" /\ folder o <> "")
  /\ (enabled o = true -> source_share o <> "" -> source_username o <> "" /\ source_password_ref o <> "")
  /\ (delete_source o = true -> enabled o = true /\ lower (strip db_type) <> "oracle").
Proof.
  unfold consistent. rewrite !raise_when_seq, raise_when_ok. cbn [List.filter snd fst map].
  destruct (enabled o), (delete_source o), (String.eqb_spec (server_id o) ""), (String.eqb_spec (folder o) ""),
    (String.eqb_spec (source_share o) ""), (String.eqb_spec (source_username o) ""),
    (String.eqb_spec (source_password_ref o) ""), (String.eqb_spec (lower (strip db_type)) "oracle"); cbn;
    intros (H1 & H2 & H3 & H4); try discriminate; naive_solver.
Qed.
Lemma run_value_ok raw name n : run_value raw name = Ok n ->
  exists range, assoc name RUN_FIELD_RANGES = Some range /\ get raw name = PInt n /\ in_range range n = true.
Proof.
  unfold run_value. destruct (assoc name _) as [[low high]|]; [|done]. intros (Hg & Hl & Hh)%whole_ok.
  exists (low, high). split; [done|]. split; [done|]. unfold in_range. cbn. apply andb_true_iff. split; [lia|].
  destruct high; [lia|done].
Qed.

Lemma parse_ok raw db_type o : parse_backup_offload raw db_type = Ok (Some o) -> offload_ok db_type o.
Proof.
  unfold parse_backup_offload. set (l := List.filter (has_key raw) _). destruct l as [|n l]; [done|].
  destruct (List.filter (fun n => negb (has_key raw n)) _); [|done].
  intros H. repeat (apply result_bind_ok in H as (? & ? & H)). injection H as <-.
  repeat match goal with
  | H : whole _ _ _ _ = Ok _ |- _ => apply whole_ok in H as (_ & ? & ?)
  | H : run_value _ _ = Ok _ |- _ => apply run_value_ok in H as (? & [= <-] & _ & ?)
  | H : words _ _ = Ok _ |- _ => apply words_ok in H as (? & _ & ->)
  | H : raise_when _ _ = Ok _ |- _ => apply raise_when_ok, negb_false_iff, bool_decide_eq_true in H
  | H : consistent _ _ = Ok _ |- _ => apply consistent_ok in H as (? & ? & ?)
  end.
  constructor; cbn; try done; try lia.
  - by repeat constructor.
  - by repeat (constructor; [apply strip_idemp|]).
Qed.

Lemma in_range_says low high n : low <= n -> match high with Some h => n <= h | None => True end ->
  in_range (low, high) n = true.
Proof. intros Hl Hh. unfold in_range. cbn. apply andb_true_iff. split; [lia|]. destruct high; [lia|done]. Qed.
Lemma whole_says raw name range n : get raw name = PInt n -> in_range range n = true ->
  whole raw name range.1 range.2 = Ok n.
Proof. intros Hg Hr. unfold whole. rewrite Hg. unfold in_range in Hr. by rewrite Hr. Qed.
Lemma run_value_says raw name range n : get raw name = PInt n -> assoc name RUN_FIELD_RANGES = Some range ->
  in_range range n = true -> run_value raw name = Ok n.
Proof. intros Hg Ha Hr. unfold run_value. rewrite Ha. destruct range as [low high]. unfold whole. rewrite Hg. unfold in_range in Hr. cbn in Hr. by rewrite Hr. Qed.
Lemma words_says raw name s : get raw name = PStr s -> strip s = s -> words raw name = Ok s.
Proof. intros Hg Hs. unfold words. by rewrite Hg, Hs. Qed.
Lemma consistent_says db_type o : offload_ok db_type o -> consistent db_type o = Ok tt.
Proof.
  intros [_ _ _ _ _ Hn Hl Hd]. unfold consistent. cbn [List.filter snd fst map].
  destruct (enabled o), (delete_source o), (String.eqb_spec (server_id o) ""), (String.eqb_spec (folder o) ""),
    (String.eqb_spec (source_share o) ""), (String.eqb_spec (source_username o) ""),
    (String.eqb_spec (source_password_ref o) ""), (String.eqb_spec (lower (strip db_type)) "oracle"); cbn; try done;
    exfalso; naive_solver.
Qed.
Lemma scanner_says s : s ∈ SCANNERS -> strip s = s /\ lower s = s.
Proof. unfold SCANNERS. rewrite !list.elem_of_cons. intros [->|[->|[]%not_elem_of_nil]]; done. Qed.
Lemma record_reads o db_type : offload_ok db_type o -> parse_backup_offload (as_record o) db_type = Ok (Some o).
Proof.
  intros Hok. pose proof (consistent_says _ _ Hok) as Hc. destruct Hok as [Hr (H1 & H2 & H3) Hrun Hs Hw _ _ _].
  destruct (scanner_says _ Hs) as [Hss Hsl]. destruct Hr as [Hr0 Hr1].
  repeat (apply list.Forall_cons in Hrun as [? Hrun]). repeat (apply list.Forall_cons in Hw as [? Hw]).
  unfold parse_backup_offload. cbn [OFFLOAD_FIELDS map fst].
  change (List.filter (has_key (as_record o)) _) with (map fst OFFLOAD_FIELDS).
  change (List.filter (fun n => negb (has_key (as_record o) n)) _) with (@nil string). cbn [OFFLOAD_FIELDS map fst].
  rewrite (whole_says _ "offload_copy_max_retry" (0, Some MAX_COPY_MAX_RETRY) (copy_max_retry o)), bind_ok by (done || by apply in_range_says).
  rewrite (whole_says _ "offload_retention_full" (0, None) (retention_full o)), bind_ok by (done || by apply in_range_says).
  rewrite (whole_says _ "offload_retention_diff" (0, None) (retention_diff o)), bind_ok by (done || by apply in_range_says).
  rewrite (whole_says _ "offload_retention_log" (0, None) (retention_log o)), bind_ok by (done || by apply in_range_says).
  rewrite (run_value_says _ "offload_files_per_pass" (1, Some 10000) (files_per_pass o)), bind_ok by done.
  rewrite (run_value_says _ "offload_copy_retry_interval_seconds" (0, Some 3600) (copy_retry_interval_seconds o)), bind_ok by done.
  rewrite (run_value_says _ "offload_retry_interval_seconds" (0, None) (retry_interval_seconds o)), bind_ok by done.
  rewrite (run_value_says _ "offload_run_timeout_seconds" (60, None) (run_timeout_seconds o)), bind_ok by done.
  rewrite (run_value_says _ "offload_copy_timeout_seconds" (60, None) (copy_timeout_seconds o)), bind_ok by done.
  rewrite (run_value_says _ "offload_hash_timeout_seconds" (60, None) (hash_timeout_seconds o)), bind_ok by done.
  rewrite (run_value_says _ "offload_stall_seconds" (10, Some 86400) (stall_seconds o)), bind_ok by done.
  rewrite (words_says _ "offload_scan" (scan o)), bind_ok, Hsl, (bool_decide_true _ Hs) by done. cbn [negb raise_when]. rewrite bind_ok.
  change (flag (as_record o) "offload_enabled") with (@Ok offload_error _ (enabled o)).
  change (flag (as_record o) "offload_delete_source") with (@Ok offload_error _ (delete_source o)). rewrite bind_ok.
  rewrite (words_says _ "offload_server_id" (server_id o)), bind_ok by done. rewrite (words_says _ "offload_folder" (folder o)), !bind_ok by done.
  rewrite (words_says _ "offload_source_share" (source_share o)), bind_ok by done. rewrite (words_says _ "offload_source_username" (source_username o)), bind_ok by done.
  rewrite (words_says _ "offload_source_password_ref" (source_password_ref o)), bind_ok by done. cbv zeta.
  assert (o = mkOffload (enabled o) (server_id o) (folder o) (copy_max_retry o) (scan o) (delete_source o) (source_share o)
    (source_username o) (source_password_ref o) (retention_full o) (retention_diff o) (retention_log o) (files_per_pass o)
    (copy_retry_interval_seconds o) (retry_interval_seconds o) (run_timeout_seconds o) (copy_timeout_seconds o)
    (hash_timeout_seconds o) (stall_seconds o)) as <- by by destruct o.
  by rewrite Hc.
Qed.

(** C33: An offload that is read is well formed: numbers in their ranges, texts stripped, a
    known scanner, a named repository when it is on, a login for a share, no deletion without a
    copy nor on Oracle; and the record it is written as reads back as the same offload. *)
Theorem an_offload_reads_as_it_is_written raw db_type o : parse_backup_offload raw db_type = Ok (Some o) ->
  offload_ok db_type o /\ parse_backup_offload (as_record o) db_type = Ok (Some o).
Proof. intros H%parse_ok. split; [done|by apply record_reads]. Qed.
Definition lab_offload : pydict :=
  assoc_set "offload_enabled" (PBool true) (assoc_set "offload_server_id" (PStr " repo ")
    (assoc_set "offload_folder" (PStr "/repo") (assoc_set "offload_delete_source" (PBool true)
      (assoc_set "offload_scan" (PStr "NONE") OFFLOAD_FIELDS)))).
Theorem offload_witness : exists o, parse_backup_offload lab_offload "sqlserver" = Ok (Some o)
  /\ server_id o = "repo" /\ parse_backup_offload (as_record o) "sqlserver" = Ok (Some o).
Proof.
  eexists. split; [vm_compute; reflexivity|]. split; [vm_compute; reflexivity|].
  apply (an_offload_reads_as_it_is_written lab_offload "sqlserver"). vm_compute. reflexivity.
Defined.

(** ** What [upgrade-config] writes *)
Lemma set_each_get (l e : pydict) k : NoDup (map fst l) ->
  assoc k (fold_left (fun e p => assoc_set p.1 p.2 e) l e)
  = match assoc k l with Some v => Some v | None => assoc k e end.
Proof.
  revert e. induction l as [|[n v] l IH]; intros e; [done|]. cbn [map fst fold_left snd assoc].
  intros [Hn Hnd]%list.NoDup_cons. rewrite IH by done. destruct (String.eqb_spec k n) as [->|Hne].
  - assert (assoc n l = None) as ->; [|by rewrite assoc_set_eq].
    destruct (assoc n l) eqn:E; [|done]. apply assoc_elem in E; [|done]. destruct Hn. apply list_elem_of_fmap. by exists (n, p).
  - by rewrite assoc_set_ne by congruence.
Qed.
Lemma fields_names : NoDup (map fst OFFLOAD_FIELDS).
Proof. apply (bool_decide_unpack _). by vm_compute. Qed.
Lemma unstated_assoc e k : assoc k (unstated e) = if has_key e k then None else assoc k OFFLOAD_FIELDS.
Proof.
  unfold unstated. generalize OFFLOAD_FIELDS. intros l. induction l as [|[n v] l IH]; cbn; [by destruct (has_key e k)|].
  destruct (String.eqb_spec k n) as [->|Hne].
  - destruct (has_key e n) eqn:E; cbn; [exact IH|]. by rewrite String.eqb_refl.
  - destruct (has_key e n) eqn:E; cbn; [exact IH|]. by rewrite (proj2 (String.eqb_neq _ _) Hne).
Qed.
(** What is stated stays, and every field is stated: the value an entry ran with before. *)
Lemma stated_fields index entry k : let entry' := (state_backup index entry).1 in
  assoc k entry' = match assoc k entry with Some v => Some v | None => assoc k OFFLOAD_FIELDS end.
Proof.
  cbn zeta. unfold state_backup. assert (Hnd : NoDup (map fst (unstated entry))).
  { unfold unstated. eapply sublist_NoDup; [apply fields_names|apply map_filter_sublist]. }
  pose proof (set_each_get (unstated entry) entry k Hnd) as H. rewrite unstated_assoc in H. unfold has_key in H.
  destruct (unstated entry) as [|p l]; cbn [fst].
  - cbn [fold_left] in H. rewrite H at 1. destruct (assoc k entry); [done|]. by destruct (assoc k OFFLOAD_FIELDS).
  - rewrite H. destruct (assoc k entry); [done|]. by destruct (assoc k OFFLOAD_FIELDS).
Qed.
Definition off : BackupOffload := mkOffload false "" "" 3 "none" false "" "" "" 0 0 0 100 30 3600 86400 86400 21600 300.
Lemma an_upgraded_entry_runs_as_it_ran index entry db_type :
  List.filter (has_key entry) (map fst OFFLOAD_FIELDS) = [] ->
  parse_backup_offload (state_backup index entry).1 db_type = Ok (Some off).
Proof.
  intros Hnone. set (e := (state_backup index entry).1).
  assert (He : forall k v, assoc k OFFLOAD_FIELDS = Some v -> assoc k e = Some v).
  { intros k v Hv. unfold e. rewrite stated_fields, Hv. destruct (assoc k entry) eqn:E; [|done].
    assert (k ∈ List.filter (has_key entry) (map fst OFFLOAD_FIELDS)) as Hin.
    { apply elem_of_filter_bool. split; [|unfold has_key; by rewrite E].
      apply list_elem_of_fmap. exists (k, v). split; [done|]. apply assoc_elem; [apply fields_names|done]. }
    rewrite Hnone in Hin. by apply not_elem_of_nil in Hin. }
  assert (Hg : forall k v, assoc k OFFLOAD_FIELDS = Some v -> get e k = v) by (intros k v Hv; unfold get; by rewrite (He k v Hv)).
  assert (Hall : forall k v, assoc k OFFLOAD_FIELDS = Some v -> has_key e k = true) by (intros k v Hv; unfold has_key; by rewrite (He k v Hv)).
  assert (Hk : List.filter (has_key e) (map fst OFFLOAD_FIELDS) = map fst OFFLOAD_FIELDS).
  { apply filter_true. intros k (p & -> & Hp)%list_elem_of_fmap. apply (Hall _ p.2), assoc_elem; [apply fields_names|by destruct p]. }
  assert (Hn : List.filter (fun n => negb (has_key e n)) (map fst OFFLOAD_FIELDS) = []).
  { apply filter_false. intros k (p & -> & Hp)%list_elem_of_fmap. rewrite (Hall _ p.2); [done|].
    apply assoc_elem; [apply fields_names|by destruct p]. }
  unfold parse_backup_offload. rewrite Hk, Hn. cbn [OFFLOAD_FIELDS map fst].
  unfold whole, run_value, words, flag, whole. repeat match goal with |- context [get e ?k] => rewrite (Hg k _ eq_refl) end.
  cbn -[consistent lower strip].
  unfold consistent. cbn. reflexivity.
Qed.
