(* ===== verification/Offload.v ===== *)
(** * The repository copy's rules ([backup_restore/offload.py]): where a copy goes, what may be
    released on the server, what has outlived its retention on the repository.

    A row is a row of the catalog, an entry the fields its jobs share.  The pass works on a
    catalog and a machine; the hashers, the copies and the listings are what the transport
    answers.  A refusal keeps what it is about, not its sentence. *)

From S2P Require Import Prelude Py PyTime Integrity DeleteFiles SqlTable BackupCatalog OffloadConfig.

(** ** Entries *)
Record Job := mkJob { j_backup_id : string; j_server_id : string; j_db_type : string; j_backup_dir : string;
  j_active : bool; j_offload : option BackupOffload }.
Record Entry := mkEntry { e_backup_id : string; e_server_id : string; e_db_type : string; e_backup_dir : string;
  e_offload : BackupOffload; e_jobs : list Job }.
(** A [dict] of lists: a key where it was first met. *)
Definition add_to {A} (k : string) (v : A) (d : list (string * list A)) : list (string * list A) :=
  assoc_set k (default [] (assoc k d) ++ [v]) d.
Definition group_by {A} (f : A -> string) (l : list A) : list (string * list A) :=
  fold_left (fun d v => add_to (f v) v d) l [].
Definition entry_of (backup_id : string) (jobs : list Job) : option Entry :=
  match jobs with
  | [] => None
  | j :: _ =>
      match j_offload j with
      | Some o => if enabled o && existsb j_active jobs
                  then Some (mkEntry backup_id (j_server_id j) (j_db_type j) (j_backup_dir j) o jobs) else None
      | None => None
      end
  end.
Definition entries_to_offload (jobs : list Job) : list Entry :=
  omap (fun g => entry_of g.1 g.2) (group_by j_backup_id jobs).

Inductive refusal_reason := ScannerNotBuilt | SameServer | FolderNotAbsolute.
Definition refusal (e : Entry) : option refusal_reason :=
  let o := e_offload e in
  if negb (String.eqb (scan o) "none") then Some ScannerNotBuilt
  else if String.eqb (server_id o) (e_server_id e) then Some SameServer
  else if negb (startswith (folder o) "/") then Some FolderNotAbsolute
  else None.

(** ** Paths *)
Definition slashed (s : string) : string := rstrip_chars "/" (replace_char "\" "/" s).
Definition second_is_colon (s : string) : bool :=
  match chars s with _ :: c :: _ => bool_decide (c = ":"%char) | _ => false end.
(** [s[n:]] *)
Definition str_drop (n : nat) (s : string) : string := text (drop n (chars s)).
Definition _relative (file_path root : string) : string :=
  let windows := contains "\" file_path || second_is_colon file_path in
  let path := slashed file_path in
  let base := slashed root in
  if String.eqb base "" then ""
  else
    let '(probe, prefix) := if windows then (lower path, lower base) else (path, base) in
    if startswith probe (prefix +:+ "/") then str_drop (str_len base + 1) path else "".
(** [posixpath.join]. *)
Definition posix_add (path part : string) : string :=
  if startswith part "/" then part
  else if String.eqb path "" || endswith path "/" then path +:+ part else path +:+ "/" +:+ part.
Definition posix_join (path : string) (parts : list string) : string := fold_left posix_add parts path.
Definition fence (e : Entry) : string := posix_join (rstrip_chars "/" (folder (e_offload e))) [e_server_id e].

Definition relative_of (e : Entry) (r : pydict) : string := _relative (text_in r "file_path") (e_backup_dir e).
Definition elsewhere (r : pydict) : string :=
  str (py_or (py_or (get r "database_name") (get r "file_type")) (PStr "files")) +:+ "/" +:+ str (get r "file_name").
Definition repository_path (e : Entry) (r : pydict) : string :=
  let relative := relative_of e r in
  let relative := if String.eqb relative "" then elsewhere r else relative in
  posix_join (rstrip_chars "/" (folder (e_offload e))) [e_server_id e; relative].

Definition _is_windows (e : Entry) : bool :=
  negb (String.eqb (source_share (e_offload e)) "") || second_is_colon (e_backup_dir e).
(** [path[:path.rfind("/" or "\")]], the path itself where there is nothing before it. *)
Definition folder_of (path : string) : string :=
  match drop_while (fun c => negb (is_slash c)) (reverse (chars path)) with
  | [] | [_] => path
  | _ :: l => text (reverse l)
  end.
Definition host_path (r : pydict) : string := str (py_or (py_or (get r "host_path") (get r "file_path")) (PStr "")).
Definition _source_root (r : pydict) (e : Entry) : string :=
  let relative := relative_of e r in
  if String.eqb relative "" then
    folder_of (if _is_windows e then str (get r "file_path") else host_path r)
  else if _is_windows e then e_backup_dir e
  else
    let tail := "/" +:+ relative in
    if endswith (host_path r) tail then str_take (str_len (host_path r) - str_len tail) (host_path r)
    else e_backup_dir e.

(** ** The repository's retention *)
Definition at_ (r : pydict) : string := str (py_or (py_or (get r "backup_ended_at") (get r "created_at")) (PStr "")).
Definition file_type (r : pydict) : string := str (get r "file_type").
Definition start_of (r : pydict) : string := str (py_or (get r "chain_start") (PStr (at_ r))).
Definition level (r : pydict) : option string := level_of (file_type r).
Definition is_full (r : pydict) : bool := bool_decide (level r = Some "full").
Definition is_dependent (r : pydict) : bool := match level r with Some l => bool_decide (l ∈ ["diff"; "log"]) | None => false end.
Definition is_certificate (r : pydict) : bool := negb (bool_decide (is_Some (level r))) && String.eqb (upper (file_type r)) "CERT".
Definition file_name (r : pydict) : string := str (get r "file_name").
Definition earlier (a b : pydict) : bool :=
  if str_lt (at_ a) (at_ b) then true else if str_lt (at_ b) (at_ a) then false else id_leb backup_files a b.

Section expiry.
Variable o : BackupOffload.
Variable now : Z.   (* microseconds *)

(** Past its level's retention: the age of a copy whose end is read as a date. *)
Definition old (r : pydict) : result pyexn bool :=
  let keep_for := retention_of o (file_type r) in
  if (keep_for <=? 0) || String.eqb (at_ r) "" then Ok false
  else match strptime_t (str_take 19 (at_ r)) with
       | Some ended => Ok (seconds keep_for <? now - ended)
       | None => Err ValueError
       end.
Fixpoint old_of (l : list pydict) : result pyexn (list pydict) :=
  match l with
  | [] => Ok []
  | r :: l => b ← old r; l ← old_of l; Ok (if (b : bool) then r :: l else l)
  end.
Fixpoint all_old (l : list pydict) : result pyexn bool :=
  match l with
  | [] => Ok true
  | r :: l => b ← old r; if (b : bool) then all_old l else Ok false
  end.

Inductive kept_reason := NoFull (database : string) | Certificate (name : string) | NoFullOfItsRun (name : string)
| StillNeeded (names : list string).
Record Chains := mkChains { members : list (string * list pydict); dependents : list (string * list pydict);
  expire : list pydict; kept : list kept_reason }.
(** [max((s for s in starts if s <= at), default=None)]. *)
Definition latest (l : list string) : option string :=
  fold_left (fun best s => Some (match best with Some b => str_max b s | None => s end)) l (@None string).
Definition owner (starts : list string) (moment : string) : option string :=
  latest (List.filter (fun s => String.leb s moment) starts).
Definition classify (starts : list string) (c : Chains) (r : pydict) : result pyexn Chains :=
  if is_certificate r then Ok (mkChains (members c) (dependents c) (expire c) (kept c ++ [Certificate (file_name r)]))
  else match level r with
  | None =>
      match assoc (start_of r) (members c) with
      | Some _ => Ok (mkChains (add_to (start_of r) r (members c)) (dependents c) (expire c) (kept c))
      | None => Ok (mkChains (members c) (dependents c) (expire c) (kept c ++ [NoFullOfItsRun (file_name r)]))
      end
  | Some _ =>
      if is_dependent r then
        match owner starts (at_ r) with
        | None => b ← old r;
            Ok (mkChains (members c) (dependents c) (if (b : bool) then expire c ++ [r] else expire c) (kept c))
        | Some s => Ok (mkChains (members c) (add_to s r (dependents c)) (expire c) (kept c))
        end
      else Ok c
  end.
Definition of_chain (start : string) (d : list (string * list pydict)) : list pydict := default [] (assoc start d).
Definition close_chain (newest : string) (c : Chains) (start : string) : result pyexn Chains :=
  if String.leb newest start then Ok c
  else
    let needs := of_chain start (dependents c) in
    let unit_ := of_chain start (members c) in
    gone ← old_of needs;
    all ← all_old unit_;
    let with_gone := expire c ++ gone in
    Ok (if negb (all : bool) then mkChains (members c) (dependents c) with_gone (kept c)
        else if (length gone <? length needs)%nat
        then mkChains (members c) (dependents c) with_gone (kept c ++ [StillNeeded (map file_name unit_)])
        else mkChains (members c) (dependents c) (with_gone ++ unit_) (kept c)).
Definition expire_database (database : string) (copies : list pydict) : result pyexn (list pydict * list kept_reason) :=
  let copies := sort_by earlier copies in
  let groups := group_by start_of (List.filter is_full copies) in
  let starts := sort_by String.leb (map fst groups) in
  match list.last starts with
  | None => Ok ([], match copies with [] => [] | _ => [NoFull database] end)
  | Some newest =>
      c ← foldM (classify starts) (mkChains groups [] [] []) copies;
      c ← foldM (close_chain newest) c starts;
      Ok (expire c, kept c)
  end.
Definition expiry_plan (rows : list pydict) : result pyexn (list pydict * list kept_reason) :=
  foldM (fun plan g => '(gone, why) ← expire_database g.1 g.2; Ok (plan.1 ++ gone, plan.2 ++ why))
    ([], []) (group_by (fun r => text_in r "database_name") rows).
End expiry.
