(* ===== verification/OffloadExpiryProofs.v ===== *)
(** * What expires on the repository: proofs over [Offload].

    The plan read off the rows, against what it says of them: [outlived] names no group, no order
    and no loop. *)

From S2P Require Import Prelude Py PyTime Integrity DeleteFiles SqlTable BackupCatalog OffloadConfig Offload.

(** ** Groups *)
Lemma of_chain_add {A} k k' (v : A) d : default [] (assoc k (add_to k' v d)) =
  default [] (assoc k d) ++ (if String.eqb k k' then [v] else []).
Proof.
  unfold add_to. destruct (String.eqb_spec k k') as [->|Hne]; [by rewrite assoc_set_eq|].
  rewrite assoc_set_ne by done. by rewrite app_nil_r.
Qed.
Lemma add_to_keys {A} k (v : A) d : (exists w, assoc k d = Some w) -> map fst (add_to k v d) = map fst d.
Proof.
  intros [w Hw]. unfold add_to. rewrite assoc_set_keys. destruct (existsb _ _) eqn:E; [done|].
  apply not_true_iff_false in E. destruct E. apply existsb_exists. exists k. split; [|apply String.eqb_refl].
  clear -Hw. induction d as [|[k' x] d IH]; [done|]. cbn in *. destruct (String.eqb_spec k k'); [by left|right; auto].
Qed.
Lemma group_by_snoc {A} (f : A -> string) l x : group_by f (l ++ [x]) = add_to (f x) x (group_by f l).
Proof. unfold group_by. by rewrite fold_left_app. Qed.
Lemma group_by_assoc {A} (f : A -> string) l k : assoc k (group_by f l) =
  match List.filter (fun x => String.eqb (f x) k) l with [] => None | g => Some g end.
Proof.
  induction l as [|x l IH] using rev_ind; [done|]. rewrite group_by_snoc, List.filter_app. cbn [List.filter].
  unfold add_to. destruct (String.eqb_spec (f x) k) as [<-|Hne].
  - rewrite assoc_set_eq, IH. by destruct (List.filter _ l).
  - rewrite assoc_set_ne, IH, app_nil_r by congruence. done.
Qed.
Lemma group_by_NoDup {A} (f : A -> string) l : NoDup (map fst (group_by f l)).
Proof.
  induction l as [|x l IH] using rev_ind; [constructor|]. rewrite group_by_snoc. by apply assoc_set_NoDup.
Qed.
Lemma group_by_elem {A} (f : A -> string) l k g : (k, g) ∈ group_by f l ->
  g = List.filter (fun x => String.eqb (f x) k) l.
Proof.
  intros H%assoc_elem; [|apply group_by_NoDup]. rewrite group_by_assoc in H.
  destruct (List.filter _ l); [done|]. by injection H.
Qed.
Lemma group_by_has {A} (f : A -> string) l x : x ∈ l ->
  (f x, List.filter (fun y => String.eqb (f y) (f x)) l) ∈ group_by f l.
Proof.
  intros Hx. apply assoc_elem; [apply group_by_NoDup|]. rewrite group_by_assoc.
  assert (x ∈ List.filter (fun y => String.eqb (f y) (f x)) l) as Hin by (apply elem_of_filter_bool; split; [done|apply String.eqb_refl]).
  destruct (List.filter _ l); [by apply not_elem_of_nil in Hin|done].
Qed.
Lemma group_by_key {A} (f : A -> string) l k : k ∈ map fst (group_by f l) <-> exists x, x ∈ l /\ f x = k.
Proof.
  rewrite list_elem_of_fmap. split.
  - intros ([k' g] & -> & H). pose proof (group_by_elem _ _ _ _ H) as Hg. cbn.
    apply assoc_elem in H; [|apply group_by_NoDup]. rewrite group_by_assoc in H.
    destruct (List.filter _ l) as [|x g'] eqn:E; [done|]. exists x.
    assert (x ∈ List.filter (fun x => String.eqb (f x) k') l) as Hx by (rewrite E; by left).
    apply elem_of_filter_bool in Hx as [? ?%String.eqb_eq]. done.
  - intros (x & Hx & <-). eexists. split; [|by apply group_by_has]. done.
Qed.

(** ** The newest of some texts *)
Lemma latest_none l : latest l = None <-> l = [].
Proof.
  split; [|by intros ->]. destruct l as [|s l _] using rev_ind; [done|]. unfold latest. by rewrite fold_left_app.
Qed.
Lemma latest_some l s : latest l = Some s <-> s ∈ l /\ forall s', s' ∈ l -> String.leb s' s = true.
Proof.
  assert (H : forall l s, latest l = Some s -> s ∈ l /\ forall s', s' ∈ l -> String.leb s' s = true).
  { clear. induction l as [|x l IH] using rev_ind; intros s; [done|]. unfold latest. rewrite fold_left_app. cbn.
    fold (latest l). intros [= <-]. destruct (latest l) as [b|] eqn:E.
    - destruct (IH b eq_refl) as [Hin Hle]. split.
      + apply elem_of_app. destruct (str_max_cases b x) as [->| ->]; [by left|right; by left].
      + intros s' [H|[->|[]%not_elem_of_nil]%list.elem_of_cons]%elem_of_app; [|apply str_max_ge_r].
        eapply leb_trans; [by apply Hle|apply str_max_ge_l].
    - apply latest_none in E as ->. split; [by left|]. intros s' [->|[]%not_elem_of_nil]%list.elem_of_cons. apply leb_refl. }
  split; [apply H|]. intros [Hin Hle]. destruct (latest l) as [b|] eqn:E.
  - destruct (H _ _ E) as [Hb Hb']. f_equal. apply String.leb_antisym; auto.
  - apply latest_none in E as ->. by apply not_elem_of_nil in Hin.
Qed.
Lemma owner_none starts m : owner starts m = None <-> forall s, s ∈ starts -> str_lt m s = true.
Proof.
  unfold owner. rewrite latest_none. split.
  - intros H s Hs. apply str_lt_not_leb. destruct (String.leb s m) eqn:E; [|done].
    assert (s ∈ List.filter (fun s => String.leb s m) starts) as Hin by by apply elem_of_filter_bool.
    rewrite H in Hin. by apply not_elem_of_nil in Hin.
  - intros H. apply filter_false. intros s Hs. by apply str_lt_not_leb, H.
Qed.
Lemma owner_some starts m s : owner starts m = Some s <->
  s ∈ starts /\ String.leb s m = true /\ forall s', s' ∈ starts -> String.leb s' m = true -> String.leb s' s = true.
Proof.
  unfold owner. rewrite latest_some, elem_of_filter_bool. split.
  - intros [[Hs Hm] H]. split_and!; try done. intros s' Hs' Hm'. apply H, elem_of_filter_bool. done.
  - intros (Hs & Hm & H). split_and!; try done. intros s' [? ?]%elem_of_filter_bool. auto.
Qed.

(** ** The levels *)
Lemma level_cases r : {level r = None} + {level r = Some "full"} + {is_dependent r = true /\ is_full r = false}.
Proof.
  unfold is_dependent, is_full, level, level_of. destruct (assoc _ _) as [l|] eqn:E; [|left; left; done].
  unfold LEVEL_OF_FILE_TYPE in E. cbn in E.
  repeat (destruct (String.eqb _ _) in E; [injection E as <-; (by left; right) || (right; by split)|]). done.
Defined.
Lemma full_level r : is_full r = true <-> level r = Some "full".
Proof. unfold is_full. apply bool_decide_eq_true. Qed.
Lemma full_not_dependent r : is_full r = true -> is_dependent r = false.
Proof. intros H%full_level. unfold is_dependent. by rewrite H. Qed.
Lemma certificate_level r : is_certificate r = true -> level r = None.
Proof. unfold is_certificate. destruct (level r); [done|done]. Qed.
Lemma dependent_level r : is_dependent r = true -> exists l, level r = Some l /\ l <> "full".
Proof. unfold is_dependent. destruct (level r) as [l|]; [|done]. intros H%bool_decide_eq_true. exists l. set_solver. Qed.

(** What is in no level travels with the full of its run: a control file, an spfile. *)
Definition travels (r : pydict) : bool := negb (is_dependent r) && negb (is_certificate r).

(** ** What has outlived its retention *)
Section plan.
Variable o : BackupOffload.
Variable now : Z.
Definition past (r : pydict) : Prop := old o now r = Ok true.
Definition dated (r : pydict) : Prop := exists b, old o now r = Ok b.

Lemma old_of_spec l gone : old_of o now l = Ok gone -> (forall r, r ∈ gone <-> r ∈ l /\ past r)
  /\ ((length gone < length l)%nat \/ Forall past l /\ gone = l).
Proof.
  revert gone. induction l as [|r l IH]; intros gone; cbn.
  - intros [= <-]. split; [set_solver|by right].
  - intros (b & Hb & (g & Hg & [= <-])%result_bind_ok)%result_bind_ok. destruct (IH g Hg) as [Hin Hlen]. split.
    + intros x. destruct b; cbn; rewrite !list.elem_of_cons, ?Hin; [|intuition congruence].
      intuition (subst; auto).
    + destruct b; cbn; [|left; destruct Hlen as [?|[_ ->]]; lia].
      destruct Hlen as [?|[? ->]]; [left; lia|right]. split; [by constructor|done].
Qed.
Lemma all_old_spec l b : all_old o now l = Ok b -> if b then Forall past l else ~ Forall past l.
Proof.
  induction l as [|r l IH]; cbn; [by intros [= <-]|]. intros (c & Hc & H)%result_bind_ok. destruct c.
  - specialize (IH H). destruct b; [by constructor|]. intros [_ ?]%list.Forall_cons. done.
  - injection H as <-. intros [Hp _]%list.Forall_cons. unfold past in Hp. congruence.
Qed.
Lemma old_of_total l : Forall dated l -> exists gone, old_of o now l = Ok gone.
Proof.
  induction 1 as [|r l [b Hb] _ [g Hg]]; [by exists []|]. cbn. rewrite Hb, bind_ok, Hg, bind_ok. eauto.
Qed.
Lemma all_old_total l : Forall dated l -> exists b, all_old o now l = Ok b.
Proof.
  induction 1 as [|r l [b Hb] _ [g Hg]]; [by exists true|]. cbn. rewrite Hb, bind_ok. destruct b; eauto.
Qed.

(** ** The copies of a database, by chain *)
Record sorted_out (groups : list (string * list pydict)) (starts : list string) (l : list pydict) (c : Chains) : Prop := {
  so_members : forall s r, r ∈ of_chain s (members c) <->
    r ∈ of_chain s groups \/ (s ∈ map fst groups) /\ r ∈ l /\ level r = None /\ is_certificate r = false /\ start_of r = s;
  so_keys : map fst (members c) = map fst groups;
  so_dependents : forall s r, r ∈ of_chain s (dependents c) <->
    r ∈ l /\ is_dependent r = true /\ owner starts (at_ r) = Some s;
  so_expire : forall r, r ∈ expire c <-> r ∈ l /\ is_dependent r = true /\ owner starts (at_ r) = None /\ past r }.
Lemma keys_assoc {A} k (d : list (string * A)) : k ∈ map fst d <-> exists v, assoc k d = Some v.
Proof.
  induction d as [|[k' v] d IH]; cbn; [split; [by intros ?%not_elem_of_nil|naive_solver]|].
  rewrite list.elem_of_cons, IH. destruct (String.eqb_spec k k'); naive_solver.
Qed.
Lemma snoc_iff {A} (x : A) l P : (P x -> False) -> forall r, (r ∈ l ++ [x] /\ P r) <-> r ∈ l /\ P r.
Proof. intros Hx r. rewrite elem_of_app, list_elem_of_singleton. naive_solver. Qed.

Lemma classify_step groups starts l c r c' : sorted_out groups starts l c -> classify o now starts c r = Ok c' ->
  sorted_out groups starts (l ++ [r]) c'.
Proof.
  intros [Hm Hk Hd He]. unfold classify. destruct (is_certificate r) eqn:Hc.
  { intros [= <-]. pose proof (certificate_level r Hc) as Hl. assert (is_dependent r = false) by (unfold is_dependent; by rewrite Hl).
    split; cbn [members dependents expire]; [intros s x; rewrite Hm|done|intros s x; rewrite Hd|intros x; rewrite He];
      rewrite elem_of_app, list_elem_of_singleton; intuition (subst; congruence). }
  destruct (level_cases r) as [[Hl|Hl]|[Hdep Hnf]].
  - assert (Hnd : is_dependent r = false) by (unfold is_dependent; by rewrite Hl). rewrite Hl.
    destruct (assoc (start_of r) (members c)) as [g|] eqn:Hg; intros [= <-]; split; cbn [members dependents expire].
    + intros s x. unfold of_chain at 1. rewrite of_chain_add, elem_of_app. fold (of_chain s (members c)). rewrite Hm, elem_of_app, list_elem_of_singleton.
      assert (Hkey : start_of r ∈ map fst groups) by (rewrite <-Hk; apply keys_assoc; eauto).
      destruct (String.eqb_spec s (start_of r)) as [->|]; rewrite ?list_elem_of_singleton; [intuition (subst; auto)|rewrite elem_of_nil; intuition (subst; congruence)].
    + by rewrite add_to_keys by eauto.
    + intros s x. rewrite Hd, elem_of_app, list_elem_of_singleton. intuition (subst; congruence).
    + intros x. rewrite He, elem_of_app, list_elem_of_singleton. intuition (subst; congruence).
    + intros s x. rewrite Hm, elem_of_app, list_elem_of_singleton.
      assert (Hkey : start_of r ∉ map fst groups) by (rewrite <-Hk, keys_assoc; intros [v ?]; congruence). intuition (subst; congruence).
    + done.
    + intros s x. rewrite Hd, elem_of_app, list_elem_of_singleton. intuition (subst; congruence).
    + intros x. rewrite He, elem_of_app, list_elem_of_singleton. intuition (subst; congruence).
  - assert (Hnd : is_dependent r = false) by (unfold is_dependent; by rewrite Hl). rewrite Hl, Hnd. intros [= <-].
    split; [intros s x; rewrite Hm|done|intros s x; rewrite Hd|intros x; rewrite He];
      rewrite elem_of_app, list_elem_of_singleton; intuition (subst; congruence).
  - destruct (dependent_level r Hdep) as (lv & Hl & _). rewrite Hl, Hdep.
    destruct (owner starts (at_ r)) as [s0|] eqn:Ho.
    + intros [= <-]. split; cbn [members dependents expire].
      * intros s x. rewrite Hm, elem_of_app, list_elem_of_singleton. intuition (subst; congruence).
      * done.
      * intros s x. unfold of_chain at 1. rewrite of_chain_add, elem_of_app. fold (of_chain s (dependents c)). rewrite Hd, elem_of_app, list_elem_of_singleton.
        destruct (String.eqb_spec s s0) as [->|]; rewrite ?list_elem_of_singleton; [intuition (subst; auto)|].
        rewrite elem_of_nil. intuition (subst; congruence).
      * intros x. rewrite He, elem_of_app, list_elem_of_singleton. intuition (subst; congruence).
    + intros (b & Hb & [= <-])%result_bind_ok. split; cbn [members dependents expire].
      * intros s x. rewrite Hm, elem_of_app, list_elem_of_singleton. intuition (subst; congruence).
      * done.
      * intros s x. rewrite Hd, elem_of_app, list_elem_of_singleton. intuition (subst; congruence).
      * intros x. destruct b; rewrite ?elem_of_app, He, ?elem_of_app, list_elem_of_singleton; unfold past; intuition (subst; congruence).
Qed.
Lemma classify_all groups starts l c : foldM (classify o now starts) (mkChains groups [] [] []) l = Ok c ->
  sorted_out groups starts l c.
Proof.
  assert (H : forall l2 l1 c0 c, sorted_out groups starts l1 c0 -> foldM (classify o now starts) c0 l2 = Ok c ->
    sorted_out groups starts (l1 ++ l2) c).
  { induction l2 as [|r l2 IH]; intros l1 c0 c1 H0; cbn; [intros [= <-]; by rewrite app_nil_r|].
    destruct (classify o now starts c0 r) as [c0'|] eqn:Hc; [|done]. intros H. rewrite cons_middle, app_assoc.
    eapply IH; [by eapply classify_step|done]. }
  apply (H l []). split; cbn [members dependents expire]; intros; unfold of_chain; cbn; rewrite ?elem_of_nil; intuition.
Qed.

(** Past its chain's end: what depends on it by its own age, the chain's own when all of it is. *)
Definition goes (c : Chains) (s : string) (r : pydict) : Prop :=
  (r ∈ of_chain s (dependents c) /\ past r)
  \/ (r ∈ of_chain s (members c) /\ Forall past (of_chain s (members c)) /\ Forall past (of_chain s (dependents c))).
Lemma close_chain_spec newest c s c' : close_chain o now newest c s = Ok c' ->
  members c' = members c /\ dependents c' = dependents c
  /\ forall r, r ∈ expire c' <-> r ∈ expire c \/ (str_lt s newest = true /\ goes c s r).
Proof.
  unfold close_chain. destruct (String.leb newest s) eqn:Hn.
  { intros [= <-]. split_and!; [done|done|]. intros r. rewrite str_lt_not_leb. intuition congruence. }
  apply str_lt_not_leb in Hn. intros (gone & Hg & (all & Ha & [= <-])%result_bind_ok)%result_bind_ok.
  destruct (old_of_spec _ _ Hg) as [Hin Hlen]. apply all_old_spec in Ha. unfold goes.
  destruct all; cbn [negb]; [destruct (Nat.ltb_spec (length gone) (length (of_chain s (dependents c))))|];
    cbn [members dependents expire]; split_and!; try done; intros r; rewrite !elem_of_app, ?Hin.
  - assert (~ Forall past (of_chain s (dependents c))).
    { intros Hall. destruct Hlen as [_|[_ ->]]; [|lia]. assert (length (of_chain s (dependents c)) <= length gone)%nat; [|lia].
      clear -Hg Hall. revert gone Hg. induction Hall as [|x l Hx _ IH]; intros gone; cbn; [lia|]. unfold past in Hx.
      rewrite Hx, bind_ok. intros (g & Hg & [= <-])%result_bind_ok. cbn. specialize (IH _ Hg). lia. }
    intuition.
  - destruct Hlen as [?|[Hall _]]; [lia|]. intuition.
  - intuition.
Qed.
Lemma close_all newest ss c c' : foldM (close_chain o now newest) c ss = Ok c' ->
  forall r, r ∈ expire c' <-> r ∈ expire c \/ exists s, s ∈ ss /\ str_lt s newest = true /\ goes c s r.
Proof.
  revert c. induction ss as [|s ss IH]; intros c; cbn.
  { intros [= <-] r. split; [by left|]. intros [?|(s & []%not_elem_of_nil & _)]. done. }
  destruct (close_chain o now newest c s) as [c1|] eqn:Hc; [|done]. intros H r.
  destruct (close_chain_spec _ _ _ _ Hc) as (Hm & Hd & He). rewrite (IH _ H r), He.
  assert (Hg : forall s' r', goes c1 s' r' <-> goes c s' r') by (intros; unfold goes; by rewrite Hm, Hd).
  setoid_rewrite Hg. setoid_rewrite list.elem_of_cons. split.
  - intros [[?|[? ?]]|(s' & ? & ? & ?)]; [by left|right; exists s; auto|right; exists s'; auto].
  - intros [?|(s' & [->|?] & ? & ?)]; [by left; left|left; right; auto|right; exists s'; auto].
Qed.
Lemma starts_sorted groups : forall s, s ∈ sort_by String.leb (map fst (groups : list (string * list pydict))) <-> s ∈ map fst groups.
Proof. intros s. apply elem_of_sort_by. Qed.
Lemma sorted_last l newest : StronglySorted (fun x y => String.leb x y = true) l -> list.last l = Some newest ->
  newest ∈ l /\ forall s, s ∈ l -> String.leb s newest = true.
Proof.
  intros Hs Hl. apply last_Some in Hl as [l' ->]. split; [set_solver|]. intros s [Hin | ->%list_elem_of_singleton]%elem_of_app; [|apply leb_refl].
  induction l' as [|x l' IH]; [by apply not_elem_of_nil in Hin|]. cbn in Hs. inversion Hs as [|? ? Hss Hx]. subst.
  apply list.elem_of_cons in Hin as [->|Hin]; [|by apply IH]. rewrite list.Forall_forall in Hx. apply Hx. set_solver.
Qed.
Lemma leb_order x y : String.leb x y = true \/ String.leb y x = true.
Proof. destruct (String.leb x y) eqn:E; [by left|right; by apply leb_false]. Qed.
Lemma texts_sorted l : StronglySorted (fun x y => String.leb x y = true) (sort_by String.leb l).
Proof. apply sort_by_sorted; [apply leb_order|apply leb_trans]. Qed.

(** ** What expires, said of the rows *)
Definition a_full_at (l : list pydict) (s : string) : Prop := exists f, f ∈ l /\ is_full f = true /\ start_of f = s.
(** The moment that says which chain a copy is of. *)
Definition moment (r : pydict) : string := if is_dependent r then at_ r else start_of r.
(** The full of the chain a later copy is read with: the newest at or before its end. *)
Definition needs (l : list pydict) (r : pydict) (s : string) : Prop :=
  is_dependent r = true /\ a_full_at l s /\ String.leb s (at_ r) = true
  /\ forall s', a_full_at l s' -> String.leb s' (at_ r) = true -> String.leb s' s = true.
Definition outlived (l : list pydict) (r : pydict) : Prop :=
  r ∈ l /\ past r
  /\ (exists s, a_full_at l s /\ str_lt (moment r) s = true)
  /\ (is_dependent r = true
      \/ travels r = true /\ a_full_at l (start_of r)
         /\ forall d, d ∈ l -> (travels d = true /\ start_of d = start_of r) \/ needs l d (start_of r) -> past d).

Lemma group_members l s r : r ∈ of_chain s (group_by start_of (List.filter is_full l)) <-> r ∈ l /\ is_full r = true /\ start_of r = s.
Proof.
  assert (H : r ∈ List.filter (fun x => String.eqb (start_of x) s) (List.filter is_full l) <-> r ∈ l /\ is_full r = true /\ start_of r = s).
  { rewrite !elem_of_filter_bool, String.eqb_eq. tauto. }
  rewrite <-H. unfold of_chain. rewrite group_by_assoc. by destruct (List.filter _ _).
Qed.
Lemma group_starts l s : s ∈ map fst (group_by start_of (List.filter is_full l)) <-> a_full_at l s.
Proof. rewrite group_by_key. unfold a_full_at. setoid_rewrite elem_of_filter_bool. naive_solver. Qed.
Lemma travels_full r : is_full r = true -> travels r = true.
Proof.
  intros Hf. unfold travels. rewrite (full_not_dependent r Hf). cbn. apply negb_true_iff.
  destruct (is_certificate r) eqn:Hc; [|done]. apply certificate_level in Hc. apply full_level in Hf. congruence.
Qed.
Lemma travels_cases r : travels r = true <-> is_full r = true \/ (level r = None /\ is_certificate r = false).
Proof.
  split; [|intros [?|[Hl Hc]]; [by apply travels_full|unfold travels, is_dependent; by rewrite Hl, Hc]].
  unfold travels. intros [Hd Hc]%andb_true_iff. apply negb_true_iff in Hd, Hc.
  destruct (level_cases r) as [[?|?]|[? _]]; [by right|left; by apply full_level|congruence].
Qed.
Lemma str_lt_squeeze a b c d : String.leb a b = true -> str_lt b c = true -> String.leb c d = true -> str_lt a d = true.
Proof.
  intros H1 H2 H3. apply str_lt_not_leb. destruct (String.leb d a) eqn:E; [|done].
  apply str_lt_not_leb in H2. rewrite <-H2. symmetry. eapply leb_trans; [exact H3|]. eapply leb_trans; eauto.
Qed.

Section database.
Variables (l : list pydict) (starts : list string) (c : Chains).
Hypothesis Hstarts : forall s, s ∈ starts <-> a_full_at l s.
Hypothesis Hc : sorted_out (group_by start_of (List.filter is_full l)) starts l c.

Lemma chain_members s r : s ∈ starts -> r ∈ of_chain s (members c) <-> r ∈ l /\ travels r = true /\ start_of r = s.
Proof using Hstarts Hc.
  intros Hs. rewrite (so_members _ _ _ _ Hc), group_members, travels_cases, group_starts.
  pose proof (proj1 (Hstarts s) Hs). intuition.
Qed.
Lemma chain_dependents s r : r ∈ of_chain s (dependents c) <-> r ∈ l /\ needs l r s.
Proof using Hstarts Hc.
  rewrite (so_dependents _ _ _ _ Hc), owner_some. unfold needs. setoid_rewrite Hstarts. tauto.
Qed.
Variable newest : string.
Hypothesis Hnewest : newest ∈ starts /\ forall s, s ∈ starts -> String.leb s newest = true.
Lemma chain_goes r : (r ∈ expire c \/ exists s, s ∈ starts /\ str_lt s newest = true /\ goes c s r) <-> outlived l r.
Proof using Hstarts Hnewest Hc.
  destruct Hnewest as [Hn Hmax]. unfold goes, outlived. rewrite (so_expire _ _ _ _ Hc). split.
  - intros [(Hr & Hd & Ho & Hp)|(s & Hs & Hlt & [[[Hr Hneeds]%chain_dependents Hp]|(Hm & Hpm & Hpd)])].
    + split_and!; [done|done| |by left]. exists newest. unfold moment. rewrite Hd. split; [by apply Hstarts|by apply (proj1 (owner_none _ _) Ho)].
    + split_and!; [done|done| |left; apply Hneeds]. destruct Hneeds as (Hd & _ & _ & Hmin). exists newest.
      unfold moment. rewrite Hd. split; [by apply Hstarts|]. apply str_lt_not_leb. destruct (String.leb newest (at_ r)) eqn:E; [|done].
      apply str_lt_not_leb in Hlt. rewrite <-Hlt. symmetry. apply Hmin; [by apply Hstarts|done].
    + pose proof Hm as Hm'. apply (chain_members s r Hs) in Hm' as (Hr & Ht & Hst). rewrite list.Forall_forall in Hpm, Hpd.
      assert (Hnd : is_dependent r = false) by (unfold travels in Ht; by apply andb_true_iff in Ht as [?%negb_true_iff _]).
      split_and!; [done|by apply Hpm| |].
      * exists newest. unfold moment. rewrite Hnd, Hst. split; [by apply Hstarts|done].
      * right. rewrite Hst. split_and!; [done|by apply Hstarts|]. intros d Hd [[Htd Hsd]|Hneeds]; [apply Hpm, chain_members|apply Hpd, chain_dependents]; done.
  - intros (Hr & Hp & (s0 & Hs0 & Hlt) & [Hd|(Ht & Hat & Hall)]).
    + unfold moment in Hlt. rewrite Hd in Hlt. destruct (owner starts (at_ r)) as [s|] eqn:Ho; [|by left]. right.
      apply owner_some in Ho as (Hs & Hle & Hmin). exists s. split_and!; [done| |].
      * eapply str_lt_squeeze; [exact Hle|exact Hlt|]. by apply Hmax, Hstarts.
      * left. split; [|done]. apply chain_dependents. split; [done|]. split_and!; [done|by apply Hstarts|done|].
        intros s' Hs'. apply Hmin. by apply Hstarts.
    + assert (Hnd : is_dependent r = false) by (unfold travels in Ht; by apply andb_true_iff in Ht as [?%negb_true_iff _]).
      unfold moment in Hlt. rewrite Hnd in Hlt. right. exists (start_of r). apply Hstarts in Hat. split_and!; [done| |].
      * eapply str_lt_squeeze; [apply leb_refl|exact Hlt|]. by apply Hmax, Hstarts.
      * right. split_and!; [by apply chain_members|apply list.Forall_forall..].
        -- intros d (Hd & ? & ?)%chain_members; [|done]. apply Hall; auto.
        -- intros d [Hd ?]%chain_dependents. apply Hall; auto.
Qed.
End database.

Lemma outlived_perm l l' r : l ≡ₚ l' -> outlived l r <-> outlived l' r.
Proof.
  intros Hp. assert (Hin : forall x, x ∈ l <-> x ∈ l') by (intros; by rewrite Hp).
  unfold outlived, needs, a_full_at. by repeat setoid_rewrite Hin.
Qed.
Lemma expire_database_spec database l gone why : expire_database o now database l = Ok (gone, why) ->
  forall r, r ∈ gone <-> outlived l r.
Proof.
  intros H r. rewrite (outlived_perm l (sort_by earlier l) r) by (by rewrite sort_by_perm). revert H. unfold expire_database.
  generalize (sort_by earlier l) as copies. intros copies. cbn zeta.
  set (starts := sort_by String.leb _).
  assert (Hst : forall s, s ∈ starts <-> a_full_at copies s) by (intros; unfold starts; by rewrite starts_sorted, group_starts).
  destruct (list.last starts) as [newest|] eqn:Hl.
  - intros (c & Hc & (c' & Hc' & [= <- _])%result_bind_ok)%result_bind_ok.
    apply classify_all in Hc. rewrite (close_all _ _ _ _ Hc' r). apply chain_goes; try done.
    apply sorted_last; [apply texts_sorted|done].
  - intros [= <- _]. apply last_None in Hl. split; [by intros ?%not_elem_of_nil|].
    intros (_ & _ & (s & Hs & _) & _). apply Hst in Hs. rewrite Hl in Hs. by apply not_elem_of_nil in Hs.
Qed.
Lemma classify_total starts l c : Forall dated l -> exists c', foldM (classify o now starts) c l = Ok c'.
Proof.
  intros Hl. revert c. induction Hl as [|r l [b Hb] _ IH]; intros c; cbn; [eauto|].
  assert (Hstep : exists c', classify o now starts c r = Ok c').
  { unfold classify. destruct (is_certificate r); [eauto|]. destruct (level r); [|destruct (assoc _ _); eauto].
    destruct (is_dependent r); [|eauto]. destruct (owner _ _); [eauto|]. rewrite Hb, bind_ok. eauto. }
  destruct Hstep as [c' ->]. apply IH.
Qed.
Lemma close_chains_total newest ss c : (forall s, Forall dated (of_chain s (members c)) /\ Forall dated (of_chain s (dependents c))) ->
  exists c', foldM (close_chain o now newest) c ss = Ok c'.
Proof.
  revert c. induction ss as [|s ss IH]; intros c Hc; cbn; [eauto|].
  assert (Hstep : exists c', close_chain o now newest c s = Ok c').
  { unfold close_chain. destruct (String.leb newest s); [eauto|]. destruct (Hc s) as [[a Ha]%all_old_total [g Hg]%old_of_total].
    rewrite Hg, bind_ok, Ha, bind_ok. eauto. }
  destruct Hstep as [c' Hc']. rewrite Hc'. apply IH. destruct (close_chain_spec _ _ _ _ Hc') as (-> & -> & _). done.
Qed.
Lemma expire_database_total database l : Forall dated l -> exists p, expire_database o now database l = Ok p.
Proof.
  intros Hl. assert (Hs : Forall dated (sort_by earlier l)) by (by rewrite sort_by_perm). revert Hs. unfold expire_database.
  generalize (sort_by earlier l) as copies. intros copies Hs. cbn zeta. set (starts := sort_by String.leb _).
  assert (Hst : forall s, s ∈ starts <-> a_full_at copies s) by (intros; unfold starts; by rewrite starts_sorted, group_starts).
  destruct (list.last starts) as [newest|]; [|eauto].
  destruct (classify_total starts copies (mkChains (group_by start_of (List.filter is_full copies)) [] [] []) Hs) as [c Hc].
  rewrite Hc, bind_ok. apply classify_all in Hc. rewrite list.Forall_forall in Hs.
  destruct (close_chains_total newest starts c) as [c' ->]; [|rewrite bind_ok; eauto].
  intros s. split; apply list.Forall_forall; intros r Hr; apply Hs.
  - apply (so_members _ _ _ _ Hc) in Hr as [Hr|(_ & Hr & _)]; [|done]. by apply group_members in Hr as [? _].
  - by apply (so_dependents _ _ _ _ Hc) in Hr as [? _].
Qed.

(** The copies of a row's database. *)
Definition same_database (r : pydict) (rows : list pydict) : list pydict :=
  List.filter (fun x => String.eqb (text_in x "database_name") (text_in r "database_name")) rows.
Definition plan_step (plan : list pydict * list kept_reason) (g : string * list pydict) : result pyexn (list pydict * list kept_reason) :=
  '(gone, why) ← expire_database o now g.1 g.2; Ok (plan.1 ++ gone, plan.2 ++ why).
Lemma plan_steps gs gone why gone' why' : foldM plan_step (gone, why) gs = Ok (gone', why') ->
  forall r, r ∈ gone' <-> r ∈ gone \/ exists g, g ∈ gs /\ outlived g.2 r.
Proof.
  revert gone why. induction gs as [|g gs IH]; intros gone why; cbn [foldM].
  - intros [= <- <-] r. split; [by left|]. intros [?|(g & []%not_elem_of_nil & _)]. done.
  - unfold plan_step at 1. destruct (expire_database o now g.1 g.2) as [[gone1 why1]|] eqn:H1; [|done]. rewrite bind_ok.
    intros H r. rewrite (IH _ _ H r). cbn [fst]. rewrite elem_of_app, (expire_database_spec _ _ _ _ H1). setoid_rewrite list.elem_of_cons.
    split; [intros [[?|?]|(g' & ? & ?)]|intros [?|(g' & [->|?] & ?)]]; eauto.
Qed.
Lemma plan_sound rows gone why : expiry_plan o now rows = Ok (gone, why) ->
  forall r, r ∈ gone <-> outlived (same_database r rows) r.
Proof.
  intros H r. unfold expiry_plan in H. rewrite (plan_steps _ _ _ _ _ H r). split.
  - intros [[]%not_elem_of_nil|([k g] & Hg%group_by_elem & Ho)]. cbn in Ho. pose proof Ho as (Hr & _).
    rewrite Hg in Hr. apply elem_of_filter_bool in Hr as [_ Hk%String.eqb_eq]. unfold same_database. by rewrite Hk, <-Hg.
  - intros Ho. right. pose proof Ho as (Hr & _). unfold same_database in Hr. apply elem_of_filter_bool in Hr as [Hr _].
    eexists. split; [by apply group_by_has|]. exact Ho.
Qed.
Lemma plan_total rows : Forall dated rows -> exists gone why, expiry_plan o now rows = Ok (gone, why).
Proof.
  intros Hd. unfold expiry_plan. fold plan_step. set (groups := group_by _ rows).
  assert (Hg : Forall (fun g => Forall dated g.2) groups).
  { apply list.Forall_forall. intros [k g] Hg%group_by_elem. subst g. rewrite list.Forall_forall in Hd |- *.
    intros x [Hx _]%elem_of_filter_bool. auto. }
  generalize (@nil pydict, @nil kept_reason) as plan. clearbody groups.
  induction Hg as [|g gs Hg _ IH]; intros plan; [destruct plan; by eexists _, _|]. cbn [foldM]. unfold plan_step at 1.
  destruct (expire_database_total g.1 g.2 Hg) as [[gone1 why1] ->]. rewrite bind_ok. apply IH.
Qed.
Lemma plan_ok rows : Forall dated rows -> exists gone why, expiry_plan o now rows = Ok (gone, why)
  /\ forall r, r ∈ gone <-> outlived (same_database r rows) r.
Proof. intros (gone & why & H)%plan_total. exists gone, why. split; [done|by eapply plan_sound]. Qed.
End plan.

(** C7: On copies whose dates can be read the plan always answers, and expires exactly the
    copies that are past their own retention, began before the newest full of their database,
    and are either a DIFF or LOG, or a file of a full all of whose files, and all of whose
    dependents up to the next full, are past theirs: a specification with sets and maxima in
    place of the code's dictionaries and passes. *)
Theorem the_repository_expires_what_nothing_kept_needs o now rows : Forall (dated o now) rows ->
  exists gone why, expiry_plan o now rows = Ok (gone, why)
    /\ forall r, r ∈ gone <-> outlived o now (same_database r rows) r.
Proof. apply plan_ok. Qed.

Definition lab_copy (id : Z) (name type ended start : string) : pydict :=
  [("file_id", PInt id); ("database_name", PStr "sales"); ("file_name", PStr name); ("file_type", PStr type);
   ("backup_ended_at", PStr ended); ("chain_start", PStr start)].
Definition lab_days (full diff log : Z) : BackupOffload :=
  mkOffload true "repo" "/repo" 3 "none" false "" "" "" (full * 86400) (diff * 86400) (log * 86400) 100 30 3600 86400 86400 21600 300.
Definition lab_full_1 : pydict := lab_copy 1 "f1" "FULL" "2026-10-01T01:00:00Z" "2026-10-01T00:30:00Z".
Definition lab_control_1 : pydict := lab_copy 2 "c1" "CONTROLFILE" "2026-10-01T01:00:00Z" "2026-10-01T00:30:00Z".
Definition lab_log_1 : pydict := lab_copy 3 "l1" "LOG" "2026-10-02T01:00:00Z" "2026-10-02T01:00:00Z".
Definition lab_log_2 : pydict := lab_copy 4 "l2" "LOG" "2026-10-09T01:00:00Z" "2026-10-09T01:00:00Z".
Definition lab_full_2 : pydict := lab_copy 5 "f2" "FULL" "2026-10-10T01:00:00Z" "2026-10-10T00:30:00Z".
Definition lab_log_3 : pydict := lab_copy 6 "l3" "LOG" "2026-10-10T00:45:00Z" "2026-10-10T00:45:00Z".
Definition lab_certificate : pydict := lab_copy 7 "cert" "CERT" "2026-10-01T01:00:00Z" "2026-10-01T00:30:00Z".
Definition lab_copies : list pydict :=
  [lab_full_1; lab_control_1; lab_log_1; lab_log_2; lab_full_2; lab_log_3; lab_certificate].
Definition lab_instant (s : string) : Z := default 0 (strptime_t s).
Definition names_of (p : result pyexn (list pydict * list kept_reason)) : result pyexn (list string * list kept_reason) :=
  '(gone, why) ← p; Ok (map file_name gone, why).

Lemma lab_dated n1 n2 n3 now : Forall (dated (lab_days n1 n2 n3) now) lab_copies.
Proof.
  apply list.Forall_forall. intros r Hr. unfold dated, old. destruct (_ || _); [eauto|].
  assert (Hd : exists t, strptime_t (str_take 19 (at_ r)) = Some t).
  { unfold lab_copies in Hr. repeat (apply list.elem_of_cons in Hr as [->|Hr]; [eexists; vm_compute; reflexivity|]).
    by apply not_elem_of_nil in Hr. }
  destruct Hd as [t ->]. eauto.
Qed.
Lemma lab_plan : names_of (expiry_plan (lab_days 7 5 3) (lab_instant "2026-10-20T00:00:00") lab_copies)
  = Ok (["l1"; "l2"; "f1"; "c1"], [Certificate "cert"]).
Proof. vm_compute. reflexivity. Qed.
Theorem expires_witness : exists gone why,
  expiry_plan (lab_days 7 5 3) (lab_instant "2026-10-20T00:00:00") lab_copies = Ok (gone, why)
  /\ map file_name gone = ["l1"; "l2"; "f1"; "c1"]
  /\ ~ outlived (lab_days 7 5 3) (lab_instant "2026-10-20T00:00:00") (same_database lab_log_3 lab_copies) lab_log_3.
Proof.
  destruct (the_repository_expires_what_nothing_kept_needs (lab_days 7 5 3) (lab_instant "2026-10-20T00:00:00") lab_copies
    (lab_dated _ _ _ _)) as (gone & why & Hp & Hin).
  exists gone, why. split; [exact Hp|].
  assert (Hn : map file_name gone = ["l1"; "l2"; "f1"; "c1"]).
  { pose proof lab_plan as H. rewrite Hp in H. unfold names_of in H. rewrite bind_ok in H. by injection H. }
  split; [exact Hn|]. rewrite <-(Hin lab_log_3). intros Hl.
  assert (Hf : file_name lab_log_3 ∈ map file_name gone) by (apply list_elem_of_fmap; by exists lab_log_3).
  rewrite Hn in Hf. revert Hf. apply (bool_decide_unpack (_ ∉ _)). by vm_compute.
Defined.

(** A log goes by its own age: the logs after it, which cannot be read without it, stay, and the
    full stays for them. *)
Lemma a_log_expires_before_the_logs_after_it :
  names_of (expiry_plan (lab_days 7 5 8) (lab_instant "2026-10-15T00:00:00") lab_copies)
  = Ok (["l1"], [Certificate "cert"; StillNeeded ["f1"; "c1"]]).
Proof. vm_compute. reflexivity. Qed.
(** With no full of a database on the repository, nothing of it expires. *)
Lemma no_full_keeps_all :
  names_of (expiry_plan (lab_days 1 1 1) (lab_instant "2026-12-01T00:00:00") [lab_log_1; lab_certificate])
  = Ok ([], [NoFull "sales"]).
Proof. vm_compute. reflexivity. Qed.
