(* ===== verification/OffloadPass.v ===== *)
(** * One pass of an entry's repository copy ([backup_restore/offload.py]): the files copied and
    proven, the sources released, the copies expired.

    The pass works on a catalog and the machines of the entry.  The transport is given: what hashes
    and lists a folder on either side, what copies a round's files, the clock; deletions go through
    [DeleteFiles].  The copies of a pass go through [CopyGate]; the rows the gate writes of its own
    are the list it keeps.  A refusal in an answer keeps what it is about. *)

From S2P Require Import Prelude Py PyTime Integrity CopyGate DeleteFiles Prune SqlTable BackupCatalog OffloadConfig Offload.

(** ** The share of a Windows server *)
Record Share := mkShare { s_host : string; s_share : string; subpath : string; s_username : string; s_password : string }.
Inductive pass_error : Type :=
| CatalogError (e : catalog_error) | TransportError (reason : string) | GateError (e : gate_error)
| DateError (e : pyexn) | EntryRefused (r : refusal_reason) | BadShare | NoSecret (ref : string)
| NotUnderTheShare (file_name : string).
Definition backslash : string := "\".
Definition not_empty (s : string) : bool := negb (String.eqb s "").
Definition _share_request (e : Entry) (secrets : list (string * string)) : result pass_error Share :=
  let o := e_offload e in
  match List.filter not_empty (split "\"%char (replace_char "/" "\" (source_share o))) with
  | host :: share :: rest =>
      match assoc (source_password_ref o) secrets with
      | Some password => Ok (mkShare host share (join backslash rest) (source_username o) password)
      | None => Err (NoSecret (source_password_ref o))
      end
  | _ => Err BadShare
  end.
Definition _share_path (e : Entry) (r : pydict) (share : Share) : result pass_error string :=
  let relative := relative_of e r in
  if String.eqb relative "" then Err (NotUnderTheShare (file_name r))
  else Ok (join backslash (List.filter not_empty [subpath share; replace_char "/" "\" relative])).

(** ** The machines *)
Record Listing := mkListing { host_folder : string; in_folder : list string }.
Record Transport (W : Type) := mkTransportOf {
  hash_on_source : list string -> W -> result string Answers * W;
  hash_on_repository : list string -> W -> result string Answers * W;
  list_on_source : string -> W -> result string Listing * W;
  list_on_repository : string -> W -> result string Listing * W;
  copy_files : list (string * string) -> W -> result string (list (string * string)) * W; (* the failed targets *)
  wait : Z -> W -> W;
  utc_now : W -> string; check_moment : W -> string }.
Arguments hash_on_source {W}. Arguments hash_on_repository {W}. Arguments list_on_source {W}.
Arguments list_on_repository {W}. Arguments copy_files {W}. Arguments wait {W}. Arguments utc_now {W}.
Arguments check_moment {W}. Arguments mkTransportOf {W}.

Record Site (W : Type) := mkSite { store : Catalog; machines : W }.
Arguments store {W}. Arguments machines {W}. Arguments mkSite {W}.

Section pass.
Context {W : Type} `{Machine W}.
Definition P (A : Type) : Type := Site W -> result pass_error A * Site W.
#[export] Instance P_ret : MRet P := fun _ a s => (Ok a, s).
#[export] Instance P_bind : MBind P := fun _ _ f m s =>
  match m s with (Ok a, s) => f a s | (Err e, s) => (Err e, s) end.
Definition fails {A} (e : pass_error) : P A := fun s => (Err e, s).
Definition of_result {A} (r : result pass_error A) : P A := fun s => (r, s).
(** [try: ... except Exception]. *)
Definition attempt {A} (m : P A) : P (result pass_error A) := fun s =>
  let '(r, s) := m s in (Ok r, s).
Definition read_store {A} (f : Catalog -> A) : P A := fun s => (Ok (f (store s)), s).
Definition read_clock (f : W -> string) : P string := fun s => (Ok (f (machines s)), s).
(** A method of the catalog: its transaction, or nothing and its error. *)
Definition call {A} (f : Catalog -> result catalog_error (Catalog * A)) : P A := fun s =>
  match f (store s) with
  | Ok (c, a) => (Ok a, mkSite c (machines s))
  | Err e => (Err (CatalogError e), s)
  end.
Definition on_machines {A} (f : W -> result string A * W) : P A := fun s =>
  let '(a, w) := f (machines s) in
  (match a with Ok a => Ok a | Err e => Err (TransportError e) end, mkSite (store s) w).
Definition each_row {A} (f : pydict -> P A) : list pydict -> P (list A) :=
  fix go l := match l with [] => mret [] | r :: l => a ← f r; rest ← go l; mret (a :: rest) end.

Context (e : Entry) (t : Transport W) (source_host repository_host : pydict) (share : option Share).
Definition with_share : bool := match share with Some _ => true | None => false end.

Definition set_file (id : Z) (values : string -> pydict) : P unit :=
  now ← read_clock (utc_now t);
  call (fun c => c ← set_backup_file now id (values now) c; Ok (c, tt)).
Definition check_file_now (id : Z) (checksum_now : option string) (size_now : option Z)
    (by_run_id location : string) : P string :=
  now ← read_clock (utc_now t);
  moment ← read_clock (check_moment t);
  call (check_backup_file now moment id checksum_now size_now "offload" by_run_id location).
(** [_Hosts.hasher]: no call for no path, each path asked once, in order. *)
Definition hasher (hash : list string -> W -> result string Answers * W) (paths : list string) : W -> result string Answers * W :=
  match paths with
  | [] => fun w => (Ok [], w)
  | _ => hash (sort_by String.leb (remove_dups paths))
  end.
Definition delete_request (host : pydict) (paths : list string) (root : string) : pydict :=
  [("host", PDict host); ("paths", PList (map PStr paths)); ("must_be_under", PStr root)].
Definition try_delete (request : pydict) : P (result job_error Deletion) := fun s =>
  let '(answer, w) := run_delete_files request (machines s) in (Ok answer, mkSite (store s) w).
Definition went (status : string) : bool := bool_decide (status ∈ [DELETED; NOT_FOUND]).
(** ** Releasing the sources *)
Inductive why_not : Type := CopyIs (what : string) | FolderNotListed (e : pass_error) | DeleteRaised (e : job_error) | DeleteSaid (status reason : string).
Definition Problems : Type := list (string * why_not).
Record Released := mkReleased { deleted_count : nat; kept_count : nat; release_refused : Problems }.

Definition newest_starts (c : Catalog) : list (string * string) :=
  fold_left (fun d p => assoc_set p.1 (str (py_or p.2 (PStr ""))) d) (newest_full_per_database (e_backup_id e) c) [].
Definition floor_of (starts : list (string * string)) (r : pydict) : string :=
  default "" (assoc (text_in r "database_name") starts).
(** A base directory, or in the newest chain: never released. *)
Definition stays (starts : list (string * string)) (r : pydict) : bool :=
  is_hashed_member (file_type r) || String.eqb (floor_of starts r) "" || String.leb (floor_of starts r) (at_ r).
Definition recorded_checksum (r : pydict) : option string :=
  match get r "checksum_after_backup" with PStr s => Some s | _ => None end.
Definition recorded_bytes (r : pydict) : option Z := match get r "size_bytes" with PInt n => Some n | _ => None end.
Definition offload_path (r : pydict) : string := str (get r "offload_path").
Definition same_now (found : Answers) (r : pydict) : bool :=
  same_bytes (assoc (offload_path r) found) (recorded_checksum r) (recorded_bytes r).
Definition bytes_text (n : option Z) : string := match n with Some n => str_of_int n | None => "None" end.
Definition found_as (now : option CopyGate.Answer) (result : string) (r : pydict) : string :=
  if String.eqb result "match"
  then bytes_text (now ≫= snd) +:+ " bytes, not the " +:+ str (get r "size_bytes") +:+ " recorded" else result.
(** The copy as it is now: nothing to say of one that holds, [failed] for one that does not. *)
Definition recheck (found : Answers) (r : pydict) : P (option (string * why_not)) :=
  if same_now found r then mret None
  else
    let now := assoc (offload_path r) found in
    result ← check_file_now (file_id r) (fst <$> now) (now ≫= snd) "release" "repository";
    let what := found_as now result r in
    _ ← set_file (file_id r) (fun _ => [("offload_state", PStr "failed");
      ("offload_error", PStr ("the repository copy is " +:+ what +:+ " at the release check - the source is kept and copied again"))]);
    mret (Some (file_name r, CopyIs what)).
(** The path a delete on the server is asked for. *)
Definition source_name (r : pydict) : string :=
  if with_share then str (get r "file_path") else str (py_or (get r "host_path") (get r "file_path")).
Definition mark_released (r : pydict) : P unit :=
  set_file (file_id r) (fun now => [("state", PStr "pruned"); ("on_disk", PInt 0); ("source_deleted_at", PStr now);
    ("pruned_by", PStr "offload: released after its copy was verified")]).
Fixpoint release_lines (path_of : list (string * pydict)) (lines : list DeleteFiles.Row) : P (nat * Problems) :=
  match lines with
  | [] => mret (0%nat, [])
  | line :: lines =>
      '(n, why) ← (match assoc (r_path line) path_of with
        | None => mret (0%nat, [])
        | Some r => if went (r_status line) then _ ← mark_released r; mret (1%nat, [])
                    else mret (0%nat, [(file_name r, DeleteSaid (r_status line) (r_reason line))])
        end);
      '(m, more) ← release_lines path_of lines;
      mret ((n + m)%nat, why ++ more)
  end.
Definition paths_of_group (group : list pydict) : list (string * pydict) :=
  fold_left (fun d r => assoc_set (source_name r) r d) group [].
Definition release_request (root : string) (group : list pydict) : pydict :=
  delete_request source_host (sort_by String.leb (map fst (paths_of_group group))) root.
Definition release_group (root : string) (group : list pydict) : P (nat * Problems) :=
  answer ← try_delete (release_request root group);
  match answer with
  | Err err => mret (0%nat, map (fun r => (file_name r, DeleteRaised err)) group)
  | Ok d => release_lines (paths_of_group group) (files d)
  end.
Fixpoint release_groups (groups : list (string * list pydict)) : P (nat * Problems) :=
  match groups with
  | [] => mret (0%nat, [])
  | g :: groups =>
      '(n, why) ← release_group g.1 g.2;
      '(m, more) ← release_groups groups;
      mret ((n + m)%nat, why ++ more)
  end.
Definition release_sources (rows : list pydict) : P Released :=
  starts ← read_store newest_starts;
  let kept := List.filter (stays starts) rows in
  let candidates := List.filter (fun r => negb (stays starts r)) rows in
  match candidates with
  | [] => mret (mkReleased 0 (length kept) [])
  | _ =>
      found ← on_machines (hasher (hash_on_repository t) (map offload_path candidates));
      checks ← each_row (recheck found) candidates;
      '(n, why) ← release_groups (group_by (fun r => _source_root r e) (List.filter (same_now found) candidates));
      mret (mkReleased n (length kept) (omap id checks ++ why))
  end.

(** ** Expiring the copies *)
Record Expired := mkExpired { expired_count : nat; expired_kept : list kept_reason; expire_refused : Problems }.
(** The files of each copy, by path; a folder with nothing left inside as its path and a slash. *)
Fixpoint expire_paths (rows : list pydict) (paths : list (string * pydict)) : P (list (string * pydict) * Problems) :=
  match rows with
  | [] => mret (paths, [])
  | r :: rows =>
      let where_ := offload_path r in
      if is_hashed_member (file_type r) then
        listing ← attempt (on_machines (list_on_repository t where_));
        match listing with
        | Err err => '(paths, why) ← expire_paths rows paths; mret (paths, (file_name r, FolderNotListed err) :: why)
        | Ok l =>
            let paths := fold_left (fun d p => assoc_set p r d) (in_folder l) paths in
            let empty := where_ +:+ "/" in
            expire_paths rows (match in_folder l, assoc empty paths with
              | [], None => assoc_set empty r paths | _, _ => paths end)
        end
      else expire_paths rows (assoc_set where_ r paths)
  end.
Definition is_folder (p : string) : bool := endswith p "/".
Fixpoint set_gone (id : Z) (f : bool -> bool) (gone : list (Z * bool)) : list (Z * bool) :=
  match gone with
  | [] => [(id, f true)]
  | (i, b) :: gone => if i =? id then (i, f b) :: gone else (i, b) :: set_gone id f gone
  end.
(** The last line of a path. *)
Definition answered (lines : list DeleteFiles.Row) (path : string) : option DeleteFiles.Row :=
  list.last (List.filter (fun line => String.eqb (r_path line) path) lines).
Definition ok_of (lines : list DeleteFiles.Row) (path : string) : bool :=
  match answered lines path with Some line => went (r_status line) | None => false end.
Definition said (lines : list DeleteFiles.Row) (path : string) : why_not :=
  match answered lines path with
  | Some line => DeleteSaid (r_status line) (r_reason line)
  | None => DeleteSaid "not answered" ""
  end.
Definition files_of (paths : list (string * pydict)) : list (string * pydict) :=
  sort_by (fun a b => String.leb a.1 b.1) (List.filter (fun p => negb (is_folder p.1)) paths).
Definition gone_folders (paths : list (string * pydict)) : list (Z * bool) :=
  fold_left (fun gone p => set_gone (file_id p.2) (fun _ => true) gone) (List.filter (fun p => is_folder p.1) paths) [].
Definition gone_files (lines : list DeleteFiles.Row) (paths : list (string * pydict)) (gone : list (Z * bool)) : list (Z * bool) :=
  fold_left (fun gone p => set_gone (file_id p.2) (fun b => b && ok_of lines p.1) gone) (files_of paths) gone.
Definition not_gone (lines : list DeleteFiles.Row) (paths : list (string * pydict)) : Problems :=
  map (fun p => (file_name p.2, said lines p.1)) (List.filter (fun p => negb (ok_of lines p.1)) (files_of paths)).
Fixpoint mark_expired (gone : list (Z * bool)) : P nat :=
  match gone with
  | [] => mret 0%nat
  | (id, true) :: gone =>
      _ ← set_file id (fun now => [("offload_state", PStr "expired"); ("offload_expired_at", PStr now)]);
      n ← mark_expired gone; mret (S n)
  | (_, false) :: gone => mark_expired gone
  end.
Definition expire_request (paths : list (string * pydict)) : pydict :=
  delete_request repository_host (map fst (files_of paths)) (fence e).
Definition prune_repository (now : Z) : P Expired :=
  copies ← read_store (repository_copies (e_backup_id e));
  '(gone, kept) ← of_result (match expiry_plan (e_offload e) now copies with Ok p => Ok p | Err err => Err (DateError err) end);
  match gone with
  | [] => mret (mkExpired 0 kept [])
  | _ =>
      '(paths, why) ← expire_paths gone [];
      match files_of paths with
      | [] => n ← mark_expired (gone_folders paths); mret (mkExpired n kept why)
      | _ =>
          answer ← try_delete (expire_request paths);
          match answer with
          | Err err => mret (mkExpired 0 kept (why ++ [("", DeleteRaised err)]))
          | Ok d =>
              n ← mark_expired (gone_files (files d) paths (gone_folders paths));
              mret (mkExpired n kept (why ++ not_gone (files d) paths))
          end
      end
  end.
(** ** Copying *)
Record Item := mkItem { in_gate : FileToCopy; copied_from : string }.
Definition base_name (path : string) : string :=
  text (reverse (take_while (fun c => negb (bool_decide (c = "/"%char))) (reverse (chars path)))).
Definition text_or_none (r : pydict) (c : string) : option string := match get r c with PStr s => Some s | _ => None end.
Definition number_or_none (r : pydict) (c : string) : option Z := match get r c with PInt n => Some n | _ => None end.
Definition gate_file (r : pydict) (name type source target : string) (checksum : option string) (size : option Z)
    (source_host : string) : FileToCopy :=
  mkFile (e_server_id e) (server_id (e_offload e)) name type source target (text_in r "database_name") (text_in r "engine")
    checksum size source_host target (Some (file_id r)) (number_or_none r "chain_position") (text_or_none r "backup_ended_at").
(** A file of a base directory: the member is held to what the backup recorded, the others to the source. *)
Definition member_item (r : pydict) (member base target path : string) : Item :=
  let relative := if startswith path (base +:+ "/") then str_drop (str_len base + 1) path else base_name path in
  let manifest := String.eqb relative member in
  let target := target +:+ "/" +:+ relative in
  mkItem (gate_file r (base_name path) (if manifest then "MANIFEST" else file_type r) path target
            (if manifest then recorded_checksum r else None) None path) path.
Definition items_of_row (r : pydict) : P (list Item) :=
  let source := if with_share then text_in r "file_path" else host_path r in
  let target := repository_path e r in
  match assoc (upper (file_type r)) HASHED_MEMBER with
  | Some member =>
      l ← on_machines (list_on_source t source);
      let base := rstrip_chars "/" (if String.eqb (host_folder l) "" then source else host_folder l) in
      mret (map (member_item r member base target) (in_folder l))
  | None =>
      from ← (match share with Some sh => of_result (_share_path e r sh) | None => mret source end);
      mret [mkItem (gate_file r (file_name r) (file_type r) source target (recorded_checksum r) (recorded_bytes r)
                      (text_in r "host_path")) from]
  end.

(** A round of the gate: what it would copy waits until the round is hashed, and travels together. *)
Record Round := mkRound { at_machines : W; pending : list (string * string); copy_errors : list (string * string) }.
Definition on_round {A} (f : W -> A * W) (r : Round) : A * Round :=
  let '(a, w) := f (at_machines r) in (a, mkRound w (pending r) (copy_errors r)).
Definition flush (r : Round) : Round :=
  match pending r with
  | [] => r
  | pairs =>
      let '(answer, w) := copy_files t pairs (at_machines r) in
      let failed := match answer with Ok failed => failed | Err reason => map (fun p => (p.2, str_take 1000 reason)) pairs end in
      mkRound w [] (fold_left (fun d p => assoc_set p.1 p.2 d) failed (copy_errors r))
  end.
Definition copy_source (items : list Item) : list (string * string) :=
  fold_left (fun d i => assoc_set (target_path (in_gate i)) (copied_from i) d) items [].
Definition gate_transport (sources : list (string * string)) : transport Round := mkTransport
  (fun paths => on_round (hasher (hash_on_source t) paths))
  (fun paths r => on_round (hasher (hash_on_repository t) paths) (flush r))
  (fun f r => (Ok (Some 0),
     mkRound (at_machines r) (pending r ++ [(default "" (assoc (target_path f) sources), target_path f)]) (copy_errors r)))
  (fun s r => mkRound (wait t s (at_machines r)) (pending r) (copy_errors r)).
Definition integrity_of (o : BackupOffload) : RestoreIntegrity :=
  mkIntegrity SHA256 (OffloadConfig.copy_max_retry o) (OffloadConfig.copy_retry_interval_seconds o) true "compare_copy" false.
Definition run_gate (items : list Item) : P (result gate_error (list FileOutcome) * list (string * string)) := fun s =>
  let '(answer, r) := copy_verified_batch (Some (integrity_of (e_offload e))) (gate_transport (copy_source items))
    (map in_gate items) (CopyGate.mkRun (mkRound (machines s) [] []) true [] 1) in
  (Ok (answer, copy_errors (world r)), mkSite (store s) (at_machines (world r))).
(** The outcomes of a row are those of its items. *)
Fixpoint deal (rows : list (pydict * list Item)) (outcomes : list FileOutcome) : list (pydict * list (Item * FileOutcome)) :=
  match rows with
  | [] => []
  | (r, items) :: rows => (r, zip items outcomes) :: deal rows (drop (length items) outcomes)
  end.

Definition proven_row (mine : list (Item * FileOutcome)) : bool :=
  match mine with [] => false | _ => forallb (fun p => proven p.2) mine end.
(** The outcome the row's checksum is read off: that of the item it was recorded of. *)
Definition manifest_of (mine : list (Item * FileOutcome)) : option FileOutcome :=
  match List.find (fun p => match CopyGate.given (checksum_after_backup (in_gate p.1)) with Some _ => true | None => false end) mine with
  | Some p => Some p.2
  | None => snd <$> head mine
  end.
Definition why_failed (errors : list (string * string)) (mine : list (Item * FileOutcome)) : string :=
  let reasons := map (fun p : Item * FileOutcome => if String.eqb (reason p.2) "" then verdict p.2 else reason p.2)
    (List.filter (fun p => negb (proven p.2)) mine) in
  let told := join "; " (take 3 reasons) in
  let copy_error := default "" (head (omap (fun p : Item * FileOutcome => assoc (target_path (in_gate p.1)) errors) mine)) in
  str_take 1000 (join "; " (List.filter not_empty [if String.eqb told "" then "no file found to copy" else told; copy_error])).
Inductive mark := Verified | NotVerified (why : string) (gone : bool).
Definition mark_row (run_id : Z) (now : string) (errors : list (string * string)) (r : pydict) (mine : list (Item * FileOutcome))
    : P mark :=
  if proven_row mine then
    _ ← set_file (file_id r) (fun _ => [("offload_attempted_at", PStr now); ("offload_server_id", PStr (server_id (e_offload e)));
      ("offload_path", PStr (repository_path e r)); ("offload_state", PStr "verified"); ("offload_run_id", PInt run_id);
      ("offload_verified_at", PStr now); ("offload_error", PStr "")]);
    _ ← check_file_now (file_id r) (manifest_of mine ≫= checksum_target_after_copy) None (str_of_int run_id) "repository";
    mret Verified
  else
    let why := why_failed errors mine in
    _ ← set_file (file_id r) (fun _ => [("offload_state", PStr "failed"); ("offload_error", PStr why); ("offload_attempted_at", PStr now)]);
    let gone := match mine with [] => false | _ => forallb (fun p => String.eqb (verdict p.2) "source_missing") mine end in
    _ ← (if gone then check_file_now (file_id r) None None (str_of_int run_id) "source" else mret "");
    mret (NotVerified why gone).
Fixpoint mark_rows (run_id : Z) (now : string) (errors : list (string * string)) (rows : list (pydict * list (Item * FileOutcome)))
    : P (list (pydict * mark)) :=
  match rows with
  | [] => mret []
  | (r, mine) :: rows =>
      m ← mark_row run_id now errors r mine;
      rest ← mark_rows run_id now errors rows;
      mret ((r, m) :: rest)
  end.
Record Copied := mkCopied { offload_run : Z; marks : list (pydict * mark); copy_summary : summary }.

Definition error_of (err : gate_error) : string := match err with HashFailed reason => reason | _ => "" end.
Definition set_run (run_id : Z) (values : string -> pydict) : P unit :=
  now ← read_clock (utc_now t);
  call (fun c => c ← set_restore_run now run_id (values now) c; Ok (c, tt)).
Definition run_values (node app_version : string) (moment : string) : pydict :=
  let o := e_offload e in
  [("started_at", PStr moment); ("action", PStr ACTION_OFFLOAD); ("restore_id", PStr (e_backup_id e));
   ("source_server_id", PStr (e_server_id e)); ("target_server_id", PStr (server_id o)); ("target_folder", PStr (folder o));
   ("copy_max_retry", PInt (OffloadConfig.copy_max_retry o)); ("phase", PStr "copying"); ("node_host", PStr node);
   ("app_version", PStr app_version)].
Definition offload_entry (node app_version : string) (rows : list pydict) : P Copied :=
  items ← each_row items_of_row rows;
  moment ← read_clock (check_moment t);
  now ← read_clock (utc_now t);
  run_id ← call (start_restore_run now (run_values node app_version moment));
  '(answer, errors) ← run_gate (concat items);
  match answer with
  | Err err =>
      _ ← set_run run_id (fun now => [("phase", PStr "error"); ("ended_at", PStr now); ("error_text", PStr (str_take 2000 (error_of err)))]);
      _ ← each_row (fun r => set_file (file_id r) (fun now => [("offload_state", PStr "failed"); ("offload_attempted_at", PStr now);
            ("offload_error", PStr (str_take 1000 (error_of err)))])) rows;
      fails (GateError err)
  | Ok outcomes =>
      now ← read_clock (utc_now t);
      let s := summarize outcomes in
      marks ← mark_rows run_id now errors (deal (zip rows items) outcomes);
      _ ← set_run run_id (fun now => [("phase", PStr (if s_proven s then "copied" else "refused")); ("ended_at", PStr now);
            ("chain_files", PInt (Z.of_nat (s_files s)));
            ("files_matched", PInt (Z.of_nat (default 0%nat (assoc "match" (s_verdicts s)))));
            ("files_recopied", PInt (Z.of_nat (s_recopied s)));
            ("refused_reason", PStr (str_take 2000 (join "; " (s_unproven s))))]);
      mret (mkCopied run_id marks s)
  end.

(** ** One pass *)
Record Pass := mkPass { copied_ : option Copied; released_ : option Released; expired_ : option Expired; error : option pass_error }.
Definition nothing_done : Pass := mkPass None None None None.
(** The parts in order; what was done before an error stays in the answer. *)
Definition run_parts (node app_version : string) (now : Z) (rows releasable expirable : list pydict) : Site W -> Pass * Site W := fun s =>
  match refusal e with
  | Some why => (mkPass None None None (Some (EntryRefused why)), s)
  | None =>
      let '(c, s) := match rows with [] => (Ok None, s) | _ => (x ← offload_entry node app_version rows; mret (Some x)) s end in
      match c with
      | Err err => (mkPass None None None (Some err), s)
      | Ok c =>
          let '(r, s) := match releasable with [] => (Ok None, s) | _ => (x ← release_sources releasable; mret (Some x)) s end in
          match r with
          | Err err => (mkPass c None None (Some err), s)
          | Ok r =>
              let '(x, s) := match expirable with [] => (Ok None, s) | _ => (x ← prune_repository now; mret (Some x)) s end in
              match x with
              | Err err => (mkPass c r None (Some err), s)
              | Ok x => (mkPass c r x None, s)
              end
          end
      end
  end.
Definition not_verified (m : mark) : bool := match m with Verified => false | _ => true end.
(** [done] when nothing was refused and nothing failed. *)
Definition is_done (a : Pass) : bool :=
  match error a with Some _ => false | None =>
    match copied_ a with Some c => negb (existsb (fun p => not_verified p.2) (marks c)) | None => true end
    && match released_ a with Some r => match release_refused r with [] => true | _ => false end | None => true end
    && match expired_ a with Some x => match expire_refused x with [] => true | _ => false end | None => true end
  end.
End pass.
Arguments P : clear implicits.

(** ** What a pass has to do *)
Definition kept_for (o : BackupOffload) : list Z :=
  List.filter (fun n => negb (n =? 0)) [retention_full o; retention_diff o; retention_log o].
Definition _expirable (e : Entry) (now : Z) (c : Catalog) : result pyexn (list pydict) :=
  match kept_for (e_offload e) with
  | [] => Ok []
  | n :: l =>
      let before := iso_text (now - seconds (fold_left Z.min l n)) in
      if has_repository_copy_before (e_backup_id e) before c
      then '(gone, _) ← expiry_plan (e_offload e) now (repository_copies (e_backup_id e) c); Ok gone
      else Ok []
  end.
Record Todo := mkTodo { to_copy : list pydict; to_release : list pydict; to_expire : list pydict }.
(** A lockdown keeps the delete at the source waiting; the copy off the host goes on. *)
Definition todo_of (e : Entry) (locked : bool) (limit : option Z) (now : Z) (c : Catalog) : result pyexn Todo :=
  let o := e_offload e in
  let per_pass := match limit with Some n => if n =? 0 then files_per_pass o else n | None => files_per_pass o end in
  let retry_before := iso_text (now - seconds (retry_interval_seconds o)) in
  expirable ← _expirable e now c;
  Ok (mkTodo (files_to_offload (e_backup_id e) per_pass retry_before c)
        (if delete_source o && negb locked then files_to_release (e_backup_id e) per_pass c else []) expirable).

(** ** The side a restore reads *)
(** How many parts, the last ones first, two paths share; never all of the shorter. *)
Fixpoint common_parts (fuel : nat) (a b : list string) : nat :=
  match fuel, a, b with
  | S fuel, x :: a, y :: b => if String.eqb x y then S (common_parts fuel a b) else 0
  | _, _, _ => 0
  end.
Definition without_last (n : nat) (parts : list string) : string := join "/" (take (length parts - n) parts).
Definition location_of (want : string) (r : pydict) : option (string * string) :=
  let server_side := split "/"%char (replace_char "\" "/" (host_path r)) in
  let repo_side := split "/"%char (str (get r "offload_path")) in
  let common := common_parts (Nat.min (length server_side) (length repo_side) - 1) (reverse server_side) (reverse repo_side) in
  match common with
  | O => None
  | _ =>
      let server_root := rstrip_chars "/" (without_last common server_side) in
      let repo_root := rstrip_chars "/" (without_last common repo_side) in
      if String.eqb want server_root || startswith want (server_root +:+ "/")
      then Some (str (get r "offload_server_id"), repo_root +:+ str_drop (str_len server_root) want)
      else None
  end.
Inductive side_error := NoVerifiedCopy | NoneUnderIt | InManyPlaces (n : nat).
Definition repository_source (locations : list pydict) (host_dir : string) : result side_error (string * string) :=
  match locations with
  | [] => Err NoVerifiedCopy
  | _ =>
      match remove_dups (omap (location_of (slashed host_dir)) locations) with
      | [] => Err NoneUnderIt
      | [found] => Ok found
      | many => Err (InManyPlaces (length many))
      end
  end.
