(* ===== verification/OffloadPassProofs.v ===== *)
(** * What a pass may delete, and what it may say of it.

    Proofs over [OffloadPass], for any transport and any truthful hasher. A source goes only after the copy of every
    file of it was hashed again and found to be the recorded one; the repository loses only what the expiry rule of
    [Offload] names; a row is called verified only when every file its source listed was proven. The last part runs a
    pass on concrete hosts, and shows two cases where the rows and the files part. *)

From S2P Require Import Prelude Py PyTime Integrity CopyGate CopyGateProofs DeleteFiles Prune SqlTable.
From S2P Require Import SqlTableProofs BackupCatalog BackupCatalogProofs OffloadConfig Offload OffloadExpiryProofs OffloadPass.

(** ** One row of the catalog after a statement *)
Lemma find_map (q : pydict -> bool) (f : pydict -> pydict) l : (forall x, q (f x) = q x) ->
  List.find q (map f l) = f <$> List.find q l.
Proof. intros H. induction l as [|x l IH]; cbn; [done|]. rewrite H. by destruct (q x). Qed.
Definition column_of (column : string) (id : Z) (c : Catalog) : option pyval :=
  (fun r => get r column) <$> find_row backup_files id c.
Lemma update_column id values c c' column id' : sql_update key backup_files id values c = Ok c' ->
  ("file_id" ∉ map fst values) -> (id' <> id \/ column ∉ map fst values) ->
  column_of column id' c' = column_of column id' c.
Proof.
  intros Hu Hk Hor. destruct (sql_update_cases _ _ _ _ _ _ Hu) as [->|(old & Ho)]; [done|].
  pose proof (update_inv _ _ _ _ _ _ _ Ho Hu) as (-> & _). unfold column_of, find_row. rewrite rows_set_eq.
  fold (find_row backup_files id c) in Ho. pose proof Ho as Ho'. apply find_row_some in Ho' as [_ Hid].
  rewrite find_map.
  - destruct (List.find _ _) as [r|] eqn:Hf; [|done]. apply (f_equal Some). destruct (is_row backup_files id r) eqn:Hr; [|done].
    destruct Hor as [Hne|Hc].
    + apply find_some in Hf as [_ Hf]. apply is_row_iff in Hf, Hr. congruence.
    + rewrite assign_other by done. apply is_row_iff in Hr. assert (id' = id) as ->.
      { apply find_some in Hf as [_ Hf]. apply is_row_iff in Hf. congruence. }
      unfold find_row in Ho. rewrite Hf in Ho. by injection Ho as ->.
  - intros r. destruct (is_row backup_files id r) eqn:Hr; [|done]. unfold is_row. rewrite assign_id by exact Hk.
    apply is_row_iff in Hr. by rewrite Hid, Hr.
Qed.
Lemma other_table_column s t c column id : t_name s <> "backup_files" ->
  column_of column id (assoc_set (t_name s) t c) = column_of column id c.
Proof. intros Hs. unfold column_of, find_row. by rewrite rows_set_ne. Qed.
Lemma files_update_column id values c c' column id' : update backup_files id values c = Ok c' ->
  ("file_id" ∉ map fst values) -> (id' <> id \/ column ∉ map fst values) ->
  column_of column id' c' = column_of column id' c.
Proof. intros [->|Hu]%update_sql; [done|]. by eapply update_column. Qed.
Lemma set_file_column now id values c c' column id' : set_backup_file now id values c = Ok c' -> column <> "updated_at" ->
  (id' <> id \/ column ∉ map fst values) -> column_of column id' c' = column_of column id' c.
Proof.
  unfold set_backup_file. intros (v & Hv & H)%result_bind_ok Hc Hor.
  apply known_ok in Hv as [-> Hf]. apply result_bind_ok in H as (? & _ & H). apply result_bind_ok in H as (? & _ & H).
  apply result_bind_ok in H as (? & _ & H). apply result_bind_ok in H as (? & _ & H). apply result_bind_ok in H as (? & _ & H).
  eapply files_update_column; [exact H| |].
  - intros [Hin|Hin]%over_keys; [|by apply list_elem_of_singleton in Hin].
    apply list_elem_of_fmap in Hin as (p & Hp & Hin). rewrite list.Forall_forall in Hf. specialize (Hf p Hin). rewrite <-Hp in Hf.
    revert Hf. apply (bool_decide_unpack (_ ∉ _)). by vm_compute.
  - destruct Hor as [?|Hor]; [by left|right]. intros [Hin|Hin]%over_keys; [done|]. by apply list_elem_of_singleton in Hin.
Qed.
Ltac unwind := repeat match goal with
  | H : (_ ≫= _) = Ok _ |- _ => apply result_bind_ok in H as (? & ? & H)
  | x : (Catalog * _)%type |- _ => destruct x
  | H : Ok _ = Ok _ |- _ => injection H; clear H; intros; subst
  end.
(** What the pass alone says of a copy. *)
Definition OWN : list string := ["offload_state"; "source_deleted_at"; "offload_expired_at"; "offload_verified_at"].
Definition CHECK_COLUMNS : list string :=
  ["checksum_last_check"; "last_checked_at"; "last_check_result"; "on_disk"; "checksum_matches"; "state"] ++ AV_SCAN_COLUMNS.
Lemma check_columns_apart : Forall (fun k => k ∉ CHECK_COLUMNS) ("file_id" :: OWN).
Proof. apply (bool_decide_unpack _). by vm_compute. Qed.
Lemma own_column column : column ∈ OWN -> column <> "updated_at" /\ (column ∉ CHECK_COLUMNS).
Proof.
  intros H. pose proof check_columns_apart as Hf. rewrite list.Forall_forall in Hf. split; [|apply Hf; by right].
  intros ->. revert H. apply (bool_decide_unpack (_ ∉ _)). by vm_compute.
Qed.
Lemma record_check_column now moment values c c' n column id : record_file_check now moment values c = Ok (c', n) ->
  column ∈ OWN -> column_of column id c' = column_of column id c.
Proof.
  intros H [Hu Hc]%own_column. unfold record_file_check in H. unwind.
  match goal with H : insert _ _ _ _ = Ok (?c1, _) |- _ => apply insert_inv in H as (_ & Hc1 & _); rename c1 into cc end.
  assert (Hcol : column_of column id cc = column_of column id c) by (rewrite Hc1; by apply other_table_column).
  rewrite <-Hcol. lazymatch goal with H : context [latest_of ?v ?st ++ scan_of ?v] |- _ =>
    pose proof (check_values_keys (fun s => s) v st) as Hk; destruct (latest_of v st ++ scan_of v) as [|p latest] end; [by simplify_eq|].
  rewrite list.Forall_forall in Hk.
  eapply files_update_column; [eassumption|..].
  - intros [Hin|Hin]%over_keys; [|by apply list_elem_of_singleton in Hin]. apply Hk in Hin. revert Hin.
    apply (bool_decide_unpack (_ ∉ _)). by vm_compute.
  - right. intros [Hin|Hin]%over_keys; [by apply Hk in Hin|]. by apply list_elem_of_singleton in Hin.
Qed.

(** ** What a pass does to its site *)
Section site.
Context {W : Type} `{Disk W}.
(** Of a column of the files, only the rows of [told] may be another; of the paths that are there,
    only those of [gone] may be gone. *)
Definition site_step (column : string) (told : Z -> Prop) (gone : string -> Prop) (s s' : Site W) : Prop :=
  (forall id, column_of column id (store s') = column_of column id (store s) \/ told id)
  /\ (forall q, there (machines s) q -> there (machines s') q \/ gone q).
#[export] Instance site_step_refl column told gone : Reflexive (site_step column told gone).
Proof. split; auto. Qed.
#[export] Instance site_step_trans column told gone : Transitive (site_step column told gone).
Proof.
  intros s1 s2 s3 [H1 G1] [H2 G2]. split.
  - intros id. destruct (H1 id) as [E1|?], (H2 id) as [E2|?]; auto. left. congruence.
  - intros q Hq. destruct (G1 q Hq) as [Hq1|?]; auto.
Qed.
Lemma site_step_weaken column (told told' : Z -> Prop) (gone gone' : string -> Prop) s s' :
  (forall id, told id -> told' id) -> (forall q, gone q -> gone' q) ->
  site_step column told gone s s' -> site_step column told' gone' s s'.
Proof.
  intros Ht Hg [H1 H2]. split; [intros id; destruct (H1 id); auto|intros q Hq; destruct (H2 q Hq); auto].
Qed.

Section does.
Context (column : string) (told : Z -> Prop) (gone : string -> Prop).
Abbreviation R := (site_step column told gone).
Lemma does_bind {A B} (m : P W A) (f : A -> P W B) s :
  R s (m s).2 -> (forall a s', m s = (Ok a, s') -> R s' (f a s').2) -> R s ((m ≫= f) s).2.
Proof.
  intros Hm Hf. unfold mbind, P_bind. destruct (m s) as [[a|e] s1] eqn:E; [|done]. etransitivity; [exact Hm|by apply Hf].
Qed.
Lemma does_ret {A} (a : A) s : R s (mret (M := P W) a s).2.
Proof. done. Qed.
Lemma does_call {A} (f : Catalog -> result catalog_error (Catalog * A)) s :
  (forall c c' a id, f c = Ok (c', a) -> column_of column id c' = column_of column id c \/ told id) -> R s (call f s).2.
Proof.
  intros Hf. unfold call. destruct (f (store s)) as [[c' a]|err] eqn:E; [|done]. split; cbn; [|by left].
  intros id. by eapply Hf.
Qed.
Lemma does_machines {A} (f : W -> result string A * W) s : (forall w q, there w q -> there (f w).2 q) -> R s (on_machines f s).2.
Proof.
  intros Hf. unfold on_machines. specialize (Hf (machines s)). destruct (f (machines s)) as [a w].
  split; cbn; [by left|intros q Hq; left; by apply Hf].
Qed.
Lemma does_each {A} (f : pydict -> P W A) l s : (forall r s', r ∈ l -> R s' (f r s').2) -> R s (each_row f l s).2.
Proof.
  revert s. induction l as [|r l IH]; intros s Hf; [apply does_ret|]. cbn [each_row].
  apply does_bind; [apply Hf; by left|]. intros a s1 _. apply does_bind; [apply IH; intros; apply Hf; by right|].
  intros. apply does_ret.
Qed.
Lemma does_try_delete request s : (forall q host d, parse_host (get request "host") = Ok host ->
    (delete_files request (machines s)).1 = Ok d -> may_go request host (files d) q -> gone q) ->
  R s (try_delete request s).2.
Proof.
  intros Hg. unfold try_delete. pose proof (run_delete_files_world request (machines s)) as Hw.
  destruct (run_delete_files request (machines s)) as [a w]. cbn in Hw |- *. subst w. split; cbn; [by left|].
  intros q Hq. destruct (delete_files_keeps request (machines s) q Hq) as [?|(host & d & Hh & Hd & _ & Hm)]; [by left|].
  right. by eapply Hg.
Qed.

Context (t : Transport W) (Hcolumn : column ∈ OWN).
Lemma does_set_file id values s :
  (forall now, column ∈ map fst (values now) -> told id) -> R s (set_file t id values s).2.
Proof using Hcolumn.
  intros Ht. unfold set_file. apply does_bind; [by cbn|]. intros now s1 _. apply does_call.
  intros c c' a id' (c1 & Hc1 & [= <- _])%result_bind_ok. destruct (decide (id' = id)) as [->|Hne].
  - destruct (decide (column ∈ map fst (values now))) as [Hin|Hin]; [right; by eapply Ht|left].
    eapply set_file_column; [exact Hc1|by apply own_column|by right].
  - left. eapply set_file_column; [exact Hc1|by apply own_column|by left].
Qed.
Lemma does_check_file id checksum size by_run location s : R s (check_file_now t id checksum size by_run location s).2.
Proof using Hcolumn.
  unfold check_file_now. apply does_bind; [by cbn|]. intros now s1 _. apply does_bind; [by cbn|]. intros moment s2 _.
  apply does_call. intros c c' a id' Hc. left. unfold check_backup_file in Hc. destruct (find_row backup_files id c); [|done].
  apply result_bind_ok in Hc as ([c1 n] & Hc & [= <- _]). by eapply record_check_column.
Qed.
End does.
End site.

(** What a delete request names: [q] is another way to write one of its paths, inside its root. *)
Definition reaches (host : pydict) (root name q : string) : Prop :=
  exists h p, parse_host (PDict host) = Ok h
    /\ _validated_path (PStr name) h (PStr root) = Ok p
    /\ leads_to h q = leads_to h p
    /\ (root_text (PStr root) <> "" -> inside h (root_text (PStr root)) q).
Lemma request_reaches host names root h rows q : parse_host (get (delete_request host names root) "host") = Ok h ->
  may_go (delete_request host names root) h rows q -> exists name, name ∈ names /\ reaches host root name q.
Proof.
  intros Hh (p & _ & Hl & (raw & v & Hraw & Hv & Hp) & Hin). unfold get in Hh, Hraw, Hp, Hin. cbn in Hh, Hraw, Hp, Hin.
  destruct names as [|k ks]; [done|]. cbn in Hraw. injection Hraw as <-. change (v ∈ map PStr (k :: ks)) in Hv.
  apply list_elem_of_fmap in Hv as (name & -> & Hn). exists name. split; [done|]. by exists h, p.
Qed.
(** What an answer says of a path: gone. *)
Definition said_gone (d : Deletion) (name : string) : Prop :=
  exists line, line ∈ files d /\ r_path line = name /\ went (r_status line) = true.

(** ** Parts of a pass that leave the machines alone *)
Section quiet.
Context {W : Type} `{Machine W} (t : Transport W).
Definition quiet {A} (m : P W A) : Prop := forall s, machines (m s).2 = machines s.
Lemma quiet_bind {A B} (m : P W A) (f : A -> P W B) : quiet m -> (forall a, quiet (f a)) -> quiet (m ≫= f).
Proof.
  intros Hm Hf s. unfold mbind, P_bind. specialize (Hm s). destruct (m s) as [[a|e] s1]; cbn in *; [|done]. by rewrite Hf.
Qed.
Lemma quiet_ret {A} (a : A) : quiet (mret (M := P W) a).
Proof. done. Qed.
Lemma quiet_call {A} (f : Catalog -> result catalog_error (Catalog * A)) : quiet (call f).
Proof. intros s. unfold call. by destruct (f (store s)) as [[]|]. Qed.
Lemma quiet_clock f : quiet (read_clock f).
Proof. done. Qed.
Lemma quiet_set_file id values : quiet (set_file t id values).
Proof. apply quiet_bind; [apply quiet_clock|]. intros now. apply quiet_call. Qed.
Lemma quiet_check id checksum size by_run location : quiet (check_file_now t id checksum size by_run location).
Proof. apply quiet_bind; [apply quiet_clock|]. intros now. apply quiet_bind; [apply quiet_clock|]. intros moment. apply quiet_call. Qed.
Lemma quiet_set_run id values : quiet (set_run t id values).
Proof. apply quiet_bind; [apply quiet_clock|]. intros now. apply quiet_call. Qed.
Lemma quiet_each {A} (f : pydict -> P W A) l : (forall r, quiet (f r)) -> quiet (each_row f l).
Proof.
  intros Hf. induction l as [|r l IH]; cbn [each_row]; [apply quiet_ret|].
  apply quiet_bind; [apply Hf|]. intros a. apply quiet_bind; [exact IH|]. intros rest. apply quiet_ret.
Qed.
Lemma quiet_recheck found r : quiet (recheck t found r).
Proof.
  unfold recheck. destruct (same_now found r); [apply quiet_ret|]. apply quiet_bind; [apply quiet_check|]. intros result.
  apply quiet_bind; [apply quiet_set_file|]. intros _. apply quiet_ret.
Qed.
Lemma quiet_release_lines path_of lines : quiet (release_lines t path_of lines).
Proof.
  induction lines as [|line lines IH]; cbn [release_lines]; [apply quiet_ret|]. apply quiet_bind.
  - destruct (assoc _ _); [|apply quiet_ret]. destruct (went _); [|apply quiet_ret].
    apply quiet_bind; [apply quiet_set_file|]. intros _. apply quiet_ret.
  - intros [n why]. apply quiet_bind; [exact IH|]. intros []. apply quiet_ret.
Qed.
Lemma quiet_mark_row e run_id now errors r mine : quiet (mark_row e t run_id now errors r mine).
Proof.
  unfold mark_row. destruct (proven_row mine).
  - apply quiet_bind; [apply quiet_set_file|]. intros _. apply quiet_bind; [apply quiet_check|]. intros _. apply quiet_ret.
  - apply quiet_bind; [apply quiet_set_file|]. intros _. apply quiet_bind; [|intros _; apply quiet_ret].
    destruct (match mine with [] => _ | _ => _ end); [apply quiet_check|apply quiet_ret].
Qed.
Lemma quiet_mark_rows e run_id now errors rows : quiet (mark_rows e t run_id now errors rows).
Proof.
  induction rows as [|[r mine] rows IH]; cbn [mark_rows]; [apply quiet_ret|]. apply quiet_bind; [apply quiet_mark_row|]. intros m.
  apply quiet_bind; [exact IH|]. intros rest. apply quiet_ret.
Qed.
End quiet.

(** ** Release *)
Lemma group_paths share group k r : assoc k (paths_of_group share group) = Some r -> r ∈ group /\ source_name share r = k.
Proof.
  unfold paths_of_group. induction group as [|x group IH] using rev_ind; [done|]. rewrite fold_left_app. cbn [fold_left].
  destruct (decide (k = source_name share x)) as [->|Hne].
  - rewrite assoc_set_eq. intros [= ->]. split; [set_solver|done].
  - rewrite assoc_set_ne by done. intros H%IH. set_solver.
Qed.
Lemma group_path_names share group k : k ∈ map fst (paths_of_group share group) -> exists r, r ∈ group /\ source_name share r = k.
Proof.
  intros H. assert (Ha : exists r, assoc k (paths_of_group share group) = Some r).
  { revert H. generalize (paths_of_group share group). intros l. induction l as [|[k' v] l IH]; cbn; [by intros ?%not_elem_of_nil|].
    intros [->|H]%list.elem_of_cons; [rewrite String.eqb_refl; eauto|]. destruct (String.eqb k k'); eauto. }
  destruct Ha as [r Hr]. exists r. by apply group_paths.
Qed.

Section release.
Context {W : Type} `{Disk W} (e : Entry) (t : Transport W) (source_host : pydict) (share : option Share).
Hypothesis repository_reads : forall paths w q, there w q -> there (hash_on_repository t paths w).2 q.
Lemma hasher_keeps paths w q : there w q -> there (hasher (hash_on_repository t) paths w).2 q.
Proof using repository_reads. destruct paths; [done|apply repository_reads]. Qed.

(** What a release may take: not kept, and its copy hashed just now as its backup recorded it. *)
Definition candidates (s : Site W) (rows : list pydict) : list pydict :=
  List.filter (fun r => negb (stays (newest_starts e (store s)) r)) rows.
Definition may_release (s : Site W) (rows : list pydict) (r : pydict) : Prop :=
  r ∈ rows /\ is_hashed_member (file_type r) = false
  /\ (exists floor, (text_in r "database_name", floor) ∈ newest_full_per_database (e_backup_id e) (store s)
        /\ truthy floor = true /\ str_lt (at_ r) (str floor) = true)
  /\ exists found, (hasher (hash_on_repository t) (map offload_path (candidates s rows)) (machines s)).1 = Ok found
       /\ same_bytes (assoc (offload_path r) found) (recorded_checksum r) (recorded_bytes r) = true.
Lemma starts_say c k x : assoc k (newest_starts e c) = Some x ->
  exists v, (k, v) ∈ newest_full_per_database (e_backup_id e) c /\ x = str (py_or v (PStr "")).
Proof.
  unfold newest_starts. induction (newest_full_per_database (e_backup_id e) c) as [|[d v] l IH] using rev_ind; [done|].
  rewrite fold_left_app. cbn [fold_left fst snd]. destruct (decide (k = d)) as [->|Hne].
  - rewrite assoc_set_eq. intros [= <-]. exists v. split; [set_solver|done].
  - rewrite assoc_set_ne by done. intros (v' & Hv & ->)%IH. exists v'. split; [set_solver|done].
Qed.
Lemma not_kept (s : Site W) r : stays (newest_starts e (store s)) r = false -> is_hashed_member (file_type r) = false
  /\ exists floor, (text_in r "database_name", floor) ∈ newest_full_per_database (e_backup_id e) (store s)
        /\ truthy floor = true /\ str_lt (at_ r) (str floor) = true.
Proof.
  unfold stays, floor_of. intros [[Hm He]%orb_false_iff Hl]%orb_false_iff. split; [done|].
  destruct (assoc _ _) as [x|] eqn:Ha; [|done]. cbn in He, Hl. apply starts_say in Ha as (v & Hv & ->). exists v.
  unfold py_or in He, Hl. destruct (truthy v) eqn:Ht; [|by vm_compute in He]. split_and!; [done|done|]. by apply str_lt_not_leb.
Qed.

(** What the deletes of a release answer, one after the other from [w] on: a group and its answer. *)
Fixpoint deletes (groups : list (string * list pydict)) (w : W) : list (list pydict * Deletion) :=
  match groups with
  | [] => []
  | g :: groups =>
      let '(answer, w) := run_delete_files (release_request source_host share g.1 g.2) w in
      match answer with Ok d => [(g.2, d)] | Err _ => [] end ++ deletes groups w
  end.
(** The deletes of the pass: of the rows whose copies were found to hold, after the hashing. *)
Definition pass_deletes (s : Site W) (rows : list pydict) : list (list pydict * Deletion) :=
  match hasher (hash_on_repository t) (map offload_path (candidates s rows)) (machines s) with
  | (Ok found, w) => deletes (group_by (fun r => _source_root r e) (List.filter (same_now found) (candidates s rows))) w
  | (Err _, _) => []
  end.
Definition answered_gone (s : Site W) (rows : list pydict) (r : pydict) : Prop :=
  exists group d, (group, d) ∈ pass_deletes s rows /\ r ∈ group /\ said_gone d (source_name share r).

Section of_rows.
Context (may : pydict -> Prop) (ds : list (list pydict * Deletion)).
Definition released_rows (id : Z) : Prop := exists r, may r /\ file_id r = id
  /\ exists group d, (group, d) ∈ ds /\ r ∈ group /\ said_gone d (source_name share r).
Definition released_paths (q : string) : Prop := exists r, may r /\ reaches source_host (_source_root r e) (source_name share r) q.
Abbreviation R := (site_step "source_deleted_at" released_rows released_paths).
Lemma deleted_at_own : "source_deleted_at" ∈ OWN. Proof. right. left. Qed.
Lemma recheck_step found r s : R s (recheck t found r s).2.
Proof.
  unfold recheck. destruct (same_now found r); [done|]. cbv zeta.
  apply does_bind; [apply does_check_file, deleted_at_own|]. intros result s1 _.
  apply does_bind; [|done]. apply does_set_file; [apply deleted_at_own|].
  intros now Hin. exfalso. revert Hin. cbn [map fst]. apply (bool_decide_unpack (_ ∉ _)). by vm_compute.
Qed.
Lemma release_lines_step group d lines s : Forall may group -> (group, d) ∈ ds ->
  (forall line, line ∈ lines -> line ∈ files d) ->
  R s (release_lines t (paths_of_group share group) lines s).2.
Proof.
  intros Hm Hd. revert s. induction lines as [|line lines IH]; intros s Hl; [done|]. cbn [release_lines].
  apply does_bind.
  - destruct (assoc _ _) as [r|] eqn:Ha; [|done]. destruct (went (r_status line)) eqn:Hw; [|done].
    apply group_paths in Ha as [Hr Hn]. apply does_bind; [|done]. apply does_set_file; [apply deleted_at_own|].
    intros _ _. exists r. rewrite list.Forall_forall in Hm. split_and!; [by apply Hm|done|].
    exists group, d. split_and!; [done..|]. exists line. rewrite Hn. split_and!; [apply Hl; by left|done|done].
  - intros [n why] s1 _. apply does_bind; [|by intros []]. apply IH. intros. apply Hl. by right.
Qed.
Lemma release_groups_step groups s : Forall (fun g => Forall (fun r => may r /\ _source_root r e = g.1) g.2) groups ->
  (forall x, x ∈ deletes groups (machines s) -> x ∈ ds) -> R s (release_groups t source_host share groups s).2.
Proof.
  intros Hg. revert s. induction Hg as [|[root g] groups Hg _ IH]; intros s Hds; [done|]. cbn [release_groups fst snd].
  cbn [deletes fst snd] in Hds. rewrite list.Forall_forall in Hg.
  assert (Hgroup : R s (release_group t source_host share root g s).2
    /\ machines (release_group t source_host share root g s).2 = (run_delete_files (release_request source_host share root g) (machines s)).2).
  { unfold release_group, try_delete. unfold mbind, P_bind.
    pose proof (does_try_delete "source_deleted_at" released_rows released_paths (release_request source_host share root g) s) as Hstep.
    unfold try_delete in Hstep. destruct (run_delete_files _ (machines s)) as [answer w] eqn:E. cbn [fst snd] in *.
    assert (Hdel : R s (mkSite (store s) w)).
    { apply Hstep. intros q h d Hh _ Hgo. destruct (request_reaches _ _ _ _ _ _ Hh Hgo) as (name & Hn & Hq).
      apply elem_of_sort_by, group_path_names in Hn as (r & Hr & <-). destruct (Hg r Hr) as [Hmay <-]. by exists r. }
    destruct answer as [d|err]; [|done]. split; [|by rewrite quiet_release_lines]. etransitivity; [exact Hdel|].
    eapply (release_lines_step g d); [|apply Hds; by left|done]. apply list.Forall_forall. intros r Hr. by apply Hg. }
  destruct Hgroup as [Hstep Hw]. unfold mbind, P_bind. destruct (release_group _ _ _ _ _ _) as [[[n why]|x] s1]; cbn [snd] in *; [|done].
  assert (Hrest : R s1 (release_groups t source_host share groups s1).2).
  { apply IH. intros x Hx. apply Hds. rewrite Hw in Hx. destruct (run_delete_files _ (machines s)) as [answer w]. set_solver. }
  destruct (release_groups _ _ _ groups s1) as [[[m more]|x] s2]; cbn [snd] in *; by etransitivity.
Qed.
End of_rows.
Lemma release_step rows s :
  site_step "source_deleted_at" (released_rows (may_release s rows) (pass_deletes s rows)) (released_paths (may_release s rows))
    s (release_sources e t source_host share rows s).2.
Proof using repository_reads.
  unfold release_sources. apply does_bind; [done|]. intros starts s1 [= <- <-].
  fold (candidates s rows). destruct (candidates s rows) as [|r0 l] eqn:Hc; [done|]. rewrite <-Hc. clear r0 l Hc.
  apply does_bind; [by apply does_machines, hasher_keeps|]. intros found s1 Hfound.
  assert (Hf : hasher (hash_on_repository t) (map offload_path (candidates s rows)) (machines s) = (Ok found, machines s1)).
  { unfold on_machines in Hfound. destruct (hasher _ _ _) as [[a|x] w]; [|done]. by injection Hfound as -> <-. }
  apply does_bind; [apply does_each; intros; apply recheck_step|]. intros checks s2 Hchecks.
  assert (Hs2 : machines s2 = machines s1).
  { pose proof (quiet_each (recheck t found) (candidates s rows) (quiet_recheck t found) s1) as Hq. by rewrite Hchecks in Hq. }
  apply does_bind; [|by intros [] ? _]. apply release_groups_step.
  - apply list.Forall_forall. intros [root g] Hg%group_by_elem. cbn [fst snd]. subst g. apply list.Forall_forall. intros r Hr.
    unfold candidates in Hr. rewrite !elem_of_filter_bool in Hr. destruct Hr as [[[Hr Hst%negb_true_iff] Hsame] Hroot%String.eqb_eq].
    split; [|done]. destruct (not_kept _ _ Hst) as [Hm Hfloor]. split_and!; [done|done|done|]. exists found. by rewrite Hf.
  - intros x. rewrite Hs2. unfold pass_deletes. by rewrite Hf.
Qed.
End release.

(** ** Expiry *)
Section gone.
Definition gone_at (id : Z) (gone : list (Z * bool)) : option bool := snd <$> List.find (fun p => p.1 =? id) gone.
Lemma set_gone_at id f gone id' : gone_at id' (set_gone id f gone) =
  if id' =? id then Some (f (default true (gone_at id gone))) else gone_at id' gone.
Proof.
  unfold gone_at. induction gone as [|[i b] gone IH]; cbn.
  - rewrite (Z.eqb_sym id id'). by destruct (Z.eqb_spec id' id).
  - destruct (Z.eqb_spec i id) as [->|Hi]; cbn.
    + rewrite (Z.eqb_sym id id'). by destruct (Z.eqb_spec id' id).
    + destruct (Z.eqb_spec i id') as [->|]; [by rewrite (proj2 (Z.eqb_neq _ _) Hi)|exact IH].
Qed.
Lemma set_gone_keys id f gone i : i ∈ map fst (set_gone id f gone) -> i = id \/ i ∈ map fst gone.
Proof.
  induction gone as [|[j b] gone IH]; cbn; [intros ?%list_elem_of_singleton; by left|].
  destruct (Z.eqb_spec j id); cbn; rewrite !list.elem_of_cons; [by right|]. intros [->|Hi]; [by right; left|].
  destruct (IH Hi); [by left|by right; right].
Qed.
Lemma set_gone_NoDup id f gone : NoDup (map fst gone) -> NoDup (map fst (set_gone id f gone)).
Proof.
  induction gone as [|[i b] gone IH]; cbn; intros Hn; [apply NoDup_singleton|].
  apply list.NoDup_cons in Hn as [Hi Hn]. destruct (Z.eqb_spec i id) as [->|Hne]; cbn; constructor; try done; [|by apply IH].
  by intros [?|?]%set_gone_keys.
Qed.
Lemma gone_in id gone : NoDup (map fst gone) -> (id, true) ∈ gone -> gone_at id gone = Some true.
Proof.
  unfold gone_at. induction gone as [|[i b] gone IH]; cbn; intros Hn Hin; [by apply not_elem_of_nil in Hin|].
  apply list.NoDup_cons in Hn as [Hi Hn]. apply list.elem_of_cons in Hin as [[= <- <-]|Hin]; [by rewrite Z.eqb_refl|].
  destruct (Z.eqb_spec i id) as [->|]; [|by apply IH]. destruct Hi. apply list_elem_of_fmap. by exists (id, true).
Qed.
Context (lines : list DeleteFiles.Row) (paths : list (string * pydict)).
Lemma gone_folders_ok : NoDup (map fst (gone_folders paths)) /\ forall id b, gone_at id (gone_folders paths) = Some b ->
  exists p, p ∈ paths /\ file_id p.2 = id.
Proof.
  unfold gone_folders. assert (Hsub : forall p, p ∈ List.filter (fun p => is_folder p.1) paths -> p ∈ paths) by (by intros p [? _]%elem_of_filter_bool).
  revert Hsub. induction (List.filter _ paths) as [|p l IH] using rev_ind; intros Hsub; [split; [constructor|done]|].
  rewrite fold_left_app. cbn [fold_left]. destruct IH as [Hn Hg]; [intros; apply Hsub; set_solver|]. split; [by apply set_gone_NoDup|].
  intros id b. rewrite set_gone_at. destruct (Z.eqb_spec id (file_id p.2)) as [->|]; [|apply Hg]. intros _. exists p. split; [apply Hsub; set_solver|done].
Qed.
Lemma gone_files_ok gone : NoDup (map fst gone) -> let g := gone_files lines paths gone in
  NoDup (map fst g) /\ forall id, gone_at id g = Some true ->
    (gone_at id gone = Some true \/ exists p, p ∈ files_of paths /\ file_id p.2 = id)
    /\ forall p, p ∈ files_of paths -> file_id p.2 = id -> ok_of lines p.1 = true.
Proof.
  intros Hn. unfold gone_files. cbn zeta. induction (files_of paths) as [|p l IH] using rev_ind.
  { split; [done|]. intros id Hid. split; [by left|]. by intros p ?%not_elem_of_nil. }
  rewrite fold_left_app. cbn [fold_left]. destruct IH as [Hn' Hg]. split; [by apply set_gone_NoDup|].
  intros id. rewrite set_gone_at. destruct (Z.eqb_spec id (file_id p.2)) as [->|Hne].
  - intros [= [Hb Hok]%andb_true_iff]. split; [right; exists p; set_solver|].
    intros p' [Hp' | ->%list_elem_of_singleton]%elem_of_app Hid; [|done].
    destruct (gone_at (file_id p.2) (fold_left _ l gone)) as [b|] eqn:E; cbn in Hb.
    + subst b. by apply (Hg _ E).
    + exfalso. clear -E Hp' Hid. induction l as [|x l IH] using rev_ind; [by apply not_elem_of_nil in Hp'|].
      rewrite fold_left_app in E. cbn [fold_left] in E. rewrite set_gone_at in E. destruct (Z.eqb_spec (file_id p.2) (file_id x.2)); [done|].
      apply elem_of_app in Hp' as [Hp' | ->%list_elem_of_singleton]; [by apply IH|congruence].
  - intros Hid. destruct (Hg _ Hid) as [[?|(p' & ? & ?)] Hall]; (split; [|intros p2 [? | ->%list_elem_of_singleton]%elem_of_app ?; [auto|congruence]]).
    + by left.
    + right. exists p'. set_solver.
Qed.
End gone.
Lemma ok_said_gone d p : ok_of (files d) p = true -> said_gone d p.
Proof.
  intros Hok. unfold ok_of, answered in Hok. destruct (list.last _) as [line|] eqn:El; [|done].
  apply last_Some in El as [l' El]. assert (line ∈ List.filter (fun line => String.eqb (r_path line) p) (files d)) as Hin by (rewrite El; set_solver).
  apply elem_of_filter_bool in Hin as [Hin Hp%String.eqb_eq]. exists line. done.
Qed.

Section expire.
Context {W : Type} `{Disk W} (e : Entry) (t : Transport W) (repository_host : pydict).
Hypothesis listing_reads : forall folder w q, there w q -> there (list_on_repository t folder w).2 q.

(** What the pass reads of each copy, from [w] on: its own path, or what its folder is listed to
    hold; nothing of a folder that is not listed. *)
Fixpoint listed (rows : list pydict) (w : W) : list (pydict * option (list string)) :=
  match rows with
  | [] => []
  | r :: rows =>
      if is_hashed_member (file_type r)
      then let '(l, w) := list_on_repository t (offload_path r) w in
           (r, match l with Ok l => Some (in_folder l) | Err _ => None end) :: listed rows w
      else (r, Some [offload_path r]) :: listed rows w
  end.
Fixpoint after_listing (rows : list pydict) (w : W) : W :=
  match rows with
  | [] => w
  | r :: rows => after_listing rows (if is_hashed_member (file_type r) then (list_on_repository t (offload_path r) w).2 else w)
  end.
(** The paths the pass keeps, each with the last row that has it. *)
Definition keep (paths : list (string * pydict)) (x : pydict * option (list string)) : list (string * pydict) :=
  match x.2 with
  | None => paths
  | Some names =>
      let paths := fold_left (fun d p => assoc_set p x.1 d) names paths in
      match names, assoc (offload_path x.1 +:+ "/") paths with
      | [], None => assoc_set (offload_path x.1 +:+ "/") x.1 paths
      | _, _ => paths
      end
  end.
Definition kept_paths (rows : list pydict) (w : W) : list (string * pydict) := fold_left keep (listed rows w) [].
(** The delete of the pass answered that a path is gone. *)
Definition deleted (rows : list pydict) (w : W) (name : string) : Prop :=
  exists d, (run_delete_files (expire_request e repository_host (kept_paths rows w)) (after_listing rows w)).1 = Ok d
    /\ said_gone d name.
Lemma listed_rows rows w r x : (r, x) ∈ listed rows w -> r ∈ rows.
Proof.
  revert w. induction rows as [|r0 rows IH]; intros w; cbn [listed]; [by intros ?%not_elem_of_nil|].
  destruct (is_hashed_member (file_type r0)); [destruct (list_on_repository t _ w) as [l w1]|];
    (intros [[= -> _]|Hin]%list.elem_of_cons; [by left|right; by eapply IH]).
Qed.
Lemma listed_file rows w r names : (r, Some names) ∈ listed rows w -> is_hashed_member (file_type r) = false -> names = [offload_path r].
Proof.
  intros Hin Hm. revert w Hin. induction rows as [|r0 rows IH]; intros w; cbn [listed]; [by intros ?%not_elem_of_nil|].
  destruct (is_hashed_member (file_type r0)) eqn:Hm0; [destruct (list_on_repository t _ w) as [l w1]|];
    (intros [Heq|Hin]%list.elem_of_cons; [|by eapply IH]).
  - injection Heq as <- _. congruence.
  - by injection Heq as -> ->.
Qed.
Lemma expire_paths_spec rows : forall paths s, exists why, expire_paths t rows paths s
  = (Ok (fold_left keep (listed rows (machines s)) paths, why), mkSite (store s) (after_listing rows (machines s))).
Proof.
  induction rows as [|r rows IH]; intros paths s; [by exists []; destruct s|].
  cbn [expire_paths listed after_listing]. destruct (is_hashed_member (file_type r)) eqn:Hmember.
  - unfold attempt. unfold mbind at 1, P_bind at 1. unfold on_machines at 1.
    destruct (list_on_repository t (offload_path r) (machines s)) as [[l|x] w] eqn:El; cbn [fold_left snd]; cbv zeta.
    + destruct (IH (keep paths (r, Some (in_folder l))) (mkSite (store s) w)) as (why & Hrest). exists why. exact Hrest.
    + destruct (IH paths (mkSite (store s) w)) as (why & Hrest). cbn [store machines] in Hrest. eexists. unfold mbind, P_bind. rewrite Hrest. done.
  - destruct (IH (assoc_set (offload_path r) r paths) s) as (why & Hrest). exists why. exact Hrest.
Qed.
Lemma folder_mark s : is_folder (s +:+ "/") = true.
Proof. unfold is_folder, endswith. rewrite chars_app, reverse_app. done. Qed.
Lemma keys_of_set {A} k (x : A) l i : i ∈ map fst (assoc_set k x l) <-> i = k \/ i ∈ map fst l.
Proof.
  induction l as [|[k' v] l IH]; cbn; [rewrite list_elem_of_singleton, elem_of_nil; tauto|].
  destruct (String.eqb_spec k k') as [->|Hne]; cbn; rewrite !list.elem_of_cons, ?IH; naive_solver.
Qed.
(** The paths kept are those that were listed, and all of them. *)
Definition holds_path (l : list (pydict * option (list string))) (p : string * pydict) : Prop :=
  exists names, (p.2, Some names) ∈ l /\ (is_folder p.1 = true \/ p.1 ∈ names).
Lemma keep_names names (r : pydict) paths :
  (forall i, i ∈ map fst (fold_left (fun d p => assoc_set p r d) names paths) <-> i ∈ names \/ i ∈ map fst paths)
  /\ (forall (Q : string * pydict -> Prop), Forall Q paths -> (forall n, n ∈ names -> Q (n, r)) ->
       Forall Q (fold_left (fun d p => assoc_set p r d) names paths)).
Proof.
  revert paths. induction names as [|n names IH]; intros paths; cbn [fold_left].
  - split; [intros i; rewrite elem_of_nil; tauto|done].
  - destruct (IH (assoc_set n r paths)) as [H1 H2]. split.
    + intros i. rewrite H1, keys_of_set, list.elem_of_cons. tauto.
    + intros Q Hp Hn. apply H2; [|intros; apply Hn; by right]. apply assoc_set_Forall; [done|]. apply Hn. by left.
Qed.
Lemma keep_ok l : Forall (holds_path l) (fold_left keep l [])
  /\ forall r names n, (r, Some names) ∈ l -> n ∈ names -> n ∈ map fst (fold_left keep l []).
Proof.
  induction l as [|[r x] l IH] using rev_ind; [split; [constructor|by intros ? ? ? ?%not_elem_of_nil]|].
  rewrite fold_left_app. cbn [fold_left]. set (paths := fold_left keep l []) in *. destruct IH as [H1 H2].
  assert (H1' : Forall (holds_path (l ++ [(r, x)])) paths).
  { eapply list.Forall_impl; [exact H1|]. intros p (names & Hin & Hp). exists names. split; [|done]. set_solver. }
  unfold keep. cbn [fst snd]. destruct x as [names|].
  2: { split; [exact H1'|]. intros r1 names n [Hin|Hin%list_elem_of_singleton]%elem_of_app; [by apply (H2 r1 names)|done]. }
  destruct (keep_names names r paths) as [Hk Hf]. set (paths1 := fold_left (fun d p => assoc_set p r d) names paths) in *.
  assert (Hall : Forall (holds_path (l ++ [(r, Some names)])) paths1).
  { apply Hf; [exact H1'|]. intros n Hn. exists names. cbn. split; [set_solver|by right]. }
  assert (Hin1 : forall r1 names1 n, (r1, Some names1) ∈ l ++ [(r, Some names)] -> n ∈ names1 -> n ∈ map fst paths1).
  { intros r1 names1 n [Hin|[= -> ->]%list_elem_of_singleton]%elem_of_app Hn; apply Hk; [right; by apply (H2 r1 names1)|by left]. }
  destruct names as [|n0 names0]; [|done]. destruct (assoc _ paths1); [done|]. split.
  - apply assoc_set_Forall; [done|]. exists []. cbn. split; [set_solver|left; apply folder_mark].
  - intros r1 names1 n Hin Hn. apply keys_of_set. right. by apply (Hin1 r1 names1).
Qed.
Lemma files_of_in paths p : p ∈ files_of paths <-> p ∈ paths /\ is_folder p.1 = false.
Proof. unfold files_of. by rewrite elem_of_sort_by, elem_of_filter_bool, negb_true_iff. Qed.

Section of_gone.
Context (may : pydict -> Prop) (gone : list pydict) (w : W).
Hypothesis Hmay : Forall may gone.
(** A row marked expired: of the files it was read to have, each was answered gone, or another
    row of the plan has it too. *)
Definition copies_gone (id : Z) : Prop :=
  exists r names, may r /\ file_id r = id /\ (r, Some names) ∈ listed gone w
    /\ forall name, name ∈ names -> is_folder name = false -> deleted gone w name
         \/ exists r' names', (r', Some names') ∈ listed gone w /\ name ∈ names' /\ file_id r' <> id.
Definition expired_paths (q : string) : Prop :=
  exists r names name, may r /\ (r, Some names) ∈ listed gone w /\ name ∈ names /\ reaches repository_host (fence e) name q.
Abbreviation R := (site_step "offload_expired_at" copies_gone expired_paths).
Lemma after_listing_keeps rows w0 q : there w0 q -> there (after_listing rows w0) q.
Proof using listing_reads.
  revert w0. induction rows as [|r rows IH]; intros w0 Hq; cbn; [done|]. apply IH. destruct (is_hashed_member _); auto.
Qed.
Lemma mark_expired_step marks s : (forall id, (id, true) ∈ marks -> copies_gone id) -> R s (mark_expired t marks s).2.
Proof.
  revert s. induction marks as [|[id b] marks IH]; intros s Hg; [done|]. cbn [mark_expired].
  destruct b; [|apply IH; intros; apply Hg; by right].
  apply does_bind; [|intros ? s1 _; apply does_bind; [apply IH; intros; apply Hg; by right|done]].
  apply does_set_file; [right; right; left|]. intros _ _. apply Hg. by left.
Qed.
(** A row of the kept paths, when its own files were all answered gone. *)
Lemma gone_of_row id : (exists p, p ∈ kept_paths gone w /\ file_id p.2 = id) ->
  (forall p, p ∈ files_of (kept_paths gone w) -> file_id p.2 = id -> deleted gone w p.1) -> copies_gone id.
Proof using listing_reads Hmay.
  intros (p & Hp & Hid) Hall. destruct (keep_ok (listed gone w)) as [H1 H2]. rewrite list.Forall_forall in H1.
  destruct (H1 p Hp) as (names & Hin & _). rewrite list.Forall_forall in Hmay. exists p.2, names.
  split_and!; [by eapply Hmay, listed_rows|done..|]. intros name Hn Hf.
  pose proof (H2 _ _ _ Hin Hn) as Hk. apply list_elem_of_fmap in Hk as ([k r1] & -> & Hk). cbn in Hn, Hf |- *.
  destruct (decide (file_id r1 = id)) as [Heq|Hne]; [left|right].
  - apply (Hall (k, r1)); [by apply files_of_in|done].
  - destruct (H1 _ Hk) as (names1 & Hin1 & [Hf1|Hn1]); [cbn in Hf1; congruence|]. exists r1, names1. done.
Qed.
Lemma gone_of_folders : files_of (kept_paths gone w) = [] -> forall id, (id, true) ∈ gone_folders (kept_paths gone w) -> copies_gone id.
Proof using listing_reads Hmay.
  intros Hf id Hid. destruct (gone_folders_ok (kept_paths gone w)) as [Hn Hg]. apply gone_in in Hid; [|done].
  apply gone_of_row; [by eapply Hg|]. rewrite Hf. by intros p ?%not_elem_of_nil.
Qed.
Lemma gone_of_files d : (run_delete_files (expire_request e repository_host (kept_paths gone w)) (after_listing gone w)).1 = Ok d ->
  forall id, (id, true) ∈ gone_files (files d) (kept_paths gone w) (gone_folders (kept_paths gone w)) -> copies_gone id.
Proof using listing_reads Hmay.
  intros Hd id Hid. destruct (gone_folders_ok (kept_paths gone w)) as [Hn Hg].
  destruct (gone_files_ok (files d) (kept_paths gone w) (gone_folders (kept_paths gone w)) Hn) as [Hn' Hg']. apply gone_in in Hid; [|done].
  destruct (Hg' id Hid) as [Hsome Hall]. apply gone_of_row.
  - destruct Hsome as [?|(p & [Hin _]%files_of_in & ?)]; [by eapply Hg|by exists p].
  - intros p Hin Hpid. exists d. split; [done|]. apply ok_said_gone. by apply Hall.
Qed.
Lemma delete_step s : R s (try_delete (expire_request e repository_host (kept_paths gone w)) s).2.
Proof using listing_reads Hmay.
  apply does_try_delete. intros q h d Hh _ Hgo. destruct (request_reaches _ _ _ _ _ _ Hh Hgo) as (name & Hn & Hq).
  apply list_elem_of_fmap in Hn as (p & -> & [Hin Hf]%files_of_in). destruct (keep_ok (listed gone w)) as [H1 _].
  rewrite list.Forall_forall in H1. rewrite list.Forall_forall in Hmay. destruct (H1 p Hin) as (names & Hl & [?|Hname]); [congruence|].
  exists p.2, names, p.1. split_and!; [by eapply Hmay, listed_rows|done..].
Qed.
Lemma expire_step kept s : machines s = w -> R s ((
  '(paths, why) ← expire_paths t gone [];
  match files_of paths with
  | [] => n ← mark_expired t (gone_folders paths); mret (mkExpired n kept why)
  | _ =>
      answer ← try_delete (expire_request e repository_host paths);
      match answer with
      | Err err => mret (mkExpired 0 kept (why ++ [("", DeleteRaised err)]))
      | Ok d =>
          n ← mark_expired t (gone_files (files d) paths (gone_folders paths));
          mret (mkExpired n kept (why ++ not_gone (files d) paths))
      end
  end) s).2.
Proof using listing_reads Hmay.
  intros Hw. destruct (expire_paths_spec gone [] s) as (why1 & Hspec). rewrite Hw in Hspec. fold (kept_paths gone w) in Hspec.
  unfold mbind at 1, P_bind at 1. rewrite Hspec. set (s1 := mkSite _ _).
  assert (Hmid : R s s1) by (split; cbn; [by left|intros q Hq; left; apply after_listing_keeps; by rewrite <-Hw]).
  etransitivity; [exact Hmid|]. destruct (files_of (kept_paths gone w)) as [|p0 ps] eqn:Hfiles.
  - apply does_bind; [|done]. apply mark_expired_step. by apply gone_of_folders.
  - apply does_bind; [apply delete_step|]. intros answer s2 Ha. destruct answer as [d|err]; [|done].
    apply does_bind; [|done]. apply mark_expired_step. apply gone_of_files. unfold try_delete in Ha.
    destruct (run_delete_files _ (machines s1)) as [a w1] eqn:E. injection Ha as -> _. subst s1. cbn in E. by rewrite E.
Qed.
End of_gone.

(** What a prune at [now] of the copies of [s] may take, and what it may say. *)
Definition may_expire (now : Z) (s : Site W) (r : pydict) : Prop :=
  let copies := repository_copies (e_backup_id e) (store s) in
  r ∈ copies /\ outlived (e_offload e) now (same_database r copies) r.
Lemma prune_step now s :
  match expiry_plan (e_offload e) now (repository_copies (e_backup_id e) (store s)) with
  | Ok (gone, _) =>
      site_step "offload_expired_at" (copies_gone (may_expire now s) gone (machines s)) (expired_paths (may_expire now s) gone (machines s))
        s (prune_repository e t repository_host now s).2
  | Err _ => (prune_repository e t repository_host now s).2 = s
  end.
Proof using listing_reads.
  destruct (expiry_plan (e_offload e) now (repository_copies (e_backup_id e) (store s))) as [[gone kept]|x] eqn:Hp.
  - unfold prune_repository. apply does_bind; [done|]. intros copies s1 [= <- <-].
    rewrite Hp. apply does_bind; [done|]. intros [gone' kept'] s1 [= <- <- <-].
    assert (Hmay : Forall (may_expire now s) gone).
    { apply list.Forall_forall. intros r Hr. apply (plan_sound _ _ _ _ _ Hp) in Hr. split; [|done].
      destruct Hr as (Hr & _). unfold same_database in Hr. by apply elem_of_filter_bool in Hr as [? _]. }
    destruct gone as [|r0 gone0]; [done|]. by apply expire_step.
  - unfold prune_repository, mbind, P_bind, read_store, of_result. by rewrite Hp.
Qed.
End expire.

(** ** Copying *)
Lemma marks_column now which c c' column id : _mark_used now which c = Ok c' -> column ∈ OWN ->
  column_of column id c' = column_of column id c.
Proof.
  intros H Hc. unfold _mark_used in H. revert H.
  apply (foldM_inv (fun c1 => column_of column id c1 = column_of column id c)); [|done].
  intros c1 rf c2 Hc1 Hm. rewrite <-Hc1. unfold mark_one in Hm. repeat case_match; simplify_eq; try done.
  eapply update_column; [exact Hm|..]; [by apply (bool_decide_unpack (_ ∉ _)); vm_compute|right].
  revert Hc. unfold OWN. intros Hc. repeat (apply list.elem_of_cons in Hc as [->|Hc]; [by apply (bool_decide_unpack (_ ∉ _)); vm_compute|]).
  by apply not_elem_of_nil in Hc.
Qed.
Lemma set_run_column now run_id values c c' column id : set_restore_run now run_id values c = Ok c' -> column ∈ OWN ->
  column_of column id c' = column_of column id c.
Proof.
  intros H Hc. unfold set_restore_run in H. unwind. erewrite marks_column by eassumption.
  match goal with H : update restore_runs _ _ _ = Ok _ |- _ => apply update_sql in H as [->|Hu] end; [done|].
  destruct (sql_update_cases _ _ _ _ _ _ Hu) as [->|(old & Ho)]; [done|].
  pose proof (update_inv _ _ _ _ _ _ _ Ho Hu) as (-> & _). by apply other_table_column.
Qed.
Lemma start_run_column now values c c' n column id : start_restore_run now values c = Ok (c', n) ->
  column_of column id c' = column_of column id c.
Proof. intros H. unfold start_restore_run in H. unwind. apply insert_inv in H as (_ & -> & _). by apply other_table_column. Qed.

(** The rows and their outcomes stay together. *)
Lemma zip_more {A B} (l : list A) (k k' : list B) : length l = length k -> zip l (k ++ k') = zip l k.
Proof. revert k. induction l as [|x l IH]; intros [|y k]; cbn; try done. intros [= H]. f_equal. by apply IH. Qed.
Lemma deal_rows {B} (Q : Item -> FileOutcome -> B -> Prop) b l outcomes r mine :
  Forall2 (fun i o => Q i o b) (concat (map snd l)) outcomes -> (r, mine) ∈ deal l outcomes ->
  exists items os, (r, items) ∈ l /\ mine = zip items os /\ Forall2 (fun i o => Q i o b) items os.
Proof.
  revert outcomes. induction l as [|[r0 items] l IH]; intros outcomes; [by intros _ ?%not_elem_of_nil|]. cbn [map concat snd deal].
  intros H%Forall2_app_inv_l. destruct H as (os1 & os2 & H1 & H2 & ->). pose proof (Forall2_length H1) as Hlen.
  rewrite Hlen, drop_app_length. intros [[= -> ->]|Hin]%list.elem_of_cons.
  - exists items, os1. split_and!; [by left|by apply zip_more|done].
  - destruct (IH os2 H2 Hin) as (its & os & ? & ? & ?). exists its, os. split_and!; [by right|done..].
Qed.

Section copying.
Context {W : Type} (e : Entry) (t : Transport W) (share : option Share).
Context (on_source on_repository : W -> string -> option CopyGate.Answer).
(** The transport tells the truth of the two sides, and only a copy of a path changes it there. *)
Record truthful : Prop := {
  source_told : forall paths w d w', hash_on_source t paths w = (Ok d, w') ->
    forall p a, assoc p d = Some a -> on_source w p = Some a;
  repository_told : forall paths w d w', hash_on_repository t paths w = (Ok d, w') ->
    forall p a, assoc p d = Some a -> on_repository w' p = Some a;
  source_hash_keeps : forall paths w p, on_repository (hash_on_source t paths w).2 p = on_repository w p;
  repository_hash_keeps : forall paths w p, on_repository (hash_on_repository t paths w).2 p = on_repository w p;
  copies_its_own : forall pairs w p, (p ∉ map snd pairs) -> on_repository (copy_files t pairs w).2 p = on_repository w p;
  waiting_keeps : forall s w p, on_repository (wait t s w) p = on_repository w p }.
Hypothesis Htrue : truthful.

(** What is known of the repository: a path a copy is waiting for, nothing. *)
Definition known_there (r : Round) (p : string) : option CopyGate.Answer :=
  if bool_decide (p ∈ map snd (pending r)) then None else on_repository (at_machines r) p.
Lemma known_some r p a : known_there r p = Some a <-> (p ∉ map snd (pending r)) /\ on_repository (at_machines r) p = Some a.
Proof. unfold known_there. case_bool_decide; naive_solver. Qed.
Lemma hasher_told (hash : list string -> W -> result string Answers * W) paths w d w' (P : W -> string -> option CopyGate.Answer) :
  (forall paths w d w', hash paths w = (Ok d, w') -> forall p a, assoc p d = Some a -> P w' p = Some a) ->
  hasher hash paths w = (Ok d, w') -> forall p a, assoc p d = Some a -> P w' p = Some a.
Proof. intros Hh. destruct paths as [|p0 ps]; cbn [hasher]; [by intros [= <- <-]|]. by apply Hh. Qed.
Lemma hasher_told_before (hash : list string -> W -> result string Answers * W) paths w d w' (P : W -> string -> option CopyGate.Answer) :
  (forall paths w d w', hash paths w = (Ok d, w') -> forall p a, assoc p d = Some a -> P w p = Some a) ->
  hasher hash paths w = (Ok d, w') -> forall p a, assoc p d = Some a -> P w p = Some a.
Proof. intros Hh. destruct paths as [|p0 ps]; cbn [hasher]; [by intros [= <- <-]|]. by apply Hh. Qed.
Lemma hasher_world (hash : list string -> W -> result string Answers * W) paths w (p : string) :
  (forall paths w, on_repository (hash paths w).2 p = on_repository w p) ->
  on_repository (hasher hash paths w).2 p = on_repository w p.
Proof. destruct paths; [done|]. intros H. apply H. Qed.
Lemma flush_pending r : pending (flush t r) = [].
Proof. unfold flush. destruct (pending r) as [|p l] eqn:E; [exact E|]. by destruct (copy_files t _ _). Qed.
Lemma flush_keeps r p : (p ∉ map snd (pending r)) -> on_repository (at_machines (flush t r)) p = on_repository (at_machines r) p.
Proof using Htrue.
  intros Hp. unfold flush. destruct (pending r) as [|p0 l] eqn:E; [done|]. rewrite <-E in *.
  rewrite <-(copies_its_own Htrue (pending r) (at_machines r) p Hp). rewrite E. by destruct (copy_files t (p0 :: l) (at_machines r)).
Qed.
Lemma round_honest sources : honest (gate_transport t sources) (fun r => on_source (at_machines r)) known_there.
Proof using Htrue.
  split; cbn [gate_transport hash_sources hash_targets copy sleep].
  - intros ps r d r'. unfold on_round. destruct (hasher (hash_on_source t) ps (at_machines r)) as [a w] eqn:E.
    intros [= -> <-]. eapply hasher_told_before; [apply (source_told Htrue)|exact E].
  - intros ps r d r'. unfold on_round. destruct (hasher (hash_on_repository t) ps (at_machines (flush t r))) as [x w] eqn:E.
    intros [= -> <-] p a Ha. apply known_some. cbn. rewrite flush_pending. split; [apply not_elem_of_nil|].
    eapply hasher_told; [apply (repository_told Htrue)|exact E|exact Ha].
  - intros ps r p a [Hp Ha]%known_some. unfold on_round.
    pose proof (hasher_world (hash_on_source t) ps (at_machines r) p (fun ps w => source_hash_keeps Htrue ps w p)) as Hk.
    destruct (hasher _ _ _) as [x w]. apply known_some. cbn in *. by rewrite Hk.
  - intros ps r p a _ [Hp Ha]%known_some. unfold on_round.
    pose proof (hasher_world (hash_on_repository t) ps (at_machines (flush t r)) p (fun ps w => repository_hash_keeps Htrue ps w p)) as Hk.
    destruct (hasher _ _ _) as [x w]. apply known_some. cbn in *. rewrite Hk, flush_keeps, flush_pending by done.
    split; [apply not_elem_of_nil|done].
  - intros f r p a Hne [Hp Ha]%known_some. apply known_some. cbn. split; [|done]. rewrite map_app. cbn. rewrite elem_of_app.
    intros [?| ->%list_elem_of_singleton]; done.
  - intros s r p a [Hp Ha]%known_some. apply known_some. cbn. by rewrite (waiting_keeps Htrue).
Qed.

(** A file of the pass is on the repository with the bytes its source was read with, and the source
    is what its backup recorded. *)
Definition held (before after : W) (f : FileToCopy) : Prop :=
  exists sha size, on_source before (source_path f) = Some (sha, size)
    /\ same_bytes (on_repository after (target_path f)) (Some sha) size = true
    /\ (checksum_after_backup f = None \/ checksum_after_backup f = Some sha).
Lemma gate_holds items s outcomes errors s' : NoDup (map (fun i => target_path (in_gate i)) items) ->
  run_gate e t items s = (Ok (Ok outcomes, errors), s') ->
  store s' = store s /\ Forall2 (fun i o => proven o = true -> held (machines s) (machines s') (in_gate i)) items outcomes.
Proof using Htrue.
  intros Hnd. unfold run_gate. destruct (copy_verified_batch _ _ _ _) as [answer r] eqn:E. intros [= -> _ <-]. split; [done|].
  cbn [copy_verified_batch] in E.
  pose proof (gate_proven (integrity_of (e_offload e)) _ _ _ (round_honest (copy_source items)) (map in_gate items) (CopyGate.mkRun (mkRound (machines s) [] []) true [] 1) outcomes r) as Hg.
  rewrite map_map in Hg. specialize (Hg Hnd E). apply Forall2_fmap_l in Hg. eapply Forall2_impl; [|exact Hg].
  intros i o Hio Hp. destruct (Hio Hp) as (sha & size & Hs & Hb & Hmay). exists sha, size. split_and!; [exact Hs| |].
  - unfold known_there in Hb. case_bool_decide; [done|exact Hb].
  - unfold may_copy in Hmay. cbn in Hmay. destruct (checksum_after_backup (in_gate i)); [|by left].
    right. f_equal. symmetry. by apply String.eqb_eq.
Qed.

(** A row verified by a pass that listed its sources from [s] on, and left [after]: its files, as
    the pass listed them, are all there. *)
Definition verified_row (rows : list pydict) (s : Site W) (after : W) (id : Z) : Prop :=
  exists listed s1 r items, each_row (items_of_row e t share) rows s = (Ok listed, s1)
    /\ (r, items) ∈ zip rows listed /\ file_id r = id /\ items <> []
    /\ Forall (fun i => held (machines s1) after (in_gate i)) items.

(** Nothing is deleted here: no machine to look at. *)
#[local] Instance no_machine : Machine W := { open_session _ w := (None, w); DeleteFiles.run _ _ w := (NotRun "", w) }.
#[local] Instance no_disk : Disk W.
Proof. by exists (fun _ _ => False). Defined.
Abbreviation R told := (@site_step W no_machine no_disk "offload_verified_at" told (fun _ => False)).
Lemma does_anything {A} told (f : W -> result string A * W) s : R told s (on_machines f s).2.
Proof. by apply does_machines. Qed.
Lemma mark_row_step told run_id now errors r mine s : (proven_row mine = true -> told (file_id r)) ->
  R told s (mark_row e t run_id now errors r mine s).2.
Proof.
  intros Ht. assert (Hown : "offload_verified_at" ∈ OWN) by (do 3 right; left). unfold mark_row. destruct (proven_row mine).
  - apply does_bind; [apply does_set_file; [done|auto]|]. intros ? s1 _. apply does_bind; [by apply does_check_file|done].
  - cbv zeta. apply does_bind.
    + apply does_set_file; [done|]. intros _ Hin. exfalso. revert Hin. apply (bool_decide_unpack (_ ∉ _)). by vm_compute.
    + intros ? s1 _. apply does_bind; [|done]. destruct (match mine with [] => _ | _ => _ end); [by apply does_check_file|done].
Qed.
Lemma mark_rows_step told run_id now errors rows s : (forall r mine, (r, mine) ∈ rows -> proven_row mine = true -> told (file_id r)) ->
  R told s (mark_rows e t run_id now errors rows s).2.
Proof.
  revert s. induction rows as [|[r mine] rows IH]; intros s Ht; [done|]. cbn [mark_rows].
  apply does_bind; [apply mark_row_step, Ht; by left|]. intros m s1 _. apply does_bind; [|done].
  apply IH. intros r' mine' Hin. apply Ht. by right.
Qed.
Lemma set_run_step told run_id values s : R told s (set_run t run_id values s).2.
Proof.
  unfold set_run. apply does_bind; [done|]. intros now s1 _. apply does_call. intros c c' a id (c1 & Hc & [= <- _])%result_bind_ok.
  left. eapply set_run_column; [exact Hc|]. do 3 right; left.
Qed.
Lemma items_step told r s : R told s (items_of_row e t share r s).2.
Proof.
  unfold items_of_row. cbv zeta. destruct (assoc _ _).
  - apply does_bind; [apply does_anything|done].
  - apply does_bind; [|done]. by destruct share.
Qed.
Lemma gate_step told items s : R told s (run_gate e t items s).2.
Proof. unfold run_gate. destruct (copy_verified_batch _ _ _ _) as [answer r]. split; [by left|done]. Qed.
Lemma each_row_length {A} (f : pydict -> P W A) rows : forall s l s', each_row f rows s = (Ok l, s') -> map snd (zip rows l) = l.
Proof.
  induction rows as [|r rows IH]; intros s l s'; cbn [each_row]; [by intros [= <- _]|].
  unfold mbind at 1, P_bind at 1. destruct (f r s) as [[a|x] s2]; [|done].
  unfold mbind, P_bind. destruct (each_row f rows s2) as [[k|x] s3] eqn:E2; [|done]. intros [= <- _]. cbn. f_equal. by eapply IH.
Qed.
(** What follows the gate: the rows and the run are written, and the machines left alone. *)
Definition after_gate (run_id : Z) (rows : list pydict) (items : list (list Item)) (answer : result gate_error (list FileOutcome))
    (errors : list (string * string)) : P W Copied :=
  match answer with
  | Err err =>
      _ ← set_run t run_id (fun now => [("phase", PStr "error"); ("ended_at", PStr now); ("error_text", PStr (str_take 2000 (error_of err)))]);
      _ ← each_row (fun r => set_file t (file_id r) (fun now => [("offload_state", PStr "failed"); ("offload_attempted_at", PStr now);
            ("offload_error", PStr (str_take 1000 (error_of err)))])) rows;
      fails (GateError err)
  | Ok outcomes =>
      now ← read_clock (utc_now t);
      let s := summarize outcomes in
      marks ← mark_rows e t run_id now errors (deal (zip rows items) outcomes);
      _ ← set_run t run_id (fun now => [("phase", PStr (if s_proven s then "copied" else "refused")); ("ended_at", PStr now);
            ("chain_files", PInt (Z.of_nat (s_files s)));
            ("files_matched", PInt (Z.of_nat (default 0%nat (assoc "match" (s_verdicts s)))));
            ("files_recopied", PInt (Z.of_nat (s_recopied s)));
            ("refused_reason", PStr (str_take 2000 (join "; " (s_unproven s))))]);
      mret (mkCopied run_id marks s)
  end.
Lemma quiet_after_gate run_id rows items answer errors : quiet (after_gate run_id rows items answer errors).
Proof.
  unfold after_gate. destruct answer as [outcomes|err].
  - apply quiet_bind; [apply quiet_clock|]. intros now. apply quiet_bind; [apply quiet_mark_rows|]. intros marks.
    apply quiet_bind; [apply quiet_set_run|]. intros _. apply quiet_ret.
  - apply quiet_bind; [apply quiet_set_run|]. intros _. apply quiet_bind; [apply quiet_each; intros; apply quiet_set_file|]. done.
Qed.
Lemma after_gate_step told run_id rows items answer errors s :
  (forall outcomes r mine, answer = Ok outcomes -> (r, mine) ∈ deal (zip rows items) outcomes -> proven_row mine = true -> told (file_id r)) ->
  R told s (after_gate run_id rows items answer errors s).2.
Proof.
  intros Ht. unfold after_gate. destruct answer as [outcomes|err].
  - apply does_bind; [done|]. intros now' s6 _. cbv zeta. apply does_bind; [|intros ? s7 _; apply does_bind; [apply set_run_step|done]].
    apply mark_rows_step. intros r mine. by apply Ht.
  - apply does_bind; [apply set_run_step|]. intros ? s6 _. apply does_bind; [|done]. apply does_each. intros r s7 _.
    apply does_set_file; [do 3 right; left|]. intros now2 Hin. exfalso. revert Hin. apply (bool_decide_unpack (_ ∉ _)). by vm_compute.
Qed.
Lemma offload_step node app_version rows s :
  (forall items, (each_row (items_of_row e t share) rows s).1 = Ok items -> NoDup (map (fun i => target_path (in_gate i)) (concat items))) ->
  R (verified_row rows s (machines (offload_entry e t share node app_version rows s).2)) s (offload_entry e t share node app_version rows s).2.
Proof using Htrue.
  intros Hnd. change (offload_entry e t share node app_version rows) with (
    items ← each_row (items_of_row e t share) rows;
    moment ← read_clock (check_moment t); now ← read_clock (utc_now t);
    run_id ← call (start_restore_run now (run_values e node app_version moment));
    '(answer, errors) ← run_gate e t (concat items);
    after_gate run_id rows items answer errors).
  unfold mbind, P_bind, read_clock. pose proof (fun told => does_each "offload_verified_at" told (fun _ => False) (items_of_row e t share) rows s
    (fun r s1 _ => items_step told r s1)) as Hstep.
  destruct (each_row (items_of_row e t share) rows s) as [[items|x] s1] eqn:Hitems; cbn [snd] in *; [|apply Hstep].
  specialize (Hnd items eq_refl). pose proof (each_row_length _ _ _ _ _ Hitems) as Hlen. etransitivity; [apply Hstep|]. clear Hstep.
  pose proof (fun told now moment => does_call "offload_verified_at" told (fun _ => False) (start_restore_run now (run_values e node app_version moment)) s1
    (fun c c' n id Hc => or_introl (start_run_column now _ c c' n "offload_verified_at" id Hc))) as Hcall.
  specialize (fun told => Hcall told (utc_now t (machines s1)) (check_moment t (machines s1))).
  pose proof (quiet_call (start_restore_run (utc_now t (machines s1)) (run_values e node app_version (check_moment t (machines s1)))) s1) as Hq.
  destruct (call _ s1) as [[run_id|x] s4]; cbn [snd] in *; [|apply Hcall]. etransitivity; [apply Hcall|]. clear Hcall.
  pose proof (fun told => gate_step told (concat items) s4) as Hgs. destruct (run_gate e t (concat items) s4) as [[[answer errors]|x] s5] eqn:Hgate;
    cbn [snd] in *; [|apply Hgs]. etransitivity; [apply Hgs|]. clear Hgs.
  apply after_gate_step. intros outcomes r mine -> Hin Hp. rewrite quiet_after_gate.
  destruct (gate_holds _ _ _ _ _ Hnd Hgate) as [_ Hg]. rewrite <-Hlen in Hg.
  destruct (deal_rows (fun i o (_ : unit) => proven o = true -> held (machines s4) (machines s5) (in_gate i)) tt _ _ _ _ Hg Hin)
    as (its & os & Hz & -> & Hf). rewrite Hq in Hf. exists items, s1, r, its.
  split_and!; [done|done|done|by intros ->|]. clear -Hp Hf. unfold proven_row in Hp.
  assert (Hall : forallb (fun p : Item * FileOutcome => proven p.2) (zip its os) = true) by (by destruct (zip its os)). clear Hp.
  induction Hf as [|i o its os Hio _ IH]; [constructor|]. cbn in Hall. apply andb_true_iff in Hall as [Ho Hall].
  constructor; [by apply Hio|by apply IH].
Qed.
End copying.

(** ** A small estate: one list of the paths that are there, on either side *)
Definition table_of (files : Answers) (there : list string) : Answers := List.filter (fun p => bool_decide (p.1 ∈ there)) files.
Definition lab_transport (sources copies : Answers) (listed : list string) : Transport (list string) := mkTransportOf
  (fun paths w => (Ok (table_of sources paths), w))
  (fun paths w => (Ok (table_of (table_of copies w) paths), w))
  (fun folder w => (Ok (mkListing folder listed), w))
  (fun folder w => (Ok (mkListing folder listed), w))
  (fun pairs w => (Ok [], map snd pairs ++ w))
  (fun _ w => w)
  (fun _ => "2026-10-22T02:00:00Z") (fun _ => "2026-10-22T02:00:00.000001Z").
Lemma table_of_some files l p a : assoc p (table_of files l) = Some a -> assoc p files = Some a /\ p ∈ l.
Proof.
  unfold table_of. induction files as [|[k v] files IH]; cbn; [done|]. case_bool_decide as Hk; cbn.
  - destruct (String.eqb_spec p k) as [->|]; [by intros [= ->]|apply IH].
  - intros H. destruct (IH H) as [Ha Hp]. destruct (String.eqb_spec p k) as [->|]; [done|by split].
Qed.
Definition lab_there (copies : Answers) (w : list string) (p : string) : option CopyGate.Answer :=
  if bool_decide (p ∈ w) then assoc p copies else None.
Lemma lab_truthful sources copies listed :
  truthful (lab_transport sources copies listed) (fun _ p => assoc p sources) (lab_there copies).
Proof.
  split; try done; cbn.
  - intros paths w d w' [= <- <-] p a [? _]%table_of_some. done.
  - intros paths w d w' [= <- <-] p a [[Ha Hp]%table_of_some _]%table_of_some. unfold lab_there. by rewrite bool_decide_true.
  - intros pairs w p Hp. unfold lab_there. rewrite (bool_decide_ext _ (p ∈ w)); [done|]. rewrite elem_of_app. naive_solver.
Qed.

Definition lab_entry : Entry := mkEntry "sales" "srv1" "sqlserver" "/b"
  (mkOffload true "repo" "/r" 3 "none" true "" "" "" (2 * 86400) (2 * 86400) (2 * 86400) 100 30 3600 86400 86400 21600 300) [].
Definition lab_host (name : string) : pydict := [("runtime", PStr "linux"); ("host", PStr name); ("username", PStr "dbops")].
Definition run_at (day : string) : pydict :=
  [("backup_id", PStr "sales"); ("server_id", PStr "srv1"); ("engine", PStr "sqlserver"); ("level", PStr "full");
   ("started_at", PStr (day +:+ "T01:00:00Z")); ("ended_at", PStr (day +:+ "T01:10:00Z")); ("status", PStr "DONE")].
Definition and_a_full (day name : string) (sum : ascii) (c : Catalog) : Catalog :=
  catalog_of (record_backup lab_hash (day +:+ "T01:10:05Z") (run_at day)
    [lab_file name "FULL" (day +:+ "T01:10:00Z") (PInt 1000) "ok" sum] c).
Definition and_verified (id : Z) (path : string) (c : Catalog) : Catalog :=
  only_catalog (set_backup_file "2026-10-21T02:00:00Z" id [("offload_state", PStr "verified"); ("offload_server_id", PStr "repo");
    ("offload_path", PStr path); ("offload_run_id", PInt 7); ("offload_verified_at", PStr "2026-10-21T02:00:00Z")] c).

(** The first full was copied and proven, a second was written: the first may go. *)
Definition two_fulls : Catalog := and_a_full "2026-10-21" "f2.bak" "b" (and_verified 1 "/r/srv1/f1.bak" (and_a_full "2026-10-20" "f1.bak" "a" [])).
Definition before_release : Site (list string) := mkSite two_fulls ["/b/f1.bak"; "/b/f2.bak"; "/r/srv1/f1.bak"].
Definition release_transport (copy : string) : Transport (list string) := lab_transport [] [("/r/srv1/f1.bak", (copy, Some 1000))] [].
Definition after_release (copy : string) : result pass_error Released * Site (list string) :=
  release_sources lab_entry (release_transport copy) (lab_host "srv1") None (files_to_release "sales" 100 two_fulls) before_release.
Lemma lab_released_source : (after_release (digest_of "a")).1 = Ok (mkReleased 1 0 [])
  /\ machines (after_release (digest_of "a")).2 = ["/b/f2.bak"; "/r/srv1/f1.bak"]
  /\ column_of "source_deleted_at" 1 (store (after_release (digest_of "a")).2) = Some (PStr "2026-10-22T02:00:00Z").
Proof. split_and!; vm_compute; reflexivity. Qed.
(** A copy that changed since it was proven keeps its source. *)
Lemma lab_kept_source : (after_release (digest_of "c")).1 = Ok (mkReleased 0 0 [("f1.bak", CopyIs "mismatch")])
  /\ machines (after_release (digest_of "c")).2 = machines before_release
  /\ column_of "offload_state" 1 (store (after_release (digest_of "c")).2) = Some (PStr "failed").
Proof. split_and!; vm_compute; reflexivity. Qed.

(** A name used again after its row was pruned: both rows name one copy, and when the first row's
    time is over the copy of the newest full goes with it. *)
Definition reused_name : Catalog :=
  let pruned := only_catalog (set_backup_file "2026-10-20T20:00:00Z" 1 [("state", PStr "pruned"); ("on_disk", PInt 0)]
    (and_verified 1 "/r/srv1/f1.bak" (and_a_full "2026-10-20" "f1.bak" "a" []))) in
  and_verified 2 "/r/srv1/f1.bak" (and_a_full "2026-10-21" "f1.bak" "b" pruned).
Definition after_reuse : result pass_error Expired * Site (list string) :=
  prune_repository lab_entry (lab_transport [] [] []) (lab_host "repo") (lab_instant "2026-10-22T12:00:00")
    (mkSite reused_name ["/b/f1.bak"; "/r/srv1/f1.bak"]).
Lemma an_expired_row_takes_the_copy_of_a_newer_one :
  after_reuse.1 = Ok (mkExpired 1 [] []) /\ machines after_reuse.2 = ["/b/f1.bak"]
  /\ column_of "offload_state" 1 (store after_reuse.2) = Some (PStr "expired")
  /\ column_of "offload_state" 2 (store after_reuse.2) = Some (PStr "verified").
Proof. split_and!; vm_compute; reflexivity. Qed.

(** Two fulls copied, the second a day ago: the first expires. *)
Definition two_copies : Catalog := and_verified 2 "/r/srv1/f2.bak" two_fulls.
Definition before_expiry : Site (list string) := mkSite two_copies ["/b/f2.bak"; "/r/srv1/f1.bak"; "/r/srv1/f2.bak"].
Definition after_expiry : result pass_error Expired * Site (list string) :=
  prune_repository lab_entry (lab_transport [] [] []) (lab_host "repo") (lab_instant "2026-10-23T00:00:00") before_expiry.
Lemma lab_expired_copy : after_expiry.1 = Ok (mkExpired 1 [] []) /\ machines after_expiry.2 = ["/b/f2.bak"; "/r/srv1/f2.bak"]
  /\ column_of "offload_expired_at" 1 (store after_expiry.2) = Some (PStr "2026-10-22T02:00:00Z")
  /\ column_of "offload_expired_at" 1 (store before_expiry) = Some PNone.
Proof. split_and!; vm_compute; reflexivity. Qed.

(** One full to copy. *)
Definition one_full : Catalog := and_a_full "2026-10-20" "f1.bak" "a" [].
Definition copy_transport : Transport (list string) :=
  lab_transport [("/b/f1.bak", (digest_of "a", Some 1000))] [("/r/srv1/f1.bak", (digest_of "a", Some 1000))] [].
Definition before_copy : Site (list string) := mkSite one_full ["/b/f1.bak"].
Definition to_copy_now : list pydict := files_to_offload "sales" 100 "" one_full.
Definition after_copy_pass : result pass_error Copied * Site (list string) :=
  offload_entry lab_entry copy_transport None "node1" "0.34.0" to_copy_now before_copy.
Lemma lab_copied : machines after_copy_pass.2 = ["/r/srv1/f1.bak"; "/b/f1.bak"]
  /\ column_of "offload_verified_at" 1 (store after_copy_pass.2) = Some (PStr "2026-10-22T02:00:00Z")
  /\ column_of "offload_verified_at" 1 (store before_copy) = Some PNone.
Proof. split_and!; vm_compute; reflexivity. Qed.
(** A base directory whose manifest is not there: nothing of it was held to what the backup
    recorded, and it is verified. *)
Definition a_base : Catalog :=
  catalog_of (record_backup lab_hash "2026-10-20T01:10:05Z" (run_at "2026-10-20")
    [lab_file "base" "FULL_BASE" "2026-10-20T01:10:00Z" (PInt 1000) "ok" "a"] []).
Definition base_transport : Transport (list string) :=
  lab_transport [("/b/base/PG_VERSION", (digest_of "c", Some 3))] [("/r/srv1/base/PG_VERSION", (digest_of "c", Some 3))] ["/b/base/PG_VERSION"].
Definition after_base : result pass_error Copied * Site (list string) :=
  offload_entry lab_entry base_transport None "node1" "0.34.0" (files_to_offload "sales" 100 "" a_base) (mkSite a_base ["/b/base/PG_VERSION"]).
Lemma a_base_without_its_manifest_is_verified :
  column_of "offload_state" 1 (store after_base.2) = Some (PStr "verified")
  /\ map (fun r => get r "result") (rows_of "backup_file_checks" (store after_base.2)) = [PStr "mismatch"].
Proof. split; vm_compute; reflexivity. Qed.

(** ** What the pass promises *)
(** C2: Whatever the transport answers, a release removes a file on the server only when it is
    the source of a row that was asked for, is no base directory, ended before the newest chain
    of its database began, and whose repository copy, hashed in this very pass, has the recorded
    checksum and size; and a row is given a source_deleted_at only when, besides, the delete
    this release sent for the row's folder, in the state of the machines it was sent in,
    answered that its path is gone. Nothing else is removed on either machine. *)
Theorem a_source_goes_after_its_copy_was_proven_again {W} `{Disk W} e (t : Transport W) host share rows s :
  (forall paths w q, there w q -> there (hash_on_repository t paths w).2 q) ->
  let s' := (release_sources e t host share rows s).2 in
  (forall q, there (machines s) q -> there (machines s') q
     \/ exists r, may_release e t s rows r /\ reaches host (_source_root r e) (source_name share r) q)
  /\ (forall id, column_of "source_deleted_at" id (store s') = column_of "source_deleted_at" id (store s)
     \/ exists r, may_release e t s rows r /\ file_id r = id /\ answered_gone e t host share s rows r).
Proof. intros Hr. destruct (release_step e t host share Hr rows s) as [H1 H2]. split; [exact H2|exact H1]. Qed.
Theorem release_witness : exists r, r ∈ files_to_release "sales" 100 two_fulls
  /\ same_bytes (assoc (offload_path r) [("/r/srv1/f1.bak", (digest_of "a", Some 1000))]) (recorded_checksum r) (recorded_bytes r) = true.
Proof.
  destruct (a_source_goes_after_its_copy_was_proven_again lab_entry (release_transport (digest_of "a")) (lab_host "srv1") None
    (files_to_release "sales" 100 two_fulls) before_release (fun _ _ _ Hq => Hq)) as [Hp _].
  destruct (Hp "/b/f1.bak") as [Hin|(r & (Hr & _ & _ & found & Hf & Hsame) & _)].
  - change (machines before_release) with ["/b/f1.bak"; "/b/f2.bak"; "/r/srv1/f1.bak"]. left.
  - exfalso. destruct lab_released_source as (_ & Hm & _). unfold after_release in Hm. rewrite Hm in Hin.
    change ("/b/f1.bak" ∈ ["/b/f2.bak"; "/r/srv1/f1.bak"]) in Hin. revert Hin. apply (bool_decide_unpack (_ ∉ _)). by vm_compute.
  - exists r. split; [exact Hr|]. assert (assoc (offload_path r) found = assoc (offload_path r) [("/r/srv1/f1.bak", (digest_of "a", Some 1000))]) as <-; [|exact Hsame].
    assert (Heq : found = [("/r/srv1/f1.bak", (digest_of "a", Some 1000))]) by (vm_compute in Hf; injection Hf as <-; reflexivity). by rewrite Heq.
Defined.

(** C10: A prune of the repository whose plan answers removes a file only inside the entry's own
    folder there, and only one that is the copy, or was listed under the base directory, of a
    row of the plan that the expiry rule lets go (past its retention, not of the newest chain,
    needed by nothing that is kept); a row is marked expired only when each file so read for it
    was answered gone by the delete this prune sent, or is another row's of the plan too. A
    prune whose plan cannot be made changes nothing. *)
Theorem the_repository_loses_only_what_expired {W} `{Disk W} e (t : Transport W) host now s :
  (forall folder w q, there w q -> there (list_on_repository t folder w).2 q) ->
  let s' := (prune_repository e t host now s).2 in
  match expiry_plan (e_offload e) now (repository_copies (e_backup_id e) (store s)) with
  | Err _ => s' = s
  | Ok (gone, _) =>
  (forall q, there (machines s) q -> there (machines s') q
     \/ exists r names name, may_expire e now s r /\ (r, Some names) ∈ listed t gone (machines s) /\ name ∈ names
          /\ reaches host (fence e) name q)
  /\ (forall id, column_of "offload_expired_at" id (store s') = column_of "offload_expired_at" id (store s)
     \/ exists r names, may_expire e now s r /\ file_id r = id /\ (r, Some names) ∈ listed t gone (machines s)
          /\ forall name, name ∈ names -> is_folder name = false -> deleted e t host gone (machines s) name
               \/ exists r' names', (r', Some names') ∈ listed t gone (machines s) /\ name ∈ names' /\ file_id r' <> id)
  end.
Proof.
  intros Hl. pose proof (prune_step e t host Hl now s) as Hp. cbv zeta. destruct (expiry_plan _ _ _) as [[gone kept]|x]; [|exact Hp].
  destruct Hp as [H1 H2]. split; [exact H2|exact H1].
Qed.
Theorem loses_witness : exists r, r ∈ repository_copies "sales" two_copies /\ offload_path r = "/r/srv1/f1.bak".
Proof.
  pose proof (the_repository_loses_only_what_expired lab_entry (lab_transport [] [] []) (lab_host "repo")
    (lab_instant "2026-10-23T00:00:00") before_expiry (fun _ _ _ Hq => Hq)) as H. cbv zeta in H.
  destruct (expiry_plan _ _ _) as [[gone kept]|x] eqn:Hplan; [|vm_compute in Hplan; discriminate Hplan]. clear Hplan. destruct H as [Hp _].
  destruct (Hp "/r/srv1/f1.bak") as [Hin|(r & names & name & [Hr _] & Hlist & Hname & host & p & Hh & Hv & Hl & _)].
  - change (machines before_expiry) with ["/b/f2.bak"; "/r/srv1/f1.bak"; "/r/srv1/f2.bak"]. right. left.
  - exfalso. destruct lab_expired_copy as (_ & Hm & _). unfold after_expiry in Hm. rewrite Hm in Hin.
    change ("/r/srv1/f1.bak" ∈ ["/b/f2.bak"; "/r/srv1/f2.bak"]) in Hin. revert Hin. apply (bool_decide_unpack (_ ∉ _)). by vm_compute.
  - exists r. split; [exact Hr|].
    assert (Hcases : forallb (fun r => negb (is_hashed_member (file_type r))
        && (String.eqb (offload_path r) "/r/srv1/f1.bak" || String.eqb (offload_path r) "/r/srv1/f2.bak"))
      (repository_copies "sales" two_copies) = true) by (vm_compute; reflexivity).
    apply forallb_Forall in Hcases. rewrite list.Forall_forall in Hcases.
    destruct (proj1 (andb_true_iff _ _) (Hcases r Hr)) as [Hm%negb_true_iff Hcase].
    apply orb_true_iff in Hcase as [Hp1%String.eqb_eq|Hp2%String.eqb_eq]; [exact Hp1|].
    rewrite (listed_file _ _ _ _ _ Hlist Hm) in Hname. apply list_elem_of_singleton in Hname as ->. rewrite Hp2 in Hv. vm_compute in Hh. injection Hh as <-.
    vm_compute in Hv. injection Hv as <-. vm_compute in Hl. discriminate Hl.
Defined.

(** C16: When the transport tells the truth of the two sides and no two files share a target, a
    row is given an offload_verified_at only when the listing this pass began with found at
    least one file of its source, and every one of those has, on the repository as the pass
    leaves it, the bytes it had on the source when they were listed, those being the recorded
    ones where the backup recorded any. *)
Theorem a_copy_is_verified_when_all_of_it_is_there {W} e (t : Transport W) share on_source on_repository node app_version rows s :
  truthful t on_source on_repository ->
  (forall items, (each_row (items_of_row e t share) rows s).1 = Ok items ->
     NoDup (map (fun i => target_path (in_gate i)) (concat items))) ->
  let s' := (offload_entry e t share node app_version rows s).2 in
  forall id, column_of "offload_verified_at" id (store s') = column_of "offload_verified_at" id (store s)
    \/ exists listed s1 r items, each_row (items_of_row e t share) rows s = (Ok listed, s1)
         /\ (r, items) ∈ zip rows listed /\ file_id r = id /\ items <> []
         /\ Forall (fun i => held on_source on_repository (machines s1) (machines s') (in_gate i)) items.
Proof. intros Ht Hnd. exact (proj1 (offload_step e t share on_source on_repository Ht node app_version rows s Hnd)). Qed.
Lemma lab_targets : ((fun items => map (fun i => target_path (in_gate i)) (concat items))
    <$> (each_row (items_of_row lab_entry copy_transport None) to_copy_now before_copy).1) = Ok ["/r/srv1/f1.bak"].
Proof. vm_compute. reflexivity. Qed.
Lemma lab_distinct items : (each_row (items_of_row lab_entry copy_transport None) to_copy_now before_copy).1 = Ok items ->
  NoDup (map (fun i => target_path (in_gate i)) (concat items)).
Proof. intros Hi. pose proof lab_targets as Ht. rewrite Hi in Ht. injection Ht as ->. apply NoDup_singleton. Qed.
Definition copied_whole : Prop :=
  exists listed s1 r items, each_row (items_of_row lab_entry copy_transport None) to_copy_now before_copy = (Ok listed, s1)
    /\ (r, items) ∈ zip to_copy_now listed /\ file_id r = 1 /\ items <> []
    /\ Forall (fun i => held (fun _ p => assoc p [("/b/f1.bak", (digest_of "a", Some 1000))])
         (lab_there [("/r/srv1/f1.bak", (digest_of "a", Some 1000))]) (machines s1) (machines after_copy_pass.2) (in_gate i)) items.
Lemma is_now_verified (P : Prop) : column_of "offload_verified_at" 1 (store after_copy_pass.2) = column_of "offload_verified_at" 1 (store before_copy)
  \/ P -> P.
Proof. intros [H|H]; [|exact H]. destruct lab_copied as [_ [H1 H2]]. rewrite H1, H2 in H. discriminate H. Qed.
Theorem verified_witness : copied_whole.
Proof.
  apply is_now_verified.
  exact (a_copy_is_verified_when_all_of_it_is_there lab_entry copy_transport None _ _ "node1" "0.34.0" to_copy_now before_copy
    (lab_truthful _ _ _) lab_distinct 1).
Defined.
