(* ===== verification/WebAuth.v ===== *)
(** * Passwords, levels and tokens of the web console ([lib/web_auth.py]).

    Key derivation and SHA-256 are [hashlib]'s: [pbkdf2] gives the bytes of a text under a salt and
    a cost, [sha256] the hexadecimal digest of a text.  Base64 is modelled as [base64] reads and
    writes it.  Texts are ASCII; a refusal keeps what it is about. *)

From S2P Require Import Prelude Py.

Inductive auth_error : Type :=
| LevelNotWhole | LevelOutOfRange (level : Z) | NoUsername | UsernameTooLong | UsernameWithSpaces
| PasswordTooShort | TooFewIterations | Raised (e : pyexn).
#[export] Instance auth_error_eq_dec : EqDecision auth_error.
Proof. solve_decision. Defined.

(** ** Levels and roles *)
Definition MIN_LEVEL : Z := 1.
Definition MAX_LEVEL : Z := 100.
Definition coerce_level (value : pyval) : result auth_error Z :=
  match py_int value with
  | Ok level => if (MIN_LEVEL <=? level) && (level <=? MAX_LEVEL) then Ok level else Err (LevelOutOfRange level)
  | Err OverflowError => Err (Raised OverflowError)
  | Err _ => Err LevelNotWhole
  end.
Definition roles (view edit run admin : Z) : list (string * Z) :=
  [("Viewer", view); ("Editor", Z.max edit run); ("Admin", admin); ("Owner", MAX_LEVEL)].
(** The last role of the table the level reaches. *)
Definition role_name (level : Z) (table : list (string * Z)) : string :=
  fold_left (fun name role => if role.2 <=? level then role.1 else name) table "No access".

Definition normalize_username (value : string) : result auth_error string :=
  let name := lower (strip value) in
  if String.eqb name "" then Err NoUsername
  else if (64 <? str_len name)%nat then Err UsernameTooLong
  else if existsb is_space (chars name) then Err UsernameWithSpaces
  else Ok name.
Definition check_password_quality (password : string) : result auth_error string :=
  if (str_len password <? 8)%nat then Err PasswordTooShort else Ok password.

(** ** Base64 *)
Definition base64_char (v : Z) : ascii :=
  if v <? 26 then chr (65 + v) else if v <? 52 then chr (71 + v) else if v <? 62 then chr (v - 4)
  else if v =? 62 then "+"%char else "/"%char.
Definition base64_value (a : ascii) : option Z :=
  if is_upper a then Some (code a - 65) else if is_lower a then Some (code a - 71)
  else if is_digit a then Some (code a + 4)
  else if bool_decide (a = "+"%char) then Some 62 else if bool_decide (a = "/"%char) then Some 63 else None.
(** [base64.b64encode]: three bytes at a time, the last group padded. *)
Fixpoint b64encode (l : list Z) : list ascii :=
  match l with
  | [] => []
  | [a] => [base64_char (a / 4); base64_char (a mod 4 * 16); "="%char; "="%char]
  | [a; b] => [base64_char (a / 4); base64_char (a mod 4 * 16 + b / 16); base64_char (b mod 16 * 4); "="%char]
  | a :: b :: c :: l =>
      base64_char (a / 4) :: base64_char (a mod 4 * 16 + b / 16) :: base64_char (b mod 16 * 4 + c / 64)
      :: base64_char (c mod 64) :: b64encode l
  end.
(** [binascii.a2b_base64]: characters outside the alphabet are passed over, enough padding ends
    the text.  [quad] is the place in the group, [left] the bits kept of the character before. *)
Fixpoint a2b (quad pads : nat) (left : Z) (l : list ascii) : option (list Z) :=
  match l with
  | [] => match quad with O => Some [] | _ => None end
  | c :: l =>
      if bool_decide (c = "="%char) then
        if (2 <=? quad)%nat then (if (4 <=? quad + S pads)%nat then Some [] else a2b quad (S pads) left l)
        else a2b quad pads left l
      else match base64_value c with
      | None => a2b quad pads left l
      | Some v =>
          match quad with
          | 0%nat => a2b 1 0 v l
          | 1%nat => (fun bytes => (left * 4 + v / 16) :: bytes) <$> a2b 2 0 (v mod 16) l
          | 2%nat => (fun bytes => (left * 16 + v / 4) :: bytes) <$> a2b 3 0 (v mod 4) l
          | _ => (fun bytes => (left * 64 + v) :: bytes) <$> a2b 0 0 0 l
          end
      end
  end.
(** [base64.b64decode] of a text, which is ASCII. *)
Definition b64decode (s : string) : option (list Z) :=
  if forallb (fun a => code a <? 128) (chars s) then a2b 0 0 0 (chars s) else None.

(** ** Passwords *)
Definition PBKDF2_ITERATIONS : Z := 200000.
Definition PBKDF2_SCHEME : string := "pbkdf2_sha256".
Definition HASH_BYTES : nat := 32.
Definition SALT_BYTES : nat := 16.
Section hashes.
Variable pbkdf2 : string -> list Z -> Z -> list Z.

(** [hashlib.pbkdf2_hmac]: the cost is a positive C [int]. *)
Definition pbkdf2_hmac (password : string) (salt : list Z) (iterations : Z) : result pyexn (list Z) :=
  if 2147483647 <? iterations then Err OverflowError
  else if iterations <? - 2 ^ 63 then Err OverflowError
  else if iterations <? 1 then Err ValueError
  else Ok (pbkdf2 password salt iterations).
Definition encoded (iterations : Z) (salt digest : list Z) : string :=
  join "$" [PBKDF2_SCHEME; str_of_int iterations; text (b64encode salt); text (b64encode digest)].
Definition hash_password (password : string) (iterations : Z) (salt : list Z) (check_quality : bool)
    : result auth_error string :=
  _ ← (if check_quality then check_password_quality password else Ok password);
  _ ← raise_when (iterations <? 1000) TooFewIterations;
  match pbkdf2_hmac password salt iterations with
  | Ok digest => Ok (encoded iterations salt digest)
  | Err e => Err (Raised e)
  end.
(** A malformed hash is a mismatch; a [ValueError] is caught, an [OverflowError] is not. *)
Definition verify_password (password hash : string) : result pyexn bool :=
  match split "$"%char hash with
  | [scheme; iterations; salt; digest] =>
      if negb (String.eqb scheme PBKDF2_SCHEME) then Ok false
      else match b64decode salt with
      | None => Ok false
      | Some salt =>
          match int_of_str iterations with
          | None => Ok false
          | Some n =>
              match pbkdf2_hmac password salt n with
              | Ok candidate =>
                  match b64decode digest with
                  | Some stored => Ok (bool_decide (candidate = stored))
                  | None => Ok false
                  end
              | Err ValueError => Ok false
              | Err e => Err e
              end
          end
      end
  | _ => Ok false
  end.
(** A cost that is no number raises. *)
Definition needs_rehash (hash : string) (target : Z) : result pyexn bool :=
  match split "$"%char hash with
  | [scheme; iterations; _; _] =>
      if negb (String.eqb scheme PBKDF2_SCHEME) then Ok true
      else match int_of_str iterations with Some n => Ok (n <? target) | None => Err ValueError end
  | _ => Ok true
  end.
End hashes.

(** ** Tokens *)
Definition DEFAULT_SESSION_DAYS : Z := 90.
Section tokens.
Variable sha256 : string -> string.
Definition token_fingerprint (token : string) : string := sha256 token.
Definition tokens_match (candidate expected : string) : bool := String.eqb candidate expected.
End tokens.
