(* ===== verification/WebAuthProofs.v ===== *)
(** * A password checks against its own hash, and only against its own: proofs over [WebAuth]. *)

From S2P Require Import Prelude Py WebAuth.

(** ** Base64 *)
Definition byte (n : Z) : Prop := 0 <= n < 256.
Lemma base64_values : forallb (fun n => let a := base64_char (Z.of_nat n) in
    bool_decide (base64_value a = Some (Z.of_nat n)) && negb (bool_decide (a = "="%char))
    && negb (bool_decide (a = "$"%char)) && (code a <? 128)) (seq 0 64) = true.
Proof. vm_compute. reflexivity. Qed.
Lemma base64_char_ok v : 0 <= v < 64 ->
  base64_value (base64_char v) = Some v /\ base64_char v <> "="%char /\ base64_char v <> "$"%char /\ code (base64_char v) < 128.
Proof.
  intros H. pose proof base64_values as Hall. rewrite forallb_forall in Hall.
  specialize (Hall (Z.to_nat v)). cbv zeta in Hall. rewrite Z2Nat.id in Hall by lia.
  destruct (proj1 (andb_true_iff _ _) (Hall ltac:(apply in_seq; lia))) as [[[Hv%bool_decide_eq_true He]%andb_true_iff Hd]%andb_true_iff Hc].
  apply negb_true_iff, bool_decide_eq_false in He, Hd. apply Z.ltb_lt in Hc. done.
Qed.
Lemma a2b_char quad pads left v l : 0 <= v < 64 ->
  a2b quad pads left (base64_char v :: l) = match quad with
    | 0%nat => a2b 1 0 v l
    | 1%nat => (fun bytes => (left * 4 + v / 16) :: bytes) <$> a2b 2 0 (v mod 16) l
    | 2%nat => (fun bytes => (left * 16 + v / 4) :: bytes) <$> a2b 3 0 (v mod 4) l
    | _ => (fun bytes => (left * 64 + v) :: bytes) <$> a2b 0 0 0 l
    end.
Proof. intros (Hv & He & _ & _)%base64_char_ok. cbn [a2b]. by rewrite bool_decide_false, Hv. Qed.
(** A list goes by in groups of three. *)
Lemma groups_ind {A} (P : list A -> Prop) : P [] -> (forall a, P [a]) -> (forall a b, P [a; b]) ->
  (forall a b c l, P l -> P (a :: b :: c :: l)) -> forall l, P l.
Proof.
  intros H0 H1 H2 H3 l. remember (length l) as n eqn:Hn. revert l Hn.
  induction n as [n IH] using lt_wf_ind. intros [|a [|b [|c l]]] ->; [done..|]. apply H3. apply (IH (length l)); cbn; [lia|done].
Qed.
#[local] Ltac Zify.zify_post_hook ::= Z.div_mod_to_equations.
Ltac sextets := repeat (rewrite a2b_char; [cbn [fmap option_fmap option_map]|]).
Lemma b64_roundtrip l : Forall byte l -> a2b 0 0 0 (b64encode l) = Some l.
Proof.
  induction l as [|a|a b|a b c l IH] using groups_ind; unfold byte; intros H; [done|..];
    repeat (apply list.Forall_cons in H as [? H]); cbn [b64encode].
  - sextets; cbn [a2b]; rewrite ?bool_decide_true by done; cbn; [|lia..]. do 2 f_equal. lia.
  - sextets; cbn [a2b]; rewrite ?bool_decide_true by done; cbn; [|lia..]. do 2 f_equal; [|f_equal]; lia.
  - sextets; [|lia..]. rewrite (IH H). cbn. do 2 f_equal; [|f_equal; [|f_equal]]; lia.
Qed.
Definition plain (a : ascii) : Prop := a <> "$"%char /\ code a < 128.
Lemma sextet_plain v : 0 <= v < 64 -> plain (base64_char v).
Proof. intros (_ & _ & H)%base64_char_ok. exact H. Qed.
Lemma pad_plain : plain "="%char.
Proof. done. Qed.
Lemma b64encode_plain l : Forall byte l -> Forall plain (b64encode l).
Proof.
  induction l as [|a|a b|a b c l IH] using groups_ind; unfold byte; intros H; [constructor|..];
    repeat (apply list.Forall_cons in H as [? H]); cbn [b64encode];
    repeat (apply list.Forall_cons; split; [first [apply pad_plain|apply sextet_plain; lia]|]); auto.
Qed.
Lemma b64_text l : Forall byte l -> b64decode (text (b64encode l)) = Some l.
Proof.
  intros H. unfold b64decode. rewrite chars_text, b64_roundtrip by done.
  assert (forallb (fun a => code a <? 128) (b64encode l) = true) as ->; [|done].
  apply forallb_forall. intros a Ha%list_elem_of_In. pose proof (b64encode_plain l H) as Hp.
  rewrite list.Forall_forall in Hp. apply Z.ltb_lt, (Hp a Ha).
Qed.

(** ** Splitting what was joined *)
Lemma split_chars_word c w l : c ∉ w -> split_chars c (w ++ c :: l) = w :: split_chars c l.
Proof.
  induction w as [|a w IH]; cbn [app split_chars]; intros H.
  - by rewrite bool_decide_true.
  - apply not_elem_of_cons in H as [Ha Hw]. by rewrite bool_decide_false, IH by congruence.
Qed.
Lemma split_chars_last c w : c ∉ w -> split_chars c w = [w].
Proof.
  induction w as [|a w IH]; [done|]. intros [Ha Hw]%not_elem_of_cons. cbn [split_chars].
  by rewrite bool_decide_false, IH by congruence.
Qed.
Lemma split_join c l : l <> [] -> Forall (fun w => c ∉ chars w) l -> split c (join (text [c]) l) = l.
Proof.
  intros Hne H. unfold split. induction H as [|w l Hw H IH]; [done|]. destruct l as [|w' l].
  - cbn [join]. rewrite split_chars_last by done. cbn. by rewrite text_chars.
  - change (join (text [c]) (w :: w' :: l)) with (w +:+ text [c] +:+ join (text [c]) (w' :: l)).
    rewrite !chars_app, chars_text. cbn [app]. rewrite split_chars_word by done. cbn [map]. rewrite IH by done. by rewrite text_chars.
Qed.

(** ** A stored hash *)
Lemma digits_no_dollar n : 0 <= n -> "$"%char ∉ chars (str_of_int n).
Proof.
  intros Hn Hin. destruct (str_of_nonneg_digits n Hn) as (ds & Hds & _ & Hd & _). rewrite Hds in Hin.
  rewrite list.Forall_forall in Hd. specialize (Hd _ Hin). done.
Qed.
Lemma text_plain l : Forall plain l -> "$"%char ∉ chars (text l).
Proof. rewrite chars_text. intros H Hin. rewrite list.Forall_forall in H. by destruct (H _ Hin). Qed.

Section checks.
Variable pbkdf2 : string -> list Z -> Z -> list Z.
Hypothesis derives_bytes : forall password salt n, Forall byte (pbkdf2 password salt n).

Lemma encoded_fields n salt digest : 0 <= n -> Forall byte salt -> Forall byte digest ->
  split "$"%char (encoded n salt digest)
  = [PBKDF2_SCHEME; str_of_int n; text (b64encode salt); text (b64encode digest)].
Proof.
  intros Hn Hs Hd. apply (split_join "$"%char); [done|].
  repeat (apply list.Forall_cons; split); [|by apply digits_no_dollar|by apply text_plain, b64encode_plain..|constructor].
  by apply (bool_decide_unpack (_ ∉ _)).
Qed.
Lemma hash_inv password n salt quality hash : hash_password pbkdf2 password n salt quality = Ok hash ->
  1000 <= n <= 2147483647 /\ hash = encoded n salt (pbkdf2 password salt n).
Proof.
  unfold hash_password, pbkdf2_hmac. intros (p & _ & H)%result_bind_ok. apply result_bind_ok in H as (u & Hn%raise_when_ok & H).
  apply Z.ltb_ge in Hn. destruct (Z.ltb_spec 2147483647 n); [done|]. rewrite (proj2 (Z.ltb_ge n (- 2 ^ 63))) in H by lia.
  rewrite (proj2 (Z.ltb_ge n 1)) in H by lia. injection H as <-. split; [lia|done].
Qed.
Lemma verify_encoded password n salt digest : 1 <= n <= 2147483647 -> Forall byte salt -> Forall byte digest ->
  verify_password pbkdf2 password (encoded n salt digest) = Ok (bool_decide (pbkdf2 password salt n = digest)).
Proof.
  intros Hn Hs Hd. unfold verify_password, pbkdf2_hmac. rewrite encoded_fields by (done || lia). cbn [String.eqb negb].
  rewrite String.eqb_refl, b64_text by done. cbn [negb].
  rewrite int_of_str_of_int.
  2: { apply Z.lt_le_trans with (10 ^ 10); [lia|]. apply Z.pow_le_mono_r; [lia|]. vm_compute. discriminate. }
  rewrite (proj2 (Z.ltb_ge 2147483647 n)), (proj2 (Z.ltb_ge n (- 2 ^ 63))), (proj2 (Z.ltb_ge n 1)) by lia.
  by rewrite b64_text.
Qed.
Lemma stored_checks password n salt quality hash :
  hash_password pbkdf2 password n salt quality = Ok hash -> Forall byte salt ->
  (forall candidate, verify_password pbkdf2 candidate hash = Ok (bool_decide (pbkdf2 candidate salt n = pbkdf2 password salt n)))
  /\ forall target, needs_rehash hash target = Ok (n <? target).
Proof using derives_bytes.
  intros [Hn ->]%hash_inv Hs. split.
  - intros candidate. apply verify_encoded; auto; lia.
  - intros target. unfold needs_rehash. rewrite encoded_fields by (auto; lia). rewrite String.eqb_refl. cbn [negb].
    rewrite int_of_str_of_int; [done|]. apply Z.lt_le_trans with (10 ^ 10); [lia|]. apply Z.pow_le_mono_r; [lia|]. vm_compute. discriminate.
Qed.
Lemma stored_parts password n salt quality hash :
  hash_password pbkdf2 password n salt quality = Ok hash -> Forall byte salt ->
  exists s d, split "$"%char hash = [PBKDF2_SCHEME; str_of_int n; s; d]
    /\ b64decode s = Some salt /\ b64decode d = Some (pbkdf2 password salt n).
Proof using derives_bytes.
  intros [Hn ->]%hash_inv Hs. eexists _, _. split; [apply encoded_fields; auto; lia|]. split; apply b64_text; auto.
Qed.
End checks.

(** C27: What hash_password makes of a password is one text of four parts whose salt and digest
    decode from base64 to what they were; verify_password answers it for exactly the passwords
    whose derivation is the same, its own first, and needs_rehash says it is weak exactly when
    the cost it was made with is below the one in force. *)
Theorem a_password_checks_against_its_own_hash pbkdf2 password n salt quality hash :
  (forall password salt n, Forall byte (pbkdf2 password salt n)) -> Forall byte salt ->
  hash_password pbkdf2 password n salt quality = Ok hash ->
  (exists s d, split "$"%char hash = [PBKDF2_SCHEME; str_of_int n; s; d]
     /\ b64decode s = Some salt /\ b64decode d = Some (pbkdf2 password salt n))
  /\ verify_password pbkdf2 password hash = Ok true
  /\ (forall other, verify_password pbkdf2 other hash = Ok true <-> pbkdf2 other salt n = pbkdf2 password salt n)
  /\ (forall target, needs_rehash hash target = Ok (n <? target)).
Proof.
  intros Hb Hs Hh. destruct (stored_checks pbkdf2 Hb _ _ _ _ _ Hh Hs) as [Hv Hr]. split; [by eapply stored_parts|].
  split; [|split; [|exact Hr]].
  - by rewrite Hv, bool_decide_true.
  - intros other. rewrite Hv. split; [by intros [= ?%bool_decide_eq_true]|intros ->; by rewrite bool_decide_true].
Qed.
(** A derivation that keeps the text, for a look at the encoded form. *)
Definition lab_pbkdf2 (password : string) (salt : list Z) (n : Z) : list Z :=
  map (fun a => code a) (chars password) ++ map (fun b => b mod 256) salt.
Lemma code_byte a : byte (code a).
Proof. unfold byte, code. destruct a as [[] [] [] [] [] [] [] []]; vm_compute; split; congruence. Qed.
Lemma lab_bytes password salt n : Forall byte (lab_pbkdf2 password salt n).
Proof.
  apply Forall_app. split; apply list.Forall_forall; intros x (y & -> & _)%list_elem_of_fmap; [apply code_byte|].
  unfold byte. apply Z.mod_pos_bound. lia.
Qed.
Theorem checks_witness : exists hash, hash_password lab_pbkdf2 "open sesame" 200000 [7; 255] true = Ok hash
  /\ hash = "pbkdf2_sha256$200000$B/8=$b3BlbiBzZXNhbWUH/w=="
  /\ verify_password lab_pbkdf2 "open sesame" hash = Ok true /\ verify_password lab_pbkdf2 "open sesam" hash = Ok false.
Proof.
  eexists. split; [vm_compute; reflexivity|]. split; [reflexivity|]. split; [|vm_compute; reflexivity].
  refine (proj1 (proj2 (a_password_checks_against_its_own_hash lab_pbkdf2 "open sesame" 200000 [7; 255] true _ lab_bytes _ _))).
  - by repeat constructor.
  - vm_compute. reflexivity.
Defined.
(** A stored cost no C integer holds raises, where a mismatch was promised. *)
Lemma a_huge_cost_raises : verify_password lab_pbkdf2 "open sesame" "pbkdf2_sha256$99999999999$B/8=$b3Bl" = Err OverflowError.
Proof. vm_compute. reflexivity. Qed.
