(* ===== verification/WebStore.v ===== *)
(** * Accounts and sessions of the web console ([db/web_auth_store.py]).

    Three tables: accounts, sessions, login attempts.  An operation is a sequence of connection
    blocks of the store, each of them atomic; before each one the tables may change ([others]), and
    every look at the clock is a look of its own.  A stored time is the second its text names; a
    hash and a token are what [WebAuth] makes of the derivation, the digest and the randomness of
    the environment. *)

From S2P Require Import Prelude Py PyTime WebAuth.

(** ** Tables *)
Record User := mkUser { u_id : Z; u_name : string; u_display : string; u_email : string; u_hash : string; u_ref : string;
  u_must_change : bool; u_level : Z; u_active : bool; u_failed : Z; u_locked : option Z; u_last_login : option Z;
  u_created : Z; u_updated : Z; u_deactivated : option Z; u_created_by : string; u_updated_by : string; u_note : string }.
Record Session := mkSession { s_id : Z; s_user : Z; s_fingerprint : string; s_csrf : string; s_issued : Z; s_expires : Z;
  s_seen : Z; s_ip : string; s_agent : string; s_active : bool; s_revoked : option Z; s_reason : string }.
Inductive reason := REASON_OK | REASON_NO_USER | REASON_DISABLED | REASON_BAD_PASSWORD | REASON_LOCKED | REASON_IP_THROTTLED.
#[export] Instance reason_eq_dec : EqDecision reason.
Proof. solve_decision. Defined.
Record Attempt := mkAttempt { a_id : Z; a_user : option Z; a_name : string; a_succeeded : bool; a_reason : reason;
  a_ip : string; a_agent : string; a_at : Z }.
Record WebDb := mkDb { users : list User; next_user : Z; sessions : list Session; next_session : Z;
  attempts : list Attempt; next_attempt : Z }.
Definition no_accounts : WebDb := mkDb [] 1 [] 1 [] 1.

Inductive web_error : Type :=
| AuthRefused (e : auth_error) | AlreadyActive (name : string) | NoActiveUser (name : string)
| Constraint (name : string) | PythonFailed (e : pyexn).

Definition BOOTSTRAP_USERNAME : string := "admin".
Definition BOOTSTRAP_PASSWORD : string := "admin".
Definition DEFAULT_MAX_FAILED : Z := 8.
Definition DEFAULT_LOCKOUT_MINUTES : Z := 15.
Definition DEFAULT_MAX_FAILED_PER_IP : Z := 5.

(** ** What a connection block does to the tables *)
Definition active_named (name : string) (u : User) : bool := u_active u && String.eqb (u_name u) name.
Definition active_user (name : string) (d : WebDb) : option User := List.find (active_named name) (users d).
Definition user_by_id (id : Z) (d : WebDb) : option User := List.find (fun u => u_id u =? id) (users d).
Definition level_ok (n : Z) : bool := (1 <=? n) && (n <=? 100).
Definition insert_user (row : Z -> User) (d : WebDb) : result web_error (WebDb * Z) :=
  let u := row (next_user d) in
  _ ← raise_when (negb (level_ok (u_level u))) (Constraint "user_level");
  _ ← raise_when (u_active u && existsb (active_named (u_name u)) (users d)) (Constraint "ux_web_users_active");
  Ok (mkDb (users d ++ [u]) (next_user d + 1) (sessions d) (next_session d) (attempts d) (next_attempt d), next_user d).
Definition update_users (f : User -> User) (id : Z) (d : WebDb) : WebDb :=
  mkDb (map (fun u => if u_id u =? id then f u else u) (users d)) (next_user d) (sessions d) (next_session d)
    (attempts d) (next_attempt d).
Definition insert_session (row : Z -> Session) (d : WebDb) : result web_error (WebDb * Z) :=
  let s := row (next_session d) in
  _ ← raise_when (existsb (fun x => String.eqb (s_fingerprint x) (s_fingerprint s)) (sessions d)) (Constraint "uq_web_sessions_token");
  _ ← raise_when (negb (existsb (fun u => u_id u =? s_user s) (users d))) (Constraint "fk_web_sessions_user");
  Ok (mkDb (users d) (next_user d) (sessions d ++ [s]) (next_session d + 1) (attempts d) (next_attempt d), next_session d).
Definition update_sessions (f : Session -> Session) (which : Session -> bool) (d : WebDb) : WebDb :=
  mkDb (users d) (next_user d) (map (fun s => if which s then f s else s) (sessions d)) (next_session d)
    (attempts d) (next_attempt d).
Definition insert_attempt (row : Z -> Attempt) (d : WebDb) : result web_error WebDb :=
  let a := row (next_attempt d) in
  _ ← raise_when (match a_user a with Some id => negb (existsb (fun u => u_id u =? id) (users d)) | None => false end)
        (Constraint "fk_web_login_attempts_user");
  Ok (mkDb (users d) (next_user d) (sessions d) (next_session d) (attempts d ++ [a]) (next_attempt d + 1)).
(** The rows as each UPDATE of the loop leaves them, each with a time of its own. *)
Definition revoked (at_ : Z) (why : string) (s : Session) : Session :=
  mkSession (s_id s) (s_user s) (s_fingerprint s) (s_csrf s) (s_issued s) (s_expires s) (s_seen s) (s_ip s) (s_agent s)
    false (Some at_) why.
Definition is_open_of (id : Z) (s : Session) : bool := (s_user s =? id) && s_active s.
Fixpoint revoke_each (time : nat -> Z) (why : string) (id : Z) (l : list Session) : list Session * nat :=
  match l with
  | [] => ([], 0%nat)
  | s :: l =>
      if is_open_of id s
      then let '(l, n) := revoke_each (fun k => time (S k)) why id l in (revoked (time 0%nat) why s :: l, S n)
      else let '(l, n) := revoke_each time why id l in (s :: l, n)
  end.

(** ** The environment, and an operation *)
Record Env := mkEnv {
  pbkdf2 : string -> list Z -> Z -> list Z; sha256 : string -> string;
  cost : Z;                       (* [PBKDF2_ITERATIONS], read at each call *)
  clock : nat -> Z;               (* microseconds *)
  salt_bytes : nat -> list Z; url_token : nat -> string;
  others : nat -> WebDb -> WebDb  (* what other processes did before a block *) }.
Record World := mkWorld { db : WebDb; looks : nat; blocks : nat; drawn : nat; checks : nat; dummy : option string }.
Definition M (A : Type) : Type := World -> result web_error A * World.
#[export] Instance M_ret : MRet M := fun _ a w => (Ok a, w).
#[export] Instance M_bind : MBind M := fun _ _ f m w =>
  match m w with (Ok a, w) => f a w | (Err e, w) => (Err e, w) end.
Definition fails {A} (e : web_error) : M A := fun w => (Err e, w).
Definition of_auth {A} (r : result auth_error A) : M A := fun w =>
  (match r with Ok a => Ok a | Err e => Err (AuthRefused e) end, w).
Definition of_python {A} (r : result pyexn A) : M A := fun w =>
  (match r with Ok a => Ok a | Err e => Err (PythonFailed e) end, w).

Section operations.
Variable E : Env.
Definition utc_now : M Z := fun w =>
  (Ok (clock E (looks w)), mkWorld (db w) (S (looks w)) (blocks w) (drawn w) (checks w) (dummy w)).
(** The whole second a time is stored as, and read back from. *)
Definition utc_text (moment : Z) : Z := moment / usec.
Definition parse_utc (stored : option Z) : option Z := seconds <$> stored.
Definition now_text : M Z := now ← utc_now; mret (utc_text now).
Definition draw {A} (supply : nat -> A) : M A := fun w =>
  (Ok (supply (drawn w)), mkWorld (db w) (looks w) (blocks w) (S (drawn w)) (checks w) (dummy w)).
Definition block {A} (f : WebDb -> result web_error (WebDb * A)) : M A := fun w =>
  let d := others E (blocks w) (db w) in
  match f d with
  | Ok (d', a) => (Ok a, mkWorld d' (looks w) (S (blocks w)) (drawn w) (checks w) (dummy w))
  | Err e => (Err e, mkWorld d (looks w) (S (blocks w)) (drawn w) (checks w) (dummy w))
  end.
Definition read {A} (f : WebDb -> A) : M A := block (fun d => Ok (d, f d)).
Definition change (f : WebDb -> WebDb) : M unit := block (fun d => Ok (f d, tt)).

Definition hash_password_now (password : string) (check_quality : bool) : M string :=
  salt ← draw (salt_bytes E);
  of_auth (hash_password (pbkdf2 E) password (cost E) salt check_quality).
Definition verify (password hash : string) : M bool := fun w =>
  of_python (verify_password (pbkdf2 E) password hash)
    (mkWorld (db w) (looks w) (blocks w) (drawn w) (S (checks w)) (dummy w)).
(** Made once in a process. *)
Definition _dummy_hash : M string := fun w =>
  match dummy w with
  | Some h => (Ok h, w)
  | None =>
      match hash_password_now "dbabrain-timing-equaliser" true w with
      | (Ok h, w) => (Ok h, mkWorld (db w) (looks w) (blocks w) (drawn w) (checks w) (Some h))
      | (Err e, w) => (Err e, w)
      end
  end.
Definition verify_nothing (password : string) : M unit := h ← _dummy_hash; _ ← verify password h; mret tt.

(** ** Accounts *)
Definition get_user (username : string) : M (option User) :=
  name ← of_auth (normalize_username username); read (active_user name).
Definition get_user_by_id (id : Z) : M (option User) := read (user_by_id id).
Definition _require_user (username : string) : M User :=
  found ← get_user username;
  match found with Some u => mret u | None => fails (NoActiveUser username) end.
Record NewUser := mkNewUser { n_username : string; n_password : string; n_level : pyval; n_display : string;
  n_email : string; n_actor : string; n_note : string; n_ref : string; n_must_change : bool; n_check_quality : bool }.
Definition create_user (n : NewUser) : M Z :=
  name ← of_auth (normalize_username (n_username n));
  level ← of_auth (coerce_level (n_level n));
  encoded ← hash_password_now (n_password n) (n_check_quality n);
  found ← get_user name;
  match found with
  | Some _ => fails (AlreadyActive name)
  | None =>
      created ← now_text;
      updated ← now_text;
      block (insert_user (fun id => mkUser id name (n_display n) (n_email n) encoded (n_ref n) (n_must_change n) level true 0
        None None created updated None (n_actor n) "" (n_note n)))
  end.
Definition revoke_user_sessions (id : Z) (why : string) : M nat := fun w =>
  let d := others E (blocks w) (db w) in
  let '(l, n) := revoke_each (fun k => utc_text (clock E (looks w + k)%nat)) why id (sessions d) in
  (Ok n, mkWorld (mkDb (users d) (next_user d) l (next_session d) (attempts d) (next_attempt d))
           (looks w + n)%nat (S (blocks w)) (drawn w) (checks w) (dummy w)).
Definition with_password (hash : string) (ref : option string) (must : bool) (actor : string) (now : Z) (read_ref : string) (u : User) : User :=
  mkUser (u_id u) (u_name u) (u_display u) (u_email u) hash (default read_ref ref) must (u_level u) (u_active u) 0 None
    (u_last_login u) (u_created u) now (u_deactivated u) (u_created_by u) actor (u_note u).
Definition set_password (username password actor : string) (revoke : bool) (ref : option string) (must : bool) : M Z :=
  name ← of_auth (normalize_username username);
  encoded ← hash_password_now password true;
  u ← _require_user name;
  now ← now_text;
  _ ← change (update_users (with_password encoded ref must actor now (u_ref u)) (u_id u));
  _ ← (if revoke then revoke_user_sessions (u_id u) "password changed" else mret 0%nat);
  mret (u_id u).
Definition with_level (level : Z) (actor : string) (now : Z) (u : User) : User :=
  mkUser (u_id u) (u_name u) (u_display u) (u_email u) (u_hash u) (u_ref u) (u_must_change u) level (u_active u) (u_failed u)
    (u_locked u) (u_last_login u) (u_created u) now (u_deactivated u) (u_created_by u) actor (u_note u).
Definition set_level (username : string) (level : pyval) (actor : string) : M Z :=
  name ← of_auth (normalize_username username);
  user_level ← of_auth (coerce_level level);
  u ← _require_user name;
  now ← now_text;
  _ ← change (update_users (with_level user_level actor now) (u_id u));
  mret (u_id u).
Definition disabled (actor note : string) (gone now : Z) (u : User) : User :=
  mkUser (u_id u) (u_name u) (u_display u) (u_email u) (u_hash u) (u_ref u) (u_must_change u) (u_level u) false (u_failed u)
    (u_locked u) (u_last_login u) (u_created u) now (Some gone) (u_created_by u) actor note.
Definition deactivate_user (username actor note : string) : M Z :=
  name ← of_auth (normalize_username username);
  u ← _require_user name;
  gone ← now_text;
  now ← now_text;
  _ ← change (update_users (disabled actor note gone now) (u_id u));
  _ ← revoke_user_sessions (u_id u) "account disabled";
  mret (u_id u).
Definition add_bootstrap_admin (actor note : string) : M bool :=
  found ← get_user BOOTSTRAP_USERNAME;
  match found with
  | Some _ => mret false
  | None =>
      _ ← create_user (mkNewUser BOOTSTRAP_USERNAME BOOTSTRAP_PASSWORD (PInt 100) "Administrator" "" actor
            (if String.eqb note "" then "added by bootstrap-admin; password must be changed at first sign-in" else note)
            "" true false);
      mret true
  end.
Definition ensure_bootstrap_admin : M bool :=
  n ← read (fun d => length (users d));
  match n with
  | O => add_bootstrap_admin "bootstrap" "created on first run; password must be changed at first sign-in"
  | _ => mret false
  end.
Definition bootstrap_pending : M bool :=
  found ← get_user BOOTSTRAP_USERNAME;
  mret (match found with Some u => u_must_change u | None => false end).
Definition listed_before (a b : User) : bool :=
  let x := if u_active a then 0 else 1 in let y := if u_active b then 0 else 1 in
  if x <? y then true else if y <? x then false
  else if u_level b <? u_level a then true else if u_level a <? u_level b then false
  else String.leb (u_name a) (u_name b).
Definition list_users (include_inactive : bool) : M (list User) :=
  read (fun d => sort_by listed_before (List.filter (fun u => include_inactive || u_active u) (users d))).
Definition has_any_user : M bool := read (fun d => existsb u_active (users d)).

(** ** Signing in *)
Record Login := mkLogin { l_username : string; l_password : string; l_ip : string; l_agent : string;
  l_max_failed : Z; l_lockout_minutes : Z; l_max_failed_per_ip : Z }.
Definition lockout (q : Login) : Z := seconds (60 * Z.max 1 (l_lockout_minutes q)).
Definition failed_from (ip : string) (since : Z) (a : Attempt) : bool :=
  String.eqb (a_ip a) ip && negb (a_succeeded a) && negb (bool_decide (a_reason a = REASON_IP_THROTTLED)) && (since <=? a_at a).
Definition _failures_from (ip : string) (since : Z) (d : WebDb) : nat :=
  length (List.filter (failed_from ip since) (attempts d)).
Definition missed (id since : Z) (a : Attempt) : bool :=
  bool_decide (a_user a = Some id) && bool_decide (a_reason a = REASON_BAD_PASSWORD) && (since <? a_at a).
Definition _account_failures (id since : Z) (d : WebDb) : nat := length (List.filter (missed id since) (attempts d)).
Definition _record_attempt (user : option Z) (name : string) (succeeded : bool) (why : reason) (ip agent : string) : M unit :=
  now ← now_text;
  block (fun d => d ← insert_attempt (fun id => mkAttempt id user (str_take 64 name) succeeded why (str_take 64 ip)
    (str_take 256 agent) now) d; Ok (d, tt)).
Definition counted (failed : Z) (locked : option Z) (now : Z) (u : User) : User :=
  mkUser (u_id u) (u_name u) (u_display u) (u_email u) (u_hash u) (u_ref u) (u_must_change u) (u_level u) (u_active u) failed
    locked (u_last_login u) (u_created u) now (u_deactivated u) (u_created_by u) (u_updated_by u) (u_note u).
Definition _register_failure (u : User) (q : Login) (since : Z) : M unit :=
  n ← read (_account_failures (u_id u) (match u_last_login u with Some t => Z.max since t | None => since end));
  let failed := Z.of_nat n + 1 in
  locked ← (if (0 <? l_max_failed q) && (l_max_failed q <=? failed)
            then now ← utc_now; mret (Some (utc_text (now + lockout q))) else mret None);
  now ← now_text;
  change (update_users (counted failed locked now) (u_id u)).
Definition signed_in (hash : option string) (now : Z) (u : User) : User :=
  mkUser (u_id u) (u_name u) (u_display u) (u_email u) (default (u_hash u) hash) (u_ref u) (u_must_change u) (u_level u)
    (u_active u) 0 None (Some now) (u_created u) (u_updated u) (u_deactivated u) (u_created_by u) (u_updated_by u) (u_note u).
Definition refuse (user : option Z) (name : string) (why : reason) (q : Login) : M (option User * reason) :=
  _ ← _record_attempt user name false why (l_ip q) (l_agent q); mret (None, why).
Definition throttled (q : Login) (since : Z) : M bool :=
  let ip := str_take 64 (l_ip q) in
  if negb (String.eqb ip "") && (0 <? l_max_failed_per_ip q)
  then n ← read (_failures_from ip since); mret (l_max_failed_per_ip q <=? Z.of_nat n)
  else mret false.
Definition is_locked (u : User) : M bool :=
  match parse_utc (u_locked u) with
  | Some until => now ← utc_now; mret (now <? until)
  | None => mret false
  end.
Definition authenticate (q : Login) : M (option User * reason) :=
  match normalize_username (l_username q) with
  | Err _ => mret (None, REASON_NO_USER)
  | Ok name =>
      now ← utc_now;
      let since := utc_text (now - lockout q) in
      refused ← throttled q since;
      if (refused : bool) then _ ← verify_nothing (l_password q); refuse None name REASON_IP_THROTTLED q
      else
        found ← get_user name;
        match found with
        | None => _ ← verify_nothing (l_password q); refuse None name REASON_NO_USER q
        | Some u =>
            locked ← is_locked u;
            if (locked : bool) then _ ← verify_nothing (l_password q); refuse (Some (u_id u)) name REASON_LOCKED q
            else
              ok ← verify (l_password q) (u_hash u);
              if negb ok then
                _ ← _register_failure u q since; refuse (Some (u_id u)) name REASON_BAD_PASSWORD q
              else
                weak ← of_python (needs_rehash (u_hash u) (cost E));
                hash ← (if (weak : bool) then h ← hash_password_now (l_password q) true; mret (Some h) else mret None);
                now ← now_text;
                _ ← change (update_users (signed_in hash now) (u_id u));
                _ ← _record_attempt (Some (u_id u)) name true REASON_OK (l_ip q) (l_agent q);
                after ← get_user_by_id (u_id u);
                mret (after, REASON_OK)
        end
  end.

(** ** Sessions *)
Record Issued := mkIssued { i_token : string; i_csrf : string; i_expires : Z; i_session : Z; i_max_age : Z }.
Definition issue_session (user session_days : Z) (ip agent : string) : M Issued :=
  token ← draw (url_token E);
  csrf ← draw (url_token E);
  issued ← utc_now;
  let lifetime := seconds (86400 * Z.max 1 session_days) in
  let expires := issued + lifetime in
  id ← block (insert_session (fun id => mkSession id user (token_fingerprint (sha256 E) token) csrf (utc_text issued)
    (utc_text expires) (utc_text issued) (str_take 64 ip) (str_take 256 agent) true None ""));
  mret (mkIssued token csrf (utc_text expires) id (whole_seconds lifetime)).
Definition _revoke_session_id (id : Z) (why : string) : M unit :=
  now ← now_text; change (update_sessions (revoked now why) (fun s => s_id s =? id)).
Definition seen (now : Z) (s : Session) : Session :=
  mkSession (s_id s) (s_user s) (s_fingerprint s) (s_csrf s) (s_issued s) (s_expires s) now (s_ip s) (s_agent s)
    (s_active s) (s_revoked s) (s_reason s).
Definition open_with (fingerprint : string) (s : Session) : bool := String.eqb (s_fingerprint s) fingerprint && s_active s.
(** The session of a fingerprint with its account. *)
Definition session_row (fingerprint : string) (d : WebDb) : option (Session * User) :=
  match List.find (open_with fingerprint) (sessions d) with
  | Some s => (fun u => (s, u)) <$> user_by_id (s_user s) d
  | None => None
  end.
Record Account := mkAccount { c_session : Z; c_user : Z; c_name : string; c_display : string; c_level : Z; c_csrf : string;
  c_must_change : bool; c_issued : Z; c_expires : Z }.
Definition account_of (s : Session) (u : User) : Account :=
  mkAccount (s_id s) (s_user s) (u_name u) (u_display u) (u_level u) (s_csrf s) (u_must_change u) (s_issued s) (s_expires s).
Definition resolve_session (token : string) (touch : bool) : M (option Account) :=
  let fingerprint := token_fingerprint (sha256 E) token in
  if String.eqb (strip token) "" then mret None
  else
    row ← read (session_row fingerprint);
    match row with
    | None => mret None
    | Some (s, u) =>
        now ← utc_now;
        if seconds (s_expires s) <=? now then _ ← _revoke_session_id (s_id s) "expired"; mret None
        else if negb (u_active u) then _ ← _revoke_session_id (s_id s) "account disabled"; mret None
        else
          _ ← (if touch then now ← now_text; change (update_sessions (seen now) (fun x => s_id x =? s_id s)) else mret tt);
          mret (Some (account_of s u))
    end.
Definition revoke_session (token why : string) : M bool :=
  found ← read (fun d => List.find (open_with (token_fingerprint (sha256 E) token)) (sessions d));
  match found with
  | None => mret false
  | Some s => _ ← _revoke_session_id (s_id s) why; mret true
  end.
End operations.

(** [secret_ref_for]: letters and digits in capitals, underscores around them trimmed. *)
Definition secret_ref_for (username : string) : result auth_error string :=
  name ← normalize_username username;
  Ok ("WEB_CONSOLE_" +:+ upper (strip_chars "_" (text (map (fun a => if is_alnum a then a else "_"%char) (chars name))))).
