(* ===== verification/WebStoreProofs.v ===== *)
(** * What the tables of the console keep: proofs over [WebStore].

    Every block of every operation is a [web_step], and so is what other processes do between them;
    ids, names and tokens stay unique, a session that ended and an account that was disabled stay
    so, and a token is answered with its account exactly while both last. *)

From S2P Require Import Prelude Py PyTime WebAuth WebStore.

(** ** Steps *)
Definition tame_user (f : User -> User) : Prop := forall u,
  u_id (f u) = u_id u /\ u_name (f u) = u_name u /\ (u_active (f u) = true -> u_active u = true)
  /\ (level_ok (u_level u) = true -> level_ok (u_level (f u)) = true).
Definition same_session (s s' : Session) : Prop :=
  s_id s' = s_id s /\ s_user s' = s_user s /\ s_fingerprint s' = s_fingerprint s /\ s_csrf s' = s_csrf s
  /\ s_issued s' = s_issued s /\ s_expires s' = s_expires s /\ (s_active s' = true -> s_active s = true).
Inductive web_step : WebDb -> WebDb -> Prop :=
| Ws_user row d d' id : (forall id, u_id (row id) = id) -> insert_user row d = Ok (d', id) -> web_step d d'
| Ws_update f id d : tame_user f -> web_step d (update_users f id d)
| Ws_session row d d' id : (forall id, s_id (row id) = id) -> insert_session row d = Ok (d', id) -> web_step d d'
| Ws_touch f which d : (forall s, same_session s (f s)) -> web_step d (update_sessions f which d)
| Ws_revoke time why id d : web_step d (mkDb (users d) (next_user d) (revoke_each time why id (sessions d)).1 (next_session d)
    (attempts d) (next_attempt d))
| Ws_attempt row d d' : (forall id, a_id (row id) = id) -> insert_attempt row d = Ok d' -> web_step d d'.

(** ** The invariant *)
Record web_ok (d : WebDb) : Prop := {
  ok_users : NoDup (map u_id (users d)) /\ Forall (fun u => 0 < u_id u < next_user d /\ level_ok (u_level u) = true) (users d);
  ok_names : NoDup (map u_name (List.filter u_active (users d)));
  ok_sessions : NoDup (map s_id (sessions d)) /\ Forall (fun s => 0 < s_id s < next_session d) (sessions d);
  ok_tokens : NoDup (map s_fingerprint (sessions d));
  ok_owners : Forall (fun s => exists u, u ∈ users d /\ u_id u = s_user s) (sessions d);
  ok_attempts : Forall (fun a => match a_user a with Some id => exists u, u ∈ users d /\ u_id u = id | None => True end) (attempts d);
  ok_next : 0 < next_user d /\ 0 < next_session d }.
Lemma no_accounts_ok : web_ok no_accounts.
Proof. split; cbn; repeat split; try constructor; lia. Qed.

Lemma map_update {A B} (g : A -> B) (f : A -> A) (p : A -> bool) l : (forall x, g (f x) = g x) ->
  map g (map (fun x => if p x then f x else x) l) = map g l.
Proof. intros H. rewrite map_map. apply map_ext. intros x. by destruct (p x). Qed.
Lemma same_refl s : same_session s s.
Proof. by repeat split. Qed.
Lemma revoked_same at_ why s : same_session s (revoked at_ why s).
Proof. by repeat split. Qed.
Lemma revoke_each_spec why id l : forall time,
  Forall2 same_session l (revoke_each time why id l).1
  /\ Forall (fun s => s_user s = id -> s_active s = false) (revoke_each time why id l).1.
Proof.
  induction l as [|s l IH]; intros time; cbn [revoke_each]; [done|]. unfold is_open_of.
  destruct (Z.eqb_spec (s_user s) id) as [Hs|Hs]; [destruct (s_active s) eqn:Ha|]; cbn [andb].
  - destruct (IH (fun k => time (S k))) as [H1 H2]. destruct (revoke_each _ why id l) as [l' n]. cbn [fst] in *.
    split; constructor; auto using revoked_same.
  - destruct (IH time) as [H1 H2]. destruct (revoke_each _ why id l) as [l' n]. cbn [fst] in *. split; constructor; auto using same_refl.
  - destruct (IH time) as [H1 H2]. destruct (revoke_each _ why id l) as [l' n]. cbn [fst] in *. split; constructor; auto using same_refl; done.
Qed.
Lemma update_same (f : Session -> Session) (which : Session -> bool) l : (forall s, same_session s (f s)) ->
  Forall2 same_session l (map (fun s => if which s then f s else s) l).
Proof. intros H. induction l as [|s l IH]; cbn; constructor; [destruct (which s); auto using same_refl|done]. Qed.
Lemma same_maps l l' : Forall2 same_session l l' ->
  map s_id l' = map s_id l /\ map s_fingerprint l' = map s_fingerprint l /\ map s_user l' = map s_user l.
Proof. induction 1 as [|s s' l l' (H1 & H2 & H3 & _) _ (IH1 & IH2 & IH3)]; cbn; [done|]. by rewrite H1, H2, H3, IH1, IH2, IH3. Qed.

Lemma in_update (f : User -> User) (id : Z) (l : list User) u : u ∈ l -> exists u', u' ∈ map (fun u => if u_id u =? id then f u else u) l
  /\ u' = (if u_id u =? id then f u else u).
Proof. intros H. exists (if u_id u =? id then f u else u). split; [|done]. apply list_elem_of_fmap. by exists u. Qed.
Lemma from_update (f : User -> User) (id : Z) (l : list User) u' : u' ∈ map (fun u => if u_id u =? id then f u else u) l ->
  exists u, u ∈ l /\ u' = (if u_id u =? id then f u else u).
Proof. intros (u & -> & H)%list_elem_of_fmap. eauto. Qed.

(** What stays of a table. *)
Definition kept (d d' : WebDb) : Prop :=
  (forall u, u ∈ users d -> exists u', u' ∈ users d' /\ u_id u' = u_id u /\ u_name u' = u_name u /\ (u_active u' = true -> u_active u = true))
  /\ (forall s, s ∈ sessions d -> exists s', s' ∈ sessions d' /\ same_session s s').
Lemma kept_refl d : kept d d.
Proof. split; intros x Hx; exists x; auto using same_refl. Qed.
Lemma same_trans s1 s2 s3 : same_session s1 s2 -> same_session s2 s3 -> same_session s1 s3.
Proof. intros (?&?&?&?&?&?&?) (?&?&?&?&?&?&?). repeat split; congruence || auto. Qed.
Lemma kept_trans d1 d2 d3 : kept d1 d2 -> kept d2 d3 -> kept d1 d3.
Proof.
  intros [Hu Hs] [Hu' Hs']. split.
  - intros u (u' & Hin & ? & ? & ?)%Hu. destruct (Hu' _ Hin) as (u'' & ? & ? & ? & ?). exists u''. repeat split; auto; congruence.
  - intros s (s' & Hin & ?)%Hs. destruct (Hs' _ Hin) as (s'' & ? & ?). exists s''. eauto using same_trans.
Qed.
Lemma same_in l l' s : Forall2 same_session l l' -> s ∈ l -> exists s', s' ∈ l' /\ same_session s s'.
Proof.
  induction 1 as [|x x' l l' Hx H IH]; intros Hs; [by apply not_elem_of_nil in Hs|].
  apply list.elem_of_cons in Hs as [->|(s' & ? & ?)%IH]; [exists x'|exists s']; split; auto; set_solver.
Qed.
Lemma step_kept d d' : web_step d d' -> kept d d'.
Proof.
  intros [row d0 d0' id Hrow H|f id d0 Hf|row d0 d0' id Hrow H|f which d0 Hf|time why id d0|row d0 d0' Hrow H].
  - unfold insert_user in H. apply result_bind_ok in H as ([] & _ & H). apply result_bind_ok in H as ([] & _ & [= <- _]).
    split; cbn; intros x Hx; exists x; (split; [set_solver|auto using same_refl]).
  - split; cbn; [|intros s Hs; exists s; auto using same_refl]. intros u Hu. destruct (in_update f id _ u Hu) as (u' & Hin & ->).
    eexists. split; [exact Hin|]. destruct (u_id u =? id); [|done]. destruct (Hf u) as (? & ? & ? & _). auto.
  - unfold insert_session in H. apply result_bind_ok in H as ([] & _ & H). apply result_bind_ok in H as ([] & _ & [= <- _]).
    split; cbn; intros x Hx; exists x; (split; [set_solver|auto using same_refl]).
  - split; cbn; [intros u Hu; by exists u|]. intros s. apply same_in. by apply update_same.
  - split; cbn; [intros u Hu; by exists u|]. intros s. apply same_in. apply revoke_each_spec.
  - unfold insert_attempt in H. apply result_bind_ok in H as ([] & _ & [= <-]).
    split; cbn; intros x Hx; exists x; auto using same_refl.
Qed.
Lemma steps_kept d d' : rtc web_step d d' -> kept d d'.
Proof. induction 1 as [|d1 d2 d3 H _ IH]; [apply kept_refl|]. eauto using kept_trans, step_kept. Qed.

Lemma active_names_sublist f (which : User -> bool) l : tame_user f ->
  map u_name (List.filter u_active (map (fun u => if which u then f u else u) l)) `sublist_of` map u_name (List.filter u_active l).
Proof.
  intros Hf. induction l as [|u l IH]; [done|]. cbn [map List.filter]. destruct (which u).
  - destruct (Hf u) as (_ & Hn & Ha & _). destruct (u_active (f u)); [rewrite Ha by done|destruct (u_active u)]; cbn [map].
    + rewrite Hn. by constructor.
    + by constructor.
    + done.
  - destruct (u_active u); cbn [map]; [by constructor|done].
Qed.
Lemma fresh_id {A} (key : A -> Z) l next : NoDup (map key l) -> Forall (fun x => 0 < key x < next) l -> 0 < next ->
  forall x, key x = next -> NoDup (map key (l ++ [x])) /\ Forall (fun x => 0 < key x < next + 1) (l ++ [x]).
Proof.
  intros Hnd Hl Hn x <-. split.
  - rewrite map_app. apply list.NoDup_app. split; [done|]. split; [|apply NoDup_singleton].
    intros y (z & -> & Hz)%list_elem_of_fmap Hy. apply list_elem_of_singleton in Hy. rewrite list.Forall_forall in Hl. specialize (Hl z Hz). lia.
  - apply Forall_app. split; [|repeat constructor; lia]. eapply list.Forall_impl; [exact Hl|]. cbn. lia.
Qed.
Lemma not_there {A} (key : A -> string) (p : A -> bool) k l :
  existsb (fun x => p x && String.eqb (key x) k) l = false -> k ∉ map key (List.filter p l).
Proof.
  intros H (x & -> & [Hx Hp]%elem_of_filter_bool)%list_elem_of_fmap. apply not_true_iff_false in H. apply H, existsb_exists.
  exists x. split; [by apply list_elem_of_In|]. by rewrite Hp, String.eqb_refl.
Qed.
Lemma snoc_filter {A} (p : A -> bool) l x : List.filter p (l ++ [x]) = List.filter p l ++ (if p x then [x] else []).
Proof. rewrite List.filter_app. cbn. by destruct (p x). Qed.
Lemma insert_user_ok row d d' id : (forall id, u_id (row id) = id) -> insert_user row d = Ok (d', id) -> web_ok d -> web_ok d'.
Proof.
  intros Hrow H [[Hu Hul] Hn [Hs Hsl] Ht Ho Ha [Hx Hy]]. unfold insert_user in H.
  apply result_bind_ok in H as ([] & Hlev%raise_when_ok & H). apply result_bind_ok in H as ([] & Hact%raise_when_ok & [= <- _]).
  apply negb_false_iff in Hlev. destruct (fresh_id u_id (users d) (next_user d)) with (x := row (next_user d)) as [Hu' Hul'];
    [done|eapply list.Forall_impl; [exact Hul|by intros ? [? ?]]|done|apply Hrow|].
  split; cbn; [split; [done|]| |by split|done| | |lia].
  - apply Forall_app. split; [|constructor; [|constructor]].
    + eapply list.Forall_impl; [exact Hul|]. cbn. intros u [? ?]. split; [lia|done].
    + rewrite Hrow. split; [lia|done].
  - rewrite snoc_filter. destruct (u_active _) eqn:E; [|by rewrite app_nil_r]. rewrite map_app. apply list.NoDup_app.
    split; [done|]. split; [|apply NoDup_singleton]. intros k Hk Hin. apply list_elem_of_singleton in Hin as ->.
    by apply (not_there u_name u_active) in Hact.
  - eapply list.Forall_impl; [exact Ho|]. cbn. intros s (u & ? & ?). exists u. set_solver.
  - eapply list.Forall_impl; [exact Ha|]. cbn. intros a. destruct (a_user a); [|done]. intros (u & ? & ?). exists u. set_solver.
Qed.
Lemma update_ids f id l : tame_user f -> map u_id (map (fun u : User => if u_id u =? id then f u else u) l) = map u_id l.
Proof. intros Hf. rewrite map_map. apply map_ext. intros u. destruct (u_id u =? id); [apply Hf|done]. Qed.
Lemma ids_owner (l l' : list User) id : map u_id l' = map u_id l ->
  (exists u, u ∈ l /\ u_id u = id) -> exists u, u ∈ l' /\ u_id u = id.
Proof.
  intros Heq (u & Hu & <-). assert (Hin : u_id u ∈ map u_id l') by (rewrite Heq; by apply list_elem_of_fmap_2).
  apply list_elem_of_fmap in Hin as (u' & ? & ?). eauto.
Qed.
Lemma update_user_ok f id d : tame_user f -> web_ok d -> web_ok (update_users f id d).
Proof.
  intros Hf [[Hu Hul] Hn Hs Ht Ho Ha Hx]. pose proof (update_ids f id (users d) Hf) as Hids.
  split; cbn; [split; [by rewrite Hids|]| |done|done| | |done].
  - apply list.Forall_forall. intros u' (u & -> & Hin)%list_elem_of_fmap. rewrite list.Forall_forall in Hul. destruct (Hul u Hin) as [? ?].
    destruct (u_id u =? id); [|done]. destruct (Hf u) as (-> & _ & _ & Hl). auto.
  - eapply sublist_NoDup; [exact Hn|]. by apply active_names_sublist.
  - eapply list.Forall_impl; [exact Ho|]. cbn. intros s. by apply ids_owner.
  - eapply list.Forall_impl; [exact Ha|]. cbn. intros a. destruct (a_user a); [by apply ids_owner|done].
Qed.
Lemma insert_session_ok row d d' id : (forall id, s_id (row id) = id) -> insert_session row d = Ok (d', id) -> web_ok d -> web_ok d'.
Proof.
  intros Hrow H [Hu Hn [Hs Hsl] Ht Ho Ha [Hx Hy]]. unfold insert_session in H.
  apply result_bind_ok in H as ([] & Htok%raise_when_ok & H). apply result_bind_ok in H as ([] & Hfk%raise_when_ok & [= <- _]).
  apply negb_false_iff, existsb_exists in Hfk as (u & Hin%list_elem_of_In & Hid%Z.eqb_eq).
  destruct (fresh_id s_id (sessions d) (next_session d)) with (x := row (next_session d)) as [Hs' Hsl']; [done..|apply Hrow|].
  split; cbn; [done|done|by split| | |done|lia].
  - rewrite map_app. apply list.NoDup_app. split; [done|]. split; [|apply NoDup_singleton].
    intros k (x & -> & Hxin)%list_elem_of_fmap Hin'. apply list_elem_of_singleton in Hin'.
    apply not_true_iff_false in Htok. apply Htok, existsb_exists. exists x. split; [by apply list_elem_of_In|]. by apply String.eqb_eq.
  - apply Forall_app. split; [done|]. repeat constructor. eauto.
Qed.
Lemma sessions_ok l' d : Forall2 same_session (sessions d) l' -> web_ok d ->
  web_ok (mkDb (users d) (next_user d) l' (next_session d) (attempts d) (next_attempt d)).
Proof.
  intros Hsame [Hu Hn [Hs Hsl] Ht Ho Ha Hx]. destruct (same_maps _ _ Hsame) as (Hi & Hf & Hus).
  split; cbn; [done|done|split; [by rewrite Hi|]|by rewrite Hf| |done|done].
  - clear -Hsl Hsame. induction Hsame as [|s s' l l' (Heq & _) _ IH]; [done|]. apply list.Forall_cons in Hsl as [? ?].
    constructor; [by rewrite Heq|auto].
  - clear -Ho Hsame. induction Hsame as [|s s' l l' (_ & Heq & _) _ IH]; [done|]. apply list.Forall_cons in Ho as [? ?].
    constructor; [by rewrite Heq|auto].
Qed.
Lemma step_ok d d' : web_step d d' -> web_ok d -> web_ok d'.
Proof.
  intros [row d0 d0' id Hrow H|f id d0 Hf|row d0 d0' id Hrow H|f which d0 Hf|time why id d0|row d0 d0' Hrow H] Hok.
  - by eapply insert_user_ok.
  - by apply update_user_ok.
  - by eapply insert_session_ok.
  - apply sessions_ok; [by apply update_same|done].
  - apply sessions_ok; [apply revoke_each_spec|done].
  - unfold insert_attempt in H. apply result_bind_ok in H as ([] & Hfk%raise_when_ok & [= <-]).
    destruct Hok as [Hu Hn Hs Ht Ho Ha Hx]. split; cbn; try done. apply Forall_app. split; [done|]. repeat constructor.
    destruct (a_user _) as [i|]; [|done]. apply negb_false_iff, existsb_exists in Hfk as (u & Hin%list_elem_of_In & Hid%Z.eqb_eq). eauto.
Qed.
Lemma steps_ok d d' : rtc web_step d d' -> web_ok d -> web_ok d'.
Proof. induction 1; eauto using step_ok. Qed.

(** ** Operations are steps *)
Definition others_ok (E : Env) : Prop := forall n d, rtc web_step d (others E n d).
Definition does {A} (m : M A) : Prop := forall w, rtc web_step (db w) (db (m w).2).
Lemma does_then {A B} (m : M A) (f : A -> M B) : does m -> (forall a, does (f a)) -> does (m ≫= f).
Proof.
  intros Hm Hf w. unfold mbind, M_bind. specialize (Hm w). destruct (m w) as [[a|e] w']; [|done]. cbn [snd] in Hm.
  etrans; [exact Hm|]. apply Hf.
Qed.
Lemma does_answer {A} (a : A) : does (mret a).
Proof. intros w. done. Qed.
Lemma does_fails {A} e : does (@fails A e).
Proof. intros w. done. Qed.
Lemma does_auth {A} (r : result auth_error A) : does (of_auth r).
Proof. intros w. done. Qed.
Lemma does_python {A} (r : result pyexn A) : does (of_python r).
Proof. intros w. done. Qed.
Create HintDb web.
#[export] Hint Resolve does_answer does_fails does_auth does_python : web.
#[export] Hint Extern 5 (does (_ ≫= _)) => apply does_then; [|intros ?] : web.

Section steps.
Variable E : Env.
Hypothesis Hothers : others_ok E.
Lemma does_now : does (utc_now E).
Proof using. intros w. done. Qed.
Lemma does_draw {A} (f : nat -> A) : does (draw f).
Proof using. intros w. done. Qed.
Lemma does_block {A} (f : WebDb -> result web_error (WebDb * A)) :
  (forall d d' a, f d = Ok (d', a) -> rtc web_step d d') -> does (block E f).
Proof using Hothers.
  intros Hf w. unfold block. destruct (f _) as [[d' a]|e] eqn:Hd; cbn; [|apply Hothers].
  etrans; [apply Hothers|eauto].
Qed.
Lemma does_read {A} (f : WebDb -> A) : does (read E f).
Proof using Hothers. apply does_block. by intros d d' a [= <- _]. Qed.
Lemma does_change f : (forall d, web_step d (f d)) -> does (change E f).
Proof using Hothers. intros Hf. apply does_block. intros d d' a [= <- _]. by apply rtc_once. Qed.
Lemma does_update f id : tame_user f -> does (change E (update_users f id)).
Proof using Hothers. intros Hf. apply does_change. intros d. by constructor. Qed.
Lemma does_touch f which : (forall s, same_session s (f s)) -> does (change E (update_sessions f which)).
Proof using Hothers. intros Hf. apply does_change. intros d. by constructor. Qed.
#[local] Hint Resolve does_now does_draw does_read does_update does_touch : web.
Lemma does_now_text : does (now_text E).
Proof using Hothers. unfold now_text. auto with web. Qed.
#[local] Hint Resolve does_now_text : web.
Lemma does_hash p q : does (hash_password_now E p q).
Proof using Hothers. unfold hash_password_now. auto with web. Qed.
Lemma does_verify p h : does (verify E p h).
Proof using. intros w. done. Qed.
#[local] Hint Resolve does_hash does_verify : web.
Lemma does_dummy : does (_dummy_hash E).
Proof using Hothers.
  intros w. unfold _dummy_hash. destruct (dummy w); [done|].
  pose proof (does_hash "dbabrain-timing-equaliser" true w) as H. by destruct (hash_password_now _ _ _ w) as [[h|e] w'].
Qed.
#[local] Hint Resolve does_dummy : web.
Lemma does_nothing p : does (verify_nothing E p).
Proof using Hothers. unfold verify_nothing. auto with web. Qed.
Lemma does_get_user n : does (get_user E n).
Proof using Hothers. unfold get_user. auto with web. Qed.
#[local] Hint Resolve does_nothing does_get_user : web.
Lemma does_require n : does (_require_user E n).
Proof using Hothers. unfold _require_user. apply does_then; [auto with web|]. intros [u|]; auto with web. Qed.
Lemma does_revoke_user id why : does (revoke_user_sessions E id why).
Proof using Hothers.
  intros w. unfold revoke_user_sessions. etrans; [apply (Hothers (blocks w))|]. destruct (revoke_each _ _ _ _) as [l n] eqn:Hr.
  apply rtc_once. change l with (l, n).1. rewrite <-Hr. constructor.
Qed.
#[local] Hint Resolve does_require does_revoke_user : web.
Lemma does_insert row : (forall id, u_id (row id) = id) -> does (block E (insert_user row)).
Proof using Hothers. intros Hr. apply does_block. intros d d' a H. by eapply rtc_once, Ws_user. Qed.
Lemma does_create n : does (create_user E n).
Proof using Hothers.
  unfold create_user. do 4 (apply does_then; [auto with web|intros ?]).
  match goal with |- does (match ?x with _ => _ end) => destruct x end; [auto with web|].
  do 2 (apply does_then; [auto with web|intros ?]). by apply does_insert.
Qed.
Lemma tame_password h r m a n d : tame_user (with_password h r m a n d).
Proof using. by intros u. Qed.
Lemma tame_disabled a n g now : tame_user (disabled a n g now).
Proof using. intros u. cbn. repeat split; auto. done. Qed.
Lemma tame_counted f l n : tame_user (counted f l n).
Proof using. by intros u. Qed.
Lemma tame_signed h n : tame_user (signed_in h n).
Proof using. by intros u. Qed.
Lemma level_in_range v n : coerce_level v = Ok n -> level_ok n = true.
Proof using.
  unfold coerce_level, level_ok, MIN_LEVEL, MAX_LEVEL. destruct (py_int v) as [k|[]]; try done.
  destruct (_ && _) eqn:Hk; [|done]. by intros [= <-].
Qed.
#[local] Hint Resolve tame_password tame_disabled tame_counted tame_signed : web.
Lemma does_set_password n p a r ref m : does (set_password E n p a r ref m).
Proof using Hothers. unfold set_password. do 5 (apply does_then; [auto with web|intros ?]). destruct r; auto with web. Qed.
Lemma does_known {A B} (r : result auth_error A) (f : A -> M B) : (forall a, r = Ok a -> does (f a)) -> does (of_auth r ≫= f).
Proof using. intros H w. destruct r as [a|e]; [by apply H|done]. Qed.
Lemma tame_level k a n : level_ok k = true -> tame_user (with_level k a n).
Proof using. intros Hk u. cbn. auto. Qed.
Lemma does_set_level n l a : does (set_level E n l a).
Proof using Hothers.
  unfold set_level. apply does_then; [auto with web|intros name]. apply does_known. intros k Hk%level_in_range.
  do 2 (apply does_then; [auto with web|intros ?]). apply does_then; [by apply does_update, tame_level|auto with web].
Qed.
Lemma does_deactivate n a note : does (deactivate_user E n a note).
Proof using Hothers. unfold deactivate_user. auto 10 with web. Qed.
#[local] Hint Resolve does_create : web.
Lemma does_add_bootstrap a n : does (add_bootstrap_admin E a n).
Proof using Hothers. unfold add_bootstrap_admin. apply does_then; [auto with web|]. intros [u|]; auto with web. Qed.
#[local] Hint Resolve does_add_bootstrap : web.
Lemma does_ensure : does (ensure_bootstrap_admin E).
Proof using Hothers. unfold ensure_bootstrap_admin. apply does_then; [auto with web|]. intros [|n]; auto with web. Qed.
Lemma does_record u n s r ip ag : does (_record_attempt E u n s r ip ag).
Proof using Hothers.
  unfold _record_attempt. apply does_then; [auto with web|]. intros now. apply does_block. intros d d' a H.
  apply result_bind_ok in H as (x & H & [= <- _]). eapply rtc_once, Ws_attempt; [|exact H]. done.
Qed.
#[local] Hint Resolve does_record : web.
Lemma does_refuse u n r q : does (refuse E u n r q).
Proof using Hothers. unfold refuse. auto with web. Qed.
Lemma does_register u q since : does (_register_failure E u q since).
Proof using Hothers. 
  unfold _register_failure. apply does_then; [auto with web|intros n]. cbv zeta. apply does_then.
  - destruct (_ && _); auto with web.
  - intros locked. auto with web.
Qed.
Lemma does_throttled q since : does (throttled E q since).
Proof using Hothers. unfold throttled. cbv zeta. destruct (_ && _); auto with web. Qed.
Lemma does_is_locked u : does (is_locked E u).
Proof using Hothers. unfold is_locked. destruct (parse_utc _); auto with web. Qed.
#[local] Hint Resolve does_refuse does_register does_throttled does_is_locked : web.
Lemma does_authenticate q : does (authenticate E q).
Proof using Hothers.
  unfold authenticate. destruct (normalize_username _) as [name|e]; [|auto with web].
  apply does_then; [auto with web|intros now]. cbv zeta. apply does_then; [auto with web|]. intros [|]; [auto with web|].
  apply does_then; [auto with web|]. intros [u|]; [|auto with web]. apply does_then; [auto with web|]. intros [|]; [auto with web|].
  apply does_then; [auto with web|]. intros [|]; cbn [negb]; [|auto with web].
  apply does_then; [auto with web|]. intros weak. apply does_then; [destruct weak; auto with web|].
  intros hash. unfold get_user_by_id. auto 10 with web.
Qed.
Lemma does_issue u n ip ag : does (issue_session E u n ip ag).
Proof using Hothers.
  unfold issue_session. do 3 (apply does_then; [auto with web|intros ?]). apply does_then; [|auto with web].
  apply does_block. intros d d' id H. eapply rtc_once, Ws_session; [|exact H]. done.
Qed.
Lemma seen_same n s : same_session s (seen n s).
Proof using. by repeat split. Qed.
Lemma does_revoke_id id why : does (_revoke_session_id E id why).
Proof using Hothers. unfold _revoke_session_id. apply does_then; [auto with web|]. intros n. apply does_touch. apply revoked_same. Qed.
#[local] Hint Resolve does_revoke_id : web.
Lemma does_resolve token touch : does (resolve_session E token touch).
Proof using Hothers.
  unfold resolve_session. cbv zeta. destruct (String.eqb _ _); [auto with web|]. apply does_then; [auto with web|].
  intros [[s u]|]; [|auto with web]. apply does_then; [auto with web|]. intros now.
  destruct (_ <=? now); [auto with web|]. destruct (negb _); [auto with web|].
  apply does_then; [|auto with web]. destruct touch; [|auto with web]. apply does_then; [auto with web|]. intros n.
  apply does_touch, seen_same.
Qed.
Lemma does_revoke token why : does (revoke_session E token why).
Proof using Hothers. unfold revoke_session. apply does_then; [auto with web|]. intros [s|]; auto with web. Qed.
End steps.

(** ** Ended for good *)
(** A token whose session was closed, or whose account was disabled. *)
Definition ended (fingerprint : string) (d : WebDb) : Prop :=
  exists s, s ∈ sessions d /\ s_fingerprint s = fingerprint
    /\ (s_active s = false \/ exists u, u ∈ users d /\ u_id u = s_user s /\ u_active u = false).
Lemma ended_kept d d' f : kept d d' -> ended f d -> ended f d'.
Proof.
  intros [Hu Hs] (s & Hin & Hf & Hend). destruct (Hs s Hin) as (s' & Hin' & _ & Hus & Hf' & _ & _ & _ & Ha).
  exists s'. split; [done|]. split; [congruence|]. destruct Hend as [Hi|(u & Huin & Hid & Hi)].
  - left. destruct (s_active s'); [|done]. rewrite Ha in Hi by done. done.
  - right. destruct (Hu u Huin) as (u' & ? & ? & _ & Ha'). exists u'. split; [done|]. split; [congruence|].
    destruct (u_active u'); [|done]. rewrite Ha' in Hi by done. done.
Qed.
Lemma find_in {A} (p : A -> bool) l x : List.find p l = Some x -> x ∈ l /\ p x = true.
Proof. intros [H1 H2]%List.find_some. split; [by apply list_elem_of_In|done]. Qed.
Lemma find_unique {A B} (key : A -> B) (p : A -> bool) l x : NoDup (map key l) -> x ∈ l -> p x = true ->
  (forall y, y ∈ l -> p y = true -> key y = key x) -> List.find p l = Some x.
Proof.
  intros Hnd Hx Hp Hall. destruct (List.find p l) as [y|] eqn:Hf.
  - apply find_in in Hf as [Hy Hpy]. f_equal. eapply NoDup_map_inj; [exact Hnd|done..|]. auto.
  - pose proof (List.find_none p l Hf x ltac:(by apply list_elem_of_In)). congruence.
Qed.
Lemma row_of_token d f s u : web_ok d -> s ∈ sessions d -> s_fingerprint s = f -> s_active s = true ->
  u ∈ users d -> u_id u = s_user s -> session_row f d = Some (s, u).
Proof.
  intros Hok Hs Hf Ha Hu Hid. unfold session_row.
  rewrite (find_unique s_fingerprint (open_with f) (sessions d) s (ok_tokens d Hok) Hs).
  - unfold user_by_id. rewrite (find_unique u_id _ (users d) u (proj1 (ok_users d Hok)) Hu); [done|by apply Z.eqb_eq|].
    intros y _ Hy%Z.eqb_eq. congruence.
  - unfold open_with. by rewrite Hf, String.eqb_refl, Ha.
  - intros y _ [Hy%String.eqb_eq _]%andb_true_iff. congruence.
Qed.
Lemma row_says d f s u : session_row f d = Some (s, u) ->
  s ∈ sessions d /\ s_fingerprint s = f /\ s_active s = true /\ u ∈ users d /\ u_id u = s_user s.
Proof.
  unfold session_row. destruct (List.find _ _) as [s'|] eqn:Hf; [|done]. apply find_in in Hf as [Hs [Ht%String.eqb_eq Ha]%andb_true_iff].
  destruct (user_by_id _ d) as [u'|] eqn:Hu; [|done]. intros [= -> ->]. apply find_in in Hu as [? ?%Z.eqb_eq]. done.
Qed.
Lemma ended_row f d s u : web_ok d -> ended f d -> session_row f d = Some (s, u) -> u_active u = false.
Proof.
  intros Hok (s0 & Hs0 & Hf0 & Hend) (Hs & Hf & Ha & Hu & Hid)%row_says.
  assert (s0 = s) as -> by (eapply NoDup_map_inj; [exact (ok_tokens d Hok)|done..|congruence]).
  destruct Hend as [?|(u0 & Hu0 & Hid0 & Hi)]; [congruence|].
  assert (u0 = u) as -> by (eapply NoDup_map_inj; [exact (proj1 (ok_users d Hok))|done..|congruence]). done.
Qed.

Section sessions.
Variable E : Env.
Hypothesis Hothers : others_ok E.

Lemma block_now {A} (f : WebDb -> result web_error (WebDb * A)) w d a : f (others E (blocks w) (db w)) = Ok (d, a) ->
  block E f w = (Ok a, mkWorld d (looks w) (S (blocks w)) (drawn w) (checks w) (dummy w)).
Proof using. intros H. unfold block. by rewrite H. Qed.
Lemma read_now {A} (f : WebDb -> A) w : read E f w
  = (Ok (f (others E (blocks w) (db w))), mkWorld (others E (blocks w) (db w)) (looks w) (S (blocks w)) (drawn w) (checks w) (dummy w)).
Proof using. done. Qed.
Lemma revoke_id_ok id why w : exists w', _revoke_session_id E id why w = (Ok tt, w').
Proof using. by eexists. Qed.
(** What a token is answered: its account, while the session and the account last. *)
Lemma resolve_says token touch w : String.eqb (strip token) "" = false ->
  let d := others E (blocks w) (db w) in
  (resolve_session E token touch w).1
  = Ok (match session_row (token_fingerprint (sha256 E) token) d with
        | Some (s, u) => if (seconds (s_expires s) <=? clock E (looks w)) || negb (u_active u) then None else Some (account_of s u)
        | None => None
        end).
Proof using.
  intros Ht. unfold resolve_session. rewrite Ht. cbv zeta. unfold mbind, M_bind. rewrite read_now.
  destruct (session_row _ _) as [[s u]|]; [|done]. cbn. destruct (_ <=? _); [done|]. destruct (negb _); [done|]. by destruct touch.
Qed.
Lemma ended_refused token touch w : web_ok (db w) -> ended (sha256 E token) (db w) -> (resolve_session E token touch w).1 = Ok None.
Proof using Hothers.
  intros Hok Hend. destruct (String.eqb (strip token) "") eqn:Ht; [unfold resolve_session; by rewrite Ht|].
  rewrite resolve_says by done. f_equal. pose proof (Hothers (blocks w) (db w)) as Hsteps.
  destruct (session_row _ _) as [[s u]|] eqn:Hr; [|done].
  rewrite (ended_row _ _ s u (steps_ok _ _ Hsteps Hok) (ended_kept _ _ _ (steps_kept _ _ Hsteps) Hend) Hr). by rewrite orb_true_r.
Qed.
Lemma revoked_sessions id why w s : s ∈ sessions (db w) -> s_user s = id ->
  ended (s_fingerprint s) (db (revoke_user_sessions E id why w).2).
Proof using Hothers.
  intros Hs Hid. unfold revoke_user_sessions. pose proof (steps_kept _ _ (Hothers (blocks w) (db w))) as [_ Hk].
  destruct (Hk s Hs) as (s' & Hs' & _ & Hu & Hf & _).
  match goal with |- context [revoke_each ?t why id ?l] => destruct (revoke_each_spec why id l t) as [Hsame Hall]; destruct (revoke_each t why id l) as [l' n] end.
  cbn in *. destruct (same_in _ _ s' Hsame Hs') as (s'' & Hs'' & _ & Hu'' & Hf'' & _).
  exists s''. cbn. split; [done|]. split; [congruence|]. left. rewrite list.Forall_forall in Hall. apply Hall; [done|congruence].
Qed.
Lemma ended_later {A} (m : M A) f w : does m -> ended f (db w) -> ended f (db (m w).2).
Proof using. intros Hm. apply ended_kept, steps_kept, Hm. Qed.
(** What ends the sessions of an account, with the account it answers. *)
Inductive ends_sessions : M Z -> Prop :=
| Ends_password username password actor ref must : ends_sessions (set_password E username password actor true ref must)
| Ends_account username actor note : ends_sessions (deactivate_user E username actor note)
| Ends_by_hand id why : ends_sessions (_ ← revoke_user_sessions E id why; mret id).
Lemma bind_ok_world {A B} (m : M A) (f : A -> M B) b w w' : (m ≫= f) w = (Ok b, w') ->
  exists a w1, m w = (Ok a, w1) /\ f a w1 = (Ok b, w').
Proof using. unfold mbind, M_bind. destruct (m w) as [[a|e] w1]; [|done]. eauto. Qed.
Definition has (s : Session) (w : World) : Prop :=
  exists s', s' ∈ sessions (db w) /\ s_user s' = s_user s /\ s_fingerprint s' = s_fingerprint s.
Lemma has_later {A} (m : M A) s w r w' : does m -> m w = (r, w') -> has s w -> has s w'.
Proof using.
  intros Hm Hr (s1 & Hs1 & Hu1 & Hf1). destruct (steps_kept _ _ (Hm w)) as [_ Hk]. rewrite Hr in Hk.
  destruct (Hk s1 Hs1) as (s2 & Hs2 & _ & Hu2 & Hf2 & _). exists s2. split; [done|]. split; congruence.
Qed.
Lemma has_ended s id why w : has s w -> s_user s = id -> ended (s_fingerprint s) (db (revoke_user_sessions E id why w).2).
Proof using Hothers. intros (s' & Hs' & Hu & <-) Hid. apply revoked_sessions; congruence. Qed.
Ltac next_step H Hs :=
  let a := fresh "a" in let w1 := fresh "w" in let H1 := fresh "H" in
  apply bind_ok_world in H as (a & w1 & H1 & H);
  eapply has_later in Hs; [|idtac|exact H1]; [clear H1|].
Lemma ends_all m id w w' s : ends_sessions m -> m w = (Ok id, w') -> s ∈ sessions (db w) -> s_user s = id ->
  ended (s_fingerprint s) (db w').
Proof using Hothers.
  intros Hends H Hs Hid. assert (Hh : has s w) by by exists s. clear Hs.
  destruct Hends as [username password actor ref must|username actor note|i why].
  - unfold set_password in H. next_step H Hh; [|auto with web]. next_step H Hh; [|by apply does_hash].
    next_step H Hh; [|by apply does_require]. next_step H Hh; [|by apply does_now_text].
    next_step H Hh; [|apply does_update; [done|apply tame_password]].
    apply bind_ok_world in H as (n & w6 & H6 & [= Heq <-]). rewrite Heq in H6.
    pose proof (has_ended s id "password changed" _ Hh Hid) as Hend. by rewrite H6 in Hend.
  - unfold deactivate_user in H. next_step H Hh; [|auto with web]. next_step H Hh; [|by apply does_require].
    next_step H Hh; [|by apply does_now_text]. next_step H Hh; [|by apply does_now_text].
    next_step H Hh; [|apply does_update; [done|apply tame_disabled]].
    apply bind_ok_world in H as (n & w6 & H6 & [= Heq <-]). rewrite Heq in H6.
    pose proof (has_ended s id "account disabled" _ Hh Hid) as Hend. by rewrite H6 in Hend.
  - apply bind_ok_world in H as (n & w6 & H6 & [= -> <-]). pose proof (has_ended s id why _ Hh Hid) as Hend. by rewrite H6 in Hend.
Qed.
(** Signing out ends the session of the token, if it was still open. *)
Lemma signed_out token why w w' : web_ok (db w) -> revoke_session E token why w = (Ok true, w') -> ended (sha256 E token) (db w').
Proof using Hothers.
  intros Hok H. unfold revoke_session in H. apply bind_ok_world in H as (found & w1 & Hr & H). rewrite read_now in Hr. injection Hr as Hf <-.
  destruct found as [s|]; [|done]. apply find_in in Hf as [Hs [Hf%String.eqb_eq _]%andb_true_iff].
  apply bind_ok_world in H as ([] & w2 & H & [= <-]). unfold _revoke_session_id in H. apply bind_ok_world in H as (now & w3 & Hn & H).
  injection Hn as <- <-. unfold change, block in H. cbn in H. injection H as <-. cbn.
  destruct (steps_kept _ _ (Hothers (S (blocks w)) (others E (blocks w) (db w)))) as [_ Hk].
  destruct (Hk s Hs) as (s' & Hs' & Hi & _ & Hf' & _).
  exists (revoked (utc_text (clock E (looks w))) why s'). split; [|split; [cbn; unfold token_fingerprint in Hf; congruence|by left]].
  apply list_elem_of_fmap. exists s'. split; [|done]. by rewrite Hi, Z.eqb_refl.
Qed.
End sessions.

(** C9: Once an account is disabled, or its password set with its sessions revoked, a token of a
    session it had when that began is answered by nothing, whatever other processes did between
    the blocks and whatever happens to the tables afterwards. *)
Theorem an_ended_session_never_returns E m id w w' later s token touch : others_ok E -> web_ok (db w) ->
  ends_sessions E m -> m w = (Ok id, w') -> s ∈ sessions (db w) -> s_user s = id -> sha256 E token = s_fingerprint s ->
  rtc web_step (db w') (db later) -> (resolve_session E token touch later).1 = Ok None.
Proof.
  intros Ho Hok Hends Hm Hs Hid Ht Hsteps.
  assert (Hd : rtc web_step (db w) (db w')).
  { change w' with (@Ok web_error Z id, w').2. rewrite <-Hm.
    destruct Hends; [by apply does_set_password|by apply does_deactivate|].
    apply does_then; [by apply does_revoke_user|apply does_answer]. }
  apply ended_refused; [done|by do 2 (eapply steps_ok; [eassumption|])|].
  rewrite Ht. eapply ended_kept; [by apply steps_kept|]. by eapply ends_all.
Qed.

(** ** Who a token is *)
Definition lasts (token : string) (E : Env) (w : World) (d : WebDb) (s : Session) (u : User) : Prop :=
  s ∈ sessions d /\ s_fingerprint s = sha256 E token /\ s_active s = true /\ u ∈ users d /\ u_id u = s_user s
  /\ u_active u = true /\ clock E (looks w) < seconds (s_expires s).
Lemma resolve_closes E token touch w s u : web_ok (others E (blocks w) (db w)) -> others_ok E -> String.eqb (strip token) "" = false ->
  session_row (sha256 E token) (others E (blocks w) (db w)) = Some (s, u) -> seconds (s_expires s) <= clock E (looks w) ->
  ended (sha256 E token) (db (resolve_session E token touch w).2).
Proof.
  intros Hok Ho Ht Hr He. unfold resolve_session, token_fingerprint. rewrite Ht. cbv zeta. unfold mbind at 1, M_bind at 1. rewrite read_now.
  cbv beta iota. rewrite Hr. cbv beta iota. unfold mbind at 1, M_bind at 1. cbn [utc_now fst snd looks]. rewrite (proj2 (Z.leb_le _ _)) by exact He. cbn [_revoke_session_id].
  unfold _revoke_session_id, now_text, change, block, mbind, M_bind. cbn.
  destruct (row_says _ _ _ _ Hr) as (Hs & Hf & _).
  destruct (steps_kept _ _ (Ho (S (blocks w)) (others E (blocks w) (db w)))) as [_ Hk].
  destruct (Hk s Hs) as (s' & Hs' & Hi & _ & Hf' & _).
  eexists (revoked _ "expired" s'). split; [|split; [cbn; congruence|by left]].
  apply list_elem_of_fmap. exists s'. split; [|done]. by rewrite Hi, Z.eqb_refl.
Qed.
(** C18: In a store that is well formed a token is answered with its account exactly when a
    session of it is open, not past its end, and its account active; a session found past its
    end is ended in the table too. *)
Theorem a_token_is_its_account_while_both_last E token touch w : others_ok E -> web_ok (db w) ->
  String.eqb (strip token) "" = false ->
  let d := others E (blocks w) (db w) in
  exists answer, (resolve_session E token touch w).1 = Ok answer
    /\ (forall a, answer = Some a <-> exists s u, lasts token E w d s u /\ a = account_of s u)
    /\ (forall s, s ∈ sessions d -> s_fingerprint s = sha256 E token -> s_active s = true ->
          seconds (s_expires s) <= clock E (looks w) -> ended (sha256 E token) (db (resolve_session E token touch w).2)).
Proof.
  intros Ho Hok Ht d. pose proof (steps_ok _ _ (Ho (blocks w) (db w)) Hok) as Hd. eexists. split; [by apply resolve_says|]. split.
  - intros a. fold d. unfold token_fingerprint. split.
    + destruct (session_row _ d) as [[s u]|] eqn:Hr; [|done]. destruct (_ || _) eqn:Hc; [done|]. intros [= <-].
      apply orb_false_iff in Hc as [He%Z.leb_gt Ha%negb_false_iff]. apply row_says in Hr as (? & ? & ? & ? & ?).
      exists s, u. by split.
    + intros (s & u & (Hs & Hf & Ha & Hu & Hid & Hua & He) & ->). rewrite (row_of_token d _ s u) by done.
      by rewrite (proj2 (Z.leb_gt _ _)), Hua.
  - intros s Hs Hf Ha He. pose proof (ok_owners d Hd) as Hown. rewrite list.Forall_forall in Hown. destruct (Hown s Hs) as (u & Hu & Hid).
    eapply resolve_closes; [done..| |exact He]. by apply row_of_token.
Qed.

(** ** A console with two accounts *)
Definition lab_env (pace : Z) (meddle : nat -> WebDb -> WebDb) : Env :=
  mkEnv (fun password salt n => map code (chars password) ++ salt) (fun s => "h" +:+ s) 1000
    (fun n => seconds 1000000 + pace * Z.of_nat n) (fun n => [Z.of_nat n mod 256]) (fun n => "t" +:+ str_of_int (Z.of_nat n)) meddle.
Definition alone (n : nat) (d : WebDb) : WebDb := d.
Definition fresh_world (d : WebDb) : World := mkWorld d 0 0 0 0 None.
Definition lab_user (name password : string) (level : Z) : NewUser :=
  mkNewUser name password (PInt level) "" "" "webhost.cli" "" "" false true.
Definition lab (pace : Z) : Env := lab_env pace alone.
Definition signed_up : World :=
  snd ((_ ← create_user (lab 1) (lab_user "Thanh" "correct horse" 90);
   _ ← create_user (lab 1) (lab_user "viewer" "battery staple" 10);
   issue_session (lab 1) 1 90 "10.0.0.7" "browser") (fresh_world no_accounts)).
Lemma alone_ok pace : others_ok (lab pace).
Proof. intros n d. apply rtc_refl. Qed.
Lemma signed_up_ok : web_ok (db signed_up).
Proof.
  apply (steps_ok no_accounts); [|apply no_accounts_ok].
  refine (does_then _ _ (does_create (lab 1) (alone_ok 1) _) (fun _ => does_then _ _ (does_create (lab 1) (alone_ok 1) _)
    (fun _ => does_issue (lab 1) (alone_ok 1) _ _ _ _)) (fresh_world no_accounts)).
Qed.
Definition the_session : Session := default (mkSession 0 0 "" "" 0 0 0 "" "" false None "") (head (sessions (db signed_up))).
Theorem ended_witness :
  (resolve_session (lab 1) "t2" true signed_up).1
    = Ok (Some (mkAccount 1 1 "thanh" "" 90 "t3" false 1000000 8776000))
  /\ forall w', deactivate_user (lab 1) "thanh" "admin" "left" signed_up = (Ok 1, w') -> (resolve_session (lab 1) "t2" true w').1 = Ok None.
Proof.
  split; [vm_compute; reflexivity|]. intros w' Hw.
  refine (an_ended_session_never_returns (lab 1) _ 1 signed_up w' w' the_session "t2" true (alone_ok 1) signed_up_ok
    (Ends_account _ "thanh" "admin" "left") Hw _ _ _ (rtc_refl _ _)); [|vm_compute; reflexivity..].
  apply list_elem_of_In. vm_compute. by left.
Defined.
Theorem lasts_witness : (resolve_session (lab 1) "t2" false signed_up).1
  = Ok (Some (mkAccount 1 1 "thanh" "" 90 "t3" false 1000000 8776000)).
Proof.
  destruct (a_token_is_its_account_while_both_last (lab 1) "t2" false signed_up (alone_ok 1) signed_up_ok ltac:(vm_compute; reflexivity))
    as (answer & H & Hiff & _).
  rewrite H. f_equal. apply Hiff. exists the_session, (default (mkUser 0 "" "" "" "" "" false 0 false 0 None None 0 0 None "" "" "") (head (users (db signed_up)))).
  split; [|vm_compute; reflexivity]. unfold lasts.
  repeat split; try (vm_compute; reflexivity); apply list_elem_of_In; vm_compute; by left.
Defined.

(** ** Where the code does not keep what it says *)
Definition lab_login (name password ip : string) : Login := mkLogin name password ip "browser" 8 15 5.
(** The password is changed between the check of the old one and the new session's row. *)
Definition changed_meanwhile (n : nat) (d : WebDb) : WebDb :=
  if (n =? 5)%nat then db (set_password (lab 1) "thanh" "a new password" "admin" true None false (fresh_world d)).2 else d.
Definition racing : Env := lab_env 1 changed_meanwhile.
Lemma racing_ok : others_ok racing.
Proof.
  intros n d. cbn. unfold changed_meanwhile. destruct (n =? 5)%nat; [|apply rtc_refl].
  apply (does_set_password (lab 1) (alone_ok 1) _ _ _ _ _ _ (fresh_world d)).
Qed.
Definition raced : result web_error Issued * World :=
  ('(u, _) ← authenticate racing (lab_login "thanh" "correct horse" "10.0.0.9");
   issue_session racing (match u with Some u => u_id u | None => 0 end) 90 "10.0.0.9" "browser") (mkWorld (db signed_up) 100 0 100 0 None).
Definition token_given (r : result web_error Issued) : string := match r with Ok i => i_token i | Err _ => "" end.
Definition who (r : result web_error (option Account)) : string := match r with Ok (Some a) => c_name a | _ => "" end.
Definition hash_of (d : WebDb) : string := match user_by_id 1 d with Some u => u_hash u | None => "" end.
Lemma a_login_outlives_a_password_change :
  token_given raced.1 = "t100" /\ hash_of (db raced.2) <> hash_of (db signed_up)
  /\ who (resolve_session (lab 1) "t2" true raced.2).1 = "" /\ who (resolve_session (lab 1) "t100" true raced.2).1 = "thanh".
Proof. split_and!; [vm_compute; reflexivity|vm_compute; discriminate|vm_compute; reflexivity..]. Qed.

(** A disabled account is answered, and recorded, as no account at all. *)
Definition disabled_world : World := (deactivate_user (lab 1) "thanh" "admin" "left" signed_up).2.
Lemma a_disabled_account_reads_as_unknown :
  (authenticate (lab 1) (lab_login "thanh" "correct horse" "10.0.0.9") disabled_world).1 = Ok (None, REASON_NO_USER)
  /\ map a_reason (attempts (db (authenticate (lab 1) (lab_login "thanh" "correct horse" "10.0.0.9") disabled_world).2)) = [REASON_NO_USER].
Proof. split; vm_compute; reflexivity. Qed.

(** The first account's password is shorter than the rule: once the cost is raised it cannot sign in. *)
Definition first_run : World := (ensure_bootstrap_admin (lab 1) (fresh_world no_accounts)).2.
Definition dearer : Env := mkEnv (pbkdf2 (lab 1)) (sha256 (lab 1)) 2000 (clock (lab 1)) (salt_bytes (lab 1)) (url_token (lab 1)) alone.
Definition reason_of (r : result web_error (option User * reason)) : option reason := match r with Ok p => Some p.2 | Err _ => None end.
Lemma a_raised_cost_locks_the_first_account_out :
  reason_of (authenticate (lab 1) (lab_login "admin" "admin" "10.0.0.9") first_run).1 = Some REASON_OK
  /\ (authenticate dearer (lab_login "admin" "admin" "10.0.0.9") first_run).1 = Err (AuthRefused PasswordTooShort).
Proof. split; vm_compute; reflexivity. Qed.
