(* ===== verification/LoginLimitsProofs.v ===== *)
(** * How often a password may be guessed: proofs over [WebStore].

    One process answers one login after the other, and its clock does not go back.  Each answer has
    its reason and its row; an account is tried a bounded number of times in any stretch of the
    lockout's length, and one address locks nobody out. *)

From S2P Require Import Prelude Py PyTime WebAuth WebStore WebStoreProofs.

Lemma normal_name value name : normalize_username value = Ok name -> normalize_username name = Ok name.
Proof.
  unfold normalize_username. cbv zeta. destruct (String.eqb _ "") eqn:He; [done|]. destruct (_ <? _)%nat eqn:Hl; [done|].
  destruct (existsb _ _) eqn:Hs; [done|]. intros [= <-]. rewrite (strip_of_lower (lower (strip value))), lower_again, He, Hl, Hs; [done|].
  rewrite lower_again. apply list.Forall_forall. intros a Ha. destruct (is_space a) eqn:Ha'; [|done].
  apply not_true_iff_false in Hs. destruct Hs. apply existsb_exists. exists a. split; [by apply list_elem_of_In|done].
Qed.

Lemma goes_on {A B} (m : M A) (f : A -> M B) w a w1 : m w = (Ok a, w1) -> (m ≫= f) w = f a w1.
Proof. intros H. unfold mbind, M_bind. by rewrite H. Qed.
Lemma stops_there {A B} (m : M A) (f : A -> M B) w e w1 : m w = (Err e, w1) -> (m ≫= f) w = (Err e, w1).
Proof. intros H. unfold mbind, M_bind. by rewrite H. Qed.

(** ** Counting *)
Lemma fewer {A} (p p' : A -> bool) l : (forall x, x ∈ l -> p x = true -> p' x = true) -> (length (List.filter p l) <= length (List.filter p' l))%nat.
Proof.
  induction l as [|x l IH]; intros H; cbn; [lia|]. assert (Hl : (length (List.filter p l) <= length (List.filter p' l))%nat).
  { apply IH. intros y Hy. apply H. set_solver. }
  destruct (p x) eqn:Hp; [rewrite (H x) by (done || set_solver); cbn; lia|]. destruct (p' x); cbn; lia.
Qed.
Definition noted (us : list User) (a : Z -> Attempt) (d : WebDb) : WebDb :=
  mkDb us (next_user d) (sessions d) (next_session d) (attempts d ++ [a (next_attempt d)]) (next_attempt d + 1).
Definition within (id t span : Z) (d : WebDb) : nat :=
  length (List.filter (fun a => missed id t a && (a_at a <=? t + span)) (attempts d)).
Definition after_last (u : User) (t : Z) : Prop := match u_last_login u with Some l => l <= t | None => True end.
Lemma missed_time id t a : missed id t a = true -> t < a_at a.
Proof. unfold missed. rewrite andb_true_iff. intros [_ H]. by apply Z.ltb_lt. Qed.
Lemma missed_since id t t' a : t' <= t -> missed id t a = true -> missed id t' a = true.
Proof. intros Ht. unfold missed. rewrite !andb_true_iff. intros [H Ha%Z.ltb_lt]. split; [done|]. apply Z.ltb_lt. lia. Qed.
Lemma misses_since id t t' d : t' <= t -> (_account_failures id t d <= _account_failures id t' d)%nat.
Proof. intros Ht. apply fewer. intros a _. by apply missed_since. Qed.
Lemma within_misses id t span d : (within id t span d <= _account_failures id t d)%nat.
Proof. apply fewer. intros a _. by intros [? _]%andb_true_iff. Qed.
Lemma misses_noted us a d id t : _account_failures id t (noted us a d)
  = (_account_failures id t d + if missed id t (a (next_attempt d)) then 1 else 0)%nat.
Proof. unfold _account_failures. cbn. rewrite snoc_filter, length_app. by destruct (missed _ _ _). Qed.
Lemma within_noted us a d id t span : within id t span (noted us a d)
  = (within id t span d + if missed id t (a (next_attempt d)) && (a_at (a (next_attempt d)) <=? t + span)%Z then 1 else 0)%nat.
Proof. unfold within. cbn. rewrite snoc_filter, length_app. by destruct (_ && _). Qed.
Lemma no_miss_since id t d : Forall (fun a => a_at a <= t) (attempts d) -> _account_failures id t d = 0%nat.
Proof.
  intros H. unfold _account_failures. rewrite filter_false; [done|]. intros a Ha. rewrite list.Forall_forall in H. specialize (H a Ha).
  apply not_true_iff_false. intros Hm%missed_time. lia.
Qed.
Lemma misses_within id t span now d : Forall (fun a => a_at a <= now) (attempts d) -> now <= t + span ->
  within id t span d = _account_failures id t d.
Proof.
  intros H Hn. apply Nat.le_antisymm; [apply within_misses|]. apply fewer. intros a Ha Hm. rewrite Hm. apply Z.leb_le.
  rewrite list.Forall_forall in H. specialize (H a Ha). lia.
Qed.

Section logins.
Variable E : Env.
Hypothesis Halone : forall n d, others E n d = d.
Hypothesis Hclock : forall n m, (n <= m)%nat -> clock E n <= clock E m.

(** ** What a login does *)
Definition attempt_row (q : Login) (user : option Z) (name : string) (ok : bool) (why : reason) (n : nat) (id : Z) : Attempt :=
  mkAttempt id user (str_take 64 name) ok why (str_take 64 (l_ip q)) (str_take 256 (l_agent q)) (utc_text (clock E n)).
Definition since (q : Login) (w : World) : Z := utc_text (clock E (looks w) - lockout q).
Definition throttles (q : Login) (w : World) : bool :=
  negb (String.eqb (str_take 64 (l_ip q)) "") && (0 <? l_max_failed_per_ip q)
  && (l_max_failed_per_ip q <=? Z.of_nat (_failures_from (str_take 64 (l_ip q)) (since q w) (db w))).
Definition locked_at (u : User) (now : Z) : bool := match u_locked u with Some l => now <? seconds l | None => false end.
Definition misses_of (q : Login) (w : World) (u : User) : Z :=
  Z.of_nat (_account_failures (u_id u) (match u_last_login u with Some t => Z.max (since q w) t | None => since q w end) (db w)) + 1.
Inductive login_case (q : Login) (name : string) (w w' : World) : option User -> reason -> Prop :=
| Case_throttled n : throttles q w = true -> (looks w <= n < looks w')%nat ->
    db w' = noted (users (db w)) (attempt_row q None name false REASON_IP_THROTTLED n) (db w) -> login_case q name w w' None REASON_IP_THROTTLED
| Case_no_user n : throttles q w = false -> active_user name (db w) = None -> (looks w <= n < looks w')%nat ->
    db w' = noted (users (db w)) (attempt_row q None name false REASON_NO_USER n) (db w) -> login_case q name w w' None REASON_NO_USER
| Case_locked n u : throttles q w = false -> active_user name (db w) = Some u -> locked_at u (clock E (S (looks w))) = true -> (looks w <= n < looks w')%nat ->
    db w' = noted (users (db w)) (attempt_row q (Some (u_id u)) name false REASON_LOCKED n) (db w) -> login_case q name w w' None REASON_LOCKED
| Case_missed k m n u : active_user name (db w) = Some u -> throttles q w = false -> locked_at u (clock E (S (looks w))) = false ->
    verify_password (pbkdf2 E) (l_password q) (u_hash u) = Ok false -> (looks w <= k <= m)%nat -> (m <= n < looks w')%nat ->
    (u_locked u <> None -> S (looks w) <= n)%nat ->
    db w' = noted (users (update_users (counted (misses_of q w u)
        (if (0 <? l_max_failed q) && (l_max_failed q <=? misses_of q w u) then Some (utc_text (clock E k + lockout q)) else None)
        (utc_text (clock E m))) (u_id u) (db w)))
      (attempt_row q (Some (u_id u)) name false REASON_BAD_PASSWORD n) (db w) -> login_case q name w w' None REASON_BAD_PASSWORD
| Case_in hash m n u : active_user name (db w) = Some u -> throttles q w = false -> locked_at u (clock E (S (looks w))) = false ->
    verify_password (pbkdf2 E) (l_password q) (u_hash u) = Ok true -> (looks w <= m <= n)%nat -> (n < looks w')%nat ->
    db w' = noted (users (update_users (signed_in hash (utc_text (clock E m))) (u_id u) (db w)))
      (attempt_row q (Some (u_id u)) name true REASON_OK n) (db w) ->
    login_case q name w w' (user_by_id (u_id u) (db w')) REASON_OK.

(** The reason of an answer: the first of these that applies. *)
Definition verdict (q : Login) (name : string) (w : World) : reason :=
  if throttles q w then REASON_IP_THROTTLED
  else match active_user name (db w) with
  | None => REASON_NO_USER
  | Some u =>
      if locked_at u (clock E (S (looks w))) then REASON_LOCKED
      else match verify_password (pbkdf2 E) (l_password q) (u_hash u) with Ok true => REASON_OK | _ => REASON_BAD_PASSWORD end
  end.
Definition row_of (q : Login) (name : string) (w : World) (why : reason) (a : Attempt) : Prop :=
  a_reason a = why /\ a_succeeded a = bool_decide (why = REASON_OK) /\ a_name a = str_take 64 name /\ a_ip a = str_take 64 (l_ip q)
  /\ a_user a = match why with REASON_NO_USER | REASON_IP_THROTTLED => None | _ => u_id <$> active_user name (db w) end.

(** ** Computing one *)
Lemma read_alone {A} (f : WebDb -> A) w : read E f w
  = (Ok (f (db w)), mkWorld (db w) (looks w) (S (blocks w)) (drawn w) (checks w) (dummy w)).
Proof using Halone. rewrite read_now. by rewrite Halone. Qed.
Lemma change_alone f w : change E f w = (Ok tt, mkWorld (f (db w)) (looks w) (S (blocks w)) (drawn w) (checks w) (dummy w)).
Proof using Halone. unfold change, block. by rewrite Halone. Qed.
#[local] Arguments hash_password : simpl never.
#[local] Arguments change : simpl never.
#[local] Arguments read : simpl never.
#[local] Arguments verify_password : simpl never.
#[local] Arguments needs_rehash : simpl never.
(** Nothing but a count of looks and checks moved. *)
Definition still (w w' : World) (seen done_ : nat) : Prop :=
  db w' = db w /\ looks w' = (looks w + seen)%nat /\ checks w' = (checks w + done_)%nat.
Lemma throttled_alone q w w0 : db w = db w0 -> exists w1, throttled E q (since q w0) w = (Ok (throttles q w0), w1) /\ still w w1 0 0.
Proof using Halone.
  intros Hd. unfold throttled, throttles. cbv zeta. rewrite <-Hd. destruct (negb _ && _) eqn:Hc; cbn [andb].
  - unfold mbind, M_bind. rewrite read_alone. eexists. split; [reflexivity|]. split; cbn; [done|split; lia].
  - exists w. split; [done|]. split; [done|split; lia].
Qed.
Lemma nothing_alone p w r w1 : verify_nothing E p w = (r, w1) ->
  still w w1 0 (match r with Ok _ => 1 | Err _ => 0 end) \/ (exists e, r = Err e /\ still w w1 0 1).
Proof using.
  unfold verify_nothing, mbind, M_bind. destruct (_dummy_hash E w) as [[h|e] w0] eqn:Hd.
  - assert (Hs : still w w0 0 0).
    { unfold _dummy_hash, hash_password_now, mbind, M_bind, draw, of_auth in Hd. destruct (dummy w).
      - injection Hd as _ <-. split; [done|split; lia].
      - cbn in Hd. destruct (hash_password (pbkdf2 E) _ _ _ _); [|done]. injection Hd as _ <-. split; [done|cbn; split; lia]. }
    destruct Hs as (Hdb & Hl & Hc). unfold verify, of_python.
    destruct (verify_password (pbkdf2 E) p h); intros [= <- <-]; [left|right; eexists; split; [done|]]; (split; [done|cbn; split; lia]).
  - assert (Hs : still w w0 0 0).
    { unfold _dummy_hash, hash_password_now, mbind, M_bind, draw, of_auth in Hd. destruct (dummy w); [done|].
      cbn in Hd. destruct (hash_password (pbkdf2 E) _ _ _ _); [done|]. injection Hd as _ <-. split; [done|cbn; split; lia]. }
    intros [= <- <-]. by left.
Qed.
Lemma refuse_alone user name why q w : (forall id, user = Some id -> existsb (fun u => u_id u =? id) (users (db w)) = true) ->
  exists w1, refuse E user name why q w = (Ok (None, why), w1)
    /\ db w1 = noted (users (db w)) (attempt_row q user name false why (looks w)) (db w) /\ looks w1 = S (looks w) /\ checks w1 = checks w.
Proof using Halone.
  intros Hu. unfold refuse, _record_attempt, now_text, mbind, M_bind, block, insert_attempt. cbn. rewrite Halone.
  assert (match user with Some id => negb (existsb (fun u => u_id u =? id) (users (db w))) | None => false end = false) as ->.
  { destruct user as [id|]; [|done]. by rewrite Hu. }
  cbn. eexists. split; [reflexivity|]. done.
Qed.

Lemma get_user_alone value name w : normalize_username value = Ok name -> get_user E name w
  = (Ok (active_user name (db w)), mkWorld (db w) (looks w) (S (blocks w)) (drawn w) (checks w) (dummy w)).
Proof using Halone.
  intros H%normal_name. unfold get_user, mbind, M_bind, of_auth. rewrite H. apply read_alone.
Qed.
Lemma active_exists name d u : active_user name d = Some u -> existsb (fun x => u_id x =? u_id u) (users d) = true.
Proof using. intros [Hu _]%find_in. apply existsb_exists. exists u. split; [by apply list_elem_of_In|apply Z.eqb_refl]. Qed.
Lemma exists_updated f id k d : tame_user f ->
  existsb (fun u => u_id u =? k) (users (update_users f id d)) = existsb (fun u => u_id u =? k) (users d).
Proof using.
  intros Hf. cbn. induction (users d) as [|u l IH]; cbn; [done|]. rewrite IH. f_equal. destruct (u_id u =? id); [|done].
  by destruct (Hf u) as (-> & _).
Qed.
Lemma register_alone u q w w0 : db w = db w0 -> (looks w0 <= looks w)%nat -> exists k m w1,
  _register_failure E u q (since q w0) w = (Ok tt, w1) /\ (looks w <= k <= m)%nat /\ (m < looks w1)%nat /\ checks w1 = checks w
  /\ db w1 = update_users (counted (misses_of q w0 u)
        (if (0 <? l_max_failed q) && (l_max_failed q <=? misses_of q w0 u) then Some (utc_text (clock E k + lockout q)) else None)
        (utc_text (clock E m))) (u_id u) (db w).
Proof using Halone.
  intros Hd Hl. unfold _register_failure, mbind, M_bind. rewrite read_alone. cbv zeta. rewrite Hd. fold (misses_of q w0 u).
  destruct (_ && _).
  - exists (looks w), (S (looks w)). unfold now_text, utc_now, mbind, M_bind, mret, M_ret. cbn [looks db]. rewrite change_alone.
    eexists. split; [reflexivity|]. cbn [db looks checks]. split_and!; [lia..|done].
  - exists (looks w), (looks w). unfold now_text, utc_now, mbind, M_bind, mret, M_ret. cbn [looks db]. rewrite change_alone.
    eexists. split; [reflexivity|]. cbn [db looks checks]. split_and!; [lia..|done].
Qed.
Lemma is_locked_alone u w : exists w1, is_locked E u w = (Ok (locked_at u (clock E (looks w))), w1)
  /\ still w w1 (match u_locked u with Some _ => 1 | None => 0 end) 0.
Proof using.
  unfold is_locked, locked_at. destruct (u_locked u) as [l|]; cbn; (eexists; split; [reflexivity|]); (split; [done|cbn; split; lia]).
Qed.
Lemma still_trans w0 w1 w2 a b c d : still w0 w1 a b -> still w1 w2 c d -> still w0 w2 (a + c) (b + d).
Proof using. unfold still. intros (H1 & H2 & H3) (-> & -> & ->). rewrite H1, H2, H3. split; [done|split; lia]. Qed.
(** A refusal without a check of a hash of its own, or the failure of the check. *)
Lemma refuse_dummy p user name why q w r w1 : (forall id, user = Some id -> existsb (fun u => u_id u =? id) (users (db w)) = true) ->
  (_ ← verify_nothing E p; refuse E user name why q) w = (r, w1) ->
  match r with
  | Ok answer => answer = (None, why) /\ checks w1 = S (checks w) /\ looks w1 = S (looks w)
      /\ db w1 = noted (users (db w)) (attempt_row q user name false why (looks w)) (db w)
  | Err _ => db w1 = db w /\ (looks w <= looks w1)%nat
  end.
Proof using Halone.
  intros Hu. unfold mbind, M_bind. destruct (verify_nothing E p w) as [r0 w0] eqn:Hv. apply nothing_alone in Hv.
  destruct r0 as [[]|e]; [|destruct Hv as [(Hd & Hl & _)|(? & _ & Hd & Hl & _)]; intros [= <- <-]; (split; [done|lia])].
  destruct Hv as [(Hd & Hl & Hc)|(? & ? & _)]; [|done].
  destruct (refuse_alone user name why q w0) as (w2 & -> & Hd' & Hl' & Hc'); [by rewrite Hd|]. intros [= <- <-].
  rewrite Hd', Hl', Hc', Hd, Hl, Hc. replace (looks w + 0)%nat with (looks w) by lia. split_and!; [done|lia|lia|done].
Qed.
(** The two ends of a password check. *)
Lemma missed_alone u name q w w0 : db w = db w0 -> (looks w0 <= looks w)%nat -> active_user name (db w0) = Some u -> exists k m n w1,
  (_ ← _register_failure E u q (since q w0); refuse E (Some (u_id u)) name REASON_BAD_PASSWORD q) w = (Ok (None, REASON_BAD_PASSWORD), w1)
  /\ (looks w <= k <= m)%nat /\ (m <= n < looks w1)%nat /\ checks w1 = checks w
  /\ db w1 = noted (users (update_users (counted (misses_of q w0 u)
        (if (0 <? l_max_failed q) && (l_max_failed q <=? misses_of q w0 u) then Some (utc_text (clock E k + lockout q)) else None)
        (utc_text (clock E m))) (u_id u) (db w0)))
      (attempt_row q (Some (u_id u)) name false REASON_BAD_PASSWORD n) (db w0).
Proof using Halone.
  intros Hd Hl Hu. destruct (register_alone u q w w0 Hd Hl) as (k & m & w1 & Hr & Hk & Hm & Hc & Hdb).
  assert (He : existsb (fun x => u_id x =? u_id u) (users (db w1)) = true).
  { rewrite Hdb, Hd, exists_updated; [by eapply active_exists|]. intros x. repeat split; auto. }
  destruct (refuse_alone (Some (u_id u)) name REASON_BAD_PASSWORD q w1) as (w2 & Hf & Hd2 & Hl2 & Hc2).
  { by intros id [= <-]. }
  exists k, m, (looks w1), w2. unfold mbind, M_bind. rewrite Hr, Hf. split; [done|]. split; [done|]. split; [lia|]. split; [congruence|].
  rewrite Hd2, Hdb, Hd. done.
Qed.
Lemma entered_alone u name q w hash : active_user name (db w) = Some u -> exists n w1,
  (now ← now_text E; _ ← change E (update_users (signed_in hash now) (u_id u));
   _ ← _record_attempt E (Some (u_id u)) name true REASON_OK (l_ip q) (l_agent q);
   after ← get_user_by_id E (u_id u); mret (after, REASON_OK)) w = (Ok (user_by_id (u_id u) (db w1), REASON_OK), w1)
  /\ (looks w <= n < looks w1)%nat /\ checks w1 = checks w
  /\ db w1 = noted (users (update_users (signed_in hash (utc_text (clock E (looks w)))) (u_id u) (db w)))
      (attempt_row q (Some (u_id u)) name true REASON_OK n) (db w).
Proof using Halone.
  intros Hu. assert (He : existsb (fun x => u_id x =? u_id u) (users (update_users (signed_in hash (utc_text (clock E (looks w)))) (u_id u) (db w))) = true).
  { rewrite exists_updated; [by eapply active_exists|]. intros x. repeat split; auto. }
  exists (S (looks w)). unfold get_user_by_id, _record_attempt, now_text, utc_now, mbind, M_bind, mret, M_ret. cbn [looks db].
  rewrite change_alone. unfold block. cbn [looks db]. rewrite Halone. unfold insert_attempt. cbn [a_user next_attempt update_users].
  cbn [update_users] in He. rewrite He. cbn [negb raise_when mbind result_bind]. cbn. rewrite read_alone. cbn.
  eexists (mkWorld (mkDb _ _ _ _ _ _) _ _ _ _ _). split; [reflexivity|]. cbn. split_and!; [lia..|done].
Qed.
Lemma rehash_alone (weak : bool) p w : exists h w1,
  (if weak then h ← hash_password_now E p true; mret (Some h) else mret None) w = (h, w1) /\ still w w1 0 0.
Proof using.
  destruct weak; unfold hash_password_now, draw, of_auth, mbind, M_bind, mret, M_ret.
  - destruct (hash_password (pbkdf2 E) _ _ _ _); eexists _, _; (split; [reflexivity|]); (split; [done|cbn; split; lia]).
  - eexists _, _. split; [reflexivity|]. split; [done|cbn; split; lia].
Qed.
Lemma login_cases q name w r w' : normalize_username (l_username q) = Ok name -> authenticate E q w = (r, w') ->
  match r with
  | Ok (u, why) => login_case q name w w' u why /\ checks w' = S (checks w)
  | Err _ => db w' = db w /\ (looks w <= looks w')%nat
  end.
Proof using Halone.
  intros Hn. unfold authenticate. rewrite Hn. set (w1 := mkWorld (db w) (S (looks w)) (blocks w) (drawn w) (checks w) (dummy w)).
  rewrite (goes_on (utc_now E) _ w (clock E (looks w)) w1) by done. cbv zeta. fold (since q w).
  destruct (throttled_alone q w1 w eq_refl) as (w2 & Ht & Hd2 & Hl2 & Hc2). subst w1. cbn in Hd2, Hl2, Hc2. rewrite (goes_on _ _ _ _ _ Ht).
  destruct (throttles q w) eqn:Hth.
  { intros H%refuse_dummy; [|done]. destruct r as [[u why]|e]; [|destruct H as [H Hl]; rewrite H; split; [done|lia]]. destruct H as ([= -> ->] & Hc & Hl & Hd).
    split; [|lia]. eapply (Case_throttled q name w w' (looks w2)); [done|lia|]. by rewrite Hd, Hd2. }
  rewrite (goes_on _ _ _ _ _ (get_user_alone _ _ w2 Hn)). rewrite Hd2. set (w3 := mkWorld _ _ _ _ _ _).
  destruct (active_user name (db w)) as [u|] eqn:Hu.
  2: { intros H%refuse_dummy; [|done]. destruct r as [[u why]|e]; [|destruct H as [H Hl]; rewrite H; cbn in Hl; split; [done|lia]]. cbn in H. destruct H as ([= -> ->] & Hc & Hl & Hd).
    split; [|lia]. eapply (Case_no_user q name w w' (looks w2)); [done..|lia|]. done. }
  destruct (is_locked_alone u w3) as (w4 & Hk & Hd4 & Hl4 & Hc4). unfold w3 in Hd4, Hl4, Hc4. cbn in Hd4, Hl4, Hc4. rewrite (goes_on _ _ _ _ _ Hk).
  assert (Hlk : locked_at u (clock E (looks w3)) = locked_at u (clock E (S (looks w)))) by (cbn; do 2 f_equal; lia). rewrite Hlk.
  destruct (locked_at u (clock E (S (looks w)))) eqn:Hlo.
  { intros H%refuse_dummy; [|intros id [= <-]; rewrite Hd4; by eapply active_exists]. destruct r as [[v why]|e]; [|destruct H as [H Hl]; rewrite H; split; [done|lia]].
    destruct H as ([= -> ->] & Hc & Hl & Hd). split; [|lia]. eapply (Case_locked q name w w' (looks w4) u); [done..|lia|]. by rewrite Hd, Hd4. }
  set (w5 := mkWorld (db w4) (looks w4) (blocks w4) (drawn w4) (S (checks w4)) (dummy w4)).
  destruct (verify_password (pbkdf2 E) (l_password q) (u_hash u)) as [ok|e] eqn:Hv.
  2: { unfold mbind, M_bind, verify, of_python. rewrite Hv. intros [= <- <-]. split; [done|cbn; lia]. }
  rewrite (goes_on (verify E _ _) _ w4 ok w5); [|unfold verify, of_python; by rewrite Hv]. destruct ok; cbn [negb].
  2: { destruct (missed_alone u name q w5 w) as (k & m & n & w6 & -> & Hk1 & Hm & Hc & Hd); [done|cbn; lia|done|]. intros [= <- <-].
    cbn in *. split; [|lia]. eapply (Case_missed q name w w6 k m n u); [done..|lia|lia| |done]. destruct (u_locked u); [lia|done]. }
  destruct (needs_rehash (u_hash u) (cost E)) as [weak|e] eqn:Hw.
  2: { unfold mbind, M_bind, of_python. intros [= <- <-]. split; [done|cbn; lia]. }
  rewrite (goes_on (of_python _) _ w5 weak w5) by done.
  destruct (rehash_alone weak (l_password q) w5) as (h & w6 & Hre & Hd6 & Hl6 & Hc6).
  assert (Hd0 : db w6 = db w) by (rewrite Hd6; exact Hd4). clear Hd6.
  destruct h as [hash|e]; [rewrite (goes_on _ _ _ _ _ Hre)|rewrite (stops_there _ _ _ _ _ Hre); intros [= <- <-]; (split; [done|unfold w5 in Hl6; cbn in Hl6; lia])].
  destruct (entered_alone u name q w6 hash) as (n & w7 & -> & Hn7 & Hc & Hd); [by rewrite Hd0|]. intros [= <- <-].
  unfold w5 in Hl6, Hc6. cbn in Hl6, Hc6. split; [|lia]. rewrite Hd0 in Hd. apply (Case_in q name w w7 hash (looks w6) n u); [done..|lia|lia|exact Hd].
Qed.
Lemma a_login q w r w' : authenticate E q w = (r, w') ->
  (db w' = db w /\ (looks w <= looks w')%nat) \/ exists name u why, login_case q name w w' u why.
Proof using Halone.
  intros H. destruct (normalize_username (l_username q)) as [name|e] eqn:Hn.
  - pose proof (login_cases _ _ _ _ _ Hn H) as Hc. destruct r as [[u why]|e]; [right|by left]. destruct Hc as [Hc _]. eauto.
  - unfold authenticate in H. rewrite Hn in H. injection H as _ <-. by left.
Qed.
Fixpoint logins (qs : list Login) (w : World) : World :=
  match qs with [] => w | q :: qs => logins qs (authenticate E q w).2 end.

(** ** The bound on guesses *)
Section bounded.
Variables (most minutes : Z).
Hypothesis Hmost : 2 <= most.
Definition span : Z := 60 * Z.max 1 minutes.
Definition alike (q : Login) : Prop := l_max_failed q = most /\ l_lockout_minutes q = minutes.
Record bounded (w : World) : Prop := {
  b_ids : NoDup (map u_id (users (db w)));
  b_past : Forall (fun a => a_at a <= utc_text (clock E (looks w))) (attempts (db w));
  b_most : forall u t, u ∈ users (db w) -> after_last u t -> Z.of_nat (within (u_id u) t span (db w)) <= most;
  b_shut : forall u t, u ∈ users (db w) -> after_last u t -> utc_text (clock E (looks w)) <= t + span ->
    most <= Z.of_nat (_account_failures (u_id u) t (db w)) -> exists l, u_locked u = Some l /\ t + span < l }.
Lemma look_at n m : (n <= m)%nat -> utc_text (clock E n) <= utc_text (clock E m).
Proof using Hclock. intros H%Hclock. apply Z.div_le_mono; [done|lia]. Qed.
Lemma later_by q x : alike q -> utc_text (x + lockout q) = utc_text x + span.
Proof using. intros [_ Hm]. unfold utc_text, lockout, seconds, span. rewrite Hm. apply Z.div_add. done. Qed.
Lemma since_alike q w : alike q -> since q w = utc_text (clock E (looks w)) - span.
Proof using. intros Hq. unfold since. pose proof (later_by q (clock E (looks w) - lockout q) Hq) as H. rewrite Z.sub_add in H. lia. Qed.
Lemma bounded_still w w' : db w' = db w -> (looks w <= looks w')%nat -> bounded w -> bounded w'.
Proof using Hclock.
  intros Hd Hl%look_at [H1 H2 H3 H4]. split; rewrite Hd; [done| |done|].
  - eapply list.Forall_impl; [exact H2|]. cbn. lia.
  - intros u t Hu Ha Ht. apply H4; [done..|lia].
Qed.
(** A row that is no miss. *)
Lemma bounded_noted w w' a n : bounded w -> (looks w <= n < looks w')%nat -> a_at (a (next_attempt (db w))) = utc_text (clock E n) ->
  a_reason (a (next_attempt (db w))) <> REASON_BAD_PASSWORD -> db w' = noted (users (db w)) a (db w) -> bounded w'.
Proof using Hclock.
  intros [H1 H2 H3 H4] Hn Hat Hr Hd. assert (Hm : forall id t, missed id t (a (next_attempt (db w))) = false).
  { intros id t. unfold missed. rewrite (bool_decide_eq_false_2 (a_reason _ = _)) by done. by rewrite andb_false_r. }
  pose proof (look_at (looks w) n) as Hl1. pose proof (look_at n (looks w')) as Hl2. split; rewrite Hd.
  - done.
  - cbn. apply Forall_app. split; [|repeat constructor; rewrite Hat; lia]. eapply list.Forall_impl; [exact H2|]. cbn. lia.
  - intros u t Hu Ha. rewrite within_noted, Hm, Nat.add_0_r. by apply H3.
  - intros u t Hu Ha Ht. rewrite misses_noted, Hm, Nat.add_0_r. apply H4; [done..|lia].
Qed.
Lemma ids_update f id (us : list User) : (forall u, u_id (f u) = u_id u) ->
  map u_id (map (fun u => if u_id u =? id then f u else u) us) = map u_id us.
Proof using. intros H. by apply map_update. Qed.
(** The password was right: what is counted of the account starts again. *)
Lemma bounded_in w w' q name hash m n u : bounded w -> (looks w <= m <= n)%nat -> (n < looks w')%nat ->
  db w' = noted (users (update_users (signed_in hash (utc_text (clock E m))) (u_id u) (db w))) (attempt_row q (Some (u_id u)) name true REASON_OK n) (db w) ->
  bounded w'.
Proof using Hclock Hmost.
  intros [H1 H2 H3 H4] Hm Hn Hd. set (row := attempt_row _ _ _ _ _ _) in Hd.
  assert (Hno : forall id t, missed id t (row (next_attempt (db w))) = false).
  { intros id t. unfold missed. cbn [row attempt_row a_reason]. by rewrite (bool_decide_eq_false_2 (REASON_OK = _)), andb_false_r. }
  pose proof (look_at (looks w) m) as Hl1. pose proof (look_at m n) as Hl2. pose proof (look_at n (looks w')) as Hl3.
  assert (Hold : forall v t, v ∈ users (db w') -> after_last v t -> (exists v0, v0 ∈ users (db w) /\ u_id v0 = u_id v /\ v = v0)
     \/ _account_failures (u_id v) t (db w) = 0%nat).
  { rewrite Hd. intros v t (v0 & -> & Hv0)%list_elem_of_fmap Ha. destruct (u_id v0 =? u_id u); [right|left; eauto].
    apply no_miss_since. eapply list.Forall_impl; [exact H2|]. cbn in *. intros a Ha'. unfold after_last in Ha. cbn in Ha. lia. }
  split.
  - rewrite Hd. cbn. by rewrite ids_update.
  - rewrite Hd. cbn. apply Forall_app. split; [|repeat constructor; cbn; lia]. eapply list.Forall_impl; [exact H2|]. cbn. lia.
  - intros v t Hv Ha. destruct (Hold v t Hv Ha) as [(v0 & Hv0 & _ & ->)|Hz].
    + rewrite Hd, within_noted, Hno, Nat.add_0_r. by apply H3.
    + rewrite Hd, within_noted, Hno, Nat.add_0_r. pose proof (within_misses (u_id v) t span (db w)). lia.
  - intros v t Hv Ha Ht. rewrite Hd, misses_noted, Hno, Nat.add_0_r. destruct (Hold v t Hv Ha) as [(v0 & Hv0 & _ & ->)|Hz].
    + apply H4; [done..|lia].
    + lia.
Qed.
Lemma open_until u now l : u_locked u = Some l -> locked_at u now = false -> l <= utc_text now.
Proof using. unfold locked_at. intros ->. intros H%Z.ltb_ge. apply Z.div_le_lower_bound; [done|]. unfold seconds in H. lia. Qed.
(** It was wrong: one more guess, and the account is shut before there are too many. *)
Lemma bounded_missed w w' q name k m n u : bounded w -> alike q -> active_user name (db w) = Some u ->
  locked_at u (clock E (S (looks w))) = false -> (looks w <= k <= m)%nat -> (m <= n < looks w')%nat ->
  (u_locked u <> None -> S (looks w) <= n)%nat ->
  db w' = noted (users (update_users (counted (misses_of q w u)
        (if (0 <? l_max_failed q) && (l_max_failed q <=? misses_of q w u) then Some (utc_text (clock E k + lockout q)) else None)
        (utc_text (clock E m))) (u_id u) (db w)))
      (attempt_row q (Some (u_id u)) name false REASON_BAD_PASSWORD n) (db w) -> bounded w'.
Proof using Hclock Hmost.
  intros [H1 H2 H3 H4] Hq Hu Hlo Hk Hn Hlook Hd. set (row := attempt_row _ _ _ _ _ _) in Hd.
  assert (Hin : u ∈ users (db w)) by (by apply find_in in Hu as [? _]).
  pose proof (look_at (looks w) k) as Hl1. pose proof (look_at k n) as Hl2. pose proof (look_at n (looks w')) as Hl3.
  assert (Hrow : forall id t, missed id t (row (next_attempt (db w))) = bool_decide (Some (u_id u) = Some id) && (t <? utc_text (clock E n))).
  { intros id t. unfold missed. cbn [row attempt_row a_reason a_user a_at]. by rewrite (bool_decide_eq_true_2 (REASON_BAD_PASSWORD = _)), andb_true_r. }
  assert (Hold : forall v, v ∈ users (db w') -> (u_id v <> u_id u /\ v ∈ users (db w))
     \/ (u_id v = u_id u /\ u_last_login v = u_last_login u /\ u_locked v = (if (0 <? l_max_failed q) && (l_max_failed q <=? misses_of q w u) then Some (utc_text (clock E k + lockout q)) else None))).
  { rewrite Hd. intros v (v0 & -> & Hv0)%list_elem_of_fmap. destruct (Z.eqb_spec (u_id v0) (u_id u)) as [He|He]; [right|by left].
    assert (v0 = u) as -> by (eapply (NoDup_map_inj u_id); eauto). done. }
  split.
  - rewrite Hd. cbn. by rewrite ids_update.
  - rewrite Hd. cbn. apply Forall_app. split; [|repeat constructor; cbn; lia]. eapply list.Forall_impl; [exact H2|]. cbn. lia.
  - intros v t Hv Ha. rewrite Hd, within_noted, Hrow. destruct (Hold v Hv) as [[Hid Hv0]|(Hid & Hll & _)].
    + rewrite bool_decide_eq_false_2 by congruence. cbn [andb]. rewrite Nat.add_0_r. by apply H3.
    + unfold after_last in Ha. rewrite Hll in Ha. rewrite Hid. specialize (H3 u t Hin Ha). destruct (_ && _ && _) eqn:Hc; [|lia].
      apply andb_true_iff in Hc as [[_ Ht%Z.ltb_lt]%andb_true_iff Hw%Z.leb_le]. cbn in Hw. pose proof (within_misses (u_id u) t span (db w)).
      destruct (Z.le_gt_cases most (Z.of_nat (_account_failures (u_id u) t (db w)))) as [Hge|]; [|lia].
      destruct (H4 u t Hin Ha) as (l & Hl & Hlt); [lia|done|]. exfalso. apply (open_until u (clock E (S (looks w))) l) in Hlo; [|done].
      rewrite Hl in Hlook. pose proof (look_at (S (looks w)) n (Hlook ltac:(done))). lia.
  - intros v t Hv Ha Ht. rewrite Hd, misses_noted, Hrow. destruct (Hold v Hv) as [[Hid Hv0]|(Hid & Hll & Hlk)].
    + rewrite bool_decide_eq_false_2 by congruence. cbn [andb]. rewrite Nat.add_0_r. apply H4; [done..|lia].
    + unfold after_last in Ha. rewrite Hll in Ha. rewrite Hid, Hlk. intros Hmost'. destruct Hq as [Hqm Hql].
      assert (Hfew : Z.of_nat (_account_failures (u_id u) t (db w)) + 1 <= misses_of q w u).
      { unfold misses_of. rewrite since_alike by done. match goal with |- _ <= Z.of_nat (_account_failures _ ?s _) + 1 =>
          assert (Hs : s <= t) by (destruct (u_last_login u); lia); pose proof (misses_since (u_id u) t s (db w) Hs) end. lia. }
      assert (most <= misses_of q w u) as Hge by (destruct (_ && _) in Hmost'; lia).
      rewrite Hqm, (proj2 (Z.ltb_lt 0 most)), (proj2 (Z.leb_le most _)) by lia. cbn [andb]. eexists. split; [reflexivity|].
      rewrite later_by by done. apply Z.add_lt_mono_r.
      destruct (Z.le_gt_cases (utc_text (clock E k)) t) as [Hle|]; [|done]. exfalso.
      rewrite (no_miss_since (u_id u) t (db w)) in Hmost'; [destruct (_ && _) in Hmost'; lia|].
      eapply list.Forall_impl; [exact H2|]. cbn. lia.
Qed.
Lemma bounded_login q w r w' : alike q -> authenticate E q w = (r, w') -> bounded w -> bounded w'.
Proof using Halone Hclock Hmost.
  intros Hq [[Hd Hl]|(name & u & why & Hc)]%a_login Hb; [by apply (bounded_still w)|].
  destruct Hc as [n ? Hn Hd|n ? ? Hn Hd|n u ? ? ? Hn Hd|k m n u Hu ? Hlo ? Hk Hn Hlook Hd|hash m n u ? ? ? ? Hm Hn Hd];
    try (eapply (bounded_noted w w' _ n Hb Hn); [| |exact Hd]; [reflexivity|discriminate]).
  - by apply (bounded_missed w w' q name k m n u).
  - by apply (bounded_in w w' q name hash m n u).
Qed.
Lemma bounded_logins qs : forall w, Forall alike qs -> bounded w -> bounded (logins qs w).
Proof using Halone Hclock Hmost.
  induction qs as [|q qs IH]; intros w Hqs Hb; cbn; [done|]. apply list.Forall_cons in Hqs as [Hq Hqs].
  apply IH; [done|]. destruct (authenticate E q w) as [r w'] eqn:H. by eapply bounded_login.
Qed.
Lemma bounded_first w : NoDup (map u_id (users (db w))) -> attempts (db w) = [] -> bounded w.
Proof using Hmost. intros Hnd Ha. split; rewrite ?Ha; [done|done|..]; intros u t Hu Hl; unfold within, _account_failures; rewrite Ha; cbn; lia. Qed.
End bounded.

(** ** One address *)
Section one_address.
Variables (ip : string) (most per_ip : Z).
Hypothesis Hip : str_take 64 ip <> "".
Hypothesis Hper : 0 < per_ip < most.
Definition from_there (q : Login) : Prop := l_ip q = ip /\ l_max_failed_per_ip q = per_ip /\ l_max_failed q = most.
Definition open_to_all (w : World) : Prop := Forall (fun u => u_locked u = None) (users (db w))
  /\ Forall (fun a => a_ip a = str_take 64 ip /\ (a_reason a = REASON_BAD_PASSWORD -> a_succeeded a = false)) (attempts (db w)).
(** Every miss of an account is a failure of the address. *)
Lemma misses_of_address q w u : from_there q -> open_to_all w -> throttles q w = false -> misses_of q w u < most.
Proof using Hip Hper.
  intros (Hq & Hp & _) [_ Ha] Ht. unfold throttles in Ht. rewrite Hq, Hp in Ht. rewrite (proj2 (String.eqb_neq _ _)) in Ht by done.
  rewrite (proj2 (Z.ltb_lt 0 per_ip)) in Ht by lia. cbn [negb andb] in Ht. apply Z.leb_gt in Ht. unfold misses_of.
  match goal with |- Z.of_nat (_account_failures ?id ?s ?d) + 1 < _ =>
    assert (Hle : (_account_failures id s d <= _failures_from (str_take 64 ip) (since q w) d)%nat) end; [|lia].
  apply fewer. intros a Hin Hm. rewrite list.Forall_forall in Ha. destruct (Ha a Hin) as [Hai Hs]. pose proof (missed_time _ _ _ Hm) as Hlt.
  unfold missed in Hm. apply andb_true_iff in Hm as [[_ Hr%bool_decide_eq_true_1]%andb_true_iff _]. unfold failed_from.
  rewrite Hai, String.eqb_refl, (Hs Hr), Hr. cbn. apply Z.leb_le. destruct (u_last_login u); lia.
Qed.
Lemma open_login q w r w' : from_there q -> authenticate E q w = (r, w') -> open_to_all w -> open_to_all w'.
Proof using Halone Hip Hper.
  intros Hq H Hw. pose proof (a_login _ _ _ _ H) as Hc. destruct Hc as [[Hd _]|(name & u & why & Hc)]; [unfold open_to_all; by rewrite Hd|].
  assert (Hadd : forall user ok why n us, db w' = noted us (attempt_row q user name ok why n) (db w) ->
    (why = REASON_BAD_PASSWORD -> ok = false) -> Forall (fun u => u_locked u = None) us -> open_to_all w').
  { intros user ok why' n us Hd Hok Hus. unfold open_to_all. rewrite Hd. cbn. split; [done|]. apply Forall_app. split; [apply Hw|].
    repeat constructor; cbn; [by destruct Hq as (-> & _)|done]. }
  assert (Hupd : forall f id, (forall u, u_locked (f u) = None) -> Forall (fun u => u_locked u = None) (users (update_users f id (db w)))).
  { intros f id Hf. cbn. apply list.Forall_forall. intros x (y & -> & Hy)%list_elem_of_fmap. destruct (u_id y =? id); [done|].
    destruct Hw as [Hw _]. rewrite list.Forall_forall in Hw. auto. }
  destruct Hc as [n ? ? Hd|n ? ? ? Hd|n u ? ? ? ? Hd|k m n u Hu Ht Hlo ? Hk Hn Hlook Hd|hash m n u ? ? ? ? Hm Hn Hd];
    (eapply Hadd; [exact Hd|done|]); try apply Hw; apply Hupd; [|done].
  intros x. cbn. pose proof (misses_of_address q w u Hq Hw Ht). destruct Hq as (_ & _ & ->). by rewrite (proj2 (Z.leb_gt _ _)), andb_false_r.
Qed.
Lemma open_logins qs : forall w, Forall from_there qs -> open_to_all w -> open_to_all (logins qs w).
Proof using Halone Hip Hper.
  induction qs as [|q qs IH]; intros w Hqs Hb; cbn; [done|]. apply list.Forall_cons in Hqs as [Hq Hqs].
  apply IH; [done|]. destruct (authenticate E q w) as [r w'] eqn:H. by eapply open_login.
Qed.
End one_address.
End logins.
(** ** What the console promises of a login *)
Definition one_at_a_time (E : Env) : Prop := forall n d, others E n d = d.
Definition steady (E : Env) : Prop := forall n m, (n <= m)%nat -> clock E n <= clock E m.
(** C22: A name that cannot be one is answered at once as no such account, with no check and no
    row. Any other login is answered for the first of: its address is throttled, no such
    account, account locked, wrong password, right; whichever it is, exactly one password check
    is made and exactly one row written, with that reason, the name tried and the address, and
    an account is answered exactly when the reason is ok. A login that raises has changed no
    table. It is shown for logins that no other process comes between. *)
Theorem a_login_is_answered_for_the_first_reason E q w r w' : one_at_a_time E -> authenticate E q w = (r, w') ->
  match normalize_username (l_username q), r with
  | Err _, _ => r = Ok (None, REASON_NO_USER) /\ w' = w
  | Ok name, Ok (u, why) => why = verdict E q name w /\ checks w' = S (checks w)
      /\ (exists row, attempts (db w') = attempts (db w) ++ [row] /\ row_of q name w why row)
      /\ (why = REASON_OK <-> u <> None)
  | Ok name, Err _ => db w' = db w
  end.
Proof.
  intros Ho H. destruct (normalize_username (l_username q)) as [name|e] eqn:Hn.
  2: { unfold authenticate in H. rewrite Hn in H. by injection H as <- <-. }
  pose proof (login_cases E Ho q name w r w' Hn H) as Hc. destruct r as [[v why]|e]; [|apply Hc].
  destruct Hc as [Hc Hk]. unfold verdict, row_of.
  destruct Hc as [n Ht ? Hd|n Ht Hu ? Hd|n u Ht Hu Hlo ? Hd|k m n u Hu Ht Hlo Hv ? ? ? Hd|hash m n u Hu Ht Hlo Hv ? ? Hd];
    rewrite Ht, ?Hu, ?Hlo, ?Hv; (split; [done|]); (split; [done|]);
    (split; [rewrite Hd; eexists; split; [reflexivity|done]|]); try done.
  split; [intros _|done]. rewrite Hd. unfold user_by_id. cbn. intros Hf. apply find_in in Hu as [Hu _].
  destruct (in_update (signed_in hash (utc_text (clock E m))) (u_id u) _ _ Hu) as (u' & Hin%list_elem_of_In & Hu').
  apply (List.find_none _ _ Hf) in Hin. rewrite Hu', Z.eqb_refl in Hin. cbn in Hin. by rewrite Z.eqb_refl in Hin.
Qed.
(** C5: However many logins follow one another, from whatever addresses, in any stretch of the
    lockout time after its last sign-in an account is tried with a wrong password at most
    max_failed times (two or more), for one process with a clock that does not go back. *)
Theorem guesses_are_bounded E most minutes qs w u t : one_at_a_time E -> steady E -> 2 <= most ->
  Forall (alike most minutes) qs -> web_ok (db w) -> attempts (db w) = [] ->
  u ∈ users (db (logins E qs w)) -> after_last u t ->
  Z.of_nat (within (u_id u) t (60 * Z.max 1 minutes) (db (logins E qs w))) <= most.
Proof.
  intros Ho Hc Hm Hq Hw Ha. pose proof (bounded_first E most minutes Hm w (proj1 (ok_users _ Hw)) Ha) as Hb.
  apply (b_most E most minutes _ (bounded_logins E Ho Hc most minutes Hm qs w Hq Hb)).
Qed.
(** C14: Logins that follow one another from one address, whose limit is below that of an
    account, never lock an account. *)
Theorem one_address_locks_nobody E ip most per_ip qs w u : one_at_a_time E -> str_take 64 ip <> "" -> 0 < per_ip < most ->
  Forall (from_there ip most per_ip) qs -> attempts (db w) = [] -> Forall (fun u => u_locked u = None) (users (db w)) ->
  u ∈ users (db (logins E qs w)) -> u_locked u = None.
Proof.
  intros Ho Hip Hp Hq Ha Hl Hu. assert (Hw : open_to_all ip w) by (split; [done|by rewrite Ha]).
  destruct (open_logins E Ho ip most per_ip Hip Hp qs w Hq Hw) as [H _]. rewrite list.Forall_forall in H. auto.
Qed.

(** ** The two accounts again *)
Lemma lab_alone : one_at_a_time (lab 1).
Proof. done. Qed.
Lemma lab_steady : steady (lab 1).
Proof. intros n m H. cbn -[Z.mul Z.add seconds]. lia. Qed.
Definition guess (ip : string) (per_ip : Z) (password : string) : Login := mkLogin "Thanh" password ip "browser" 3 15 per_ip.
(** Six guesses from six addresses: three are counted, the others find the account locked. *)
Definition six : list Login := map (fun ip => guess ip 5 "wrong password") ["10.0.0.1"; "10.0.0.2"; "10.0.0.3"; "10.0.0.4"; "10.0.0.5"; "10.0.0.6"].
Definition first_user (w : World) : User := default (mkUser 0 "" "" "" "" "" false 0 false 0 None None 0 0 None "" "" "") (head (users (db w))).
Theorem verdict_witness :
  checks (authenticate (lab 1) (guess "10.0.0.1" 5 "wrong password") signed_up).2 = 1%nat
  /\ reason_of (authenticate (lab 1) (guess "10.0.0.1" 5 "wrong password") signed_up).1 = Some REASON_BAD_PASSWORD.
Proof.
  assert (Hr : reason_of (authenticate (lab 1) (guess "10.0.0.1" 5 "wrong password") signed_up).1 = Some REASON_BAD_PASSWORD) by (vm_compute; reflexivity).
  split; [|exact Hr].
  pose proof (a_login_is_answered_for_the_first_reason (lab 1) (guess "10.0.0.1" 5 "wrong password") signed_up _ _ lab_alone
    (surjective_pairing _)) as H.
  destruct (authenticate (lab 1) (guess "10.0.0.1" 5 "wrong password") signed_up).1 as [[u why]|e]; [|discriminate Hr].
  destruct (normalize_username _) as [name|e]; [destruct H as (_ & -> & _)|destruct H as [H _]; injection H as _ ->; discriminate Hr].
  vm_compute. reflexivity.
Defined.
Theorem bounded_witness :
  length (List.filter (missed 1 0) (attempts (db (logins (lab 1) six signed_up)))) = 3%nat
  /\ Z.of_nat (within (u_id (first_user (logins (lab 1) six signed_up))) 0 900 (db (logins (lab 1) six signed_up))) <= 3.
Proof.
  split; [vm_compute; reflexivity|].
  refine (guesses_are_bounded (lab 1) 3 15 six signed_up (first_user (logins (lab 1) six signed_up)) 0 lab_alone lab_steady _ _ signed_up_ok _ _ _);
    [lia|repeat constructor|vm_compute; reflexivity|apply list_elem_of_In; vm_compute; by left|vm_compute; exact I].
Defined.
(** Seven guesses from one address that may fail twice. *)
Definition seven : list Login := map (fun p => guess "10.0.0.9" 2 p) ["a"; "b"; "c"; "d"; "e"; "f"; "correct horse"].
Theorem nobody_witness :
  map a_reason (attempts (db (logins (lab 1) seven signed_up)))
    = [REASON_BAD_PASSWORD; REASON_BAD_PASSWORD; REASON_IP_THROTTLED; REASON_IP_THROTTLED; REASON_IP_THROTTLED; REASON_IP_THROTTLED; REASON_IP_THROTTLED]
  /\ u_locked (first_user (logins (lab 1) seven signed_up)) = None.
Proof.
  split; [vm_compute; reflexivity|].
  refine (one_address_locks_nobody (lab 1) "10.0.0.9" 3 2 seven signed_up _ lab_alone _ _ _ _ _ _);
    [discriminate|lia|repeat constructor|vm_compute; reflexivity|vm_compute; repeat constructor|apply list_elem_of_In; vm_compute; by left].
Defined.

(** ** Logins at once
    Each of four logins of one address, that may fail twice, looks at the count of its address and
    at the account before the others have written a row: the account is tried four times, one more
    than its limit, and it is locked. *)
Fixpoint at_once (n : nat) : Env :=
  lab_env 1 (fun block d => match n with
    | S n => if (block =? 2)%nat then db (authenticate (at_once n) (guess "10.0.0.9" 2 "wrong password") (fresh_world d)).2 else d
    | O => d
    end).
Lemma logins_at_once_lock_an_account :
  let w := (authenticate (at_once 3) (guess "10.0.0.9" 2 "wrong password") (fresh_world (db signed_up))).2 in
  map a_reason (attempts (db w)) = [REASON_BAD_PASSWORD; REASON_BAD_PASSWORD; REASON_BAD_PASSWORD; REASON_BAD_PASSWORD]
  /\ u_locked (first_user w) = Some 1000900.
Proof. split; vm_compute; reflexivity. Qed.
